(* ===== verification/_CoqProject ===== *)
-Q . S2P
Prelude.v
Mmu.v
Memory.v
Spinlock.v
Kalloc.v
Vm.v
VmFacts.v
VmUser.v
VmCopy.v
Shm.v
ShmFacts.v
ShmProc.v
Sample.v
ShmTheorems.v
ShmSession.v
VmTheorems.v
Sleeplock.v
Ring.v
Cache.v
Bio.v
BioFacts.v
Log.v
LogFacts.v
LogTheorems.v
Store.v
Fs.v
FsFacts.v
FsFile.v
FsBmap.v
FsInode.v
FsRw.v
FsDir.v
FsTheorems.v
Pipe.v
File.v
FileTheorems.v
Proc.v
ProcSteps.v
ProcFork.v
Syscall.v
Exec.v
Sysfile.v
Trap.v
SyscallTheorems.v
ExecTheorems.v
Grep.v
Format.v
Console.v
Kbd.v
Sh.v
ShRun.v
Umalloc.v
Ide.v
Mp.v
Mkfs.v
MkfsFacts.v
Asm.v
AsmTheorems.v
NewProc.v
Cmos.v
Apic.v
Boot.v
User.v
UserShm.v
Uart.v
Main.v
