(* ===== verification/Prelude.v ===== *)
(** * xv6 with System-V shared memory

    The program is the x86 teaching kernel xv6 with System-V style shared
    memory added to it ([shm.c], and changes to [vm.c], [proc.c], [exec.c],
    [sysfile.c]), its file system and devices, and its user programs.

    ** The parts, and where they are

    - This file: computations, lenses, arrays, loops and the rules of the
      total-correctness predicate [wp].  [Mmu]: the constants and address
      arithmetic of [param.h], [types.h], [memlayout.h], [mmu.h].  [Memory]:
      byte memory and [string.c].
    - [Spinlock] ([spinlock.c]): module [Spin] has the lock word, the owner
      and the interrupt nesting of each CPU, and a step relation that
      interleaves CPUs; module [Lock] is the view of one run.
    - [Kalloc] ([kalloc.c]): the free list threaded through the free pages.
    - [Vm] ([vm.c]) over [Kalloc]: page tables in memory.  [VmFacts] has the
      invariant [vm_ok] and the function [mapping] the hardware computes,
      [VmUser] the ownership of pages, [VmCopy] [setupkvm] and [copyuvm],
      [VmTheorems] the properties.
    - [Shm] ([shm.c]) over [Kalloc] and [Vm]: state [shst] is the table
      [shmpgtable], its lock, the clock and the calling process.  [ShmFacts]
      has the abstract map of segments and [shm_inv], [ShmProc] the abstract
      map of attachments and [proc_inv], [ShmTheorems] the properties of each
      call, [ShmSession] those of any sequence of calls of a process.
      [Sample] is a concrete machine that satisfies these invariants.
    - [Sleeplock] ([sleeplock.c]), [Ring], [Bio] ([bio.c], [memide.c]) and
      [BioFacts]: the buffer cache.  [Cache] states what it promises as class
      [BufCache]; [Log] ([log.c]), [LogFacts] and [LogTheorems] are proved
      against that class and [BioFacts] discharges it.
    - [Store] states what a transaction promises as class [TxStore], and
      discharges it from the log.  [Fs] ([fs.c]) is over that class, with
      [FsFacts] (free map, inode cache), [FsFile], [FsBmap], [FsRw] (content),
      [FsInode] (inodes on disk), [FsDir] (directories) and [FsTheorems].
      [Mkfs] ([mkfs.c]) makes the image the file system starts from, and
      [MkfsFacts] reads it back.
    - [Pipe] ([pipe.c]) with a step relation of readers and writers; [File]
      ([file.c]) over [Fs] and [Pipe]; [FileTheorems].
    - [Proc] ([proc.c]) over memory, files and shared memory, with the
      interrupt nesting of the CPU that [sched] checks; [ProcSteps] has the
      step relation of CPUs and processes and relates [Proc] to it, [ProcFork]
      does so for [fork].
    - [Syscall] ([syscall.c], [sysproc.c]), [Exec] ([exec.c]), [Sysfile]
      ([sysfile.c]) and [Trap] ([trap.c]): the system calls over all of the
      above; [SyscallTheorems], [ExecTheorems].
    - [Asm]: a small x86 with the code of [trapasm.S], [vectors.S], [swtch.S],
      [usys.S] and [initcode.S] and the descriptors of [mmu.h], [seginit],
      [tvinit] and [switchuvm]; a C function called from it is a class
      [CFun], the calling convention.  [AsmTheorems] has what the fragments
      guarantee, [NewProc] composes them with [allocproc] and [fork], and has
      [forkret], [procdump] and [kvmalloc].
    - Devices: [Console] ([console.c], output of [uart.c]), [Kbd] ([kbd.c]),
      which feeds it, [Ide] ([ide.c]), [Mp] ([mp.c]), [Cmos] (the date of
      [lapic.c]) over a clock described by class [Rtc], [Apic] ([lapic.c],
      [ioapic.c], [picirq.c]) and [Uart] ([uart.c], and module [Ulib] with the
      string functions of [ulib.c]).
    - Start-up: [Boot] ([bootmain.c]) loads the kernel; [Main] ([main.c],
      [entryother.S]) has the calls of [main] that hand out memory, over
      [Kalloc], [Vm], [Shm] and [Apic], with the processors they start.
    - User level: [Sh] and [ShRun] ([sh.c]), [Umalloc] ([umalloc.c]), with
      class [Sbrk] for the system call it uses, [Grep] ([grep.c]) and
      [Format] ([printf.c], [ulib.c], printing of [console.c]).  [User] has
      the small programs ([cat.c] to [zombie.c], and those of the shared-memory
      interface) as trees of system calls; [UserShm] runs them on [Shm].

    A C function is a definition of the same name.  A C struct is a record,
    with the fields in their order; an array is a finite map from indices to
    elements whose missing entries are zero, and an access outside its bounds
    is [Undef].  [panic] is [Panic] with the message.  Integers are [Z] in the
    range of their type, wrapped where C wraps.

    ** What the theorems show

    - Shared memory: each call implements an operation on the abstract maps
      of segments and attachments, errors included, keeps the invariants and
      the page ownership; [shmat]/[shmdt] and [shmget]/[removeshm] undo each
      other.  A process that makes any sequence of calls has attachments only
      to segments that exist, each of which counts them.  Arguments and
      situations the code mishandles are hypotheses of these theorems, named
      in their comments; a last group ([shmat_wrong_frame] and the lemmas after it)
      shows where the code does not do what it means to.
    - Memory: [kalloc]/[kfree] are a stack of pages; address spaces grow,
      shrink, copy and are freed without losing or sharing a page.
    - Locks and processes: mutual exclusion; a process runs on one CPU; every
      zombie has a parent that will find it; each function of [proc.c] makes
      steps of the relation these invariants are about, and enters [sched] with
      [ptable.lock] as the only lock.
    - Assembly: traps build the frame C reads and resume from it, a system
      call stub is a function call, [swtch] resumes a thread where it
      stopped, and a forked child starts with its parent's registers and 0.
    - File system: the cache is a store of blocks, a transaction is atomic
      under a crash after any prefix of its writes, operations within their
      reservation find room in the log; files, inodes, directories and the
      free map read back what was written; pipes are first in, first out, and
      lose no wakeup as long as no process is killed.
    - System calls: the checks on user pointers admit exactly the memory
      below the size of the process, and so nothing in shared memory; [exec]
      builds the stack [main] expects above a page the program cannot touch.
    - Devices and user programs: the console is a line editor, the disk
      serves requests in order with the commands its controller needs, the parser of the shell decides its grammar
      and always ends, the shell connects the programs it starts as the tree
      says, [malloc] and [free] lose nothing, [grep] prints the lines its
      pattern accepts, printed numbers read back; the date is read whole from
      a running clock; [wc] and [cat] count and copy their input, and [ipcrm]
      removes the segment it is given.
    - Start-up: the boot loader puts the kernel's segments in place, and [main]
      ends with the mappings of [kmap] loaded, every page free or owned once,
      the shared-memory invariant established and each processor on its own
      stack, if the kernel leaves room below four megabytes for these.

    ** Bounds and fuel

    [wp] demands a result, so it excludes [Panic], [Undef] and [NoFuel].  A
    [for] loop is structural on its count.  A [while] loop takes fuel: the
    number of slots, pages or bytes it can visit plus one for the last test,
    written at the loop; the theorems prove that it is enough, or give a
    bound from which on it is.  A process that must wait for another in
    [acquiresleep] or [begin_op] gives [NoFuel]; where waiting matters
    (locks, log, pipes, processes, disk) there is a step relation over any
    number of participants and any interleaving.

    ** Not modelled

    - The entry code ([bootasm.S], [entry.S], and the mode switches at the
      start of [entryother.S]): it changes processor modes on the bare machine.
    - Interrupts as events: a handler is a function that is called, and [Proc]
      has the CPU's interrupt flag and [ncli] but no interrupt in the middle
      of another function.
    - In [main], the order of the calls that do not hand out memory: each
      initialises its own component, where it is modelled.
    - [test.c] and [access.c], written for the shared memory of a host system;
      the tests ([usertests.c], [forktest.c], [stressfs.c]); headers that only
      declare; the build and printing scripts. *)

From stdpp Require Import base gmap strings list fin_maps.
From Stdlib Require Import ZArith Lia.

#[global] Open Scope Z_scope.

(** ** Machine integers

    A C integer is a [Z] kept in the range of its type; a conversion wraps. *)

Definition u8 (z : Z) : Z := z mod 256.
Definition u16 (z : Z) : Z := z mod 65536.
Definition u32 (z : Z) : Z := z mod 4294967296.
Definition i32 (z : Z) : Z := (z + 2147483648) mod 4294967296 - 2147483648.
Definition i16 (z : Z) : Z := (z + 32768) mod 65536 - 32768.
Definition i8 (z : Z) : Z := (z + 128) mod 256 - 128.

(** C's [/] and [%] on signed operands truncate towards zero. *)
Definition cdiv (a b : Z) : Z := Z.quot a b.
Definition crem (a b : Z) : Z := Z.rem a b.

(** ** Computations

    A kernel routine is a state transformer.  It returns a value, panics
    (the kernel stops with a message), touches memory outside the object it
    indexes ([Undef]: C gives such a run no meaning), or uses up the fuel of
    an unbounded loop ([NoFuel]). *)

Inductive outcome (S A : Type) : Type :=
| Ret (a : A) (s : S)
| Panic (msg : string) (s : S)
| Undef
| NoFuel.

Arguments Ret {S A} a s.
Arguments Panic {S A} msg s.
Arguments Undef {S A}.
Arguments NoFuel {S A}.

Definition M (S A : Type) : Type := S -> outcome S A.

Definition ret {S A} (a : A) : M S A := fun s => Ret a s.

Definition bind {S A B} (c : M S A) (k : A -> M S B) : M S B := fun s =>
  match c s with
  | Ret a s' => k a s'
  | Panic m s' => Panic m s'
  | Undef => Undef
  | NoFuel => NoFuel
  end.

Definition gets {S A} (f : S -> A) : M S A := fun s => Ret (f s) s.
Definition modify {S} (f : S -> S) : M S unit := fun s => Ret tt (f s).
Definition panic {S A} (msg : string) : M S A := fun s => Panic msg s.
Definition undef {S A} : M S A := fun _ => Undef.

Declare Scope kernel_scope.
Delimit Scope kernel_scope with K.
#[global] Open Scope kernel_scope.

Notation "'let*' x := c 'in' k" := (bind c (fun x => k))
  (at level 10, x name, c at level 100, k at level 200,
   format "'[v' 'let*'  x  :=  c  'in' '/' k ']'") : kernel_scope.
Notation "'let*' ' x := c 'in' k" := (bind c (fun y => match y with x => k end))
  (at level 10, x strict pattern, c at level 100, k at level 200) : kernel_scope.
Notation "c ;;; k" := (bind c (fun _ => k))
  (at level 199, k at level 200, right associativity,
   format "'[v' c  ;;; '/' k ']'") : kernel_scope.

(** [when b c] is C's [if(b) c;]. *)
Definition when {S} (b : bool) (c : M S unit) : M S unit :=
  if b then c else ret tt.

(** ** Loops

    [iter fuel body a] runs [body] on the loop variables [a] until it exits
    with [inr]. *)

Fixpoint iter {S A B} (fuel : nat) (body : A -> M S (A + B)) (a : A) : M S B :=
  match fuel with
  | O => fun _ => NoFuel
  | Datatypes.S n =>
      let* r := body a in
      match r with
      | inl a' => iter n body a'
      | inr b => ret b
      end
  end.

(** [forn n i body] is [for(k = 0; k < n; k++) body(i + k)]; [for_up lo hi]
    is [for(i = lo; i < hi; i++)] with a bound the body does not change. *)
Fixpoint forn {S} (n : nat) (i : Z) (body : Z -> M S unit) : M S unit :=
  match n with
  | O => ret tt
  | Datatypes.S n' => body i ;;; forn n' (i + 1) body
  end.

Definition for_up {S} (lo hi : Z) (body : Z -> M S unit) : M S unit :=
  forn (Z.to_nat (hi - lo)) lo body.

(** A counted loop whose body may leave the function with a value. *)
Fixpoint forn_exit {S R} (n : nat) (i : Z) (body : Z -> M S (option R)) : M S (option R) :=
  match n with
  | O => ret None
  | Datatypes.S n' =>
      let* r := body i in
      match r with
      | Some x => ret (Some x)
      | None => forn_exit n' (i + 1) body
      end
  end.

Definition for_exit {S R} (lo hi : Z) (body : Z -> M S (option R)) : M S (option R) :=
  forn_exit (Z.to_nat (hi - lo)) lo body.

(** ** Arrays

    A C object with static storage starts out as zeroes; [czero] is that
    value.  An array is a finite map read with that default, and the monadic
    accessors check the index against the length of the array. *)

Class CZero (A : Type) := czero : A.

#[export] Instance czero_Z : CZero Z := 0.
#[export] Instance czero_bool : CZero bool := false.
#[export] Instance czero_option {A} : CZero (option A) := None.

Abbreviation arr A := (gmap Z A).

Definition asel {A} `{CZero A} (a : arr A) (i : Z) : A := default czero (a !! i).

Notation "a .[ i ]" := (asel a i) (at level 1, i at level 200, left associativity,
  format "a .[ i ]") : kernel_scope.

Definition aget {S A} `{CZero A} (len : Z) (a : S -> arr A) (i : Z) : M S A := fun s =>
  if (0 <=? i) && (i <? len) then Ret (a s).[i] s else Undef.

Definition aset {S A} (len : Z) (upd : (arr A -> arr A) -> S -> S) (i : Z) (x : A) : M S unit :=
  fun s =>
  if (0 <=? i) && (i <? len) then Ret tt (upd (fun a => <[i := x]> a) s) else Undef.

(** ** Sub-states

    A component's operations run on its own state; a lens embeds them in a
    larger one. *)

Record lens (T S : Type) : Type := mklens {
  lget : T -> S;
  lset : S -> T -> T
}.

Arguments mklens {T S}.
Arguments lget {T S}.
Arguments lset {T S}.

Class LensLaws {T S} (l : lens T S) : Prop := {
  lget_lset : forall s t, lget l (lset l s t) = s;
  lset_lget : forall t, lset l (lget l t) t = t;
  lset_lset : forall s s' t, lset l s (lset l s' t) = lset l s t
}.

Definition zoom {T S A} (l : lens T S) (c : M S A) : M T A := fun t =>
  match c (lget l t) with
  | Ret a s => Ret a (lset l s t)
  | Panic m s => Panic m (lset l s t)
  | Undef => Undef
  | NoFuel => NoFuel
  end.

(** ** Weakest preconditions

    [wp c Q s]: run from [s], [c] returns, and [Q] holds of the result and
    the final state.  Panics, undefined accesses and lack of fuel are all
    excluded, so a [wp] statement is a total-correctness statement. *)

Definition wp {S A} (c : M S A) (Q : A -> S -> Prop) (s : S) : Prop :=
  match c s with
  | Ret a s' => Q a s'
  | _ => False
  end.

Lemma wp_ret {S A} (a : A) (Q : A -> S -> Prop) s : Q a s -> wp (ret a) Q s.
Proof. done. Qed.

Lemma wp_bind {S A B} (c : M S A) (k : A -> M S B) Q s :
  wp c (fun a s' => wp (k a) Q s') s -> wp (bind c k) Q s.
Proof. unfold wp, bind. destruct (c s); naive_solver. Qed.

Lemma wp_mono {S A} (c : M S A) (P Q : A -> S -> Prop) s :
  (forall a s', P a s' -> Q a s') -> wp c P s -> wp c Q s.
Proof. unfold wp. destruct (c s); naive_solver. Qed.

Lemma wp_gets {S A} (f : S -> A) (Q : A -> S -> Prop) s : Q (f s) s -> wp (gets f) Q s.
Proof. done. Qed.

Lemma wp_modify {S} (f : S -> S) (Q : unit -> S -> Prop) s : Q tt (f s) -> wp (modify f) Q s.
Proof. done. Qed.

Lemma wp_when {S} (b : bool) (c : M S unit) Q s :
  (b = true -> wp c Q s) -> (b = false -> Q tt s) -> wp (when b c) Q s.
Proof. unfold when. destruct b; intros; [auto|apply wp_ret; auto]. Qed.

Lemma wp_zoom {T S A} (l : lens T S) (c : M S A) (Q : A -> T -> Prop) t :
  wp c (fun a s => Q a (lset l s t)) (lget l t) -> wp (zoom l c) Q t.
Proof. unfold wp, zoom. destruct (c (lget l t)); naive_solver. Qed.

Lemma wp_aget {S A} `{CZero A} len (a : S -> arr A) i (Q : A -> S -> Prop) s :
  0 <= i < len -> Q (a s).[i] s -> wp (aget len a i) Q s.
Proof.
  intros Hi HQ. unfold wp, aget.
  rewrite (proj2 (Z.leb_le 0 i)), (proj2 (Z.ltb_lt i len)) by lia. done.
Qed.

Lemma wp_aset {S A} len (upd : (arr A -> arr A) -> S -> S) i (x : A) (Q : unit -> S -> Prop) s :
  0 <= i < len -> Q tt (upd (fun a => <[i := x]> a) s) -> wp (aset len upd i x) Q s.
Proof.
  intros Hi HQ. unfold wp, aset.
  rewrite (proj2 (Z.leb_le 0 i)), (proj2 (Z.ltb_lt i len)) by lia. done.
Qed.

(** A computation satisfies a [wp] exactly when it returns. *)
Lemma wp_inv {S A} (c : M S A) Q s :
  wp c Q s -> exists a s', c s = Ret a s' /\ Q a s'.
Proof. unfold wp. destruct (c s); naive_solver. Qed.

Lemma wp_of_eq {S A} (c : M S A) (Q : A -> S -> Prop) s a s' :
  c s = Ret a s' -> Q a s' -> wp c Q s.
Proof. unfold wp. by intros ->. Qed.

Lemma bind_inv {S A B} (c : M S A) (k : A -> M S B) s b s' :
  bind c k s = Ret b s' -> exists a s1, c s = Ret a s1 /\ k a s1 = Ret b s'.
Proof. unfold bind. destruct (c s) as [a s1| | |]; intros E; [by exists a, s1|discriminate..]. Qed.

Lemma wp_eq_ret {S A} (c : M S A) s a s' : wp c (fun b t => b = a /\ t = s') s -> c s = Ret a s'.
Proof. by intros (? & ? & -> & -> & ->)%wp_inv. Qed.

(** Following a run step by step, for runs that end badly. *)
Lemma bind_step {S A B} (c : M S A) (k : A -> M S B) s a s' o :
  c s = Ret a s' -> k a s' = o -> bind c k s = o.
Proof. unfold bind. by intros ->. Qed.

Lemma bind_undef {S A B} (c : M S A) (k : A -> M S B) s : c s = Undef -> bind c k s = Undef.
Proof. unfold bind. by intros ->. Qed.

Lemma wp_unchanged {S A} (c : M S A) (P : A -> Prop) s :
  wp c (fun a s' => s' = s /\ P a) s -> exists a, c s = Ret a s /\ P a.
Proof. unfold wp. destruct (c s); naive_solver. Qed.

Lemma wp_iter {S A B} (I : A -> S -> Prop) (mu : A -> nat) fuel
    (body : A -> M S (A + B)) Q :
  (forall a s, I a s ->
     wp (body a) (fun r s' => match r with
                              | inl a' => I a' s' /\ (mu a' < mu a)%nat
                              | inr b => Q b s'
                              end) s) ->
  forall a s, I a s -> (mu a < fuel)%nat -> wp (iter fuel body a) Q s.
Proof.
  intros Hbody. induction fuel as [|fuel IH]; intros a s HI Hmu; [lia|].
  simpl. apply wp_bind. eapply wp_mono; [|by apply Hbody].
  intros [a'|b] s'; simpl.
  - intros [HI' Hlt]. apply IH; [done|lia].
  - apply wp_ret.
Qed.

Lemma wp_forn {S} (I : Z -> S -> Prop) (body : Z -> M S unit) n : forall lo s,
  (forall i s, lo <= i < lo + Z.of_nat n -> I i s -> wp (body i) (fun _ s' => I (i + 1) s') s) ->
  I lo s -> wp (forn n lo body) (fun _ s' => I (lo + Z.of_nat n) s') s.
Proof.
  induction n as [|n IH]; intros lo s Hb HI; cbn [forn].
  - apply wp_ret. by replace (lo + Z.of_nat 0) with lo by lia.
  - apply wp_bind. eapply wp_mono; [|apply Hb; [lia|done]].
    intros [] s' HI'. eapply wp_mono; [|apply IH; [|exact HI']].
    + intros [] s''. by replace (lo + 1 + Z.of_nat n) with (lo + Z.of_nat (Datatypes.S n)) by lia.
    + intros i s'' Hi. apply Hb. lia.
Qed.

(** The counted-loop rule: an invariant indexed by the loop variable. *)
Lemma wp_for_up {S} (I : Z -> S -> Prop) lo hi (body : Z -> M S unit) Q s :
  I lo s ->
  (forall i s, lo <= i < hi -> I i s -> wp (body i) (fun _ s' => I (i + 1) s') s) ->
  (forall s', I (Z.max lo hi) s' -> Q tt s') ->
  wp (for_up lo hi body) Q s.
Proof.
  intros HI Hb HQ. unfold for_up.
  eapply wp_mono; [|apply (wp_forn I); [|exact HI]].
  - intros [] s' HI'. apply HQ.
    by replace (Z.max lo hi) with (lo + Z.of_nat (Z.to_nat (hi - lo))) by lia.
  - intros i s' Hi. apply Hb. lia.
Qed.

(** The same with an early exit: [E] holds where the body leaves. *)
Lemma wp_for_exit {S R} (I : Z -> S -> Prop) lo hi (body : Z -> M S (option R)) Q s :
  I lo s ->
  (forall i s, lo <= i < hi -> I i s ->
     wp (body i) (fun r s' => match r with None => I (i + 1) s' | Some x => Q (Some x) s' end) s) ->
  (forall s', I (Z.max lo hi) s' -> Q None s') ->
  wp (for_exit lo hi body) Q s.
Proof.
  unfold for_exit. intros HI Hb HQ.
  remember (Z.to_nat (hi - lo)) as n eqn:Hn.
  revert lo s HI Hn Hb HQ. induction n as [|n IH]; intros lo s HI Hn Hb HQ; cbn [forn_exit].
  - apply wp_ret, HQ. by replace (Z.max lo hi) with lo by lia.
  - apply wp_bind. eapply wp_mono; [|apply Hb; [lia|exact HI]].
    intros [x|] s' HI'; [by apply wp_ret|].
    apply IH; [done|lia|intros; apply Hb; [lia|done]|].
    intros s''. replace (Z.max (lo + 1) hi) with (Z.max lo hi) by lia. apply HQ.
Qed.

(** ** Automation *)

Create HintDb kernel.
Create Rewrite HintDb kernel.

(** [wrap_lia]: linear arithmetic with the wrap-around of the C types unfolded. *)
Ltac wrap_lia :=
  unfold u8, u16, u32, i8, i16, i32 in *; Z.to_euclidean_division_equations; lia.

(** [bstep]: turn the boolean tests of the code into propositions. *)
Ltac bprop :=
  repeat match goal with
  | H : _ && _ = true |- _ => apply andb_true_iff in H as [? ?]
  | H : _ || _ = false |- _ => apply orb_false_iff in H as [? ?]
  | H : negb _ = true |- _ => apply negb_true_iff in H
  | H : negb _ = false |- _ => apply negb_false_iff in H
  | H : (_ <? _) = true |- _ => apply Z.ltb_lt in H
  | H : (_ <? _) = false |- _ => apply Z.ltb_ge in H
  | H : (_ <=? _) = true |- _ => apply Z.leb_le in H
  | H : (_ <=? _) = false |- _ => apply Z.leb_gt in H
  | H : (_ =? _) = true |- _ => apply Z.eqb_eq in H
  | H : (_ =? _) = false |- _ => apply Z.eqb_neq in H
  end.

(** [wstep]: one symbolic step of a computation. *)
Ltac wstep :=
  first
    [ apply wp_bind
    | apply wp_ret
    | apply wp_gets
    | apply wp_modify
    | apply wp_aget; [try lia|]
    | apply wp_aset; [try lia|]
    | apply wp_zoom ].

Lemma asel_insert_eq {A} `{CZero A} (a : arr A) i x : (<[i := x]> a).[i] = x.
Proof. unfold asel. by rewrite lookup_insert_eq. Qed.

Lemma asel_insert_ne {A} `{CZero A} (a : arr A) i j x : i <> j -> (<[i := x]> a).[j] = a.[j].
Proof. intros. unfold asel. by rewrite lookup_insert_ne. Qed.

Lemma asel_insert {A} `{CZero A} (a : arr A) i j x :
  (<[i := x]> a).[j] = if decide (i = j) then x else a.[j].
Proof. case_decide; [subst; apply asel_insert_eq|by apply asel_insert_ne]. Qed.

Lemma u32_range z : 0 <= u32 z < 4294967296.
Proof. wrap_lia. Qed.

Lemma u32_small z : 0 <= z < 4294967296 -> u32 z = z.
Proof. wrap_lia. Qed.

Lemma i32_small z : -2147483648 <= z < 2147483648 -> i32 z = z.
Proof. wrap_lia. Qed.

Lemma u32_u32 z : u32 (u32 z) = u32 z.
Proof. apply u32_small, u32_range. Qed.

Lemma u8_range z : 0 <= u8 z < 256.
Proof. wrap_lia. Qed.

Lemma u8_small z : 0 <= z < 256 -> u8 z = z.
Proof. wrap_lia. Qed.

Lemma u8_u8 z : u8 (u8 z) = u8 z.
Proof. apply u8_small, u8_range. Qed.

#[export] Hint Resolve u32_range u8_range : kernel.
#[export] Hint Rewrite u32_u32 u8_u8 : kernel.

(** Or-ing in bits below the alignment of a number adds them. *)
Lemma lor_aligned n a p : 0 <= n -> a mod 2 ^ n = 0 -> 0 <= p < 2 ^ n -> Z.lor a p = a + p.
Proof.
  intros Hn Ha Hp.
  assert (Z.land a p = 0) as Hz.
  { apply Z.bits_inj'. intros i Hi. rewrite Z.land_spec, Z.bits_0.
    destruct (Z.lt_ge_cases i n).
    - replace a with (a / 2 ^ n * 2 ^ n) by (Z.to_euclidean_division_equations; nia).
      rewrite Z.mul_pow2_bits_low by lia. done.
    - replace p with (p mod 2 ^ n) by (apply Z.mod_small; lia).
      rewrite Z.mod_pow2_bits_high by lia. apply andb_false_r. }
  rewrite Z.add_nocarry_lxor by done. symmetry. by apply Z.lxor_lor.
Qed.

(** Monad laws, up to pointwise equality of computations. *)
Definition meq {S A} (c d : M S A) : Prop := forall s, c s = d s.

#[export] Instance meq_equiv {S A} : Equivalence (@meq S A).
Proof.
  split; [intros c s; done|intros c d H s; by rewrite H|].
  intros c d e H1 H2 s. by rewrite H1, H2.
Qed.

#[export] Instance bind_proper {S A B} :
  Proper (meq ==> pointwise_relation A meq ==> meq) (@bind S A B).
Proof.
  intros c c' Hc k k' Hk s. unfold bind. rewrite (Hc s).
  destruct (c' s); try done. apply Hk.
Qed.

#[export] Instance wp_proper {S A} (Q : A -> S -> Prop) :
  Proper (meq ==> eq ==> iff) (fun c s => wp c Q s).
Proof. intros c c' Hc s s' <-. unfold wp. by rewrite (Hc s). Qed.

Lemma bind_assoc {S A B C} (c : M S A) (k : A -> M S B) (l : B -> M S C) :
  meq (bind (bind c k) l) (bind c (fun a => bind (k a) l)).
Proof. intros s. unfold bind. by destruct (c s). Qed.

(** Two statements with a rule of their own. *)
Lemma wp_seq2 {S A B} (c : M S A) (d : M S unit) (k : M S B) P Q s :
  wp (c ;;; d) P s -> (forall s', P tt s' -> wp k Q s') -> wp (c ;;; d ;;; k) Q s.
Proof.
  unfold wp, bind. destruct (c s) as [a s'| | |]; try done. destruct (d s') as [[] s''| | |]; try done.
  intros HP HQ. exact (HQ _ HP).
Qed.

Lemma wp_seq3 {S A B C} (c : M S A) (d : M S B) (e : M S unit) (k : M S C) Q s :
  wp (c ;;; d ;;; e) (fun _ s' => wp k Q s') s -> wp (c ;;; d ;;; e ;;; k) Q s.
Proof.
  unfold wp, bind. destruct (c s) as [a s'| | |]; try done. destruct (d s') as [b s''| | |]; try done.
  by destruct (e s'').
Qed.

Lemma bind_ret_l {S A B} (a : A) (k : A -> M S B) : meq (bind (ret a) k) (k a).
Proof. intros s. done. Qed.

Lemma bind_ret_r {S A} (c : M S A) : meq (bind c ret) c.
Proof. intros s. unfold bind. by destruct (c s). Qed.
