(* ===== verification/Mmu.v ===== *)
(** * Address-space layout and the x86 page-table format

    The constants of [param.h], [types.h], [memlayout.h] and [mmu.h] that the
    kernel model uses, the address macros of [memlayout.h] and [mmu.h] at
    32-bit width, and the arithmetic facts about them the components share. *)

From stdpp Require Import base tactics numbers.
From Stdlib Require Import ZArith Lia.
From S2P Require Import Prelude.

(** ** [param.h] *)

Definition NPROC : Z := 64.
Definition KSTACKSIZE : Z := 4096.
Definition NOFILE : Z := 16.
Definition NFILE : Z := 100.
Definition NINODE : Z := 50.
Definition NDEV : Z := 10.
Definition MAXARG : Z := 32.
Definition MAXOPBLOCKS : Z := 10.
Definition LOGSIZE : Z := MAXOPBLOCKS * 3.
Definition NBUF : Z := MAXOPBLOCKS * 3.
Definition FSSIZE : Z := 1000.

(** ** [types.h]: flags and error codes of the shared-memory calls *)

Definition SHM_R : Z := 1.
Definition SHM_W : Z := 2.
Definition IPC_CREAT : Z := 4.
Definition IPC_EXCL : Z := 16.
Definition IPC_PRIVATE : Z := -99999.
Definition EEXIST : Z := -101.
Definition EINVAL : Z := -102.
Definition ENOENT : Z := -103.
Definition ENOMEM : Z := -104.
Definition ENOSPC : Z := -105.
Definition SHM_EXEC : Z := 1.
Definition SHM_RDONLY : Z := 2.
Definition SHM_REMAP : Z := 3.
Definition SHM_RND : Z := 4.
Definition SHM_DEST : Z := 32.
Definition EIDRM : Z := -202.
Definition IPC_STAT : Z := 1.
Definition IPC_SET : Z := 2.
Definition IPC_RMID : Z := 3.
Definition IPC_INFO : Z := 4.
Definition SHM_INFO : Z := 5.

(** ** [memlayout.h] *)

Definition EXTMEM : Z := 0x100000.
Definition PHYSTOP : Z := 0xE000000.
Definition DEVSPACE : Z := 0xFE000000.
Definition KERNBASE : Z := 0x80000000.
Definition KERNLINK : Z := KERNBASE + EXTMEM.
Definition V2P (a : Z) : Z := u32 (u32 a - KERNBASE).
Definition P2V (a : Z) : Z := u32 (u32 a + KERNBASE).
Definition HEAPLIMIT : Z := 0x7F000000.
Definition SHMMAXSEG : Z := 4096.
Definition SHMMIN : Z := 1024.
Definition MAXSEGSIZE : Z := 16 * 1024 * 1024.

(** ** [mmu.h] *)

Definition PGSIZE : Z := 4096.
Definition NPDENTRIES : Z := 1024.
Definition NPTENTRIES : Z := 1024.
Definition PTXSHIFT : Z := 12.
Definition PDXSHIFT : Z := 22.
Definition PTE_P : Z := 0x001.
Definition PTE_W : Z := 0x002.
Definition PTE_U : Z := 0x004.
Definition PTE_PS : Z := 0x080.
Definition PDX (va : Z) : Z := Z.land (Z.shiftr (u32 va) PDXSHIFT) 0x3FF.
Definition PTX (va : Z) : Z := Z.land (Z.shiftr (u32 va) PTXSHIFT) 0x3FF.
Definition PGADDR (d t o : Z) : Z :=
  u32 (Z.lor (Z.lor (Z.shiftl d PDXSHIFT) (Z.shiftl t PTXSHIFT)) o).
Definition PGROUNDUP (sz : Z) : Z := Z.land (u32 (sz + PGSIZE - 1)) (u32 (Z.lnot (PGSIZE - 1))).
Definition PGROUNDDOWN (a : Z) : Z := Z.land (u32 a) (u32 (Z.lnot (PGSIZE - 1))).
Definition PTE_ADDR (pte : Z) : Z := Z.land (u32 pte) (u32 (Z.lnot 0xFFF)).
Definition PTE_FLAGS (pte : Z) : Z := Z.land (u32 pte) 0xFFF.

Create HintDb mmu.

#[export] Hint Unfold NPROC KSTACKSIZE NOFILE NFILE NINODE NDEV MAXARG MAXOPBLOCKS LOGSIZE NBUF
  FSSIZE EXTMEM PHYSTOP DEVSPACE KERNBASE KERNLINK HEAPLIMIT SHMMAXSEG SHMMIN MAXSEGSIZE
  PGSIZE NPDENTRIES NPTENTRIES PTXSHIFT PDXSHIFT PTE_P PTE_W PTE_U PTE_PS : mmu.

(** [mlia]: arithmetic with the layout constants unfolded. *)
Ltac mlia := autounfold with mmu in *; wrap_lia.

(** A flag test [x & f] of the code. *)
Definition has (x f : Z) : bool := negb (Z.land x f =? 0).

(** ** Bit facts *)

Lemma land_himask a : 0 <= a < 4294967296 ->
  Z.land a (u32 (Z.lnot 4095)) = a - a mod 4096.
Proof.
  intros Ha.
  change (u32 (Z.lnot 4095)) with (Z.land (Z.ones 32) (Z.lnot (Z.ones 12))).
  rewrite Z.land_assoc, Z.land_ones by lia.
  rewrite <- Z.ldiff_land, Z.ldiff_ones_r by lia.
  rewrite Z.shiftl_mul_pow2, Z.shiftr_div_pow2 by lia.
  change (2 ^ 32) with 4294967296. change (2 ^ 12) with 4096. wrap_lia.
Qed.

Lemma PGROUNDDOWN_eq a : 0 <= a < 4294967296 -> PGROUNDDOWN a = a - a mod 4096.
Proof.
  intros Ha. unfold PGROUNDDOWN, PGSIZE. rewrite u32_small by lia. by apply land_himask.
Qed.

Lemma PGROUNDUP_eq a : 0 <= a <= 4294963200 ->
  PGROUNDUP a = a + (- a) mod 4096.
Proof.
  intros Ha. unfold PGROUNDUP, PGSIZE. rewrite u32_small by lia.
  change (4096 - 1) with 4095. rewrite land_himask by lia. wrap_lia.
Qed.

Lemma PTE_ADDR_eq a : 0 <= a < 4294967296 -> PTE_ADDR a = a - a mod 4096.
Proof. intros. unfold PTE_ADDR. rewrite u32_small by lia. by apply land_himask. Qed.

Lemma PTE_FLAGS_eq a : 0 <= a < 4294967296 -> PTE_FLAGS a = a mod 4096.
Proof.
  intros. unfold PTE_FLAGS. rewrite u32_small by lia.
  change 0xFFF with (Z.ones 12). by rewrite Z.land_ones by lia.
Qed.

Lemma PDX_eq a : 0 <= a < 4294967296 -> PDX a = a / 4194304.
Proof.
  intros. unfold PDX, PDXSHIFT. rewrite u32_small by lia.
  change 0x3FF with (Z.ones 10). rewrite Z.land_ones, Z.shiftr_div_pow2 by lia.
  change (2 ^ 22) with 4194304. change (2 ^ 10) with 1024. wrap_lia.
Qed.

Lemma PTX_eq a : 0 <= a < 4294967296 -> PTX a = (a / 4096) mod 1024.
Proof.
  intros. unfold PTX, PTXSHIFT. rewrite u32_small by lia.
  change 0x3FF with (Z.ones 10). by rewrite Z.land_ones, Z.shiftr_div_pow2 by lia.
Qed.

Lemma V2P_high a : KERNBASE <= a < 4294967296 -> V2P a = a - KERNBASE.
Proof. intros. unfold V2P. mlia. Qed.

Lemma P2V_low a : 0 <= a < KERNBASE -> P2V a = a + KERNBASE.
Proof. intros. unfold P2V. mlia. Qed.

(** Both conversions add 2^31 modulo 2^32, so each undoes the other, and
    either applied twice is the identity. *)
Lemma P2V_V2P a : 0 <= a < 4294967296 -> P2V (V2P a) = a.
Proof. intros. unfold V2P, P2V. mlia. Qed.

Lemma V2P_P2V a : 0 <= a < 4294967296 -> V2P (P2V a) = a.
Proof. intros. unfold V2P, P2V. mlia. Qed.

Lemma V2P_V2P a : 0 <= a < 4294967296 -> V2P (V2P a) = a.
Proof. intros. unfold V2P. mlia. Qed.

Lemma V2P_range a : 0 <= V2P a < 4294967296.
Proof. apply u32_range. Qed.

Lemma P2V_range a : 0 <= P2V a < 4294967296.
Proof. apply u32_range. Qed.

#[export] Hint Resolve V2P_range P2V_range : kernel.

(** A page-table entry built from an aligned physical address and flags. *)
Lemma pte_compose pa perm :
  pa mod 4096 = 0 -> 0 <= perm < 4096 ->
  Z.lor (Z.lor pa perm) PTE_P = pa + Z.lor perm PTE_P /\ 0 < Z.lor perm PTE_P < 4096.
Proof.
  intros Hpa Hperm.
  assert (0 < Z.lor perm PTE_P < 4096) as Hr.
  { assert (Z.lor perm PTE_P = perm \/ Z.lor perm PTE_P = perm + 1) as [E|E].
    { unfold PTE_P. destruct (Z.testbit perm 0) eqn:Hb.
      - left. apply Z.bits_inj'. intros i Hi. rewrite Z.lor_spec.
        destruct (decide (i = 0)) as [->|]; [by rewrite Hb|].
        change 1 with (2 ^ 0). rewrite Z.pow2_bits_false by lia. apply orb_false_r.
      - right. apply (lor_aligned 1); [lia| |lia].
        rewrite Z.bit0_odd in Hb. rewrite Zmod_odd, Hb. done. }
    - assert (perm <> 0) by (intros ->; discriminate E). lia.
    - assert (perm <> 4095) by (intros ->; discriminate E). lia. }
  split; [|done].
  rewrite <- Z.lor_assoc. apply (lor_aligned 12); [lia|done|].
  change (2 ^ 12) with 4096. lia.
Qed.
