(* ===== verification/Memory.v ===== *)
(** * Physical memory and the kernel's [string.c]

    Memory is a map from byte addresses (kernel virtual addresses of the
    direct map) to byte values; a word is four bytes, least significant first.
    Module [StringC] models every function of [string.c] on it. *)

From stdpp Require Import base tactics numbers gmap strings list.
From Stdlib Require Import ZArith Lia.
From S2P Require Import Prelude.

Abbreviation memory := (gmap Z Z).

(** ** Byte and word accesses *)

Definition load8 (m : memory) (a : Z) : Z := u8 m.[a].
Definition store8 (m : memory) (a v : Z) : memory := <[a := u8 v]> m.

Definition load32 (m : memory) (a : Z) : Z :=
  load8 m a + 256 * load8 m (a + 1) + 65536 * load8 m (a + 2) + 16777216 * load8 m (a + 3).

Definition store32 (m : memory) (a v : Z) : memory :=
  store8 (store8 (store8 (store8 m a v) (a + 1) (v / 256)) (a + 2) (v / 65536))
    (a + 3) (v / 16777216).

Lemma load8_range m a : 0 <= load8 m a < 256.
Proof. apply u8_range. Qed.

Lemma load8_store8 m a v b :
  load8 (store8 m a v) b = if decide (a = b) then u8 v else load8 m b.
Proof.
  unfold load8, store8. rewrite asel_insert. case_decide; [apply u8_u8|done].
Qed.

Lemma load8_store8_eq m a v : load8 (store8 m a v) a = u8 v.
Proof. rewrite load8_store8. by case_decide. Qed.

Lemma load8_store8_ne m a v b : a <> b -> load8 (store8 m a v) b = load8 m b.
Proof. intros. rewrite load8_store8. by case_decide. Qed.

Lemma load32_range m a : 0 <= load32 m a < 4294967296.
Proof.
  unfold load32. pose proof (load8_range m a). pose proof (load8_range m (a + 1)).
  pose proof (load8_range m (a + 2)). pose proof (load8_range m (a + 3)). lia.
Qed.

#[export] Hint Resolve load8_range load32_range : kernel.

(** Two memories that agree on four bytes agree on the word. *)
Lemma load32_ext m m' a :
  (forall b, a <= b < a + 4 -> load8 m b = load8 m' b) -> load32 m a = load32 m' a.
Proof. intros H. unfold load32. by rewrite !H by lia. Qed.

Lemma load8_store32 m a v b :
  load8 (store32 m a v) b =
  if decide (a <= b < a + 4) then u8 (v / 256 ^ (b - a)) else load8 m b.
Proof.
  unfold store32. rewrite !load8_store8. repeat case_decide; try lia; try done;
    try (replace (b - a) with 0 by lia); try (replace (b - a) with 1 by lia);
    try (replace (b - a) with 2 by lia); try (replace (b - a) with 3 by lia); try done.
  by rewrite Z.pow_0_r, Z.div_1_r.
Qed.

Lemma load8_store32_ne m a v b : ~ (a <= b < a + 4) -> load8 (store32 m a v) b = load8 m b.
Proof. intros. rewrite load8_store32. by case_decide. Qed.

Lemma load32_store32_eq m a v : load32 (store32 m a v) a = u32 v.
Proof.
  unfold load32. rewrite !load8_store32. repeat case_decide; try lia.
  replace (a - a) with 0 by lia. replace (a + 1 - a) with 1 by lia.
  replace (a + 2 - a) with 2 by lia. replace (a + 3 - a) with 3 by lia.
  change (256 ^ 0) with 1. change (256 ^ 1) with 256. change (256 ^ 2) with 65536.
  change (256 ^ 3) with 16777216. wrap_lia.
Qed.

Lemma load32_store32_ne m a v b : a + 4 <= b \/ b + 4 <= a ->
  load32 (store32 m a v) b = load32 m b.
Proof. intros. apply load32_ext. intros c Hc. apply load8_store32_ne. lia. Qed.

(** Agreement of two memories outside an address range. *)
Definition same_outside (lo hi : Z) (m m' : memory) : Prop :=
  forall a, ~ (lo <= a < hi) -> load8 m' a = load8 m a.

Lemma same_outside_load32 lo hi m m' a :
  same_outside lo hi m m' -> a + 4 <= lo \/ hi <= a -> load32 m' a = load32 m a.
Proof. intros H Ha. apply load32_ext. intros b Hb. apply H. lia. Qed.

Lemma store32_same_outside m a v : same_outside a (a + 4) m (store32 m a v).
Proof. intros b Hb. by apply load8_store32_ne. Qed.

Module StringC.

(** ** [string.c]

    [rep stosb] and [rep stosl] of [x86.h] store a byte or a word [n] times. *)

Fixpoint stosb_n (n : nat) (m : memory) (addr data : Z) : memory :=
  match n with
  | O => m
  | S n' => stosb_n n' (store8 m addr data) (addr + 1) data
  end.

Definition stosb (m : memory) (addr data cnt : Z) : memory := stosb_n (Z.to_nat cnt) m addr data.

Fixpoint stosl_n (n : nat) (m : memory) (addr data : Z) : memory :=
  match n with
  | O => m
  | S n' => stosl_n n' (store32 m addr data) (addr + 4) data
  end.

Definition stosl (m : memory) (addr data cnt : Z) : memory := stosl_n (Z.to_nat cnt) m addr data.

Definition memset (m : memory) (dst c n : Z) : memory :=
  if (crem (i32 dst) 4 =? 0) && (n mod 4 =? 0) then
    let c := Z.land c 0xFF in
    stosl m dst
      (Z.lor (Z.lor (Z.lor (Z.shiftl c 24) (Z.shiftl c 16)) (Z.shiftl c 8)) c) (n / 4)
  else stosb m dst c n.

Fixpoint memcmp_n (n : nat) (m : memory) (s1 s2 : Z) : Z :=
  match n with
  | O => 0
  | S n' =>
      if negb (load8 m s1 =? load8 m s2) then load8 m s1 - load8 m s2
      else memcmp_n n' m (s1 + 1) (s2 + 1)
  end.

Definition memcmp (m : memory) (v1 v2 n : Z) : Z := memcmp_n (Z.to_nat n) m v1 v2.

(** [while(n-- > 0) *--d = *--s;] *)
Fixpoint copy_down (n : nat) (m : memory) (d s : Z) : memory :=
  match n with
  | O => m
  | S n' => copy_down n' (store8 m (d - 1) (load8 m (s - 1))) (d - 1) (s - 1)
  end.

(** [while(n-- > 0) *d++ = *s++;] *)
Fixpoint copy_up (n : nat) (m : memory) (d s : Z) : memory :=
  match n with
  | O => m
  | S n' => copy_up n' (store8 m d (load8 m s)) (d + 1) (s + 1)
  end.

Definition memmove (m : memory) (dst src n : Z) : memory :=
  if (src <? dst) && (dst <? src + n) then copy_down (Z.to_nat n) m (dst + n) (src + n)
  else copy_up (Z.to_nat n) m dst src.

Definition memcpy (m : memory) (dst src n : Z) : memory := memmove m dst src n.

Fixpoint strncmp_n (n : nat) (m : memory) (p q : Z) : Z :=
  match n with
  | O => 0
  | S n' =>
      if negb (load8 m p =? 0) && (load8 m p =? load8 m q) then strncmp_n n' m (p + 1) (q + 1)
      else load8 m p - load8 m q
  end.

Definition strncmp (m : memory) (p q n : Z) : Z := strncmp_n (Z.to_nat n) m p q.

(** The tail [while(n-- > 0) *s++ = 0;] of [strncpy]. *)
Fixpoint zero_fill (n : nat) (m : memory) (s : Z) : memory :=
  match n with
  | O => m
  | S n' => zero_fill n' (store8 m s 0) (s + 1)
  end.

Fixpoint strncpy_n (n : nat) (m : memory) (s t : Z) : memory :=
  match n with
  | O => m
  | S n' =>
      let c := load8 m t in
      let m' := store8 m s c in
      if c =? 0 then zero_fill n' m' (s + 1) else strncpy_n n' m' (s + 1) (t + 1)
  end.

Definition strncpy (m : memory) (s t n : Z) : memory := strncpy_n (Z.to_nat n) m s t.

(** [safestrcpy] copies at most [n - 1] characters; the loop leaves [s] past
    a copied NUL, or at the end of the room, and a NUL is stored there. *)
Fixpoint safestrcpy_n (n : nat) (m : memory) (s t : Z) : memory :=
  match n with
  | O => store8 m s 0
  | S n' =>
      let c := load8 m t in
      let m' := store8 m s c in
      if c =? 0 then store8 m' (s + 1) 0 else safestrcpy_n n' m' (s + 1) (t + 1)
  end.

Definition safestrcpy (m : memory) (s t n : Z) : memory :=
  if n <=? 0 then m else safestrcpy_n (Z.to_nat (n - 1)) m s t.

(** [strlen] walks to the first NUL; [fuel] bounds the walk. *)
Fixpoint strlen_from (fuel : nat) (m : memory) (s n : Z) : option Z :=
  match fuel with
  | O => None
  | S f => if load8 m (s + n) =? 0 then Some n else strlen_from f m s (n + 1)
  end.

Definition strlen (fuel : nat) (m : memory) (s : Z) : option Z := strlen_from fuel m s 0.

(** ** Filling and copying *)

Lemma load8_stosb_n n : forall m addr data a,
  load8 (stosb_n n m addr data) a =
  if decide (addr <= a < addr + Z.of_nat n) then u8 data else load8 m a.
Proof.
  induction n as [|n IH]; intros m addr data a; cbn [stosb_n].
  - case_decide; [lia|done].
  - rewrite IH, load8_store8. repeat case_decide; lia || done.
Qed.

Lemma load8_stosl_n n : forall m addr data a,
  (forall k, 0 <= k < 4 -> u8 (data / 256 ^ k) = u8 data) ->
  load8 (stosl_n n m addr data) a =
  if decide (addr <= a < addr + 4 * Z.of_nat n) then u8 data else load8 m a.
Proof.
  induction n as [|n IH]; intros m addr data a Hd; cbn [stosl_n].
  - case_decide; [lia|done].
  - rewrite IH by done. rewrite load8_store32. repeat case_decide; try lia; try done.
    apply Hd. lia.
Qed.

(** The word [memset] builds holds its byte in every position. *)
Lemma memset_word c k : 0 <= k < 4 ->
  u8 (Z.lor (Z.lor (Z.lor (Z.shiftl (Z.land c 0xFF) 24) (Z.shiftl (Z.land c 0xFF) 16))
         (Z.shiftl (Z.land c 0xFF) 8)) (Z.land c 0xFF) / 256 ^ k) = u8 c.
Proof.
  intros Hk. change 0xFF with (Z.ones 8). rewrite Z.land_ones by lia.
  change (2 ^ 8) with 256. pose proof (Z.mod_pos_bound c 256 eq_refl) as Hb.
  unfold u8. set (b := c mod 256) in *.
  assert (Z.lor (Z.lor (Z.lor (Z.shiftl b 24) (Z.shiftl b 16)) (Z.shiftl b 8)) b
          = b * 16843009) as ->.
  { rewrite !Z.shiftl_mul_pow2 by lia.
    rewrite <- !Z.lor_assoc.
    assert (forall n x y, 0 <= n -> 0 <= y < 2 ^ n -> Z.lor (x * 2 ^ n) y = x * 2 ^ n + y) as Hl.
    { intros n x y Hn Hy. apply (lor_aligned n); [done| |done]. apply Z.mod_mul. lia. }
    rewrite (Hl 8) by lia. rewrite (Hl 16) by lia. rewrite (Hl 24) by lia. lia. }
  assert (k = 0 \/ k = 1 \/ k = 2 \/ k = 3) as [->|[->|[->| ->]]] by lia;
    [change (256 ^ 0) with 1|change (256 ^ 1) with 256|change (256 ^ 2) with 65536
    |change (256 ^ 3) with 16777216]; wrap_lia.
Qed.

Lemma memset_word0 c :
  u8 (Z.lor (Z.lor (Z.lor (Z.shiftl (Z.land c 0xFF) 24) (Z.shiftl (Z.land c 0xFF) 16))
         (Z.shiftl (Z.land c 0xFF) 8)) (Z.land c 0xFF)) = u8 c.
Proof. rewrite <- (memset_word c 0) by lia. by rewrite Z.pow_0_r, Z.div_1_r. Qed.

(** Both code paths of [memset] set exactly the [n] bytes at [dst] to [c]. *)
Lemma memset_spec m dst c n a : 0 <= n ->
  load8 (memset m dst c n) a = if decide (dst <= a < dst + n) then u8 c else load8 m a.
Proof.
  intros Hn. unfold memset. destruct (_ && _) eqn:Hc.
  - bprop. unfold stosl. rewrite load8_stosl_n
      by (intros; by rewrite memset_word, memset_word0 by done).
    assert (4 * Z.of_nat (Z.to_nat (n / 4)) = n) as -> by wrap_lia.
    by rewrite memset_word0.
  - unfold stosb. rewrite load8_stosb_n. by rewrite Z2Nat.id by lia.
Qed.

Lemma load8_copy_down n : forall m d s a, s <= d ->
  load8 (copy_down n m d s) a =
  if decide (d - Z.of_nat n <= a < d) then load8 m (a - d + s) else load8 m a.
Proof.
  induction n as [|n IH]; intros m d s a Hsd; cbn [copy_down].
  - case_decide; [lia|done].
  - rewrite IH by lia. rewrite !load8_store8.
    repeat case_decide; try lia; try done.
    + f_equal. lia.
    + rewrite u8_small by apply load8_range. f_equal. lia.
Qed.

Lemma load8_copy_up n : forall m d s a, d <= s \/ s + Z.of_nat n <= d ->
  load8 (copy_up n m d s) a =
  if decide (d <= a < d + Z.of_nat n) then load8 m (a - d + s) else load8 m a.
Proof.
  induction n as [|n IH]; intros m d s a Hsd; cbn [copy_up].
  - case_decide; [lia|done].
  - rewrite IH by lia. rewrite !load8_store8.
    repeat case_decide; try lia; try done.
    + f_equal. lia.
    + rewrite u8_small by apply load8_range. f_equal. lia.
Qed.

(** [memmove] copies the old contents of the source even when the ranges
    overlap, and changes nothing else. *)
Lemma memmove_spec m dst src n a : 0 <= n ->
  load8 (memmove m dst src n) a =
  if decide (dst <= a < dst + n) then load8 m (a - dst + src) else load8 m a.
Proof.
  intros Hn. unfold memmove. destruct (_ && _) eqn:Hc.
  - bprop. rewrite load8_copy_down by lia.
    rewrite Z2Nat.id by lia. repeat case_decide; try lia; try done. f_equal. lia.
  - apply andb_false_iff in Hc.
    rewrite load8_copy_up.
    + by rewrite Z2Nat.id by lia.
    + destruct Hc as [Hc|Hc]; bprop; lia.
Qed.

(** ** Strings *)

(** [nul_before m p k]: a NUL occurs among the first [k] characters at [p]. *)
Definition nul_before (m : memory) (p k : Z) : Prop :=
  exists j, 0 <= j < k /\ load8 m (p + j) = 0.

Lemma nul_before_shift m p k :
  load8 m p <> 0 -> 0 <= k -> (nul_before m p (k + 1) <-> nul_before m (p + 1) k).
Proof.
  intros Hp Hk. split.
  - intros (j & Hj & Hz). exists (j - 1). split.
    + assert (j <> 0) by (intros ->; by rewrite Z.add_0_r in Hz). lia.
    + by replace (p + 1 + (j - 1)) with (p + j) by lia.
  - intros (j & Hj & Hz). exists (j + 1). split; [lia|].
    by replace (p + (j + 1)) with (p + 1 + j) by lia.
Qed.

Lemma nul_before_mono m p k k' : k <= k' -> nul_before m p k -> nul_before m p k'.
Proof. intros Hk (j & Hj & Hz). exists j. split; [lia|done]. Qed.

(** [strncmp] returns 0 exactly when the strings agree on every position up
    to [n] that no NUL precedes. *)
Lemma strncmp_n_zero n : forall m p q,
  strncmp_n n m p q = 0 <->
  (forall k, 0 <= k < Z.of_nat n -> ~ nul_before m p k -> load8 m (p + k) = load8 m (q + k)).
Proof.
  induction n as [|n IH]; intros m p q; cbn [strncmp_n].
  - split; [intros _ k; lia|done].
  - destruct (_ && _) eqn:Hc.
    + bprop. rewrite IH. split.
      * intros Hall k Hk Hn. destruct (decide (k = 0)) as [->|Hk0]; [by rewrite !Z.add_0_r|].
        specialize (Hall (k - 1) ltac:(lia)).
        replace (p + 1 + (k - 1)) with (p + k) in Hall by lia.
        replace (q + 1 + (k - 1)) with (q + k) in Hall by lia. apply Hall.
        intros Hb. apply Hn. apply nul_before_shift in Hb; [|done|lia].
        by replace (k - 1 + 1) with k in Hb by lia.
      * intros Hall k Hk Hn. replace (p + 1 + k) with (p + (k + 1)) by lia.
        replace (q + 1 + k) with (q + (k + 1)) by lia. apply Hall; [lia|].
        intros Hb. by apply nul_before_shift in Hb; [|done|lia].
    + split.
      * intros Hd k Hk Hn. apply andb_false_iff in Hc as [Hc|Hc]; bprop; [|lia].
        destruct (decide (k = 0)) as [->|Hk0]; [rewrite !Z.add_0_r; lia|].
        exfalso. apply Hn. exists 0. rewrite Z.add_0_r. split; [lia|done].
      * intros Hall. specialize (Hall 0 ltac:(lia)). rewrite !Z.add_0_r in Hall.
        rewrite Hall; [lia|]. intros (j & Hj & _). lia.
Qed.

Lemma strncmp_spec m p q n : 0 <= n ->
  strncmp m p q n = 0 <->
  (forall k, 0 <= k < n -> ~ nul_before m p k -> load8 m (p + k) = load8 m (q + k)).
Proof. intros Hn. unfold strncmp. rewrite strncmp_n_zero. by rewrite Z2Nat.id by lia. Qed.

Lemma load8_zero_fill n : forall m s a,
  load8 (zero_fill n m s) a = if decide (s <= a < s + Z.of_nat n) then 0 else load8 m a.
Proof.
  induction n as [|n IH]; intros m s a; cbn [zero_fill].
  - case_decide; [lia|done].
  - rewrite IH, load8_store8. repeat case_decide; lia || done.
Qed.

Lemma nul_before_ext m m' p k :
  (forall a, p <= a < p + k -> load8 m' a = load8 m a) -> nul_before m' p k -> nul_before m p k.
Proof. intros He (j & Hj & Hz). exists j. split; [done|]. rewrite <- He by lia. done. Qed.

Lemma nul_before_dec m p k : Decision (nul_before m p k).
Proof.
  refine (cast_if (decide (Exists (fun j => load8 m (p + j) = 0) (seqZ 0 k)))).
  - rewrite Exists_exists in *. destruct e as (j & Hj%elem_of_seqZ & Hz).
    exists j. split; [lia|done].
  - intros (j & Hj & Hz). apply n, Exists_exists. exists j. split; [|done].
    apply elem_of_seqZ. lia.
Defined.
#[global] Existing Instance nul_before_dec.

(** [strncpy] pads with NULs: position [k] of the destination is the source
    character, or 0 when a NUL came before it. *)
Lemma strncpy_n_spec n : forall m s t,
  t + Z.of_nat n <= s \/ s + Z.of_nat n <= t ->
  forall a, load8 (strncpy_n n m s t) a =
    if decide (s <= a < s + Z.of_nat n) then
      if decide (nul_before m t (a - s)) then 0 else load8 m (t + (a - s))
    else load8 m a.
Proof.
  induction n as [|n IH]; intros m s t Hdis a; cbn [strncpy_n].
  { case_decide; [lia|done]. }
  destruct (_ =? 0) eqn:Hc; bprop.
  - rewrite load8_zero_fill, load8_store8, Hc.
    repeat case_decide; try lia; try done.
    + exfalso. match goal with H : ~ nul_before _ _ _ |- _ => apply H end.
      exists 0. rewrite Z.add_0_r. split; [lia|done].
    + subst. by rewrite Z.sub_diag, Z.add_0_r.
  - rewrite IH by lia. rewrite !load8_store8.
    assert (forall x, t + 1 <= x < t + 1 + Z.of_nat n ->
              load8 (store8 m s (load8 m t)) x = load8 m x) as Hsame
      by (intros x Hx; apply load8_store8_ne; lia).
    assert (s + 1 <= a < s + 1 + Z.of_nat n ->
      nul_before (store8 m s (load8 m t)) (t + 1) (a - (s + 1)) <-> nul_before m t (a - s)) as Hnb.
    { intros Ha. replace (a - s) with (a - (s + 1) + 1) by lia.
      rewrite nul_before_shift by (done || lia). split; apply nul_before_ext;
        intros x Hx; [|symmetry]; apply Hsame; lia. }
    destruct (decide (s = a)) as [<-|Hne].
    + rewrite Z.sub_diag, Z.add_0_r.
      repeat case_decide; try lia; try apply u8_small; auto with kernel.
      exfalso. match goal with H : nul_before _ _ 0 |- _ => destruct H as (j & Hj & _) end. lia.
    + repeat case_decide; try lia; try tauto. f_equal. lia.
Qed.

Lemma strncpy_spec m s t n : 0 <= n -> t + n <= s \/ s + n <= t ->
  forall a, load8 (strncpy m s t n) a =
    if decide (s <= a < s + n) then
      if decide (nul_before m t (a - s)) then 0 else load8 m (t + (a - s))
    else load8 m a.
Proof.
  intros Hn Hd a. unfold strncpy. rewrite strncpy_n_spec by (rewrite Z2Nat.id; lia).
  by rewrite Z2Nat.id by lia.
Qed.

(** [safestrcpy] with room for at least one byte leaves a NUL in the buffer
    and writes nothing outside it. *)
Lemma safestrcpy_n_spec n : forall m s t,
  same_outside s (s + Z.of_nat n + 1) m (safestrcpy_n n m s t) /\
  nul_before (safestrcpy_n n m s t) s (Z.of_nat n + 1).
Proof.
  induction n as [|n IH]; intros m s t; cbn [safestrcpy_n].
  - split.
    + intros a Ha. apply load8_store8_ne. lia.
    + exists 0. rewrite Z.add_0_r, load8_store8_eq. split; [lia|done].
  - destruct (_ =? 0) eqn:Hc; bprop.
    + split.
      * intros a Ha. rewrite !load8_store8_ne by lia. done.
      * exists 0. rewrite Z.add_0_r, load8_store8_ne, load8_store8_eq, Hc by lia. split; [lia|done].
    + destruct (IH (store8 m s (load8 m t)) (s + 1) (t + 1)) as [Ho (j & Hj & Hz)]. split.
      * intros a Ha. rewrite Ho by lia. apply load8_store8_ne. lia.
      * exists (j + 1). split; [lia|]. by replace (s + (j + 1)) with (s + 1 + j) by lia.
Qed.

Lemma strlen_from_spec fuel : forall m s n k,
  n <= k -> load8 m (s + k) = 0 -> (forall j, n <= j < k -> load8 m (s + j) <> 0) ->
  (Z.to_nat (k - n) < fuel)%nat -> strlen_from fuel m s n = Some k.
Proof.
  induction fuel as [|fuel IH]; intros m s n k Hnk Hk Hj Hf; [lia|]. cbn [strlen_from].
  destruct (_ =? 0) eqn:Hc; bprop.
  - f_equal. destruct (decide (n = k)); [done|]. exfalso. apply (Hj n); [lia|done].
  - assert (n <> k) by congruence. apply IH; [lia|done|intros; apply Hj; lia|lia].
Qed.

(** [memset] and [memmove]: whichever of its two loops [memset] takes, it
    sets exactly the [n] bytes at [dst]; [memmove] moves the old contents of
    the source to the destination even when the two overlap, and changes
    nothing else. *)
Theorem memset_memmove_correct m dst src c n a : 0 <= n ->
  load8 (memset m dst c n) a = (if decide (dst <= a < dst + n) then u8 c else load8 m a) /\
  load8 (memmove m dst src n) a =
    (if decide (dst <= a < dst + n) then load8 m (a - dst + src) else load8 m a).
Proof. intros Hn. split; [by apply memset_spec|by apply memmove_spec]. Qed.

Lemma memset_memmove_correct_witness :
  load8 (memset ∅ 100 7 8) 107 = 7 /\ load8 (memmove (store8 ∅ 10 5) 11 10 4) 11 = 5.
Proof.
  split.
  - exact (proj1 (memset_memmove_correct ∅ 100 0 7 8 107 ltac:(lia))).
  - exact (proj2 (memset_memmove_correct (store8 ∅ 10 5) 11 10 0 4 11 ltac:(lia))).
Defined.

(** The string routines: [strncmp] returns 0 exactly when the strings agree
    up to [n] or the first NUL; [strncpy] copies and pads with NULs;
    [safestrcpy] stays inside its buffer and leaves a NUL there. *)
Theorem string_routines_correct m s t n : 0 < n -> t + n <= s \/ s + n <= t ->
  (strncmp m s t n = 0 <-> forall k, 0 <= k < n -> ~ nul_before m s k ->
     load8 m (s + k) = load8 m (t + k)) /\
  (forall a, load8 (strncpy m s t n) a =
     if decide (s <= a < s + n) then
       if decide (nul_before m t (a - s)) then 0 else load8 m (t + (a - s))
     else load8 m a) /\
  same_outside s (s + n) m (safestrcpy m s t n) /\ nul_before (safestrcpy m s t n) s n.
Proof.
  intros Hn Hd. split; [apply strncmp_spec; lia|]. split; [by apply strncpy_spec; [lia|]|].
  unfold safestrcpy. rewrite (proj2 (Z.leb_gt n 0)) by lia.
  destruct (safestrcpy_n_spec (Z.to_nat (n - 1)) m s t) as [Ho Hz].
  rewrite Z2Nat.id in Ho, Hz by lia. replace (s + (n - 1) + 1) with (s + n) in Ho by lia.
  by replace (n - 1 + 1) with n in Hz by lia.
Qed.

Lemma string_routines_correct_witness :
  nul_before (safestrcpy (store8 (store8 ∅ 100 65) 101 66) 200 100 2) 200 2.
Proof.
  exact (proj2 (proj2 (proj2 (string_routines_correct (store8 (store8 ∅ 100 65) 101 66) 200 100 2
    ltac:(lia) ltac:(lia))))).
Defined.

End StringC.
