(* ===== verification/Spinlock.v ===== *)
(** * Spin locks ([spinlock.c])

    Module [Spin] models the lock itself: the word other CPUs exchange on, the
    owner recorded in it, and the per-CPU interrupt nesting of
    [pushcli]/[popcli].  Its sequential functions are the code of
    [spinlock.c]; relation [step] interleaves CPUs that run them, split at
    every access to the shared lock word, and [mutex_inv] is the invariant
    behind mutual exclusion.

    The other components run one system call on one CPU and only need to know
    whether the lock is held; module [Lock] is that view, and
    [acquire_refines]/[release_refines] relate the two. *)

From stdpp Require Import base tactics numbers gmap strings list.
From Stdlib Require Import ZArith Lia.
From S2P Require Import Prelude Mmu Memory.

Module Spin.

(** [struct spinlock]; [cpu] is the index of the owner in [cpus]. *)
Record spinlock := mkspinlock {
  locked : Z;
  name : string;
  cpu : option Z;
  pcs : list Z
}.

(** The part of [struct cpu] the locks use, with the CPU's interrupt flag
    ([FL_IF] of its eflags register). *)
Record cpu_state := mkcpu {
  ncli : Z;
  intena : bool;
  fl_if : bool
}.

#[global] Instance czero_cpu : CZero cpu_state := mkcpu 0 false false.

(** One lock and the CPUs that use it. *)
Record st := mkst {
  lk : spinlock;
  cpus : arr cpu_state
}.

Definition set_lk (l : spinlock) (s : st) : st := mkst l (cpus s).
Definition set_cpu (i : Z) (c : cpu_state) (s : st) : st := mkst (lk s) (<[i := c]> (cpus s)).

Definition initlock (nm : string) : M st unit :=
  modify (fun s => set_lk (mkspinlock 0 nm None (pcs (lk s))) s).

(** [mycpu] insists on disabled interrupts and then finds the CPU it runs on. *)
Definition mycpu (me : Z) : M st Z := fun s =>
  if fl_if (cpus s).[me] then Panic "mycpu called with interrupts enabled\n" s else Ret me s.

Definition cli (me : Z) : M st unit := modify (fun s =>
  set_cpu me (mkcpu (ncli (cpus s).[me]) (intena (cpus s).[me]) false) s).

Definition sti (me : Z) : M st unit := modify (fun s =>
  set_cpu me (mkcpu (ncli (cpus s).[me]) (intena (cpus s).[me]) true) s).

Definition pushcli (me : Z) : M st unit :=
  let* eflags := gets (fun s => fl_if (cpus s).[me]) in
  cli me ;;;
  let* c := mycpu me in
  let* n := gets (fun s => ncli (cpus s).[c]) in
  when (n =? 0) (modify (fun s =>
    set_cpu c (mkcpu (ncli (cpus s).[c]) eflags (fl_if (cpus s).[c])) s)) ;;;
  let* c := mycpu me in
  modify (fun s =>
    set_cpu c (mkcpu (ncli (cpus s).[c] + 1) (intena (cpus s).[c]) (fl_if (cpus s).[c])) s).

Definition popcli (me : Z) : M st unit :=
  let* f := gets (fun s => fl_if (cpus s).[me]) in
  if f : bool then panic "popcli - interruptible" else
  let* c := mycpu me in
  modify (fun s =>
    set_cpu c (mkcpu (ncli (cpus s).[c] - 1) (intena (cpus s).[c]) (fl_if (cpus s).[c])) s) ;;;
  let* n := gets (fun s => ncli (cpus s).[c]) in
  if n <? 0 then panic "popcli" else
  let* ie := gets (fun s => intena (cpus s).[c]) in
  when ((n =? 0) && ie) (sti me).

Definition holding (me : Z) : M st bool :=
  pushcli me ;;;
  let* c := mycpu me in
  let* r := gets (fun s => negb (locked (lk s) =? 0) && bool_decide (cpu (lk s) = Some c)) in
  popcli me ;;;
  ret r.

(** [getcallerpcs v] follows the saved frame pointers in [m]; [v] is the
    address of the caller's first argument. *)
Fixpoint walk_frames (n : nat) (m : memory) (ebp : Z) : list Z :=
  match n with
  | O => []
  | S n' =>
      if (ebp =? 0) || (ebp <? KERNBASE) || (ebp =? 0xffffffff) then replicate n 0
      else load32 m (ebp + 4) :: walk_frames n' m (load32 m ebp)
  end.

Definition getcallerpcs (m : memory) (v : Z) : list Z := walk_frames 10 m (u32 (v - 8)).

(** [xchg(&lk->locked, 1)] *)
Definition xchg_locked : M st Z := fun s =>
  Ret (locked (lk s)) (set_lk (mkspinlock 1 (name (lk s)) (cpu (lk s)) (pcs (lk s))) s).

(** The shared-memory accesses of [acquire] and [release], one by one, so that
    the interleaving relation below runs the same code. *)
Definition acquire_enter (me : Z) : M st bool := pushcli me ;;; holding me.

Definition set_owner (me : Z) (m : memory) (v : Z) : M st unit :=
  let* c := mycpu me in
  modify (fun s =>
    set_lk (mkspinlock (locked (lk s)) (name (lk s)) (Some c) (getcallerpcs m v)) s).

Definition acquire (fuel : nat) (me : Z) (m : memory) (v : Z) : M st unit :=
  let* h := acquire_enter me in
  if h : bool then panic "acquire" else
  iter fuel (fun _ : unit =>
    let* old := xchg_locked in
    ret (if negb (old =? 0) then inl tt else inr tt)) tt ;;;
  set_owner me m v.

Definition clear_owner : M st unit := modify (fun s =>
  set_lk (mkspinlock (locked (lk s)) (name (lk s)) None (<[0%nat := 0]> (pcs (lk s)))) s).

(** [movl $0, lk->locked] *)
Definition store_unlocked : M st unit := modify (fun s =>
  set_lk (mkspinlock 0 (name (lk s)) (cpu (lk s)) (pcs (lk s))) s).

Definition release (me : Z) : M st unit :=
  let* h := holding me in
  if negb h then panic "release" else
  clear_owner ;;;
  store_unlocked ;;;
  popcli me.

(** ** Interleaving

    Where a CPU is in [acquire]; critical section; [release]. *)
Inductive pc := Out | Trying | Won | Inside | Leaving | Unlocked.

#[global] Instance pc_eq_dec : EqDecision pc.
Proof. solve_decision. Defined.
#[global] Instance czero_pc : CZero pc := Out.

Record gst := mkgst { base : st; at_ : arr pc }.

Definition goto (i : Z) (p : pc) (b : st) (g : gst) : gst := mkgst b (<[i := p]> (at_ g)).

Inductive step : gst -> gst -> Prop :=
| step_enter i b g :
    (at_ g).[i] = Out -> acquire_enter i (base g) = Ret false b -> step g (goto i Trying b g)
| step_spin i b old g :
    (at_ g).[i] = Trying -> xchg_locked (base g) = Ret old b -> old <> 0 ->
    step g (goto i Trying b g)
| step_win i b g :
    (at_ g).[i] = Trying -> xchg_locked (base g) = Ret 0 b -> step g (goto i Won b g)
| step_own i m v b g :
    (at_ g).[i] = Won -> set_owner i m v (base g) = Ret tt b -> step g (goto i Inside b g)
| step_leave i b b' g :
    (at_ g).[i] = Inside -> holding i (base g) = Ret true b -> clear_owner b = Ret tt b' ->
    step g (goto i Leaving b' g)
| step_unlock i b g :
    (at_ g).[i] = Leaving -> store_unlocked (base g) = Ret tt b -> step g (goto i Unlocked b g)
| step_pop i b g :
    (at_ g).[i] = Unlocked -> popcli i (base g) = Ret tt b -> step g (goto i Out b g).

Definition owns (g : gst) (i : Z) : Prop :=
  (at_ g).[i] = Won \/ (at_ g).[i] = Inside \/ (at_ g).[i] = Leaving.

(** ** Interrupt nesting *)

(** Interrupts are off while the nesting depth is positive. *)
Definition cli_ok (c : cpu_state) : Prop :=
  0 <= ncli c /\ (0 < ncli c -> fl_if c = false).

Definition pushed (c : cpu_state) : cpu_state :=
  mkcpu (ncli c + 1) (if ncli c =? 0 then fl_if c else intena c) false.

Definition popped (c : cpu_state) : cpu_state :=
  mkcpu (ncli c - 1) (intena c) ((ncli c - 1 =? 0) && intena c).

Lemma cpus_set_cpu i c s : (cpus (set_cpu i c s)).[i] = c.
Proof. apply asel_insert_eq. Qed.

Lemma set_cpu_set_cpu i c c' s : set_cpu i c (set_cpu i c' s) = set_cpu i c s.
Proof. unfold set_cpu. simpl. by rewrite insert_insert_eq. Qed.

Lemma lk_set_cpu i c s : lk (set_cpu i c s) = lk s.
Proof. done. Qed.

Lemma cpus_set_lk l s : cpus (set_lk l s) = cpus s.
Proof. done. Qed.

Lemma lk_set_lk l s : lk (set_lk l s) = l.
Proof. done. Qed.

Lemma set_lk_set_lk l l' s : set_lk l (set_lk l' s) = set_lk l s.
Proof. done. Qed.

Lemma set_cpu_set_lk i c l s : set_cpu i c (set_lk l s) = set_lk l (set_cpu i c s).
Proof. done. Qed.

Ltac cpu_simp :=
  repeat first [ rewrite cpus_set_cpu | rewrite set_cpu_set_cpu | rewrite lk_set_cpu
               | rewrite cpus_set_lk | rewrite lk_set_lk | rewrite set_lk_set_lk
               | rewrite set_cpu_set_lk
               | progress cbn [ncli fl_if intena locked name cpu pcs] ].

Lemma pushcli_eq me s : pushcli me s = Ret tt (set_cpu me (pushed (cpus s).[me]) s).
Proof.
  unfold pushcli, bind, gets, cli, modify, mycpu, when, ret.
  cpu_simp. unfold pushed. destruct (ncli (cpus s).[me] =? 0); cpu_simp; done.
Qed.

Lemma popcli_eq me s :
  0 < ncli (cpus s).[me] -> fl_if (cpus s).[me] = false ->
  popcli me s = Ret tt (set_cpu me (popped (cpus s).[me]) s).
Proof.
  intros Hn Hf. unfold popcli, bind, gets, mycpu. rewrite Hf.
  unfold modify. cbn beta iota zeta. rewrite Hf. cbn beta iota zeta. cpu_simp.
  destruct (_ <? 0) eqn:E; [bprop; lia|]. cpu_simp.
  unfold when, popped, sti, modify, ret.
  destruct (_ && _) eqn:E2; cpu_simp; rewrite ?Hf; done.
Qed.

Lemma popped_pushed c : cli_ok c ->
  ncli (popped (pushed c)) = ncli c /\ fl_if (popped (pushed c)) = fl_if c.
Proof.
  intros [Hn Hf]. unfold popped, pushed. simpl. split; [lia|].
  replace (ncli c + 1 - 1) with (ncli c) by lia.
  destruct (ncli c =? 0) eqn:E; [done|]. bprop. rewrite Hf by lia. done.
Qed.

Lemma pushed_ok c : cli_ok c -> cli_ok (pushed c) /\ 0 < ncli (pushed c).
Proof. intros [Hn Hf]. unfold cli_ok, pushed. simpl. split; [split; [lia|done]|lia]. Qed.

Lemma holding_eq me s : cli_ok (cpus s).[me] ->
  exists c, holding me s =
    Ret (negb (locked (lk s) =? 0) && bool_decide (cpu (lk s) = Some me)) (set_cpu me c s) /\
    ncli c = ncli (cpus s).[me] /\ fl_if c = fl_if (cpus s).[me] /\
    (0 < ncli c -> intena c = intena (cpus s).[me]).
Proof.
  intros Hok. pose proof (pushed_ok _ Hok) as [_ Hp].
  exists (popped (pushed (cpus s).[me])).
  pose proof (popped_pushed _ Hok) as [Hn Hf].
  split; [|split; [done|split; [done|]]].
  - unfold holding, bind at 1. rewrite pushcli_eq. unfold bind, mycpu, gets.
    rewrite cpus_set_cpu. change (fl_if (pushed _)) with false. cbn iota.
    rewrite popcli_eq by (rewrite cpus_set_cpu; done). by cpu_simp.
  - unfold popped, pushed. simpl. intros Hlt.
    destruct (ncli (cpus s).[me] =? 0) eqn:E; [bprop; lia|done].
Qed.

Lemma acquire_eq fuel me m v s : cli_ok (cpus s).[me] -> locked (lk s) = 0 ->
  exists c, acquire (S fuel) me m v s =
    Ret tt (set_lk (mkspinlock 1 (name (lk s)) (Some me) (getcallerpcs m v)) (set_cpu me c s)) /\
    ncli c = ncli (cpus s).[me] + 1 /\ fl_if c = false /\
    intena c = intena (pushed (cpus s).[me]).
Proof.
  intros Hok Hl. pose proof (pushed_ok _ Hok) as [Hok' Hp].
  destruct (holding_eq me (set_cpu me (pushed (cpus s).[me]) s)) as (c & Hh & Hn & Hf & Hi);
    [by rewrite cpus_set_cpu|].
  rewrite cpus_set_cpu in Hn, Hf, Hi. exists c. split.
  - unfold acquire, set_owner, acquire_enter. do 2 unfold bind at 1. rewrite pushcli_eq, Hh.
    rewrite lk_set_cpu, Hl. cbn beta iota. cbn [negb andb Z.eqb].
    unfold bind at 1. cbn [iter]. unfold bind at 1. unfold bind at 1, xchg_locked.
    rewrite !lk_set_cpu, Hl. cbn [negb Z.eqb ret]. unfold bind, mycpu, modify, ret.
    cpu_simp. by rewrite Hf.
  - split; [unfold pushed in Hn; simpl in Hn; lia|]. split; [done|]. apply Hi. lia.
Qed.

(** A CPU that already holds the lock panics instead of spinning forever. *)
Lemma acquire_held fuel me m v s : cli_ok (cpus s).[me] ->
  locked (lk s) <> 0 -> cpu (lk s) = Some me ->
  exists s', acquire fuel me m v s = Panic "acquire" s'.
Proof.
  intros Hok Hl Hc. pose proof (pushed_ok _ Hok) as [Hok' _].
  destruct (holding_eq me (set_cpu me (pushed (cpus s).[me]) s)) as (c & Hh & _);
    [by rewrite cpus_set_cpu|].
  eexists. unfold acquire, acquire_enter. do 2 unfold bind at 1. rewrite pushcli_eq, Hh.
  rewrite lk_set_cpu, Hc, bool_decide_eq_true_2 by done.
  by rewrite (proj2 (Z.eqb_neq _ _) Hl).
Qed.

Lemma release_eq me s :
  cli_ok (cpus s).[me] -> 0 < ncli (cpus s).[me] ->
  locked (lk s) <> 0 -> cpu (lk s) = Some me ->
  release me s =
    Ret tt (set_lk (mkspinlock 0 (name (lk s)) None (<[0%nat := 0]> (pcs (lk s))))
              (set_cpu me (popped (cpus s).[me]) s)).
Proof.
  intros Hok Hn Hl Hc.
  destruct (holding_eq me s Hok) as (c & Hh & Hcn & Hcf & Hi).
  assert (c = (cpus s).[me]) as ->.
  { destruct c as [n i f], ((cpus s).[me]) as [n' i' f']. simpl in *.
    rewrite Hcn, Hcf, Hi by lia. done. }
  unfold release, bind at 1. rewrite Hh.
  rewrite Hc, bool_decide_eq_true_2, (proj2 (Z.eqb_neq _ _) Hl) by done.
  cbn [negb andb]. unfold bind, clear_owner, store_unlocked, modify. cpu_simp.
  rewrite popcli_eq by (cpu_simp; destruct Hok; auto). by cpu_simp.
Qed.

(** ** Mutual exclusion *)

Record mutex_inv (g : gst) : Prop := {
  mi_bit : locked (lk (base g)) = 0 \/ locked (lk (base g)) = 1;
  mi_free : locked (lk (base g)) = 0 -> forall i, ~ owns g i;
  mi_held : locked (lk (base g)) = 1 -> exists i, owns g i;
  mi_uniq : forall i j, owns g i -> owns g j -> i = j;
  mi_cpu : forall i, cpu (lk (base g)) = Some i <-> (at_ g).[i] = Inside;
  mi_cli : forall i, cli_ok (cpus (base g)).[i];
  mi_pos : forall i, (at_ g).[i] <> Out -> 0 < ncli (cpus (base g)).[i]
}.

Lemma acquire_enter_eq i s : cli_ok (cpus s).[i] ->
  exists c, acquire_enter i s =
    Ret (negb (locked (lk s) =? 0) && bool_decide (cpu (lk s) = Some i)) (set_cpu i c s) /\
    ncli c = ncli (cpus s).[i] + 1 /\ fl_if c = false.
Proof.
  intros Hok. pose proof (pushed_ok _ Hok) as [Hok' _].
  destruct (holding_eq i (set_cpu i (pushed (cpus s).[i]) s)) as (c & Hh & Hn & Hf & _);
    [by rewrite cpus_set_cpu|].
  rewrite cpus_set_cpu in Hn, Hf. exists c. split; [|done].
  unfold acquire_enter, bind. rewrite pushcli_eq, Hh. by cpu_simp.
Qed.

Lemma cpus_set_cpu_ne i j c s : i <> j -> (cpus (set_cpu i c s)).[j] = (cpus s).[j].
Proof. intros. by apply asel_insert_ne. Qed.

Lemma at_goto i p b g j :
  (at_ (goto i p b g)).[j] = if decide (i = j) then p else (at_ g).[j].
Proof. apply asel_insert. Qed.

Lemma owns_goto i p b g j :
  owns (goto i p b g) j <->
  (i = j /\ (p = Won \/ p = Inside \/ p = Leaving)) \/ (i <> j /\ owns g j).
Proof. unfold owns. rewrite at_goto. case_decide; [subst|]; naive_solver. Qed.

(** What a step of CPU [i] to point [p] must ensure for the invariant. *)
Lemma mutex_inv_goto g i p c b :
  mutex_inv g ->
  (forall j, (cpus b).[j] = if decide (i = j) then c else (cpus (base g)).[j]) ->
  cli_ok c -> (p <> Out -> 0 < ncli c) ->
  (locked (lk b) = 0 \/ locked (lk b) = 1) ->
  (p = Won \/ p = Inside \/ p = Leaving -> locked (lk b) = 1 /\ forall j, owns g j -> i = j) ->
  (locked (lk b) = 0 -> forall j, owns g j -> i = j) ->
  (locked (lk b) = 1 -> (p = Won \/ p = Inside \/ p = Leaving) \/ exists j, i <> j /\ owns g j) ->
  (forall j, cpu (lk b) = Some j <-> (i = j /\ p = Inside) \/ (i <> j /\ (at_ g).[j] = Inside)) ->
  mutex_inv (goto i p b g).
Proof.
  intros Hg Hcpus Hc Hp Hbit Hown Hfree Hheld Hcpu. split; cbn [base goto].
  - done.
  - intros Hz j Hj. apply owns_goto in Hj as [[<- Hpp]|[Hne Hj]].
    + destruct (Hown Hpp) as [Hl _]. congruence.
    + by apply Hfree in Hj.
  - intros Ho. destruct (Hheld Ho) as [Hpp|(j & Hne & Hj)].
    + exists i. apply owns_goto. by left.
    + exists j. apply owns_goto. by right.
  - intros j j' Hj Hj'. apply owns_goto in Hj as [[<- Hpp]|[Hne Hj]];
      apply owns_goto in Hj' as [[<- Hpp']|[Hne' Hj']]; try done.
    + by apply (proj2 (Hown Hpp)).
    + symmetry. by apply (proj2 (Hown Hpp')).
    + by apply (mi_uniq g Hg).
  - intros j. rewrite Hcpu, at_goto. case_decide; [subst|]; naive_solver.
  - intros j. rewrite Hcpus. case_decide; [done|apply (mi_cli g Hg)].
  - intros j. rewrite Hcpus, at_goto. case_decide; [done|apply (mi_pos g Hg)].
Qed.

Lemma popped_ok c : cli_ok c -> 0 < ncli c -> cli_ok (popped c).
Proof.
  intros [Hn Hf] Hp. unfold cli_ok, popped. simpl. split; [lia|]. intros Hlt.
  destruct (_ =? 0) eqn:E; [bprop; lia|done].
Qed.

Lemma cli_ok_same c d : ncli c = ncli d -> fl_if c = fl_if d -> cli_ok d -> cli_ok c.
Proof. unfold cli_ok. intros -> ->. done. Qed.

Lemma owns_inside g i : (at_ g).[i] = Inside -> owns g i.
Proof. unfold owns. auto. Qed.

Lemma inside_other g i j p : (at_ g).[i] <> Inside -> p <> Inside ->
  (at_ g).[j] = Inside <-> (i = j /\ p = Inside) \/ (i <> j /\ (at_ g).[j] = Inside).
Proof. intros Hi Hp. split; [intros Hj; right; split; [intros ->|]; done|]. by intros [[_ ?]|[_ ?]]. Qed.

Ltac mutex_step i c Hg :=
  apply (mutex_inv_goto _ i _ c); [exact Hg|..];
  [intros j; cbn [cpus set_cpu set_lk]; rewrite ?asel_insert; repeat case_decide; subst; done|..].

(** Every step keeps the invariant. *)
Lemma step_mutex_inv g g' : step g g' -> mutex_inv g -> mutex_inv g'.
Proof.
  intros Hs Hg. pose proof (mi_cpu g Hg) as Hcpu.
  destruct Hs as [i b g Ha He|i b old g Ha He Ho|i b g Ha He|i m v b g Ha He|i b b' g Ha He Hc
                 |i b g Ha He|i b g Ha He].
  - destruct (acquire_enter_eq i (base g) (mi_cli g Hg i)) as (c & Heq & Hn & Hf).
    rewrite Heq in He. injection He as Hr <-. pose proof (mi_cli g Hg i) as [Hc0 _].
    mutex_step i c Hg; cbn [lk set_cpu].
    + split; [lia|done].
    + lia.
    + apply (mi_bit g Hg).
    + naive_solver.
    + intros Hz j Hj. by apply (mi_free g Hg) in Hj.
    + intros Ho. destruct (mi_held g Hg Ho) as [j Hj]. right. exists j. split; [|done].
      intros <-. destruct Hj as [Hj|[Hj|Hj]]; congruence.
    + intros j. rewrite Hcpu. apply inside_other; congruence.
  - injection He as <- <-. mutex_step i ((cpus (base g)).[i]) Hg; cbn [lk set_lk locked cpu].
    + apply (mi_cli g Hg).
    + intros _. apply (mi_pos g Hg). by rewrite Ha.
    + by right.
    + naive_solver.
    + done.
    + intros _. destruct (mi_bit g Hg) as [Hz|Hl]; [congruence|]. destruct (mi_held g Hg Hl) as [j Hj].
      right. exists j. split; [|done]. intros <-. destruct Hj as [Hj|[Hj|Hj]]; congruence.
    + intros j. rewrite Hcpu. apply inside_other; congruence.
  - injection He as Hz <-. pose proof (mi_free g Hg Hz) as Hno.
    mutex_step i ((cpus (base g)).[i]) Hg; cbn [lk set_lk locked cpu].
    + apply (mi_cli g Hg).
    + intros _. apply (mi_pos g Hg). by rewrite Ha.
    + by right.
    + intros _. split; [done|]. intros j Hj. by apply Hno in Hj.
    + done.
    + auto.
    + intros j. rewrite Hcpu. apply inside_other; congruence.
  - assert (0 < ncli (cpus (base g)).[i]) as Hp by (apply (mi_pos g Hg); by rewrite Ha).
    unfold set_owner, bind, mycpu in He. rewrite (proj2 (mi_cli g Hg i) Hp) in He.
    injection He as <-. assert (owns g i) as Hoi by (left; done).
    mutex_step i ((cpus (base g)).[i]) Hg; cbn [lk set_lk locked cpu].
    + apply (mi_cli g Hg).
    + done.
    + apply (mi_bit g Hg).
    + intros _. split; [destruct (mi_bit g Hg) as [Hz|]; [by apply (mi_free g Hg) in Hoi|done]|].
      intros j Hj. by apply (mi_uniq g Hg).
    + intros _ j Hj. by apply (mi_uniq g Hg).
    + auto.
    + intros j. split; [intros [= ->]; by left|].
      intros [[-> _]|[Hne Hj]]; [done|].
      exfalso. apply Hne, (mi_uniq g Hg); [done|by apply owns_inside].
  - destruct (holding_eq i (base g) (mi_cli g Hg i)) as (c & Heq & Hn & Hf & _).
    rewrite Heq in He. injection He as Hr <-. injection Hc as <-.
    assert (owns g i) as Hoi by by apply owns_inside.
    mutex_step i c Hg; cbn [lk set_lk set_cpu locked cpu].
    + eapply cli_ok_same; [done..|apply (mi_cli g Hg)].
    + intros _. rewrite Hn. apply (mi_pos g Hg). by rewrite Ha.
    + apply (mi_bit g Hg).
    + intros _. split; [destruct (mi_bit g Hg) as [Hz|]; [by apply (mi_free g Hg) in Hoi|done]|].
      intros j Hj. by apply (mi_uniq g Hg).
    + intros _ j Hj. by apply (mi_uniq g Hg).
    + auto.
    + intros j. split; [done|]. intros [[_ ?]|[Hne Hj]]; [done|].
      exfalso. apply Hne, (mi_uniq g Hg); [done|by apply owns_inside].
  - injection He as <-. assert (owns g i) as Hoi by (unfold owns; auto).
    mutex_step i ((cpus (base g)).[i]) Hg; cbn [lk set_lk locked cpu].
    + apply (mi_cli g Hg).
    + intros _. apply (mi_pos g Hg). by rewrite Ha.
    + by left.
    + naive_solver.
    + intros _ j Hj. by apply (mi_uniq g Hg).
    + done.
    + intros j. rewrite Hcpu. apply inside_other; congruence.
  - assert (0 < ncli (cpus (base g)).[i]) as Hp by (apply (mi_pos g Hg); by rewrite Ha).
    rewrite popcli_eq in He by (done || by apply (mi_cli g Hg)). injection He as <-.
    mutex_step i (popped (cpus (base g)).[i]) Hg; cbn [lk set_cpu].
    + apply popped_ok; [apply (mi_cli g Hg)|done].
    + done.
    + apply (mi_bit g Hg).
    + naive_solver.
    + intros Hz j Hj. by apply (mi_free g Hg) in Hj.
    + intros Ho. destruct (mi_held g Hg Ho) as [j Hj]. right. exists j. split; [|done].
      intros <-. destruct Hj as [Hj|[Hj|Hj]]; congruence.
    + intros j. rewrite Hcpu. apply inside_other; congruence.
Qed.

(** The initial state: the lock initialised, every CPU outside. *)
Definition init_state (nm : string) (cs : arr cpu_state) : gst :=
  mkgst (mkst (mkspinlock 0 nm None []) cs) ∅.

Lemma init_mutex_inv nm cs :
  (forall i, cli_ok cs.[i]) -> mutex_inv (init_state nm cs).
Proof.
  intros Hc. split; cbn; auto.
  - intros _ i [H|[H|H]]; discriminate H.
  - intros H. discriminate H.
  - intros i j [H|[H|H]]; discriminate H.
  - intros i. split; intros H; discriminate H.
  - intros i H. exfalso. apply H. done.
Qed.

Lemma reachable_mutex_inv g g' : rtc step g g' -> mutex_inv g -> mutex_inv g'.
Proof. induction 1 as [|? ? ? Hs _ IH]; [done|]. intros Hg. apply IH. by eapply step_mutex_inv. Qed.

(** C7: mutual exclusion: however any number of CPUs interleave their runs of
    [acquire] and [release], starting from an initialised lock, at most one
    CPU is between winning the exchange and storing the unlock. *)
Theorem mutual_exclusion nm cs g i j :
  (forall k, cli_ok cs.[k]) -> rtc step (init_state nm cs) g -> owns g i -> owns g j -> i = j.
Proof.
  intros Hc Hr. apply mi_uniq. eapply reachable_mutex_inv; [exact Hr|by apply init_mutex_inv].
Qed.

(** The lock after CPU 0 has entered [acquire] and won the exchange. *)
Definition won_state : gst :=
  let s0 := init_state "shmpgtable" ∅ in
  match acquire_enter 0 (base s0) with
  | Ret _ b =>
      match xchg_locked b with
      | Ret _ b' => goto 0 Won b' (goto 0 Trying b s0)
      | _ => s0
      end
  | _ => s0
  end.

Lemma won_reachable : rtc step (init_state "shmpgtable" ∅) won_state.
Proof.
  eapply rtc_l; [eapply (step_enter 0); [done|vm_compute; reflexivity]|].
  eapply rtc_l; [eapply (step_win 0); [vm_compute; reflexivity|vm_compute; reflexivity]|].
  apply rtc_refl.
Qed.

Lemma mutual_exclusion_witness : owns won_state 0 /\ ~ owns won_state 1.
Proof.
  assert (owns won_state 0) as H0 by (left; vm_compute; reflexivity). split; [exact H0|].
  intros H1. assert (0 = 1) as H.
  { apply (mutual_exclusion "shmpgtable" ∅ won_state).
    - intros k. split; [apply Z.le_refl|intros H; discriminate H].
    - apply won_reachable.
    - exact H0.
    - exact H1. }
  discriminate H.
Defined.

(** Where a CPU stands, it can take its next step: nothing panics. *)
Definition can_step (g : gst) (i : Z) : Prop := exists g', step g g' /\ (at_ g').[i] <> (at_ g).[i].

Lemma inside_locked g i : mutex_inv g -> owns g i -> locked (lk (base g)) = 1.
Proof. intros Hg Ho. destruct (mi_bit g Hg) as [Hz|]; [by apply (mi_free g Hg) in Ho|done]. Qed.

(** No CPU that follows the protocol can panic or get stuck: in every
    reachable state each CPU has a step to its next program point, except one
    that spins while another CPU owns the lock. *)
Theorem lock_progress nm cs g i :
  (forall k, cli_ok cs.[k]) -> rtc step (init_state nm cs) g ->
  can_step g i \/ (at_ g).[i] = Trying /\ exists j, i <> j /\ owns g j.
Proof.
  intros Hc Hr. assert (mutex_inv g) as Hg
    by (eapply reachable_mutex_inv; [exact Hr|by apply init_mutex_inv]).
  pose proof (mi_cli g Hg i) as Hcli. pose proof (mi_pos g Hg i) as Hpos.
  assert (forall p b, step g (goto i p b g) -> p <> (at_ g).[i] -> can_step g i) as Hgo.
  { intros p b Hs Hne. exists (goto i p b g). split; [done|]. rewrite at_goto. by case_decide. }
  destruct ((at_ g).[i]) eqn:Ha.
  - left. destruct (acquire_enter_eq i (base g) Hcli) as (c & He & _).
    assert (negb (locked (lk (base g)) =? 0) && bool_decide (cpu (lk (base g)) = Some i) = false) as Hf.
    { apply andb_false_iff. right. apply bool_decide_eq_false. rewrite (mi_cpu g Hg). by rewrite Ha. }
    rewrite Hf in He. by eapply Hgo; [eapply step_enter|].
  - destruct (mi_bit g Hg) as [Hz|Ho].
    + left. eapply (Hgo Won); [eapply step_win; [done|]|done]. unfold xchg_locked. by rewrite Hz.
    + right. split; [done|]. destruct (mi_held g Hg Ho) as [j Hj]. exists j. split; [|done].
      intros <-. destruct Hj as [Hj|[Hj|Hj]]; congruence.
  - left. eapply (Hgo Inside); [eapply (step_own i ∅ 0); [done|]|done].
    unfold set_owner, bind, mycpu. by rewrite (proj2 Hcli (Hpos ltac:(done))).
  - left. destruct (holding_eq i (base g) Hcli) as (c & He & _).
    rewrite (proj2 (mi_cpu g Hg i) Ha), bool_decide_eq_true_2 in He by done.
    rewrite (inside_locked g i Hg ltac:(by apply owns_inside)) in He.
    by eapply (Hgo Leaving); [eapply step_leave|].
  - left. by eapply (Hgo Unlocked); [eapply step_unlock|].
  - left. eapply (Hgo Out); [eapply step_pop; [done|]|done].
    apply popcli_eq; [by apply Hpos|by apply Hcli, Hpos].
Qed.

Lemma lock_progress_witness :
  can_step (init_state "kmem" ∅) 0 \/ (at_ (init_state "kmem" ∅)).[0] = Trying /\
    exists j, 0 <> j /\ owns (init_state "kmem" ∅) j.
Proof.
  apply (lock_progress "kmem" ∅).
  - intros k. split; [apply Z.le_refl|intros H; discriminate H].
  - apply rtc_refl.
Defined.

End Spin.

(** ** The clients' view

    A component that runs on one CPU sees a lock as a flag: taking a held lock
    panics ("acquire"), as does dropping a free one ("release"). *)
Module Lock.

Definition acquire {S} (held : S -> bool) (set_held : bool -> S -> S) : M S unit := fun s =>
  if held s then Panic "acquire" s else Ret tt (set_held true s).

Definition release {S} (held : S -> bool) (set_held : bool -> S -> S) : M S unit := fun s =>
  if held s then Ret tt (set_held false s) else Panic "release" s.

(** The abstraction: the lock word, when no other CPU owns the lock. *)
Definition abs (s : Spin.st) : bool := negb (Spin.locked (Spin.lk s) =? 0).

Definition sole_user (me : Z) (s : Spin.st) : Prop :=
  Spin.cli_ok (Spin.cpus s).[me] /\
  (Spin.locked (Spin.lk s) = 0 \/ Spin.locked (Spin.lk s) = 1) /\
  (Spin.locked (Spin.lk s) = 1 ->
     Spin.cpu (Spin.lk s) = Some me /\ 0 < Spin.ncli (Spin.cpus s).[me]).

(** What a flag operation and a run of [spinlock.c] have in common. *)
Definition agrees (me : Z) (o : outcome bool unit) (r : outcome Spin.st unit) : Prop :=
  match o, r with
  | Ret _ h, Ret _ s => abs s = h /\ sole_user me s
  | Panic m _, Panic m' _ => m = m'
  | _, _ => False
  end.

Lemma acquire_refines fuel me m v s : sole_user me s ->
  agrees me (acquire id (fun h _ => h) (abs s)) (Spin.acquire (S fuel) me m v s).
Proof.
  intros (Hok & Hbit & Hown). unfold acquire, abs, id. destruct Hbit as [Hz|Ho].
  - rewrite Hz. cbn [Z.eqb negb].
    destruct (Spin.acquire_eq fuel me m v s Hok Hz) as (c & -> & Hn & Hf & _).
    cbn. split; [done|]. destruct Hok as [Hn0 _]. unfold sole_user. cbn [Spin.lk Spin.cpus
      Spin.set_lk Spin.set_cpu Spin.locked Spin.cpu]. rewrite asel_insert_eq.
    split; [split; [lia|done]|]. split; [by right|]. intros _. split; [done|lia].
  - rewrite Ho. cbn [Z.eqb negb]. destruct (Hown Ho) as [Hc Hp].
    destruct (Spin.acquire_held (S fuel) me m v s Hok ltac:(lia) Hc) as (s' & ->). done.
Qed.

Lemma release_refines me s : sole_user me s ->
  agrees me (release id (fun h _ => h) (abs s)) (Spin.release me s).
Proof.
  intros (Hok & Hbit & Hown). unfold release, abs, id. destruct Hbit as [Hz|Ho].
  - rewrite Hz. cbn [Z.eqb negb]. unfold Spin.release, bind.
    destruct (Spin.holding_eq me s Hok) as (c & -> & _). rewrite Hz. done.
  - rewrite Ho. cbn [Z.eqb negb]. destruct (Hown Ho) as [Hc Hp].
    rewrite Spin.release_eq by (done || lia). cbn. split; [done|].
    unfold sole_user. cbn [Spin.lk Spin.cpus Spin.set_lk Spin.set_cpu Spin.locked Spin.cpu].
    rewrite asel_insert_eq. split; [by apply Spin.popped_ok|]. split; [by left|done].
Qed.

(** The flag the other components use for a lock is faithful: while no
    other CPU uses the lock, [acquire] and [release] of [spinlock.c] return
    exactly when the flag operations do, in a state with the same flag, and
    panic with the same message exactly when those do. *)
Theorem lock_refines fuel me m v s : sole_user me s ->
  agrees me (acquire id (fun h _ => h) (abs s)) (Spin.acquire (S fuel) me m v s) /\
  agrees me (release id (fun h _ => h) (abs s)) (Spin.release me s).
Proof. intros Hs. split; [by apply acquire_refines|by apply release_refines]. Qed.

Lemma lock_refines_witness :
  let s := Spin.mkst (Spin.mkspinlock 0 "kmem" None []) ∅ in
  agrees 0 (acquire id (fun h _ => h) (abs s)) (Spin.acquire 1 0 ∅ 0 s) /\
  agrees 0 (release id (fun h _ => h) (abs s)) (Spin.release 0 s).
Proof.
  apply (lock_refines 0). split; [split; [apply Z.le_refl|intros H; discriminate H]|].
  split; [by left|intros H; discriminate H].
Defined.

Lemma wp_acquire {S} (held : S -> bool) (set_held : bool -> S -> S) Q s :
  held s = false -> Q tt (set_held true s) -> wp (acquire held set_held) Q s.
Proof. unfold wp, acquire. by intros ->. Qed.

Lemma wp_release {S} (held : S -> bool) (set_held : bool -> S -> S) Q s :
  held s = true -> Q tt (set_held false s) -> wp (release held set_held) Q s.
Proof. unfold wp, release. by intros ->. Qed.

End Lock.
