(* ===== verification/Kalloc.v ===== *)
(** * Physical page allocator ([kalloc.c])

    The free list is a linked list threaded through the free pages
    themselves: the first word of a free page points to the next one.
    [free_rep] relates it to a list of page addresses, and [kalloc]/[kfree]
    refine popping and pushing that list. *)

From stdpp Require Import base tactics numbers gmap strings list.
From Stdlib Require Import ZArith Lia.
From S2P Require Import Prelude Mmu Memory Spinlock.

(** ** Linker symbols

    [kernel.ld] places [data] on a page boundary after the kernel text and
    [end] after the bss; the kernel starts with its text at [KERNLINK] and fits in
    the memory [entrypgdir] maps. *)
Class Layout := {
  lk_data : Z;
  lk_end : Z;
  layout_data : KERNLINK < lk_data <= lk_end;
  layout_align : lk_data mod 4096 = 0;
  layout_end : lk_end <= KERNBASE + 4 * 1024 * 1024
}.

(** A console message: the format string and its arguments. *)
Inductive carg := CInt (z : Z) | CStr (s : string).

(** ** State: physical memory, [kmem], and what was printed *)
Record kst := mkkst {
  klocked : bool;
  use_lock : bool;
  freelist : Z;
  mem : memory;
  out : list (string * list carg)
}.

Definition set_klocked (b : bool) (s : kst) : kst :=
  mkkst b (use_lock s) (freelist s) (mem s) (out s).
Definition set_use_lock (b : bool) (s : kst) : kst :=
  mkkst (klocked s) b (freelist s) (mem s) (out s).
Definition set_freelist (p : Z) (s : kst) : kst :=
  mkkst (klocked s) (use_lock s) p (mem s) (out s).
Definition set_mem (m : memory) (s : kst) : kst :=
  mkkst (klocked s) (use_lock s) (freelist s) m (out s).
Definition set_out (o : list (string * list carg)) (s : kst) : kst :=
  mkkst (klocked s) (use_lock s) (freelist s) (mem s) o.

Definition cprintf (fmt : string) (args : list carg) : M kst unit :=
  modify (fun s => set_out (out s ++ [(fmt, args)]) s).

(** Memory accesses of kernel code. *)
Definition rd32 (a : Z) : M kst Z := gets (fun s => load32 (mem s) a).
Definition wr32 (a v : Z) : M kst unit := modify (fun s => set_mem (store32 (mem s) a v) s).
Definition kmemset (dst c n : Z) : M kst unit :=
  modify (fun s => set_mem (StringC.memset (mem s) dst c n) s).
Definition kmemmove (dst src n : Z) : M kst unit :=
  modify (fun s => set_mem (StringC.memmove (mem s) dst src n) s).

Section Alloc.
Context {L : Layout}.

Definition kfree (v : Z) : M kst unit :=
  if negb (v mod PGSIZE =? 0) || (v <? lk_end) || (PHYSTOP <=? V2P v) then panic "kfree" else
  kmemset v 1 PGSIZE ;;;
  let* ul := gets use_lock in
  when ul (Lock.acquire klocked set_klocked) ;;;
  let* fl := gets freelist in
  wr32 v fl ;;;
  modify (set_freelist v) ;;;
  let* ul := gets use_lock in
  when ul (Lock.release klocked set_klocked).

Definition kalloc : M kst Z :=
  let* ul := gets use_lock in
  when ul (Lock.acquire klocked set_klocked) ;;;
  let* r := gets freelist in
  when (negb (r =? 0)) (
    let* next := rd32 r in
    modify (set_freelist next)) ;;;
  let* ul := gets use_lock in
  when ul (Lock.release klocked set_klocked) ;;;
  ret r.

(** [for(; p + PGSIZE <= vend; p += PGSIZE) kfree(p);] the fuel is the number
    of pages up to [vend], plus one for the test that ends the loop. *)
Definition freerange (vstart vend : Z) : M kst unit :=
  let p := PGROUNDUP vstart in
  iter (Z.to_nat ((vend - p) / PGSIZE) + 1)%nat (fun p =>
    if p + PGSIZE <=? vend then kfree p ;;; ret (inl (p + PGSIZE)) else ret (inr tt)) p.

Definition kinit1 (vstart vend : Z) : M kst unit :=
  modify (set_klocked false) ;;;
  modify (set_use_lock false) ;;;
  freerange vstart vend.

Definition kinit2 (vstart vend : Z) : M kst unit :=
  freerange vstart vend ;;;
  modify (set_use_lock true).

(** ** The free list *)

(** A page [kfree] accepts. *)
Definition page_ok (p : Z) : Prop :=
  p mod PGSIZE = 0 /\ lk_end <= p /\ p + PGSIZE <= KERNBASE + PHYSTOP.

Fixpoint free_rep (m : memory) (head : Z) (l : list Z) : Prop :=
  match l with
  | [] => head = 0
  | p :: l' => head = p /\ page_ok p /\ free_rep m (load32 m p) l'
  end.

Record kmem_inv (s : kst) (l : list Z) : Prop := {
  ki_rep : free_rep (mem s) (freelist s) l;
  ki_nodup : NoDup l;
  ki_lock : klocked s = false
}.

Lemma page_ok_range p : page_ok p -> KERNBASE < p < 4294967296 - 4096.
Proof. unfold page_ok. pose proof layout_data. mlia. Qed.

Lemma page_ok_test p : page_ok p ->
  negb (p mod PGSIZE =? 0) || (p <? lk_end) || (PHYSTOP <=? V2P p) = false.
Proof.
  intros Hp. pose proof (page_ok_range p Hp). destruct Hp as (Ha & Hb & Hc).
  rewrite Ha, V2P_high by mlia. rewrite orb_false_iff, orb_false_iff, Z.ltb_ge, Z.leb_gt. mlia.
Qed.

(** The test of [kfree] is exactly [page_ok]. *)
Lemma page_ok_iff p : 0 <= p < 4294967296 ->
  negb (p mod PGSIZE =? 0) || (p <? lk_end) || (PHYSTOP <=? V2P p) = false <-> page_ok p.
Proof.
  intros Hr. split; [|apply page_ok_test].
  rewrite !orb_false_iff, negb_false_iff, Z.eqb_eq, Z.ltb_ge, Z.leb_gt.
  pose proof layout_data. intros [[Ha Hb] Hc]. rewrite V2P_high in Hc by mlia.
  unfold page_ok. mlia.
Qed.

Lemma free_rep_pages m h l : free_rep m h l -> Forall page_ok l.
Proof. revert h. induction l; intros h; [constructor|]. intros (? & ? & ?). constructor; eauto. Qed.

Lemma free_rep_ext m m' h l :
  (forall p, p ∈ l -> load32 m' p = load32 m p) -> free_rep m h l -> free_rep m' h l.
Proof.
  revert h. induction l as [|p l IH]; intros h He; [done|]. intros (Hh & Hp & Hr). simpl.
  split; [done|split; [done|]]. rewrite He by set_solver. apply IH; [set_solver|done].
Qed.

Lemma page_disjoint p q : page_ok p -> page_ok q -> p <> q -> p + 4096 <= q \/ q + 4096 <= p.
Proof. unfold page_ok. intros (Ha & _) (Hb & _) Hne. mlia. Qed.

(** Writes confined to a page outside the list leave the list alone. *)
Lemma free_rep_frame m m' h l v :
  page_ok v -> v ∉ l -> same_outside v (v + PGSIZE) m m' -> free_rep m h l -> free_rep m' h l.
Proof.
  intros Hv Hnin Hs Hr. apply (free_rep_ext m); [|done]. intros p Hp.
  eapply same_outside_load32; [exact Hs|].
  pose proof (proj1 (Forall_forall _ _) (free_rep_pages _ _ _ Hr) p Hp) as Hpok.
  destruct (page_disjoint p v Hpok Hv) as [|]; [by intros ->|left|right]; mlia.
Qed.

Lemma kmem_inv_frame s s' l v :
  page_ok v -> v ∉ l -> same_outside v (v + PGSIZE) (mem s) (mem s') ->
  freelist s' = freelist s -> klocked s' = klocked s -> kmem_inv s l -> kmem_inv s' l.
Proof.
  intros Hv Hnin Hs Hf Hk [Hr Hn Hl]. split; [|done|congruence].
  rewrite Hf. by eapply free_rep_frame.
Qed.

(** [kalloc] pops the list; with an empty list it returns 0 and changes
    nothing. *)
Lemma kalloc_eq s l : kmem_inv s l ->
  kalloc s =
  match l with
  | [] => Ret 0 s
  | p :: _ => Ret p (set_freelist (load32 (mem s) p) s)
  end.
Proof.
  intros [Hr Hn Hk]. destruct s as [lkd ul fl m o]. simpl in *. subst lkd.
  unfold kalloc, bind, gets, when, ret, Lock.acquire, Lock.release, modify, rd32.
  destruct l as [|p l]; simpl in Hr.
  - subst fl. by destruct ul.
  - destruct Hr as (-> & Hp & Hr). pose proof (page_ok_range p Hp).
    assert ((p =? 0) = false) as Hz by mlia.
    destruct ul; cbn -[load32]; by rewrite Hz.
Qed.

Lemma kalloc_inv s p l : kmem_inv s (p :: l) ->
  kmem_inv (set_freelist (load32 (mem s) p) s) l /\ page_ok p /\ p ∉ l.
Proof.
  intros [(Hh & Hp & Hr) Hn Hk]. apply NoDup_cons in Hn as [Hnin Hn].
  split; [split; done|done].
Qed.

Lemma wp_kalloc s l (Q : Z -> kst -> Prop) : kmem_inv s l ->
  (l = [] -> Q 0 s) ->
  (forall p l' s', l = p :: l' -> page_ok p -> p ∉ l' -> kmem_inv s' l' ->
     s' = set_freelist (load32 (mem s) p) s -> Q p s') ->
  wp kalloc Q s.
Proof.
  intros Hi H0 H1. unfold wp. rewrite (kalloc_eq s l Hi). destruct l as [|p l]; [auto|].
  destruct (kalloc_inv s p l Hi) as (Hi' & Hp & Hnin). by eapply H1.
Qed.

(** The state [kfree v] leaves behind. *)
Definition freed (v : Z) (s : kst) : kst :=
  set_freelist v (set_mem (store32 (StringC.memset (mem s) v 1 PGSIZE) v (freelist s)) s).

Lemma kfree_eq v s : page_ok v -> klocked s = false -> kfree v s = Ret tt (freed v s).
Proof.
  intros Hv Hk. unfold kfree. rewrite (page_ok_test v Hv). destruct s as [lkd ul fl m o].
  simpl in Hk. subst lkd. by destruct ul.
Qed.

Lemma freed_same_outside v s : same_outside v (v + PGSIZE) (mem s) (mem (freed v s)).
Proof.
  intros a Ha. unfold freed. cbn [mem set_freelist set_mem].
  rewrite load8_store32_ne by mlia. rewrite StringC.memset_spec by mlia. by case_decide.
Qed.

Lemma freed_inv v s l : page_ok v -> v ∉ l -> kmem_inv s l -> kmem_inv (freed v s) (v :: l).
Proof.
  intros Hv Hnin Hi. destruct Hi as [Hr Hn Hk]. pose proof (page_ok_range v Hv).
  split; [|by apply NoDup_cons|done]. cbn [freelist freed set_freelist].
  split; [done|split; [done|]]. cbn [mem freed set_freelist set_mem].
  rewrite load32_store32_eq. rewrite u32_small.
  - eapply free_rep_frame; [exact Hv|exact Hnin|apply (freed_same_outside v s)|exact Hr].
  - destruct l as [|q l]; simpl in Hr; [mlia|]. destruct Hr as (-> & Hq & _).
    pose proof (page_ok_range q Hq). mlia.
Qed.

Lemma wp_kfree v s l (Q : unit -> kst -> Prop) : page_ok v -> v ∉ l -> kmem_inv s l ->
  (kmem_inv (freed v s) (v :: l) -> Q tt (freed v s)) -> wp (kfree v) Q s.
Proof.
  intros Hv Hnin Hi HQ. unfold wp. rewrite kfree_eq by (done || apply Hi).
  by apply HQ, freed_inv.
Qed.

(** ** Filling the free list at boot *)

(** The page-aligned pages of [lo, lo + n * PGSIZE). *)
Definition pages_from (lo : Z) (n : Z) : list Z := (fun i => lo + PGSIZE * i) <$> seqZ 0 n.

Lemma elem_pages_from lo n p :
  p ∈ pages_from lo n <-> exists i, 0 <= i < n /\ p = lo + PGSIZE * i.
Proof.
  unfold pages_from. rewrite list_elem_of_fmap. split.
  - intros (i & -> & Hi%elem_of_seqZ). exists i. split; [lia|done].
  - intros (i & Hi & ->). exists i. split; [done|]. apply elem_of_seqZ. lia.
Qed.

Lemma pages_from_snoc lo n : 0 <= n -> pages_from lo (n + 1) = pages_from lo n ++ [lo + PGSIZE * n].
Proof.
  intros Hn. unfold pages_from. rewrite seqZ_app by lia. by rewrite fmap_app.
Qed.

Lemma freerange_spec vstart vend l s :
  0 <= vstart <= 4294963200 ->
  lk_end <= vstart -> vend <= KERNBASE + PHYSTOP ->
  (forall p, p ∈ l -> p + PGSIZE <= PGROUNDUP vstart \/ vend <= p) ->
  kmem_inv s l ->
  wp (freerange vstart vend)
    (fun _ s' => kmem_inv s'
       (reverse (pages_from (PGROUNDUP vstart) (Z.max 0 ((vend - PGROUNDUP vstart) / PGSIZE))) ++ l)
       /\ use_lock s' = use_lock s /\ same_outside (PGROUNDUP vstart) vend (mem s) (mem s')) s.
Proof.
  intros Hs He Hend Hl Hi. unfold freerange.
  assert (PGROUNDUP vstart mod 4096 = 0 /\ vstart <= PGROUNDUP vstart) as [Hal Hge]
    by (rewrite PGROUNDUP_eq by lia; mlia).
  set (p0 := PGROUNDUP vstart) in *.
  apply (wp_iter (fun p s' => exists n, 0 <= n /\ p = p0 + PGSIZE * n /\
           (n = 0 \/ p <= vend) /\
           kmem_inv s' (reverse (pages_from p0 n) ++ l) /\ use_lock s' = use_lock s /\
           same_outside p0 vend (mem s) (mem s'))
         (fun p => Z.to_nat ((vend - p) / PGSIZE))).
  - intros p s' (n & Hn & -> & Hle & Hinv & Hul & Hso).
    destruct (_ <=? vend) eqn:Hc; bprop.
    + set (p := p0 + PGSIZE * n) in *. apply wp_bind.
      assert (page_ok p) as Hpok by (unfold page_ok; mlia).
      eapply wp_kfree; [exact Hpok| |exact Hinv|].
      * rewrite elem_of_app, elem_of_reverse, elem_pages_from.
        intros [(i & Hi' & Heq)|Hp]; [mlia|]. destruct (Hl p Hp); mlia.
      * intros Hinv'. apply wp_ret. split; [|mlia].
        exists (n + 1). split; [lia|]. split; [mlia|]. split; [mlia|].
        rewrite pages_from_snoc, reverse_app by lia. split; [done|].
        split; [exact Hul|]. intros a Ha. rewrite <- Hso by done.
        apply (freed_same_outside p s'). mlia.
    + apply wp_ret. split; [|done]. replace (Z.max 0 ((vend - p0) / PGSIZE)) with n; [done|].
      destruct Hle as [->|Hle]; mlia.
  - exists 0. split; [lia|]. split; [mlia|]. split; [by left|]. done.
  - mlia.
Qed.

(** C8: [kalloc] and [kfree] refine a stack of pages.  On the abstract list,
    [kalloc] pops the first page, or returns 0 and changes nothing when there
    is none; [kfree] of an allocatable page that is not free pushes it and
    writes nothing outside it, and of any other address panics. *)
Theorem kalloc_kfree_refine s l v : kmem_inv s l -> 0 <= v < 4294967296 ->
  wp kalloc (fun p s' => match l with
                         | [] => p = 0 /\ s' = s
                         | q :: l' => p = q /\ page_ok q /\ kmem_inv s' l' /\ mem s' = mem s
                         end) s /\
  (page_ok v -> v ∉ l -> wp (kfree v) (fun _ s' =>
     kmem_inv s' (v :: l) /\ same_outside v (v + PGSIZE) (mem s) (mem s')) s) /\
  (~ page_ok v -> kfree v s = Panic "kfree" s).
Proof.
  intros Hi Hv. split; [|split].
  - apply (wp_kalloc s l); [done|by intros ->|]. intros p l' s' -> Hp Hni Hi' ->. done.
  - intros Hp Hni. eapply wp_kfree; [done|done|done|]. intros Hi'. split; [done|].
    apply freed_same_outside.
  - intros Hp. unfold kfree. destruct (negb _ || _ || _) eqn:E; [done|].
    by apply page_ok_iff in E.
Qed.

Lemma pages_from_elem lo hi p : lo mod PGSIZE = 0 ->
  p ∈ pages_from lo (Z.max 0 ((hi - lo) / PGSIZE)) <->
  p mod PGSIZE = 0 /\ lo <= p /\ p + PGSIZE <= hi.
Proof.
  intros Hlo. rewrite elem_pages_from. split.
  - intros (i & Hi & ->). mlia.
  - intros (Ha & Hb & Hc). exists ((p - lo) / PGSIZE). mlia.
Qed.

(** After the two initialisation calls of [main], the free list holds
    every page [kfree] accepts, exactly once, and the lock is in use. *)
Theorem kinit_fills s : freelist s = 0 ->
  wp (kinit1 lk_end (P2V (4 * 1024 * 1024)) ;;; kinit2 (P2V (4 * 1024 * 1024)) (P2V PHYSTOP))
    (fun _ s' => use_lock s' = true /\
       exists l, kmem_inv s' l /\ forall p, p ∈ l <-> page_ok p) s.
Proof.
  intros Hf. pose proof layout_data as Hd. pose proof layout_end as He.
  change (P2V (4 * 1024 * 1024)) with 0x80400000. change (P2V PHYSTOP) with (KERNBASE + PHYSTOP).
  assert (PGROUNDUP lk_end mod PGSIZE = 0 /\ lk_end <= PGROUNDUP lk_end < lk_end + PGSIZE)
    as [Hal Hge] by (rewrite PGROUNDUP_eq by mlia; mlia).
  unfold kinit1, kinit2. apply wp_bind, wp_bind, wp_modify, wp_bind, wp_modify.
  eapply wp_mono; [|apply (freerange_spec lk_end 0x80400000 []); try mlia].
  2:{ by intros p Hp%elem_of_nil. }
  2:{ split; [done|constructor|done]. }
  rewrite app_nil_r. intros [] s1 [Hi1 _]. apply wp_bind.
  eapply wp_mono; [|eapply (freerange_spec 0x80400000 (KERNBASE + PHYSTOP)); [mlia|mlia|mlia| |exact Hi1]].
  - intros [] s2 [Hi2 _]. apply wp_modify. split; [done|]. eexists. split.
    { destruct Hi2 as [Hr Hn Hk]. split; [exact Hr|exact Hn|done]. }
    intros p. change (PGROUNDUP 0x80400000) with 0x80400000.
    rewrite elem_of_app, !elem_of_reverse, !pages_from_elem by done. unfold page_ok. mlia.
  - intros p. rewrite elem_of_reverse, pages_from_elem by done.
    change (PGROUNDUP 0x80400000) with 0x80400000. lia.
Qed.

End Alloc.
