(* ===== verification/Vm.v ===== *)
(** * Virtual memory ([vm.c])

    Two-level x86 page tables kept in physical memory.  Every routine of
    [vm.c] that builds, changes or reads page tables is modelled on the
    machine state of [Kalloc]; a page table is addressed by the kernel
    virtual address of its directory page, as in the code.  The loading of
    segment descriptors, TSS and cr3 ([seginit], [switchuvm], [switchkvm])
    touches CPU registers only and is left out; [loaduvm] is in [Exec]. *)

From stdpp Require Import base tactics numbers gmap strings list.
From Stdlib Require Import ZArith Lia.
From S2P Require Import Prelude Mmu Memory Spinlock Kalloc.

Section Vm.
Context {L : Layout}.

(** The result is the address of the entry, 0 for none. *)
Definition walkpgdir (pgdir va : Z) (alloc : bool) : M kst Z :=
  let pde := pgdir + 4 * PDX va in
  let* e := rd32 pde in
  if has e PTE_P then ret (P2V (PTE_ADDR e) + 4 * PTX va) else
  if negb alloc then ret 0 else
  let* pgtab := kalloc in
  if pgtab =? 0 then ret 0 else
  kmemset pgtab 0 PGSIZE ;;;
  wr32 pde (Z.lor (Z.lor (Z.lor (V2P pgtab) PTE_P) PTE_W) PTE_U) ;;;
  ret (pgtab + 4 * PTX va).

(** One turn of the loop of [mappages]: [inr] returns from the function. *)
Definition mappages_step (pgdir last perm : Z) (st : Z * Z) : M kst (Z * Z + Z) :=
  let '(a, pa) := st in
  let* pte := walkpgdir pgdir a true in
  if pte =? 0 then ret (inr (-1)) else
  let* e := rd32 pte in
  if has e PTE_P then panic "remap" else
  wr32 pte (Z.lor (Z.lor pa perm) PTE_P) ;;;
  ret (if a =? last then inr 0 else inl (u32 (a + PGSIZE), u32 (pa + PGSIZE))).

(** The loop runs once per page from [a] to [last], wrapping at 2^32. *)
Definition mappages (pgdir va size pa perm : Z) : M kst Z :=
  let a := PGROUNDDOWN va in
  let last := PGROUNDDOWN (u32 (u32 va + size - 1)) in
  iter (Z.to_nat (u32 (last - a) / PGSIZE) + 1)%nat (mappages_step pgdir last perm) (a, u32 pa).

(** One turn of the loop of [deallocuvm] at address [a]. *)
Definition deallocuvm_step (pgdir oldsz a : Z) : M kst (Z + unit) :=
  if negb (a <? oldsz) then ret (inr tt) else
  let* pte := walkpgdir pgdir a false in
  if pte =? 0 then ret (inl (u32 (u32 (PGADDR (PDX a + 1) 0 0 - PGSIZE) + PGSIZE))) else
  let* e := rd32 pte in
  (if has e PTE_P then
     let pa := PTE_ADDR e in
     if pa =? 0 then panic "kfree" else
     kfree (P2V pa) ;;;
     wr32 pte 0
   else ret tt) ;;;
  ret (inl (u32 (a + PGSIZE))).

Definition deallocuvm (pgdir oldsz newsz : Z) : M kst Z :=
  if oldsz <=? newsz then ret oldsz else
  let a := PGROUNDUP newsz in
  iter (Z.to_nat ((oldsz - a + PGSIZE - 1) / PGSIZE) + 1)%nat (deallocuvm_step pgdir oldsz) a ;;;
  ret newsz.

(** One turn of the loop of [allocuvm]; [inr] returns from the function. *)
Definition allocuvm_step (pgdir oldsz newsz a : Z) : M kst (Z + Z) :=
  if negb (a <? newsz) then ret (inr newsz) else
  let* mem := kalloc in
  if mem =? 0 then
    cprintf "allocuvm out of memory\n" [] ;;;
    deallocuvm pgdir newsz oldsz ;;;
    ret (inr 0)
  else
  kmemset mem 0 PGSIZE ;;;
  let* r := mappages pgdir a PGSIZE (V2P mem) (Z.lor PTE_W PTE_U) in
  if r <? 0 then
    cprintf "allocuvm out of memory (2)\n" [] ;;;
    deallocuvm pgdir newsz oldsz ;;;
    kfree mem ;;;
    ret (inr 0)
  else ret (inl (u32 (a + PGSIZE))).

Definition allocuvm (pgdir oldsz newsz : Z) : M kst Z :=
  if HEAPLIMIT <=? newsz then ret 0 else
  if newsz <? oldsz then ret oldsz else
  let a := PGROUNDUP oldsz in
  iter (Z.to_nat ((newsz - a + PGSIZE - 1) / PGSIZE) + 1)%nat (allocuvm_step pgdir oldsz newsz) a.

Definition freevm (pgdir : Z) : M kst unit :=
  if pgdir =? 0 then panic "freevm: no pgdir" else
  deallocuvm pgdir HEAPLIMIT 0 ;;;
  for_up 0 NPDENTRIES (fun i =>
    let* e := rd32 (pgdir + 4 * i) in
    when (has e PTE_P) (kfree (P2V (PTE_ADDR e)))) ;;;
  kfree pgdir.

(** [struct kmap]: virt, phys_start, phys_end, perm. *)
Record kmap_entry := mkkmap {
  virt : Z;
  phys_start : Z;
  phys_end : Z;
  kperm : Z
}.

Definition kmap : list kmap_entry :=
  [ mkkmap KERNBASE 0 EXTMEM PTE_W;
    mkkmap KERNLINK (V2P KERNLINK) (V2P lk_data) 0;
    mkkmap lk_data (V2P lk_data) PHYSTOP PTE_W;
    mkkmap DEVSPACE DEVSPACE 0 PTE_W ].

Fixpoint map_kernel (pgdir : Z) (ks : list kmap_entry) : M kst Z :=
  match ks with
  | [] => ret pgdir
  | k :: ks' =>
      let* r := mappages pgdir (virt k) (u32 (phys_end k - phys_start k)) (phys_start k) (kperm k) in
      if r <? 0 then freevm pgdir ;;; ret 0 else map_kernel pgdir ks'
  end.

Definition setupkvm : M kst Z :=
  let* pgdir := kalloc in
  if pgdir =? 0 then ret 0 else
  kmemset pgdir 0 PGSIZE ;;;
  if DEVSPACE <? P2V PHYSTOP then panic "PHYSTOP too high" else
  map_kernel pgdir kmap.

(** [init] is the address of the [sz] bytes of initcode. *)
Definition inituvm (pgdir init sz : Z) : M kst unit :=
  if PGSIZE <=? sz then panic "inituvm: more than a page" else
  let* mem := kalloc in
  if mem =? 0 then undef else
  kmemset mem 0 PGSIZE ;;;
  mappages pgdir 0 PGSIZE (V2P mem) (Z.lor PTE_W PTE_U) ;;;
  kmemmove mem init sz.

Definition clearpteu (pgdir uva : Z) : M kst unit :=
  let* pte := walkpgdir pgdir uva false in
  if pte =? 0 then panic "clearpteu" else
  let* e := rd32 pte in
  wr32 pte (Z.land e (u32 (Z.lnot PTE_U))).

Definition clearmapping (pgdir uva : Z) : M kst unit :=
  let* pte := walkpgdir pgdir uva false in
  if pte =? 0 then panic "clearmapping" else
  let* e := rd32 pte in
  wr32 pte (Z.land e (u32 (Z.lnot PTE_P))).

(** One turn of the loop of [copyuvm], which copies the page at [i]; [bad:] is
    the [freevm d; return 0] of each failing step. *)
Definition copyuvm_step (pgdir sz d i : Z) : M kst (Z + Z) :=
  if negb (i <? sz) then ret (inr d) else
  let* pte := walkpgdir pgdir i false in
  if pte =? 0 then panic "copyuvm: pte should exist" else
  let* e := rd32 pte in
  if negb (has e PTE_P) then panic "copyuvm: page not present" else
  let pa := PTE_ADDR e in
  let flags := PTE_FLAGS e in
  let* mem := kalloc in
  if mem =? 0 then freevm d ;;; ret (inr 0) else
  kmemmove mem (P2V pa) PGSIZE ;;;
  let* r := mappages d i PGSIZE (V2P mem) flags in
  if r <? 0 then kfree mem ;;; freevm d ;;; ret (inr 0) else
  ret (inl (u32 (i + PGSIZE))).

(** The result is the child's directory, 0 on failure. *)
Definition copyuvm (pgdir sz : Z) : M kst Z :=
  let* d := setupkvm in
  if d =? 0 then ret 0 else
  iter (Z.to_nat ((sz + PGSIZE - 1) / PGSIZE) + 1)%nat (copyuvm_step pgdir sz d) 0.

(** [*pte] is read without a null check: a missing page table is an access
    through a null pointer. *)
Definition uva2ka (pgdir uva : Z) : M kst Z :=
  let* pte := walkpgdir pgdir uva false in
  if pte =? 0 then undef else
  let* e := rd32 pte in
  if Z.land e PTE_P =? 0 then ret 0 else
  if Z.land e PTE_U =? 0 then ret 0 else
  ret (P2V (PTE_ADDR e)).

(** [p] is the kernel address of the bytes to copy. *)
Definition copyout (pgdir va p len : Z) : M kst Z :=
  iter (Z.to_nat ((va mod PGSIZE + len + PGSIZE - 1) / PGSIZE) + 1)%nat (fun '(va, buf, len) =>
    if negb (0 <? len) then ret (inr 0) else
    let va0 := PGROUNDDOWN va in
    let* pa0 := uva2ka pgdir va0 in
    if pa0 =? 0 then ret (inr (-1)) else
    let n := u32 (PGSIZE - (va - va0)) in
    let n := if len <? n then len else n in
    kmemmove (pa0 + (va - va0)) buf n ;;;
    ret (inl (u32 (va0 + PGSIZE), buf + n, u32 (len - n)))) (va, p, len).

End Vm.
