(* ===== verification/VmFacts.v ===== *)
(** * Page tables: invariant and mapping

    [vm_ok m pgdir tabs] says that the directory page [pgdir] in memory [m]
    refers exactly to the page-table pages [tabs] (directory index to page);
    [mapping m pgdir va] is the present entry the hardware would find for
    [va].  The lemmas give the effect of each page-table operation on that
    mapping, with a frame: which physical pages it may write. *)

From stdpp Require Import base tactics numbers gmap strings list.
From Stdlib Require Import ZArith Lia.
From S2P Require Import Prelude Mmu Memory Spinlock Kalloc Vm.

Section VmFacts.
Context {L : Layout}.

Definition page_of (a : Z) : Z := a - a mod PGSIZE.

(** [m'] differs from [m] only inside pages satisfying [P]. *)
Definition frame (P : Z -> Prop) (m m' : memory) : Prop :=
  forall a, ~ P (page_of a) -> load8 m' a = load8 m a.

Definition pde_at (m : memory) (pgdir i : Z) : Z := load32 m (pgdir + 4 * i).

Definition tab_entry (e : Z) : option Z :=
  if has e PTE_P then Some (P2V (PTE_ADDR e)) else None.

Definition mapping (m : memory) (pgdir va : Z) : option Z :=
  match tab_entry (pde_at m pgdir (PDX va)) with
  | None => None
  | Some t => let e := load32 m (t + 4 * PTX va) in if has e PTE_P then Some e else None
  end.

Record vm_ok (m : memory) (pgdir : Z) (tabs : gmap Z Z) : Prop := {
  vo_pgdir : page_ok pgdir;
  vo_tab : forall i t, tabs !! i = Some t -> 0 <= i < 1024 /\ page_ok t /\ t <> pgdir;
  vo_pde : forall i, 0 <= i < 1024 -> tab_entry (pde_at m pgdir i) = tabs !! i;
  vo_inj : forall i j t, tabs !! i = Some t -> tabs !! j = Some t -> i = j
}.

(** The pages a page table is made of. *)
Definition vpage (pgdir : Z) (tabs : gmap Z Z) (q : Z) : Prop :=
  q = pgdir \/ exists i, tabs !! i = Some q.

Record vm_inv (s : kst) (l : list Z) (pgdir : Z) (tabs : gmap Z Z) : Prop := {
  vi_kmem : kmem_inv s l;
  vi_ok : vm_ok (mem s) pgdir tabs;
  vi_disj : forall q, vpage pgdir tabs q -> q ∉ l
}.

(** ** Pages and frames *)

Lemma page_of_range a q : q mod PGSIZE = 0 -> q <= a < q + PGSIZE <-> page_of a = q.
Proof. unfold page_of. intros Hq. split; intros H; mlia. Qed.

Lemma PGROUNDDOWN_page a : 0 <= a < 4294967296 -> PGROUNDDOWN a = page_of a.
Proof. apply PGROUNDDOWN_eq. Qed.

Lemma frame_refl P m : frame P m m.
Proof. done. Qed.

Lemma frame_trans P m1 m2 m3 : frame P m1 m2 -> frame P m2 m3 -> frame P m1 m3.
Proof. intros H1 H2 a Ha. by rewrite H2, H1. Qed.

Lemma frame_weaken (P Q : Z -> Prop) m m' : (forall q, P q -> Q q) -> frame P m m' -> frame Q m m'.
Proof. intros HPQ H a Ha. apply H. auto. Qed.

Lemma frame_of_same q m m' : q mod PGSIZE = 0 ->
  same_outside q (q + PGSIZE) m m' <-> frame (eq q) m m'.
Proof.
  intros Hq. split; intros H a Ha; apply H.
  - intros Hr. apply Ha. symmetry. by apply page_of_range.
  - intros Hr. apply Ha. symmetry in Hr. by apply page_of_range.
Qed.

(** A word inside an untouched page keeps its value. *)
Lemma frame_load32 P m m' q k : frame P m m' -> q mod PGSIZE = 0 -> ~ P q ->
  0 <= k < 1024 -> load32 m' (q + 4 * k) = load32 m (q + 4 * k).
Proof.
  intros Hf Hq HP Hk. apply load32_ext. intros b Hb. apply Hf.
  assert (page_of b = q) as -> by (apply page_of_range; [done|mlia]). done.
Qed.

Lemma store32_frame m q k v : q mod PGSIZE = 0 -> 0 <= k < 1024 ->
  frame (eq q) m (store32 m (q + 4 * k) v).
Proof.
  intros Hq Hk. apply frame_of_same; [done|]. intros a Ha.
  apply load8_store32_ne. mlia.
Qed.

Lemma memset_frame m q c : q mod PGSIZE = 0 -> frame (eq q) m (StringC.memset m q c PGSIZE).
Proof.
  intros Hq. apply frame_of_same; [done|]. intros a Ha.
  rewrite StringC.memset_spec by mlia. by case_decide.
Qed.

Lemma load32_memset0 m q k : 0 <= k < 1024 ->
  load32 (StringC.memset m q 0 PGSIZE) (q + 4 * k) = 0.
Proof.
  intros Hk. unfold load32. rewrite !StringC.memset_spec by mlia.
  repeat case_decide; mlia || done.
Qed.

Lemma kmem_frame P s s' l : kmem_inv s l -> frame P (mem s) (mem s') ->
  (forall q, q ∈ l -> ~ P q) -> freelist s' = freelist s -> klocked s' = klocked s ->
  kmem_inv s' l.
Proof.
  intros [Hr Hn Hk] Hf HP Hfl Hlk. split; [|done|congruence].
  rewrite Hfl. apply (free_rep_ext (mem s)); [|done]. intros p Hp.
  pose proof (proj1 (Forall_forall _ _) (free_rep_pages _ _ _ Hr) p Hp) as Hpok.
  replace p with (p + 4 * 0) by lia. eapply frame_load32; [exact Hf|apply Hpok|auto|lia].
Qed.

(** ** Entries *)

Lemma has_P x : has x PTE_P = Z.odd x.
Proof.
  unfold has, PTE_P. change 1 with (Z.ones 1) at 1. rewrite Z.land_ones by lia.
  change (2 ^ 1) with 2. rewrite Zmod_odd. by destruct (Z.odd x).
Qed.

Lemma odd_aligned pa f : pa mod 4096 = 0 -> Z.odd (pa + f) = Z.odd f.
Proof.
  intros Hpa. rewrite Z.odd_add.
  assert (Z.odd pa = false) as ->; [|by destruct (Z.odd f)].
  assert (pa = 2 * (pa / 2)) as -> by wrap_lia. by rewrite Z.odd_mul.
Qed.

Lemma odd_lor_P perm : Z.odd (Z.lor perm PTE_P) = true.
Proof. rewrite <- Z.bit0_odd, Z.lor_spec. unfold PTE_P. apply orb_true_r. Qed.

Lemma PTE_ADDR_compose pa f : 0 <= pa -> pa + 4096 <= 4294967296 -> pa mod 4096 = 0 ->
  0 <= f < 4096 -> PTE_ADDR (pa + f) = pa /\ PTE_FLAGS (pa + f) = f.
Proof. intros. rewrite PTE_ADDR_eq, PTE_FLAGS_eq by lia. split; wrap_lia. Qed.

Lemma page_phys q : page_ok q ->
  V2P q mod 4096 = 0 /\ 0 < V2P q /\ V2P q + 4096 <= PHYSTOP /\ P2V (V2P q) = q.
Proof.
  intros Hq. pose proof (page_ok_range q Hq). destruct Hq as (Ha & Hb & Hc).
  rewrite V2P_high by mlia. rewrite P2V_low by mlia. mlia.
Qed.

(** The directory entry [walkpgdir] installs for a new table page. *)
Lemma new_pde p : page_ok p ->
  u32 (Z.lor (Z.lor (Z.lor (V2P p) PTE_P) PTE_W) PTE_U) = V2P p + 7 /\
  tab_entry (V2P p + 7) = Some p.
Proof.
  intros Hp. destruct (page_phys p Hp) as (Ha & Hpos & Htop & Hback). split.
  - rewrite <- !Z.lor_assoc. change (Z.lor PTE_P (Z.lor PTE_W PTE_U)) with 7.
    rewrite (lor_aligned 12) by (done || lia). rewrite u32_small; mlia.
  - unfold tab_entry. rewrite has_P, odd_aligned by done. simpl.
    rewrite (proj1 (PTE_ADDR_compose (V2P p) 7 ltac:(lia) ltac:(mlia) Ha ltac:(lia))).
    by rewrite Hback.
Qed.

Lemma PDX_range va : 0 <= va < 4294967296 -> 0 <= PDX va < 1024.
Proof. intros. rewrite PDX_eq by done. wrap_lia. Qed.

Lemma PTX_range va : 0 <= va < 4294967296 -> 0 <= PTX va < 1024.
Proof. intros. rewrite PTX_eq by done. wrap_lia. Qed.

Lemma same_slot va va' : 0 <= va < 4294967296 -> 0 <= va' < 4294967296 ->
  PDX va = PDX va' -> PTX va = PTX va' -> page_of va = page_of va'.
Proof. intros H H'. rewrite !PDX_eq, !PTX_eq by done. unfold page_of. mlia. Qed.

Lemma slot_page va va' : 0 <= va < 4294967296 -> 0 <= va' < 4294967296 ->
  page_of va = page_of va' -> PDX va = PDX va' /\ PTX va = PTX va'.
Proof. intros H H'. rewrite !PDX_eq, !PTX_eq by done. unfold page_of. mlia. Qed.

(** ** Invariant under frames *)

Lemma vm_ok_frame P m m' pgdir tabs : vm_ok m pgdir tabs -> frame P m m' -> ~ P pgdir ->
  vm_ok m' pgdir tabs.
Proof.
  intros [Hp Ht Hpde Hinj] Hf HP. split; auto. intros i Hi. rewrite <- Hpde by done.
  unfold pde_at. erewrite frame_load32; [done|exact Hf|apply Hp|done|done].
Qed.

Lemma mapping_frame P m m' pgdir tabs va : vm_ok m pgdir tabs -> frame P m m' ->
  (forall q, vpage pgdir tabs q -> ~ P q) -> 0 <= va < 4294967296 ->
  mapping m' pgdir va = mapping m pgdir va.
Proof.
  intros Hok Hf HP Hva. pose proof (PDX_range va Hva). pose proof (PTX_range va Hva).
  pose proof (vm_ok_frame P m m' pgdir tabs Hok Hf (HP _ (or_introl eq_refl))) as Hok'.
  unfold mapping. rewrite (vo_pde m' _ _ Hok'), (vo_pde m _ _ Hok) by done.
  destruct (tabs !! PDX va) as [t|] eqn:E; [|done].
  erewrite frame_load32; [done|exact Hf|apply (vo_tab _ _ _ Hok _ _ E)|apply HP; right; eauto|done].
Qed.

Lemma vm_inv_frame P s s' l pgdir tabs : vm_inv s l pgdir tabs -> frame P (mem s) (mem s') ->
  (forall q, vpage pgdir tabs q \/ q ∈ l -> ~ P q) ->
  freelist s' = freelist s -> klocked s' = klocked s -> vm_inv s' l pgdir tabs.
Proof.
  intros [Hk Ho Hd] Hf HP Hfl Hlk. split; [|eapply vm_ok_frame; eauto|done].
  - eapply kmem_frame; eauto.
  - apply HP. by left; left.
Qed.

(** ** [walkpgdir] *)

Lemma walk_noalloc s l pgdir tabs va : vm_inv s l pgdir tabs -> 0 <= va < 4294967296 ->
  walkpgdir pgdir va false s =
  Ret (match tabs !! PDX va with Some t => t + 4 * PTX va | None => 0 end) s.
Proof.
  intros [Hk Ho Hd] Hva. unfold walkpgdir, bind, rd32, gets.
  pose proof (vo_pde _ _ _ Ho (PDX va) (PDX_range va Hva)) as Hp.
  unfold tab_entry, pde_at in Hp. rewrite <- Hp. by destruct (has _ _).
Qed.

Lemma walk_present s l pgdir tabs va t : vm_inv s l pgdir tabs -> 0 <= va < 4294967296 ->
  tabs !! PDX va = Some t -> walkpgdir pgdir va true s = Ret (t + 4 * PTX va) s.
Proof.
  intros [Hk Ho Hd] Hva Ht. unfold walkpgdir, bind, rd32, gets.
  pose proof (vo_pde _ _ _ Ho (PDX va) (PDX_range va Hva)) as Hp.
  rewrite Ht in Hp. unfold tab_entry, pde_at in Hp. destruct (has _ _); [|done].
  by injection Hp as ->.
Qed.

(** The state after a new table page [p] is hooked into the directory. *)
Definition with_table (pgdir i p : Z) (s : kst) : kst :=
  set_mem (store32 (StringC.memset (mem s) p 0 PGSIZE) (pgdir + 4 * i)
             (Z.lor (Z.lor (Z.lor (V2P p) PTE_P) PTE_W) PTE_U))
    (set_freelist (load32 (mem s) p) s).

Lemma walk_absent s l pgdir tabs va : vm_inv s l pgdir tabs -> 0 <= va < 4294967296 ->
  tabs !! PDX va = None ->
  walkpgdir pgdir va true s =
  match l with
  | [] => Ret 0 s
  | p :: _ => Ret (p + 4 * PTX va) (with_table pgdir (PDX va) p s)
  end.
Proof.
  intros [Hk Ho Hd] Hva Ht. unfold walkpgdir, bind, rd32, gets.
  pose proof (vo_pde _ _ _ Ho (PDX va) (PDX_range va Hva)) as Hp.
  rewrite Ht in Hp. unfold tab_entry, pde_at in Hp. destruct (has _ _); [done|]. cbn [negb].
  rewrite (kalloc_eq s l Hk). destruct l as [|p l]; [done|].
  destruct (kalloc_inv s p l Hk) as (_ & Hpok & _). pose proof (page_ok_range p Hpok).
  rewrite (proj2 (Z.eqb_neq p 0)) by mlia. done.
Qed.

Lemma with_table_frame pgdir i p s : page_ok pgdir -> page_ok p -> 0 <= i < 1024 ->
  frame (fun q => q = pgdir \/ q = p) (mem s) (mem (with_table pgdir i p s)).
Proof.
  intros Hd Hp Hi. unfold with_table. cbn [mem set_mem set_freelist].
  eapply frame_trans.
  - eapply frame_weaken; [|apply (memset_frame _ p 0), Hp]. intros q <-. by right.
  - eapply frame_weaken; [|apply store32_frame; [apply Hd|done]]. intros q <-. by left.
Qed.

Lemma pde_with_table pgdir i p s j : page_ok pgdir -> page_ok p -> p <> pgdir ->
  0 <= i < 1024 -> 0 <= j < 1024 ->
  tab_entry (pde_at (mem (with_table pgdir i p s)) pgdir j) =
  if decide (i = j) then Some p else tab_entry (pde_at (mem s) pgdir j).
Proof.
  intros Hd Hp Hne Hi Hj. unfold pde_at, with_table. cbn [mem set_mem set_freelist].
  case_decide as Hij.
  - subst j. rewrite load32_store32_eq. destruct (new_pde p Hp) as [-> ->]. done.
  - rewrite load32_store32_ne by lia. f_equal.
    eapply frame_load32; [apply (memset_frame _ p 0), Hp|apply Hd|congruence|done].
Qed.

Lemma with_table_ok s p l pgdir tabs i : vm_inv s (p :: l) pgdir tabs -> 0 <= i < 1024 ->
  tabs !! i = None ->
  vm_inv (with_table pgdir i p s) l pgdir (<[i := p]> tabs) /\
  (forall va, 0 <= va < 4294967296 ->
     mapping (mem (with_table pgdir i p s)) pgdir va = mapping (mem s) pgdir va) /\
  page_ok p /\ p <> pgdir.
Proof.
  intros [Hk Ho Hd] Hi Hnone. destruct (kalloc_inv s p l Hk) as (Hk' & Hp & Hnin).
  assert (p <> pgdir) as Hne.
  { intros ->. apply (Hd pgdir); [by left|by constructor]. }
  pose proof (with_table_frame pgdir i p s (vo_pgdir _ _ _ Ho) Hp Hi) as Hf.
  assert (vm_ok (mem (with_table pgdir i p s)) pgdir (<[i:=p]> tabs)) as Ho'.
  { destruct Ho as [Hpg Ht Hpde Hinj]. split; [done|..].
    - intros j t. rewrite lookup_insert. case_decide; [|apply Ht]. by intros [= <-]; subst.
    - intros j Hj. rewrite pde_with_table by done. rewrite lookup_insert.
      case_decide; [done|by apply Hpde].
    - intros j k t. rewrite !lookup_insert. intros H1 H2.
      assert (forall j', tabs !! j' <> Some p) as Hfresh.
      { intros j' Hj'. apply (Hd p); [right; eauto|by constructor]. }
      repeat case_decide; simplify_eq; try done;
        [exfalso; eapply Hfresh; eassumption..|eapply Hinj; eassumption]. }
  split; [|split; [|done]].
  - split; [|done|].
    + eapply kmem_frame; [exact Hk'| |  |done|done].
      * exact Hf.
      * intros q Hq [->| ->]; [|done]. apply (Hd pgdir); [by left|by constructor].
    + intros q [->|[j Hj]]; [intros Hin; apply (Hd pgdir); [by left|by constructor]|].
      rewrite lookup_insert in Hj. case_decide; simplify_eq; [done|].
      intros Hin. apply (Hd q); [right; eauto|by constructor].
  - intros va Hva. pose proof (PDX_range va Hva). pose proof (PTX_range va Hva). unfold mapping.
    rewrite (vo_pde _ _ _ Ho'), (vo_pde _ _ _ Ho) by done. rewrite lookup_insert.
    case_decide as Hij.
    + subst i. rewrite Hnone. replace (load32 _ _) with 0; [by rewrite has_P|].
      unfold with_table. cbn [mem set_mem set_freelist]. rewrite load32_store32_ne.
      * by rewrite load32_memset0.
      * pose proof (page_disjoint p pgdir Hp (vo_pgdir _ _ _ Ho) Hne). mlia.
    + destruct (tabs !! PDX va) as [t|] eqn:Et; [|done].
      erewrite frame_load32; [done|exact Hf|apply (vo_tab _ _ _ Ho _ _ Et)| |done].
      intros [->| ->]; [by apply (vo_tab _ _ _ Ho _ _ Et)|].
      apply (Hd p); [right; eauto|by constructor].
Qed.

(** ** Writing an entry *)

Definition present (e : Z) : option Z := if has e PTE_P then Some e else None.

Definition with_pte (t va e : Z) (s : kst) : kst :=
  set_mem (store32 (mem s) (t + 4 * PTX va) e) s.

Lemma with_pte_ok s l pgdir tabs va t e : vm_inv s l pgdir tabs -> 0 <= va < 4294967296 ->
  tabs !! PDX va = Some t -> 0 <= e < 4294967296 ->
  vm_inv (with_pte t va e s) l pgdir tabs /\
  (forall va', 0 <= va' < 4294967296 ->
     mapping (mem (with_pte t va e s)) pgdir va' =
     if decide (page_of va = page_of va') then present e else mapping (mem s) pgdir va') /\
  frame (eq t) (mem s) (mem (with_pte t va e s)).
Proof.
  intros Hi Hva Ht He. destruct Hi as [Hk Ho Hd].
  destruct (vo_tab _ _ _ Ho _ _ Ht) as (Hx & Htok & Hne).
  pose proof (PTX_range va Hva) as Hptx.
  assert (frame (eq t) (mem s) (mem (with_pte t va e s))) as Hf
    by (apply store32_frame; [apply Htok|done]).
  assert (vm_inv (with_pte t va e s) l pgdir tabs) as Hi'.
  { split; [|eapply vm_ok_frame; [exact Ho|exact Hf|congruence]|done].
    eapply kmem_frame; [exact Hk|exact Hf| |done|done].
    intros q Hq <-. apply (Hd t); [right; eauto|done]. }
  split; [done|split; [|done]]. intros va' Hva'.
  pose proof (PDX_range va' Hva'). pose proof (PTX_range va' Hva'). unfold mapping.
  rewrite (vo_pde _ _ _ (vi_ok _ _ _ _ Hi')), (vo_pde _ _ _ Ho) by done.
  case_decide as Hpg.
  - destruct (slot_page va va' Hva Hva' Hpg) as [<- <-]. rewrite Ht.
    unfold with_pte. cbn [mem set_mem]. rewrite load32_store32_eq, u32_small by done. done.
  - destruct (tabs !! PDX va') as [t'|] eqn:Et'; [|done].
    unfold with_pte. cbn [mem set_mem]. rewrite load32_store32_ne; [done|].
    destruct (decide (t = t')) as [<-|Htt].
    + pose proof (vo_inj _ _ _ Ho _ _ _ Ht Et') as Hpdx.
      assert (PTX va <> PTX va') by (intros ?; apply Hpg; by apply same_slot). lia.
    + pose proof (page_disjoint t t' Htok (proj1 (proj2 (vo_tab _ _ _ Ho _ _ Et'))) Htt). lia.
Qed.

(** ** [walkpgdir] that allocates, as one rule *)

Lemma wp_walk_alloc s l pgdir tabs va (Q : Z -> kst -> Prop) :
  vm_inv s l pgdir tabs -> 0 <= va < 4294967296 ->
  (tabs !! PDX va = None -> l = [] -> Q 0 s) ->
  (forall t l' tabs' s', vm_inv s' l' pgdir tabs' -> tabs' !! PDX va = Some t ->
     (forall va', 0 <= va' < 4294967296 ->
        mapping (mem s') pgdir va' = mapping (mem s) pgdir va') ->
     frame (fun q => vpage pgdir tabs' q) (mem s) (mem s') ->
     (tabs' = tabs /\ l' = l \/ l = t :: l' /\ tabs !! PDX va = None /\ tabs' = <[PDX va := t]> tabs) ->
     use_lock s' = use_lock s ->
     Q (t + 4 * PTX va) s') ->
  wp (walkpgdir pgdir va true) Q s.
Proof.
  intros Hi Hva H0 H1. unfold wp. pose proof (PDX_range va Hva) as Hpdx.
  destruct (tabs !! PDX va) as [t|] eqn:Et.
  - rewrite (walk_present s l pgdir tabs va t Hi Hva Et).
    eapply H1; [exact Hi|exact Et|done|apply frame_refl|by left|done].
  - rewrite (walk_absent s l pgdir tabs va Hi Hva Et). destruct l as [|p l]; [auto|].
    destruct (with_table_ok s p l pgdir tabs (PDX va) Hi Hpdx Et) as (Hi' & Hm & Hp & Hne).
    eapply H1; [exact Hi'|by rewrite lookup_insert_eq|exact Hm| |by right|done].
    eapply frame_weaken; [|apply with_table_frame; [apply (vi_ok _ _ _ _ Hi)|done|done]].
    intros q [->| ->]; [by left|]. right. exists (PDX va). by rewrite lookup_insert_eq.
Qed.

Lemma walk_nonnull s l pgdir tabs va t : vm_inv s l pgdir tabs -> 0 <= va < 4294967296 ->
  tabs !! PDX va = Some t -> (t + 4 * PTX va =? 0) = false.
Proof.
  intros Hi Hva Ht. pose proof (PTX_range va Hva).
  destruct (vo_tab _ _ _ (vi_ok _ _ _ _ Hi) _ _ Ht) as (_ & Hp & _).
  pose proof (page_ok_range t Hp). apply Z.eqb_neq. mlia.
Qed.

(** What [mapping] says about the word [walkpgdir] points to. *)
Lemma mapping_entry s l pgdir tabs va t : vm_inv s l pgdir tabs -> 0 <= va < 4294967296 ->
  tabs !! PDX va = Some t ->
  mapping (mem s) pgdir va = present (load32 (mem s) (t + 4 * PTX va)).
Proof.
  intros Hi Hva Ht. unfold mapping.
  by rewrite (vo_pde _ _ _ (vi_ok _ _ _ _ Hi)), Ht by by apply PDX_range.
Qed.

(** How an operation may have changed the bookkeeping: page tables only
    grow, at directory indices satisfying [P], by pages taken in order from
    the free list. *)
Inductive tabs_grow (P : Z -> Prop) : list Z -> gmap Z Z -> list Z -> gmap Z Z -> Prop :=
| tabs_grow_refl l tabs : tabs_grow P l tabs l tabs
| tabs_grow_step p l tabs i l' tabs' : P i -> tabs !! i = None ->
    tabs_grow P l (<[i := p]> tabs) l' tabs' -> tabs_grow P (p :: l) tabs l' tabs'.

(** Each page taken from the list has become a table. *)
Lemma tabs_grow_size P l tabs l' tabs' : tabs_grow P l tabs l' tabs' ->
  (length l + size tabs = length l' + size tabs')%nat.
Proof. induction 1 as [|p l tabs i l' tabs' _ Hn _ IH]; [done|]. rewrite map_size_insert_None in IH by done. cbn. lia. Qed.

Lemma tabs_grow_dom P l tabs l' tabs' i : tabs_grow P l tabs l' tabs' -> is_Some (tabs' !! i) -> is_Some (tabs !! i) \/ P i.
Proof.
  induction 1 as [|p l tabs j l' tabs' Hj Hn _ IH]; [by left|]. intros [Hi|Hi]%IH; [|by right].
  rewrite lookup_insert in Hi. case_decide; [subst; by right|by left].
Qed.

Lemma tabs_grow_one x l tabs l' tabs' : tabs_grow (eq x) l tabs l' tabs' -> (length l <= length l' + 1)%nat.
Proof.
  intros [|p l1 t1 i l2 t2 <- _ Hg]; [lia|]. cbn. inversion Hg as [|p' l3 t3 j l4 t4 <- Hn]; subst; [lia|].
  by rewrite lookup_insert_eq in Hn.
Qed.

Lemma tabs_grow_trans P l1 t1 l2 t2 l3 t3 :
  tabs_grow P l1 t1 l2 t2 -> tabs_grow P l2 t2 l3 t3 -> tabs_grow P l1 t1 l3 t3.
Proof. induction 1; [done|]. intros. by eapply tabs_grow_step; eauto. Qed.

Lemma tabs_grow_weaken (P Q : Z -> Prop) l t l' t' : (forall i, P i -> Q i) ->
  tabs_grow P l t l' t' -> tabs_grow Q l t l' t'.
Proof. intros HPQ. induction 1; [constructor|]. eapply tabs_grow_step; eauto. Qed.

Lemma tabs_grow_insert (P : Z -> Prop) t l tabs i : P i -> tabs !! i = None ->
  tabs_grow P (t :: l) tabs l (<[i := t]> tabs).
Proof. intros HP Hn. eapply tabs_grow_step; [done|done|constructor]. Qed.

Lemma tabs_grow_sub P l tabs l' tabs' : tabs_grow P l tabs l' tabs' -> tabs ⊆ tabs'.
Proof. induction 1; [done|]. etrans; [|done]. by apply insert_subseteq. Qed.

(** The new table pages are exactly those taken from the list. *)
Lemma tabs_grow_used P l tabs l' tabs' : tabs_grow P l tabs l' tabs' ->
  exists used, l = used ++ l' /\
    forall q, (exists i, tabs' !! i = Some q) <-> (exists i, tabs !! i = Some q) \/ q ∈ used.
Proof.
  induction 1 as [|p l tabs i l' tabs' HP Hn _ (u & -> & Hu)].
  - exists []. split; [done|]. intros q. split; [by left|]. by intros [?|?%elem_of_nil].
  - exists (p :: u). split; [done|]. intros q. rewrite Hu, elem_of_cons. split.
    + intros [[j Hj]|Hq]; [|by right; right]. rewrite lookup_insert in Hj.
      case_decide; simplify_eq; eauto.
    + intros [[j Hj]|[->|Hq]]; [|left|by right].
      * left. exists j. rewrite lookup_insert_ne; [done|]. by intros ->; rewrite Hn in Hj.
      * exists i. by rewrite lookup_insert_eq.
Qed.

(** ** [mappages] *)

(** [m] with [k] pages from [a0] mapped to the frames from [pa]. *)
Definition mapped_range (m : memory) (pgdir a0 k pa f va : Z) : option Z :=
  if decide (a0 <= va < a0 + PGSIZE * k) then Some (pa + (page_of va - a0) + f)
  else mapping m pgdir va.

Lemma mapped_range_step m m' pgdir a0 k pa f va : a0 mod 4096 = 0 -> 0 <= k ->
  (mapping m' pgdir va =
    if decide (page_of (a0 + PGSIZE * k) = page_of va) then Some (pa + PGSIZE * k + f)
    else mapped_range m pgdir a0 k pa f va) ->
  mapping m' pgdir va = mapped_range m pgdir a0 (k + 1) pa f va.
Proof.
  intros Ha Hk ->. unfold mapped_range.
  repeat case_decide; first [done|f_equal; unfold page_of in *; mlia
                            |exfalso; unfold page_of in *; mlia].
Qed.

(** Growing the tables keeps the old table pages. *)
Lemma vpage_grow P l tabs l' tabs' pgdir q :
  tabs_grow P l tabs l' tabs' -> vpage pgdir tabs q -> vpage pgdir tabs' q.
Proof.
  intros Hsub%tabs_grow_sub [->|[i Hi]]; [by left|]. right. exists i.
  by eapply (lookup_weaken tabs tabs').
Qed.

(** One turn maps one page, or finds no page for a new table. *)
Lemma wp_mappages_step s l pgdir tabs last a pa perm (Q : Z * Z + Z -> kst -> Prop) :
  vm_inv s l pgdir tabs -> 0 <= a < 4294967296 -> a mod 4096 = 0 ->
  pa mod 4096 = 0 -> 0 <= pa -> pa + PGSIZE <= 4294967296 -> 0 <= perm < 4096 ->
  mapping (mem s) pgdir a = None ->
  (tabs !! PDX a = None -> l = [] -> Q (inr (-1)) s) ->
  (forall s' l' tabs', vm_inv s' l' pgdir tabs' -> tabs_grow (eq (PDX a)) l tabs l' tabs' ->
     (forall va', 0 <= va' < 4294967296 ->
        mapping (mem s') pgdir va' =
        if decide (page_of va' = a) then Some (pa + Z.lor perm PTE_P)
        else mapping (mem s) pgdir va') ->
     frame (vpage pgdir tabs') (mem s) (mem s') ->
     use_lock s' = use_lock s ->
     Q (if a =? last then inr 0 else inl (u32 (a + PGSIZE), u32 (pa + PGSIZE))) s') ->
  wp (mappages_step pgdir last perm (a, pa)) Q s.
Proof.
  intros Hi Ha Hal Hpa Hpa0 Hpan Hperm Hfree H0 H1. unfold mappages_step.
  apply wp_bind. eapply wp_walk_alloc; [exact Hi|exact Ha|..].
  { intros Hn ->. apply wp_ret. by apply H0. }
  intros t l2 tabs2 s2 Hi2 Ht Hm2 Hf2 Hcase Hul2.
  rewrite (walk_nonnull s2 l2 pgdir tabs2 _ t Hi2 Ha Ht). apply wp_bind, wp_gets.
  assert (mapping (mem s2) pgdir a = None) as Hnone by by rewrite Hm2.
  rewrite (mapping_entry s2 l2 pgdir tabs2 _ t Hi2 Ha Ht) in Hnone. unfold present in Hnone.
  destruct (has _ _); [done|]. clear Hnone. apply wp_bind, wp_modify, wp_ret.
  destruct (pte_compose pa perm Hpa Hperm) as [-> Hfl]. set (e := pa + Z.lor perm PTE_P).
  fold (with_pte t a e s2).
  destruct (with_pte_ok s2 l2 pgdir tabs2 a t e Hi2 Ha Ht ltac:(unfold e; mlia))
    as (Hi3 & Hm3 & Hf3).
  apply (H1 _ l2 tabs2); [done|..|by cbn].
  - destruct Hcase as [[-> ->]|(-> & Hn & ->)]; [constructor|by apply tabs_grow_insert].
  - intros va' Hva'. rewrite Hm3, Hm2 by done.
    assert (page_of a = a) as -> by (unfold page_of; mlia).
    destruct (decide (a = page_of va')) as [E|E], (decide (page_of va' = a)) as [E'|E'];
      try congruence.
    unfold present, e. by rewrite has_P, odd_aligned, odd_lor_P by done.
  - eapply frame_trans; [exact Hf2|eapply frame_weaken; [|exact Hf3]; intros q <-; right; eauto].
Qed.

(** [mappages] on [n] pages nobody has mapped: either all of them end up
    mapped, in order and with the permissions asked for, or the free list ran
    out after [k] of them; no other mapping changes, and only page-table
    pages are written. *)
Lemma wp_mappages s l pgdir tabs va size pa perm n Q :
  vm_inv s l pgdir tabs -> 0 <= va -> 0 < size -> va + size <= 4294967296 ->
  page_of (va + size - 1) = page_of va + PGSIZE * (n - 1) ->
  pa mod 4096 = 0 -> 0 <= pa -> pa + PGSIZE * n <= 4294967296 -> 0 <= perm < 4096 ->
  (forall i, 0 <= i < n -> mapping (mem s) pgdir (page_of va + PGSIZE * i) = None) ->
  (forall r k s' l' tabs', vm_inv s' l' pgdir tabs' -> tabs_grow (fun i => PDX va <= i <= PDX (va + size - 1)) l tabs l' tabs' ->
     (r = 0 /\ k = n \/ r = -1 /\ 0 <= k < n /\ l' = []) ->
     (forall va', 0 <= va' < 4294967296 ->
        mapping (mem s') pgdir va' =
        mapped_range (mem s) pgdir (page_of va) k pa (Z.lor perm PTE_P) va') ->
     frame (vpage pgdir tabs') (mem s) (mem s') ->
     use_lock s' = use_lock s -> Q r s') ->
  wp (mappages pgdir va size pa perm) Q s.
Proof.
  intros Hi Hva Hsz Hend Hn Hpa Hpa0 Hpan Hperm Hfree HQ. unfold mappages.
  rewrite (PGROUNDDOWN_page va) by lia. rewrite (u32_small va) by lia.
  rewrite (u32_small (va + size - 1)) by lia. rewrite (PGROUNDDOWN_page (va + size - 1)) by lia.
  rewrite Hn. rewrite (u32_small pa) by (unfold page_of in *; mlia).
  assert (0 < n /\ page_of va mod 4096 = 0 /\ 0 <= page_of va /\
          page_of va + PGSIZE * n <= 4294967296) as
    (Hnpos & Ha0 & Ha0' & Han) by (unfold page_of in *; mlia).
  set (a0 := page_of va) in *.
  apply (wp_iter (fun '(a, p) s' => exists k l' tabs',
       0 <= k < n /\ a = a0 + PGSIZE * k /\ p = pa + PGSIZE * k /\
       vm_inv s' l' pgdir tabs' /\ tabs_grow (fun i => PDX va <= i <= PDX (va + size - 1)) l tabs l' tabs' /\
       (forall va', 0 <= va' < 4294967296 ->
          mapping (mem s') pgdir va' = mapped_range (mem s) pgdir a0 k pa (Z.lor perm PTE_P) va') /\
       frame (vpage pgdir tabs') (mem s) (mem s') /\ use_lock s' = use_lock s)
     (fun '(a, _) => Z.to_nat ((a0 + PGSIZE * (n - 1) - a) / PGSIZE))).
  2:{ exists 0, l, tabs. split_and!; try lia; try mlia; try done.
      - constructor.
      - intros va' Hva'. unfold mapped_range. case_decide; [mlia|done]. }
  2:{ rewrite u32_small by mlia. mlia. }
  intros [a p] s1 (k & l1 & tabs1 & Hk & -> & -> & Hi1 & Hg & Hm & Hf & Hul).
  eapply wp_mappages_step; [exact Hi1|mlia|mlia|mlia|mlia|mlia|done|..].
  { rewrite Hm by mlia. unfold mapped_range. case_decide; [mlia|]. apply Hfree. lia. }
  { intros _ ->. apply (HQ (-1) k s1 [] tabs1); auto. }
  intros s2 l2 tabs2 Hi2 Hg2 Hm2 Hf2 Hul2.
  assert (tabs_grow (fun i => PDX va <= i <= PDX (va + size - 1)) l tabs l2 tabs2) as Hg3.
  { eapply tabs_grow_trans; [exact Hg|]. eapply tabs_grow_weaken; [|exact Hg2].
    intros i <-. rewrite !PDX_eq by mlia. unfold a0, page_of in *. mlia. }
  assert (frame (vpage pgdir tabs2) (mem s) (mem s2)) as Hf3.
  { eapply frame_trans; [eapply frame_weaken; [|exact Hf]|exact Hf2].
    intros q. by eapply vpage_grow. }
  assert (forall va', 0 <= va' < 4294967296 -> mapping (mem s2) pgdir va' =
     mapped_range (mem s) pgdir a0 (k + 1) pa (Z.lor perm PTE_P) va') as Hm3.
  { intros va' Hva'. apply mapped_range_step; [done|lia|]. rewrite Hm2, Hm by done.
    assert (page_of (a0 + PGSIZE * k) = a0 + PGSIZE * k) as -> by (unfold page_of; mlia).
    repeat case_decide; congruence. }
  destruct (_ =? _) eqn:Hlast; bprop.
  - apply (HQ 0 n _ l2 tabs2); auto; [|congruence].
    assert (k + 1 = n) as <- by mlia. done.
  - split; [|rewrite u32_small by mlia; mlia]. exists (k + 1), l2, tabs2.
    rewrite !u32_small by mlia. split_and!; try mlia; try done; congruence.
Qed.

(** One page, the common case. *)
Lemma wp_mappage s l pgdir tabs va pa perm (Q : Z -> kst -> Prop) :
  vm_inv s l pgdir tabs -> 0 <= va < 4294967296 -> va mod 4096 = 0 ->
  pa mod 4096 = 0 -> 0 <= pa -> pa + PGSIZE <= 4294967296 -> 0 <= perm < 4096 ->
  mapping (mem s) pgdir va = None ->
  (tabs !! PDX va = None -> l = [] -> Q (-1) s) ->
  (forall s' l' tabs', vm_inv s' l' pgdir tabs' -> tabs_grow (eq (PDX va)) l tabs l' tabs' ->
     (forall va', 0 <= va' < 4294967296 ->
        mapping (mem s') pgdir va' =
        if decide (page_of va' = va) then Some (pa + Z.lor perm PTE_P)
        else mapping (mem s) pgdir va') ->
     frame (vpage pgdir tabs') (mem s) (mem s') ->
     use_lock s' = use_lock s -> Q 0 s') ->
  wp (mappages pgdir va PGSIZE pa perm) Q s.
Proof.
  intros Hi Hva Hal Hpa Hpa0 Hpan Hperm Hfree H0 H1. unfold mappages.
  assert (PGROUNDDOWN va = va) as -> by (rewrite PGROUNDDOWN_eq by lia; mlia).
  rewrite (u32_small va) by lia. rewrite (u32_small (va + PGSIZE - 1)) by mlia.
  assert (PGROUNDDOWN (va + PGSIZE - 1) = va) as -> by (rewrite PGROUNDDOWN_eq by mlia; mlia).
  rewrite (u32_small pa) by mlia. rewrite Z.sub_diag.
  replace (Z.to_nat (u32 0 / PGSIZE) + 1)%nat with 1%nat by done. cbn [iter].
  apply wp_bind. eapply wp_mappages_step; [exact Hi|done..| |].
  { intros Hn ->. apply wp_ret. by apply H0. }
  intros s2 l2 tabs2 Hi2 Hg2 Hm2 Hf2 Hul2. rewrite Z.eqb_refl. apply wp_ret. by eapply H1.
Qed.

(** A page full of zeroes. *)
Definition page_zero (m : memory) (p : Z) : Prop :=
  forall a, p <= a < p + PGSIZE -> load8 m a = 0.

Lemma page_zero_frame P m m' p : page_zero m p -> page_ok p -> frame P m m' -> ~ P p ->
  page_zero m' p.
Proof.
  intros Hz Hp Hf HP a Ha. rewrite Hf; [by apply Hz|].
  assert (page_of a = p) as -> by (apply page_of_range; [apply Hp|done]). done.
Qed.

Lemma memset_page_zero m p : page_zero (StringC.memset m p 0 PGSIZE) p.
Proof. intros a Ha. rewrite StringC.memset_spec by mlia. by case_decide. Qed.

(** ** Clearing an entry *)

Lemma land_range a b : 0 <= b < 4294967296 -> 0 <= Z.land a b < 4294967296.
Proof.
  intros Hb. assert (0 <= Z.land a b) by (apply Z.land_nonneg; lia). split; [done|].
  destruct (decide (Z.land a b = 0)) as [->|Hne]; [lia|].
  apply Z.log2_lt_cancel. change (Z.log2 4294967296) with 32.
  destruct (decide (b = 0)) as [->|Hb0]; [by rewrite Z.land_0_r in Hne|].
  destruct (Z.lt_ge_cases (Z.log2 (Z.land a b)) 32); [done|]. exfalso.
  assert (Z.testbit (Z.land a b) (Z.log2 (Z.land a b)) = true) as Ht by (apply Z.bit_log2; lia).
  rewrite Z.land_spec in Ht. apply andb_true_iff in Ht as [_ Ht].
  rewrite Z.bits_above_log2 in Ht; [done|lia|].
  assert (Z.log2 b < 32); [|lia]. apply Z.log2_lt_pow2; lia.
Qed.

Lemma present_cleared e : present (Z.land e (u32 (Z.lnot PTE_P))) = None.
Proof.
  unfold present. rewrite has_P, <- Z.bit0_odd, Z.land_spec.
  change (Z.testbit (u32 (Z.lnot PTE_P)) 0) with false. by rewrite andb_false_r.
Qed.

Lemma mapping_table s l pgdir tabs va e : vm_inv s l pgdir tabs -> 0 <= va < 4294967296 ->
  mapping (mem s) pgdir va = Some e -> exists t, tabs !! PDX va = Some t.
Proof.
  intros Hi Hva. unfold mapping. rewrite (vo_pde _ _ _ (vi_ok _ _ _ _ Hi)) by by apply PDX_range.
  destruct (tabs !! PDX va); [eauto|done].
Qed.

Lemma wp_clearmapping s l pgdir tabs va t (Q : unit -> kst -> Prop) :
  vm_inv s l pgdir tabs -> 0 <= va < 4294967296 -> tabs !! PDX va = Some t ->
  (forall s', vm_inv s' l pgdir tabs ->
     (forall va', 0 <= va' < 4294967296 -> mapping (mem s') pgdir va' =
        if decide (page_of va = page_of va') then None else mapping (mem s) pgdir va') ->
     frame (eq t) (mem s) (mem s') -> Q tt s') ->
  wp (clearmapping pgdir va) Q s.
Proof.
  intros Hi Hva Ht HQ. unfold clearmapping. apply wp_bind.
  eapply wp_of_eq; [eapply walk_noalloc; eassumption|]. rewrite Ht.
  rewrite (walk_nonnull s l pgdir tabs _ t Hi Hva Ht). apply wp_bind, wp_gets, wp_modify.
  set (e := Z.land _ _).
  destruct (with_pte_ok s l pgdir tabs va t e Hi Hva Ht) as (Hi3 & Hm3 & Hf3).
  { apply land_range. by vm_compute. }
  apply HQ; [exact Hi3| |exact Hf3]. intros va' Hva'. rewrite Hm3 by done.
  case_decide; [|done]. unfold e. apply present_cleared.
Qed.

End VmFacts.
