(* ===== verification/VmUser.v ===== *)
(** * User address spaces: ownership and growth ([vm.c])

    [us] is the abstract user memory of a process: a map from page-aligned
    virtual addresses below [HEAPLIMIT] to the pages that back them.
    [as_inv] ties it to the page table and to the free list; [owned] is the
    set of pages the address space and the allocator hold together, which
    growing, shrinking, building and freeing an address space all preserve. *)

From stdpp Require Import base tactics numbers gmap strings list.
From Stdlib Require Import ZArith Lia.
From S2P Require Import Prelude Mmu Memory Spinlock Kalloc Vm VmFacts.

Section VmUser.
Context {L : Layout}.

Record as_inv (s : kst) (l : list Z) (pgdir : Z) (tabs us : gmap Z Z) : Prop := {
  as_vm : vm_inv s l pgdir tabs;
  as_map : forall va, 0 <= va < HEAPLIMIT -> va mod 4096 = 0 ->
    match mapping (mem s) pgdir va with
    | Some e => exists p, us !! va = Some p /\ PTE_ADDR e = V2P p
    | None => us !! va = None
    end;
  as_dom : forall va p, us !! va = Some p -> 0 <= va < HEAPLIMIT /\ va mod 4096 = 0 /\ page_ok p;
  as_inj : forall va va' p, us !! va = Some p -> us !! va' = Some p -> va = va';
  as_own : forall va p, us !! va = Some p -> (p ∉ l) /\ ~ vpage pgdir tabs p
}.

(** The pages held by the allocator or by the address space. *)
Definition owned (l : list Z) (pgdir : Z) (tabs us : gmap Z Z) (q : Z) : Prop :=
  q ∈ l \/ vpage pgdir tabs q \/ exists va, us !! va = Some q.

(** ** Returning one page *)

Lemma freed_vm s l pgdir tabs p : vm_inv s l pgdir tabs -> page_ok p -> p ∉ l ->
  ~ vpage pgdir tabs p ->
  vm_inv (freed p s) (p :: l) pgdir tabs /\
  forall va, 0 <= va < 4294967296 -> mapping (mem (freed p s)) pgdir va = mapping (mem s) pgdir va.
Proof.
  intros Hi Hp Hni Hv. pose proof (vi_ok _ _ _ _ Hi) as Ho.
  assert (frame (eq p) (mem s) (mem (freed p s))) as Hf.
  { apply frame_of_same; [apply Hp|apply freed_same_outside]. }
  split.
  - split; [apply freed_inv; [done|done|apply Hi]| |].
    + eapply vm_ok_frame; [exact Ho|exact Hf|]. intros ->. apply Hv. by left.
    + intros q Hq [->|Hin]%elem_of_cons; [done|]. by eapply (vi_disj _ _ _ _ Hi).
  - intros va Hva. eapply mapping_frame; [exact Ho|exact Hf| |done]. by intros q Hq <-.
Qed.

(** The state after [kfree] of the page at [a] and clearing its entry. *)
Definition unmapped (t a p : Z) (s : kst) : kst := with_pte t a 0 (freed p s).

Lemma unmapped_as s l pgdir tabs us a p t : as_inv s l pgdir tabs us ->
  us !! a = Some p -> tabs !! PDX a = Some t ->
  as_inv (unmapped t a p s) (p :: l) pgdir tabs (delete a us) /\
  frame (fun q => q = p \/ q = t) (mem s) (mem (unmapped t a p s)).
Proof.
  intros [Hvm Hmap Hdom Hinj Hown] Ha Ht.
  destruct (Hdom _ _ Ha) as (Har & Hal & Hp). destruct (Hown _ _ Ha) as [Hni Hv].
  destruct (freed_vm s l pgdir tabs p Hvm Hp Hni Hv) as [Hvm1 Hm1].
  destruct (with_pte_ok _ _ _ _ a t 0 Hvm1 ltac:(mlia) Ht ltac:(lia)) as (Hvm2 & Hm2 & Hf2).
  split; [split|].
  - exact Hvm2.
  - intros va Hva Hval. unfold unmapped. rewrite Hm2 by mlia.
    assert (page_of a = a) as -> by (unfold page_of; mlia).
    assert (page_of va = va) as -> by (unfold page_of; mlia).
    case_decide as E; [subst va; apply lookup_delete_eq|].
    rewrite Hm1 by mlia. rewrite lookup_delete_ne by done. by apply Hmap.
  - intros va q [_ Hq]%lookup_delete_Some. by eapply Hdom.
  - intros va va' q [_ Hq]%lookup_delete_Some [_ Hq']%lookup_delete_Some. by eapply Hinj.
  - intros va q [Hne Hq]%lookup_delete_Some. destruct (Hown _ _ Hq) as [Hl Hvp].
    split; [|done]. intros [->|]%elem_of_cons; [|done]. apply Hne. by eapply Hinj.
  - unfold unmapped. eapply frame_trans.
    + eapply frame_weaken; [|apply frame_of_same; [apply Hp|apply freed_same_outside]].
      intros q <-. by left.
    + eapply frame_weaken; [|exact Hf2]. intros q <-. by right.
Qed.

Lemma as_table s l pgdir tabs us va p : as_inv s l pgdir tabs us -> us !! va = Some p ->
  exists t e, tabs !! PDX va = Some t /\ load32 (mem s) (t + 4 * PTX va) = e /\
    has e PTE_P = true /\ PTE_ADDR e = V2P p.
Proof.
  intros Hi Hp. destruct (as_dom _ _ _ _ _ Hi _ _ Hp) as (Hr & Ha & _).
  pose proof (as_map _ _ _ _ _ Hi va Hr Ha) as Hm.
  destruct (mapping (mem s) pgdir va) as [e|] eqn:E; [|congruence].
  destruct Hm as (p' & Hp' & He). assert (p' = p) as -> by congruence.
  destruct (mapping_table _ _ _ _ va e (as_vm _ _ _ _ _ Hi) ltac:(mlia) E) as [t Ht].
  rewrite (mapping_entry _ _ _ _ va t (as_vm _ _ _ _ _ Hi) ltac:(mlia) Ht) in E.
  unfold present in E. destruct (has _ PTE_P) eqn:Hh; [|done]. injection E as E.
  exists t, e. by rewrite E in Hh.
Qed.

Lemma as_absent s l pgdir tabs us va t : as_inv s l pgdir tabs us -> us !! va = None ->
  0 <= va < HEAPLIMIT -> va mod 4096 = 0 -> tabs !! PDX va = Some t ->
  has (load32 (mem s) (t + 4 * PTX va)) PTE_P = false.
Proof.
  intros Hi Hn Hr Ha Ht. pose proof (as_map _ _ _ _ _ Hi va Hr Ha) as Hm.
  rewrite (mapping_entry _ _ _ _ va t (as_vm _ _ _ _ _ Hi) ltac:(mlia) Ht) in Hm.
  unfold present in Hm. destruct (has _ PTE_P); [|done]. destruct Hm as (p & Hp & _). congruence.
Qed.

(** ** [deallocuvm] *)

(** The pages mapped from [lo] up to [a] are back on the free list. *)
Record dealloc_progress (s0 : kst) (l : list Z) (pgdir : Z) (tabs us : gmap Z Z) (lo a : Z)
    (s : kst) (fs : list Z) (us1 : gmap Z Z) : Prop := {
  dp_as : as_inv s (fs ++ l) pgdir tabs us1;
  dp_us : forall va, us1 !! va = if decide (lo <= va < a) then None else us !! va;
  dp_fs : forall q, q ∈ fs <-> exists va, lo <= va < a /\ us !! va = Some q;
  dp_frame : frame (fun q => q ∈ fs \/ exists i, tabs !! i = Some q) (mem s0) (mem s);
  dp_rest : use_lock s = use_lock s0
}.

(** Moving the bound over addresses with no page. *)
Lemma dealloc_skip s0 l pgdir tabs us lo a a' s fs us1 :
  dealloc_progress s0 l pgdir tabs us lo a s fs us1 -> a <= a' ->
  (forall va, a <= va < a' -> us !! va = None) ->
  dealloc_progress s0 l pgdir tabs us lo a' s fs us1.
Proof.
  intros [Da Du Df Dfr Dr] Haa Hno. split; try done.
  - intros va. rewrite Du. repeat case_decide; try lia; try done. apply Hno. lia.
  - intros q. rewrite Df. split; intros (va & Hva & Hq); exists va; (split; [|done]); [lia|].
    destruct (decide (va < a)); [lia|]. rewrite Hno in Hq by lia. done.
Qed.

Lemma us_aligned s l pgdir tabs us a va : as_inv s l pgdir tabs us -> a mod 4096 = 0 ->
  a < va < a + PGSIZE -> us !! va = None.
Proof.
  intros Hi Ha Hva. destruct (us !! va) as [p|] eqn:E; [|done].
  destruct (as_dom _ _ _ _ _ Hi _ _ E) as (_ & Hal & _). mlia.
Qed.

Lemma us_no_table s l pgdir tabs us va : as_inv s l pgdir tabs us -> tabs !! PDX va = None ->
  us !! va = None.
Proof.
  intros Hi Ht. destruct (us !! va) as [p|] eqn:E; [|done].
  destruct (as_table _ _ _ _ _ _ _ Hi E) as (t & e & Ht' & _). congruence.
Qed.

(** The next directory entry. *)
Lemma next_pde a : 0 <= a < HEAPLIMIT -> a mod 4096 = 0 ->
  u32 (u32 (PGADDR (PDX a + 1) 0 0 - PGSIZE) + PGSIZE) = 4194304 * (a / 4194304 + 1).
Proof.
  intros Ha Hal. unfold PGADDR. rewrite !Z.shiftl_mul_pow2 by (vm_compute; done).
  rewrite Z.mul_0_l, !Z.lor_0_r. rewrite PDX_eq by mlia. unfold PDXSHIFT.
  change (2 ^ 22) with 4194304. mlia.
Qed.

Lemma next_pde_same a va : 0 <= a < HEAPLIMIT -> a <= va < 4194304 * (a / 4194304 + 1) ->
  PDX va = PDX a.
Proof. intros Ha Hva. rewrite !PDX_eq by mlia. mlia. Qed.

Lemma wp_dealloc_step s0 l pgdir tabs us lo a oldsz s fs us1 (Q : Z + unit -> kst -> Prop) :
  as_inv s0 l pgdir tabs us ->
  dealloc_progress s0 l pgdir tabs us lo a s fs us1 ->
  0 <= lo <= a -> a mod 4096 = 0 -> a < oldsz -> oldsz <= HEAPLIMIT ->
  (forall a' s' fs' us', a + PGSIZE <= a' <= 4294963200 -> a' mod 4096 = 0 ->
     (forall va, a < va < a' -> us !! va = None) ->
     dealloc_progress s0 l pgdir tabs us lo a' s' fs' us' -> Q (inl a') s') ->
  wp (deallocuvm_step pgdir oldsz a) Q s.
Proof.
  intros Hi0 Hp Hlo Hal Hlt Hmax HQ. pose proof (dp_as _ _ _ _ _ _ _ _ _ _ Hp) as Hi.
  pose proof (as_vm _ _ _ _ _ Hi) as Hvm.
  unfold deallocuvm_step. rewrite (proj2 (Z.ltb_lt a oldsz) Hlt). cbn [negb].
  apply wp_bind. eapply wp_of_eq; [eapply walk_noalloc; [exact Hvm|mlia]|].
  assert (us1 !! a = us !! a) as Hua
    by (rewrite (dp_us _ _ _ _ _ _ _ _ _ _ Hp); by rewrite decide_False by lia).
  destruct (tabs !! PDX a) as [t|] eqn:Ht.
  2:{ rewrite Z.eqb_refl. apply wp_ret. rewrite next_pde by (done || lia).
      assert (forall va, a <= va < 4194304 * (a / 4194304 + 1) -> us !! va = None) as Hno.
      { intros va Hva. eapply us_no_table; [exact Hi0|]. by rewrite (next_pde_same a va) by lia. }
      apply (HQ _ _ fs us1); [mlia|mlia|intros; apply Hno; lia|].
      eapply dealloc_skip; [exact Hp|mlia|exact Hno]. }
  rewrite (walk_nonnull _ _ _ _ a t Hvm ltac:(mlia) Ht). apply wp_bind, wp_gets.
  assert (u32 (a + PGSIZE) = a + PGSIZE) as Hnext by (apply u32_small; mlia). rewrite Hnext.
  assert (forall va, a < va < a + PGSIZE -> us !! va = None) as Hno
    by (intros va Hva; by eapply us_aligned).
  destruct (us !! a) as [p|] eqn:Hu.
  - destruct (as_table _ _ _ _ _ _ _ Hi Hua) as (t' & e & Ht' & Hl & Hh & He).
    assert (t' = t) as -> by congruence. rewrite Hl, Hh, He.
    destruct (as_dom _ _ _ _ _ Hi _ _ Hua) as (_ & _ & Hpok).
    destruct (page_phys p Hpok) as (_ & Hpos & _ & Hback).
    rewrite (proj2 (Z.eqb_neq (V2P p) 0)) by lia. rewrite Hback.
    destruct (as_own _ _ _ _ _ Hi _ _ Hua) as [Hni Hnv].
    apply wp_bind, wp_bind. eapply wp_kfree; [exact Hpok|exact Hni|apply Hvm|]. intros _.
    apply wp_modify, wp_ret. fold (with_pte t a 0 (freed p s)). fold (unmapped t a p s).
    destruct (unmapped_as _ _ _ _ _ a p t Hi Hua Ht) as [Hi' Hf'].
    apply (HQ _ _ (p :: fs) (delete a us1)); [mlia|mlia|exact Hno|]. destruct Hp as [Da Du Df Dfr Dr].
    split; try done.
    + intros va. destruct (decide (va = a)) as [->|Hne].
      * rewrite lookup_delete_eq. by rewrite decide_True by mlia.
      * rewrite lookup_delete_ne by done. rewrite Du. repeat case_decide; try mlia; try done.
        by rewrite Hno by lia.
    + intros q. rewrite elem_of_cons, Df. split.
      * intros [->|(va & Hva & Hq)]; [exists a; split; [mlia|done]|exists va; split; [mlia|done]].
      * intros (va & Hva & Hq). destruct (decide (va = a)) as [->|Hne]; [left; congruence|].
        right. exists va. split; [|done]. destruct (decide (va < a)); [lia|].
        by rewrite Hno in Hq by lia.
    + eapply frame_trans; [eapply frame_weaken; [|exact Dfr]|eapply frame_weaken; [|exact Hf']].
      * intros q [Hq|Hq]; [left; apply elem_of_cons; by right|by right].
      * intros q [->| ->]; [left; apply elem_of_cons; by left|right; eauto].
  - rewrite (as_absent _ _ _ _ _ a t Hi Hua) by (done || lia). apply wp_bind, wp_ret, wp_ret.
    apply (HQ _ _ fs us1); [mlia|mlia|exact Hno|]. eapply dealloc_skip; [exact Hp|mlia|].
    intros va Hva. destruct (decide (va = a)) as [->|]; [done|]. apply Hno. lia.
Qed.

Lemma dealloc_start s l pgdir tabs us lo : as_inv s l pgdir tabs us ->
  dealloc_progress s l pgdir tabs us lo lo s [] us.
Proof.
  intros Hi. split; try done.
  - intros va. case_decide; [lia|done].
  - intros q. split; [by intros ?%elem_of_nil|]. intros (va & Hva & _). lia.
Qed.

(** Lowering the bound over addresses with no page. *)
Lemma dealloc_lower s0 l pgdir tabs us lo a a' s fs us1 :
  dealloc_progress s0 l pgdir tabs us lo a s fs us1 -> a' <= a ->
  (forall va, a' <= va < a -> us !! va = None) ->
  dealloc_progress s0 l pgdir tabs us lo a' s fs us1.
Proof.
  intros [Da Du Df Dfr Dr] Haa Hno. split; try done.
  - intros va. rewrite Du. repeat case_decide; try lia; try done. symmetry. apply Hno. lia.
  - intros q. rewrite Df. split; intros (va & Hva & Hq); exists va; (split; [|done]); [|lia].
    destruct (decide (va < a')); [lia|]. rewrite Hno in Hq by lia. done.
Qed.

Lemma wp_deallocuvm s l pgdir tabs us oldsz newsz (Q : Z -> kst -> Prop) :
  as_inv s l pgdir tabs us -> 0 <= newsz -> oldsz <= HEAPLIMIT ->
  (oldsz <= newsz -> Q oldsz s) ->
  (forall s' fs us', newsz < oldsz ->
     dealloc_progress s l pgdir tabs us (PGROUNDUP newsz) oldsz s' fs us' -> Q newsz s') ->
  wp (deallocuvm pgdir oldsz newsz) Q s.
Proof.
  intros Hi Hn Hmax H0 H1. unfold deallocuvm. destruct (oldsz <=? newsz) eqn:Hc; bprop.
  { apply wp_ret. by apply H0. }
  assert (PGROUNDUP newsz mod 4096 = 0 /\ newsz <= PGROUNDUP newsz < newsz + 4096) as [Hal Hge]
    by (rewrite PGROUNDUP_eq by mlia; mlia).
  set (lo := PGROUNDUP newsz) in *. apply wp_bind.
  apply (wp_iter (fun a s' => lo <= a /\ a mod 4096 = 0 /\
           (forall va, lo <= va -> oldsz <= va < a -> us !! va = None) /\
           exists fs us', dealloc_progress s l pgdir tabs us lo a s' fs us')
         (fun a => Z.to_nat ((oldsz - a + PGSIZE - 1) / PGSIZE))).
  - intros a s' (Hlo & Ha & Hbeyond & fs & us' & Hp). destruct (a <? oldsz) eqn:Hlt; bprop.
    + eapply (wp_dealloc_step _ _ _ _ _ _ _ _ _ _ _ _ Hi Hp); try done; try lia.
      intros a' s2 fs2 us2 Ha' Hal' Hno Hp2. split; [|mlia]. split; [mlia|]. split; [done|].
      split; [|eauto]. intros va _ Hva. apply Hno. lia.
    + unfold deallocuvm_step. rewrite (proj2 (Z.ltb_ge a oldsz) Hlt). apply wp_ret, wp_ret.
      apply (H1 s' fs us'); [done|]. destruct (decide (lo <= oldsz)) as [Hle|Hgt].
      * eapply dealloc_lower; [exact Hp|done|]. intros va Hva. apply Hbeyond; lia.
      * destruct Hp as [Da Du Df Dfr Dr]. split; try done.
        -- intros va. rewrite Du. repeat case_decide; try lia; try done.
           symmetry. apply Hbeyond; lia.
        -- intros q. rewrite Df. split; intros (va & Hva & Hq); [|lia].
           rewrite Hbeyond in Hq by lia. done.
  - split; [lia|]. split; [done|]. split; [intros; lia|]. exists [], us. by apply dealloc_start.
  - mlia.
Qed.

(** Shrinking moves pages from the user part to the free list. *)
Lemma dealloc_owned s l pgdir tabs us lo hi s' fs us' :
  dealloc_progress s l pgdir tabs us lo hi s' fs us' ->
  forall q, owned (fs ++ l) pgdir tabs us' q <-> owned l pgdir tabs us q.
Proof.
  intros [Da Du Df Dfr Dr] q. unfold owned. rewrite elem_of_app, Df. split.
  - intros [[(va & _ & Hq)|Hq]|[Hq|(va & Hq)]]; eauto. rewrite Du in Hq. case_decide; eauto. done.
  - intros [Hq|[Hq|(va & Hq)]]; eauto. destruct (decide (lo <= va < hi)) as [Hin|Hout].
    + left. left. eauto.
    + right. right. exists va. rewrite Du. by rewrite decide_False.
Qed.

(** ** Adding a page *)

(** A page taken from the free list and filled. *)
Lemma as_take s p l pgdir tabs us s' : as_inv s (p :: l) pgdir tabs us ->
  kmem_inv s' l -> frame (eq p) (mem s) (mem s') ->
  as_inv s' l pgdir tabs us /\
  (forall va, 0 <= va < 4294967296 -> mapping (mem s') pgdir va = mapping (mem s) pgdir va) /\
  page_ok p /\ (p ∉ l) /\ ~ vpage pgdir tabs p /\ (forall va, us !! va <> Some p).
Proof.
  intros [Hvm Hmap Hdom Hinj Hown] Hk Hf. pose proof (vi_ok _ _ _ _ Hvm) as Ho.
  destruct (kalloc_inv s p l (vi_kmem _ _ _ _ Hvm)) as (_ & Hp & Hni).
  assert (~ vpage pgdir tabs p) as Hv.
  { intros Hv. apply (vi_disj _ _ _ _ Hvm p Hv). apply elem_of_cons. by left. }
  assert (forall va, 0 <= va < 4294967296 ->
    mapping (mem s') pgdir va = mapping (mem s) pgdir va) as Hm.
  { intros va Hva. eapply mapping_frame; [exact Ho|exact Hf| |done]. by intros q Hq <-. }
  split; [|split_and!; try done].
  - split; try done.
    + split; [done| |].
      * eapply vm_ok_frame; [exact Ho|exact Hf|]. intros ->. apply Hv. by left.
      * intros q Hq Hin. apply (vi_disj _ _ _ _ Hvm q Hq). apply elem_of_cons. by right.
    + intros va Hva Hal. rewrite Hm by mlia. by apply Hmap.
    + intros va q Hq. destruct (Hown _ _ Hq) as [Hl Hvq]. split; [|done].
      intros Hin. apply Hl, elem_of_cons. by right.
  - intros va Hus. destruct (Hown _ _ Hus) as [Hl _]. apply Hl, elem_of_cons. by left.
Qed.

(** The page mapped at [a]. *)
Lemma as_add P s l pgdir tabs us a p f s' l' tabs' : as_inv s l pgdir tabs us ->
  vm_inv s' l' pgdir tabs' -> tabs_grow P l tabs l' tabs' ->
  0 <= a < HEAPLIMIT -> a mod 4096 = 0 -> page_ok p -> p ∉ l -> ~ vpage pgdir tabs p ->
  (forall va, us !! va <> Some p) -> 0 <= f < 4096 -> us !! a = None ->
  (forall va, 0 <= va < 4294967296 -> mapping (mem s') pgdir va =
     if decide (page_of va = a) then Some (V2P p + f) else mapping (mem s) pgdir va) ->
  as_inv s' l' pgdir tabs' (<[a := p]> us) /\
  forall q, owned l' pgdir tabs' (<[a := p]> us) q <-> q = p \/ owned l pgdir tabs us q.
Proof.
  intros [Hvm Hmap Hdom Hinj Hown] Hvm' Hg Ha Hal Hp Hni Hv Hus Hf Hnone Hm.
  destruct (tabs_grow_used _ _ _ _ _ Hg) as (used & -> & Hused).
  destruct (page_phys p Hp) as (Hpa & Hpos & Htop & _).
  split; [split|].
  - done.
  - intros va Hva Hval. rewrite Hm by mlia.
    assert (page_of va = va) as -> by (unfold page_of; mlia). case_decide as E.
    + subst va. rewrite lookup_insert_eq. exists p. split; [done|].
      apply PTE_ADDR_compose; try done; mlia.
    + rewrite lookup_insert_ne by done. by apply Hmap.
  - intros va q. rewrite lookup_insert. case_decide as E; [intros [= <-]; by subst|apply Hdom].
  - intros va va' q. rewrite !lookup_insert.
    case_decide as E1; case_decide as E2; subst; intros Q1 Q2; simplify_eq; try done;
      try (by exfalso; eapply Hus). by eapply Hinj.
  - assert (forall q, vpage pgdir tabs' q -> vpage pgdir tabs q \/ q ∈ used) as Hvp.
    { intros q [->|Hq]; [by left; left|]. apply Hused in Hq as [Hq|Hq]; [by left; right|by right]. }
    intros va q. rewrite lookup_insert. case_decide as E.
    + intros [= <-]. split.
      * intros Hin. apply Hni, elem_of_app. by right.
      * intros [Hq|Hq]%Hvp; [done|]. apply Hni, elem_of_app. by left.
    + intros Hq. destruct (Hown _ _ Hq) as [Hl Hvq]. split.
      * intros Hin. apply Hl, elem_of_app. by right.
      * intros [Hq'|Hq']%Hvp; [done|]. apply Hl, elem_of_app. by left.
  - intros q. unfold owned, vpage. rewrite elem_of_app, Hused. split.
    + intros [Hq|[[->|[Hq|Hq]]|(va & Hq)]]; eauto 6. rewrite lookup_insert in Hq.
      case_decide; [left; congruence|eauto 6].
    + intros [->|[[Hq|Hq]|[[->|Hq]|(va & Hq)]]]; eauto 6.
      * right. right. exists a. by rewrite lookup_insert_eq.
      * right. right. exists va. rewrite lookup_insert_ne; [done|]. by intros <-; rewrite Hnone in Hq.
Qed.

(** ** [allocuvm] *)

Lemma as_ext s s' l pgdir tabs us : as_inv s l pgdir tabs us -> mem s' = mem s ->
  freelist s' = freelist s -> klocked s' = klocked s -> as_inv s' l pgdir tabs us.
Proof.
  intros [[[Hr Hn Hk] Ho Hd] Hmap Hdom Hinj Hown] Em Ef Ek.
  split; rewrite ?Em; try done. split; rewrite ?Em; try done. split; rewrite ?Em, ?Ef, ?Ek; done.
Qed.

Record grow_progress (s0 : kst) (l : list Z) (pgdir : Z) (tabs us : gmap Z Z) (lo a : Z)
    (s : kst) (l1 : list Z) (tabs1 us1 : gmap Z Z) : Prop := {
  gp_as : as_inv s l1 pgdir tabs1 us1;
  gp_out : forall va, ~ lo <= va < a -> us1 !! va = us !! va;
  gp_in : forall va, lo <= va < a -> va mod 4096 = 0 ->
    exists p, us1 !! va = Some p /\ mapping (mem s) pgdir va = Some (V2P p + 7) /\
      page_zero (mem s) p;
  gp_map : forall va, 0 <= va < 4294967296 -> ~ lo <= va < a ->
    mapping (mem s) pgdir va = mapping (mem s0) pgdir va;
  gp_owned : forall q, owned l1 pgdir tabs1 us1 q <-> owned l pgdir tabs us q;
  gp_frame : frame (fun q => q ∈ l \/ vpage pgdir tabs q) (mem s0) (mem s);
  gp_suffix : forall q, q ∈ l1 -> q ∈ l;
  gp_vpages : forall q, vpage pgdir tabs1 q -> q ∈ l \/ vpage pgdir tabs q;
  gp_tabs : tabs ⊆ tabs1;
  gp_count : Z.of_nat (length l) <= Z.of_nat (length l1) + 2 * ((a - lo) / PGSIZE)
}.

Lemma grow_start s l pgdir tabs us lo : as_inv s l pgdir tabs us ->
  grow_progress s l pgdir tabs us lo lo s l tabs us.
Proof. intros Hi. split; try done; [intros va Hva; lia|by intros q Hq; right|]. rewrite Z.sub_diag. change (0 / PGSIZE) with 0. lia. Qed.

(** A page popped from the list, zeroed and mapped at [a]. *)
Lemma grow_step s0 l pgdir tabs us lo a s p l1 tabs1 us1 k1 s' l' tabs' :
  grow_progress s0 l pgdir tabs us lo a s (p :: l1) tabs1 us1 ->
  lo <= a -> 0 <= a < HEAPLIMIT -> a mod 4096 = 0 -> us !! a = None ->
  kmem_inv k1 l1 -> mem k1 = StringC.memset (mem s) p 0 PGSIZE ->
  vm_inv s' l' pgdir tabs' -> tabs_grow (eq (PDX a)) l1 tabs1 l' tabs' ->
  (forall va, 0 <= va < 4294967296 -> mapping (mem s') pgdir va =
     if decide (page_of va = a) then Some (V2P p + 7) else mapping (mem k1) pgdir va) ->
  frame (vpage pgdir tabs') (mem k1) (mem s') ->
  grow_progress s0 l pgdir tabs us lo (a + PGSIZE) s' l' tabs' (<[a := p]> us1).
Proof.
  intros [Ga Go Gi Gm Gow Gf Gs Gv Gt Gc] Hlo Ha Hal Hna Hk1 Em1 Hvm Hg Hm Hf.
  destruct (kalloc_inv s p l1 (vi_kmem _ _ _ _ (as_vm _ _ _ _ _ Ga))) as (_ & Hpok & _).
  assert (frame (eq p) (mem s) (mem k1)) as Hf1 by (rewrite Em1; apply memset_frame, Hpok).
  destruct (as_take _ _ _ _ _ _ k1 Ga Hk1 Hf1) as (Ga1 & Hm1 & _ & Hni & Hnv & Hnu).
  assert (us1 !! a = None) as Hna1 by (rewrite Go; [done|lia]).
  destruct (as_add _ _ _ _ _ _ a p 7 s' l' tabs' Ga1 Hvm Hg Ha Hal Hpok Hni Hnv Hnu ltac:(lia)
              Hna1 Hm) as [Ga2 How].
  destruct (tabs_grow_used _ _ _ _ _ Hg) as (used & Hu & Hused).
  assert (forall q, vpage pgdir tabs' q -> vpage pgdir tabs1 q \/ q ∈ l1) as Hvp.
  { intros q [->|Hq]; [by left; left|]. apply Hused in Hq as [Hq|Hq]; [by left; right|right].
    rewrite Hu. apply elem_of_app. by left. }
  split; try done.
  - intros va Hva. rewrite lookup_insert_ne by mlia. apply Go. mlia.
  - intros va Hva Hval. destruct (decide (va = a)) as [->|Hne].
    + exists p. rewrite lookup_insert_eq. split; [done|]. rewrite Hm by mlia.
      rewrite decide_True by (unfold page_of; mlia). split; [done|].
      eapply (page_zero_frame _ (mem k1)); [rewrite Em1; apply memset_page_zero|done|exact Hf|].
      intros [Hq|Hq]%Hvp; done.
    + destruct (Gi va ltac:(mlia) Hval) as (q & Hq & Hmq & Hzq). exists q.
      rewrite lookup_insert_ne by done. split; [done|].
      assert (0 <= va < 4294967296) as Hvr
        by (destruct (as_dom _ _ _ _ _ Ga _ _ Hq); mlia). rewrite Hm by done.
      rewrite decide_False by (unfold page_of; mlia). rewrite Hm1 by done. split; [done|].
      destruct (as_own _ _ _ _ _ Ga _ _ Hq) as [Hql Hqv]. apply not_elem_of_cons in Hql as [Hqp Hql].
      destruct (as_dom _ _ _ _ _ Ga _ _ Hq) as (_ & _ & Hqok).
      eapply page_zero_frame; [eapply (page_zero_frame _ _ _ _ Hzq)|done|exact Hf|]; [done|exact Hf1|..].
      * congruence.
      * intros [Hq'|Hq']%Hvp; done.
  - intros va Hva Hout. rewrite Hm by done. rewrite decide_False by (unfold page_of; mlia).
    rewrite Hm1 by done. apply Gm; [done|mlia].
  - intros q. rewrite How, <- Gow. unfold owned. rewrite elem_of_cons. tauto.
  - eapply frame_trans; [exact Gf|]. eapply frame_trans.
    + eapply frame_weaken; [|exact Hf1]. intros q <-. left. apply Gs, elem_of_cons. by left.
    + eapply frame_weaken; [|exact Hf]. intros q [Hq|Hq]%Hvp; [by apply Gv|].
      left. apply Gs, elem_of_cons. by right.
  - intros q Hq. apply Gs, elem_of_cons. right. rewrite Hu. apply elem_of_app. by right.
  - intros q [Hq|Hq]%Hvp; [by apply Gv|]. left. apply Gs, elem_of_cons. by right.
  - etrans; [exact Gt|]. by eapply tabs_grow_sub.
  - pose proof (tabs_grow_one _ _ _ _ _ Hg) as H1. cbn [length] in Gc. mlia.
Qed.

(** A failed growth: the user memory is the old one, and all pages are
    accounted for; there were not two pages for each of the [n] wanted. *)
Record grow_failed (s0 : kst) (l : list Z) (pgdir : Z) (tabs us : gmap Z Z) (n : Z)
    (s : kst) (l1 : list Z) (tabs1 : gmap Z Z) : Prop := {
  gf_as : as_inv s l1 pgdir tabs1 us;
  gf_owned : forall q, owned l1 pgdir tabs1 us q <-> owned l pgdir tabs us q;
  gf_frame : frame (fun q => q ∈ l \/ vpage pgdir tabs q) (mem s0) (mem s);
  gf_tabs : tabs ⊆ tabs1;
  gf_count : Z.of_nat (length l) < 2 * n
}.

(** Freeing a page nobody maps. *)
Lemma as_freed s l pgdir tabs us p : as_inv s l pgdir tabs us -> page_ok p -> p ∉ l ->
  ~ vpage pgdir tabs p -> (forall va, us !! va <> Some p) ->
  as_inv (freed p s) (p :: l) pgdir tabs us.
Proof.
  intros [Hvm Hmap Hdom Hinj Hown] Hp Hni Hv Hu.
  destruct (freed_vm s l pgdir tabs p Hvm Hp Hni Hv) as [Hvm1 Hm1].
  split; [exact Hvm1| |exact Hdom|exact Hinj|].
  - intros va Hva Hal. rewrite Hm1 by mlia. by apply Hmap.
  - intros va q Hq. destruct (Hown _ _ Hq) as [Hl Hvq]. split; [|done].
    intros [->|]%elem_of_cons; [by eapply Hu|done].
Qed.

(** Undoing a growth that reached [a] by [deallocuvm] from [hi]. *)
Lemma grow_undo s0 l pgdir tabs us lo a hi s1 l1 tabs1 us1 k l2 s2 fs us2 :
  grow_progress s0 l pgdir tabs us lo a s1 l1 tabs1 us1 -> lo <= a <= hi ->
  (forall va, lo <= va < hi -> us !! va = None) ->
  dealloc_progress k l2 pgdir tabs1 us1 lo hi s2 fs us2 ->
  us2 = us /\ forall q, q ∈ fs \/ (exists i, tabs1 !! i = Some q) -> q ∈ l \/ vpage pgdir tabs q.
Proof.
  intros [Ga Go Gi Gm Gow Gf Gs Gv Gt _] Hlo Hno [Da Du Df Dfr Dr]. split.
  - apply map_eq. intros va. rewrite Du. case_decide; [symmetry; apply Hno; lia|apply Go; lia].
  - intros q [Hq|Hq]; [|apply Gv; by right]. apply Df in Hq as (va & Hva & Hq).
    assert (owned l pgdir tabs us q) as Hoq by (apply Gow; right; right; eauto).
    destruct Hoq as [Hl|[Hv|(va' & Hu)]]; [by left|by right|]. exfalso.
    destruct (decide (lo <= va' < hi)) as [Hin|Hout]; [by rewrite Hno in Hu by lia|].
    rewrite <- Go in Hu by lia. pose proof (as_inj _ _ _ _ _ Ga _ _ _ Hu Hq). lia.
Qed.

(** No page left: what was added is taken away again. *)
Lemma grow_fail1 s0 l pgdir tabs us lo a hi s1 tabs1 us1 k s2 fs us2 n :
  grow_progress s0 l pgdir tabs us lo a s1 [] tabs1 us1 -> lo <= a <= hi ->
  (forall va, lo <= va < hi -> us !! va = None) -> mem k = mem s1 ->
  dealloc_progress k [] pgdir tabs1 us1 lo hi s2 fs us2 ->
  (a - lo) / PGSIZE < n -> grow_failed s0 l pgdir tabs us n s2 fs tabs1.
Proof.
  intros Hg Hlo Hno Em Hd Hn. destruct (grow_undo _ _ _ _ _ _ _ _ _ _ _ _ _ _ _ _ _ Hg Hlo Hno Hd) as [-> Hfs].
  pose proof (dealloc_owned _ _ _ _ _ _ _ _ _ _ Hd) as How. rewrite app_nil_r in How.
  destruct Hd as [Da Du Df Dfr Dr]. rewrite app_nil_r in Da. split; [exact Da|..].
  - intros q. by rewrite How, (gp_owned _ _ _ _ _ _ _ _ _ _ _ Hg).
  - eapply frame_trans; [apply (gp_frame _ _ _ _ _ _ _ _ _ _ _ Hg)|]. rewrite <- Em.
    eapply frame_weaken; [exact Hfs|exact Dfr].
  - apply (gp_tabs _ _ _ _ _ _ _ _ _ _ _ Hg).
  - pose proof (gp_count _ _ _ _ _ _ _ _ _ _ _ Hg) as Hc. cbn [length] in Hc. lia.
Qed.

(** The same with the last page [p] in hand, freed at the end. *)
Lemma grow_fail2 s0 l pgdir tabs us lo a hi s1 p tabs1 us1 k s2 fs us2 n :
  grow_progress s0 l pgdir tabs us lo a s1 [p] tabs1 us1 -> lo <= a <= hi ->
  (forall va, lo <= va < hi -> us !! va = None) -> frame (eq p) (mem s1) (mem k) ->
  dealloc_progress k [] pgdir tabs1 us1 lo hi s2 fs us2 -> p ∉ fs ->
  (a - lo) / PGSIZE < n -> grow_failed s0 l pgdir tabs us n (freed p s2) (p :: fs) tabs1.
Proof.
  intros Hg Hlo Hno Hf Hd Hnf Hn. destruct (grow_undo _ _ _ _ _ _ _ _ _ _ _ _ _ _ _ _ _ Hg Hlo Hno Hd) as [-> Hfs].
  pose proof (dealloc_owned _ _ _ _ _ _ _ _ _ _ Hd) as How. rewrite app_nil_r in How.
  pose proof (gp_as _ _ _ _ _ _ _ _ _ _ _ Hg) as Hi.
  destruct (kalloc_inv _ _ _ (vi_kmem _ _ _ _ (as_vm _ _ _ _ _ Hi))) as (_ & Hpok & _).
  assert (p ∈ [p]) as Hin by by apply list_elem_of_singleton.
  destruct Hd as [Da Du Df Dfr Dr]. rewrite app_nil_r in Da. split.
  - apply as_freed; [exact Da|done|done| |].
    + intros Hv. by apply (vi_disj _ _ _ _ (as_vm _ _ _ _ _ Hi) p Hv).
    + intros va Hu. rewrite Du in Hu. case_decide; [done|].
      by destruct (as_own _ _ _ _ _ Hi _ _ Hu) as [Hl _].
  - intros q. rewrite <- (gp_owned _ _ _ _ _ _ _ _ _ _ _ Hg). specialize (How q).
    unfold owned in *. rewrite elem_of_cons, list_elem_of_singleton.
    assert (q ∉ ([] : list Z)) by apply not_elem_of_nil. tauto.
  - eapply frame_trans; [apply (gp_frame _ _ _ _ _ _ _ _ _ _ _ Hg)|].
    eapply frame_trans; [eapply frame_weaken; [|exact Hf]|].
    { intros q <-. left. by apply (gp_suffix _ _ _ _ _ _ _ _ _ _ _ Hg). }
    eapply frame_trans; [eapply frame_weaken; [exact Hfs|exact Dfr]|].
    eapply frame_weaken; [|apply frame_of_same; [apply Hpok|apply freed_same_outside]].
    intros q <-. left. by apply (gp_suffix _ _ _ _ _ _ _ _ _ _ _ Hg).
  - apply (gp_tabs _ _ _ _ _ _ _ _ _ _ _ Hg).
  - pose proof (gp_count _ _ _ _ _ _ _ _ _ _ _ Hg) as Hc. cbn [length] in Hc. lia.
Qed.

Lemma wp_grow_step s0 l pgdir tabs us oldsz newsz a s l1 tabs1 us1 (Q : Z + Z -> kst -> Prop) :
  grow_progress s0 l pgdir tabs us (PGROUNDUP oldsz) a s l1 tabs1 us1 ->
  0 <= oldsz <= newsz -> PGROUNDUP oldsz <= a < newsz -> newsz < HEAPLIMIT -> a mod 4096 = 0 ->
  (forall va, PGROUNDUP oldsz <= va < newsz -> us !! va = None) ->
  (forall s' l' tabs', grow_failed s0 l pgdir tabs us ((PGROUNDUP newsz - PGROUNDUP oldsz) / PGSIZE) s' l' tabs' -> Q (inr 0) s') ->
  (forall s' l' tabs' us', grow_progress s0 l pgdir tabs us (PGROUNDUP oldsz) (a + PGSIZE)
     s' l' tabs' us' -> Q (inl (a + PGSIZE)) s') ->
  wp (allocuvm_step pgdir oldsz newsz a) Q s.
Proof.
  intros Hg Hsz Ha Hmax Hal Hno HF HS. unfold allocuvm_step.
  rewrite (proj2 (Z.ltb_lt a newsz)) by lia. cbn [negb].
  pose proof (gp_as _ _ _ _ _ _ _ _ _ _ _ Hg) as Hi. pose proof (as_vm _ _ _ _ _ Hi) as Hvm.
  assert (0 <= PGROUNDUP oldsz /\ oldsz <= PGROUNDUP oldsz) as [Hlo0 Hlo1]
    by (rewrite PGROUNDUP_eq by mlia; mlia).
  assert ((a - PGROUNDUP oldsz) / PGSIZE < (PGROUNDUP newsz - PGROUNDUP oldsz) / PGSIZE) as Hneed.
  { assert (PGROUNDUP oldsz mod 4096 = 0 /\ PGROUNDUP newsz mod 4096 = 0 /\ newsz <= PGROUNDUP newsz) as (? & ? & ?)
      by (rewrite !PGROUNDUP_eq by mlia; mlia). mlia. }
  apply wp_bind. eapply wp_kalloc; [apply Hvm|..].
  - intros ->. rewrite Z.eqb_refl. apply wp_bind, wp_modify, wp_bind.
    eapply (wp_deallocuvm _ [] _ _ us1); [by eapply as_ext|lia|lia|intros; lia|].
    intros s' fs us' _ Hd. apply wp_ret. eapply HF.
    eapply (grow_fail1 _ _ _ _ _ _ a newsz); [exact Hg|lia|exact Hno| |exact Hd|exact Hneed]; reflexivity.
  - intros p l' k1 -> Hpok Hni Hk1 ->. pose proof (page_ok_range p Hpok).
    rewrite (proj2 (Z.eqb_neq p 0)) by mlia. apply wp_bind, wp_modify.
    destruct (page_phys p Hpok) as (Hpa & Hpos & Htop & _). set (k1 := set_mem _ _).
    assert (frame (eq p) (mem s) (mem k1)) as Hf1 by apply memset_frame, Hpok.
    assert (kmem_inv k1 l') as Hk2.
    { eapply kmem_frame; [exact Hk1|exact Hf1| |done|done]. by intros q Hq <-. }
    destruct (as_take _ _ _ _ _ _ k1 Hi Hk2 Hf1) as (Hi1 & Hm1 & _ & _ & Hnv & Hnu).
    assert (us1 !! a = None) as Hna
      by (rewrite (gp_out _ _ _ _ _ _ _ _ _ _ _ Hg) by lia; apply Hno; lia).
    apply wp_bind. eapply (wp_mappage _ _ _ _ a (V2P p));
      [apply Hi1|mlia|done|done|lia|mlia|by vm_compute|..].
    + pose proof (as_map _ _ _ _ _ Hi1 a ltac:(lia) Hal) as Hm.
      destruct (mapping (mem k1) pgdir a) as [e|]; [|done]. destruct Hm as (q & Hq & _). congruence.
    + intros Hnt ->. cbn [Z.ltb]. apply wp_bind, wp_modify, wp_bind.
      eapply (wp_deallocuvm _ [] _ _ us1); [by eapply as_ext|lia|lia|intros; lia|].
      intros s' fs us' _ Hd. pose proof (dp_as _ _ _ _ _ _ _ _ _ _ Hd) as Hi2.
      assert (p ∉ fs) as Hnf.
      { intros (va & _ & Hq)%(dp_fs _ _ _ _ _ _ _ _ _ _ Hd). by eapply Hnu. }
      apply wp_bind. eapply (wp_kfree p _ fs); [done|done| |].
      { rewrite app_nil_r in Hi2. apply Hi2. }
      intros _. apply wp_ret. eapply HF.
      eapply (grow_fail2 _ _ _ _ _ _ a newsz); [exact Hg|lia|exact Hno| |exact Hd|exact Hnf|exact Hneed]; exact Hf1.
    + intros s' l2 tabs2 Hvm2 Hg2 Hm2 Hf2 _. cbn [Z.ltb]. apply wp_ret.
      rewrite u32_small by mlia. eapply HS.
      eapply (grow_step _ _ _ _ _ _ _ s p l' tabs1 us1 k1);
        [exact Hg|lia|lia|exact Hal|apply Hno; lia|exact Hk2|reflexivity|exact Hvm2|exact Hg2
        |exact Hm2|exact Hf2].
Qed.

Lemma wp_allocuvm s l pgdir tabs us oldsz newsz (Q : Z -> kst -> Prop) :
  as_inv s l pgdir tabs us -> 0 <= oldsz -> 0 <= newsz ->
  (forall va, PGROUNDUP oldsz <= va < newsz -> us !! va = None) ->
  (HEAPLIMIT <= newsz -> Q 0 s) ->
  (newsz < HEAPLIMIT -> newsz < oldsz -> Q oldsz s) ->
  (forall s' l' tabs', oldsz <= newsz < HEAPLIMIT ->
     grow_failed s l pgdir tabs us ((PGROUNDUP newsz - PGROUNDUP oldsz) / PGSIZE) s' l' tabs' -> Q 0 s') ->
  (forall s' l' tabs' us', oldsz <= newsz < HEAPLIMIT ->
     grow_progress s l pgdir tabs us (PGROUNDUP oldsz) (PGROUNDUP newsz) s' l' tabs' us' ->
     Q newsz s') ->
  wp (allocuvm pgdir oldsz newsz) Q s.
Proof.
  intros Hi Ho Hn Hno H0 H1 HF HS. unfold allocuvm.
  destruct (HEAPLIMIT <=? newsz) eqn:Hc; bprop; [by apply wp_ret, H0|].
  destruct (newsz <? oldsz) eqn:Hc2; bprop; [by apply wp_ret, H1|].
  assert (PGROUNDUP oldsz mod 4096 = 0 /\ 0 <= PGROUNDUP oldsz <= PGROUNDUP newsz /\
          PGROUNDUP newsz mod 4096 = 0 /\ newsz <= PGROUNDUP newsz < newsz + 4096)
    as (Hal & Hge & Han & Hgn) by (rewrite !PGROUNDUP_eq by mlia; mlia).
  apply (wp_iter (fun a s' => PGROUNDUP oldsz <= a <= PGROUNDUP newsz /\ a mod 4096 = 0 /\
           exists l' tabs' us', grow_progress s l pgdir tabs us (PGROUNDUP oldsz) a s' l' tabs' us')
         (fun a => Z.to_nat ((newsz - a + PGSIZE - 1) / PGSIZE))).
  - intros a s' (Ha & Haa & l' & tabs' & us' & Hg). destruct (Z.lt_ge_cases a newsz) as [Hlt|Hge2].
    + eapply wp_grow_step; [exact Hg|lia|lia|lia|done|exact Hno|..].
      * intros s2 l2 tabs2 Hf. eapply HF; [lia|exact Hf].
      * intros s2 l2 tabs2 us2 Hg2. split; [|mlia]. split; [mlia|]. split; [mlia|]. eauto.
    + unfold allocuvm_step. rewrite (proj2 (Z.ltb_ge a newsz) Hge2). apply wp_ret.
      assert (a = PGROUNDUP newsz) as -> by mlia. eapply HS; [lia|exact Hg].
  - split; [lia|]. split; [done|]. exists l, tabs, us. by apply grow_start.
  - mlia.
Qed.

(** ** [freevm] *)

(** The tables below directory index [i] have been returned. *)
Record free_tabs (s0 : kst) (l : list Z) (pgdir : Z) (tabs : gmap Z Z) (i : Z)
    (s : kst) (ts : list Z) : Prop := {
  ft_kmem : kmem_inv s (ts ++ l);
  ft_ts : forall q, q ∈ ts <-> exists j, 0 <= j < i /\ tabs !! j = Some q;
  ft_frame : frame (fun q => exists j, tabs !! j = Some q) (mem s0) (mem s)
}.

Lemma wp_free_tab s0 l pgdir tabs i s ts (Q : unit -> kst -> Prop) :
  vm_inv s0 l pgdir tabs -> free_tabs s0 l pgdir tabs i s ts -> 0 <= i < 1024 ->
  (forall s' ts', free_tabs s0 l pgdir tabs (i + 1) s' ts' -> Q tt s') ->
  wp (let* e := rd32 (pgdir + 4 * i) in when (has e PTE_P) (kfree (P2V (PTE_ADDR e)))) Q s.
Proof.
  intros [Hk Ho Hd] [Fk Ft Ff] Hi HQ. apply wp_bind, wp_gets.
  assert (~ exists j, tabs !! j = Some pgdir) as Hnp.
  { intros [j Hj]. by destruct (vo_tab _ _ _ Ho _ _ Hj) as (_ & _ & Hne). }
  pose proof (vo_pde _ _ _ Ho i Hi) as Hp. unfold pde_at in Hp.
  rewrite (frame_load32 _ _ _ pgdir i Ff) by (try done; apply (vo_pgdir _ _ _ Ho)).
  unfold tab_entry in Hp. destruct (has _ PTE_P) eqn:Hh.
  - cbn [when]. set (t := P2V _) in *. symmetry in Hp.
    destruct (vo_tab _ _ _ Ho _ _ Hp) as (_ & Htok & _).
    eapply (wp_kfree t _ (ts ++ l)); [exact Htok| |exact Fk|].
    + rewrite elem_of_app, Ft. intros [(j & Hj & Hjt)|Hin].
      * pose proof (vo_inj _ _ _ Ho _ _ _ Hjt Hp). lia.
      * apply (Hd t); [right; eauto|done].
    + intros Hk'. apply (HQ _ (t :: ts)). split; [exact Hk'|..].
      * intros q. rewrite elem_of_cons, Ft. split.
        -- intros [->|(j & Hj & Hq)]; [exists i; split; [lia|done]|exists j; split; [lia|done]].
        -- intros (j & Hj & Hq). destruct (decide (j = i)) as [->|]; [left; congruence|].
           right. exists j. split; [lia|done].
      * eapply frame_trans; [exact Ff|]. eapply frame_weaken;
          [|apply frame_of_same; [apply Htok|apply freed_same_outside]]. intros q <-. eauto.
  - cbn [when]. apply wp_ret. apply (HQ _ ts). split; [exact Fk| |exact Ff]. intros q. rewrite Ft.
    split; intros (j & Hj & Hq); exists j; (split; [|done]); [lia|].
    assert (j <> i) by congruence. lia.
Qed.

(** The pages an address space is made of. *)
Definition space (pgdir : Z) (tabs us : gmap Z Z) (q : Z) : Prop :=
  vpage pgdir tabs q \/ exists va, us !! va = Some q.

Lemma wp_freevm s l pgdir tabs us (Q : unit -> kst -> Prop) :
  as_inv s l pgdir tabs us ->
  (forall s' l', kmem_inv s' l' -> (forall q, q ∈ l' <-> owned l pgdir tabs us q) ->
     frame (space pgdir tabs us) (mem s) (mem s') -> Q tt s') ->
  wp (freevm pgdir) Q s.
Proof.
  intros Hi HQ. pose proof (vi_ok _ _ _ _ (as_vm _ _ _ _ _ Hi)) as Ho.
  pose proof (vo_pgdir _ _ _ Ho) as Hpg. pose proof (page_ok_range pgdir Hpg).
  unfold freevm. rewrite (proj2 (Z.eqb_neq pgdir 0)) by mlia. apply wp_bind.
  eapply (wp_deallocuvm _ _ _ _ us); [exact Hi|lia|lia|intros Hc; by vm_compute in Hc|].
  intros s1 fs us1 _ Hd. change (PGROUNDUP 0) with 0 in Hd.
  pose proof (dp_as _ _ _ _ _ _ _ _ _ _ Hd) as Hi1. pose proof (as_vm _ _ _ _ _ Hi1) as Hvm1.
  assert (forall q, q ∈ fs <-> exists va, us !! va = Some q) as Hfs.
  { intros q. rewrite (dp_fs _ _ _ _ _ _ _ _ _ _ Hd). split; [naive_solver|].
    intros (va & Hq). exists va. destruct (as_dom _ _ _ _ _ Hi _ _ Hq). done. }
  apply wp_bind.
  apply (wp_for_up (fun i s' => exists ts, free_tabs s1 (fs ++ l) pgdir tabs i s' ts)).
  - exists []. split; [apply Hvm1| |done]. intros q. split; [by intros ?%elem_of_nil|].
    intros (j & Hj & _). lia.
  - intros i s' Hib (ts & Ht). eapply wp_free_tab; [exact Hvm1|exact Ht|exact Hib|]. eauto.
  - intros s2 (ts & [Fk Ft Ff]). eapply (wp_kfree pgdir _ (ts ++ fs ++ l)); [exact Hpg| |exact Fk|].
    { rewrite elem_of_app, Ft. intros [(j & _ & Hj)|Hin].
      - by destruct (vo_tab _ _ _ Ho _ _ Hj) as (_ & _ & Hne).
      - apply (vi_disj _ _ _ _ Hvm1 pgdir); [by left|done]. }
    intros Hk'. apply (HQ _ (pgdir :: ts ++ fs ++ l)); [exact Hk'|..].
    + intros q. rewrite elem_of_cons, !elem_of_app, Ft, Hfs. unfold owned, vpage. split.
      * intros [->|[(j & _ & Hj)|[Hq|Hq]]]; eauto 6.
      * intros [Hq|[[->|[j Hj]]|Hq]]; eauto 6. right. left. exists j. split; [|done].
        destruct (vo_tab _ _ _ Ho _ _ Hj) as (Hr & _). mlia.
    + eapply frame_trans; [eapply frame_weaken; [|apply (dp_frame _ _ _ _ _ _ _ _ _ _ Hd)]|].
      { intros q [Hq|Hq]; [right; by apply Hfs|left; by right]. }
      eapply frame_trans; [eapply frame_weaken; [|exact Ff]|].
      { intros q Hq. left. by right. }
      eapply frame_weaken; [|apply frame_of_same; [apply Hpg|apply freed_same_outside]].
      intros q <-. left. by left.
Qed.

End VmUser.
