(* ===== verification/VmCopy.v ===== *)
(** * Building and copying address spaces ([vm.c])

    [setupkvm] builds a page table with the kernel mappings of [kmap];
    [copyuvm] builds a child's address space from its parent's.  Both either
    succeed or return every page they took. *)

From stdpp Require Import base tactics numbers gmap strings list.
From Stdlib Require Import ZArith Lia.
From S2P Require Import Prelude Mmu Memory Spinlock Kalloc Vm VmFacts VmUser.

Section VmCopy.
Context {L : Layout}.

(** ** The kernel's mappings *)

Definition ksize (k : kmap_entry) : Z := u32 (phys_end k - phys_start k).

(** The entry a list of kernel mappings gives an address. *)
Fixpoint kmaps (ks : list kmap_entry) (va : Z) : option Z :=
  match ks with
  | [] => None
  | k :: ks' =>
      if decide (virt k <= va < virt k + ksize k)
      then Some (phys_start k + (page_of va - virt k) + Z.lor (kperm k) PTE_P)
      else kmaps ks' va
  end.

Record kgood (k : kmap_entry) : Prop := {
  kg_virt : KERNBASE <= virt k /\ virt k mod 4096 = 0;
  kg_size : 0 < ksize k /\ ksize k mod 4096 = 0 /\ virt k + ksize k <= 4294967296;
  kg_phys : 0 <= phys_start k /\ phys_start k mod 4096 = 0 /\
    phys_start k + ksize k <= 4294967296;
  kg_perm : 0 <= kperm k < 4096
}.

Definition kapart (k k' : kmap_entry) : Prop :=
  virt k + ksize k <= virt k' \/ virt k' + ksize k' <= virt k.

Fixpoint kgoods (ks : list kmap_entry) : Prop :=
  match ks with
  | [] => True
  | k :: ks' => kgood k /\ Forall (kapart k) ks' /\ kgoods ks'
  end.

Lemma kmap_good : kgoods kmap.
Proof.
  pose proof layout_data as Hd. pose proof layout_align as Ha. pose proof layout_end as He.
  assert (V2P lk_data = lk_data - KERNBASE) as HV by (apply V2P_high; mlia).
  assert (V2P KERNLINK = EXTMEM) as HK by done.
  cbn [kgoods kmap]. unfold kapart. repeat rewrite Forall_cons. rewrite !Forall_nil.
  assert (forall a b c d, ksize (mkkmap a b c d) = u32 (c - b)) as Hks by done.
  rewrite !Hks, !HV, !HK. cbn [virt phys_start phys_end kperm].
  repeat match goal with |- _ /\ _ => split | |- kgood _ => split end;
    rewrite ?Hks, ?HV, ?HK; cbn [virt phys_start phys_end kperm]; try done; mlia.
Qed.

(** Pages of a fresh directory: no table, no user page. *)
Lemma as_fresh s d l s' : kmem_inv s (d :: l) -> kmem_inv s' l ->
  mem s' = StringC.memset (mem s) d 0 PGSIZE ->
  as_inv s' l d ∅ ∅ /\ (forall va, 0 <= va < 4294967296 -> mapping (mem s') d va = None) /\
  page_ok d /\ forall q, owned l d ∅ ∅ q <-> q ∈ d :: l.
Proof.
  intros Hk Hk' Em. destruct (kalloc_inv s d l Hk) as (_ & Hd & Hni).
  assert (vm_ok (mem s') d ∅) as Ho.
  { split; [done|done| |done]. intros i Hi. unfold pde_at. rewrite Em, load32_memset0 by done. done. }
  assert (forall va, 0 <= va < 4294967296 -> mapping (mem s') d va = None) as Hm.
  { intros va Hva. unfold mapping. by rewrite (vo_pde _ _ _ Ho) by by apply PDX_range. }
  split; [|split_and!; try done].
  - split; try done.
    + split; [done|done|]. intros q [->|[i Hi]]; [done|]. by rewrite lookup_empty in Hi.
    + intros va Hva _. by rewrite Hm by mlia.
  - intros q. unfold owned, vpage. rewrite elem_of_cons. split.
    + intros [Hq|[[->|[i Hi]]|[va Hva]]]; [by right|by left|by rewrite lookup_empty in Hi|by rewrite lookup_empty in Hva].
    + intros [->|Hq]; [right; left; by left|by left].
Qed.

(** Mapping kernel pages keeps an empty user part empty. *)
Lemma as_kernel P s l d tabs s' l' tabs' : as_inv s l d tabs ∅ -> vm_inv s' l' d tabs' ->
  tabs_grow P l tabs l' tabs' ->
  (forall va, 0 <= va < HEAPLIMIT -> mapping (mem s') d va = mapping (mem s) d va) ->
  as_inv s' l' d tabs' ∅ /\ forall q, owned l' d tabs' ∅ q <-> owned l d tabs ∅ q.
Proof.
  intros Hi Hvm Hg Hm. destruct (tabs_grow_used _ _ _ _ _ Hg) as (used & -> & Hused).
  split; [split; try done|].
  - intros va Hva Hal. rewrite Hm by done. by apply (as_map _ _ _ _ _ Hi).
  - intros q. unfold owned, vpage. rewrite elem_of_app, Hused. naive_solver.
Qed.

Lemma kmaps_below ks va : kgoods ks -> va < KERNBASE -> kmaps ks va = None.
Proof.
  induction ks as [|k ks IH]; [done|]. intros (Hk & _ & Hks) Hva. cbn [kmaps].
  destruct Hk as [[Hv _] _ _ _]. rewrite decide_False by lia. by apply IH.
Qed.

Lemma kgoods_elem ks k : kgoods ks -> k ∈ ks -> kgood k.
Proof.
  induction ks as [|x ks IH]; intros Hks Hk; [by apply elem_of_nil in Hk|].
  destruct Hks as (Hx & _ & Hks). apply elem_of_cons in Hk as [->|Hk]; auto.
Qed.

Lemma kmaps_apart ks k va : Forall (kapart k) ks -> virt k <= va < virt k + ksize k ->
  kmaps ks va = None.
Proof.
  induction ks as [|x ks IH]; intros Hap Hin; [done|]. apply Forall_cons in Hap as [Hx Hap].
  cbn [kmaps]. unfold kapart in Hx. rewrite decide_False by lia. by apply IH.
Qed.

Lemma grow_vpages P l tabs l' tabs' pg q : tabs_grow P l tabs l' tabs' -> vpage pg tabs' q ->
  q ∈ l \/ vpage pg tabs q.
Proof.
  intros (u & -> & Hu)%tabs_grow_used [->|Hq]; [by right; left|].
  apply Hu in Hq as [Hq|Hq]; [by right; right|]. left. apply elem_of_app. by left.
Qed.

(** The directory entries the mappings of [ks] use. *)
Definition kslots (ks : list kmap_entry) (i : Z) : Prop :=
  exists k, k ∈ ks /\ PDX (virt k) <= i <= PDX (virt k + ksize k - 1).

Lemma wp_map_kernel ks : forall s l d tabs (Q : Z -> kst -> Prop),
  as_inv s l d tabs ∅ -> kgoods ks -> d <> 0 ->
  Forall (fun k => forall va, virt k <= va < virt k + ksize k -> mapping (mem s) d va = None) ks ->
  (forall s' l', kmem_inv s' l' -> (forall q, q ∈ l' <-> owned l d tabs ∅ q) ->
     frame (fun q => q ∈ l \/ vpage d tabs q) (mem s) (mem s') ->
     (exists tabs', tabs_grow (kslots ks) l tabs [] tabs') -> Q 0 s') ->
  (forall s' l' tabs', as_inv s' l' d tabs' ∅ -> tabs_grow (kslots ks) l tabs l' tabs' ->
     (forall va, 0 <= va < 4294967296 -> mapping (mem s') d va =
        match kmaps ks va with Some e => Some e | None => mapping (mem s) d va end) ->
     (forall q, owned l' d tabs' ∅ q <-> owned l d tabs ∅ q) ->
     frame (fun q => q ∈ l \/ vpage d tabs q) (mem s) (mem s') ->
     (forall q, q ∈ l' -> q ∈ l) -> Q d s') ->
  wp (map_kernel d ks) Q s.
Proof.
  induction ks as [|k ks IH]; intros s l d tabs Q Hi Hks Hd Hfree HF HS; cbn [map_kernel].
  { apply wp_ret. apply (HS s l tabs); [done|constructor|done..]. }
  destruct Hks as ([[Hv Hval] (Hs0 & Hsal & Hend) (Hp0 & Hpal & Hpend) Hperm] & Hap & Hks).
  apply Forall_cons in Hfree as [Hk Hfree]. fold (ksize k).
  assert (page_of (virt k) = virt k) as Hpg by (unfold page_of; mlia).
  apply wp_bind. eapply (wp_mappages _ _ _ _ _ _ _ _ (ksize k / PGSIZE));
    [apply Hi|mlia|lia|lia|rewrite Hpg; unfold page_of; mlia|done|done|mlia|done|..].
  { intros i Hib. rewrite Hpg. apply Hk. mlia. }
  intros rv n s1 l1 tabs1 Hvm1 Hg1 Hr Hm1 Hf1 _.
  assert (0 <= n <= ksize k / PGSIZE) as Hn by (destruct Hr as [[_ ->]|(_ & ? & _)]; mlia).
  assert (forall va, 0 <= va < 4294967296 -> ~ virt k <= va < virt k + ksize k ->
            mapping (mem s1) d va = mapping (mem s) d va) as Hout.
  { intros va Hva Hno. rewrite Hm1 by done. unfold mapped_range. rewrite Hpg.
    rewrite decide_False by mlia. done. }
  destruct (as_kernel _ _ _ _ _ _ _ _ Hi Hvm1 Hg1) as [Hi1 How1].
  { intros va Hva. apply Hout; mlia. }
  assert (frame (fun q => q ∈ l \/ vpage d tabs q) (mem s) (mem s1)) as Hf1'.
  { eapply frame_weaken; [|exact Hf1]. intros q. by eapply grow_vpages. }
  assert (forall q, q ∈ l1 -> q ∈ l) as Hsuf.
  { intros q Hq. destruct (tabs_grow_used _ _ _ _ _ Hg1) as (u & -> & _). apply elem_of_app. by right. }
  assert (tabs_grow (kslots (k :: ks)) l tabs l1 tabs1) as Hgk.
  { eapply tabs_grow_weaken; [|exact Hg1]. intros i Hib. exists k. split; [by left|exact Hib]. }
  assert (forall l2 tabs2, tabs_grow (kslots ks) l1 tabs1 l2 tabs2 -> tabs_grow (kslots (k :: ks)) l tabs l2 tabs2) as Hgt.
  { intros l2 tabs2 Hg2. eapply tabs_grow_trans; [exact Hgk|]. eapply tabs_grow_weaken; [|exact Hg2].
    intros i (k' & Hk' & Hib). exists k'. split; [by right|exact Hib]. }
  destruct Hr as [[-> ->]|(-> & Hlt & ->)].
  - cbn [Z.ltb]. eapply IH; [exact Hi1|exact Hks|done|..].
    + rewrite Forall_forall in Hfree, Hap |- *. intros k' Hk' va Hva.
      rewrite Hout; [by apply (Hfree k')| |].
      * destruct (kgoods_elem ks k' Hks Hk') as [[Hv' _] (Hs' & _ & He') _ _]. mlia.
      * specialize (Hap k' Hk'). unfold kapart in Hap. lia.
    + intros s2 l2 Hk2 How2 Hf2 [tabs2 Hg2]. apply (HF s2 l2); [done|intros q; by rewrite How2, How1| |exists tabs2; by apply Hgt].
      eapply frame_trans; [exact Hf1'|]. eapply frame_weaken; [|exact Hf2].
      intros q [Hq|Hq]; [by left; apply Hsuf|by eapply grow_vpages].
    + intros s2 l2 tabs2 Hi2 Hg2 Hm2 How2 Hf2 Hsuf2.
      apply (HS s2 l2 tabs2); [done|by apply Hgt|..|intros q Hq; by apply Hsuf, Hsuf2].
      * intros va Hva. rewrite Hm2 by done. cbn [kmaps]. case_decide as Hin.
        -- rewrite (kmaps_apart ks k va) by done. rewrite Hm1 by done. unfold mapped_range.
           rewrite Hpg, decide_True by mlia. done.
        -- destruct (kmaps ks va); [done|]. by apply Hout.
      * intros q. by rewrite How2, How1.
      * eapply frame_trans; [exact Hf1'|]. eapply frame_weaken; [|exact Hf2].
        intros q [Hq|Hq]; [by left; apply Hsuf|by eapply grow_vpages].
  - cbn [Z.ltb]. apply wp_bind. eapply wp_freevm; [exact Hi1|]. intros s2 l2 Hk2 How2 Hf2.
    apply wp_ret. apply (HF s2 l2); [done|intros q; by rewrite How2, How1| |exists tabs1; exact Hgk].
    eapply frame_trans; [exact Hf1'|]. eapply frame_weaken; [|exact Hf2].
    intros q [Hq|[va Hq]]; [by eapply grow_vpages|by rewrite lookup_empty in Hq].
Qed.

Lemma kmap_slots i : kslots kmap i -> 512 <= i < 568 \/ 1016 <= i < 1024.
Proof.
  intros (k & Hk & Hr). pose proof (kgoods_elem kmap k kmap_good Hk) as [[Hv _] (Hs & _ & He) _ _].
  rewrite !PDX_eq in Hr by mlia.
  assert (virt k + ksize k <= KERNBASE + PHYSTOP \/ DEVSPACE <= virt k) as Hw; [|mlia].
  pose proof layout_data as Hd. pose proof layout_end as Hl. clear Hr Hs He Hv.
  assert (V2P lk_data = lk_data - KERNBASE) as HV by (apply V2P_high; mlia). assert (V2P KERNLINK = EXTMEM) as HK by done.
  unfold kmap in Hk. repeat (apply elem_of_cons in Hk as [->|Hk]); [..|by apply elem_of_nil in Hk];
    unfold ksize; cbn [virt phys_start phys_end]; rewrite ?HV, ?HK; [left; mlia|left; mlia|left; mlia|right; lia].
Qed.

(** The kernel's page table has 64 tables at most. *)
Lemma kmap_tables l tabs' l' : tabs_grow (kslots kmap) l ∅ l' tabs' -> (length l <= length l' + 64)%nat.
Proof.
  intros Hg. pose proof (tabs_grow_size _ _ _ _ _ Hg) as Hsz. rewrite map_size_empty in Hsz.
  assert (dom tabs' ⊆ list_to_set (C := gset Z) (seqZ 512 56 ++ seqZ 1016 8)) as Hd.
  { intros i Hi%elem_of_dom. apply elem_of_list_to_set. rewrite elem_of_app, !elem_of_seqZ.
    destruct (tabs_grow_dom _ _ _ _ _ i Hg Hi) as [[x Hx]|Hr%kmap_slots]; [by rewrite lookup_empty in Hx|lia]. }
  apply subseteq_size in Hd. rewrite size_dom, size_list_to_set, length_app, !length_seqZ in Hd; [lia|].
  apply NoDup_app. split; [apply NoDup_seqZ|]. split; [|apply NoDup_seqZ]. intros x. rewrite !elem_of_seqZ. lia.
Qed.

(** [setupkvm], with the number of pages it needs: the directory and 64 tables. *)
Lemma wp_setupkvm_count s l (Q : Z -> kst -> Prop) : kmem_inv s l ->
  (forall s' l', kmem_inv s' l' -> (forall q, q ∈ l' <-> q ∈ l) ->
     frame (fun q => q ∈ l) (mem s) (mem s') -> (length l <= 65)%nat -> Q 0 s') ->
  (forall d s' l' tabs', as_inv s' l' d tabs' ∅ ->
     (forall va, 0 <= va < 4294967296 -> mapping (mem s') d va = kmaps kmap va) ->
     (forall q, owned l' d tabs' ∅ q <-> q ∈ l) -> frame (fun q => q ∈ l) (mem s) (mem s') ->
     (forall q, q ∈ l' -> q ∈ l) -> (length l <= length l' + 65)%nat -> Q d s') ->
  wp setupkvm Q s.
Proof.
  intros Hk HF HS. unfold setupkvm. apply wp_bind. eapply wp_kalloc; [exact Hk|..].
  { intros ->. rewrite Z.eqb_refl. apply wp_ret. apply (HF s []); [done..|cbn; lia]. }
  intros d l' k1 -> Hd Hni Hk1 ->. pose proof (page_ok_range d Hd).
  rewrite (proj2 (Z.eqb_neq d 0)) by mlia. apply wp_bind, wp_modify.
  change (DEVSPACE <? P2V PHYSTOP) with false. cbn iota. set (k1 := set_mem _ _).
  assert (frame (eq d) (mem s) (mem k1)) as Hf1 by apply memset_frame, Hd.
  assert (kmem_inv k1 l') as Hk2.
  { eapply kmem_frame; [exact Hk1|exact Hf1| |done|done]. by intros q Hq <-. }
  destruct (as_fresh s d l' k1 Hk Hk2 eq_refl) as (Hi1 & Hm1 & _ & How1).
  assert (forall m, frame (fun q => q ∈ l' \/ vpage d ∅ q) (mem k1) m ->
            frame (fun q => q ∈ d :: l') (mem s) m) as Hfr.
  { intros m Hfm. eapply frame_trans; [eapply frame_weaken; [|exact Hf1]|].
    - intros q <-. apply elem_of_cons. by left.
    - eapply frame_weaken; [|exact Hfm]. intros q Hq. apply How1. destruct Hq; [by left|by right; left]. }
  eapply (wp_map_kernel kmap); [exact Hi1|apply kmap_good|mlia|..].
  - rewrite Forall_forall. intros k Hkk va Hva.
    destruct (kgoods_elem kmap k kmap_good Hkk) as [[Hv' _] (Hs' & _ & He') _ _]. apply Hm1. mlia.
  - intros s2 l2 Hk3 How2 Hf2 [tabs2 Hg2]. apply (HF s2 l2); [done|intros q; by rewrite How2, How1|by apply Hfr|].
    apply kmap_tables in Hg2. cbn in *. lia.
  - intros s2 l2 tabs2 Hi2 Hg2 Hm2 How2 Hf2 Hsuf. apply (HS d s2 l2 tabs2); [done|..].
    + intros va Hva. rewrite Hm2, Hm1 by done. by destruct (kmaps kmap va).
    + intros q. by rewrite How2, How1.
    + by apply Hfr.
    + intros q Hq. apply elem_of_cons. right. by apply Hsuf.
    + apply kmap_tables in Hg2. cbn in *. lia.
Qed.

Lemma wp_setupkvm s l (Q : Z -> kst -> Prop) : kmem_inv s l ->
  (forall s' l', kmem_inv s' l' -> (forall q, q ∈ l' <-> q ∈ l) ->
     frame (fun q => q ∈ l) (mem s) (mem s') -> Q 0 s') ->
  (forall d s' l' tabs', as_inv s' l' d tabs' ∅ ->
     (forall va, 0 <= va < 4294967296 -> mapping (mem s') d va = kmaps kmap va) ->
     (forall q, owned l' d tabs' ∅ q <-> q ∈ l) -> frame (fun q => q ∈ l) (mem s) (mem s') ->
     (forall q, q ∈ l' -> q ∈ l) -> Q d s') ->
  wp setupkvm Q s.
Proof. intros Hk HF HS. eapply wp_setupkvm_count; [exact Hk|eauto|eauto]. Qed.

(** ** [copyuvm] *)

Lemma as_frame P s l pgdir tabs us s' l' : as_inv s l pgdir tabs us -> kmem_inv s' l' ->
  (forall q, q ∈ l' -> q ∈ l) -> frame P (mem s) (mem s') ->
  (forall q, vpage pgdir tabs q -> ~ P q) -> as_inv s' l' pgdir tabs us.
Proof.
  intros [Hvm Hmap Hdom Hinj Hown] Hk Hsub Hf HP. pose proof (vi_ok _ _ _ _ Hvm) as Ho. split.
  - split; [done|eapply vm_ok_frame; [exact Ho|exact Hf|apply HP; by left]|].
    intros q Hq Hin. apply (vi_disj _ _ _ _ Hvm q Hq). by apply Hsub.
  - intros va Hva Hal. erewrite mapping_frame; [by apply Hmap|exact Ho|exact Hf|exact HP|mlia].
  - exact Hdom.
  - exact Hinj.
  - intros va q Hq. destruct (Hown _ _ Hq) as [Hl Hv]. split; [|done]. intros Hin. by apply Hl, Hsub.
Qed.

(** Page [p'] in [m'] holds what page [p] holds in [m]. *)
Definition same_page (m m' : memory) (p p' : Z) : Prop :=
  forall o, 0 <= o < PGSIZE -> load8 m' (p' + o) = load8 m (p + o).

(** The child has a copy of the parent's pages below [i]. *)
Record copy_progress (s0 : kst) (l : list Z) (pgdir : Z) (us : gmap Z Z) (d i : Z)
    (s : kst) (l1 : list Z) (tabs1 us1 : gmap Z Z) : Prop := {
  cp_as : as_inv s l1 d tabs1 us1;
  cp_none : forall va, ~ 0 <= va < i -> us1 !! va = None;
  cp_page : forall va p, 0 <= va < i -> us !! va = Some p ->
    exists p' e, us1 !! va = Some p' /\ same_page (mem s0) (mem s) p p' /\
      mapping (mem s0) pgdir va = Some e /\
      mapping (mem s) d va = Some (V2P p' + Z.lor (PTE_FLAGS e) PTE_P);
  cp_kern : forall va, HEAPLIMIT <= va < 4294967296 -> mapping (mem s) d va = kmaps kmap va;
  cp_owned : forall q, owned l1 d tabs1 us1 q <-> q ∈ l;
  cp_frame : frame (fun q => q ∈ l) (mem s0) (mem s);
  cp_suffix : forall q, q ∈ l1 -> q ∈ l
}.

Lemma same_page_frame P m m1 m2 p p' : same_page m m1 p p' -> page_ok p' -> frame P m1 m2 ->
  ~ P p' -> same_page m m2 p p'.
Proof.
  intros Hs Hp Hf HP o Ho. rewrite Hf; [by apply Hs|].
  assert (page_of (p' + o) = p') as ->; [|done]. apply page_of_range; [apply Hp|lia].
Qed.

Lemma memmove_frame m q src : q mod PGSIZE = 0 -> frame (eq q) m (StringC.memmove m q src PGSIZE).
Proof.
  intros Hq. apply frame_of_same; [done|]. intros a Ha.
  rewrite StringC.memmove_spec by mlia. by case_decide.
Qed.

(** The copy of a page outside the free list. *)
Lemma memmove_same_page (l : list Z) m0 m p p' : frame (fun q => q ∈ l) m0 m -> page_ok p -> p ∉ l ->
  same_page m0 (StringC.memmove m p' p PGSIZE) p p'.
Proof.
  intros Hf Hp Hni o Ho. rewrite StringC.memmove_spec by mlia. rewrite decide_True by lia.
  replace (p' + o - p' + p) with (p + o) by lia. apply Hf.
  assert (page_of (p + o) = p) as ->; [|done]. apply page_of_range; [apply Hp|lia].
Qed.

Lemma copy_step s0 l pgdir tabs us d i s p' l1 tabs1 us1 p e k1 s' l' tabs' :
  as_inv s0 l pgdir tabs us ->
  copy_progress s0 l pgdir us d i s (p' :: l1) tabs1 us1 ->
  0 <= i < HEAPLIMIT -> i mod 4096 = 0 -> us !! i = Some p ->
  mapping (mem s0) pgdir i = Some e ->
  kmem_inv k1 l1 -> mem k1 = StringC.memmove (mem s) p' p PGSIZE ->
  vm_inv s' l' d tabs' -> tabs_grow (eq (PDX i)) l1 tabs1 l' tabs' ->
  (forall va, 0 <= va < 4294967296 -> mapping (mem s') d va =
     if decide (page_of va = i) then Some (V2P p' + Z.lor (PTE_FLAGS e) PTE_P)
     else mapping (mem k1) d va) ->
  0 <= Z.lor (PTE_FLAGS e) PTE_P < 4096 ->
  frame (vpage d tabs') (mem k1) (mem s') ->
  copy_progress s0 l pgdir us d (i + PGSIZE) s' l' tabs' (<[i := p']> us1).
Proof.
  intros Hi0 [Ca Cn Cp Ck Cow Cf Cs] Hi Hal Hu He Hk1 Em1 Hvm Hg Hm Hfl Hf.
  destruct (kalloc_inv s p' l1 (vi_kmem _ _ _ _ (as_vm _ _ _ _ _ Ca))) as (_ & Hpok & _).
  assert (frame (eq p') (mem s) (mem k1)) as Hf1 by (rewrite Em1; apply memmove_frame, Hpok).
  destruct (as_take _ _ _ _ _ _ k1 Ca Hk1 Hf1) as (Ca1 & Hm1 & _ & Hni & Hnv & Hnu).
  assert (us1 !! i = None) as Hna1 by (apply Cn; lia).
  destruct (as_add _ _ _ _ _ _ i p' _ s' l' tabs' Ca1 Hvm Hg Hi Hal Hpok Hni Hnv Hnu Hfl Hna1 Hm)
    as [Ca2 How].
  assert (forall q, vpage d tabs' q -> q ∈ l1 \/ vpage d tabs1 q) as Hvp
    by (intros q; by eapply grow_vpages).
  destruct (as_own _ _ _ _ _ Hi0 _ _ Hu) as [Hpl _].
  destruct (as_dom _ _ _ _ _ Hi0 _ _ Hu) as (_ & _ & Hpp).
  split; try done.
  - intros va Hva. rewrite lookup_insert_ne by mlia. apply Cn. mlia.
  - intros va q Hva Hq. destruct (decide (va = i)) as [->|Hne].
    + exists p', e. rewrite lookup_insert_eq. split; [done|]. assert (q = p) as -> by congruence.
      split; [|split; [done|]].
      * eapply (same_page_frame _ _ (mem k1)); [|done|exact Hf|by intros [Hq'|Hq']%Hvp].
        rewrite Em1. by eapply memmove_same_page.
      * rewrite Hm by mlia. by rewrite decide_True by (unfold page_of; mlia).
    + destruct (as_dom _ _ _ _ _ Hi0 _ _ Hq) as (Hvr & Hval & _).
      destruct (Cp va q ltac:(mlia) Hq) as (q' & e' & Hq' & Hsame & Hme & Hmd). exists q', e'.
      rewrite lookup_insert_ne by done.
      destruct (as_own _ _ _ _ _ Ca _ _ Hq') as [Hql Hqv]. apply not_elem_of_cons in Hql as [Hqp Hql].
      destruct (as_dom _ _ _ _ _ Ca _ _ Hq') as (_ & _ & Hqok).
      split_and!; [done| |done|].
      * eapply same_page_frame; [eapply same_page_frame; [exact Hsame|done|exact Hf1|congruence]
          |done|exact Hf|by intros [Hx|Hx]%Hvp].
      * rewrite Hm by mlia. rewrite decide_False by (unfold page_of; mlia). by rewrite Hm1 by mlia.
  - intros va Hva. rewrite Hm by mlia. rewrite decide_False by (unfold page_of; mlia).
    rewrite Hm1 by mlia. apply Ck. lia.
  - intros q. rewrite How, <- Cow. unfold owned. rewrite elem_of_cons. tauto.
  - eapply frame_trans; [exact Cf|]. eapply frame_trans.
    + eapply frame_weaken; [|exact Hf1]. intros q <-. apply Cs, elem_of_cons. by left.
    + eapply frame_weaken; [|exact Hf]. intros q [Hq|Hq]%Hvp.
      * apply Cs, elem_of_cons. by right.
      * apply Cow. right. by left.
  - intros q Hq. apply Cs, elem_of_cons. right.
    destruct (tabs_grow_used _ _ _ _ _ Hg) as (u & -> & _). apply elem_of_app. by right.
Qed.

(** A failed copy: the free list has its pages back and the parent's pages
    are untouched. *)
Definition copy_failed (s0 : kst) (l : list Z) (s : kst) : Prop :=
  exists l', kmem_inv s l' /\ (forall q, q ∈ l' <-> q ∈ l) /\
    frame (fun q => q ∈ l) (mem s0) (mem s).

Lemma flags_range e : 0 <= e < 4294967296 ->
  0 <= PTE_FLAGS e < 4096 /\ 0 <= Z.lor (PTE_FLAGS e) PTE_P < 4096.
Proof.
  intros He. assert (0 <= PTE_FLAGS e < 4096) as Hf by (rewrite PTE_FLAGS_eq by done; mlia).
  split; [done|]. destruct (pte_compose 0 (PTE_FLAGS e) eq_refl Hf). lia.
Qed.

(** Giving up: the child's address space is freed. *)
Lemma wp_copy_bad s0 l pgdir us d i s l1 tabs1 us1 k (Q : unit -> kst -> Prop) :
  copy_progress s0 l pgdir us d i s l1 tabs1 us1 ->
  as_inv k l1 d tabs1 us1 -> frame (fun q => q ∈ l) (mem s0) (mem k) ->
  (forall s', copy_failed s0 l s' -> Q tt s') -> wp (freevm d) Q k.
Proof.
  intros Hc Hi Hf HQ. eapply wp_freevm; [exact Hi|]. intros s' l' Hk How Hfr. apply HQ.
  exists l'. split; [done|]. split.
  - intros q. by rewrite How, (cp_owned _ _ _ _ _ _ _ _ _ _ Hc).
  - eapply frame_trans; [exact Hf|]. eapply frame_weaken; [|exact Hfr]. intros q Hq.
    apply (cp_owned _ _ _ _ _ _ _ _ _ _ Hc). by right.
Qed.

Lemma wp_copy_step s0 l pgdir tabs us d i s l1 tabs1 us1 sz p (Q : Z + Z -> kst -> Prop) :
  as_inv s0 l pgdir tabs us -> copy_progress s0 l pgdir us d i s l1 tabs1 us1 ->
  0 <= i < sz -> sz <= HEAPLIMIT -> i mod 4096 = 0 -> us !! i = Some p ->
  (forall s', copy_failed s0 l s' -> Q (inr 0) s') ->
  (forall s' l' tabs' us', copy_progress s0 l pgdir us d (i + PGSIZE) s' l' tabs' us' ->
     Q (inl (i + PGSIZE)) s') ->
  wp (copyuvm_step pgdir sz d i) Q s.
Proof.
  intros Hi0 Hc Hi Hsz Hal Hu HF HS. pose proof (cp_as _ _ _ _ _ _ _ _ _ _ Hc) as Ha.
  pose proof (cp_frame _ _ _ _ _ _ _ _ _ _ Hc) as Hf. pose proof (as_vm _ _ _ _ _ Ha) as Hvm.
  assert (as_inv s l1 pgdir tabs us) as Hip.
  { eapply as_frame; [exact Hi0|apply Hvm|apply (cp_suffix _ _ _ _ _ _ _ _ _ _ Hc)|exact Hf|].
    intros q Hq Hin. by apply (vi_disj _ _ _ _ (as_vm _ _ _ _ _ Hi0) q Hq). }
  destruct (as_table _ _ _ _ _ _ _ Hip Hu) as (t & e & Ht & Hl & Hh & He).
  assert (mapping (mem s0) pgdir i = Some e) as Hme.
  { erewrite <- mapping_frame; [|apply (as_vm _ _ _ _ _ Hi0)|exact Hf| |mlia].
    - rewrite (mapping_entry _ _ _ _ i t (as_vm _ _ _ _ _ Hip) ltac:(mlia) Ht), Hl.
      unfold present. by rewrite Hh.
    - intros q Hq Hin. by apply (vi_disj _ _ _ _ (as_vm _ _ _ _ _ Hi0) q Hq). }
  destruct (as_dom _ _ _ _ _ Hip _ _ Hu) as (_ & _ & Hpok).
  destruct (page_phys p Hpok) as (_ & _ & _ & Hback).
  destruct (flags_range e) as [Hfl Hfl']; [rewrite <- Hl; apply load32_range|].
  unfold copyuvm_step. rewrite (proj2 (Z.ltb_lt i sz)) by lia. cbn [negb]. apply wp_bind.
  eapply wp_of_eq; [eapply walk_noalloc; [apply (as_vm _ _ _ _ _ Hip)|mlia]|]. rewrite Ht.
  rewrite (walk_nonnull _ _ _ _ i t (as_vm _ _ _ _ _ Hip) ltac:(mlia) Ht).
  apply wp_bind, wp_gets. rewrite Hl, Hh, He, Hback. cbn [negb].
  apply wp_bind. eapply wp_kalloc; [apply Hvm|..].
  { intros ->. rewrite Z.eqb_refl. apply wp_bind. eapply wp_copy_bad; [exact Hc|exact Ha|exact Hf|].
    intros s' Hs'. apply wp_ret. by apply HF. }
  intros p' l' k1 -> Hp' Hni Hk1 ->. pose proof (page_ok_range p' Hp').
  rewrite (proj2 (Z.eqb_neq p' 0)) by mlia. apply wp_bind, wp_modify. set (k1 := set_mem _ _).
  assert (frame (eq p') (mem s) (mem k1)) as Hf1 by apply memmove_frame, Hp'.
  assert (kmem_inv k1 l') as Hk2.
  { eapply kmem_frame; [exact Hk1|exact Hf1| |done|done]. by intros q Hq <-. }
  destruct (as_take _ _ _ _ _ _ k1 Ha Hk2 Hf1) as (Ha1 & Hm1 & _ & _ & Hnv & Hnu).
  destruct (page_phys p' Hp') as (Hpa & Hpos & Htop & _). apply wp_bind.
  eapply (wp_mappage _ _ _ _ i (V2P p')); [apply Ha1|mlia|done|done|lia|mlia|exact Hfl|..].
  - pose proof (as_map _ _ _ _ _ Ha1 i ltac:(lia) Hal) as Hm.
    destruct (mapping (mem k1) d i) as [e'|]; [|done]. destruct Hm as (q & Hq & _).
    rewrite (cp_none _ _ _ _ _ _ _ _ _ _ Hc) in Hq by lia. done.
  - intros _ ->. cbn [Z.ltb]. apply wp_bind. eapply (wp_kfree p' _ []); [done|done|exact Hk2|].
    intros _. apply wp_bind. eapply (wp_copy_bad _ _ _ _ _ _ _ _ _ _ (freed p' k1)); [exact Hc|..].
    + by apply as_freed.
    + eapply frame_trans; [exact Hf|]. assert (p' ∈ l) as Hpl
        by (apply (cp_suffix _ _ _ _ _ _ _ _ _ _ Hc); by apply list_elem_of_singleton).
      eapply frame_trans; [eapply frame_weaken; [|exact Hf1]; by intros q <-|].
      eapply frame_weaken; [|apply frame_of_same; [apply Hp'|apply freed_same_outside]]. by intros q <-.
    + intros s' Hs'. apply wp_ret. by apply HF.
  - intros s' l2 tabs2 Hvm2 Hg2 Hm2 Hf2 _. cbn [Z.ltb]. apply wp_ret. rewrite u32_small by mlia.
    eapply HS. eapply (copy_step _ _ _ _ _ _ _ s p' l' tabs1 us1 p e k1);
      [exact Hi0|exact Hc|lia|exact Hal|exact Hu|exact Hme|exact Hk2|reflexivity|exact Hvm2|exact Hg2
      |exact Hm2|exact Hfl'|exact Hf2].
Qed.

Lemma wp_copyuvm s l pgdir tabs us sz (Q : Z -> kst -> Prop) :
  as_inv s l pgdir tabs us -> 0 <= sz <= HEAPLIMIT ->
  (forall va, 0 <= va < sz -> va mod 4096 = 0 -> exists p, us !! va = Some p) ->
  (forall s', copy_failed s l s' -> Q 0 s') ->
  (forall d s' l' tabs' us', copy_progress s l pgdir us d (PGROUNDUP sz) s' l' tabs' us' -> Q d s') ->
  wp (copyuvm pgdir sz) Q s.
Proof.
  intros Hi Hsz Hall HF HS. unfold copyuvm. apply wp_bind.
  eapply wp_setupkvm; [apply (as_vm _ _ _ _ _ Hi)|..].
  { intros s' l' Hk Hq Hf. rewrite Z.eqb_refl. apply wp_ret, HF. by exists l'. }
  intros d s1 l1 tabs1 Hi1 Hm1 How1 Hf1 Hsuf1.
  pose proof (page_ok_range d (vo_pgdir _ _ _ (vi_ok _ _ _ _ (as_vm _ _ _ _ _ Hi1)))).
  rewrite (proj2 (Z.eqb_neq d 0)) by mlia.
  assert (PGROUNDUP sz mod 4096 = 0 /\ sz <= PGROUNDUP sz < sz + 4096) as [Hal Hge]
    by (rewrite PGROUNDUP_eq by mlia; mlia).
  apply (wp_iter (fun i s' => 0 <= i <= PGROUNDUP sz /\ i mod 4096 = 0 /\
           exists l' tabs' us', copy_progress s l pgdir us d i s' l' tabs' us')
         (fun i => Z.to_nat ((sz - i + PGSIZE - 1) / PGSIZE))).
  - intros i s' (Hib & Hial & l' & tabs' & us' & Hc). destruct (Z.lt_ge_cases i sz) as [Hlt|Hge2].
    + destruct (Hall i ltac:(lia) Hial) as [p Hp].
      eapply wp_copy_step; [exact Hi|exact Hc|lia|lia|done|exact Hp|exact HF|].
      intros s2 l2 tabs2 us2 Hc2. split; [|mlia]. split; [mlia|]. split; [mlia|]. eauto.
    + unfold copyuvm_step. rewrite (proj2 (Z.ltb_ge i sz) Hge2). apply wp_ret.
      assert (i = PGROUNDUP sz) as -> by mlia. eapply HS. exact Hc.
  - split; [lia|]. split; [done|]. exists l1, tabs1, ∅. split; try done.
    + intros va p Hva. lia.
    + intros va Hva. apply Hm1. mlia.
  - mlia.
Qed.

End VmCopy.
