(* ===== verification/Shm.v ===== *)
(** * System-V shared memory ([shm.c], [shm.h])

    The shared-memory page table [shmpgtable] has one [shmid_ds] per page of
    shared memory; a segment of [n] pages occupies [n] consecutive slots that
    all carry its key and its rounded size, and its identifier is the index
    of the first.  Each process records in [shmsegs] which page slots of the
    window [HEAPLIMIT, KERNBASE) it has attached and to which segment.

    The helpers behind the system calls are modelled on the machine state of
    [Kalloc], the table, and the calling process. *)

From stdpp Require Import base tactics numbers gmap strings list.
From Stdlib Require Import ZArith Lia.
From S2P Require Import Prelude Mmu Memory Spinlock Kalloc Vm.

(** [struct ipc_perm] *)
Record ipc_perm := mkperm {
  __key : Z;
  mode : Z
}.

(** [struct shmid_ds] *)
Record shmid_ds := mkds {
  shm_perm : ipc_perm;
  shm_segsz : Z;
  shm_atime : Z;
  shm_dtime : Z;
  shm_ctime : Z;
  shm_cpid : Z;
  shm_lpid : Z;
  shm_nattch : Z;
  pa : Z
}.

#[global] Instance czero_ds : CZero shmid_ds := mkds (mkperm 0 0) 0 0 0 0 0 0 0 0.

(** [struct rtcdate], the fields the shared-memory code reads. *)
Record rtcdate := mkdate { second : Z; minute : Z; hour : Z; day : Z }.

(** [struct attached_shmsegs] *)
Record attached := mkatt { isAttached : Z; shmid : Z }.

#[global] Instance czero_att : CZero attached := mkatt 0 0.

(** The fields of the calling process the code uses. *)
Record shproc := mkshproc {
  pid : Z;
  pgdir : Z;
  shmsegs : arr attached
}.

(** The state: machine, [shmpgtable], [shm_info], the global date [r], what
    the CMOS clock and [ticks] currently read, and [myproc()]. *)
Record shst := mkshst {
  km : kst;
  lock : bool;
  shm_segs : arr shmid_ds;
  lastShmSegIndex : Z;
  used_ids : Z;
  shm_tot : Z;
  r : rtcdate;
  rtc : rtcdate;
  ticks : Z;
  cur : shproc
}.

Definition set_km (k : kst) (s : shst) : shst :=
  mkshst k (lock s) (shm_segs s) (lastShmSegIndex s) (used_ids s) (shm_tot s) (r s) (rtc s) (ticks s) (cur s).
Definition set_lock (b : bool) (s : shst) : shst :=
  mkshst (km s) b (shm_segs s) (lastShmSegIndex s) (used_ids s) (shm_tot s) (r s) (rtc s) (ticks s) (cur s).
Definition set_segs (a : arr shmid_ds) (s : shst) : shst :=
  mkshst (km s) (lock s) a (lastShmSegIndex s) (used_ids s) (shm_tot s) (r s) (rtc s) (ticks s) (cur s).
Definition set_last (i : Z) (s : shst) : shst :=
  mkshst (km s) (lock s) (shm_segs s) i (used_ids s) (shm_tot s) (r s) (rtc s) (ticks s) (cur s).
Definition set_info (ids tot : Z) (s : shst) : shst :=
  mkshst (km s) (lock s) (shm_segs s) (lastShmSegIndex s) ids tot (r s) (rtc s) (ticks s) (cur s).
Definition set_r (d : rtcdate) (s : shst) : shst :=
  mkshst (km s) (lock s) (shm_segs s) (lastShmSegIndex s) (used_ids s) (shm_tot s) d (rtc s) (ticks s) (cur s).
Definition set_cur (p : shproc) (s : shst) : shst :=
  mkshst (km s) (lock s) (shm_segs s) (lastShmSegIndex s) (used_ids s) (shm_tot s) (r s) (rtc s) (ticks s) p.

Definition kml : lens shst kst := mklens km set_km.

#[global] Instance kml_laws : LensLaws kml.
Proof. split; [done|by intros []|done]. Qed.

Definition get_seg (i : Z) : M shst shmid_ds := aget SHMMAXSEG shm_segs i.
Definition put_seg (i : Z) (d : shmid_ds) : M shst unit :=
  aset SHMMAXSEG (fun f s => set_segs (f (shm_segs s)) s) i d.
Definition upd_seg (i : Z) (f : shmid_ds -> shmid_ds) : M shst unit :=
  let* d := get_seg i in put_seg i (f d).

Definition get_att (i : Z) : M shst attached := aget SHMMAXSEG (fun s => shmsegs (cur s)) i.
Definition put_att (i : Z) (a : attached) : M shst unit :=
  aset SHMMAXSEG (fun f s =>
    set_cur (mkshproc (pid (cur s)) (pgdir (cur s)) (f (shmsegs (cur s)))) s) i a.

Definition shm_acquire : M shst unit := Lock.acquire lock set_lock.
Definition shm_release : M shst unit := Lock.release lock set_lock.

Definition sprintf (fmt : string) (args : list carg) : M shst unit := zoom kml (cprintf fmt args).

(** [cmostime(&r)]: read the clock into the global date. *)
Definition cmostime : M shst unit := modify (fun s => set_r (rtc s) s).

(** [r.hour*10000+r.minute*100+r.second], converted to [int] *)
Definition stamp (s : shst) : Z := i32 (hour (r s) * 10000 + minute (r s) * 100 + second (r s)).

(** Field updates. *)
Definition ds_attach (n lp at_ : Z) (d : shmid_ds) : shmid_ds :=
  mkds (shm_perm d) (shm_segsz d) at_ (shm_dtime d) (shm_ctime d) (shm_cpid d) lp n (pa d).
Definition ds_detach (n dt : Z) (d : shmid_ds) : shmid_ds :=
  mkds (shm_perm d) (shm_segsz d) (shm_atime d) dt (shm_ctime d) (shm_cpid d) (shm_lpid d) n (pa d).
Definition ds_mode (m : Z) (d : shmid_ds) : shmid_ds :=
  mkds (mkperm (__key (shm_perm d)) m) (shm_segsz d) (shm_atime d) (shm_dtime d) (shm_ctime d)
    (shm_cpid d) (shm_lpid d) (shm_nattch d) (pa d).

Definition shminit : M shst unit := modify (set_lock false).

Definition generate_random_key : M shst Z :=
  cmostime ;;;
  gets (fun s => u32 (second (r s) * 10000 + minute (r s) * 100 + hour (r s) * 10 + day (r s) + ticks s)).

(** Called by [fork] ([flag] 0: one more attachment) and [exec] (one less). *)
Definition updateShmSeg (id npid flag : Z) : M shst unit :=
  cmostime ;;;
  let* d := get_seg id in
  let reqPages := shm_segsz d / PGSIZE in
  shm_acquire ;;;
  (if flag =? 0 then
     for_up 0 reqPages (fun i =>
       let* t := gets stamp in
       upd_seg (id + i) (fun d => ds_attach (u32 (shm_nattch d + 1)) npid t d))
   else
     for_up 0 reqPages (fun i =>
       let* t := gets stamp in
       upd_seg (id + i) (fun d => ds_detach (u32 (shm_nattch d - 1)) t d))) ;;;
  shm_release.

Definition mapShmSegPage (pa key segSize index pid perm : Z) : M shst Z :=
  shm_acquire ;;;
  put_seg index (mkds (mkperm key (u32 perm)) (u32 segSize) (-1) (-1) (-1) (-1) pid 0 pa) ;;;
  shm_release ;;;
  ret index.

(** [while(endIndex != lastShmSegIndex)] compares as unsigned; the fuel covers
    every index of the table and the step below zero. *)
Definition unmapShmSegPage (endIndex : Z) : M shst unit :=
  shm_acquire ;;;
  iter (Z.to_nat SHMMAXSEG + 2)%nat (fun e =>
    let* last := gets lastShmSegIndex in
    if e =? u32 last then ret (inr tt) else
    upd_seg e (fun d => mkds (mkperm (-1) 0) 0 (shm_atime d) (shm_dtime d) (shm_ctime d)
                          (shm_cpid d) (shm_lpid d) (shm_nattch d) 0) ;;;
    ret (inl (u32 (e - 1)))) endIndex ;;;
  shm_release.

(** The search both [allocShmSeg] and [shmatHelper] make: the first run of
    [req] free slots below [hi], -1 if there is none.  [si] is the start of
    the current run, [zc] its length. *)
Definition find_run {S} (isfree : Z -> M S bool) (hi req : Z) : M S Z :=
  iter (Z.to_nat hi + 1)%nat (fun '(i, si, zc) =>
    if negb (i <? hi) then ret (inr (-1)) else
    let* f := isfree i in
    if f : bool then
      let si := if si =? -1 then i else si in
      let zc := zc + 1 in
      if zc =? req then ret (inr si) else ret (inl (i + 1, si, zc))
    else ret (inl (i + 1, -1, 0))) (0, -1, 0).

Section Shm.
Context {L : Layout}.

(** One turn of the allocation loop: [inr false] is the failure return. *)
Definition allocShmSeg_step (roundedSegSize key shmflag : Z) (incrementLastIndex : bool)
    (st : Z * Z) : M shst (Z * Z + bool) :=
  let '(a, index) := st in
  if a =? roundedSegSize then ret (inr true) else
  let* mem := zoom kml kalloc in
  if mem =? 0 then
    sprintf "allocuvm out of memory\n" [] ;;;
    unmapShmSegPage (a / PGSIZE) ;;;
    ret (inr false)
  else
  zoom kml (kmemset mem 0 PGSIZE) ;;;
  let* p := gets (fun s => pid (cur s)) in
  mapShmSegPage (V2P mem) key roundedSegSize index p (Z.land shmflag 3) ;;;
  when incrementLastIndex (modify (fun s => set_last (lastShmSegIndex s + 1) s)) ;;;
  ret (inl (u32 (a + PGSIZE), index + 1)).

Definition allocShmSeg (segmentSize key shmflag : Z) : M shst Z :=
  if (segmentSize <? SHMMIN) || (MAXSEGSIZE <? segmentSize) then ret EINVAL else
  let roundedSegSize := PGROUNDUP segmentSize in
  let reqPages := roundedSegSize / PGSIZE in
  let* last := gets lastShmSegIndex in
  let* idx := find_run (fun i => let* d := get_seg i in ret (__key (shm_perm d) =? -1))
                (last + 1) reqPages in
  let index := if idx =? -1 then last + 1 else idx in
  let incrementLastIndex := idx =? -1 in
  if SHMMAXSEG <? index + reqPages then ret ENOSPC else
  let shmid := index in
  let* ok := iter (Z.to_nat reqPages + 1)%nat
    (allocShmSeg_step roundedSegSize key shmflag incrementLastIndex) (0, index) in
  if negb ok then ret (-1) else
  modify (fun s => set_info (i32 (used_ids s + 1)) (u32 (lastShmSegIndex s + 1)) s) ;;;
  ret shmid.

(** One turn of the attachment loop. *)
Definition allocshmuvm_step (id shmaddr si shmflag i : Z) : M shst (option Z) :=
  let va := shmaddr + PGSIZE * i in
  put_att (si + i) (mkatt 1 id) ;;;
  let* pg := gets (fun s => pgdir (cur s)) in
  let* d := get_seg (id + i) in
  let* m := zoom kml (mappages pg va PGSIZE (V2P (pa d))
              (if has shmflag 2 then Z.lor PTE_W PTE_U else PTE_U)) in
  if m <? 0 then
    zoom kml (deallocuvm pg (u32 va) (u32 shmaddr)) ;;;
    ret (Some ENOMEM)
  else
  let* t := gets stamp in
  let* p := gets (fun s => pid (cur s)) in
  upd_seg (id + i) (fun d =>
    mkds (shm_perm d) (shm_segsz d) t (shm_dtime d) t (shm_cpid d) p
      (u32 (shm_nattch d + 1)) (pa d)) ;;;
  ret None.

(** The error return leaves the lock held. *)
Definition allocshmuvm (id shmaddr reqPages si shmflag : Z) : M shst Z :=
  cmostime ;;;
  shm_acquire ;;;
  let* e := for_exit 0 reqPages (allocshmuvm_step id shmaddr si shmflag) in
  match e with
  | Some x => ret x
  | None => shm_release ;;; ret shmaddr
  end.

(** Printing the table: one line per run of slots with the same key. *)
Definition shminfoHelper : M shst unit :=
  let* last := gets lastShmSegIndex in
  sprintf "--------------- Shared Memory Segments ---------------\n" [] ;;;
  sprintf "Last segment index: %d\n" [CInt last] ;;;
  sprintf "------------------------------------------------------\n" [] ;;;
  if last =? -1 then ret tt else
  sprintf "Key \t Shmid \t Size \t nattach \t lpid\n\n" [] ;;;
  iter (Z.to_nat (last + 1) + 1)%nat (fun '(i, lastKey) =>
    if negb (i <=? last) then ret (inr tt) else
    let* d := get_seg i in
    let currentKey := __key (shm_perm d) in
    if currentKey =? -1 then ret (inl (i + 1, lastKey)) else
    if lastKey =? currentKey then ret (inl (i + 1, lastKey)) else
    sprintf "%d \t %d \t %d \t %d \t\t %d\n"
      [CInt currentKey; CInt i; CInt (shm_segsz d); CInt (shm_nattch d); CInt (shm_lpid d)] ;;;
    ret (inl (i + 1, currentKey))) (0, -1).

(** The search for a key: index of the first slot that carries it. *)
Definition find_key (key : Z) : M shst (option Z) :=
  let* last := gets lastShmSegIndex in
  for_exit 0 (last + 1) (fun i =>
    let* d := get_seg i in
    ret (if __key (shm_perm d) =? key then Some i else None)).

Definition shmgetHelper (key size shmflag : Z) : M shst Z :=
  let* key := (if key =? IPC_PRIVATE then
                 let* k := generate_random_key in ret (i32 k)
               else ret key) in
  let* found := find_key key in
  if shmflag =? Z.lor IPC_CREAT IPC_EXCL then
    match found with
    | Some _ => ret EEXIST
    | None => allocShmSeg size key shmflag
    end
  else if shmflag =? IPC_CREAT then
    match found with
    | Some i =>
        let* d := get_seg i in
        if shm_segsz d <=? size then ret i
        else if negb (size <? shm_segsz d) then ret EINVAL
        else allocShmSeg size key shmflag
    | None => allocShmSeg size key shmflag
    end
  else
    match found with
    | Some i => ret i
    | None => ret ENOENT
    end.

(** The comparison with [KERNBASE] is unsigned, the one with [HEAPLIMIT]
    signed.  With an aligned address and a flag other than [SHM_RND] the
    variable [va] keeps its initial 0. *)
Definition shmatHelper (id shmaddr shmflag : Z) : M shst Z :=
  let* last := gets lastShmSegIndex in
  if (id <? 0) || (last <? id) then ret EINVAL else
  let* d := get_seg id in
  let segsz := i32 (shm_segsz d) in
  if segsz =? 0 then ret EIDRM else
  let reqPages := cdiv segsz PGSIZE in
  let attach va si :=
    let* va' := allocshmuvm id va reqPages si shmflag in
    if va' =? 0 then ret ENOMEM else ret va' in
  if shmaddr =? 0 then
    let* index := find_run (fun i => let* a := get_att i in ret (isAttached a =? 0))
                    SHMMAXSEG reqPages in
    if index =? -1 then ret ENOMEM else
    attach (index * PGSIZE + HEAPLIMIT) index
  else
  if (KERNBASE <? u32 shmaddr) || (shmaddr <? HEAPLIMIT) then ret EINVAL else
  if negb (shmflag =? SHM_RND) && negb (crem shmaddr PGSIZE =? 0) then ret EINVAL else
  let va := if shmflag =? SHM_RND then PGROUNDDOWN shmaddr else 0 in
  let given_si := cdiv (i32 (va - HEAPLIMIT)) PGSIZE in
  let* busy := for_exit given_si reqPages (fun i =>
    let* a := get_att i in
    ret (if isAttached a =? 1 then Some EINVAL else None)) in
  match busy with
  | Some e => ret e
  | None => attach va given_si
  end.

Definition shmdtHelper (shmaddr : Z) : M shst Z :=
  if (shmaddr <? HEAPLIMIT) || (KERNBASE <? u32 shmaddr) then ret EINVAL else
  cmostime ;;;
  let si := u32 (u32 shmaddr - HEAPLIMIT) / PGSIZE in
  let* a := get_att si in
  if isAttached a =? 0 then ret EINVAL else
  let id := shmid a in
  put_att si (mkatt 0 (-1)) ;;;
  let* d := get_seg id in
  let reqPages := cdiv (i32 (shm_segsz d)) PGSIZE in
  shm_acquire ;;;
  for_up 0 reqPages (fun i =>
    let* a := get_att (si + i) in
    put_att (si + i) (mkatt 0 (shmid a)) ;;;
    let* t := gets stamp in
    let* p := gets (fun s => pid (cur s)) in
    upd_seg (id + i) (fun d =>
      mkds (shm_perm d) (shm_segsz d) (shm_atime d) t (shm_ctime d) (shm_cpid d) p
        (u32 (shm_nattch d - 1)) (pa d)) ;;;
    let* pg := gets (fun s => pgdir (cur s)) in
    zoom kml (clearmapping pg (u32 ((si + i) * PGSIZE + HEAPLIMIT)))) ;;;
  upd_seg id (fun d => ds_mode (Z.lor (mode (shm_perm d)) SHM_DEST) d) ;;;
  shm_release ;;;
  ret 0.

(** [struct ipc_info] *)
Definition ipc_info : list (string * Z) :=
  [ ("shmmax"%string, MAXSEGSIZE); ("shmmin"%string, SHMMIN); ("shmmni"%string, SHMMAXSEG);
    ("shmseg"%string, SHMMAXSEG); ("shmall"%string, SHMMAXSEG) ].

(** [buf] is the caller's structure, returned as the call leaves it. *)
Definition shmctlHelper (id cmd : Z) (buf : shmid_ds) : M shst (Z * shmid_ds) :=
  let* last := gets lastShmSegIndex in
  if (id <? 0) || (last <? id) then ret (EINVAL, buf) else
  let* d := get_seg id in
  if __key (shm_perm d) =? -1 then ret (EIDRM, buf) else
  if cmd =? IPC_STAT then
    ret (0, mkds (shm_perm d) (shm_segsz d) (shm_atime d) (shm_dtime d) (shm_ctime d)
              (shm_cpid d) (shm_lpid d) (shm_nattch d) (pa buf))
  else if cmd =? IPC_SET then
    if has (mode (shm_perm d)) SHM_R then ret (-1, buf) else
    let reqPages := shm_segsz buf / PGSIZE in
    shm_acquire ;;;
    for_up 0 reqPages (fun i =>
      upd_seg (id + i) (fun d =>
        mkds (shm_perm buf) (shm_segsz buf) (shm_atime buf) (shm_dtime buf) (shm_ctime buf)
          (shm_cpid buf) (shm_lpid buf) (shm_nattch buf) (pa d))) ;;;
    shm_release ;;;
    ret (0, buf)
  else if cmd =? IPC_RMID then
    let reqPages := shm_segsz d / PGSIZE in
    for_up 0 reqPages (fun i =>
      upd_seg (id + i) (fun d => ds_mode (Z.lor (mode (shm_perm d)) SHM_DEST) d)) ;;;
    ret (0, buf)
  else if cmd =? IPC_INFO then
    sprintf "ipc_info.shmmax: %d\n" [CInt MAXSEGSIZE] ;;;
    sprintf "ipc_info.shmmin: %d\n" [CInt SHMMIN] ;;;
    sprintf "ipc_info.shmmni: %d\n" [CInt SHMMAXSEG] ;;;
    sprintf "ipc_info.shmseg: %d\n" [CInt SHMMAXSEG] ;;;
    sprintf "ipc_info.shmall: %d\n" [CInt SHMMAXSEG] ;;;
    ret (last, buf)
  else if cmd =? SHM_INFO then
    let* u := gets used_ids in
    let* t := gets shm_tot in
    sprintf "shm_info.used_ids: %d\n" [CInt u] ;;;
    sprintf "shm_info.shm_tot: %d\n" [CInt t] ;;;
    ret (last, buf)
  else ret (0, buf).

Definition freeshmPages (id : Z) : M shst unit :=
  let* d := get_seg id in
  let reqPages := shm_segsz d / PGSIZE in
  for_up 0 reqPages (fun i =>
    let* d := get_seg (id + i) in
    put_seg (id + i) (mkds (mkperm (-1) 0) 0 (-1) (-1) (-1) (-1) (-1) 0 (pa d)) ;;;
    zoom kml (kfree (V2P (pa d))) ;;;
    put_seg (id + i) (mkds (mkperm (-1) 0) 0 (-1) (-1) (-1) (-1) (-1) 0 0)).

(** With [flag] 1 the identifier is a key; [i] is the index the search
    stopped at. *)
Definition removeshmHelper (shm_identifier flag : Z) : M shst Z :=
  let* last := gets lastShmSegIndex in
  let* '(id, i) :=
    (if flag =? 1 then
       let* f := find_key shm_identifier in
       match f with
       | Some i => sprintf "shmid: %d\n" [CInt i] ;;; ret (i, i)
       | None => ret (shm_identifier, Z.max 0 (last + 1))
       end
     else ret (shm_identifier, 0)) in
  if (i =? last + 1) || (id =? last + 1) then
    sprintf "Invalid key or shmid!\n" [] ;;; ret (-1)
  else
  let* d := get_seg id in
  let reqPages := shm_segsz d / PGSIZE in
  for_up 0 reqPages (fun i => upd_seg (id + i) (ds_mode SHM_DEST)) ;;;
  let* d := get_seg id in
  if (shm_nattch d =? 0) && has (mode (shm_perm d)) SHM_DEST then
    freeshmPages id ;;; ret 0
  else ret (-1).

End Shm.
