(* ===== verification/ShmFacts.v ===== *)
(** * Shared memory: segments, invariant, and the calls

    The abstract view of [shmpgtable] is a map [segs] from identifiers to
    segments (key and list of physical pages).  [shm_inv] relates it to the
    table: every segment occupies its slots, segments do not overlap, every
    other slot up to [lastShmSegIndex] is free, and the pages of all
    segments are distinct and not on the allocator's free list. *)

From stdpp Require Import base tactics numbers gmap strings list.
From Stdlib Require Import ZArith Lia.
From S2P Require Import Prelude Mmu Memory Spinlock Kalloc Vm VmFacts Shm.

(** ** First fit *)

(** [n] consecutive slots from [a] on which [f] holds. *)
Definition run (f : Z -> bool) (a n : Z) : Prop := forall j, a <= j < a + n -> f j = true.

Lemma wp_find_run {S} (isfree : Z -> M S bool) (f : Z -> bool) hi req (Q : Z -> S -> Prop) s :
  0 <= hi -> 1 <= req ->
  (forall i, 0 <= i < hi -> isfree i s = Ret (f i) s) ->
  ((forall a, 0 <= a -> a + req <= hi -> ~ run f a req) -> Q (-1) s) ->
  (forall r, 0 <= r -> r + req <= hi -> run f r req ->
     (forall a, 0 <= a < r -> ~ run f a req) -> Q r s) ->
  wp (find_run isfree hi req) Q s.
Proof.
  intros Hhi Hreq Hf H0 H1. unfold find_run.
  apply (wp_iter (fun '(i, si, zc) s' => s' = s /\ 0 <= i <= hi /\ 0 <= zc < req /\
      (zc = 0 /\ si = -1 /\ (0 < i -> f (i - 1) = false) \/
       0 < zc /\ 0 <= si /\ zc = i - si /\ run f si zc /\ (0 < si -> f (si - 1) = false)) /\
      (forall a, 0 <= a -> a + req <= i -> ~ run f a req))
    (fun '(i, _, _) => Z.to_nat (hi - i))).
  2:{ split; [done|]. split; [lia|]. split; [lia|]. split; [left; lia|lia]. }
  2:{ lia. }
  intros [[i si] zc] s' (-> & Hi & Hzc & Hcase & Hno). destruct (i <? hi) eqn:Hlt; bprop; cbn [negb].
  2:{ apply wp_ret. assert (i = hi) as -> by lia. by apply H0. }
  apply wp_bind. eapply wp_of_eq; [apply Hf; lia|]. destruct (f i) eqn:Hfi.
  - assert (exists si', (if si =? -1 then i else si) = si' /\ 0 <= si' /\ zc + 1 = i + 1 - si' /\
        run f si' (zc + 1) /\ (0 < si' -> f (si' - 1) = false)) as (si' & -> & Hsi & Hz & Hrun & Hbf).
    { destruct Hcase as [(-> & -> & Hb)|(Hp & Hsi & -> & Hr & Hb)].
      - exists i. split_and!; try done; try lia. intros j Hj. by replace j with i by lia.
      - exists si. rewrite (proj2 (Z.eqb_neq si (-1))) by lia. split_and!; try done; try lia.
        intros j Hj. destruct (decide (j = i)) as [->|]; [done|]. apply Hr. lia. }
    destruct (zc + 1 =? req) eqn:Hq; bprop; apply wp_ret.
    + apply H1; [done|lia|by rewrite <- Hq|]. intros a Ha Hra.
      destruct (Z.le_gt_cases (a + req) i); [by apply (Hno a); [lia|lia|]|].
      specialize (Hra (si' - 1) ltac:(lia)). rewrite Hbf in Hra by lia. done.
    + split; [|lia]. split; [done|]. split; [lia|]. split; [lia|]. split.
      * right. split_and!; try lia; done.
      * intros a Ha Hle Hra. destruct (Z.le_gt_cases (a + req) i); [by apply (Hno a)|].
        specialize (Hra (si' - 1) ltac:(lia)). rewrite Hbf in Hra by lia. done.
  - apply wp_ret. split; [|lia]. split; [done|]. split; [lia|]. split; [lia|]. split.
    + left. split_and!; try done. intros _. by replace (i + 1 - 1) with i by lia.
    + intros a Ha Hle Hra. destruct (Z.le_gt_cases (a + req) i); [by apply (Hno a)|].
      specialize (Hra i ltac:(lia)). by rewrite Hfi in Hra.
Qed.

(** ** The table invariant *)

Record seg := mkseg { sg_key : Z; sg_pages : list Z }.

Definition sg_n (g : seg) : Z := Z.of_nat (length (sg_pages g)).

(** Slot [i] lies in segment [g] with identifier [id]. *)
Definition in_seg (id : Z) (g : seg) (i : Z) : Prop := id <= i < id + sg_n g.

Section ShmFacts.
Context {L : Layout}.

(** Slot [d] is page [p] of a segment with [n] pages. *)
Definition slot_ok (key n p : Z) (d : shmid_ds) : Prop :=
  __key (shm_perm d) = key /\ shm_segsz d = PGSIZE * n /\ pa d = V2P p.

Definition slot_free (d : shmid_ds) : Prop := __key (shm_perm d) = -1 /\ shm_segsz d = 0.

Record tab_inv (a : arr shmid_ds) (last : Z) (segs : gmap Z seg) : Prop := {
  ti_last : -1 <= last < SHMMAXSEG;
  ti_seg : forall id g, segs !! id = Some g ->
    0 <= id /\ 1 <= sg_n g /\ id + sg_n g <= last + 1 /\ sg_key g <> -1;
  ti_slot : forall id g j p, segs !! id = Some g -> sg_pages g !! j = Some p ->
    slot_ok (sg_key g) (sg_n g) p a.[id + Z.of_nat j] /\ page_ok p;
  ti_disj : forall id g id' g' i, segs !! id = Some g -> segs !! id' = Some g' ->
    in_seg id g i -> in_seg id' g' i -> id = id';
  ti_free : forall i, 0 <= i <= last ->
    (forall id g, segs !! id = Some g -> ~ in_seg id g i) -> slot_free a.[i];
  ti_pages : forall id g j id' g' j' p, segs !! id = Some g -> segs !! id' = Some g' ->
    sg_pages g !! j = Some p -> sg_pages g' !! j' = Some p -> id = id' /\ j = j'
}.

Definition seg_page (segs : gmap Z seg) (q : Z) : Prop :=
  exists id g, segs !! id = Some g /\ q ∈ sg_pages g.

Record shm_inv (s : shst) (l : list Z) (segs : gmap Z seg) : Prop := {
  si_kmem : kmem_inv (km s) l;
  si_lock : lock s = false;
  si_tab : tab_inv (shm_segs s) (lastShmSegIndex s) segs;
  si_own : forall q, seg_page segs q -> q ∉ l
}.

(** ** Reading the table *)

Lemma get_seg_eq i s : 0 <= i < SHMMAXSEG -> get_seg i s = Ret (shm_segs s).[i] s.
Proof.
  intros Hi. unfold get_seg, aget.
  by rewrite (proj2 (Z.leb_le 0 i)), (proj2 (Z.ltb_lt i _)) by lia.
Qed.

Lemma put_seg_eq i d s : 0 <= i < SHMMAXSEG ->
  put_seg i d s = Ret tt (set_segs (<[i := d]> (shm_segs s)) s).
Proof.
  intros Hi. unfold put_seg, aset.
  by rewrite (proj2 (Z.leb_le 0 i)), (proj2 (Z.ltb_lt i _)) by lia.
Qed.

Lemma upd_seg_eq i f s : 0 <= i < SHMMAXSEG ->
  upd_seg i f s = Ret tt (set_segs (<[i := f (shm_segs s).[i]]> (shm_segs s)) s).
Proof. intros Hi. unfold upd_seg, bind. by rewrite get_seg_eq, put_seg_eq. Qed.

(** A slot of the table is either free or in exactly one segment. *)
Lemma slot_cases a last segs i : tab_inv a last segs -> 0 <= i <= last ->
  slot_free a.[i] \/
  exists id g j p, segs !! id = Some g /\ i = id + Z.of_nat j /\ sg_pages g !! j = Some p /\
    slot_ok (sg_key g) (sg_n g) p a.[i] /\ sg_key g <> -1.
Proof.
  intros Ht Hi.
  destruct (decide (Exists (fun '(id, g) => in_seg id g i) (map_to_list segs))) as [He|He].
  - right. apply Exists_exists in He as ([id g] & Hin & Hs).
    apply elem_of_map_to_list in Hin. unfold in_seg, sg_n in Hs.
    destruct (lookup_lt_is_Some_2 (sg_pages g) (Z.to_nat (i - id))) as [p Hp]; [lia|].
    exists id, g, (Z.to_nat (i - id)), p. destruct (ti_slot _ _ _ Ht _ _ _ _ Hin Hp) as [Hok _].
    destruct (ti_seg _ _ _ Ht _ _ Hin) as (_ & _ & _ & Hk).
    replace (id + Z.of_nat (Z.to_nat (i - id))) with i in * by lia. done.
  - left. apply (ti_free _ _ _ Ht); [done|]. intros id g Hg Hs. apply He, Exists_exists.
    exists (id, g). split; [by apply elem_of_map_to_list|done].
Qed.

(** The first slot of a segment. *)
Lemma seg_head a last segs id g : tab_inv a last segs -> segs !! id = Some g ->
  __key (shm_perm a.[id]) = sg_key g /\ shm_segsz a.[id] = PGSIZE * sg_n g /\ 0 <= id <= last.
Proof.
  intros Ht Hg. destruct (ti_seg _ _ _ Ht _ _ Hg) as (H0 & H1 & H2 & _).
  destruct (lookup_lt_is_Some_2 (sg_pages g) 0) as [p Hp]; [unfold sg_n in H1; lia|].
  destruct (ti_slot _ _ _ Ht _ _ _ _ Hg Hp) as [(Hk & Hs & _) _].
  rewrite Z.add_0_r in Hk, Hs. split_and!; try done; lia.
Qed.

(** [find_key] finds the segment with the key that comes first. *)
Lemma wp_find_key key s segs (Q : option Z -> shst -> Prop) :
  tab_inv (shm_segs s) (lastShmSegIndex s) segs -> key <> -1 ->
  ((forall id g, segs !! id = Some g -> sg_key g <> key) -> Q None s) ->
  (forall id g, segs !! id = Some g -> sg_key g = key ->
     (forall id' g', segs !! id' = Some g' -> sg_key g' = key -> id <= id') -> Q (Some id) s) ->
  wp (find_key key) Q s.
Proof.
  intros Ht Hkey H0 H1. unfold find_key. apply wp_bind, wp_gets.
  pose proof (ti_last _ _ _ Ht) as Hl.
  apply (wp_for_exit (fun i s' => s' = s /\ forall j, 0 <= j < i ->
           __key (shm_perm (shm_segs s).[j]) <> key)).
  - split; [done|]. lia.
  - intros i s' Hi [-> Hno]. apply wp_bind. eapply wp_of_eq; [apply get_seg_eq; lia|].
    apply wp_ret. destruct (_ =? key) eqn:Hk; bprop.
    + destruct (slot_cases _ _ _ i Ht ltac:(lia)) as [[Hf _]|(id & g & j & p & Hg & Hij & Hp & (Hsk & _) & _)];
        [congruence|].
      assert (j = 0%nat) as ->.
      { destruct j as [|j]; [done|]. exfalso.
        destruct (lookup_lt_is_Some_2 (sg_pages g) j) as [p' Hp'];
          [apply lookup_lt_Some in Hp; lia|].
        destruct (ti_slot _ _ _ Ht _ _ _ _ Hg Hp') as [(Hk' & _) _].
        destruct (ti_seg _ _ _ Ht _ _ Hg) as (Hid & _).
        apply (Hno (id + Z.of_nat j)); [lia|]. congruence. }
      rewrite Z.add_0_r in Hij. subst i. eapply H1; [exact Hg|congruence|].
      intros id' g' Hg' Hk'. destruct (seg_head _ _ _ _ _ Ht Hg') as (Hh & _ & Hr).
      destruct (Z.le_gt_cases id id'); [done|]. exfalso. apply (Hno id'); [lia|congruence].
    + split; [done|]. intros j Hj. destruct (decide (j = i)) as [->|]; [done|]. apply Hno. lia.
  - intros s' [-> Hno]. apply H0. intros id g Hg Hk.
    destruct (seg_head _ _ _ _ _ Ht Hg) as (Hh & _ & Hr). apply (Hno id); [lia|congruence].
Qed.

(** ** Creating a segment *)

(** The slot [mapShmSegPage] writes. *)
Definition new_slot (key n flag pd p : Z) : shmid_ds :=
  mkds (mkperm key (u32 (Z.land flag 3))) (PGSIZE * n) (-1) (-1) (-1) (-1) pd 0 (V2P p).

(** The rest of the state a creation does not touch. *)
Definition same_rest (s s' : shst) : Prop :=
  cur s' = cur s /\ r s' = r s /\ rtc s' = rtc s /\ ticks s' = ticks s.

(** [k] pages of the new segment are in place. *)
Record alloc_progress (s0 : shst) (l : list Z) (key n flag index : Z) (inc : bool) (k : Z)
    (s : shst) : Prop := {
  ap_kmem : kmem_inv (km s) (drop (Z.to_nat k) l);
  ap_lock : lock s = false;
  ap_last : lastShmSegIndex s = if inc then lastShmSegIndex s0 + k else lastShmSegIndex s0;
  ap_rest : same_rest s0 s;
  ap_info : used_ids s = used_ids s0 /\ shm_tot s = shm_tot s0;
  ap_slots : forall i, (shm_segs s).[i] =
    if decide (index <= i < index + k) then
      new_slot key n flag (pid (cur s0)) (default 0 (l !! Z.to_nat (i - index)))
    else (shm_segs s0).[i];
  ap_zero : forall j p, 0 <= j < k -> l !! Z.to_nat j = Some p -> page_zero (mem (km s)) p;
  ap_frame : frame (fun q => q ∈ take (Z.to_nat k) l) (mem (km s0)) (mem (km s))
}.

(** [mapShmSegPage] fills one slot. *)
Lemma mapShmSegPage_eq s pa key n index pd fl : lock s = false -> 0 <= index < SHMMAXSEG ->
  0 <= n <= SHMMAXSEG ->
  mapShmSegPage pa key (PGSIZE * n) index pd fl s =
  Ret index (set_segs (<[index := mkds (mkperm key (u32 fl)) (PGSIZE * n) (-1) (-1) (-1) (-1) pd 0 pa]>
     (shm_segs s)) s).
Proof.
  intros Hl Hi Hn. unfold mapShmSegPage, bind, shm_acquire, shm_release, Lock.acquire, Lock.release.
  rewrite Hl. rewrite put_seg_eq by done. rewrite (u32_small (PGSIZE * n)) by mlia.
  destruct s. cbn in *. by subst.
Qed.

Lemma take_S_elem (l : list Z) k p : l !! k = Some p -> take (S k) l = take k l ++ [p].
Proof. apply take_S_r. Qed.

(** One turn: the next free page becomes the next page of the segment. *)
Lemma wp_alloc_step s0 l key n flag index inc k s p Q :
  alloc_progress s0 l key n flag index inc k s -> kmem_inv (km s0) l ->
  0 <= k < n -> 0 <= index -> index + n <= SHMMAXSEG ->
  l !! Z.to_nat k = Some p ->
  (forall s', alloc_progress s0 l key n flag index inc (k + 1) s' ->
     Q (inl (PGSIZE * (k + 1), index + (k + 1))) s') ->
  wp (allocShmSeg_step (PGSIZE * n) key flag inc (PGSIZE * k, index + k)) Q s.
Proof.
  intros [Hk Hlk Hlast Hrest Hinfo Hsl Hz Hf] Hk0 Hkn Hidx Hmax Hp HQ.
  unfold allocShmSeg_step. rewrite (proj2 (Z.eqb_neq (PGSIZE * k) (PGSIZE * n))) by mlia.
  assert (drop (Z.to_nat k) l = p :: drop (Z.to_nat (k + 1)) l) as Hdrop.
  { rewrite (drop_S _ _ _ Hp). by replace (S (Z.to_nat k)) with (Z.to_nat (k + 1)) by lia. }
  rewrite Hdrop in Hk. apply wp_bind, wp_zoom.
  eapply wp_kalloc; [exact Hk|done|]. intros p' l' k1 [= <- <-] Hpok Hnin Hk1 Ek1.
  pose proof (page_ok_range p Hpok). rewrite (proj2 (Z.eqb_neq p 0)) by mlia.
  apply wp_bind, wp_zoom, wp_modify, wp_bind, wp_gets.
  set (s1 := lset kml _ _). apply wp_bind.
  eapply wp_of_eq; [apply mapShmSegPage_eq; [done|lia|mlia]|].
  apply wp_bind.
  assert (forall b s2, wp (when inc (modify (fun s => set_last (lastShmSegIndex s + 1) s)))
            b s2 <-> b tt (if inc then set_last (lastShmSegIndex s2 + 1) s2 else s2)) as Hwhen
    by (intros b s2; by destruct inc). apply Hwhen. apply wp_ret.
  replace (u32 (PGSIZE * k + PGSIZE)) with (PGSIZE * (k + 1)) by (rewrite u32_small; mlia).
  replace (index + k + 1) with (index + (k + 1)) by lia. apply HQ.
  set (m' := StringC.memset (mem k1) p 0 PGSIZE).
  assert (mem k1 = mem (km s)) as Emem by by rewrite Ek1.
  assert (frame (eq p) (mem (km s)) m') as Hfp
    by (unfold m'; rewrite Emem; apply memset_frame, Hpok).
  assert (NoDup l) as Hnd by apply Hk0.
  assert (forall s3, km s3 = set_mem m' k1 -> cur s3 = cur s -> r s3 = r s -> rtc s3 = rtc s ->
     ticks s3 = ticks s -> used_ids s3 = used_ids s -> shm_tot s3 = shm_tot s ->
     lock s3 = false -> lastShmSegIndex s3 = (if inc then lastShmSegIndex s + 1 else lastShmSegIndex s) ->
     shm_segs s3 = <[index + k := new_slot key n flag (pid (cur s)) p]> (shm_segs s) ->
     alloc_progress s0 l key n flag index inc (k + 1) s3) as Hgo.
  { intros s3 Ekm Ecur Er Ertc Et Eu Etot El Elast Esegs. destruct Hrest as (Rc & Rr & Rrtc & Rt).
    split; try done.
    - rewrite Ekm. eapply kmem_frame; [exact Hk1| | |done|done].
      + cbn [mem set_mem]. rewrite Emem. exact Hfp.
      + intros q Hq <-. done.
    - rewrite Elast, Hlast. destruct inc; lia.
    - unfold same_rest. split_and!; congruence.
    - destruct Hinfo. split; congruence.
    - intros i. rewrite Esegs, asel_insert. case_decide as Hi.
      + subst i. case_decide; [|lia]. replace (index + k - index) with k by lia.
        rewrite Hp. cbn. by rewrite Rc.
      + rewrite Hsl. repeat case_decide; try lia; done.
    - intros j q Hj Hq. rewrite Ekm. cbn [mem set_mem].
      destruct (decide (j = k)) as [->|Hjk].
      + rewrite Hp in Hq. injection Hq as <-. apply memset_page_zero.
      + eapply page_zero_frame; [apply (Hz j q); [lia|done]| |exact Hfp|].
        * destruct Hk0 as [Hr0 _ _]. pose proof (free_rep_pages _ _ _ Hr0) as Hall.
          by eapply Forall_lookup_1.
        * intros <-. pose proof (NoDup_lookup l (Z.to_nat j) (Z.to_nat k) p Hnd Hq Hp). lia.
    - rewrite Ekm. cbn [mem set_mem].
      replace (Z.to_nat (k + 1)) with (S (Z.to_nat k)) by lia. rewrite (take_S_elem _ _ _ Hp).
      eapply frame_trans.
      + eapply frame_weaken; [|exact Hf]. intros q Hq. rewrite elem_of_app. by left.
      + eapply frame_weaken; [|exact Hfp]. intros q <-. rewrite elem_of_app, list_elem_of_singleton.
        by right. }
  destruct inc; apply Hgo; done.
Qed.

(** Where a new segment of [n] pages may go: a run of free slots, or the end
    of the table, which grows. *)
Definition room (a : arr shmid_ds) (last index n : Z) (inc : bool) : Prop :=
  if inc then index = last + 1
  else 0 <= index /\ index + n <= last + 1 /\
       run (fun i => __key (shm_perm a.[i]) =? -1) index n.

Definition grown (last n : Z) (inc : bool) : Z := if inc then last + n else last.

Lemma room_disj a last segs index n inc id g i : tab_inv a last segs ->
  room a last index n inc -> segs !! id = Some g -> in_seg id g i -> ~ index <= i < index + n.
Proof.
  intros Ht Hr Hg Hi Hin. destruct (ti_seg _ _ _ Ht _ _ Hg) as (Hid & Hn & Hl & Hk).
  unfold in_seg, sg_n in *. destruct inc; cbn [room] in Hr; [lia|]. destruct Hr as (_ & _ & Hr).
  destruct (lookup_lt_is_Some_2 (sg_pages g) (Z.to_nat (i - id))) as [p Hp]; [lia|].
  destruct (ti_slot _ _ _ Ht _ _ _ _ Hg Hp) as [(Hk' & _) _].
  replace (id + Z.of_nat (Z.to_nat (i - id))) with i in Hk' by lia.
  specialize (Hr i Hin). cbv beta in Hr. bprop. congruence.
Qed.

(** Filling the room keeps the table in order. *)
Lemma tab_inv_add a last segs a' index inc key flag pd ps n :
  tab_inv a last segs -> n = Z.of_nat (length ps) -> key <> -1 -> 1 <= n -> index + n <= SHMMAXSEG ->
  room a last index n inc ->
  Forall page_ok ps -> NoDup ps -> (forall q, q ∈ ps -> ~ seg_page segs q) ->
  (forall i, a'.[i] = if decide (index <= i < index + n)
     then new_slot key n flag pd (default 0 (ps !! Z.to_nat (i - index))) else a.[i]) ->
  tab_inv a' (grown last n inc) (<[index := mkseg key ps]> segs).
Proof.
  intros Ht En Hkey Hn Hmax Hroom Hpok Hnd Hnew Ha.
  pose proof (ti_last _ _ _ Ht) as Hl.
  assert (0 <= index /\ last <= grown last n inc /\ index + n <= grown last n inc + 1 /\
          grown last n inc < SHMMAXSEG) as (Hi0 & Hge & Hup & Hlt).
  { destruct inc; cbn [room grown] in *; lia. }
  assert (sg_n (mkseg key ps) = n) as Hsn by done.
  assert (forall id g i, segs !! id = Some g -> in_seg id g i -> ~ index <= i < index + n) as Hdj.
  { intros. by eapply room_disj. }
  split.
  - lia.
  - intros id g. rewrite lookup_insert. case_decide as Hid; [subst id|].
    + intros [= <-]. rewrite Hsn. done.
    + intros Hg. destruct (ti_seg _ _ _ Ht _ _ Hg) as (? & ? & ? & ?). split_and!; try done; lia.
  - intros id g j p. rewrite lookup_insert. case_decide as Hid; [subst id|].
    + intros [= <-] Hp. cbn [sg_pages sg_key] in *. rewrite Hsn, Ha.
      apply lookup_lt_Some in Hp as Hj. case_decide; [|lia].
      replace (Z.to_nat (index + Z.of_nat j - index)) with j by lia. rewrite Hp.
      split; [done|]. by eapply Forall_lookup_1.
    + intros Hg Hp. rewrite Ha. case_decide as Hin; [|by eapply ti_slot].
      exfalso. eapply Hdj; [exact Hg| |exact Hin]. unfold in_seg, sg_n.
      apply lookup_lt_Some in Hp. lia.
  - intros id g id' g' i. rewrite !lookup_insert.
    case_decide as H1; case_decide as H2; subst; intros E1 E2 S1 S2; simplify_eq; try done.
    + exfalso. by apply (Hdj _ _ _ E2 S2).
    + exfalso. by apply (Hdj _ _ _ E1 S1).
    + by eapply ti_disj.
  - intros i Hi Hno. assert (~ index <= i < index + n) as Hout.
    { intros Hin. apply (Hno index (mkseg key ps)); [by rewrite lookup_insert_eq|].
      unfold in_seg. by rewrite Hsn. }
    rewrite Ha. case_decide; [done|]. apply (ti_free _ _ _ Ht).
    + destruct inc; cbn [grown room] in *; lia.
    + intros id g Hg Hs. apply (Hno id g); [|done]. rewrite lookup_insert_ne; [done|].
      intros <-. apply (Hdj _ _ index Hg); [|lia]. destruct (ti_seg _ _ _ Ht _ _ Hg).
      unfold in_seg. lia.
  - intros id g j id' g' j' p. rewrite !lookup_insert.
    case_decide as H1; case_decide as H2; subst; intros E1 E2 S1 S2; simplify_eq;
      cbn [sg_pages] in *.
    + split; [done|]. by eapply NoDup_lookup.
    + exfalso. apply (Hnew p); [by eapply list_elem_of_lookup_2|]. exists id', g'.
      split; [done|by eapply list_elem_of_lookup_2].
    + exfalso. apply (Hnew p); [by eapply list_elem_of_lookup_2|]. exists id, g.
      split; [done|by eapply list_elem_of_lookup_2].
    + by eapply ti_pages.
Qed.

(** The allocation loop when the allocator has enough pages. *)
Lemma wp_alloc_loop s l key n flag index inc (Q : bool -> shst -> Prop) :
  kmem_inv (km s) l -> lock s = false -> 0 <= n -> n <= Z.of_nat (length l) ->
  0 <= index -> index + n <= SHMMAXSEG ->
  (forall s', alloc_progress s l key n flag index inc n s' -> Q true s') ->
  wp (iter (Z.to_nat n + 1)%nat (allocShmSeg_step (PGSIZE * n) key flag inc) (0, index)) Q s.
Proof.
  intros Hk Hlk Hn Hlen Hi Hmax HQ.
  apply (wp_iter (fun st s' => exists k, 0 <= k <= n /\ st = (PGSIZE * k, index + k) /\
           alloc_progress s l key n flag index inc k s')
         (fun '(a, _) => Z.to_nat (n - a / PGSIZE))).
  2:{ exists 0. split; [lia|]. split; [f_equal; lia|]. split; try done.
      - by destruct inc; rewrite ?Z.add_0_r.
      - intros i. case_decide; [lia|done].
      - lia. }
  2:{ mlia. }
  intros st s' (k & Hkn & -> & Hp). destruct (decide (k = n)) as [->|Hne].
  - unfold allocShmSeg_step. rewrite Z.eqb_refl. apply wp_ret. by apply HQ.
  - destruct (lookup_lt_is_Some_2 l (Z.to_nat k)) as [p Hlp]; [lia|].
    eapply wp_alloc_step; try done; try lia. intros s'' Hp'. split; [|mlia].
    exists (k + 1). split; [lia|]. done.
Qed.

(** The place first fit chooses. *)
Definition placed (a : arr shmid_ds) (last n index : Z) (inc : bool) : Prop :=
  let free i := __key (shm_perm a.[i]) =? -1 in
  room a last index n inc /\
  forall b, 0 <= b -> b + n <= (if inc then last + 1 else index + n - 1) -> ~ run free b n.

(** Pages a segment of [size] bytes takes. *)
Definition npages (size : Z) : Z := PGROUNDUP size / PGSIZE.

Lemma npages_bounds size : SHMMIN <= size <= MAXSEGSIZE ->
  PGROUNDUP size = PGSIZE * npages size /\ 1 <= npages size <= SHMMAXSEG /\
  PGSIZE * (npages size - 1) < size <= PGSIZE * npages size.
Proof. intros Hs. unfold npages. rewrite PGROUNDUP_eq by mlia. mlia. Qed.

(** Segment [index] with [n] fresh zeroed pages has been added. *)
Record created (s : shst) (l : list Z) (segs : gmap Z seg) (key n flag index : Z) (inc : bool)
    (s' : shst) : Prop := {
  cr_fresh : segs !! index = None;
  cr_inv : shm_inv s' (drop (Z.to_nat n) l)
             (<[index := mkseg key (take (Z.to_nat n) l)]> segs);
  cr_len : Z.of_nat (length (take (Z.to_nat n) l)) = n;
  cr_zero : forall p, p ∈ take (Z.to_nat n) l -> page_zero (mem (km s')) p;
  cr_frame : frame (fun q => q ∈ take (Z.to_nat n) l) (mem (km s)) (mem (km s'));
  cr_slots : forall i, (shm_segs s').[i] =
    if decide (index <= i < index + n) then
      new_slot key n flag (pid (cur s)) (default 0 (take (Z.to_nat n) l !! Z.to_nat (i - index)))
    else (shm_segs s).[i];
  cr_rest : same_rest s s';
  cr_info : used_ids s' = i32 (used_ids s + 1) /\ shm_tot s' = lastShmSegIndex s' + 1
}.

Lemma progress_created s l segs key n flag index inc s1 :
  shm_inv s l segs -> key <> -1 -> 1 <= n <= Z.of_nat (length l) -> index + n <= SHMMAXSEG ->
  room (shm_segs s) (lastShmSegIndex s) index n inc ->
  alloc_progress s l key n flag index inc n s1 ->
  created s l segs key n flag index inc
    (set_info (i32 (used_ids s1 + 1)) (u32 (lastShmSegIndex s1 + 1)) s1).
Proof.
  intros [Hk Hlk Ht Hown] Hkey Hn Hmax Hroom [Pk Plk Plast Prest Pinfo Psl Pz Pf].
  assert (Z.of_nat (length (take (Z.to_nat n) l)) = n) as Hlen by (rewrite length_take; lia).
  pose proof (free_rep_pages _ _ _ (ki_rep _ _ Hk)) as Hall.
  pose proof (ki_nodup _ _ Hk) as Hnd. rewrite <- (take_drop (Z.to_nat n) l) in Hall, Hnd.
  apply Forall_app in Hall as [Hall _]. apply NoDup_app in Hnd as (Hnd1 & Hnd2 & _).
  assert (forall i, (shm_segs s1).[i] = if decide (index <= i < index + n) then
      new_slot key n flag (pid (cur s)) (default 0 (take (Z.to_nat n) l !! Z.to_nat (i - index)))
    else (shm_segs s).[i]) as Hsl.
  { intros i. rewrite Psl. case_decide; [|done]. rewrite lookup_take. case_decide; [done|lia]. }
  assert (forall q, q ∈ take (Z.to_nat n) l -> q ∈ l) as Hin.
  { intros q Hq. rewrite <- (take_drop (Z.to_nat n) l). apply elem_of_app. by left. }
  assert (tab_inv (shm_segs s1) (lastShmSegIndex s1)
            (<[index := mkseg key (take (Z.to_nat n) l)]> segs)) as Ht1.
  { rewrite Plast. change (if inc then _ else _) with (grown (lastShmSegIndex s) n inc).
    eapply tab_inv_add; try done; [lia|]. intros q Hq Hs. by apply (Hown q Hs), Hin. }
  split; try done.
  - destruct (segs !! index) as [g|] eqn:Hg; [|done]. exfalso.
    eapply (room_disj _ _ _ _ _ _ index g index Ht Hroom Hg); [|lia].
    destruct (ti_seg _ _ _ Ht _ _ Hg). unfold in_seg. lia.
  - split; try done. intros q (id & g & Hg & Hq). rewrite lookup_insert in Hg. case_decide.
    + injection Hg as <-. by apply Hnd2.
    + intros Hd. apply (Hown q); [by exists id, g|]. rewrite <- (take_drop (Z.to_nat n) l).
      apply elem_of_app. by right.
  - intros p Hp. apply list_elem_of_lookup in Hp as [j Hj].
    rewrite lookup_take in Hj. case_decide; [|done].
    apply (Pz (Z.of_nat j)); [lia|by rewrite Nat2Z.id].
  - destruct Pinfo as [Pu _]. cbn. pose proof (ti_last _ _ _ Ht1). split; [by rewrite Pu|].
    rewrite u32_small; mlia.
Qed.

(** [allocShmSeg] when the allocator has the pages: the size check, the
    space check, and a segment placed by first fit. *)
Lemma wp_allocShmSeg s l segs size key flag (Q : Z -> shst -> Prop) :
  shm_inv s l segs -> key <> -1 ->
  (size < SHMMIN \/ MAXSEGSIZE < size -> Q EINVAL s) ->
  (SHMMIN <= size <= MAXSEGSIZE -> npages size <= Z.of_nat (length l)) ->
  (forall index inc, SHMMIN <= size <= MAXSEGSIZE ->
     placed (shm_segs s) (lastShmSegIndex s) (npages size) index inc ->
     SHMMAXSEG < index + npages size -> Q ENOSPC s) ->
  (forall index inc s', SHMMIN <= size <= MAXSEGSIZE ->
     placed (shm_segs s) (lastShmSegIndex s) (npages size) index inc ->
     index + npages size <= SHMMAXSEG ->
     created s l segs key (npages size) flag index inc s' -> Q index s') ->
  wp (allocShmSeg size key flag) Q s.
Proof.
  intros Hi Hkey H0 Hlen H1 H2. unfold allocShmSeg.
  destruct ((size <? SHMMIN) || (MAXSEGSIZE <? size)) eqn:Hsz.
  { apply orb_true_iff in Hsz. apply wp_ret, H0. destruct Hsz; bprop; auto. }
  bprop. destruct (npages_bounds size ltac:(lia)) as (Hr & Hn & _). fold (npages size).
  pose proof (ti_last _ _ _ (si_tab _ _ _ Hi)) as Hl.
  apply wp_bind, wp_gets, wp_bind.
  assert (forall index inc, placed (shm_segs s) (lastShmSegIndex s) (npages size) index inc ->
    0 <= index ->
    wp (if SHMMAXSEG <? index + npages size then ret ENOSPC else
        let* ok := iter (Z.to_nat (npages size) + 1)%nat
          (allocShmSeg_step (PGROUNDUP size) key flag inc) (0, index) in
        if negb ok then ret (-1) else
        modify (fun s => set_info (i32 (used_ids s + 1)) (u32 (lastShmSegIndex s + 1)) s) ;;;
        ret index) Q s) as Hgo.
  { intros index inc Hp Hix. destruct (SHMMAXSEG <? _) eqn:Hsp; bprop.
    - apply wp_ret. eapply H1; eauto.
    - rewrite Hr. apply wp_bind. eapply wp_alloc_loop; try apply Hi; try lia.
      intros s1 Hs1. cbn [negb]. apply wp_bind, wp_modify, wp_ret. eapply H2; [lia|exact Hp|lia|].
      eapply progress_created; try done; [lia|apply Hp]. }
  eapply (wp_find_run _ (fun i => __key (shm_perm (shm_segs s).[i]) =? -1)); try lia.
  - intros i Hib. unfold bind. rewrite get_seg_eq by lia. done.
  - intros Hno. rewrite Z.eqb_refl. apply (Hgo _ true); [|lia]. split; done.
  - intros i Hi0 Hir Hrun Hfirst. rewrite (proj2 (Z.eqb_neq i (-1))) by lia.
    apply (Hgo i false); [|done]. split; [done|]. intros b Hb Hbn. apply Hfirst. lia.
Qed.

(** ** [shmget] *)

(** [id] is the first segment with the key. *)
Definition key_first (segs : gmap Z seg) (key id : Z) : Prop :=
  (exists g, segs !! id = Some g /\ sg_key g = key) /\
  forall id' g', segs !! id' = Some g' -> sg_key g' = key -> id <= id'.

Definition key_unused (segs : gmap Z seg) (key : Z) : Prop :=
  forall id g, segs !! id = Some g -> sg_key g <> key.

(** The outcomes of an attempt to create a segment. *)
Inductive create_result (s : shst) (l : list Z) (segs : gmap Z seg) (key size flag : Z) :
    Z -> shst -> gmap Z seg -> list Z -> Prop :=
| cres_size : size < SHMMIN \/ MAXSEGSIZE < size ->
    create_result s l segs key size flag EINVAL s segs l
| cres_full index inc : SHMMIN <= size <= MAXSEGSIZE ->
    placed (shm_segs s) (lastShmSegIndex s) (npages size) index inc ->
    SHMMAXSEG < index + npages size ->
    create_result s l segs key size flag ENOSPC s segs l
| cres_ok index inc s' : SHMMIN <= size <= MAXSEGSIZE ->
    placed (shm_segs s) (lastShmSegIndex s) (npages size) index inc ->
    index + npages size <= SHMMAXSEG ->
    created s l segs key (npages size) flag index inc s' ->
    create_result s l segs key size flag index s'
      (<[index := mkseg key (take (Z.to_nat (npages size)) l)]> segs)
      (drop (Z.to_nat (npages size)) l).

(** The flags with which [shmget] may create a segment. *)
Definition creates (flag : Z) : Prop := flag = Z.lor IPC_CREAT IPC_EXCL \/ flag = IPC_CREAT.

(** The outcomes of [shmget] on a key. *)
Inductive get_result (s : shst) (l : list Z) (segs : gmap Z seg) (key size flag : Z) :
    Z -> shst -> gmap Z seg -> list Z -> Prop :=
| gres_exists id : flag = Z.lor IPC_CREAT IPC_EXCL -> key_first segs key id ->
    get_result s l segs key size flag EEXIST s segs l
| gres_found id g : flag <> Z.lor IPC_CREAT IPC_EXCL -> key_first segs key id ->
    segs !! id = Some g -> (flag = IPC_CREAT -> PGSIZE * sg_n g <= size) ->
    get_result s l segs key size flag id s segs l
| gres_none : flag <> Z.lor IPC_CREAT IPC_EXCL -> flag <> IPC_CREAT -> key_unused segs key ->
    get_result s l segs key size flag ENOENT s segs l
| gres_create r s' segs' l' : creates flag -> key_unused segs key -> create_result s l segs key size flag r s' segs' l' ->
    get_result s l segs key size flag r s' segs' l'
| gres_again id g r s' segs' l' : flag = IPC_CREAT -> key_first segs key id ->
    segs !! id = Some g -> size < PGSIZE * sg_n g ->
    create_result s l segs key size flag r s' segs' l' ->
    get_result s l segs key size flag r s' segs' l'.

Lemma create_result_inv s l segs key size flag r s' segs' l' :
  shm_inv s l segs -> create_result s l segs key size flag r s' segs' l' -> shm_inv s' l' segs'.
Proof. intros Hi Hc. destruct Hc; try done. by destruct H2. Qed.

Lemma get_result_inv s l segs key size flag r s' segs' l' :
  shm_inv s l segs -> get_result s l segs key size flag r s' segs' l' -> shm_inv s' l' segs'.
Proof. intros Hi Hg. destruct Hg; try done; by eapply create_result_inv. Qed.

(** Whenever a segment could be created, the allocator has its pages. *)
Definition enough (l : list Z) (size : Z) : Prop :=
  SHMMIN <= size <= MAXSEGSIZE -> npages size <= Z.of_nat (length l).

Lemma wp_create s l segs key size flag (Q : Z -> shst -> Prop) :
  shm_inv s l segs -> key <> -1 -> enough l size ->
  (forall r s' segs' l', create_result s l segs key size flag r s' segs' l' -> Q r s') ->
  wp (allocShmSeg size key flag) Q s.
Proof.
  intros Hi Hk He HQ. eapply wp_allocShmSeg; try done.
  - intros. eapply HQ. by constructor.
  - intros. eapply HQ. by eapply cres_full.
  - intros. eapply HQ. by eapply cres_ok.
Qed.

Lemma wp_shmget_key s l segs key size flag (Q : Z -> shst -> Prop) :
  shm_inv s l segs -> key <> -1 -> key <> IPC_PRIVATE ->
  (creates flag -> enough l size) ->
  (forall r s' segs' l', get_result s l segs key size flag r s' segs' l' -> Q r s') ->
  wp (shmgetHelper key size flag) Q s.
Proof.
  intros Hi Hk Hp He HQ. unfold shmgetHelper. rewrite (proj2 (Z.eqb_neq _ _) Hp).
  apply wp_bind, wp_ret, wp_bind. pose proof (si_tab _ _ _ Hi) as Ht.
  assert (key_unused segs key -> creates flag ->
          wp (allocShmSeg size key flag) Q s) as Hcreate.
  { intros Hno Hf. eapply wp_create; [done|done|by apply He|]. intros. eapply HQ. by eapply gres_create. }
  eapply wp_find_key; try done.
  - intros Hno. destruct (flag =? Z.lor _ _) eqn:H1; bprop; [by apply Hcreate; [|unfold creates; auto]|].
    destruct (flag =? IPC_CREAT) eqn:H2; bprop; [by apply Hcreate; [|unfold creates; auto]|].
    apply wp_ret. eapply HQ. by apply gres_none.
  - intros id g Hg Hgk Hmin. assert (key_first segs key id) as Hfirst by (split; eauto).
    destruct (flag =? Z.lor _ _) eqn:H1; bprop; [apply wp_ret; eapply HQ; by eapply gres_exists|].
    destruct (flag =? IPC_CREAT) eqn:H2; bprop.
    2:{ apply wp_ret. eapply HQ. by eapply gres_found. }
    destruct (seg_head _ _ _ _ _ Ht Hg) as (_ & Hsz & Hid).
    pose proof (ti_last _ _ _ Ht).
    apply wp_bind. eapply wp_of_eq; [apply get_seg_eq; lia|]. rewrite Hsz.
    destruct (_ <=? size) eqn:H3; bprop.
    + apply wp_ret. eapply HQ. by eapply gres_found.
    + rewrite (proj2 (Z.ltb_lt _ _) H3). cbn [negb].
      eapply wp_create; [done|done|by apply He; right|]. intros. eapply HQ. by eapply gres_again.
Qed.

(** ** Removing a segment *)

(** Changing attributes that the invariant does not mention keeps it. *)
Definition same_core (d d' : shmid_ds) : Prop :=
  __key (shm_perm d') = __key (shm_perm d) /\ shm_segsz d' = shm_segsz d /\ pa d' = pa d.

Lemma tab_inv_core a a' last segs : tab_inv a last segs ->
  (forall i, same_core a.[i] a'.[i]) -> tab_inv a' last segs.
Proof.
  intros [Hl Hsg Hsl Hd Hf Hp] Hc. split; try done.
  - intros id g j p Hg Hj. destruct (Hsl _ _ _ _ Hg Hj) as [(K & S & P) Hok].
    destruct (Hc (id + Z.of_nat j)) as (Ck & Cs & Cp). split; [|done].
    unfold slot_ok. by rewrite Ck, Cs, Cp.
  - intros i Hi Hno. destruct (Hf i Hi Hno) as [K S]. destruct (Hc i) as (Ck & Cs & Cp).
    unfold slot_free. by rewrite Ck, Cs.
Qed.

Lemma tab_inv_delete a a' last segs id g : tab_inv a last segs -> segs !! id = Some g ->
  (forall i, in_seg id g i -> slot_free a'.[i]) ->
  (forall i, ~ in_seg id g i -> a'.[i] = a.[i]) ->
  tab_inv a' last (delete id segs).
Proof.
  intros Ht Hg Hin Hout. split.
  - apply (ti_last _ _ _ Ht).
  - intros id' g' [Hne Hg']%lookup_delete_Some. by eapply ti_seg.
  - intros id' g' j p [Hne Hg']%lookup_delete_Some Hj. rewrite Hout; [by eapply ti_slot|].
    intros Hs. apply Hne. eapply ti_disj; [exact Ht|exact Hg|exact Hg'|exact Hs|].
    apply lookup_lt_Some in Hj. unfold in_seg, sg_n. lia.
  - intros i1 g1 i2 g2 i [_ H1]%lookup_delete_Some [_ H2]%lookup_delete_Some. by eapply ti_disj.
  - intros i Hi Hno. destruct (decide (id <= i < id + sg_n g)) as [Hs|Hs]; [by apply Hin|].
    rewrite Hout by done. apply (ti_free _ _ _ Ht); [done|]. intros id' g' Hg' Hs'.
    destruct (decide (id' = id)) as [->|Hne]; [by simplify_eq|].
    apply (Hno id' g'); [by rewrite lookup_delete_ne|done].
  - intros i1 g1 j1 i2 g2 j2 p [_ H1]%lookup_delete_Some [_ H2]%lookup_delete_Some.
    by eapply ti_pages.
Qed.

(** The slot [freeshmPages] leaves behind. *)
Definition dead_slot : shmid_ds := mkds (mkperm (-1) 0) 0 (-1) (-1) (-1) (-1) (-1) 0 0.

(** [k] pages of segment [g] have been returned. *)
Record free_progress (s0 : shst) (l : list Z) (id : Z) (g : seg) (k : Z) (s : shst) : Prop := {
  fp_kmem : kmem_inv (km s) (reverse (take (Z.to_nat k) (sg_pages g)) ++ l);
  fp_lock : lock s = lock s0;
  fp_last : lastShmSegIndex s = lastShmSegIndex s0;
  fp_rest : same_rest s0 s;
  fp_slots : forall i, (shm_segs s).[i] =
    if decide (id <= i < id + k) then dead_slot else (shm_segs s0).[i];
  fp_frame : frame (fun q => q ∈ sg_pages g) (mem (km s0)) (mem (km s))
}.

Lemma freed_frame v s : page_ok v -> frame (eq v) (mem s) (mem (freed v s)).
Proof. intros Hv. apply frame_of_same; [apply Hv|apply freed_same_outside]. Qed.

Lemma V2P_pa p : page_ok p -> V2P (V2P p) = p.
Proof. intros Hp. apply V2P_V2P. pose proof (page_ok_range p Hp). mlia. Qed.

Lemma wp_freeshmPages s l segs id g (Q : unit -> shst -> Prop) :
  shm_inv s l segs -> segs !! id = Some g ->
  (forall s', free_progress s l id g (sg_n g) s' -> Q tt s') ->
  wp (freeshmPages id) Q s.
Proof.
  intros [Hk Hlk Ht Hown] Hg HQ. pose proof (ti_last _ _ _ Ht) as Hl.
  destruct (seg_head _ _ _ _ _ Ht Hg) as (_ & Hsz & Hid).
  destruct (ti_seg _ _ _ Ht _ _ Hg) as (_ & Hn & Hend & _).
  unfold freeshmPages. apply wp_bind. eapply wp_of_eq; [apply get_seg_eq; lia|].
  rewrite Hsz. replace (PGSIZE * sg_n g / PGSIZE) with (sg_n g) by mlia.
  apply (wp_for_up (free_progress s l id g)).
  - split; try done. intros i. case_decide; [lia|done].
  - intros k s' Hkn [Fk Flk Fla Fr Fs Ff].
    destruct (lookup_lt_is_Some_2 (sg_pages g) (Z.to_nat k)) as [p Hp]; [unfold sg_n in Hkn; lia|].
    destruct (ti_slot _ _ _ Ht _ _ _ _ Hg Hp) as [(_ & _ & Hpa) Hpok].
    rewrite Z2Nat.id in Hpa by lia.
    apply wp_bind. eapply wp_of_eq; [apply get_seg_eq; lia|].
    rewrite Fs. case_decide; [lia|]. rewrite Hpa, (V2P_pa p Hpok).
    apply wp_bind. eapply wp_of_eq; [apply put_seg_eq; lia|].
    apply wp_bind, wp_zoom. eapply wp_kfree; [exact Hpok| |exact Fk|].
    { rewrite elem_of_app, elem_of_reverse. intros [Hin|Hin].
      - apply list_elem_of_lookup in Hin as [j Hj]. rewrite lookup_take in Hj. case_decide; [|done].
        destruct (ti_pages _ _ _ Ht _ _ _ _ _ _ _ Hg Hg Hj Hp). lia.
      - apply (Hown p); [|done]. exists id, g. split; [done|by eapply list_elem_of_lookup_2]. }
    intros Hk'. eapply wp_of_eq; [apply put_seg_eq; lia|]. split; try done.
    + replace (Z.to_nat (k + 1)) with (S (Z.to_nat k)) by lia.
      rewrite (take_S_elem _ _ _ Hp), reverse_app. exact Hk'.
    + intros i. cbn [shm_segs set_segs lset kml set_km lget]. rewrite !asel_insert.
      rewrite Fs. repeat case_decide; try lia; done.
    + eapply frame_trans; [exact Ff|]. eapply frame_weaken; [|by apply freed_frame].
      intros q <-. by eapply list_elem_of_lookup_2.
  - intros s' Hs'. apply HQ. by replace (Z.max 0 (sg_n g)) with (sg_n g) in Hs' by lia.
Qed.

(** All pages of a segment back on the free list: the segment is gone and
    the others are as they were. *)
Lemma free_progress_inv s l segs id g s' : shm_inv s l segs -> segs !! id = Some g ->
  free_progress s l id g (sg_n g) s' ->
  shm_inv s' (reverse (sg_pages g) ++ l) (delete id segs).
Proof.
  intros [Hk Hlk Ht Hown] Hg [Fk Flk Fla Fr Fs Ff]. split.
  - rewrite take_ge in Fk by (unfold sg_n; lia). done.
  - congruence.
  - rewrite Fla. eapply tab_inv_delete; [exact Ht|exact Hg| |].
    + intros i Hi. rewrite Fs. case_decide; [done|]. by unfold in_seg in Hi.
    + intros i Hi. rewrite Fs. by case_decide.
  - intros q (id' & g' & [Hne Hg']%lookup_delete_Some & Hq) [Hin|Hin]%elem_of_app.
    + rewrite elem_of_reverse in Hin. apply list_elem_of_lookup in Hq as [j Hj].
      apply list_elem_of_lookup in Hin as [j' Hj'].
      destruct (ti_pages _ _ _ Ht _ _ _ _ _ _ _ Hg Hg' Hj' Hj). congruence.
    + apply (Hown q); [|done]. by exists id', g'.
Qed.

(** A loop that updates the slots of a segment one by one. *)
Definition upd_range (f : shmid_ds -> shmid_ds) (lo n : Z) (a a' : arr shmid_ds) : Prop :=
  forall i, a'.[i] = if decide (lo <= i < lo + n) then f a.[i] else a.[i].

Lemma wp_upd_range f lo n s (Q : unit -> shst -> Prop) : 0 <= lo -> 0 <= n -> lo + n <= SHMMAXSEG ->
  (forall a, upd_range f lo n (shm_segs s) a -> Q tt (set_segs a s)) ->
  wp (for_up 0 n (fun i => upd_seg (lo + i) f)) Q s.
Proof.
  intros Hlo Hn Hmax HQ.
  apply (wp_for_up (fun k s' => exists a, s' = set_segs a s /\ upd_range f lo k (shm_segs s) a)).
  - exists (shm_segs s). split; [by destruct s|]. intros i. case_decide; [lia|done].
  - intros k s' Hk (a & -> & Ha). eapply wp_of_eq; [apply upd_seg_eq; lia|].
    exists (<[lo + k := f a.[lo + k]]> a). split; [done|]. intros i. rewrite asel_insert, !Ha.
    repeat case_decide; try lia; subst; done.
  - intros s' (a & -> & Ha). apply HQ. by replace (Z.max 0 n) with n in Ha by lia.
Qed.

Lemma upd_range_core f lo n a a' : (forall d, same_core d (f d)) -> upd_range f lo n a a' ->
  forall i, same_core a.[i] a'.[i].
Proof. intros Hf Ha i. rewrite Ha. case_decide; [apply Hf|done]. Qed.

Lemma ds_mode_core m d : same_core d (ds_mode m d).
Proof. done. Qed.

Lemma shm_inv_core s l segs a : shm_inv s l segs -> (forall i, same_core (shm_segs s).[i] a.[i]) ->
  shm_inv (set_segs a s) l segs.
Proof. intros [Hk Hlk Ht Hown] Hc. split; try done. by eapply tab_inv_core. Qed.

(** What [removeshm] does once it has the identifier of a segment. *)
Definition remove_post (s : shst) (l : list Z) (segs : gmap Z seg) (id : Z) (g : seg)
    (res : Z) (s' : shst) : Prop :=
  if shm_nattch (shm_segs s).[id] =? 0 then
    res = 0 /\ shm_inv s' (reverse (sg_pages g) ++ l) (delete id segs) /\
    frame (fun q => q ∈ sg_pages g) (mem (km s)) (mem (km s')) /\
    (forall i, ~ in_seg id g i -> (shm_segs s').[i] = (shm_segs s).[i]) /\ cur s' = cur s
  else
    res = -1 /\ shm_inv s' l segs /\ km s' = km s /\ cur s' = cur s /\
    upd_range (ds_mode SHM_DEST) id (sg_n g) (shm_segs s) (shm_segs s').

(** The tail of [removeshmHelper], from the size of the segment on. *)
Lemma wp_remove_tail s l segs id g (Q : Z -> shst -> Prop) :
  shm_inv s l segs -> segs !! id = Some g ->
  (forall res s', remove_post s l segs id g res s' -> Q res s') ->
  wp (let* d := get_seg id in
      let reqPages := shm_segsz d / PGSIZE in
      for_up 0 reqPages (fun i => upd_seg (id + i) (ds_mode SHM_DEST)) ;;;
      let* d := get_seg id in
      if (shm_nattch d =? 0) && has (mode (shm_perm d)) SHM_DEST then
        freeshmPages id ;;; ret 0
      else ret (-1)) Q s.
Proof.
  intros Hi Hg HQ. pose proof (si_tab _ _ _ Hi) as Ht. pose proof (ti_last _ _ _ Ht) as Hl.
  destruct (seg_head _ _ _ _ _ Ht Hg) as (_ & Hsz & Hid).
  destruct (ti_seg _ _ _ Ht _ _ Hg) as (_ & Hn & Hend & _).
  apply wp_bind. eapply wp_of_eq; [apply get_seg_eq; lia|]. cbv zeta.
  rewrite Hsz. replace (PGSIZE * sg_n g / PGSIZE) with (sg_n g) by mlia.
  apply wp_bind, wp_upd_range; try lia. intros a Ha.
  apply wp_bind. eapply wp_of_eq; [apply get_seg_eq; lia|]. cbn [shm_segs set_segs].
  assert (a.[id] = ds_mode SHM_DEST (shm_segs s).[id]) as Hhead
    by (rewrite Ha; case_decide; [done|lia]).
  rewrite Hhead. cbn [ds_mode shm_nattch shm_perm mode].
  change (has SHM_DEST SHM_DEST) with true. rewrite andb_true_r.
  assert (shm_inv (set_segs a s) l segs) as Hi1.
  { apply shm_inv_core; [done|]. by eapply upd_range_core; [apply ds_mode_core|]. }
  destruct (_ =? 0) eqn:Hz.
  - apply wp_bind. eapply wp_freeshmPages; [exact Hi1|exact Hg|]. intros s' Hs'.
    apply wp_ret, HQ. unfold remove_post. rewrite Hz. split; [done|].
    split; [by eapply (free_progress_inv _ _ _ _ _ _ Hi1 Hg)|].
    destruct Hs' as [_ _ _ [Fc _] Fs Ff]. split; [done|]. split; [|exact Fc].
    intros i Hout. rewrite Fs. unfold in_seg in Hout. case_decide; [done|].
    cbn [shm_segs set_segs]. rewrite Ha. by case_decide.
  - apply wp_ret, HQ. unfold remove_post. rewrite Hz. done.
Qed.

End ShmFacts.
