(* ===== verification/ShmProc.v ===== *)
(** * Shared memory seen by a process: [shmat] and [shmdt]

    The abstract view of a process is a map [atts] from the first window
    slot of each attachment to the identifier of the attached segment.
    [proc_inv] relates it to the slots [shmsegs] and to the page table of the
    process; the theorems say how attaching and detaching change the abstract
    view, the page table, and the counters of the segment. *)

From stdpp Require Import base tactics numbers gmap strings list.
From Stdlib Require Import ZArith Lia.
From S2P Require Import Prelude Mmu Memory Spinlock Kalloc Vm VmFacts Shm ShmFacts.

(** The address of window slot [i]. *)
Definition win (i : Z) : Z := HEAPLIMIT + PGSIZE * i.

Lemma win_bounds i : 0 <= i < SHMMAXSEG ->
  HEAPLIMIT <= win i /\ win i + PGSIZE <= KERNBASE /\ win i mod 4096 = 0 /\ page_of (win i) = win i.
Proof. intros Hi. unfold win, page_of. mlia. Qed.

Lemma win_pdx i : 0 <= i < SHMMAXSEG -> 508 <= PDX (win i) <= 511.
Proof. intros Hi. pose proof (win_bounds i Hi). rewrite PDX_eq by mlia. mlia. Qed.

(** The free list can supply the page tables the window still lacks. *)
Definition win_tables (l : list Z) (tabs : gmap Z Z) : Prop :=
  (length (filter (fun i : Z => tabs !! i = None) [508%Z; 509%Z; 510%Z; 511%Z]) <= length l)%nat.

Lemma missing_insert_notin (tabs : gmap Z Z) (p i : Z) (js : list Z) : i ∉ js ->
  filter (fun j => <[i := p]> tabs !! j = None) js = filter (fun j => tabs !! j = None) js.
Proof.
  induction js as [|x js IH]; intros Hi; [done|]. apply not_elem_of_cons in Hi as [Hx Hi].
  rewrite !filter_cons, lookup_insert_ne, IH by done. done.
Qed.

Lemma missing_insert (tabs : gmap Z Z) (p i : Z) (js : list Z) :
  NoDup js -> i ∈ js -> tabs !! i = None ->
  length (filter (fun j => tabs !! j = None) js) =
  S (length (filter (fun j => <[i := p]> tabs !! j = None) js)).
Proof.
  intros Hnd Hin Hn. induction Hnd as [|x js Hx Hnd IH]; [by apply elem_of_nil in Hin|].
  rewrite !filter_cons, lookup_insert. destruct (decide (i = x)) as [->|Hne].
  - rewrite (missing_insert_notin tabs p x js Hx). rewrite decide_True by done.
    rewrite decide_False by done. done.
  - apply elem_of_cons in Hin as [->|Hin]; [done|]. specialize (IH Hin).
    case_decide; cbn [length]; lia.
Qed.

Lemma win_tables_step p l tabs i : 508 <= i <= 511 -> tabs !! i = None ->
  win_tables (p :: l) tabs -> win_tables l (<[i := p]> tabs).
Proof.
  intros Hi Hn. unfold win_tables. rewrite (missing_insert tabs p i); [cbn; lia|..|done].
  - by apply (bool_decide_unpack _).
  - rewrite !elem_of_cons. lia.
Qed.

Lemma win_tables_grow P l tabs l' tabs' : (forall i, P i -> 508 <= i <= 511) ->
  tabs_grow P l tabs l' tabs' -> win_tables l tabs -> win_tables l' tabs'.
Proof. intros HP. induction 1; [done|]. intros Hw. apply IHtabs_grow. apply win_tables_step; auto. Qed.

Lemma win_tables_nonempty tabs i : win_tables [] tabs -> 508 <= i <= 511 -> tabs !! i <> None.
Proof.
  unfold win_tables. intros Hw Hi Hn. cbn [length] in Hw.
  assert (i ∈ filter (fun i => tabs !! i = None) [508; 509; 510; 511]) as Hin.
  { apply list_elem_of_filter. split; [done|]. rewrite !elem_of_cons. lia. }
  destruct (filter _ _); [by apply elem_of_nil in Hin|]. cbn [length] in Hw. lia.
Qed.

(** The permission bits [allocshmuvm] passes, with the present bit. *)
Definition attach_perm (shmflag : Z) : Z := if has shmflag 2 then Z.lor PTE_W PTE_U else PTE_U.

Definition attach_flags (shmflag : Z) : Z := Z.lor (attach_perm shmflag) PTE_P.

Section ShmProc.
Context {L : Layout}.

Abbreviation dir s := (pgdir (cur s)).
Abbreviation pmem s := (mem (km s)).

Record proc_inv (s : shst) (l : list Z) (segs : gmap Z seg) (tabs : gmap Z Z)
    (atts : gmap Z Z) : Prop := {
  pi_shm : shm_inv s l segs;
  pi_vm : vm_inv (km s) l (dir s) tabs;
  pi_own : forall q, vpage (dir s) tabs q -> ~ seg_page segs q;
  pi_free : forall i, 0 <= i < SHMMAXSEG -> isAttached (shmsegs (cur s)).[i] = 0 ->
    mapping (pmem s) (dir s) (win i) = None;
  pi_att : forall si id, atts !! si = Some id -> exists g, segs !! id = Some g /\
    0 <= si /\ si + sg_n g <= SHMMAXSEG /\
    forall j p, sg_pages g !! j = Some p ->
      (shmsegs (cur s)).[si + Z.of_nat j] = mkatt 1 id /\
      exists f, 0 <= f < PGSIZE /\ mapping (pmem s) (dir s) (win (si + Z.of_nat j)) = Some (p + f);
  pi_disj : forall si id g si' id' g' i, atts !! si = Some id -> segs !! id = Some g ->
    atts !! si' = Some id' -> segs !! id' = Some g' ->
    si <= i < si + sg_n g -> si' <= i < si' + sg_n g' -> si = si'
}.

Lemma get_att_eq i s : 0 <= i < SHMMAXSEG -> get_att i s = Ret (shmsegs (cur s)).[i] s.
Proof.
  intros Hi. unfold get_att, aget.
  by rewrite (proj2 (Z.leb_le 0 i)), (proj2 (Z.ltb_lt i _)) by lia.
Qed.

Lemma put_att_eq i a s : 0 <= i < SHMMAXSEG ->
  put_att i a s =
  Ret tt (set_cur (mkshproc (pid (cur s)) (pgdir (cur s)) (<[i := a]> (shmsegs (cur s)))) s).
Proof.
  intros Hi. unfold put_att, aset.
  by rewrite (proj2 (Z.leb_le 0 i)), (proj2 (Z.ltb_lt i _)) by lia.
Qed.

(** ** Attaching *)

(** What attaching does to a slot of the segment. *)
Definition ds_attached (p t : Z) (d : shmid_ds) : shmid_ds :=
  mkds (shm_perm d) (shm_segsz d) t (shm_dtime d) t (shm_cpid d) p (u32 (shm_nattch d + 1)) (pa d).

Lemma ds_attached_core p t d : same_core d (ds_attached p t d).
Proof. done. Qed.

(** [m] with the first [k] pages of [ps] mapped from window slot [si] on. *)
Definition with_pages (m : memory) (pgdir si k : Z) (ps : list Z) (f va : Z) : option Z :=
  if decide (win si <= va < win (si + k)) then
    Some (default 0 (ps !! Z.to_nat ((va - win si) / PGSIZE)) + f)
  else mapping m pgdir va.

Record attach_progress (s0 : shst) (l : list Z) (tabs : gmap Z Z) (id : Z) (g : seg)
    (si flag k : Z) (s : shst) (l' : list Z) (tabs' : gmap Z Z) : Prop := {
  at_vm : vm_inv (km s) l' (dir s) tabs';
  at_grow : tabs_grow (fun i => 508 <= i <= 511) l tabs l' tabs';
  at_lock : lock s = true;
  at_last : lastShmSegIndex s = lastShmSegIndex s0;
  at_info : used_ids s = used_ids s0 /\ shm_tot s = shm_tot s0;
  at_time : r s = rtc s0 /\ rtc s = rtc s0 /\ ticks s = ticks s0;
  at_cur : pid (cur s) = pid (cur s0) /\ dir s = dir s0;
  at_att : forall i, (shmsegs (cur s)).[i] =
    if decide (si <= i < si + k) then mkatt 1 id else (shmsegs (cur s0)).[i];
  at_slots : upd_range (ds_attached (pid (cur s0)) (stamp s)) id k (shm_segs s0) (shm_segs s);
  at_map : forall va, 0 <= va < 4294967296 -> mapping (pmem s) (dir s) va =
    with_pages (pmem s0) (dir s0) si k (sg_pages g) (attach_flags flag) va;
  at_frame : frame (vpage (dir s0) tabs') (pmem s0) (pmem s)
}.

Lemma with_pages_step m m' pgdir si k ps f p va : 0 <= si -> 0 <= k ->
  ps !! Z.to_nat k = Some p ->
  mapping m' pgdir va = (if decide (page_of va = win (si + k)) then Some (p + f)
    else with_pages m pgdir si k ps f va) ->
  mapping m' pgdir va = with_pages m pgdir si (k + 1) ps f va.
Proof.
  intros Hsi Hk Hp ->. unfold with_pages, win, page_of in *.
  destruct (decide (va - va mod PGSIZE = HEAPLIMIT + PGSIZE * (si + k))) as [E|E].
  - case_decide; [|mlia].
    replace ((va - (HEAPLIMIT + PGSIZE * si)) / PGSIZE) with k by mlia. by rewrite Hp.
  - repeat case_decide; first [done|mlia].
Qed.

Lemma V2P_pa_bounds p : page_ok p -> V2P (V2P p) = p /\ p mod 4096 = 0 /\ 0 <= p /\
  p + PGSIZE <= 4294967296.
Proof.
  intros Hp. pose proof (page_ok_range p Hp). rewrite (V2P_pa p Hp).
  destruct Hp as (Ha & _). mlia.
Qed.

Lemma attach_perm_range flag : 0 <= attach_perm flag < 4096.
Proof. unfold attach_perm. destruct (has _ _); vm_compute; done. Qed.

(** One turn attaches one page. *)
Lemma wp_attach_step s0 l tabs id g si flag k s l1 tabs1 p (Q : option Z -> shst -> Prop) :
  attach_progress s0 l tabs id g si flag k s l1 tabs1 ->
  win_tables l tabs -> 0 <= id -> 0 <= si -> 0 <= k < sg_n g ->
  id + sg_n g <= SHMMAXSEG -> si + sg_n g <= SHMMAXSEG ->
  sg_pages g !! Z.to_nat k = Some p -> page_ok p -> pa (shm_segs s0).[id + k] = V2P p ->
  mapping (pmem s0) (dir s0) (win (si + k)) = None ->
  (forall s' l' tabs', attach_progress s0 l tabs id g si flag (k + 1) s' l' tabs' -> Q None s') ->
  wp (allocshmuvm_step id (win si) si flag k) Q s.
Proof.
  intros [Avm Ag Alk Ala Ain Ati [Apid Adir] Aatt Asl Am Af] Hw Hid Hsi Hk Hidm Hsim Hp Hpok Hpa
    Hnone HQ.
  destruct (V2P_pa_bounds p Hpok) as (HV & Hpal & Hp0 & Hpm).
  pose proof (win_bounds (si + k) ltac:(lia)) as (Hw1 & Hw2 & Hw3 & Hw4).
  pose proof (win_pdx (si + k) ltac:(lia)) as Hpdx.
  unfold allocshmuvm_step. apply wp_bind. eapply wp_of_eq; [apply put_att_eq; lia|].
  apply wp_bind, wp_gets, wp_bind. eapply wp_of_eq; [apply get_seg_eq; lia|].
  cbn [shm_segs set_cur cur pgdir].
  assert (pa (shm_segs s).[id + k] = V2P p) as -> by (rewrite Asl; case_decide; [lia|done]).
  rewrite HV. fold (attach_perm flag).
  replace (win si + PGSIZE * k) with (win (si + k)) by (unfold win; lia).
  apply wp_bind, wp_zoom. cbn [lget kml km set_cur].
  assert (win_tables l1 tabs1) as Hw' by (by eapply win_tables_grow; [|exact Ag|]; cbn; auto).
  eapply wp_mappage; [exact Avm|mlia|exact Hw3|done|done|done|apply attach_perm_range|..].
  { rewrite Am by mlia. unfold with_pages. rewrite decide_False by (unfold win; mlia). done. }
  { intros Hn ->. exfalso. by eapply win_tables_nonempty. }
  intros k1 l2 tabs2 Hvm Hg Hm Hf Hul. cbn [Z.ltb].
  apply wp_bind, wp_gets, wp_bind, wp_gets, wp_bind.
  eapply wp_of_eq; [apply upd_seg_eq; lia|]. apply wp_ret.
  apply (HQ _ l2 tabs2). cbn [lset kml set_km set_cur].
  split; cbn [km lock shm_segs lastShmSegIndex used_ids shm_tot r rtc ticks cur pid pgdir shmsegs
              set_segs set_km set_cur lset kml]; try done.
  - eapply tabs_grow_trans; [exact Ag|]. eapply tabs_grow_weaken; [|exact Hg]. by intros i <-.
  - intros i. rewrite asel_insert, Aatt. repeat case_decide; try lia; done.
  - intros i. rewrite asel_insert, !Asl. unfold stamp. cbn [r set_segs set_km set_cur lset kml].
    repeat case_decide; try lia; subst; try done. by rewrite Apid.
  - intros va Hva. rewrite <- Adir. eapply with_pages_step; [lia|lia|exact Hp|]. rewrite Hm by done.
    unfold attach_flags. case_decide; [done|]. by rewrite Am, Adir.
  - eapply frame_trans; [eapply frame_weaken; [|exact Af]|].
    + intros q. by eapply vpage_grow.
    + rewrite <- Adir. exact Hf.
Qed.

(** The whole segment, when the page tables can be had. *)
Lemma wp_allocshmuvm s l segs tabs id g si flag (Q : Z -> shst -> Prop) :
  shm_inv s l segs -> vm_inv (km s) l (dir s) tabs -> win_tables l tabs ->
  segs !! id = Some g -> 0 <= si -> si + sg_n g <= SHMMAXSEG ->
  (forall i, si <= i < si + sg_n g -> mapping (pmem s) (dir s) (win i) = None) ->
  (forall s' l' tabs', attach_progress s l tabs id g si flag (sg_n g) s' l' tabs' ->
     Q (win si) (set_lock false s')) ->
  wp (allocshmuvm id (win si) (sg_n g) si flag) Q s.
Proof.
  intros [Hk Hlk Ht Hown] Hvm Hw Hg Hsi Hmax Hnone HQ. unfold allocshmuvm.
  destruct (ti_seg _ _ _ Ht _ _ Hg) as (Hid & Hn & Hend & _). pose proof (ti_last _ _ _ Ht) as Hl.
  apply wp_bind, wp_modify, wp_bind. unfold shm_acquire.
  apply Lock.wp_acquire; [done|]. apply wp_bind.
  eapply (wp_for_exit (fun k s' => exists l' tabs',
            attach_progress s l tabs id g si flag k s' l' tabs')).
  - exists l, tabs. split; try done; try constructor; try done.
    + intros i. case_decide; [lia|done].
    + intros i. case_decide; [lia|done].
    + intros va _. unfold with_pages. case_decide; [unfold win in *; mlia|done].
  - intros k s' Hkn (l1 & tabs1 & Hp).
    destruct (lookup_lt_is_Some_2 (sg_pages g) (Z.to_nat k)) as [p Hlp];
      [unfold sg_n in Hkn; lia|].
    destruct (ti_slot _ _ _ Ht _ _ _ _ Hg Hlp) as [(_ & _ & Hpa) Hpok].
    rewrite Z2Nat.id in Hpa by lia.
    eapply wp_attach_step; try done; try lia; [apply Hnone; lia|]. intros s2 l2 tabs2 Hp2. eauto.
  - intros s' (l1 & tabs1 & Hp). replace (Z.max 0 (sg_n g)) with (sg_n g) in Hp by lia.
    apply wp_bind. apply Lock.wp_release; [apply Hp|]. apply wp_ret. eapply HQ. exact Hp.
Qed.

Lemma grow_suffix P l tabs l' tabs' q : tabs_grow P l tabs l' tabs' -> q ∈ l' -> q ∈ l.
Proof.
  intros (u & -> & _)%tabs_grow_used Hq. apply elem_of_app. by right.
Qed.

Lemma grow_vpage P l tabs l' tabs' pg q : tabs_grow P l tabs l' tabs' -> vpage pg tabs' q ->
  vpage pg tabs q \/ q ∈ l.
Proof.
  intros (u & -> & Hu)%tabs_grow_used [->|Hq]; [by left; left|].
  apply Hu in Hq as [Hq|Hq]; [by left; right|]. right. apply elem_of_app. by left.
Qed.

(** Mapping at a window slot after an attachment. *)
Lemma with_pages_win m pg si k ps f i : 0 <= si -> 0 <= i ->
  with_pages m pg si k ps f (win i) =
  if decide (si <= i < si + k) then Some (default 0 (ps !! Z.to_nat (i - si)) + f)
  else mapping m pg (win i).
Proof.
  intros Hsi Hi. unfold with_pages, win.
  replace ((HEAPLIMIT + PGSIZE * i - (HEAPLIMIT + PGSIZE * si)) / PGSIZE) with (i - si) by mlia.
  repeat case_decide; first [done|mlia].
Qed.

Lemma attach_flags_range flag : 0 <= attach_flags flag < PGSIZE.
Proof. unfold attach_flags, attach_perm. destruct (has _ _); vm_compute; done. Qed.

Lemma attached_shm_inv s l segs tabs id g si flag s' l' tabs' :
  shm_inv s l segs -> attach_progress s l tabs id g si flag (sg_n g) s' l' tabs' ->
  shm_inv (set_lock false s') l' segs.
Proof.
  intros [Hk Hlk Ht Hown] [Avm Ag Alk Ala Ain Ati Acur Aatt Asl Am Af]. split; cbn.
  - apply Avm.
  - done.
  - rewrite Ala. eapply tab_inv_core; [exact Ht|]. eapply upd_range_core; [|exact Asl].
    intros d. apply ds_attached_core.
  - intros q Hq Hin. apply (Hown q Hq). by eapply grow_suffix.
Qed.

(** Attaching adds one entry to the process's map. *)
Lemma attached_inv s l segs tabs atts id g si flag s' l' tabs' :
  proc_inv s l segs tabs atts -> segs !! id = Some g -> 0 <= si -> si + sg_n g <= SHMMAXSEG ->
  (forall i, si <= i < si + sg_n g -> isAttached (shmsegs (cur s)).[i] = 0) ->
  attach_progress s l tabs id g si flag (sg_n g) s' l' tabs' ->
  proc_inv (set_lock false s') l' segs tabs' (<[si := id]> atts).
Proof.
  intros [Hshm Hvm Hown Hfree Hatt Hdisj] Hg Hsi Hmax Hslots Hp.
  pose proof (attached_shm_inv _ _ _ _ _ _ _ _ _ _ _ Hshm Hp) as Hshm'.
  destruct Hp as [Avm Ag Alk Ala Ain Ati [Apid Adir] Aatt Asl Am Af].
  assert (forall si' id' g' i, atts !! si' = Some id' -> segs !! id' = Some g' ->
    si' <= i < si' + sg_n g' -> ~ si <= i < si + sg_n g) as Hdj.
  { intros si' id' g' i Ha Hg' Hi Hin. destruct (Hatt _ _ Ha) as (g2 & Hg2 & Hs0 & Hsm & Hj).
    assert (g2 = g') as -> by congruence. destruct (lookup_lt_is_Some_2 (sg_pages g') (Z.to_nat (i - si'))) as [p Hp];
      [unfold sg_n in Hi; lia|]. destruct (Hj _ _ Hp) as [Hat _].
    rewrite Z2Nat.id in Hat by lia. replace (si' + (i - si')) with i in Hat by lia.
    specialize (Hslots i Hin). rewrite Hat in Hslots. done. }
  split; cbn [km cur set_lock]; try done.
  - intros q Hq Hs. rewrite Adir in Hq. destruct (grow_vpage _ _ _ _ _ _ _ Ag Hq) as [Hq'|Hq'].
    + by eapply Hown.
    + by eapply (si_own _ _ _ Hshm).
  - intros i Hi. rewrite Aatt. case_decide as Hin; [done|]. intros H0.
    pose proof (win_bounds i Hi). rewrite Am by mlia.
    rewrite with_pages_win by lia. case_decide; [done|]. by apply Hfree.
  - intros si' id'. rewrite lookup_insert. case_decide as Hs; [subst si'|].
    + intros [= <-]. exists g. split_and!; try done. intros j p Hj.
      apply lookup_lt_Some in Hj as Hlt. rewrite Aatt. split.
      { case_decide as Hin; [done|]. exfalso. apply Hin. unfold sg_n. lia. }
      exists (attach_flags flag). split; [apply attach_flags_range|].
      pose proof (win_bounds (si + Z.of_nat j) ltac:(unfold sg_n in *; lia)).
      rewrite Am by mlia. rewrite with_pages_win by lia.
      rewrite decide_True by (unfold sg_n; lia).
      replace (Z.to_nat (si + Z.of_nat j - si)) with j by lia. by rewrite Hj.
    + intros Ha. destruct (Hatt _ _ Ha) as (g' & Hg' & Hs0 & Hsm & Hj). exists g'.
      split_and!; try done. intros j p Hjp. destruct (Hj _ _ Hjp) as (Hat & f & Hf & Hmp).
      apply lookup_lt_Some in Hjp as Hlt.
      assert (~ si <= si' + Z.of_nat j < si + sg_n g) as Hout
        by (eapply Hdj; [exact Ha|exact Hg'|unfold sg_n; lia]).
      rewrite Aatt, decide_False by done. split; [done|]. exists f. split; [done|].
      pose proof (win_bounds (si' + Z.of_nat j) ltac:(unfold sg_n in *; lia)).
      rewrite Am by mlia. rewrite with_pages_win by lia. by rewrite decide_False.
  - intros s1 i1 g1 s2 i2 g2 i. rewrite !lookup_insert.
    case_decide as E1; case_decide as E2; subst; intros A1 G1 A2 G2 I1 I2; simplify_eq; try done.
    + exfalso. by eapply Hdj.
    + exfalso. by eapply (Hdj s1).
    + by eapply Hdisj.
Qed.

(** ** [shmat] *)

Definition slot_unattached (s : shst) (i : Z) : bool := isAttached (shmsegs (cur s)).[i] =? 0.

Lemma seg_req segs a last id g : tab_inv a last segs -> segs !! id = Some g ->
  i32 (shm_segsz a.[id]) = PGSIZE * sg_n g /\ cdiv (PGSIZE * sg_n g) PGSIZE = sg_n g /\
  1 <= sg_n g <= SHMMAXSEG.
Proof.
  intros Ht Hg. destruct (seg_head _ _ _ _ _ Ht Hg) as (_ & -> & _).
  destruct (ti_seg _ _ _ Ht _ _ Hg) as (Hid & Hn & Hend & _). pose proof (ti_last _ _ _ Ht).
  assert (1 <= sg_n g <= SHMMAXSEG) by lia. split; [apply i32_small; mlia|]. split; [|done].
  unfold cdiv. rewrite Z.quot_div_nonneg by mlia. mlia.
Qed.

(** The checks at the head of [shmatHelper]. *)
Lemma shmat_head s l segs id g : shm_inv s l segs -> segs !! id = Some g ->
  (id <? 0) || (lastShmSegIndex s <? id) = false /\
  get_seg id s = Ret (shm_segs s).[id] s /\
  (i32 (shm_segsz (shm_segs s).[id]) =? 0) = false.
Proof.
  intros Hi Hg. pose proof (si_tab _ _ _ Hi) as Ht. pose proof (ti_last _ _ _ Ht).
  destruct (seg_head _ _ _ _ _ Ht Hg) as (_ & _ & Hid).
  destruct (seg_req _ _ _ _ _ Ht Hg) as (Hr & _ & Hn). rewrite Hr.
  rewrite get_seg_eq by lia. split; [|split; [done|mlia]].
  apply orb_false_iff. rewrite !Z.ltb_ge. lia.
Qed.

Lemma wp_shmat_any s l segs tabs atts id g flag (Q : Z -> shst -> Prop) :
  proc_inv s l segs tabs atts -> win_tables l tabs -> segs !! id = Some g ->
  ((forall b, 0 <= b -> b + sg_n g <= SHMMAXSEG -> ~ run (slot_unattached s) b (sg_n g)) ->
     Q ENOMEM s) ->
  (forall si s' l' tabs', 0 <= si -> si + sg_n g <= SHMMAXSEG ->
     run (slot_unattached s) si (sg_n g) ->
     (forall b, 0 <= b < si -> ~ run (slot_unattached s) b (sg_n g)) ->
     attach_progress s l tabs id g si flag (sg_n g) s' l' tabs' ->
     Q (win si) (set_lock false s')) ->
  wp (shmatHelper id 0 flag) Q s.
Proof.
  intros Hp Hw Hg H0 H1. pose proof (pi_shm _ _ _ _ _ Hp) as Hi.
  destruct (shmat_head _ _ _ _ _ Hi Hg) as (Hc & Hget & Hz).
  destruct (seg_req _ _ _ _ _ (si_tab _ _ _ Hi) Hg) as (Hr & Hq & Hn).
  unfold shmatHelper. apply wp_bind, wp_gets. rewrite Hc. apply wp_bind.
  eapply wp_of_eq; [exact Hget|]. rewrite Hz, Hr, Hq. rewrite Z.eqb_refl. apply wp_bind.
  eapply (wp_find_run _ (slot_unattached s)); try lia; try mlia.
  { intros i Hib. unfold bind. by rewrite get_att_eq by lia. }
  { intros Hno. apply wp_ret. by apply H0. }
  intros si Hsi Hmax Hrun Hfirst. rewrite (proj2 (Z.eqb_neq si (-1))) by lia.
  replace (si * PGSIZE + HEAPLIMIT) with (win si) by (unfold win; lia).
  apply wp_bind. eapply wp_allocshmuvm; [exact Hi|apply Hp|exact Hw|exact Hg|done|done|..].
  - intros i Hib. apply (pi_free _ _ _ _ _ Hp); [lia|]. specialize (Hrun i Hib).
    unfold slot_unattached in Hrun. by bprop.
  - intros s' l' tabs' Hs'. rewrite (proj2 (Z.eqb_neq (win si) 0)) by (unfold win; mlia).
    apply wp_ret. by eapply H1.
Qed.

(** With an address and [SHM_RND] the segment goes to the page that contains
    the address, provided its slots are unattached and exist. *)
Lemma wp_shmat_rnd s l segs tabs atts id g addr si (Q : Z -> shst -> Prop) :
  proc_inv s l segs tabs atts -> win_tables l tabs -> segs !! id = Some g ->
  0 <= si -> si + sg_n g <= SHMMAXSEG -> win si <= addr < win si + PGSIZE ->
  run (slot_unattached s) si (sg_n g) ->
  (forall s' l' tabs', attach_progress s l tabs id g si SHM_RND (sg_n g) s' l' tabs' ->
     Q (win si) (set_lock false s')) ->
  wp (shmatHelper id addr SHM_RND) Q s.
Proof.
  intros Hp Hw Hg Hsi Hmax Haddr Hrun HQ. pose proof (pi_shm _ _ _ _ _ Hp) as Hi.
  destruct (shmat_head _ _ _ _ _ Hi Hg) as (Hc & Hget & Hz).
  destruct (seg_req _ _ _ _ _ (si_tab _ _ _ Hi) Hg) as (Hr & Hq & Hn).
  pose proof (win_bounds si ltac:(lia)) as (Hw1 & Hw2 & Hw3 & Hw4).
  unfold shmatHelper. apply wp_bind, wp_gets. rewrite Hc. apply wp_bind.
  eapply wp_of_eq; [exact Hget|]. rewrite Hz, Hr, Hq.
  rewrite (proj2 (Z.eqb_neq addr 0)) by mlia.
  assert ((KERNBASE <? u32 addr) || (addr <? HEAPLIMIT) = false) as ->.
  { apply orb_false_iff. rewrite !Z.ltb_ge, u32_small by mlia. mlia. }
  rewrite Z.eqb_refl. cbn [negb andb].
  assert (PGROUNDDOWN addr = win si) as ->.
  { rewrite PGROUNDDOWN_page by mlia. unfold page_of, win in *. mlia. }
  assert (cdiv (i32 (win si - HEAPLIMIT)) PGSIZE = si) as ->.
  { rewrite i32_small by (unfold win; mlia). unfold cdiv, win.
    rewrite Z.quot_div_nonneg by mlia. mlia. }
  apply wp_bind, (wp_for_exit (fun _ s' => s' = s)); [done|..].
  - intros i s' Hib ->. apply wp_bind. eapply wp_of_eq; [apply get_att_eq; lia|]. apply wp_ret.
    specialize (Hrun i ltac:(lia)). unfold slot_unattached in Hrun. bprop. by rewrite Hrun.
  - intros s' ->. apply wp_bind.
    eapply wp_allocshmuvm; [exact Hi|apply Hp|exact Hw|exact Hg|done|done|..].
    + intros i Hib. apply (pi_free _ _ _ _ _ Hp); [lia|]. specialize (Hrun i Hib).
      unfold slot_unattached in Hrun. by bprop.
    + intros s1 l' tabs' Hs'. rewrite (proj2 (Z.eqb_neq (win si) 0)) by mlia.
      apply wp_ret. by eapply HQ.
Qed.

(** ** [shmdt] *)

(** What detaching does to a slot of the segment. *)
Definition ds_detached (p t : Z) (d : shmid_ds) : shmid_ds :=
  mkds (shm_perm d) (shm_segsz d) (shm_atime d) t (shm_ctime d) (shm_cpid d) p
    (u32 (shm_nattch d - 1)) (pa d).

Lemma ds_detached_core p t d : same_core d (ds_detached p t d).
Proof. done. Qed.

Definition without_pages (m : memory) (pgdir si k va : Z) : option Z :=
  if decide (win si <= va < win (si + k)) then None else mapping m pgdir va.

Record detach_progress (s0 : shst) (l : list Z) (tabs : gmap Z Z) (id si k : Z)
    (s : shst) : Prop := {
  dt_vm : vm_inv (km s) l (dir s) tabs;
  dt_lock : lock s = true;
  dt_last : lastShmSegIndex s = lastShmSegIndex s0;
  dt_info : used_ids s = used_ids s0 /\ shm_tot s = shm_tot s0;
  dt_time : r s = rtc s0 /\ rtc s = rtc s0 /\ ticks s = ticks s0;
  dt_cur : pid (cur s) = pid (cur s0) /\ dir s = dir s0;
  dt_att : forall i, (shmsegs (cur s)).[i] =
    if decide (i = si) then mkatt 0 (-1) else
    if decide (si < i < si + k) then mkatt 0 id else (shmsegs (cur s0)).[i];
  dt_slots : upd_range (ds_detached (pid (cur s0)) (stamp s)) id k (shm_segs s0) (shm_segs s);
  dt_map : forall va, 0 <= va < 4294967296 ->
    mapping (pmem s) (dir s) va = without_pages (pmem s0) (dir s0) si k va;
  dt_frame : frame (fun q => exists i, tabs !! i = Some q) (pmem s0) (pmem s)
}.

Lemma without_pages_step m m' pgdir si k va : 0 <= si -> 0 <= k ->
  mapping m' pgdir va = (if decide (win (si + k) = page_of va) then None
    else without_pages m pgdir si k va) ->
  mapping m' pgdir va = without_pages m pgdir si (k + 1) va.
Proof.
  intros Hsi Hk ->. unfold without_pages, win, page_of in *.
  repeat case_decide; first [done|mlia].
Qed.

Lemma wp_detach_step s0 l tabs id g si k s t (Q : unit -> shst -> Prop) :
  detach_progress s0 l tabs id si k s ->
  0 <= id -> 0 <= si -> 0 <= k < sg_n g -> id + sg_n g <= SHMMAXSEG -> si + sg_n g <= SHMMAXSEG ->
  (0 < k -> shmid (shmsegs (cur s0)).[si + k] = id) ->
  tabs !! PDX (win (si + k)) = Some t ->
  (forall s', detach_progress s0 l tabs id si (k + 1) s' -> Q tt s') ->
  wp (let* a := get_att (si + k) in
      put_att (si + k) (mkatt 0 (shmid a)) ;;;
      let* t := gets stamp in
      let* p := gets (fun s => pid (cur s)) in
      upd_seg (id + k) (ds_detached p t) ;;;
      let* pg := gets (fun s => pgdir (cur s)) in
      zoom kml (clearmapping pg (u32 ((si + k) * PGSIZE + HEAPLIMIT)))) Q s.
Proof.
  intros [Dvm Dlk Dla Din Dti [Dpid Ddir] Datt Dsl Dm Df] Hid Hsi Hk Hidm Hsim Hat Ht HQ.
  pose proof (win_bounds (si + k) ltac:(lia)) as (Hw1 & Hw2 & Hw3 & Hw4).
  apply wp_bind. eapply wp_of_eq; [apply get_att_eq; lia|].
  apply wp_bind. eapply wp_of_eq; [apply put_att_eq; lia|].
  apply wp_bind, wp_gets, wp_bind, wp_gets, wp_bind. eapply wp_of_eq; [apply upd_seg_eq; lia|].
  apply wp_bind, wp_gets, wp_zoom. cbn [lget kml km set_segs set_cur cur pgdir pid].
  replace (u32 ((si + k) * PGSIZE + HEAPLIMIT)) with (win (si + k))
    by (rewrite u32_small; unfold win; mlia).
  eapply wp_clearmapping; [exact Dvm|mlia|exact Ht|]. intros k1 Hvm Hm Hf. apply HQ.
  split; cbn [km lock shm_segs lastShmSegIndex used_ids shm_tot r rtc ticks cur pid pgdir shmsegs
              set_segs set_km set_cur lset kml]; try done.
  - intros i. rewrite asel_insert, !Datt.
    destruct (decide (si + k = i)) as [<-|Hne].
    + destruct (decide (si + k = si)) as [E|E].
      * done.
      * rewrite decide_False by lia. rewrite decide_True by lia. f_equal. apply Hat. lia.
    + repeat case_decide; try lia; done.
  - intros i. rewrite asel_insert, !Dsl. unfold stamp. cbn [r set_segs set_km set_cur lset kml].
    repeat case_decide; try lia; subst; try done. by rewrite Dpid.
  - intros va Hva. rewrite <- Ddir. apply without_pages_step; [lia|lia|]. rewrite Hm by done.
    rewrite Hw4. case_decide; [done|]. by rewrite Dm, Ddir.
  - eapply frame_trans; [exact Df|]. eapply frame_weaken; [|exact Hf]. intros q <-. eauto.
Qed.

(** Detaching the attachment that starts at slot [si]. *)
Lemma wp_shmdt s l segs tabs atts id g si (Q : Z -> shst -> Prop) :
  proc_inv s l segs tabs atts -> atts !! si = Some id -> segs !! id = Some g ->
  (forall s1 s', detach_progress s l tabs id si (sg_n g) s1 ->
     s' = set_lock false (set_segs (<[id := ds_mode
            (Z.lor (mode (shm_perm (shm_segs s1).[id])) SHM_DEST) (shm_segs s1).[id]]>
            (shm_segs s1)) s1) -> Q 0 s') ->
  wp (shmdtHelper (win si)) Q s.
Proof.
  intros Hp Ha Hg HQ. pose proof (pi_shm _ _ _ _ _ Hp) as Hi. pose proof (si_tab _ _ _ Hi) as Ht.
  destruct (pi_att _ _ _ _ _ Hp _ _ Ha) as (g' & Hg' & Hsi & Hmax & Hj).
  assert (g' = g) as -> by congruence.
  destruct (seg_req _ _ _ _ _ Ht Hg) as (Hr & Hq & Hn).
  destruct (ti_seg _ _ _ Ht _ _ Hg) as (Hid & _ & Hend & _). pose proof (ti_last _ _ _ Ht) as Hl.
  pose proof (win_bounds si ltac:(lia)) as (Hw1 & Hw2 & Hw3 & Hw4).
  assert (forall k, 0 <= k < sg_n g -> (shmsegs (cur s)).[si + k] = mkatt 1 id /\
    exists t, tabs !! PDX (win (si + k)) = Some t) as Hslot.
  { intros k Hk. destruct (lookup_lt_is_Some_2 (sg_pages g) (Z.to_nat k)) as [p Hlp];
      [unfold sg_n in Hk; lia|]. destruct (Hj _ _ Hlp) as (Hat & f & _ & Hm).
    rewrite Z2Nat.id in Hat, Hm by lia. split; [done|].
    pose proof (win_bounds (si + k) ltac:(lia)).
    eapply mapping_table; [apply (pi_vm _ _ _ _ _ Hp)|mlia|exact Hm]. }
  unfold shmdtHelper.
  assert ((win si <? HEAPLIMIT) || (KERNBASE <? u32 (win si)) = false) as ->.
  { apply orb_false_iff. rewrite !Z.ltb_ge, u32_small by mlia. mlia. }
  apply wp_bind, wp_modify.
  assert (u32 (u32 (win si) - HEAPLIMIT) / PGSIZE = si) as ->.
  { rewrite (u32_small (win si)) by mlia. rewrite u32_small; unfold win; mlia. }
  apply wp_bind. eapply wp_of_eq; [apply get_att_eq; lia|].
  cbn [cur set_r shmsegs]. destruct (Hslot 0 ltac:(lia)) as [Hs0 _]. rewrite Z.add_0_r in Hs0.
  rewrite Hs0. cbn [isAttached shmid Z.eqb]. apply wp_bind.
  eapply wp_of_eq; [apply put_att_eq; lia|]. apply wp_bind.
  eapply wp_of_eq; [apply get_seg_eq; lia|]. cbn [shm_segs set_cur set_r].
  rewrite Hr, Hq. apply wp_bind, Lock.wp_acquire; [apply Hi|]. apply wp_bind.
  apply (wp_for_up (detach_progress s l tabs id si)).
  - split; try done; try apply Hp.
    + intros i. cbn [shmsegs cur set_cur set_lock set_r]. rewrite asel_insert.
      repeat case_decide; first [done|lia|congruence].
    + intros i. case_decide; [lia|done].
    + intros va _. unfold without_pages. case_decide; [unfold win in *; mlia|done].
  - intros k s1 Hk Hs1. destruct (Hslot k Hk) as [Hat [t Htb]].
    by eapply wp_detach_step; eauto; [lia|rewrite Hat].
  - intros s1 Hs1. replace (Z.max 0 (sg_n g)) with (sg_n g) in Hs1 by lia.
    apply wp_bind. eapply wp_of_eq; [apply upd_seg_eq; lia|]. apply wp_bind.
    apply Lock.wp_release; [apply Hs1|]. apply wp_ret. eapply HQ; [exact Hs1|done].
Qed.

Lemma without_pages_win m pg si k i : 0 <= si -> 0 <= i ->
  without_pages m pg si k (win i) =
  if decide (si <= i < si + k) then None else mapping m pg (win i).
Proof.
  intros Hsi Hi. unfold without_pages, win. repeat case_decide; first [done|mlia].
Qed.

(** The segment's first slot after the call also carries [SHM_DEST]. *)
Definition marked (id : Z) (s : shst) : shst :=
  set_segs (<[id := ds_mode (Z.lor (mode (shm_perm (shm_segs s).[id])) SHM_DEST)
                      (shm_segs s).[id]]> (shm_segs s)) s.

Lemma detached_shm_inv s l segs tabs id g si s1 :
  shm_inv s l segs -> segs !! id = Some g -> detach_progress s l tabs id si (sg_n g) s1 ->
  shm_inv (set_lock false (marked id s1)) l segs.
Proof.
  intros [Hk Hlk Ht Hown] Hg [Dvm Dlk Dla Din Dti Dcur Datt Dsl Dm Df]. split; try done.
  - apply Dvm.
  - cbn. rewrite Dla. eapply tab_inv_core; [exact Ht|]. intros i. rewrite asel_insert.
    pose proof (upd_range_core _ _ _ _ _ (ds_detached_core _ _) Dsl) as Hc.
    case_decide; [subst|]; apply Hc.
Qed.

(** Detaching removes the entry from the process's map. *)
Lemma detached_inv s l segs tabs atts id g si s1 :
  proc_inv s l segs tabs atts -> atts !! si = Some id -> segs !! id = Some g ->
  detach_progress s l tabs id si (sg_n g) s1 ->
  proc_inv (set_lock false (marked id s1)) l segs tabs (delete si atts).
Proof.
  intros [Hshm Hvm Hown Hfree Hatt Hdisj] Ha Hg Hp.
  pose proof (detached_shm_inv _ _ _ _ _ _ _ _ Hshm Hg Hp) as Hshm'.
  destruct (Hatt _ _ Ha) as (g' & Hg' & Hsi & Hmax & _). assert (g' = g) as -> by congruence.
  destruct Hp as [Dvm Dlk Dla Din Dti [Dpid Ddir] Datt Dsl Dm Df].
  split; cbn [km cur set_lock set_segs marked]; try done.
  - intros q. rewrite Ddir. apply Hown.
  - intros i Hi H0. pose proof (win_bounds i Hi). rewrite Dm by mlia.
    rewrite without_pages_win by lia. case_decide as Hin; [done|].
    apply Hfree; [done|]. rewrite Datt in H0. pose proof (ti_seg _ _ _ (si_tab _ _ _ Hshm) _ _ Hg).
    rewrite decide_False in H0 by lia. by rewrite decide_False in H0 by lia.
  - intros si' id' [Hne Ha']%lookup_delete_Some.
    destruct (Hatt _ _ Ha') as (g' & Hg2 & Hs0 & Hsm & Hj). exists g'. split_and!; try done.
    intros j p Hjp. destruct (Hj _ _ Hjp) as (Hat & f & Hf & Hmp).
    apply lookup_lt_Some in Hjp as Hlt.
    assert (~ si <= si' + Z.of_nat j < si + sg_n g) as Hout.
    { intros Hin. apply Hne. eapply Hdisj; [exact Ha|exact Hg|exact Ha'|exact Hg2|exact Hin|].
      unfold sg_n. lia. }
    pose proof (ti_seg _ _ _ (si_tab _ _ _ Hshm) _ _ Hg).
    rewrite Datt, decide_False, decide_False by lia. split; [done|]. exists f. split; [done|].
    pose proof (win_bounds (si' + Z.of_nat j) ltac:(unfold sg_n in *; lia)).
    rewrite Dm by mlia. rewrite without_pages_win by lia. by rewrite decide_False.
  - intros s2 i2 g2 s3 i3 g3 i [_ A2]%lookup_delete_Some G2 [_ A3]%lookup_delete_Some. by eapply Hdisj.
Qed.

End ShmProc.
