(* ===== verification/Sample.v ===== *)
(** * A sample machine

    A concrete kernel image, page allocator, page table and shared-memory
    table that satisfy the invariants of the development; the theorems are
    instantiated on it. *)

From stdpp Require Import base tactics numbers gmap strings list.
From Stdlib Require Import ZArith Lia.
From S2P Require Import Prelude Mmu Memory Spinlock Kalloc Vm VmFacts Shm ShmFacts ShmProc.

(** The symbols of the kernel image built from these sources ([kernel.sym]). *)
Lemma sample_data : KERNLINK < 0x80109000 <= 0x8033e550.
Proof. by vm_compute. Qed.

Lemma sample_align : 0x80109000 mod 4096 = 0.
Proof. by vm_compute. Qed.

Lemma sample_end : 0x8033e550 <= KERNBASE + 4 * 1024 * 1024.
Proof. by vm_compute. Qed.

Definition sample_layout : Layout := Build_Layout 0x80109000 0x8033e550 sample_data sample_align sample_end.

(** Page [i] above the first four megabytes. *)
Definition page (i : Z) : Z := 0x80400000 + PGSIZE * i.

Section Sample.
Local Existing Instance sample_layout.

Lemma page_page_ok i : 0 <= i < 10000 -> page_ok (page i).
Proof. intros Hi. unfold page_ok, page. cbn [lk_end sample_layout]. mlia. Qed.

Lemma page_inj i j : page i = page j -> i = j.
Proof. unfold page. mlia. Qed.

(** A machine whose free list holds the given pages and whose other memory is
    zero. *)
Definition machine0 : kst := mkkst false true 0 ∅ [].

Definition machine (ps : list Z) : kst := foldr freed machine0 ps.

Lemma machine_inv ps : Forall page_ok ps -> NoDup ps -> kmem_inv (machine ps) ps.
Proof.
  induction ps as [|p ps IH]; intros Ha Hn; [by split; [|constructor|]|].
  apply Forall_cons in Ha as [Hp Ha]. apply NoDup_cons in Hn as [Hni Hn].
  apply freed_inv; [done|done|by apply IH].
Qed.

Lemma machine_frame ps : Forall page_ok ps -> frame (fun q => q ∈ ps) ∅ (mem (machine ps)).
Proof.
  induction ps as [|p ps IH]; intros Ha; [done|]. apply Forall_cons in Ha as [Hp Ha].
  eapply frame_trans; [eapply frame_weaken; [|by apply IH]|eapply frame_weaken; [|by apply freed_frame]].
  - intros q Hq. apply elem_of_cons. by right.
  - intros q <-. apply elem_of_cons. by left.
Qed.

Lemma kalloc_kfree_refine_witness : wp kalloc (fun p s' => p = page 1) (machine [page 1; page 2]).
Proof.
  assert (kmem_inv (machine [page 1; page 2]) [page 1; page 2]) as Hi.
  { apply machine_inv; [repeat constructor; by apply page_page_ok|by apply (bool_decide_unpack _)]. }
  destruct (kalloc_kfree_refine (machine [page 1; page 2]) [page 1; page 2] 0 Hi) as [Hw _];
    [split; [apply Z.le_refl|reflexivity]|].
  eapply wp_mono; [|exact Hw]. intros p s' [Hp _]. exact Hp.
Defined.

Lemma kinit_fills_witness : exists a s',
  (kinit1 lk_end (P2V (4 * 1024 * 1024)) ;;; kinit2 (P2V (4 * 1024 * 1024)) (P2V PHYSTOP))
    machine0 = Ret a s'.
Proof.
  destruct (wp_inv _ _ _ (kinit_fills machine0 eq_refl)) as (a & s' & E & _).
  exists a, s'. exact E.
Defined.

(** A blank page is an empty page directory. *)
Lemma machine_vm ps d : Forall page_ok ps -> NoDup ps -> page_ok d -> d ∉ ps ->
  vm_inv (machine ps) ps d ∅.
Proof.
  intros Ha Hn Hd Hni. split; [by apply machine_inv| |].
  - split; [done|done| |done]. intros i Hi. unfold pde_at.
    erewrite frame_load32; [|by apply machine_frame|apply Hd|done|done]. done.
  - intros q [->|[i Hi]]; [done|]. by rewrite lookup_empty in Hi.
Qed.

Lemma machine_unmapped ps d va : Forall page_ok ps -> NoDup ps -> page_ok d -> d ∉ ps ->
  0 <= va < 4294967296 -> mapping (mem (machine ps)) d va = None.
Proof.
  intros Ha Hn Hd Hni Hva. unfold mapping.
  rewrite (vo_pde _ _ _ (vi_ok _ _ _ _ (machine_vm ps d Ha Hn Hd Hni))) by by apply PDX_range.
  by rewrite lookup_empty.
Qed.

(** ** A segment of two pages with key 7, and a process with directory
    [page 20] *)

Definition sample_seg : seg := mkseg 7 [page 10; page 11].

Definition sample_segs : gmap Z seg := {[ 0 := sample_seg ]}.

Definition sample_tab : arr shmid_ds :=
  {[ 0 := new_slot 7 2 4 1 (page 10); 1 := new_slot 7 2 4 1 (page 11) ]}.

Definition sample_proc : shproc := mkshproc 1 (page 20) ∅.

Definition sample (ps : list Z) : shst :=
  mkshst (machine ps) false sample_tab 1 1 2 (mkdate 0 0 0 0) (mkdate 30 15 12 4) 100 sample_proc.

Definition free5 : list Z := [page 0; page 1; page 2; page 3; page 4].

Lemma free5_ok : Forall page_ok free5 /\ NoDup free5.
Proof.
  split; [repeat constructor; by apply page_page_ok|].
  by apply (bool_decide_unpack _).
Qed.

Lemma sample_lookup id g : sample_segs !! id = Some g -> id = 0 /\ g = sample_seg.
Proof. unfold sample_segs. intros H. by apply lookup_singleton_Some in H as [<- <-]. Qed.

Lemma sample_tab_inv : tab_inv sample_tab 1 sample_segs.
Proof.
  split.
  - by vm_compute.
  - intros id g [-> ->]%sample_lookup. by vm_compute.
  - intros id g j p [-> ->]%sample_lookup Hj. destruct j as [|[|j]]; simplify_eq/=.
    + split; [done|by apply page_page_ok].
    + split; [done|by apply page_page_ok].
  - by intros id g id' g' i [-> _]%sample_lookup [-> _]%sample_lookup.
  - intros i Hi Hno. exfalso. apply (Hno 0 sample_seg); [done|]. unfold in_seg.
    change (sg_n sample_seg) with 2. lia.
  - intros id g j id' g' j' p [-> ->]%sample_lookup [-> ->]%sample_lookup Hj Hj'. split; [done|].
    eapply NoDup_lookup; [|exact Hj|exact Hj']. by apply (bool_decide_unpack _).
Qed.

Lemma sample_shm_inv ps : Forall page_ok ps -> NoDup ps -> page 10 ∉ ps -> page 11 ∉ ps ->
  shm_inv (sample ps) ps sample_segs.
Proof.
  intros Ha Hn H10 H11. split; [by apply machine_inv|done|apply sample_tab_inv|].
  intros q (id & g & [-> ->]%sample_lookup & Hq). cbn in Hq.
  by apply elem_of_cons in Hq as [->|[->|[]%not_elem_of_nil]%elem_of_cons].
Qed.

Lemma page_notin i (js : list Z) : i ∉ js -> page i ∉ page <$> js.
Proof. intros Hi (j & Hj & Hin)%list_elem_of_fmap. by apply page_inj in Hj as <-. Qed.

Lemma free5_notin i : i ∉ [0; 1; 2; 3; 4] -> page i ∉ free5.
Proof. apply (page_notin i [0; 1; 2; 3; 4]). Qed.

Ltac notin_free5 := apply free5_notin; by apply (bool_decide_unpack _).

Lemma sample_free5 : shm_inv (sample free5) free5 sample_segs.
Proof. apply sample_shm_inv; [apply free5_ok|apply free5_ok|notin_free5|notin_free5]. Qed.

Lemma sample_seg_page q : seg_page sample_segs q -> q = page 10 \/ q = page 11.
Proof.
  intros (id & g & [-> ->]%sample_lookup & Hq).
  by apply elem_of_cons in Hq as [->|[->|[]%not_elem_of_nil]%elem_of_cons]; auto.
Qed.

Lemma sample_proc_inv : proc_inv (sample free5) free5 sample_segs ∅ ∅.
Proof.
  destruct free5_ok as [Hf Hn]. assert (page_ok (page 20)) as Hd by by apply page_page_ok.
  assert (page 20 ∉ free5) as Hni by notin_free5. split.
  - apply sample_free5.
  - by apply machine_vm.
  - intros q [->|[i Hi]] Hs; [|by rewrite lookup_empty in Hi].
    by apply sample_seg_page in Hs as [Hs|Hs]; apply page_inj in Hs.
  - intros i Hi _. pose proof (win_bounds i Hi). apply machine_unmapped; try done. mlia.
  - intros si id Ha. by rewrite lookup_empty in Ha.
  - intros si id g si' id' g' i Ha. by rewrite lookup_empty in Ha.
Qed.

Lemma sample_win_tables : win_tables free5 ∅.
Proof. unfold win_tables. vm_compute. lia. Qed.

(** The same process with the segment attached at slot 0. *)
Definition sample_attached : shst :=
  let k1 := with_table (page 20) 508 (page 0) (machine free5) in
  let k2 := with_pte (page 0) (win 0) (page 10 + 7) k1 in
  let k3 := with_pte (page 0) (win 1) (page 11 + 7) k2 in
  mkshst k3 false sample_tab 1 1 2 (mkdate 0 0 0 0) (mkdate 30 15 12 4) 100
    (mkshproc 1 (page 20) {[ 0 := mkatt 1 0; 1 := mkatt 1 0 ]}).

Definition free4 : list Z := [page 1; page 2; page 3; page 4].

Definition sample_tabs : gmap Z Z := {[ 508 := page 0 ]}.

(** The page table of [sample_attached]. *)
Lemma sample_attached_vm :
  vm_inv (km sample_attached) free4 (page 20) sample_tabs /\
  forall va, 0 <= va < 4294967296 -> mapping (mem (km sample_attached)) (page 20) va =
    if decide (page_of va = win 0) then Some (page 10 + 7) else
    if decide (page_of va = win 1) then Some (page 11 + 7) else None.
Proof.
  destruct free5_ok as [Hf Hn]. assert (page_ok (page 20)) as Hd by by apply page_page_ok.
  assert (page 20 ∉ free5) as Hni by notin_free5.
  destruct (with_table_ok _ _ _ _ _ 508 (machine_vm free5 (page 20) Hf Hn Hd Hni))
    as (H1 & M1 & _ & _); [lia|done|].
  rewrite insert_empty in H1. fold sample_tabs in H1. set (k1 := with_table _ _ _ _) in *.
  destruct (with_pte_ok k1 free4 (page 20) sample_tabs (win 0) (page 0) (page 10 + 7) H1)
    as (H2 & M2 & _); [by vm_compute|done|by vm_compute|]. set (k2 := with_pte _ _ _ k1) in *.
  destruct (with_pte_ok k2 free4 (page 20) sample_tabs (win 1) (page 0) (page 11 + 7) H2)
    as (H3 & M3 & _); [by vm_compute|done|by vm_compute|].
  split; [exact H3|]. intros va Hva. etrans; [exact (M3 va Hva)|]. rewrite (M2 va Hva).
  rewrite (M1 va Hva), (machine_unmapped free5) by done.
  change (page_of (win 0)) with (win 0). change (page_of (win 1)) with (win 1).
  assert (win 0 <> win 1) by done. repeat case_decide; try congruence; reflexivity.
Qed.

Lemma sample_attached_inv :
  proc_inv sample_attached free4 sample_segs sample_tabs {[ 0 := 0 ]}.
Proof.
  destruct sample_attached_vm as [Hvm Hm]. destruct free5_ok as [Hf Hn].
  assert (forall i, i ∉ [1; 2; 3; 4] -> page i ∉ free4) as Hni
    by (intros i; apply (page_notin i [1; 2; 3; 4])).
  split.
  - split; [apply Hvm|done|apply sample_tab_inv|].
    intros q [->| ->]%sample_seg_page; apply Hni; by apply (bool_decide_unpack _).
  - exact Hvm.
  - intros q [->|[i Hi]] Hs.
    + by apply sample_seg_page in Hs as [Hs|Hs]; apply page_inj in Hs.
    + unfold sample_tabs in Hi. apply lookup_singleton_Some in Hi as [_ <-].
      by apply sample_seg_page in Hs as [Hs|Hs]; apply page_inj in Hs.
  - intros i Hi H0. pose proof (win_bounds i Hi) as (? & ? & ? & Hp). cbn [cur sample_attached pgdir].
    rewrite Hm by mlia. rewrite Hp.
    destruct (decide (i = 0)) as [->|]; [done|]. destruct (decide (i = 1)) as [->|]; [done|].
    rewrite decide_False by (unfold win; mlia). by rewrite decide_False by (unfold win; mlia).
  - intros si id Ha. apply lookup_singleton_Some in Ha as [<- <-]. exists sample_seg.
    split; [done|]. split; [lia|]. split; [by vm_compute|]. intros j p Hj.
    destruct j as [|[|j]]; [| |done]; injection Hj as <-.
    + split; [done|]. exists 7. split; [by vm_compute|]. rewrite Hm by (by vm_compute).
      by rewrite decide_True.
    + split; [done|]. exists 7. split; [by vm_compute|]. rewrite Hm by (by vm_compute).
      rewrite decide_False by done. by rewrite decide_True.
  - intros si id g si' id' g' i Ha _ Ha' _ _ _.
    by apply lookup_singleton_Some in Ha as [<- _]; apply lookup_singleton_Some in Ha' as [<- _].
Qed.

End Sample.
