(* ===== verification/ShmTheorems.v ===== *)
(** * Shared memory: what the calls guarantee

    The theorems about [shmget], [shmat], [shmdt], [shmctl] and [removeshm],
    stated against the abstract views of [ShmFacts] (segments) and [ShmProc]
    (attachments), with a concrete state that satisfies their hypotheses. *)

From stdpp Require Import base tactics numbers gmap strings list.
From Stdlib Require Import ZArith Lia.
From S2P Require Import Prelude Mmu Memory Spinlock Kalloc Vm VmFacts Shm ShmFacts ShmProc Sample.

Section ShmTheorems.
Context {L : Layout}.

(** An exclusive creation under an unused key. *)
Lemma get_excl_inv s l segs key size res s' segs' l' :
  get_result s l segs key size (Z.lor IPC_CREAT IPC_EXCL) res s' segs' l' ->
  SHMMIN <= size <= MAXSEGSIZE -> key_unused segs key ->
  (res = ENOSPC /\ s' = s /\ segs' = segs /\ l' = l) \/
  exists inc, segs' = <[res := mkseg key (take (Z.to_nat (npages size)) l)]> segs /\
    l' = drop (Z.to_nat (npages size)) l /\
    created s l segs key (npages size) (Z.lor IPC_CREAT IPC_EXCL) res inc s'.
Proof.
  intros Hg Hsz Hun. inversion Hg as [id Hf [(g & Hgs & Hkg) _]| |Hf|r s1 segs1 l1 _ _ Hc|]; subst; try done.
  - by apply Hun in Hgs.
  - inversion Hc; subst; [lia|by left|right; eauto].
Qed.







(** A segment created with [IPC_CREAT | IPC_EXCL] is found again: a later
    [shmget] of the same key, with any size and no creation flag, returns the
    identifier of the new segment and changes nothing. *)
Theorem shmget_create_lookup s l segs key size size' :
  shm_inv s l segs -> key <> -1 -> key <> IPC_PRIVATE -> enough l size ->
  SHMMIN <= size <= MAXSEGSIZE -> key_unused segs key ->
  wp (let* id := shmgetHelper key size (Z.lor IPC_CREAT IPC_EXCL) in
      let* id' := shmgetHelper key size' 0 in ret (id, id'))
    (fun '(id, id') s' => id = ENOSPC /\ id' = ENOENT /\ s' = s \/
       id' = id /\ 0 <= id /\ segs !! id = None /\
       shm_inv s' (drop (Z.to_nat (npages size)) l)
         (<[id := mkseg key (take (Z.to_nat (npages size)) l)]> segs)) s.
Proof.
  intros Hi Hk Hp He Hsz Hun. apply wp_bind. eapply wp_shmget_key; try done.
  intros id s1 segs1 l1 Hg. pose proof (get_result_inv _ _ _ _ _ _ _ _ _ _ Hi Hg) as Hi1.
  apply get_excl_inv in Hg; [|done|done].
  apply wp_bind. eapply (wp_shmget_key _ _ _ _ _ 0 _ Hi1); try done; [by intros []|].
  intros id' s2 segs2 l2 Hg2. apply wp_ret.
  destruct Hg as [(-> & -> & -> & ->)|(inc & -> & -> & Hc)].
  - left. inversion Hg2; subst; try done; [|by destruct H].
    destruct H0 as [(g' & Hg' & Hk') _]. by apply Hun in Hg'.
  - right. pose proof (cr_inv _ _ _ _ _ _ _ _ _ Hc) as Hci.
    pose proof (ti_seg _ _ _ (si_tab _ _ _ Hci) id _ (lookup_insert_eq _ _ _)) as Hid.
    inversion Hg2; subst; try done; [| |by destruct H].
    + assert (id' = id) as ->; [|split_and!; try done; [apply Hid|apply Hc]].
      destruct H0 as [(g' & Hg' & Hk') _]. rewrite lookup_insert in Hg'.
      case_decide as E; [done|]. by apply Hun in Hg'.
    + exfalso. eapply (H1 id); [by rewrite lookup_insert_eq|done].
Qed.

(** ** Removal *)

Definition said (fmt : string) (args : list carg) (s : shst) : shst :=
  set_km (set_out (out (km s) ++ [(fmt, args)]) (km s)) s.

Lemma said_inv fmt args s l segs : shm_inv s l segs -> shm_inv (said fmt args s) l segs.
Proof. intros [[Hr Hn Hk] Hlk Ht Hown]. by split. Qed.

(** The state in which the tail of [removeshm] runs: a search by key has
    printed the identifier. *)
Definition remove_from (flag id : Z) (s : shst) : shst :=
  if flag =? 1 then said "shmid: %d\n" [CInt id] s else s.

(** The segment an identifier and a flag select. *)
Definition selects (segs : gmap Z seg) (x flag id : Z) : Prop :=
  if flag =? 1 then x <> -1 /\ key_first segs x id else id = x.

Lemma wp_removeshm s l segs x flag id g (Q : Z -> shst -> Prop) :
  shm_inv s l segs -> selects segs x flag id -> segs !! id = Some g ->
  (forall res s', remove_post (remove_from flag id s) l segs id g res s' -> Q res s') ->
  wp (removeshmHelper x flag) Q s.
Proof.
  intros Hi Hsel Hg HQ. pose proof (si_tab _ _ _ Hi) as Ht.
  destruct (seg_head _ _ _ _ _ Ht Hg) as (_ & _ & Hid).
  unfold removeshmHelper, selects, remove_from in *. apply wp_bind, wp_gets.
  destruct (flag =? 1) eqn:Hf.
  - apply wp_bind, wp_bind. destruct Hsel as [Hx [(g' & Hg' & Hk) Hmin]].
    eapply wp_find_key; [exact Ht|done|..].
    { intros Hno. by apply Hno in Hg'. }
    intros id2 g2 Hg2 Hk2 Hmin2. assert (id2 = id) as ->.
    { pose proof (Hmin _ _ Hg2 Hk2). pose proof (Hmin2 _ _ Hg' Hk). lia. }
    apply wp_bind, wp_zoom, wp_modify, wp_ret. rewrite orb_diag.
    rewrite (proj2 (Z.eqb_neq id _)) by lia.
    eapply wp_remove_tail; [|exact Hg|exact HQ]. by apply said_inv.
  - subst x. apply wp_bind, wp_ret.
    assert ((0 =? lastShmSegIndex s + 1) || (id =? lastShmSegIndex s + 1) = false) as ->.
    { apply orb_false_iff. rewrite !Z.eqb_neq. lia. }
    by eapply wp_remove_tail.
Qed.

(** C5: [removeshm] on an existing segment, selected by identifier or by key:
    with no attachment the segment disappears from the table, its pages go
    back to the free list, and every other segment and all memory outside
    those pages are untouched; while attached it stays, marked for
    destruction, and the call returns -1. *)
Theorem removeshm_refines s l segs x flag id g :
  shm_inv s l segs -> selects segs x flag id -> segs !! id = Some g ->
  wp (removeshmHelper x flag) (remove_post (remove_from flag id s) l segs id g) s.
Proof. intros Hi Hs Hg. by eapply wp_removeshm. Qed.

(** C6: creating a segment and removing it again leaks nothing: the free list
    holds the same pages as before, and the abstract table is the old one. *)
Theorem shmget_removeshm_no_leak s l segs key size :
  shm_inv s l segs -> key <> -1 -> key <> IPC_PRIVATE -> enough l size ->
  SHMMIN <= size <= MAXSEGSIZE -> key_unused segs key ->
  wp (let* id := shmgetHelper key size (Z.lor IPC_CREAT IPC_EXCL) in
      if id <? 0 then ret id else removeshmHelper id 0)
    (fun res s' => res = ENOSPC /\ s' = s \/
       res = 0 /\ exists l', shm_inv s' l' segs /\ l' ≡ₚ l) s.
Proof.
  intros Hi Hk Hp He Hsz Hun. apply wp_bind. eapply wp_shmget_key; try done.
  intros id s1 segs1 l1 Hg. apply get_excl_inv in Hg; [|done|done].
  destruct Hg as [(-> & -> & -> & ->)|(inc & -> & -> & Hc)]; [apply wp_ret; by left|].
  pose proof (cr_inv _ _ _ _ _ _ _ _ _ Hc) as Hi1.
  pose proof (ti_seg _ _ _ (si_tab _ _ _ Hi1) id _ (lookup_insert_eq _ _ _)) as Hid.
  rewrite (proj2 (Z.ltb_ge id 0)) by lia.
  eapply wp_removeshm; [exact Hi1|done|by rewrite lookup_insert_eq|].
  intros res s2. unfold remove_post, remove_from. cbn [Z.eqb].
  rewrite (cr_slots _ _ _ _ _ _ _ _ _ Hc), decide_True
    by (pose proof (npages_bounds size Hsz); lia).
  cbn. intros (-> & Hi2 & _). right. split; [done|].
  exists (reverse (take (Z.to_nat (npages size)) l) ++ drop (Z.to_nat (npages size)) l).
  rewrite delete_insert_id in Hi2 by apply Hc. split; [done|].
  rewrite reverse_Permutation. by rewrite take_drop.
Qed.

(** ** Attaching and detaching *)

Abbreviation dir s := (pgdir (cur s)).
Abbreviation pmem s := (mem (km s)).






(** With an address and [SHM_RND], [shmat] rounds the address down to its
    page and attaches the segment there, when the slots are free. *)
Theorem shmat_rnd_refines s l segs tabs atts id g addr si :
  proc_inv s l segs tabs atts -> win_tables l tabs -> segs !! id = Some g ->
  0 <= si -> si + sg_n g <= SHMMAXSEG -> win si <= addr < win si + PGSIZE ->
  run (slot_unattached s) si (sg_n g) ->
  wp (shmatHelper id addr SHM_RND)
    (fun res s' => exists l' tabs', res = win si /\
       proc_inv s' l' segs tabs' (<[si := id]> atts) /\
       (forall va, 0 <= va < 4294967296 -> mapping (pmem s') (dir s') va =
          with_pages (pmem s) (dir s) si (sg_n g) (sg_pages g) (attach_flags SHM_RND) va)) s.
Proof.
  intros Hp Hw Hg Hsi Hmax Ha Hrun. eapply wp_shmat_rnd; try done.
  intros s' l' tabs' Hs'. exists l', tabs'. split_and!; try done; try apply Hs'.
  eapply attached_inv; try done.
  intros i Hi. specialize (Hrun i Hi). unfold slot_unattached in Hrun. by bprop.
Qed.



Lemma mapping_page m pg va : 0 <= va < 4294967296 -> mapping m pg va = mapping m pg (page_of va).
Proof.
  intros Hva. destruct (slot_page va (page_of va) Hva) as [E1 E2]; try (unfold page_of; mlia).
  unfold mapping. by rewrite E1, E2.
Qed.

(** An attachment that is made and dropped leaves no mapping behind. *)
Lemma attach_detach_mapping s l segs tabs atts si g f va :
  proc_inv s l segs tabs atts -> 0 <= si -> si + sg_n g <= SHMMAXSEG ->
  run (slot_unattached s) si (sg_n g) -> 0 <= va < 4294967296 ->
  (if decide (win si <= va < win (si + sg_n g)) then None
   else with_pages (pmem s) (dir s) si (sg_n g) (sg_pages g) f va) = mapping (pmem s) (dir s) va.
Proof.
  intros Hp Hsi Hmax Hrun Hva. unfold with_pages. case_decide as Hin; [|done].
  rewrite mapping_page by done.
  assert (page_of va = win ((va - HEAPLIMIT) / PGSIZE)) as -> by (unfold page_of, win in *; mlia).
  symmetry. apply (pi_free _ _ _ _ _ Hp); [unfold win in *; mlia|].
  assert (si <= (va - HEAPLIMIT) / PGSIZE < si + sg_n g) as Hi by (unfold win in *; mlia).
  specialize (Hrun _ Hi). unfold slot_unattached in Hrun. by bprop.
Qed.

Lemma unattached_fresh s l segs tabs atts si n : proc_inv s l segs tabs atts -> 1 <= n ->
  run (slot_unattached s) si n -> atts !! si = None.
Proof.
  intros Hp Hn Hrun. destruct (atts !! si) as [id|] eqn:Ha; [|done]. exfalso.
  destruct (pi_att _ _ _ _ _ Hp _ _ Ha) as (g & Hg & _ & _ & Hj).
  destruct (ti_seg _ _ _ (si_tab _ _ _ (pi_shm _ _ _ _ _ Hp)) _ _ Hg) as (_ & Hn' & _).
  destruct (lookup_lt_is_Some_2 (sg_pages g) 0) as [p Hlp]; [unfold sg_n in Hn'; lia|].
  destruct (Hj _ _ Hlp) as [Hat _]. specialize (Hrun si ltac:(lia)).
  unfold slot_unattached in Hrun. rewrite Z.add_0_r in Hat. by rewrite Hat in Hrun.
Qed.

(** C4: [shmat] followed by [shmdt] is a round trip: afterwards the process
    has the attachments and the address-space mappings it had before, and the
    attachment count of every slot is what it was. *)
Theorem shmat_shmdt_roundtrip s l segs tabs atts id g flag :
  proc_inv s l segs tabs atts -> win_tables l tabs -> segs !! id = Some g ->
  (forall i, 0 <= shm_nattch (shm_segs s).[i] < 4294967296) ->
  wp (let* va := shmatHelper id 0 flag in if va <? 0 then ret va else shmdtHelper va)
    (fun res s' => res = ENOMEM /\ s' = s \/
       res = 0 /\ exists l' tabs', proc_inv s' l' segs tabs' atts /\
         (forall va, 0 <= va < 4294967296 ->
            mapping (pmem s') (dir s') va = mapping (pmem s) (dir s) va) /\
         forall i, shm_nattch (shm_segs s').[i] = shm_nattch (shm_segs s).[i]) s.
Proof.
  intros Hp Hw Hg Hna. apply wp_bind. eapply wp_shmat_any; try done.
  { intros _. apply wp_ret. by left. }
  intros si s1 l1 tabs1 Hsi Hmax Hrun _ Hs1.
  rewrite (proj2 (Z.ltb_ge (win si) 0)) by (unfold win; mlia).
  assert (proc_inv (set_lock false s1) l1 segs tabs1 (<[si := id]> atts)) as Hp1.
  { eapply attached_inv; try done. intros i Hi. specialize (Hrun i Hi).
    unfold slot_unattached in Hrun. by bprop. }
  eapply wp_shmdt; [exact Hp1|by rewrite lookup_insert_eq|exact Hg|]. intros s2 s' Hs2 ->.
  right. split; [done|]. exists l1, tabs1.
  destruct (ti_seg _ _ _ (si_tab _ _ _ (pi_shm _ _ _ _ _ Hp)) _ _ Hg) as (_ & Hn & _).
  pose proof (detached_inv _ _ _ _ _ _ _ _ _ Hp1 (lookup_insert_eq _ _ _) Hg Hs2) as Hp2.
  rewrite delete_insert_id in Hp2 by by eapply unattached_fresh. split; [done|]. split.
  - intros va Hva. cbn. rewrite (dt_map _ _ _ _ _ _ _ Hs2) by done. unfold without_pages.
    cbn. rewrite (at_map _ _ _ _ _ _ _ _ _ _ _ Hs1) by done. by eapply attach_detach_mapping.
  - intros i. cbn. rewrite asel_insert. pose proof (dt_slots _ _ _ _ _ _ _ Hs2) as D.
    pose proof (at_slots _ _ _ _ _ _ _ _ _ _ _ Hs1) as A. cbn in D. specialize (Hna i).
    case_decide; [subst i|]; cbn; rewrite D; cbn; rewrite A; case_decide; try done; cbn;
      wrap_lia.
Qed.

(** ** Control *)









(** The error returns of the calls: an identifier outside the table is
    [EINVAL] for [shmat] and [shmctl], a slot whose segment was removed is
    [EIDRM], and neither changes anything. *)
Theorem shm_bad_id s l segs id addr flag cmd buf :
  shm_inv s l segs -> (forall id' g, segs !! id' = Some g -> ~ in_seg id' g id) ->
  let e := if (id <? 0) || (lastShmSegIndex s <? id) then EINVAL else EIDRM in
  shmatHelper id addr flag s = Ret e s /\ shmctlHelper id cmd buf s = Ret (e, buf) s.
Proof.
  intros Hi Hno e. pose proof (si_tab _ _ _ Hi) as Ht. pose proof (ti_last _ _ _ Ht) as Hl.
  unfold shmatHelper, shmctlHelper, bind, gets. subst e.
  destruct ((id <? 0) || (lastShmSegIndex s <? id)) eqn:Hb; [done|]. bprop.
  rewrite get_seg_eq by lia.
  destruct (slot_cases _ _ _ id Ht ltac:(lia)) as [[Hk Hz]|(id' & g & j & p & Hg & Hij & Hp & _)].
  - rewrite Hk, Hz. done.
  - exfalso. eapply Hno; [exact Hg|]. apply lookup_lt_Some in Hp. unfold in_seg, sg_n. lia.
Qed.

(** ** Where the code does not do what it means to *)

(** The page-table entries [shmat] installs hold kernel virtual addresses:
    the table already stores physical addresses, and [allocshmuvm] subtracts
    [KERNBASE] once more.  For every page [p] of the segment the entry's
    frame is [p] itself, which is not the frame the page lives in and lies
    beyond the end of physical memory. *)
Theorem shmat_wrong_frame s l segs tabs atts id g flag :
  proc_inv s l segs tabs atts -> win_tables l tabs -> segs !! id = Some g ->
  wp (shmatHelper id 0 flag)
    (fun res s' => res = ENOMEM \/ forall j p, sg_pages g !! j = Some p ->
       exists e, mapping (pmem s') (dir s') (res + PGSIZE * Z.of_nat j) = Some e /\
         PTE_ADDR e = p /\ PTE_ADDR e <> V2P p /\ PHYSTOP < PTE_ADDR e) s.
Proof.
  intros Hp Hw Hg. eapply wp_shmat_any; try done; [by left|].
  intros si s' l' tabs' Hsi Hmax _ _ Hs'. right. intros j p Hj.
  destruct (ti_slot _ _ _ (si_tab _ _ _ (pi_shm _ _ _ _ _ Hp)) _ _ _ _ Hg Hj) as [_ Hpok].
  pose proof (page_ok_range p Hpok) as Hr. apply lookup_lt_Some in Hj as Hlt.
  exists (p + attach_flags flag). split.
  - replace (win si + PGSIZE * Z.of_nat j) with (win (si + Z.of_nat j)) by (unfold win; lia).
    pose proof (win_bounds (si + Z.of_nat j) ltac:(unfold sg_n in *; lia)). cbn.
    rewrite (at_map _ _ _ _ _ _ _ _ _ _ _ Hs') by mlia. rewrite with_pages_win by lia.
    rewrite decide_True by (unfold sg_n; lia).
    replace (Z.to_nat (si + Z.of_nat j - si)) with j by lia. by rewrite Hj.
  - destruct (PTE_ADDR_compose p (attach_flags flag)) as [-> _]; try mlia.
    { apply Hpok. }
    { apply attach_flags_range. }
    rewrite V2P_high by mlia. mlia.
Qed.

(** The permissions of an attachment are those of bit 1 of the flag, which is
    the bit [SHM_RDONLY] sets: asking for a read-only attachment gives a
    writable one, and asking for nothing gives a read-only one. *)
Lemma shmat_rdonly_writable :
  has (attach_flags SHM_RDONLY) PTE_W = true /\ has (attach_flags 0) PTE_W = false.
Proof. done. Qed.

(** [shmget] with [IPC_CREAT], a key in use and a size smaller than the
    segment's does not return the segment: unless it fails it makes a second
    segment with the same key. *)
Theorem shmget_creat_duplicates s l segs key size id g :
  shm_inv s l segs -> key <> -1 -> key <> IPC_PRIVATE -> enough l size ->
  key_first segs key id -> segs !! id = Some g -> size < PGSIZE * sg_n g ->
  SHMMIN <= size <= MAXSEGSIZE ->
  wp (shmgetHelper key size IPC_CREAT)
    (fun res s' => res = ENOSPC /\ s' = s \/
       exists segs' l' g', res <> id /\ shm_inv s' l' segs' /\
         segs' !! id = Some g /\ segs' !! res = Some g' /\ sg_key g = key /\ sg_key g' = key) s.
Proof.
  intros Hi Hk Hp He Hf Hg Hlt Hsz. eapply wp_shmget_key; try done.
  intros res s' segs' l' Hres. destruct Hf as [(g0 & Hg0 & Hgk) Hmin].
  assert (g0 = g) as -> by congruence.
  pose proof (get_result_inv _ _ _ _ _ _ _ _ _ _ Hi Hres) as Hi'.
  assert (create_result s l segs key size IPC_CREAT res s' segs' l') as Hc.
  { inversion Hres as [|id2 g2 _ [(g3 & Hg3 & Hk3) Hm2] Hg2 Hsz2| |? ? ? ? ? Hun|]; subst; try done.
    assert (res = id) as ->.
    { pose proof (Hmin _ _ Hg3 Hk3). pose proof (Hm2 _ _ Hg eq_refl). lia. }
    assert (g2 = g) as -> by congruence. specialize (Hsz2 eq_refl). lia. }
  inversion Hc as [|? ? ? ?|index inc s1 ? ? ? Hcr]; subst; [lia|by left|].
  right. pose proof (cr_fresh _ _ _ _ _ _ _ _ _ Hcr) as Hfr.
  assert (res <> id) as Hne by congruence.
  eexists _, _, _. split; [done|]. split; [exact Hi'|].
  split; [by rewrite lookup_insert_ne|]. split; [by rewrite lookup_insert_eq|done].
Qed.

(** Unmapping from slot 0 with more than one slot in use runs below zero. *)
Lemma unmap_zero_undef s : lock s = false -> 1 <= lastShmSegIndex s < SHMMAXSEG ->
  unmapShmSegPage 0 s = Undef.
Proof.
  intros Hlk Hl. unfold unmapShmSegPage. eapply bind_step.
  { unfold shm_acquire, Lock.acquire. by rewrite Hlk. }
  apply bind_undef. set (s1 := set_lock true s).
  assert (u32 (lastShmSegIndex s1) = lastShmSegIndex s1) as Hu by (apply u32_small; cbn; mlia).
  replace (Z.to_nat SHMMAXSEG + 2)%nat with (S (S (Z.to_nat SHMMAXSEG))) by lia. cbn [iter].
  eapply bind_step; [eapply bind_step; [done|]|].
  { rewrite Hu, (proj2 (Z.eqb_neq 0 _)) by (cbn; lia).
    eapply bind_step; [apply upd_seg_eq; mlia|done]. }
  apply bind_undef. eapply bind_step; [done|]. cbn [lastShmSegIndex set_segs].
  rewrite Hu, (proj2 (Z.eqb_neq _ _)) by (cbn [lastShmSegIndex set_lock s1]; mlia).
  apply bind_undef. unfold upd_seg. apply bind_undef. done.
Qed.

Lemma find_run_free s last segs n : tab_inv (shm_segs s) last segs -> 1 <= n ->
  exists idx, find_run (fun i => let* d := get_seg i in ret (__key (shm_perm d) =? -1))
     (last + 1) n s = Ret idx s /\ (idx = -1 \/ 0 <= idx /\ idx + n <= last + 1).
Proof.
  intros Ht Hn. pose proof (ti_last _ _ _ Ht) as Hl. apply wp_unchanged.
  eapply (wp_find_run _ (fun i => __key (shm_perm (shm_segs s).[i]) =? -1)); try lia.
  - intros i Hib. eapply bind_step; [apply get_seg_eq; lia|done].
  - intros _. split; [done|by left].
  - intros i Hi0 Hir _ _. split; [done|by right].
Qed.

Lemma find_key_unused s segs key : tab_inv (shm_segs s) (lastShmSegIndex s) segs -> key <> -1 ->
  key_unused segs key -> find_key key s = Ret None s.
Proof.
  intros Ht Hk Hun. assert (exists o, find_key key s = Ret o s /\ o = None) as (o & -> & ->).
  { apply wp_unchanged. eapply wp_find_key; [exact Ht|done|done|]. intros id g Hg Hgk.
    by apply Hun in Hg. }
  done.
Qed.

Lemma alloc_oom_undef s segs key size flag : shm_inv s [] segs ->
  SHMMIN <= size <= MAXSEGSIZE -> 1 <= lastShmSegIndex s ->
  lastShmSegIndex s + 1 + npages size <= SHMMAXSEG -> allocShmSeg size key flag s = Undef.
Proof.
  intros Hi Hsz Hlast Hroom. pose proof (si_tab _ _ _ Hi) as Ht.
  pose proof (ti_last _ _ _ Ht) as Hl. destruct (npages_bounds size Hsz) as (Hr & Hn & _).
  unfold allocShmSeg. rewrite (proj2 (Z.ltb_ge size _)), (proj2 (Z.ltb_ge _ size)) by lia.
  cbn [orb]. fold (npages size). eapply bind_step; [done|].
  destruct (find_run_free s _ segs (npages size) Ht) as (idx & Hrun & Hidx); [lia|].
  eapply bind_step; [exact Hrun|]. set (index := if idx =? -1 then _ else _).
  assert ((SHMMAXSEG <? index + npages size) = false) as ->.
  { apply Z.ltb_ge. unfold index. destruct (idx =? -1) eqn:E; bprop; lia. }
  apply bind_undef. rewrite Nat.add_1_r. cbn [iter]. apply bind_undef. unfold allocShmSeg_step.
  rewrite (proj2 (Z.eqb_neq 0 (PGROUNDUP size))) by mlia.
  eapply bind_step; [unfold zoom; cbn [lget kml]; by rewrite (kalloc_eq _ _ (si_kmem _ _ _ Hi))|].
  rewrite Z.eqb_refl. eapply bind_step; [done|]. apply bind_undef.
  apply unmap_zero_undef; [apply Hi|cbn; lia].
Qed.

(** [shmget] that finds no memory for the first page of a segment clears
    slot 0, whoever owns it, and then indexes the table with 0xffffffff: with
    two or more slots in use the call has no defined result. *)
Theorem shmget_oom_undefined s segs key size :
  shm_inv s [] segs -> key <> -1 -> key <> IPC_PRIVATE -> key_unused segs key ->
  SHMMIN <= size <= MAXSEGSIZE -> 1 <= lastShmSegIndex s ->
  lastShmSegIndex s + 1 + npages size <= SHMMAXSEG ->
  shmgetHelper key size IPC_CREAT s = Undef.
Proof.
  intros Hi Hk Hp Hun Hsz Hlast Hroom. unfold shmgetHelper.
  rewrite (proj2 (Z.eqb_neq _ _) Hp). eapply bind_step; [done|].
  eapply bind_step; [eapply find_key_unused; [apply Hi|done|exact Hun]|].
  cbn [Z.eqb Z.lor IPC_CREAT IPC_EXCL Pos.eqb Pos.lor]. by eapply alloc_oom_undef.
Qed.

(** [shmat] at a page-aligned address without [SHM_RND] never reaches the
    address: the variable that should hold it stays 0, so the overlap check
    starts at a negative slot index, outside the process's table. *)
Theorem shmat_address_undefined s l segs id g addr flag :
  shm_inv s l segs -> segs !! id = Some g ->
  HEAPLIMIT <= addr < KERNBASE -> addr mod PGSIZE = 0 -> flag <> SHM_RND ->
  shmatHelper id addr flag s = Undef.
Proof.
  intros Hi Hg Ha Hal Hf. destruct (shmat_head _ _ _ _ _ Hi Hg) as (Hc & Hget & Hz).
  destruct (seg_req _ _ _ _ _ (si_tab _ _ _ Hi) Hg) as (Hr & Hq & Hn).
  unfold shmatHelper. eapply bind_step; [done|]. rewrite Hc. eapply bind_step; [exact Hget|].
  rewrite Hz, Hr, Hq. rewrite (proj2 (Z.eqb_neq addr 0)) by mlia.
  assert ((KERNBASE <? u32 addr) || (addr <? HEAPLIMIT) = false) as ->.
  { apply orb_false_iff. rewrite !Z.ltb_ge, u32_small by mlia. mlia. }
  rewrite (proj2 (Z.eqb_neq _ _) Hf). unfold crem. rewrite Z.rem_mod_nonneg by mlia. rewrite Hal.
  cbn [negb andb Z.eqb]. apply bind_undef.
  change (cdiv (i32 (0 - HEAPLIMIT)) PGSIZE) with (-520192). unfold for_exit.
  replace (Z.to_nat (sg_n g - -520192)) with (S (Z.to_nat (sg_n g + 520191))) by lia.
  cbn [forn_exit]. apply bind_undef. by apply bind_undef.
Qed.

End ShmTheorems.

(** ** The theorems on the sample machine *)

Section Witnesses.
Local Existing Instance sample_layout.

Lemma sample_enough : enough free5 8192.
Proof. intros _. by vm_compute. Qed.

Lemma sample_unused : key_unused sample_segs 42.
Proof. by intros id g [-> ->]%sample_lookup. Qed.

Lemma sample_first : key_first sample_segs 7 0.
Proof. split; [by exists sample_seg|]. by intros id g [-> _]%sample_lookup _. Qed.

Lemma sample_selects : selects sample_segs 7 1 0.
Proof. split; [done|apply sample_first]. Qed.

Lemma sample_empty_inv : shm_inv (sample []) [] sample_segs.
Proof. apply sample_shm_inv; [constructor|constructor|by intros ?%elem_of_nil..]. Qed.

Lemma sample_run : run (slot_unattached (sample free5)) 3 (sg_n sample_seg).
Proof. by intros j Hj. Qed.




Lemma shmget_create_lookup_witness : exists r s',
  (let* id := shmgetHelper 42 8192 (Z.lor IPC_CREAT IPC_EXCL) in
   let* id' := shmgetHelper 42 100 0 in ret (id, id')) (sample free5) = Ret r s'.
Proof.
  destruct (wp_inv _ _ _ (shmget_create_lookup (sample free5) free5 sample_segs 42 8192 100
    sample_free5 ltac:(done) ltac:(done) sample_enough ltac:(by vm_compute) sample_unused))
    as (r & s' & E & _).
  exists r, s'. exact E.
Defined.

Lemma removeshm_refines_witness : exists s', removeshmHelper 7 1 (sample free5) = Ret 0 s' /\
  shm_inv s' (page 11 :: page 10 :: free5) ∅.
Proof.
  destruct (wp_inv _ _ _ (removeshm_refines (sample free5) free5 sample_segs 7 1 0 sample_seg
    sample_free5 sample_selects eq_refl))
    as (r & s' & E & H & Hi & _).
  exists s'. rewrite H in E. split; [exact E|].
  unfold sample_segs in Hi. rewrite delete_singleton_eq in Hi. exact Hi.
Defined.

Lemma shmget_removeshm_no_leak_witness : exists r s',
  (let* id := shmgetHelper 42 8192 (Z.lor IPC_CREAT IPC_EXCL) in
   if id <? 0 then ret id else removeshmHelper id 0) (sample free5) = Ret r s'.
Proof.
  destruct (wp_inv _ _ _ (shmget_removeshm_no_leak (sample free5) free5 sample_segs 42 8192
    sample_free5 ltac:(done) ltac:(done) sample_enough ltac:(by vm_compute) sample_unused))
    as (r & s' & E & _).
  exists r, s'. exact E.
Defined.


Lemma shmat_rnd_refines_witness : exists s',
  shmatHelper 0 (win 3 + 100) SHM_RND (sample free5) = Ret (win 3) s'.
Proof.
  destruct (wp_inv _ _ _ (shmat_rnd_refines (sample free5) free5 sample_segs ∅ ∅ 0 sample_seg
    (win 3 + 100) 3 sample_proc_inv sample_win_tables eq_refl ltac:(by vm_compute)
    ltac:(by vm_compute) ltac:(by vm_compute) sample_run)) as (r & s' & E & l' & tabs' & H & _).
  exists s'. rewrite H in E. exact E.
Defined.


Lemma sample_nattch i : 0 <= shm_nattch (shm_segs (sample free5)).[i] < 4294967296.
Proof.
  cbn. unfold sample_tab. change {[0 := ?x; 1 := ?y]} with (<[0 := x]> {[1 := y]} : arr shmid_ds).
  rewrite asel_insert. case_decide; [by vm_compute|].
  rewrite <- insert_empty, asel_insert. case_decide; by vm_compute.
Qed.

Lemma shmat_shmdt_roundtrip_witness : exists r s',
  (let* va := shmatHelper 0 0 SHM_RDONLY in if va <? 0 then ret va else shmdtHelper va)
    (sample free5) = Ret r s'.
Proof.
  destruct (wp_inv _ _ _ (shmat_shmdt_roundtrip (sample free5) free5 sample_segs ∅ ∅ 0 sample_seg
    SHM_RDONLY sample_proc_inv sample_win_tables eq_refl sample_nattch)) as (r & s' & E & _).
  exists r, s'. exact E.
Defined.


Lemma sample_no_slot2 id' g : sample_segs !! id' = Some g -> ~ in_seg id' g 2.
Proof. intros [-> ->]%sample_lookup. unfold in_seg. change (sg_n sample_seg) with 2. lia. Qed.

Lemma shm_bad_id_witness :
  shmatHelper 2 0 0 (sample free5) = Ret EINVAL (sample free5).
Proof.
  exact (proj1 (shm_bad_id (sample free5) free5 sample_segs 2 0 0 0 czero_ds sample_free5
    sample_no_slot2)).
Defined.

Lemma shmat_wrong_frame_witness : exists r s', shmatHelper 0 0 SHM_RDONLY (sample free5) = Ret r s'.
Proof.
  destruct (wp_inv _ _ _ (shmat_wrong_frame (sample free5) free5 sample_segs ∅ ∅ 0 sample_seg
    SHM_RDONLY sample_proc_inv sample_win_tables eq_refl)) as (r & s' & E & _).
  exists r, s'. exact E.
Defined.

Lemma shmget_creat_duplicates_witness : exists r s',
  shmgetHelper 7 4096 IPC_CREAT (sample free5) = Ret r s'.
Proof.
  destruct (wp_inv _ _ _ (shmget_creat_duplicates (sample free5) free5 sample_segs 7 4096 0 sample_seg
    sample_free5 ltac:(done) ltac:(done) ltac:(intros _; by vm_compute) sample_first eq_refl
    ltac:(by vm_compute) ltac:(by vm_compute))) as (r & s' & E & _).
  exists r, s'. exact E.
Defined.

Lemma shmget_oom_undefined_witness : shmgetHelper 42 4096 IPC_CREAT (sample []) = Undef.
Proof.
  exact (shmget_oom_undefined (sample []) sample_segs 42 4096 sample_empty_inv ltac:(done)
    ltac:(done) sample_unused ltac:(by vm_compute) ltac:(by vm_compute) ltac:(by vm_compute)).
Defined.

Lemma shmat_address_undefined_witness :
  shmatHelper 0 (win 3) SHM_RDONLY (sample free5) = Undef.
Proof.
  exact (shmat_address_undefined (sample free5) free5 sample_segs 0 sample_seg (win 3) SHM_RDONLY
    sample_free5 eq_refl ltac:(by vm_compute) eq_refl ltac:(done)).
Defined.

End Witnesses.
