(* ===== verification/VmTheorems.v ===== *)
(** * Virtual memory: theorems

    [copyout] as an update of user memory, and the properties of the routines
    of [vm.c], with instances on the sample machine. *)

From stdpp Require Import base tactics numbers gmap strings list.
From Stdlib Require Import ZArith Lia.
From S2P Require Import Prelude Mmu Memory Spinlock Kalloc Vm VmFacts VmUser VmCopy Shm ShmFacts ShmProc Sample.

Section VmTheorems.
Context {L : Layout}.

(** ** [copyout] *)

(** The byte a user address holds. *)
Definition umem (m : memory) (us : gmap Z Z) (x : Z) : option Z :=
  match us !! page_of x with
  | Some p => Some (load8 m (p + x mod PGSIZE))
  | None => None
  end.

(** A page the process may access. *)
Definition user_page (m : memory) (pgdir : Z) (us : gmap Z Z) (b : Z) : Prop :=
  exists p e, us !! b = Some p /\ mapping m pgdir b = Some e /\ has e PTE_U = true.

Lemma uva2ka_eq s l pgdir tabs us b p e : as_inv s l pgdir tabs us -> us !! b = Some p ->
  mapping (mem s) pgdir b = Some e ->
  uva2ka pgdir b s = Ret (if has e PTE_U then p else 0) s.
Proof.
  intros Hi Hp Hm. destruct (as_table _ _ _ _ _ _ _ Hi Hp) as (t & e' & Ht & Hl & Hh & He).
  destruct (as_dom _ _ _ _ _ Hi _ _ Hp) as (Hb & Hal & Hpok).
  assert (0 <= b < 4294967296) as Hb' by mlia. pose proof (as_vm _ _ _ _ _ Hi) as Hvm.
  rewrite (mapping_entry _ _ _ _ b t Hvm Hb' Ht), Hl in Hm. unfold present in Hm.
  rewrite Hh in Hm. injection Hm as ->. destruct (page_phys p Hpok) as (_ & _ & _ & Hback).
  unfold uva2ka. eapply bind_step; [eapply walk_noalloc; [exact Hvm|exact Hb']|]. rewrite Ht.
  rewrite (walk_nonnull _ _ _ _ b t Hvm Hb' Ht). eapply bind_step; [done|]. rewrite Hl.
  unfold has in Hh |- *. rewrite negb_true_iff in Hh. rewrite Hh.
  destruct (Z.land e PTE_U =? 0); [done|]. by rewrite He, Hback.
Qed.

(** The bytes of one page written by one turn of [copyout]. *)
Lemma umem_memmove m us p b off src n x :
  (forall va va' q, us !! va = Some q -> us !! va' = Some q -> va = va') ->
  (forall va q, us !! va = Some q -> va mod 4096 = 0 /\ page_ok q) ->
  us !! b = Some p -> 0 <= off -> 0 <= n -> off + n <= PGSIZE ->
  umem (StringC.memmove m (p + off) src n) us x =
  if decide (b + off <= x < b + off + n) then Some (load8 m (src + (x - (b + off)))) else umem m us x.
Proof.
  intros Hinj Hok Hb Hoff Hn Hsum. destruct (Hok _ _ Hb) as [Hbal [Hpal _]]. unfold umem.
  case_decide as Hin.
  - assert (page_of x = b) as -> by (unfold page_of; mlia). rewrite Hb.
    rewrite StringC.memmove_spec by done. rewrite decide_True by mlia. do 2 f_equal. mlia.
  - destruct (us !! page_of x) as [q|] eqn:Hq; [|done]. f_equal.
    rewrite StringC.memmove_spec by done. case_decide as Hw; [|done]. exfalso.
    destruct (Hok _ _ Hq) as [_ [Hqal _]].
    assert (q = p) as -> by mlia. assert (page_of x = b) as Hxb by by eapply Hinj.
    unfold page_of in *. mlia.
Qed.

Record out_progress (s0 : kst) (us : gmap Z Z) (va buf k : Z) (s : kst) : Prop := {
  op_frame : frame (fun q => exists b, us !! b = Some q) (mem s0) (mem s);
  op_rest : freelist s = freelist s0 /\ klocked s = klocked s0;
  op_umem : forall x, umem (mem s) us x =
    if decide (va <= x < va + k) then Some (load8 (mem s0) (buf + (x - va))) else umem (mem s0) us x
}.

Lemma as_user_frame s l pgdir tabs us s' : as_inv s l pgdir tabs us ->
  frame (fun q => exists b, us !! b = Some q) (mem s) (mem s') ->
  freelist s' = freelist s -> klocked s' = klocked s -> as_inv s' l pgdir tabs us.
Proof.
  intros Hi Hf Ef Ek. eapply as_frame; [exact Hi| |done|exact Hf|].
  - eapply kmem_frame; [apply (as_vm _ _ _ _ _ Hi)|exact Hf| |done|done].
    intros q Hq [b Hb]. by destruct (as_own _ _ _ _ _ Hi _ _ Hb).
  - intros q Hq [b Hb]. by destruct (as_own _ _ _ _ _ Hi _ _ Hb).
Qed.

(** One turn writes the next [n] bytes, all in the page at [b0]. *)
Lemma out_step s l pgdir tabs us va buf k s' b0 p off n :
  as_inv s l pgdir tabs us -> out_progress s us va buf k s' -> us !! b0 = Some p ->
  0 <= k -> 0 <= off -> 0 < n -> off + n <= PGSIZE -> b0 + off = va + k ->
  (forall i b q, k <= i < k + n -> us !! b = Some q -> page_of (buf + i) <> q) ->
  out_progress s us va buf (k + n)
    (set_mem (StringC.memmove (mem s') (p + off) (buf + k) n) s').
Proof.
  intros Hi [Of Or Ou] Hp Hk Hoff Hn Hon Hb0 Hsrc.
  destruct (as_dom _ _ _ _ _ Hi _ _ Hp) as (_ & _ & Hpok). split; [|done|].
  - eapply frame_trans; [exact Of|]. intros a Ha. cbn [mem set_mem].
    rewrite StringC.memmove_spec by lia. case_decide as Hw; [|done]. exfalso. apply Ha. exists b0.
    rewrite Hp. f_equal. symmetry. apply page_of_range; [apply Hpok|lia].
  - intros x. cbn [mem set_mem]. rewrite (umem_memmove _ us p b0 off (buf + k) n x);
      [|by apply (as_inj _ _ _ _ _ Hi)|intros y q Hy; by destruct (as_dom _ _ _ _ _ Hi _ _ Hy)
       |exact Hp|lia|lia|lia].
    rewrite Hb0, Ou. repeat case_decide; try lia; try done. f_equal.
    replace (buf + k + (x - (va + k))) with (buf + (x - va)) by lia. apply Of.
    intros [y Hy]. by apply (Hsrc (x - va) y _ ltac:(lia) Hy).
Qed.

Lemma wp_copyout s l pgdir tabs us va buf len (Q : Z -> kst -> Prop) :
  as_inv s l pgdir tabs us -> 0 <= va -> 0 <= len -> va + len <= HEAPLIMIT ->
  (forall b, page_of va <= b < va + len -> b mod 4096 = 0 -> user_page (mem s) pgdir us b) ->
  (forall i b p, 0 <= i < len -> us !! b = Some p -> page_of (buf + i) <> p) ->
  (forall s', out_progress s us va buf len s' -> Q 0 s') ->
  wp (copyout pgdir va buf len) Q s.
Proof.
  intros Hi Hva Hlen Hmax Hpages Hsrc HQ. unfold copyout.
  apply (wp_iter (fun '(v, b, n) s' => exists k, 0 <= k <= len /\ v = va + k /\ b = buf + k /\
           n = len - k /\ out_progress s us va buf k s' \/
           n = 0 /\ out_progress s us va buf len s')
         (fun '(v, _, n) => if n =? 0 then 0%nat else
            Z.to_nat ((v mod PGSIZE + n + PGSIZE - 1) / PGSIZE))).
  2:{ exists 0. left. split_and!; try lia. split; try done.
      intros x. by rewrite decide_False by lia. }
  2:{ destruct (len =? 0); mlia. }
  intros [[v b] n] s' (k & [(Hk & -> & -> & -> & [Of Or Ou])|(-> & Hp)]).
  2:{ rewrite Z.ltb_irrefl. cbn [negb]. apply wp_ret. by apply HQ. }
  destruct (0 <? len - k) eqn:Hc; bprop; cbn [negb].
  2:{ apply wp_ret, HQ. by replace len with k by lia. }
  assert (0 <= va + k < HEAPLIMIT) as Hr by lia.
  assert (PGROUNDDOWN (va + k) = page_of (va + k)) as -> by (apply PGROUNDDOWN_page; mlia).
  set (b0 := page_of (va + k)). assert (b0 mod 4096 = 0 /\ b0 <= va + k < b0 + 4096 /\ page_of va <= b0)
    as (Hbal & Hb0 & Hbge) by (unfold b0, page_of; mlia).
  destruct (Hpages b0 ltac:(lia) Hbal) as (p & e & Hp & Hm & HU).
  assert (as_inv s' l pgdir tabs us) as Hi' by (by eapply as_user_frame; [exact Hi|exact Of|apply Or..]).
  assert (mapping (mem s') pgdir b0 = Some e) as Hm'.
  { rewrite <- Hm. eapply mapping_frame; [apply (as_vm _ _ _ _ _ Hi)|exact Of| |unfold b0, page_of; mlia].
    intros q Hq [x Hx]. by destruct (as_own _ _ _ _ _ Hi _ _ Hx). }
  apply wp_bind. eapply wp_of_eq; [eapply uva2ka_eq; [exact Hi'|exact Hp|exact Hm']|]. rewrite HU.
  destruct (as_dom _ _ _ _ _ Hi _ _ Hp) as (_ & _ & Hpok). pose proof (page_ok_range p Hpok).
  rewrite (proj2 (Z.eqb_neq p 0)) by mlia. set (off := va + k - b0).
  rewrite (u32_small (PGSIZE - off)) by (unfold off; mlia).
  set (n := if len - k <? PGSIZE - off then len - k else PGSIZE - off).
  assert (0 < n <= len - k /\ off + n <= PGSIZE /\ (n = len - k \/ off + n = PGSIZE)) as (Hn & Hon & Hcase).
  { unfold n. destruct (len - k <? PGSIZE - off) eqn:E; bprop; unfold off in *; mlia. }
  apply wp_bind, wp_modify, wp_ret. rewrite (u32_small (b0 + PGSIZE)) by mlia.
  rewrite (u32_small (len - k - n)) by mlia.
  assert (out_progress s us va buf (k + n)
            (set_mem (StringC.memmove (mem s') (p + off) (buf + k) n) s')) as Hnew.
  { eapply out_step; [exact Hi|by split|exact Hp|lia|unfold off; lia|lia|lia|unfold off; lia|].
    intros i y q Hib Hy. eapply Hsrc; [|exact Hy]. lia. }
  destruct Hcase as [Hd|Hd].
  - split.
    + exists k. right. split; [lia|]. by replace len with (k + n) by lia.
    + rewrite Hd. rewrite Z.sub_diag, Z.eqb_refl. rewrite (proj2 (Z.eqb_neq (len - k) 0)) by lia. mlia.
  - split.
    + exists (k + n). left. unfold off in *. split_and!; [lia..|done].
    + rewrite (proj2 (Z.eqb_neq (len - k) 0)) by lia. destruct (_ =? 0); unfold off in *; mlia.
Qed.

(** ** The theorems *)

(** [mappages] on [n] pages that nobody has mapped: it maps all of them, in
    order, to consecutive frames with the permissions asked for, and returns
    0; or the free list ran out after [k] of them and it returns -1.  No other
    mapping changes and only page-table pages are written. *)
Theorem mappages_correct s l pgdir tabs va size pa perm n :
  vm_inv s l pgdir tabs -> 0 <= va -> 0 < size -> va + size <= 4294967296 ->
  page_of (va + size - 1) = page_of va + PGSIZE * (n - 1) ->
  pa mod 4096 = 0 -> 0 <= pa -> pa + PGSIZE * n <= 4294967296 -> 0 <= perm < 4096 ->
  (forall i, 0 <= i < n -> mapping (mem s) pgdir (page_of va + PGSIZE * i) = None) ->
  wp (mappages pgdir va size pa perm)
    (fun r s' => exists k l' tabs', vm_inv s' l' pgdir tabs' /\
       (r = 0 /\ k = n \/ r = -1 /\ 0 <= k < n /\ l' = []) /\
       (forall va', 0 <= va' < 4294967296 -> mapping (mem s') pgdir va' =
          mapped_range (mem s) pgdir (page_of va) k pa (Z.lor perm PTE_P) va') /\
       frame (vpage pgdir tabs') (mem s) (mem s')) s.
Proof.
  intros Hi Hva Hsz Hend Hn Hpa Hpa0 Hpan Hperm Hfree.
  eapply wp_mappages; [exact Hi|exact Hva|exact Hsz|exact Hend|exact Hn|exact Hpa|exact Hpa0
    |exact Hpan|exact Hperm|exact Hfree|].
  intros r k s' l' tabs' Hi' _ Hr Hm Hf _. by exists k, l', tabs'.
Qed.

(** [deallocuvm] gives back exactly the user pages between the rounded new
    size and the old size; the rest of the address space keeps its pages, and
    no page is lost or held twice. *)
Theorem deallocuvm_correct s l pgdir tabs us oldsz newsz :
  as_inv s l pgdir tabs us -> 0 <= newsz < oldsz -> oldsz <= HEAPLIMIT ->
  wp (deallocuvm pgdir oldsz newsz)
    (fun r s' => r = newsz /\ exists l' us', as_inv s' l' pgdir tabs us' /\
       (forall va, us' !! va = if decide (PGROUNDUP newsz <= va < oldsz) then None else us !! va) /\
       (forall q, owned l' pgdir tabs us' q <-> owned l pgdir tabs us q)) s.
Proof.
  intros Hi Hn Hmax. eapply wp_deallocuvm; [exact Hi|lia|done|intros; lia|].
  intros s' fs us' _ Hd. split; [done|]. exists (fs ++ l), us'.
  split; [apply Hd|]. split; [apply Hd|]. by eapply dealloc_owned.
Qed.

(** C15: [allocuvm] grows an address space with zeroed, writable user pages, or
    fails and leaves it as it was; in both cases every page is accounted for. *)
Theorem allocuvm_correct s l pgdir tabs us oldsz newsz :
  as_inv s l pgdir tabs us -> 0 <= oldsz <= newsz ->
  (forall va, PGROUNDUP oldsz <= va < newsz -> us !! va = None) ->
  wp (allocuvm pgdir oldsz newsz)
    (fun r s' =>
       (r = 0 /\ exists l' tabs', as_inv s' l' pgdir tabs' us /\
          forall q, owned l' pgdir tabs' us q <-> owned l pgdir tabs us q) \/
       (r = newsz /\ newsz < HEAPLIMIT /\ exists l' tabs' us', as_inv s' l' pgdir tabs' us' /\
          (forall va, ~ PGROUNDUP oldsz <= va < PGROUNDUP newsz -> us' !! va = us !! va) /\
          (forall va, PGROUNDUP oldsz <= va < PGROUNDUP newsz -> va mod 4096 = 0 ->
             exists p, us' !! va = Some p /\ mapping (mem s') pgdir va = Some (V2P p + 7) /\
               page_zero (mem s') p) /\
          forall q, owned l' pgdir tabs' us' q <-> owned l pgdir tabs us q)) s.
Proof.
  intros Hi Hsz Hno. eapply wp_allocuvm; [exact Hi|lia|lia|exact Hno|..].
  - intros _. left. split; [done|]. by exists l, tabs.
  - intros _ Hc. lia.
  - intros s' l' tabs' _ Hf. left. split; [done|]. exists l', tabs'. split; apply Hf.
  - intros s' l' tabs' us' Hb Hg. right. split; [done|]. split; [lia|]. exists l', tabs', us'.
    split; [apply Hg|]. split; [apply Hg|]. split; apply Hg.
Qed.

(** C16: [freevm] returns every page of an address space to the allocator: user
    pages, page tables and the directory.  Afterwards the free list is exactly
    what the address space and the allocator held together. *)
Theorem freevm_no_leak s l pgdir tabs us : as_inv s l pgdir tabs us ->
  wp (freevm pgdir)
    (fun _ s' => exists l', kmem_inv s' l' /\ forall q, q ∈ l' <-> owned l pgdir tabs us q) s.
Proof. intros Hi. eapply wp_freevm; [exact Hi|]. intros s' l' Hk Hq _. by exists l'. Qed.

(** [setupkvm] returns a directory whose mappings are exactly those of
    [kmap], built only from free pages, or 0 with every page back. *)
Theorem setupkvm_correct s l : kmem_inv s l ->
  wp setupkvm
    (fun d s' =>
       (d = 0 /\ exists l', kmem_inv s' l' /\ forall q, q ∈ l' <-> q ∈ l) \/
       exists l' tabs', as_inv s' l' d tabs' ∅ /\
         (forall va, 0 <= va < 4294967296 -> mapping (mem s') d va = kmaps kmap va) /\
         (forall q, owned l' d tabs' ∅ q <-> q ∈ l)) s.
Proof.
  intros Hk. eapply wp_setupkvm; [exact Hk|..].
  - intros s' l' Hk' Hq _. left. split; [done|]. by exists l'.
  - intros d s' l' tabs' Hi Hm How _ _. right. by exists l', tabs'.
Qed.

(** C14: [copyuvm] gives the child a copy of every user page of the parent, with
    the parent's permissions and the kernel mappings, in pages of its own, and
    leaves the parent's address space alone; or it returns 0 with every page
    it took back on the free list. *)
Theorem copyuvm_correct s l pgdir tabs us sz :
  as_inv s l pgdir tabs us -> 0 <= sz <= HEAPLIMIT ->
  (forall va, 0 <= va < sz -> va mod 4096 = 0 -> exists p, us !! va = Some p) ->
  wp (copyuvm pgdir sz)
    (fun d s' => exists l', as_inv s' l' pgdir tabs us /\
       ((d = 0 /\ forall q, q ∈ l' <-> q ∈ l) \/
        exists tabs' us', copy_progress s l pgdir us d (PGROUNDUP sz) s' l' tabs' us')) s.
Proof.
  intros Hi Hsz Hall.
  assert (forall s' l', kmem_inv s' l' -> (forall q, q ∈ l' -> q ∈ l) ->
            frame (fun q => q ∈ l) (mem s) (mem s') -> as_inv s' l' pgdir tabs us) as Hpar.
  { intros s' l' Hk Hsub Hf. eapply as_frame; [exact Hi|exact Hk|exact Hsub|exact Hf|].
    intros q Hq Hin. by apply (vi_disj _ _ _ _ (as_vm _ _ _ _ _ Hi) q Hq). }
  eapply wp_copyuvm; [exact Hi|exact Hsz|exact Hall|..].
  - intros s' (l' & Hk & Hq & Hf). exists l'. split; [|by left]. apply Hpar; [done| |done].
    intros q. apply Hq.
  - intros d s' l' tabs' us' Hc. exists l'. split; [|right; by exists tabs', us'].
    apply Hpar; [apply (as_vm _ _ _ _ _ (cp_as _ _ _ _ _ _ _ _ _ _ Hc))|apply Hc|apply Hc].
Qed.

(** [copyout] to accessible user memory returns 0 and updates user memory
    exactly in the target range, across page boundaries. *)
Theorem copyout_correct s l pgdir tabs us va buf len :
  as_inv s l pgdir tabs us -> 0 <= va -> 0 <= len -> va + len <= HEAPLIMIT ->
  (forall b, page_of va <= b < va + len -> b mod 4096 = 0 -> user_page (mem s) pgdir us b) ->
  (forall i b p, 0 <= i < len -> us !! b = Some p -> page_of (buf + i) <> p) ->
  wp (copyout pgdir va buf len)
    (fun r s' => r = 0 /\ as_inv s' l pgdir tabs us /\
       forall x, umem (mem s') us x =
         if decide (va <= x < va + len) then Some (load8 (mem s) (buf + (x - va)))
         else umem (mem s) us x) s.
Proof.
  intros Hi Hva Hlen Hmax Hp Hs. eapply wp_copyout; [exact Hi|done|done|done|done|done|].
  intros s' [Of [Or1 Or2] Ou]. split; [done|]. split; [|done]. by eapply as_user_frame.
Qed.

(** [copyout] to an address whose page table does not exist reads through a
    null pointer instead of returning -1. *)
Theorem copyout_null_table s l pgdir tabs va buf len :
  vm_inv s l pgdir tabs -> 0 <= va < 4294967296 -> 0 < len -> tabs !! PDX va = None ->
  copyout pgdir va buf len s = Undef.
Proof.
  intros Hi Hva Hlen Hn. unfold copyout. rewrite Nat.add_1_r. cbn [iter]. apply bind_undef.
  rewrite (proj2 (Z.ltb_lt 0 len) Hlen). cbn [negb]. apply bind_undef.
  rewrite PGROUNDDOWN_page by done. unfold uva2ka.
  destruct (slot_page va (page_of va) Hva) as [E _]; try (unfold page_of; mlia).
  eapply bind_step; [eapply walk_noalloc; [exact Hi|unfold page_of; mlia]|].
  by rewrite <- E, Hn.
Qed.

End VmTheorems.

(** ** On the sample machine *)

Section VmWitnesses.
Local Existing Instance sample_layout.

(** A process with one user page, [page 10], at address 0. *)
Definition sample_user : kst :=
  with_pte (page 0) 0 (V2P (page 10) + 7) (with_table (page 20) 0 (page 0) (machine free5)).

Definition user_tabs : gmap Z Z := {[ 0 := page 0 ]}.
Definition user_pages : gmap Z Z := {[ 0 := page 10 ]}.

Lemma sample_user_vm : vm_inv sample_user free4 (page 20) user_tabs /\
  forall va, 0 <= va < 4294967296 -> mapping (mem sample_user) (page 20) va =
    if decide (page_of va = 0) then Some (V2P (page 10) + 7) else None.
Proof.
  destruct free5_ok as [Hf Hn]. assert (page_ok (page 20)) as Hd by by apply page_page_ok.
  assert (page 20 ∉ free5) as Hni by (apply free5_notin; by apply (bool_decide_unpack _)).
  destruct (with_table_ok _ _ _ _ _ 0 (machine_vm free5 (page 20) Hf Hn Hd Hni))
    as (H1 & M1 & _ & _); [lia|done|].
  rewrite insert_empty in H1. fold user_tabs in H1. set (k1 := with_table _ _ _ _) in *.
  destruct (with_pte_ok k1 free4 (page 20) user_tabs 0 (page 0) (V2P (page 10) + 7) H1)
    as (H2 & M2 & _); [lia|done|by vm_compute|].
  split; [exact H2|]. intros va Hva. etrans; [exact (M2 va Hva)|].
  rewrite (M1 va Hva), (machine_unmapped free5) by done. change (page_of 0) with 0.
  repeat case_decide; try congruence; reflexivity.
Qed.

Lemma user_pages_Some va p : user_pages !! va = Some p -> 0 = va /\ page 10 = p.
Proof. apply lookup_singleton_Some. Qed.

Lemma sample_user_inv : as_inv sample_user free4 (page 20) user_tabs user_pages.
Proof.
  destruct sample_user_vm as [Hvm Hm]. split; [exact Hvm|..].
  - intros va Hva Hal. rewrite Hm by mlia. assert (page_of va = va) as -> by (unfold page_of; mlia).
    case_decide as E; [subst va; exists (page 10); by split|].
    unfold user_pages. by rewrite lookup_singleton_ne by done.
  - intros va p Hp. apply user_pages_Some in Hp as [<- <-].
    split; [by vm_compute|]. split; [done|by apply page_page_ok].
  - intros va va' p Hp Hp'. apply user_pages_Some in Hp as [<- _].
    by apply user_pages_Some in Hp' as [<- _].
  - intros va p Hp. apply user_pages_Some in Hp as [<- <-]. split.
    + apply (page_notin 10 [1; 2; 3; 4]). by apply (bool_decide_unpack _).
    + intros [Hq|[i Hq]]; [by apply page_inj in Hq|].
      unfold user_tabs in Hq. apply lookup_singleton_Some in Hq as [_ Hq]. by apply page_inj in Hq.
Qed.

Lemma sample_user_above va : 4096 <= va -> user_pages !! va = None.
Proof. intros Hva. unfold user_pages. rewrite lookup_singleton_ne by lia. done. Qed.

Lemma mappages_correct_witness : exists r s',
  mappages (page 20) 8192 4096 0 PTE_W sample_user = Ret r s'.
Proof.
  destruct (wp_inv _ _ _ (mappages_correct sample_user free4 (page 20) user_tabs 8192 4096 0 PTE_W 1
    (proj1 sample_user_vm) ltac:(lia) ltac:(lia) ltac:(lia) eq_refl eq_refl ltac:(lia)
    ltac:(by vm_compute) ltac:(by vm_compute)
    ltac:(intros i Hi; assert (i = 0) as -> by lia;
          etrans; [apply (proj2 sample_user_vm); by vm_compute|done]))) as (r & s' & E & _).
  exists r, s'. exact E.
Defined.

Lemma deallocuvm_correct_witness : exists s', deallocuvm (page 20) 4096 0 sample_user = Ret 0 s'.
Proof.
  destruct (wp_inv _ _ _ (deallocuvm_correct sample_user free4 (page 20) user_tabs user_pages 4096 0
    sample_user_inv ltac:(lia) ltac:(by vm_compute))) as (r & s' & E & Hr & _).
  exists s'. rewrite Hr in E. exact E.
Defined.

Lemma allocuvm_correct_witness : exists r s', allocuvm (page 20) 4096 9000 sample_user = Ret r s'.
Proof.
  destruct (wp_inv _ _ _ (allocuvm_correct sample_user free4 (page 20) user_tabs user_pages 4096 9000
    sample_user_inv ltac:(lia) ltac:(intros va Hva; apply sample_user_above; apply Hva)))
    as (r & s' & E & _).
  exists r, s'. exact E.
Defined.

Lemma freevm_no_leak_witness : exists a s', freevm (page 20) sample_user = Ret a s'.
Proof.
  destruct (wp_inv _ _ _ (freevm_no_leak sample_user free4 (page 20) user_tabs user_pages
    sample_user_inv)) as (a & s' & E & _).
  exists a, s'. exact E.
Defined.

Lemma setupkvm_correct_witness : exists d s', setupkvm sample_user = Ret d s'.
Proof.
  destruct (wp_inv _ _ _ (setupkvm_correct sample_user free4
    (vi_kmem _ _ _ _ (as_vm _ _ _ _ _ sample_user_inv)))) as (d & s' & E & _).
  exists d, s'. exact E.
Defined.

Lemma sample_user_all va : 0 <= va < 100 -> va mod 4096 = 0 -> exists p, user_pages !! va = Some p.
Proof. intros Hva Hal. assert (va = 0) as -> by mlia. by exists (page 10). Qed.

Lemma copyuvm_correct_witness : exists d s', copyuvm (page 20) 100 sample_user = Ret d s'.
Proof.
  destruct (wp_inv _ _ _ (copyuvm_correct sample_user free4 (page 20) user_tabs user_pages 100
    sample_user_inv ltac:(by vm_compute) sample_user_all)) as (d & s' & E & _).
  exists d, s'. exact E.
Defined.

Lemma sample_user_page b : page_of 10 <= b < 10 + 20 -> b mod 4096 = 0 ->
  user_page (mem sample_user) (page 20) user_pages b.
Proof.
  intros Hb Hal. assert (b = 0) as -> by (unfold page_of in Hb; mlia).
  exists (page 10), (V2P (page 10) + 7). split; [done|]. split; [|done].
  etrans; [apply (proj2 sample_user_vm); lia|done].
Qed.

Lemma sample_user_src i b p : 0 <= i < 20 -> user_pages !! b = Some p ->
  page_of (page 30 + i) <> p.
Proof.
  intros Hi Hp. apply user_pages_Some in Hp as [_ <-]. unfold page_of, page. mlia.
Qed.

Lemma copyout_correct_witness : exists s',
  copyout (page 20) 10 (page 30) 20 sample_user = Ret 0 s'.
Proof.
  destruct (wp_inv _ _ _ (copyout_correct sample_user free4 (page 20) user_tabs user_pages 10 (page 30)
    20 sample_user_inv ltac:(lia) ltac:(lia) ltac:(by vm_compute) sample_user_page sample_user_src))
    as (r & s' & E & Hr & _).
  exists s'. rewrite Hr in E. exact E.
Defined.

Lemma copyout_null_table_witness : copyout (page 20) 0x50000000 (page 30) 4 sample_user = Undef.
Proof.
  exact (copyout_null_table sample_user free4 (page 20) user_tabs 0x50000000 (page 30) 4
    (proj1 sample_user_vm) ltac:(by vm_compute) ltac:(lia) eq_refl).
Defined.

End VmWitnesses.
