(* ===== verification/Sleeplock.v ===== *)
(** * Sleep locks ([sleeplock.c], [sleeplock.h])

    The operations on the lock word and its owner, made while the lock's own
    spin lock is held.  [acquiresleep] on a lock that is taken puts the caller
    to sleep: [None]. *)

From stdpp Require Import base tactics numbers strings list.
From Stdlib Require Import ZArith Lia.
From S2P Require Import Prelude.

(** [struct sleeplock] *)
Record sleeplock := mksl {
  sl_locked : bool;
  sl_pid : Z
}.

Module Sleep.

Definition initsleeplock : sleeplock := mksl false 0.

Definition acquiresleep (me : Z) (l : sleeplock) : option sleeplock :=
  if sl_locked l then None else Some (mksl true me).

Definition releasesleep (l : sleeplock) : sleeplock := mksl false 0.

Definition holdingsleep (me : Z) (l : sleeplock) : bool := sl_locked l && (sl_pid l =? me).

End Sleep.
