(* ===== verification/Ring.v ===== *)
(** * Doubly linked rings

    The buffer cache links its buffers in a ring through a head node.  [seg]
    says that a list of nodes is the path from one node to another; the
    lemmas give the effect of scanning, unlinking and inserting. *)

From stdpp Require Import base tactics numbers list sets.
From Stdlib Require Import ZArith Lia.
From S2P Require Import Prelude.

(** From [x] along [nx] (and back along [pv]) through [l] to [y]. *)
Fixpoint seg (nx pv : Z -> Z) (x : Z) (l : list Z) (y : Z) : Prop :=
  match l with
  | [] => nx x = y /\ pv y = x
  | z :: l' => nx x = z /\ pv z = x /\ seg nx pv z l' y
  end.

Lemma seg_ext nx pv nx' pv' x l y :
  (forall i, i ∈ x :: l -> nx' i = nx i) -> (forall i, i ∈ l ++ [y] -> pv' i = pv i) ->
  seg nx pv x l y -> seg nx' pv' x l y.
Proof.
  revert x. induction l as [|z l IH]; intros x Hn Hp; cbn [seg].
  - rewrite Hn, Hp by set_solver. done.
  - intros (H1 & H2 & H3). rewrite Hn, Hp by set_solver. split; [done|split; [done|]].
    apply IH; [|set_solver|done]. intros i Hi. apply Hn. by apply elem_of_cons; right.
Qed.

Lemma seg_app nx pv x l1 z l2 y :
  seg nx pv x (l1 ++ z :: l2) y <-> seg nx pv x l1 z /\ seg nx pv z l2 y.
Proof.
  revert x. induction l1 as [|w l1 IH]; intros x; cbn [seg app]; [tauto|]. rewrite IH. tauto.
Qed.

Lemma seg_next_in nx pv x l y : seg nx pv x l y -> nx x ∈ l ++ [y].
Proof. destruct l; cbn [seg app]; intros H; destruct_and?; set_solver. Qed.

Lemma seg_prev_in nx pv x l y : seg nx pv x l y -> pv y ∈ x :: l.
Proof.
  revert x. induction l as [|z l IH]; intros x; cbn [seg]; [set_solver|].
  intros (_ & _ & H). specialize (IH _ H). set_solver.
Qed.

(** Taking [b] out. *)
Lemma seg_unlink nx pv nx' pv' b l2 y l1 : forall x,
  seg nx pv x (l1 ++ b :: l2) y -> NoDup (x :: l1 ++ b :: l2) -> y ∉ l1 ++ b :: l2 ->
  (forall i, nx' i = if decide (i = pv b) then nx b else nx i) ->
  (forall i, pv' i = if decide (i = nx b) then pv b else pv i) ->
  seg nx' pv' x (l1 ++ l2) y.
Proof.
  induction l1 as [|w l1 IH]; intros x Hs Hnd Hy Hn Hp; cbn [app seg] in *.
  - destruct Hs as (Hxb & Hbx & Hs). apply NoDup_cons in Hnd as [Hx Hnd].
    apply NoDup_cons in Hnd as [Hb Hnd]. destruct l2 as [|z l2]; cbn [seg] in *.
    + destruct Hs as [Hby Hyb]. rewrite Hn, Hp, Hbx, Hby. rewrite !decide_True by done. done.
    + destruct Hs as (Hbz & Hzb & Hs). rewrite Hn, Hp, Hbx, Hbz. rewrite !decide_True by done.
      split; [done|split; [done|]]. apply NoDup_cons in Hnd as [Hz _].
      eapply seg_ext; [| |exact Hs].
      * intros i Hi. rewrite Hn, Hbx. rewrite decide_False; [done|]. set_solver.
      * intros i Hi. rewrite Hp, Hbz. rewrite decide_False; [done|].
        apply elem_of_app in Hi as [Hi|Hi%list_elem_of_singleton]; [set_solver|]. subst. set_solver.
  - destruct Hs as (Hxw & Hwx & Hs). apply NoDup_cons in Hnd as [Hx Hnd].
    pose proof Hs as [Hs1 Hs2]%seg_app. apply seg_prev_in in Hs1 as Hpb.
    apply seg_next_in in Hs2 as Hnb. apply not_elem_of_cons in Hy as [Hyw Hy].
    split; [|split; [|by apply IH]].
    + rewrite Hn, decide_False; [done|]. intros ->. apply Hx. set_solver.
    + rewrite Hp, decide_False; [done|]. intros ->. apply NoDup_cons in Hnd as [Hw _].
      apply elem_of_app in Hnb as [Hnb|Hnb%list_elem_of_singleton]; [set_solver|]. by apply Hyw.
Qed.

(** Putting [b] after [x]. *)
Lemma seg_insert nx pv nx' pv' b x l y :
  seg nx pv x l y -> x ∉ l -> b ∉ x :: l -> b <> y -> NoDup l -> y ∉ l ->
  (forall i, nx' i = if decide (i = x) then b else if decide (i = b) then nx x else nx i) ->
  (forall i, pv' i = if decide (i = nx x) then b else if decide (i = b) then x else pv i) ->
  seg nx' pv' x (b :: l) y.
Proof.
  intros Hs Hx Hb Hby Hnd Hy Hn Hp. apply not_elem_of_cons in Hb as [Hbx Hbl].
  apply seg_next_in in Hs as Hin.
  assert (b <> nx x) as Hbn.
  { intros ->. apply elem_of_app in Hin as [Hin|Hin%list_elem_of_singleton]; done. }
  cbn [seg]. split; [by rewrite Hn, decide_True|].
  split; [by rewrite Hp, decide_False, decide_True|].
  destruct l as [|z l]; cbn [seg] in *.
  - destruct Hs as [H1 H2]. rewrite Hn, Hp, H1. rewrite (decide_True (P := y = y)) by done.
    rewrite decide_False by done. rewrite decide_True by done. done.
  - destruct Hs as (H1 & H2 & Hs). rewrite Hn, Hp, H1.
    rewrite (decide_True (P := z = z)) by done. rewrite decide_False by done.
    rewrite decide_True by done. split; [done|split; [done|]].
    apply NoDup_cons in Hnd as [Hz Hnd]. eapply seg_ext; [| |exact Hs].
    + intros i Hi. rewrite Hn. rewrite !decide_False; [done|set_solver|set_solver].
    + intros i Hi. rewrite Hp, H1.
      apply elem_of_app in Hi as [Hi|Hi%list_elem_of_singleton].
      * rewrite !decide_False; [done|set_solver|set_solver].
      * subst i. rewrite !decide_False; [done|done|set_solver].
Qed.

(** The forward path of a segment, and the backward one. *)
Fixpoint path (nx : Z -> Z) (x : Z) (l : list Z) (y : Z) : Prop :=
  match l with
  | [] => nx x = y
  | z :: l' => nx x = z /\ path nx z l' y
  end.

Lemma seg_path nx pv x l y : seg nx pv x l y -> path nx x l y.
Proof. revert x. induction l; intros x; cbn; [tauto|]. intros (-> & _ & H). eauto. Qed.

Lemma path_snoc nx x l z y : path nx x (l ++ [z]) y <-> path nx x l z /\ nx z = y.
Proof. revert x. induction l as [|w l IH]; intros x; cbn; [tauto|]. rewrite IH. tauto. Qed.

Lemma seg_path_back nx pv x l y : seg nx pv x l y -> path pv y (reverse l) x.
Proof.
  revert x. induction l as [|z l IH]; intros x; cbn [seg].
  - intros [_ H]. done.
  - intros (_ & Hz & H). rewrite reverse_cons. apply path_snoc. split; [by apply IH|done].
Qed.

(** ** Scanning *)

Section Scan.
Context {S : Type} (head : Z) (step : Z -> M S Z) (test : Z -> M S bool).

(** [for(b = start; b != head; b = step b) if(test b) return b;] *)
Definition scan (fuel : nat) (start : Z) : M S (option Z) :=
  iter fuel (fun b =>
    if b =? head then ret (inr None) else
    let* t := test b in
    if t : bool then ret (inr (Some b)) else
    let* n := step b in ret (inl n)) start.

(** The nodes of [l] are visited in order. *)
Lemma wp_scan (nx : Z -> Z) (f : Z -> bool) l : forall x fuel s (Q : option Z -> S -> Prop),
  (forall i, i ∈ l -> i <> head /\ test i s = Ret (f i) s /\ step i s = Ret (nx i) s) ->
  path nx x l head ->
  (length l < fuel)%nat ->
  (Forall (fun i => f i = false) l -> Q None s) ->
  (forall l1 b l2, l = l1 ++ b :: l2 -> f b = true -> Forall (fun i => f i = false) l1 ->
     Q (Some b) s) ->
  wp (scan fuel (nx x)) Q s.
Proof.
  induction l as [|z l IH]; intros x fuel s Q Hok Hpath Hfuel H0 H1;
    (destruct fuel as [|fuel]; [cbn in Hfuel; lia|]); cbn [scan iter]; apply wp_bind.
  - rewrite Hpath, Z.eqb_refl. apply wp_ret, wp_ret, H0. constructor.
  - destruct Hpath as [-> Hpath]. destruct (Hok z) as (Hz & Ht & Hs); [by apply elem_of_cons; left|].
    rewrite (proj2 (Z.eqb_neq z head) Hz). apply wp_bind. eapply wp_of_eq; [exact Ht|].
    destruct (f z) eqn:Hf.
    + apply wp_ret, wp_ret. apply (H1 [] z l); [done|done|constructor].
    + apply wp_bind. eapply wp_of_eq; [exact Hs|]. apply wp_ret.
      eapply (IH z fuel s); [|exact Hpath|cbn in Hfuel; lia|..].
      * intros i Hi. apply Hok. by apply elem_of_cons; right.
      * intros Hall. apply H0. by constructor.
      * intros l1 b l2 -> Hb Hl1. apply (H1 (z :: l1) b l2); [done|done|by constructor].
Qed.

End Scan.

Arguments scan {S} head step test fuel start.
