(* ===== verification/Cache.v ===== *)
(** * The interface of the buffer cache

    What [bio.c] promises to the code above it ([log.c], [fs.c]): a store of
    blocks with a current content, which [bread] returns and the holder of
    the buffer may change, and a content on disk, which [bwrite] updates; a
    block marked dirty is pinned in the cache.  The class [BufCache] gives the
    operations and their laws on this view; [BioFacts] discharges it for the
    model of [bio.c], and the log is verified against it. *)

From stdpp Require Import base tactics numbers gmap strings list sets.
From Stdlib Require Import ZArith Lia.
From S2P Require Import Prelude Mmu Memory.

(** [fs.h]: the size of a block *)
Definition BSIZE : Z := 512.

(** ** The view *)

Record blocks := mkblocks {
  ba_cur : Z -> memory;
  ba_disk : Z -> memory;
  ba_pin : gset Z;
  ba_held : gmap Z Z;
  ba_writes : list (Z * memory)
}.

(** Block [n] is locked by the running process. *)
Definition is_held (A : blocks) (n : Z) : Prop := exists b, ba_held A !! b = Some n.

Definition fupd {V} (f : Z -> V) (n : Z) (v : V) : Z -> V := fun i => if decide (i = n) then v else f i.

Definition ba_hold (b n : Z) (A : blocks) : blocks :=
  mkblocks (ba_cur A) (ba_disk A) (ba_pin A) (<[b := n]> (ba_held A)) (ba_writes A).
Definition ba_drop (b : Z) (A : blocks) : blocks :=
  mkblocks (ba_cur A) (ba_disk A) (ba_pin A) (delete b (ba_held A)) (ba_writes A).
Definition ba_set (n : Z) (d : memory) (A : blocks) : blocks :=
  mkblocks (fupd (ba_cur A) n d) (ba_disk A) (ba_pin A) (ba_held A) (ba_writes A).
Definition ba_dirty (n : Z) (A : blocks) : blocks :=
  mkblocks (ba_cur A) (ba_disk A) ({[n]} ∪ ba_pin A) (ba_held A) (ba_writes A).
Definition ba_write (n : Z) (A : blocks) : blocks :=
  mkblocks (ba_cur A) (fupd (ba_disk A) n (ba_cur A n)) (ba_pin A ∖ {[n]}) (ba_held A)
    (ba_writes A ++ [(n, ba_cur A n)]).

(** Block [n] is pinned, or some buffer can be recycled for it. *)
Definition has_room (A : blocks) (n : Z) : Prop :=
  n ∈ ba_pin A \/ Z.of_nat (size (ba_pin A)) + Z.of_nat (size (ba_held A)) < NBUF.

(** Views that agree on every block. *)
#[global] Instance blocks_equiv : Equiv blocks := fun A B =>
  (forall n, ba_cur A n = ba_cur B n) /\ (forall n, ba_disk A n = ba_disk B n) /\
  ba_pin A = ba_pin B /\ ba_held A = ba_held B /\ ba_writes A = ba_writes B.

#[global] Instance blocks_equivalence : Equivalence (≡@{blocks}).
Proof.
  split.
  - intros A. by repeat split.
  - intros A B (? & ? & ? & ? & ?). repeat split; done.
  - intros A B C (H1 & H2 & H3 & H4 & H5) (G1 & G2 & G3 & G4 & G5).
    repeat split; try intros n; rewrite ?H1, ?H2; try congruence; eauto.
Qed.

(** ** The class *)

Class BufCache (S : Type) := {
  c_bread : Z -> Z -> M S Z;
  c_bwrite : Z -> M S unit;
  c_brelse : Z -> M S unit;
  c_data : Z -> M S memory;
  c_set_data : Z -> memory -> M S unit;
  c_set_dirty : Z -> M S unit;
  c_blockno : Z -> M S Z;
  c_size : S -> Z;
  c_rep : S -> blocks -> Prop;

  c_rep_proper : Proper ((=) ==> (≡) ==> iff) c_rep;
  c_clean_ok : forall s A n, c_rep s A -> n ∉ ba_pin A -> ~ is_held A n -> ba_cur A n = ba_disk A n;
  c_bread_ok : forall s A n, c_rep s A -> 0 <= n < c_size s -> ~ is_held A n -> has_room A n ->
    wp (c_bread 1 n) (fun b s' => ba_held A !! b = None /\ c_rep s' (ba_hold b n A) /\
      c_size s' = c_size s) s;
  c_bwrite_ok : forall s A b n, c_rep s A -> ba_held A !! b = Some n ->
    wp (c_bwrite b) (fun _ s' => c_rep s' (ba_write n A) /\ c_size s' = c_size s) s;
  c_brelse_ok : forall s A b n, c_rep s A -> ba_held A !! b = Some n ->
    n ∈ ba_pin A \/ ba_cur A n = ba_disk A n ->
    wp (c_brelse b) (fun _ s' => c_rep s' (ba_drop b A) /\ c_size s' = c_size s) s;
  c_data_ok : forall s A b n, c_rep s A -> ba_held A !! b = Some n ->
    c_data b s = Ret (ba_cur A n) s;
  c_set_data_ok : forall s A b n d, c_rep s A -> ba_held A !! b = Some n ->
    wp (c_set_data b d) (fun _ s' => c_rep s' (ba_set n d A) /\ c_size s' = c_size s) s;
  c_set_dirty_ok : forall s A b n, c_rep s A -> ba_held A !! b = Some n ->
    wp (c_set_dirty b) (fun _ s' => c_rep s' (ba_dirty n A) /\ c_size s' = c_size s) s;
  c_blockno_ok : forall s A b n, c_rep s A -> ba_held A !! b = Some n ->
    c_blockno b s = Ret n s
}.

#[global] Existing Instance c_rep_proper.
