(* ===== verification/Bio.v ===== *)
(** * Buffer cache ([bio.c], [buf.h], [memide.c])

    Buffers are numbered 0 .. [NBUF] - 1; number [NBUF] is the list head
    [bcache.head].  A block's contents are a byte map.  The disk is the one of
    [memide.c]: a request completes at once.

    The run is that of one process: [acquiresleep] on a lock that is held
    sleeps, and with nobody to wake it the run does not return. *)

From stdpp Require Import base tactics numbers gmap strings list sets.
From Stdlib Require Import ZArith Lia.
From S2P Require Import Prelude Mmu Memory Spinlock Sleeplock Ring.

Definition B_VALID : Z := 2.
Definition B_DIRTY : Z := 4.

#[global] Instance czero_block : CZero memory := (∅ : memory).

(** [struct buf] *)
Record buf := mkbuf {
  flags : Z;
  dev : Z;
  blockno : Z;
  block_lock : sleeplock;
  refcnt : Z;
  prev : Z;
  next : Z;
  data : memory
}.

#[global] Instance czero_buf : CZero buf := mkbuf 0 0 0 (mksl false 0) 0 0 0 ∅.

(** [bcache], the disk, the running process, and the disk writes so far. *)
Record bst := mkbst {
  bclock : bool;
  bufs : arr buf;
  disksize : Z;
  memdisk : arr memory;
  writes : list (Z * memory);
  mypid : Z
}.

Definition set_bclock (l : bool) (s : bst) : bst :=
  mkbst l (bufs s) (disksize s) (memdisk s) (writes s) (mypid s).
Definition set_bufs (a : arr buf) (s : bst) : bst :=
  mkbst (bclock s) a (disksize s) (memdisk s) (writes s) (mypid s).
Definition set_disk (d : arr memory) (w : list (Z * memory)) (s : bst) : bst :=
  mkbst (bclock s) (bufs s) (disksize s) d w (mypid s).

Definition HEAD : Z := NBUF.

Definition get_buf (b : Z) : M bst buf := aget (NBUF + 1) bufs b.
Definition put_buf (b : Z) (x : buf) : M bst unit :=
  aset (NBUF + 1) (fun f s => set_bufs (f (bufs s)) s) b x.
Definition upd_buf (b : Z) (f : buf -> buf) : M bst unit := let* x := get_buf b in put_buf b (f x).

(** Field updates. *)
Definition with_next (n : Z) (x : buf) : buf :=
  mkbuf (flags x) (dev x) (blockno x) (block_lock x) (refcnt x) (prev x) n (data x).
Definition with_prev (p : Z) (x : buf) : buf :=
  mkbuf (flags x) (dev x) (blockno x) (block_lock x) (refcnt x) p (next x) (data x).
Definition with_lock (l : sleeplock) (x : buf) : buf :=
  mkbuf (flags x) (dev x) (blockno x) l (refcnt x) (prev x) (next x) (data x).
Definition with_refcnt (n : Z) (x : buf) : buf :=
  mkbuf (flags x) (dev x) (blockno x) (block_lock x) n (prev x) (next x) (data x).
Definition with_flags (f : Z) (x : buf) : buf :=
  mkbuf f (dev x) (blockno x) (block_lock x) (refcnt x) (prev x) (next x) (data x).
Definition with_data (d : memory) (x : buf) : buf :=
  mkbuf (flags x) (dev x) (blockno x) (block_lock x) (refcnt x) (prev x) (next x) d.

Definition bc_acquire : M bst unit := Lock.acquire bclock set_bclock.
Definition bc_release : M bst unit := Lock.release bclock set_bclock.

(** ** Sleep locks *)

Definition initsleeplock (b : Z) : M bst unit := upd_buf b (with_lock Sleep.initsleeplock).

Definition acquiresleep (b : Z) : M bst unit :=
  let* x := get_buf b in
  let* p := gets mypid in
  match Sleep.acquiresleep p (block_lock x) with
  | None => fun _ => NoFuel
  | Some l => upd_buf b (with_lock l)
  end.

Definition releasesleep (b : Z) : M bst unit :=
  upd_buf b (fun x => with_lock (Sleep.releasesleep (block_lock x)) x).

Definition holdingsleep (b : Z) : M bst bool :=
  let* x := get_buf b in
  let* p := gets mypid in
  ret (Sleep.holdingsleep p (block_lock x)).

(** ** The disk *)

Definition iderw (b : Z) : M bst unit :=
  let* h := holdingsleep b in
  if negb h then panic "iderw: buf not locked" else
  let* x := get_buf b in
  if Z.land (flags x) (Z.lor B_VALID B_DIRTY) =? B_VALID then panic "iderw: nothing to do" else
  if negb (dev x =? 1) then panic "iderw: request not for disk 1" else
  let* sz := gets disksize in
  if u32 sz <=? blockno x then panic "iderw: block out of range" else
  (if has (flags x) B_DIRTY then
     upd_buf b (fun x => with_flags (Z.land (flags x) (Z.lnot B_DIRTY)) x) ;;;
     modify (fun s => set_disk (<[blockno x := data x]> (memdisk s))
                        (writes s ++ [(blockno x, data x)]) s)
   else
     let* d := gets (fun s => (memdisk s).[blockno x]) in
     upd_buf b (with_data d)) ;;;
  upd_buf b (fun x => with_flags (Z.lor (flags x) B_VALID) x).

(** ** [bio.c] *)

Definition binit : M bst unit :=
  modify (set_bclock false) ;;;
  upd_buf HEAD (with_prev HEAD) ;;;
  upd_buf HEAD (with_next HEAD) ;;;
  for_up 0 NBUF (fun b =>
    let* h := get_buf HEAD in
    upd_buf b (with_next (next h)) ;;;
    upd_buf b (with_prev HEAD) ;;;
    initsleeplock b ;;;
    let* h := get_buf HEAD in
    upd_buf (next h) (with_prev b) ;;;
    upd_buf HEAD (with_next b)).

Definition next_of (b : Z) : M bst Z := let* x := get_buf b in ret (next x).
Definition prev_of (b : Z) : M bst Z := let* x := get_buf b in ret (prev x).

Definition bget (d n : Z) : M bst Z :=
  bc_acquire ;;;
  let* first := next_of HEAD in
  let* hit := scan HEAD next_of (fun b =>
                let* x := get_buf b in ret ((dev x =? d) && (blockno x =? n)))
                (Z.to_nat NBUF + 1)%nat first in
  match hit with
  | Some b =>
      upd_buf b (fun x => with_refcnt (u32 (refcnt x + 1)) x) ;;;
      bc_release ;;;
      acquiresleep b ;;;
      ret b
  | None =>
      let* last := prev_of HEAD in
      let* victim := scan HEAD prev_of (fun b =>
                       let* x := get_buf b in
                       ret ((refcnt x =? 0) && negb (has (flags x) B_DIRTY)))
                       (Z.to_nat NBUF + 1)%nat last in
      match victim with
      | Some b =>
          upd_buf b (fun x => mkbuf 0 d n (block_lock x) 1 (prev x) (next x) (data x)) ;;;
          bc_release ;;;
          acquiresleep b ;;;
          ret b
      | None => panic "bget: no buffers"
      end
  end.

Definition bread (d n : Z) : M bst Z :=
  let* b := bget d n in
  let* x := get_buf b in
  when (negb (has (flags x) B_VALID)) (iderw b) ;;;
  ret b.

Definition bwrite (b : Z) : M bst unit :=
  let* h := holdingsleep b in
  if negb h then panic "bwrite" else
  upd_buf b (fun x => with_flags (Z.lor (flags x) B_DIRTY) x) ;;;
  iderw b.

Definition brelse (b : Z) : M bst unit :=
  let* h := holdingsleep b in
  if negb h then panic "brelse" else
  releasesleep b ;;;
  bc_acquire ;;;
  upd_buf b (fun x => with_refcnt (u32 (refcnt x - 1)) x) ;;;
  let* x := get_buf b in
  when (refcnt x =? 0) (
    upd_buf (next x) (with_prev (prev x)) ;;;
    let* x := get_buf b in
    upd_buf (prev x) (with_next (next x)) ;;;
    let* h := get_buf HEAD in
    upd_buf b (with_next (next h)) ;;;
    upd_buf b (with_prev HEAD) ;;;
    let* h := get_buf HEAD in
    upd_buf (next h) (with_prev b) ;;;
    upd_buf HEAD (with_next b)) ;;;
  bc_release.
