(* ===== verification/BioFacts.v ===== *)
(** * Buffer cache: specifications

    [bio_rep] relates the view of the interface ([Cache.blocks]) to the
    buffers, the ring and the disk of [bio.c]; the rules for [bread],
    [bwrite], [brelse] and for changes to a held buffer are stated on the
    view, and discharge the interface. *)

From stdpp Require Import base tactics numbers gmap strings list sets.
From Stdlib Require Import ZArith Lia.
From S2P Require Import Prelude Mmu Memory Spinlock Sleeplock Ring Cache Bio.

(** ** The representation *)

Definition in_range (b : Z) : Prop := 0 <= b < NBUF.

(** A buffer that has never been used, and one that caches a block. *)
Definition buf_ok (sz : Z) (x : buf) : Prop :=
  (dev x = 0 /\ flags x = 0 /\ sl_locked (block_lock x) = false) \/
  (dev x = 1 /\ (flags x = B_VALID \/ flags x = Z.lor B_VALID B_DIRTY) /\ 0 <= blockno x < sz).

Record bio_rep (s : bst) (A : blocks) (order : list Z) : Prop := {
  br_lock : bclock s = false;
  br_size : 0 <= disksize s < 4294967296;
  br_ring : seg (fun i => next (bufs s).[i]) (fun i => prev (bufs s).[i]) HEAD order HEAD;
  br_order : order ≡ₚ seqZ 0 NBUF;
  br_buf : forall b, in_range b -> buf_ok (disksize s) (bufs s).[b];
  br_uniq : forall b b', in_range b -> in_range b' -> dev (bufs s).[b] = 1 ->
    dev (bufs s).[b'] = 1 -> blockno (bufs s).[b] = blockno (bufs s).[b'] -> b = b';
  br_ref : forall b, in_range b -> refcnt (bufs s).[b] =
    (if sl_locked (block_lock (bufs s).[b]) then 1 else 0) /\
    (sl_locked (block_lock (bufs s).[b]) = true -> sl_pid (block_lock (bufs s).[b]) = mypid s);
  br_disk : forall n, (memdisk s).[n] = ba_disk A n;
  br_data : forall b, in_range b -> dev (bufs s).[b] = 1 ->
    data (bufs s).[b] = ba_cur A (blockno (bufs s).[b]);
  br_clean : forall n, n ∉ ba_pin A -> ~ is_held A n -> ba_cur A n = ba_disk A n;
  br_pin : forall n, n ∈ ba_pin A <-> exists b, in_range b /\ dev (bufs s).[b] = 1 /\
    blockno (bufs s).[b] = n /\ flags (bufs s).[b] = Z.lor B_VALID B_DIRTY;
  br_held : forall b n, ba_held A !! b = Some n <-> in_range b /\
    sl_locked (block_lock (bufs s).[b]) = true /\ blockno (bufs s).[b] = n;
  br_writes : writes s = ba_writes A
}.

(** ** Accessing buffers *)

Lemma NBUF_eq : NBUF = 30.
Proof. done. Qed.

Lemma get_buf_eq b s : 0 <= b <= NBUF -> get_buf b s = Ret (bufs s).[b] s.
Proof.
  intros Hb. unfold get_buf, aget.
  by rewrite (proj2 (Z.leb_le 0 b)), (proj2 (Z.ltb_lt b _)) by lia.
Qed.

Lemma upd_buf_eq b f s : 0 <= b <= NBUF ->
  upd_buf b f s = Ret tt (set_bufs (<[b := f (bufs s).[b]]> (bufs s)) s).
Proof.
  intros Hb. unfold upd_buf. eapply bind_step; [by apply get_buf_eq|]. unfold put_buf, aset.
  by rewrite (proj2 (Z.leb_le 0 b)), (proj2 (Z.ltb_lt b _)) by lia.
Qed.

Lemma wp_get_buf b s (Q : buf -> bst -> Prop) : 0 <= b <= NBUF -> Q (bufs s).[b] s ->
  wp (get_buf b) Q s.
Proof. intros Hb HQ. eapply wp_of_eq; [by apply get_buf_eq|done]. Qed.

Lemma wp_upd_buf b f s (Q : unit -> bst -> Prop) : 0 <= b <= NBUF ->
  Q tt (set_bufs (<[b := f (bufs s).[b]]> (bufs s)) s) -> wp (upd_buf b f) Q s.
Proof. intros Hb HQ. eapply wp_of_eq; [by apply upd_buf_eq|done]. Qed.

Lemma set_bufs_set_bufs a a' s : set_bufs a (set_bufs a' s) = set_bufs a s.
Proof. done. Qed.

Lemma in_order s A order b : bio_rep s A order -> (b ∈ order <-> in_range b).
Proof.
  intros Hr. rewrite (br_order _ _ _ Hr), elem_of_seqZ. unfold in_range. lia.
Qed.

Lemma order_nodup s A order : bio_rep s A order -> NoDup order /\ (HEAD ∉ order) /\
  length order = Z.to_nat NBUF.
Proof.
  intros Hr. rewrite (br_order _ _ _ Hr). split; [apply NoDup_seqZ|].
  rewrite elem_of_seqZ, length_seqZ. split; [unfold HEAD; lia|done].
Qed.

(** The buffer that caches a block. *)
Lemma cached_or_not s A order n : bio_rep s A order ->
  (exists b, in_range b /\ dev (bufs s).[b] = 1 /\ blockno (bufs s).[b] = n) \/
  (forall b, in_range b -> dev (bufs s).[b] = 1 -> blockno (bufs s).[b] <> n).
Proof.
  intros Hr. destruct (decide (Exists (fun b => dev (bufs s).[b] = 1 /\ blockno (bufs s).[b] = n) order))
    as [He|He].
  - left. apply Exists_exists in He as (b & Hb & H1 & H2). exists b.
    split; [by eapply in_order|done].
  - right. intros b Hb H1 H2. apply He, Exists_exists. exists b.
    split; [by eapply in_order|done].
Qed.

(** A block no buffer caches is as it is on disk. *)
Lemma uncached_clean s A order n : bio_rep s A order ->
  (forall b, in_range b -> dev (bufs s).[b] = 1 -> blockno (bufs s).[b] <> n) ->
  ba_cur A n = ba_disk A n.
Proof.
  intros Hr Hno. apply (br_clean _ _ _ Hr).
  - intros (b & Hb & Hd & Hn & _)%(br_pin _ _ _ Hr). by eapply Hno.
  - intros (b & Hb). apply (br_held _ _ _ Hr) in Hb as (Hb & Hl & Hn).
    destruct (br_buf _ _ _ Hr b Hb) as [(_ & _ & Hx)|(Hd & _)]; [congruence|by eapply Hno].
Qed.

(** Scanning the ring forwards and backwards. *)
Lemma wp_scan_ring {B} s A order (back : bool) (f : buf -> bool) (K : option Z -> M bst B)
    (Q : B -> bst -> Prop) s' :
  bio_rep s A order -> bufs s' = bufs s ->
  ((forall b, in_range b -> f (bufs s).[b] = false) -> wp (K None) Q s') ->
  (forall b l1 l2, in_range b -> f (bufs s).[b] = true -> order = l1 ++ b :: l2 ->
     Forall (fun i => f (bufs s).[i] = false) (if back then l2 else l1) -> wp (K (Some b)) Q s') ->
  wp (let* x := (if back then prev_of else next_of) HEAD in
      let* r := scan HEAD (if back then prev_of else next_of)
        (fun b => let* x := get_buf b in ret (f x)) (Z.to_nat NBUF + 1)%nat x in
      K r) Q s'.
Proof.
  intros Hr Es H0 H1. destruct (order_nodup _ _ _ Hr) as (_ & Hh & Hlen).
  set (g := fun i => if back then prev (bufs s).[i] else next (bufs s).[i]).
  assert (forall i, 0 <= i <= NBUF -> (if back then prev_of else next_of) i s' = Ret (g i) s') as Hstep.
  { intros i Hi. unfold g. destruct back; (eapply bind_step; [by apply get_buf_eq|]); by rewrite Es. }
  apply wp_bind. eapply wp_of_eq; [apply Hstep; unfold HEAD; rewrite NBUF_eq; lia|].
  apply wp_bind.
  set (l := if back then reverse order else order).
  assert (forall i, i ∈ l <-> i ∈ order) as Hl by (intros i; unfold l; destruct back; [apply elem_of_reverse|done]).
  apply (wp_scan HEAD _ _ g (fun i => f (bufs s).[i]) l HEAD).
  - intros i Hi%Hl. assert (in_range i) as Hri by (by eapply in_order). unfold in_range in Hri.
    split; [unfold HEAD; lia|]. split; [|apply Hstep; lia].
    eapply bind_step; [apply get_buf_eq; lia|]. by rewrite Es.
  - unfold l, g. destruct back.
    + eapply seg_path_back. apply (br_ring _ _ _ Hr).
    + eapply seg_path. apply (br_ring _ _ _ Hr).
  - unfold l. destruct back; rewrite ?length_reverse; lia.
  - intros Hall. apply H0. intros b Hb. rewrite Forall_forall in Hall. apply Hall, Hl.
    by eapply in_order.
  - intros l1 b l2 E Hf Hno. assert (in_range b) as Hb.
    { eapply in_order; [exact Hr|]. apply Hl. rewrite E. set_solver. }
    destruct back; unfold l in E; [|by eapply H1].
    apply (H1 b (reverse l2) (reverse l1)); [done..| |by apply Forall_reverse].
    rewrite <- (reverse_involutive order), E, reverse_app, reverse_cons, <- app_assoc. done.
Qed.

(** A buffer [bget] can recycle, and the one it does: the least recently
    released. *)
Definition idle_buf (x : buf) : bool := (refcnt x =? 0) && negb (has (flags x) B_DIRTY).

Definition lru (s : bst) (order : list Z) (b : Z) : Prop :=
  idle_buf (bufs s).[b] = true /\
  exists l1 l2, order = l1 ++ b :: l2 /\ Forall (fun i => idle_buf (bufs s).[i] = false) l2.

(** ** Changing one buffer *)

Definition lock_ok (s : bst) (x : buf) : Prop :=
  refcnt x = (if sl_locked (block_lock x) then 1 else 0) /\
  (sl_locked (block_lock x) = true -> sl_pid (block_lock x) = mypid s).

Definition caches (x : buf) (n : Z) : Prop := dev x = 1 /\ blockno x = n.

Definition pins (x : buf) (n : Z) : Prop := caches x n /\ flags x = Z.lor B_VALID B_DIRTY.

Lemma pin_others s A order b n : bio_rep s A order -> in_range b ->
  ((exists b', b' <> b /\ in_range b' /\ pins (bufs s).[b'] n) <->
   n ∈ ba_pin A /\ ~ caches (bufs s).[b] n).
Proof.
  intros Hr Hb. unfold pins, caches. split.
  - intros (b' & Hne & Hb' & (Hd & Hn) & Hf). split; [apply (br_pin _ _ _ Hr); eauto 10|].
    intros [Hd' Hn']. apply Hne. eapply (br_uniq _ _ _ Hr); eauto. congruence.
  - intros [(b' & Hb' & Hd & Hn & Hf)%(br_pin _ _ _ Hr) Hno]. exists b'.
    split; [|done]. intros ->. by apply Hno.
Qed.

(** Buffer [b] becomes [x'], its links unchanged, and the disk becomes [d']. *)
Lemma rep_upd s A order b x' A' d' w' : bio_rep s A order -> in_range b ->
  next x' = next (bufs s).[b] -> prev x' = prev (bufs s).[b] ->
  buf_ok (disksize s) x' -> lock_ok s x' ->
  (dev x' = 1 -> forall b', in_range b' -> b' <> b -> ~ caches (bufs s).[b'] (blockno x')) ->
  (dev x' = 1 -> data x' = ba_cur A' (blockno x')) ->
  (forall b' n, in_range b' -> b' <> b -> caches (bufs s).[b'] n -> ba_cur A' n = ba_cur A n) ->
  (forall n, d'.[n] = ba_disk A' n) ->
  (forall n, n ∉ ba_pin A' -> ~ is_held A' n -> ba_cur A' n = ba_disk A' n) ->
  (forall n, n ∈ ba_pin A' <-> pins x' n \/ (n ∈ ba_pin A /\ ~ caches (bufs s).[b] n)) ->
  (forall b' n, ba_held A' !! b' = Some n <->
     if decide (b' = b) then sl_locked (block_lock x') = true /\ blockno x' = n
     else ba_held A !! b' = Some n) ->
  w' = ba_writes A' ->
  bio_rep (set_disk d' w' (set_bufs (<[b := x']> (bufs s)) s)) A' order.
Proof.
  intros Hr Hb Hnx Hpv Hok Hlk Huq Hd Hcur Hdk Hcl Hpin Hheld Hw.
  assert (forall i, in_range i -> i <> b -> (<[b:=x']> (bufs s)).[i] = (bufs s).[i]) as Hne
    by (intros i _ Hi; by rewrite asel_insert_ne).
  split; cbn; try done.
  - apply (br_lock _ _ _ Hr).
  - apply (br_size _ _ _ Hr).
  - eapply seg_ext; [| |apply (br_ring _ _ _ Hr)]; intros i _; cbn; rewrite asel_insert;
      by case_decide; subst.
  - apply (br_order _ _ _ Hr).
  - intros i Hi. rewrite asel_insert. case_decide; [done|by apply (br_buf _ _ _ Hr)].
  - intros i j Hi Hj. rewrite !asel_insert. repeat case_decide; subst; intros Hdi Hdj E; try done.
    + exfalso. by eapply (Huq Hdi j).
    + exfalso. by eapply (Huq Hdj i).
    + by eapply (br_uniq _ _ _ Hr).
  - intros i Hi. rewrite asel_insert. case_decide; [done|by apply (br_ref _ _ _ Hr)].
  - intros i Hi. rewrite asel_insert. case_decide; [done|]. intros Hdi.
    rewrite (br_data _ _ _ Hr i Hi Hdi). symmetry. by apply (Hcur i).
  - intros n. rewrite Hpin, <- (pin_others _ _ _ _ _ Hr Hb). split.
    + intros [((?&?)&?)|(i & Hi & Hri & (?&?) & ?)]; [exists b|exists i].
      * by rewrite asel_insert_eq.
      * by rewrite Hne.
    + intros (i & Hri & Hi). destruct (decide (i = b)) as [->|Hnb].
      * left. rewrite asel_insert_eq in Hi. by destruct Hi as (?&?&?).
      * right. rewrite Hne in Hi by done. exists i. by destruct Hi as (?&?&?).
  - intros i n. rewrite Hheld, asel_insert. repeat case_decide; subst; try done.
    + naive_solver.
    + apply (br_held _ _ _ Hr).
Qed.

(** ** Room in the cache *)

Lemma nodup_le_size (l : list Z) (X : gset Z) : NoDup l -> (forall x, x ∈ l -> x ∈ X) ->
  (length l <= size X)%nat.
Proof.
  intros Hnd Hin. rewrite <- (size_list_to_set (C := gset Z)) by done. apply subseteq_size.
  intros x Hx%elem_of_list_to_set. by apply Hin.
Qed.

Definition dirty (s : bst) (b : Z) : Prop := flags (bufs s).[b] = Z.lor B_VALID B_DIRTY.

#[global] Instance dirty_dec s b : Decision (dirty s b).
Proof. unfold dirty. apply _. Defined.

Lemma dirty_dev s A order b : bio_rep s A order -> in_range b -> dirty s b -> dev (bufs s).[b] = 1.
Proof.
  intros Hr Hb Hp. unfold dirty in Hp.
  destruct (br_buf _ _ _ Hr b Hb) as [(_ & Hf & _)|(Hd & _)]; [|done]. by rewrite Hf in Hp.
Qed.

Lemma in_bufs b : b ∈ seqZ 0 NBUF <-> in_range b.
Proof. rewrite elem_of_seqZ. unfold in_range. lia. Qed.

Lemma dirty_size s A order : bio_rep s A order ->
  (length (filter (dirty s) (seqZ 0 NBUF)) <= size (ba_pin A))%nat.
Proof.
  intros Hr. rewrite <- (length_fmap (fun b => blockno (bufs s).[b])). apply nodup_le_size.
  - apply NoDup_fmap_2_strong; [|apply NoDup_filter, NoDup_seqZ].
    intros b b' (Hp & Hb%in_bufs)%list_elem_of_filter (Hp' & Hb'%in_bufs)%list_elem_of_filter.
    apply (br_uniq _ _ _ Hr); eauto using dirty_dev.
  - intros n (b & -> & (Hp & Hb%in_bufs)%list_elem_of_filter)%list_elem_of_fmap.
    apply (br_pin _ _ _ Hr). exists b. eauto using dirty_dev.
Qed.

Lemma locked_size s A order (l : list Z) : bio_rep s A order -> NoDup l ->
  (forall b, b ∈ l -> in_range b /\ sl_locked (block_lock (bufs s).[b]) = true) ->
  (length l <= size (ba_held A))%nat.
Proof.
  intros Hr Hnd Hl. rewrite <- size_dom. apply nodup_le_size; [done|]. intros b Hb.
  apply elem_of_dom. exists (blockno (bufs s).[b]). apply (br_held _ _ _ Hr).
  destruct (Hl b Hb). done.
Qed.

(** A buffer that is neither dirty nor in use can be recycled. *)
Lemma free_buffer s A order : bio_rep s A order ->
  Z.of_nat (size (ba_pin A)) + Z.of_nat (size (ba_held A)) < NBUF ->
  exists b, in_range b /\ refcnt (bufs s).[b] = 0 /\ has (flags (bufs s).[b]) B_DIRTY = false.
Proof.
  intros Hr Hsz. set (l2 := filter (fun b => ~ dirty s b) (seqZ 0 NBUF)).
  pose proof (dirty_size _ _ _ Hr) as H1.
  destruct (decide (Forall (fun b => sl_locked (block_lock (bufs s).[b]) = true) l2)) as [Hall|Hno].
  - exfalso. assert (length l2 <= size (ba_held A))%nat as H2.
    { apply (locked_size _ _ _ _ Hr); [apply NoDup_filter, NoDup_seqZ|]. intros b Hb.
      rewrite Forall_forall in Hall. split; [|by apply Hall].
      apply list_elem_of_filter in Hb as [_ Hb]. by apply in_bufs. }
    assert (length (filter (dirty s) (seqZ 0 NBUF)) + length l2 = Z.to_nat NBUF)%nat as H3.
    { rewrite <- (length_seqZ 0 NBUF), <- length_app.
      apply Permutation_length. apply filter_app_complement. }
    rewrite NBUF_eq in *. lia.
  - apply not_Forall_Exists in Hno; [|apply _]. apply Exists_exists in Hno as (b & Hb & Hlk).
    apply list_elem_of_filter in Hb as [Hp Hb%in_bufs]. exists b. split; [done|].
    destruct (br_ref _ _ _ Hr b Hb) as [-> _]. cbn in Hlk. destruct (sl_locked _); [by exfalso; apply Hlk|].
    split; [done|]. unfold dirty in Hp.
    destruct (br_buf _ _ _ Hr b Hb) as [(_ & Hf & _)|(_ & [Hf|Hf] & _)]; rewrite Hf;
      [done..|by exfalso; apply Hp].
Qed.

(** ** Held buffers *)

(** What every operation leaves alone. *)
Definition same_env (s s' : bst) : Prop := disksize s' = disksize s /\ mypid s' = mypid s.

Lemma held_buf s A order b n : bio_rep s A order -> ba_held A !! b = Some n ->
  in_range b /\ caches (bufs s).[b] n /\ sl_locked (block_lock (bufs s).[b]) = true /\
  0 <= n < disksize s /\ data (bufs s).[b] = ba_cur A n /\
  (flags (bufs s).[b] = B_VALID \/ flags (bufs s).[b] = Z.lor B_VALID B_DIRTY).
Proof.
  intros Hr (Hb & Hl & Hn)%(br_held _ _ _ Hr). unfold caches.
  destruct (br_buf _ _ _ Hr b Hb) as [(_ & _ & Hx)|(Hd & Hf & Hsz)]; [congruence|].
  rewrite (br_data _ _ _ Hr b Hb Hd), Hn in *. done.
Qed.

Lemma holding_held s A order b n : bio_rep s A order -> ba_held A !! b = Some n ->
  holdingsleep b s = Ret true s.
Proof.
  intros Hr Hh. destruct (held_buf _ _ _ _ _ Hr Hh) as (Hb & _ & Hl & _).
  eapply bind_step; [apply get_buf_eq; unfold in_range in Hb; lia|].
  unfold bind, gets, ret, Sleep.holdingsleep. rewrite Hl, (proj2 (br_ref _ _ _ Hr b Hb) Hl), Z.eqb_refl. done.
Qed.

(** Changing the flags and data of a held buffer, and its block on disk. *)
Lemma rep_held s A order b n fl d cur' disk' pin' ws' d' : bio_rep s A order ->
  ba_held A !! b = Some n ->
  (fl = B_VALID \/ fl = Z.lor B_VALID B_DIRTY) ->
  d = cur' n -> (forall m, m <> n -> cur' m = ba_cur A m) ->
  (forall m, m <> n -> disk' m = ba_disk A m) -> (forall m, d'.[m] = disk' m) ->
  (n ∈ pin' <-> fl = Z.lor B_VALID B_DIRTY) ->
  (forall m, m <> n -> (m ∈ pin' <-> m ∈ ba_pin A)) ->
  bio_rep (set_disk d' ws' (set_bufs (<[b := with_flags fl (with_data d (bufs s).[b])]> (bufs s)) s))
    (mkblocks cur' disk' pin' (ba_held A) ws') order.
Proof.
  intros Hr Hh Hfl -> Hcur Hdk Hd' Hpn Hpin.
  destruct (held_buf _ _ _ _ _ Hr Hh) as (Hb & (Hd & Hn) & Hl & Hsz & _ & Hf).
  assert (forall b' m, in_range b' -> b' <> b -> caches (bufs s).[b'] m -> m <> n) as Huq.
  { intros b' m Hb' Hne (? & ?) ->. apply Hne. apply (br_uniq _ _ _ Hr); try done. congruence. }
  apply (rep_upd s A order b); cbn; try done.
  - right. cbn. rewrite Hn. eauto.
  - apply (br_ref _ _ _ Hr b Hb).
  - intros _ b' Hb' Hne Hc. eapply Huq; eauto.
  - intros _. by rewrite Hn.
  - intros b' m Hb' Hne Hc. eauto.
  - intros m Hp Hno. assert (m <> n) as Hm by (intros ->; apply Hno; by exists b).
    rewrite Hcur, Hdk by done. apply (br_clean _ _ _ Hr); [|done]. by rewrite <- Hpin.
  - intros m. unfold pins, caches. cbn. destruct (decide (m = n)) as [->|Hm].
    + rewrite Hpn. naive_solver.
    + rewrite Hpin by done. naive_solver.
  - intros b' m. case_decide as Hbb; [|done]. subst b'. rewrite Hh, Hl, Hn. naive_solver.
Qed.

Lemma pin_held s A order b n : bio_rep s A order -> ba_held A !! b = Some n ->
  (n ∈ ba_pin A <-> flags (bufs s).[b] = Z.lor B_VALID B_DIRTY).
Proof.
  intros Hr Hh. destruct (held_buf _ _ _ _ _ Hr Hh) as (Hb & (Hd & Hn) & _).
  rewrite (br_pin _ _ _ Hr). split; [|eauto 10]. intros (b' & Hb' & Hd' & Hn' & Hf').
  replace b with b'; [done|]. apply (br_uniq _ _ _ Hr); congruence.
Qed.

(** The holder of a buffer may change its data, *)
Lemma rep_set s A order b n d : bio_rep s A order -> ba_held A !! b = Some n ->
  bio_rep (set_bufs (<[b := with_data d (bufs s).[b]]> (bufs s)) s) (ba_set n d A) order.
Proof.
  intros Hr Hh. destruct (held_buf _ _ _ _ _ Hr Hh) as (Hb & (Hd & Hn) & Hl & Hsz & _ & Hf).
  pose proof (rep_held s A order b n (flags (bufs s).[b]) d (fupd (ba_cur A) n d) (ba_disk A)
    (ba_pin A) (ba_writes A) (memdisk s) Hr Hh Hf) as H.
  rewrite <- (br_writes _ _ _ Hr) in H at 1. apply H; try done; unfold fupd.
  - by rewrite decide_True.
  - intros m Hm. by rewrite decide_False.
  - apply (br_disk _ _ _ Hr).
  - by eapply pin_held.
Qed.

(** mark it dirty ([b->flags |= B_DIRTY]), *)
Lemma rep_dirty s A order b n : bio_rep s A order -> ba_held A !! b = Some n ->
  bio_rep (set_bufs (<[b := with_flags (Z.lor (flags (bufs s).[b]) B_DIRTY) (bufs s).[b]]> (bufs s)) s)
    (ba_dirty n A) order.
Proof.
  intros Hr Hh. destruct (held_buf _ _ _ _ _ Hr Hh) as (Hb & (Hd & Hn) & Hl & Hsz & Hc & Hf).
  replace (Z.lor (flags (bufs s).[b]) B_DIRTY) with (Z.lor B_VALID B_DIRTY) by (by destruct Hf as [->| ->]).
  pose proof (rep_held s A order b n (Z.lor B_VALID B_DIRTY) (data (bufs s).[b]) (ba_cur A) (ba_disk A)
    ({[n]} ∪ ba_pin A) (ba_writes A) (memdisk s) Hr Hh) as H.
  rewrite <- (br_writes _ _ _ Hr) in H at 1. apply H; try done; try set_solver.
  apply (br_disk _ _ _ Hr).
Qed.

(** and write it to disk. *)
Lemma wp_bwrite s A order b n : bio_rep s A order -> ba_held A !! b = Some n ->
  wp (bwrite b) (fun _ s' => bio_rep s' (ba_write n A) order /\ same_env s s') s.
Proof.
  intros Hr Hh. destruct (held_buf _ _ _ _ _ Hr Hh) as (Hb & (Hd & Hn) & Hl & Hsz & Hc & Hf).
  pose proof (rep_dirty _ _ _ _ _ Hr Hh) as Hr'. set (s1 := set_bufs _ _) in Hr'.
  unfold in_range in Hb.
  assert ((bufs s1).[b] = with_flags (Z.lor B_VALID B_DIRTY) (bufs s).[b]) as E1.
  { cbn. rewrite asel_insert_eq. by destruct Hf as [->| ->]. }
  unfold bwrite. apply wp_bind. eapply wp_of_eq; [by eapply holding_held|]. cbn [negb].
  apply wp_bind, wp_upd_buf; [lia|]. fold s1. unfold iderw.
  apply wp_bind. eapply wp_of_eq; [by eapply (holding_held s1 (ba_dirty n A))|]. cbn [negb].
  apply wp_bind, wp_get_buf; [lia|]. rewrite E1. cbn [flags dev blockno data with_flags].
  rewrite Hd, Hn. cbn [Z.eqb negb]. apply wp_bind, wp_gets. cbn [disksize s1 set_bufs].
  destruct (br_size _ _ _ Hr). rewrite u32_small, (proj2 (Z.leb_gt _ _)) by lia.
  apply wp_bind, wp_bind, wp_upd_buf; [lia|]. apply wp_modify, wp_upd_buf; [lia|].
  split; [|done]. cbn [bufs set_bufs set_disk memdisk writes s1].
  rewrite !asel_insert_eq, !insert_insert_eq.
  replace (with_flags _ _) with (with_flags B_VALID (with_data (data (bufs s).[b]) (bufs s).[b]))
    by (by destruct Hf as [E|E]; rewrite E).
  rewrite (br_writes _ _ _ Hr), Hc.
  apply (rep_held s A order b n B_VALID (ba_cur A n) (ba_cur A) (fupd (ba_disk A) n (ba_cur A n))
    (ba_pin A ∖ {[n]}) (ba_writes A ++ [(n, ba_cur A n)]) (<[n := ba_cur A n]> (memdisk s)));
    try done; unfold fupd.
  - by left.
  - intros m Hm. by rewrite decide_False.
  - intros m. rewrite asel_insert, (br_disk _ _ _ Hr). repeat case_decide; congruence.
  - split; [set_solver|done].
  - set_solver.
Qed.

(** ** [bread] *)

Lemma not_held_unlocked s A order b : bio_rep s A order -> in_range b ->
  ~ is_held A (blockno (bufs s).[b]) -> sl_locked (block_lock (bufs s).[b]) = false /\ ba_held A !! b = None.
Proof.
  intros Hr Hb Hno. split.
  - destruct (sl_locked _) eqn:E; [|done]. destruct Hno. exists b. by apply (br_held _ _ _ Hr).
  - destruct (ba_held A !! b) as [n|] eqn:E; [|done]. destruct Hno. exists b. rewrite E.
    apply (br_held _ _ _ Hr) in E as (_ & _ & ->). done.
Qed.

Lemma hold_clean s A order b n : bio_rep s A order -> ba_held A !! b = None ->
  forall m, m ∉ ba_pin A -> ~ is_held (ba_hold b n A) m -> ba_cur A m = ba_disk A m.
Proof.
  intros Hr Hb m Hm Hno. apply (br_clean _ _ _ Hr); [done|]. intros [b' Hb']. apply Hno.
  exists b'. cbn. rewrite lookup_insert_ne; [done|]. intros ->. congruence.
Qed.

Lemma hold_lookup (h : gmap Z Z) b n b' m : <[b := n]> h !! b' = Some m <->
  if decide (b' = b) then true = true /\ n = m else h !! b' = Some m.
Proof. rewrite lookup_insert. repeat case_decide; subst; naive_solver. Qed.

(** The buffer that caches the block is locked, *)
Lemma rep_hit s A order b n : bio_rep s A order -> in_range b -> caches (bufs s).[b] n ->
  ~ is_held A n ->
  bio_rep (set_bufs (<[b := with_lock (mksl true (mypid s)) (with_refcnt 1 (bufs s).[b])]> (bufs s)) s)
    (ba_hold b n A) order.
Proof.
  intros Hr Hb [Hd Hn] Hno.
  destruct (not_held_unlocked _ _ _ b Hr Hb) as [Hl Hnone]; [by rewrite Hn|].
  apply (rep_upd s A order b _ _ (memdisk s) (writes s)); cbn; try done.
  - right. cbn. destruct (br_buf _ _ _ Hr b Hb) as [(Hx & _)|H]; [congruence|done].
  - intros _ b' Hb' Hne [Hd' Hn']. apply Hne. by apply (br_uniq _ _ _ Hr).
  - by apply (br_data _ _ _ Hr).
  - apply (br_disk _ _ _ Hr).
  - by apply (hold_clean s A order).
  - intros m. unfold pins, caches. cbn. rewrite (br_pin _ _ _ Hr). split.
    + intros (b' & Hb' & Hd' & Hm & Hf). destruct (decide (b' = b)) as [->|Hne]; [by left|].
      right. split; [eauto 10|]. intros [_ Hm']. apply Hne. apply (br_uniq _ _ _ Hr); congruence.
    + intros [((_ & Hm) & Hf)|[H _]]; [eauto 10|done].
  - intros b' m. rewrite Hn. apply hold_lookup.
  - apply (br_writes _ _ _ Hr).
Qed.

(** or a clean unused buffer takes the block from the disk. *)
Lemma rep_miss s A order b n : bio_rep s A order -> in_range b -> 0 <= n < disksize s ->
  (forall b', in_range b' -> ~ caches (bufs s).[b'] n) ->
  refcnt (bufs s).[b] = 0 -> flags (bufs s).[b] <> Z.lor B_VALID B_DIRTY ->
  bio_rep (set_bufs (<[b := mkbuf B_VALID 1 n (mksl true (mypid s)) 1 (prev (bufs s).[b])
    (next (bufs s).[b]) (memdisk s).[n]]> (bufs s)) s) (ba_hold b n A) order.
Proof.
  intros Hr Hb Hsz Hno Href Hfl.
  assert (ba_held A !! b = None) as Hnone.
  { destruct (ba_held A !! b) as [m|] eqn:E; [|done].
    apply (br_held _ _ _ Hr) in E as (_ & Hl & _).
    destruct (br_ref _ _ _ Hr b Hb) as [Hx _]. rewrite Hl in Hx. congruence. }
  assert (ba_cur A n = ba_disk A n) as Hcn.
  { apply (uncached_clean _ _ _ _ Hr). intros b' Hb' Hd Hn. by eapply Hno. }
  apply (rep_upd s A order b _ _ (memdisk s) (writes s)); cbn; try done.
  - right. cbn. eauto.
  - intros _ b' Hb' _. by apply Hno.
  - intros _. by rewrite (br_disk _ _ _ Hr), Hcn.
  - apply (br_disk _ _ _ Hr).
  - by apply (hold_clean s A order).
  - intros m. unfold pins, caches. cbn. rewrite (br_pin _ _ _ Hr). split; [|naive_solver].
    intros (b' & Hb' & Hd' & Hm & Hf). right. split; [eauto 10|]. intros [Hd Hm'].
    apply Hfl. replace b with b'; [done|]. apply (br_uniq _ _ _ Hr); congruence.
  - intros b' m. apply hold_lookup.
  - apply (br_writes _ _ _ Hr).
Qed.

(** The state inside [bget]'s critical section, and after it. *)
Definition bget_state (s : bst) (b : Z) (x : buf) : bst := set_bufs (<[b := x]> (bufs s)) s.

Lemma wp_lock_buf s s1 b x (Q : Z -> bst -> Prop) : bclock s = false -> in_range b ->
  s1 = set_bclock true (bget_state s b x) -> sl_locked (block_lock x) = false ->
  Q b (bget_state s b (with_lock (mksl true (mypid s)) x)) ->
  wp (bc_release ;;; acquiresleep b ;;; ret b) Q s1.
Proof.
  unfold in_range. intros Hl Hb -> Hx HQ. apply wp_bind, Lock.wp_release; [done|].
  apply wp_bind. unfold acquiresleep. apply wp_bind, wp_get_buf; [lia|].
  cbn [bufs set_bclock bget_state set_bufs]. rewrite asel_insert_eq. apply wp_bind, wp_gets. unfold Sleep.acquiresleep. rewrite Hx.
  apply wp_upd_buf; [lia|]. apply wp_ret.
  cbn [bufs set_bclock bget_state set_bufs mypid]. rewrite asel_insert_eq, insert_insert_eq.
  unfold bget_state in HQ. destruct s. cbn in *. by subst.
Qed.

Lemma wp_bget s A order n : bio_rep s A order -> ~ is_held A n ->
  (n ∈ ba_pin A \/ Z.of_nat (size (ba_pin A)) + Z.of_nat (size (ba_held A)) < NBUF) ->
  wp (bget 1 n) (fun b s' => in_range b /\
    ((caches (bufs s).[b] n /\
      s' = bget_state s b (with_lock (mksl true (mypid s)) (with_refcnt 1 (bufs s).[b]))) \/
     ((forall b', in_range b' -> ~ caches (bufs s).[b'] n) /\ lru s order b /\
      refcnt (bufs s).[b] = 0 /\ flags (bufs s).[b] <> Z.lor B_VALID B_DIRTY /\
      s' = bget_state s b (mkbuf 0 1 n (mksl true (mypid s)) 1 (prev (bufs s).[b])
             (next (bufs s).[b]) (data (bufs s).[b]))))) s.
Proof.
  intros Hr Hno Hroom. pose proof (br_lock _ _ _ Hr) as Hlk.
  assert (forall b, in_range b -> refcnt (bufs s).[b] = 0 -> sl_locked (block_lock (bufs s).[b]) = false) as Hul.
  { intros b Hb H0. destruct (br_ref _ _ _ Hr b Hb) as [Hx _]. 
    destruct (sl_locked _) in *; congruence. }
  apply wp_bind, Lock.wp_acquire; [done|].
  apply (wp_scan_ring s A order false (fun x => (dev x =? 1) && (blockno x =? n))); [done..| |].
  - intros Hmiss. assert (forall b, in_range b -> ~ caches (bufs s).[b] n) as Hm.
    { intros b Hb [Hd Hn]. specialize (Hmiss b Hb). by rewrite Hd, Hn, !Z.eqb_refl in Hmiss. }
    apply (wp_scan_ring s A order true idle_buf); [done..| |].
    + intros Hfull. exfalso. destruct Hroom as [Hp|Hsz].
      * apply (br_pin _ _ _ Hr) in Hp as (b & Hb & Hd & Hn & _). by eapply (Hm b).
      * destruct (free_buffer _ _ _ Hr Hsz) as (b & Hb & H0 & Hf). specialize (Hfull b Hb).
        unfold idle_buf in Hfull. by rewrite H0, Hf in Hfull.
    + intros b l1 l2 Hb Hf Eo Hl2. apply wp_bind, wp_upd_buf; [unfold in_range in Hb; lia|].
      assert (lru s order b) as Hlru by (split; eauto). unfold idle_buf in Hf. bprop.
      eapply (wp_lock_buf s); [done..| |]; [cbn; by apply Hul|].
      split; [done|]. right. split; [done|]. split; [done|]. split; [done|]. split; [|done].
      intros E. by rewrite E in *.
  - intros b l1 l2 Hb Hf _ _. bprop. apply wp_bind, wp_upd_buf; [unfold in_range in Hb; lia|].
    assert (caches (bufs s).[b] n) as Hc by done.
    destruct (not_held_unlocked _ _ _ b Hr Hb) as [Hl Hnone]; [by destruct Hc as [_ ->]|].
    destruct (br_ref _ _ _ Hr b Hb) as [Hrf _]. rewrite Hl in Hrf.
    eapply (wp_lock_buf s); [done..| |].
    + cbn. exact Hl.
    + split; [done|]. left. split; [done|]. cbn. by rewrite Hrf.
Qed.

(** [bread(1, n)] returns a locked buffer with the current content of [n]. *)
Lemma wp_bread s A order n : bio_rep s A order -> 0 <= n < disksize s -> ~ is_held A n ->
  (n ∈ ba_pin A \/ Z.of_nat (size (ba_pin A)) + Z.of_nat (size (ba_held A)) < NBUF) ->
  wp (bread 1 n) (fun b s' => ba_held A !! b = None /\ bio_rep s' (ba_hold b n A) order /\
    same_env s s' /\ (caches (bufs s).[b] n \/
      (forall b', in_range b' -> ~ caches (bufs s).[b'] n) /\ lru s order b)) s.
Proof.
  intros Hr Hsz Hno Hroom. apply wp_bind. eapply wp_mono; [|by eapply wp_bget].
  intros b s' (Hb & H). unfold in_range in Hb. apply wp_bind, wp_get_buf; [lia|].
  destruct H as [(Hc & ->)|(Hm & Hlru & H0 & Hf & ->)]; unfold bget_state; cbn [bufs set_bufs];
    rewrite asel_insert_eq; cbn [flags with_lock with_refcnt].
  - replace (has (flags (bufs s).[b]) B_VALID) with true; [|destruct (br_buf _ _ _ Hr b Hb)
      as [(Hx & _)|(_ & [->| ->] & _)]; [by destruct Hc; congruence|done|done]].
    apply wp_bind, wp_ret, wp_ret. split; [|split; [by apply rep_hit|split; [done|by left]]].
    apply (not_held_unlocked _ _ _ b Hr Hb). by destruct Hc as [_ ->].
  - apply wp_bind, wp_when; [intros _|done]. unfold iderw.
    pose proof (rep_miss _ _ _ b n Hr Hb Hsz Hm H0 Hf) as Hr'.
    apply wp_bind. unfold holdingsleep. apply wp_bind, wp_get_buf; [lia|].
    apply wp_bind, wp_gets, wp_ret. cbn [bufs set_bufs mypid].
    rewrite asel_insert_eq. unfold Sleep.holdingsleep. cbn [sl_locked sl_pid block_lock].
    rewrite Z.eqb_refl. cbn [negb andb].
    apply wp_bind, wp_get_buf; [lia|]. cbn [bufs set_bufs]. rewrite asel_insert_eq.
    cbn [flags dev blockno]. apply wp_bind, wp_gets. cbn [disksize set_bufs].
    destruct (br_size _ _ _ Hr). rewrite u32_small, (proj2 (Z.leb_gt _ _)) by lia.
    apply wp_bind, wp_bind, wp_gets, wp_upd_buf; [lia|]. apply wp_upd_buf; [lia|]. apply wp_ret.
    cbn [bufs set_bufs memdisk]. rewrite !asel_insert_eq, !insert_insert_eq. split; [|split; [done|split; [done|by right]]].
    destruct (ba_held A !! b) as [m|] eqn:E; [|done].
    apply (br_held _ _ _ Hr) in E as (_ & Hl & _).
    destruct (br_ref _ _ _ Hr b Hb) as [Hx _]. rewrite Hl in Hx. congruence.
Qed.

(** ** [brelse] *)

Lemma rep_drop s A order b n : bio_rep s A order -> ba_held A !! b = Some n ->
  (n ∈ ba_pin A \/ ba_cur A n = ba_disk A n) ->
  bio_rep (set_bufs (<[b := with_refcnt 0 (with_lock (mksl false 0) (bufs s).[b])]> (bufs s)) s)
    (ba_drop b A) order.
Proof.
  intros Hr Hh Hcl. destruct (held_buf _ _ _ _ _ Hr Hh) as (Hb & (Hd & Hn) & Hl & Hsz & Hc & Hf).
  apply (rep_upd s A order b _ _ (memdisk s) (writes s)); cbn; try done.
  - right. cbn. rewrite Hn. eauto.
  - intros _ b' Hb' Hne [Hd' Hn']. apply Hne. by apply (br_uniq _ _ _ Hr).
  - intros _. by rewrite Hn.
  - apply (br_disk _ _ _ Hr).
  - intros m Hm Hno. destruct (decide (m = n)) as [->|Hne]; [by destruct Hcl|].
    apply (br_clean _ _ _ Hr); [done|]. intros [b' Hb']. apply Hno. exists b'. cbn.
    rewrite lookup_delete_ne; [done|]. intros ->. congruence.
  - intros m. unfold pins, caches. cbn. rewrite (br_pin _ _ _ Hr). split.
    + intros (b' & Hb' & Hd' & Hm & Hf'). destruct (decide (b' = b)) as [->|Hne]; [by left|].
      right. split; [eauto 10|]. intros [_ Hm']. apply Hne. apply (br_uniq _ _ _ Hr); congruence.
    + intros [((_ & Hm) & Hf')|[H _]]; [eauto 10|done].
  - intros b' m. rewrite lookup_delete. repeat case_decide; subst; naive_solver.
  - apply (br_writes _ _ _ Hr).
Qed.

(** Relinking the ring. *)
Definition relinked (x : buf) (nx pv : Z) : buf := with_prev pv (with_next nx x).

Lemma rep_relink s s' A order order' nx pv : bio_rep s A order ->
  bclock s' = false -> disksize s' = disksize s -> memdisk s' = memdisk s ->
  writes s' = writes s -> mypid s' = mypid s ->
  (forall i, (bufs s').[i] = relinked (bufs s).[i] (nx i) (pv i)) ->
  seg nx pv HEAD order' HEAD -> order' ≡ₚ order ->
  bio_rep s' A order'.
Proof.
  intros Hr Hl Hsz Hmd Hw Hp Hbuf Hseg Hperm.
  split; [done| | | | | | | | | | | |].
  - rewrite Hsz. apply Hr.
  - eapply seg_ext; [| |exact Hseg]; intros i _; cbn; by rewrite Hbuf.
  - rewrite Hperm. apply Hr.
  - intros b Hb. rewrite Hbuf, Hsz. apply (br_buf _ _ _ Hr b Hb).
  - intros b b' Hb Hb'. rewrite !Hbuf. by apply (br_uniq _ _ _ Hr).
  - intros b Hb. rewrite Hbuf, Hp. by apply (br_ref _ _ _ Hr).
  - rewrite Hmd. apply Hr.
  - intros b Hb. rewrite Hbuf. by apply (br_data _ _ _ Hr).
  - apply Hr.
  - intros n. rewrite (br_pin _ _ _ Hr). f_equiv. intros b. by rewrite Hbuf.
  - intros b n. rewrite (br_held _ _ _ Hr). by rewrite Hbuf.
  - rewrite Hw. apply Hr.
Qed.

Definition nxt (a : arr buf) (i : Z) : Z := next a.[i].
Definition prv (a : arr buf) (i : Z) : Z := prev a.[i].

(** The two assignments that take [b] out of the ring, *)
Definition unlink (b : Z) (a : arr buf) : arr buf :=
  let a1 := <[nxt a b := with_prev (prv a b) a.[nxt a b]]> a in
  <[prv a1 b := with_next (nxt a1 b) a1.[prv a1 b]]> a1.

(** and the four that put it in front. *)
Definition push (b : Z) (a : arr buf) : arr buf :=
  let a1 := <[b := with_next (nxt a HEAD) a.[b]]> a in
  let a2 := <[b := with_prev HEAD a1.[b]]> a1 in
  let a3 := <[nxt a2 HEAD := with_prev b a2.[nxt a2 HEAD]]> a2 in
  <[HEAD := with_next b a3.[HEAD]]> a3.

Lemma relinked_same x : relinked x (next x) (prev x) = x.
Proof. by destruct x. Qed.

Lemma relinked_of x y n p n' p' : y = relinked (relinked x n p) n' p' ->
  y = relinked x (next y) (prev y).
Proof. by intros ->. Qed.

Ltac relink :=
  repeat case_decide; subst; try congruence;
  first [ done | symmetry; apply relinked_same
        | unfold relinked, with_next, with_prev; cbn; f_equal; congruence ].

Lemma unlink_links b a i : nxt a b <> b ->
  (unlink b a).[i] = relinked a.[i] (if decide (i = prv a b) then nxt a b else nxt a i)
    (if decide (i = nxt a b) then prv a b else prv a i).
Proof.
  intros Hb. unfold unlink. cbn zeta. set (a1 := <[_ := _]> a).
  assert (a1.[b] = a.[b]) as E by (unfold a1; by rewrite asel_insert_ne).
  replace (prv a1 b) with (prv a b) by (unfold prv; by rewrite E).
  replace (nxt a1 b) with (nxt a b) by (unfold nxt; by rewrite E).
  unfold a1. rewrite !asel_insert. unfold nxt, prv.
  relink.
Qed.

Lemma push_links b a i : b <> HEAD -> b <> nxt a HEAD ->
  (push b a).[i] = relinked a.[i]
    (if decide (i = HEAD) then b else if decide (i = b) then nxt a HEAD else nxt a i)
    (if decide (i = nxt a HEAD) then b else if decide (i = b) then HEAD else prv a i).
Proof.
  intros Hb Hn. unfold push. cbn zeta.
  set (a1 := <[b := with_next _ _]> a). set (a2 := <[b := with_prev _ _]> a1).
  assert (a2.[HEAD] = a.[HEAD]) as E by (unfold a2, a1; by rewrite !asel_insert_ne).
  replace (nxt a2 HEAD) with (nxt a HEAD) by (unfold nxt; by rewrite E).
  unfold a2, a1. rewrite !asel_insert. unfold nxt, prv.
  relink.
Qed.

(** The ring after [brelse]: the buffer moves to the front. *)
Lemma move_front s A order b : bio_rep s A order -> in_range b ->
  exists l1 l2, order = l1 ++ b :: l2 /\
    (0 <= nxt (bufs s) b <= NBUF) /\ (0 <= prv (bufs s) b <= NBUF) /\
    nxt (bufs s) b <> b /\ b <> nxt (unlink b (bufs s)) HEAD /\
    (0 <= nxt (unlink b (bufs s)) HEAD <= NBUF) /\
    seg (nxt (push b (unlink b (bufs s)))) (prv (push b (unlink b (bufs s)))) HEAD
      (b :: l1 ++ l2) HEAD.
Proof.
  intros Hr Hb. destruct (order_nodup _ _ _ Hr) as (Hnd & Hh & _).
  assert (b ∈ order) as Hin by (by eapply in_order).
  apply list_elem_of_split in Hin as (l1 & l2 & E). exists l1, l2. split; [done|].
  pose proof (br_ring _ _ _ Hr) as Hring. change (seg (nxt (bufs s)) (prv (bufs s)) HEAD order HEAD) in Hring.
  set (a := bufs s) in *. rewrite E in Hring. apply seg_app in Hring as H12. destruct H12 as [Hs1 Hs2].
  assert (forall i, i ∈ HEAD :: order -> 0 <= i <= NBUF) as Hrng.
  { intros i [->|Hi]%elem_of_cons; [unfold HEAD; rewrite NBUF_eq; lia|].
    eapply in_order in Hi; [|exact Hr]. unfold in_range in Hi. lia. }
  apply seg_next_in in Hs2 as Hn. apply seg_prev_in in Hs1 as Hp.
  rewrite E in Hnd, Hh. apply NoDup_app in Hnd as Hnd'. destruct Hnd' as (Hd1 & Hx & Hd2).
  apply NoDup_cons in Hd2 as [Hb2 Hd2].
  assert (b <> HEAD) as HbH by (intros ->; set_solver).
  assert (nxt a b <> b) as Hnb by (intros Eb; rewrite Eb in Hn; set_solver).
  assert (seg (nxt (unlink b a)) (prv (unlink b a)) HEAD (l1 ++ l2) HEAD) as Hu.
  { eapply (seg_unlink (nxt a) (prv a)); [exact Hring| |done| |].
    - apply NoDup_cons. done.
    - intros i. unfold nxt at 1. rewrite unlink_links by done. done.
    - intros i. unfold prv at 1. rewrite unlink_links by done. done. }
  apply seg_next_in in Hu as Hn'.
  assert (b <> nxt (unlink b a) HEAD) as Hbn by (intros Eb; rewrite <- Eb in Hn'; set_solver).
  split; [apply Hrng; rewrite E; set_solver|]. split; [apply Hrng; rewrite E; set_solver|].
  split; [done|]. split; [done|]. split; [apply Hrng; rewrite E; set_solver|].
  eapply (seg_insert (nxt (unlink b a)) (prv (unlink b a))); [exact Hu|set_solver|set_solver|done| |set_solver| |].
  - apply NoDup_app. split; [done|]. split; [|done]. intros x Hx1 Hx2. apply (Hx x Hx1). set_solver.
  - intros i. unfold nxt at 1. by rewrite push_links.
  - intros i. unfold prv at 1. by rewrite push_links.
Qed.

(** The assignments of [brelse] compute [unlink] and [push]. *)
Lemma wp_to_front s b (Q : unit -> bst -> Prop) : in_range b ->
  0 <= nxt (bufs s) b <= NBUF -> 0 <= prv (bufs s) b <= NBUF -> nxt (bufs s) b <> b ->
  0 <= nxt (unlink b (bufs s)) HEAD <= NBUF ->
  Q tt (set_bufs (push b (unlink b (bufs s))) s) ->
  wp (upd_buf (next (bufs s).[b]) (with_prev (prev (bufs s).[b])) ;;;
      let* x := get_buf b in
      upd_buf (prev x) (with_next (next x)) ;;;
      let* h := get_buf HEAD in
      upd_buf b (with_next (next h)) ;;;
      upd_buf b (with_prev HEAD) ;;;
      let* h := get_buf HEAD in
      upd_buf (next h) (with_prev b) ;;;
      upd_buf HEAD (with_next b)) Q s.
Proof.
  unfold in_range. intros Hb Hn Hp Hnb Hn' HQ.
  assert (0 <= HEAD <= NBUF) as HH by (unfold HEAD; rewrite NBUF_eq; lia).
  assert (b <> HEAD) as HbH by (unfold HEAD in *; lia).
  apply wp_bind, wp_upd_buf; [exact Hn|]. apply wp_bind, wp_get_buf; [lia|].
  apply wp_bind, wp_upd_buf.
  { cbn [bufs set_bufs]. rewrite asel_insert_ne by done. exact Hp. }
  apply wp_bind, wp_get_buf; [exact HH|]. apply wp_bind, wp_upd_buf; [lia|].
  apply wp_bind, wp_upd_buf; [lia|]. apply wp_bind, wp_get_buf; [exact HH|].
  apply wp_bind, wp_upd_buf.
  { cbn [bufs set_bufs]. rewrite 2!asel_insert_ne by done. exact Hn'. }
  apply wp_upd_buf; [exact HH|]. exact HQ.
Qed.

(** [brelse] unlocks the buffer and moves it to the front of the ring. *)
Lemma wp_brelse s A order b n : bio_rep s A order -> ba_held A !! b = Some n ->
  (n ∈ ba_pin A \/ ba_cur A n = ba_disk A n) ->
  wp (brelse b) (fun _ s' => (exists l1 l2, order = l1 ++ b :: l2 /\
    bio_rep s' (ba_drop b A) (b :: l1 ++ l2)) /\ same_env s s') s.
Proof.
  intros Hr Hh Hcl. destruct (held_buf _ _ _ _ _ Hr Hh) as (Hb & _ & Hl & _).
  pose proof (rep_drop _ _ _ _ _ Hr Hh Hcl) as Hr1. set (s1 := set_bufs _ s) in Hr1.
  destruct (move_front _ _ _ b Hr1 Hb) as (l1 & l2 & E & Hn & Hp & Hnb & Hbn & Hn' & Hseg).
  destruct (br_ref _ _ _ Hr b Hb) as [Hrf _]. rewrite Hl in Hrf.
  assert (0 <= b <= NBUF) as Hb' by (unfold in_range in Hb; lia). unfold brelse.
  apply wp_bind. eapply wp_of_eq; [by eapply holding_held|]. cbn [negb].
  apply wp_bind, wp_upd_buf; [done|]. apply wp_bind, Lock.wp_acquire; [apply (br_lock _ _ _ Hr)|].
  apply wp_bind, wp_upd_buf; [done|]. cbn [bufs set_bufs set_bclock].
  rewrite asel_insert_eq, insert_insert_eq. cbn [refcnt with_lock]. rewrite Hrf.
  change (u32 (1 - 1)) with 0. set (s2 := set_bufs _ _).
  assert (bufs s2 = bufs s1) as E2 by done.
  apply wp_bind, wp_get_buf; [done|].
  apply wp_bind, wp_when; [intros _|intros E0; rewrite E2 in E0; cbn in E0; by rewrite asel_insert_eq in E0].
  apply wp_to_front; rewrite ?E2; try done.
  apply Lock.wp_release; [done|]. split; [|done]. exists l1, l2. split; [done|].
  assert (b <> HEAD) as HbH by (unfold in_range, HEAD in *; lia).
  apply (rep_relink s1 _ _ order _ (nxt (push b (unlink b (bufs s1))))
    (prv (push b (unlink b (bufs s1)))) Hr1); try done; [|by rewrite E, Permutation_middle].
  intros i. cbn [bufs set_bufs set_bclock]. eapply relinked_of.
  rewrite push_links, unlink_links by done. reflexivity.
Qed.

(** ** [binit] *)

Definition boot_bst (l : bool) (sz : Z) (md : arr memory) (w : list (Z * memory)) (p : Z) : bst :=
  mkbst l ∅ sz md w p.

(** Zeroed buffers of which the first [k] are linked, the last one in front. *)
Definition linked (k : Z) (a : arr buf) : Prop :=
  (forall i, a.[i] = relinked czero (nxt a i) (prv a i)) /\
  seg (nxt a) (prv a) HEAD (reverse (seqZ 0 k)) HEAD.

Lemma seqZ_rev_S k : 0 <= k -> reverse (seqZ 0 (k + 1)) = k :: reverse (seqZ 0 k).
Proof.
  intros Hk. rewrite <- (Z2Nat.id k) by done.
  replace (Z.of_nat (Z.to_nat k) + 1) with (Z.of_nat (S (Z.to_nat k))) by lia.
  by rewrite seqZ_S, reverse_app.
Qed.

Lemma in_rev_seq k i : i ∈ reverse (seqZ 0 k) <-> 0 <= i < k.
Proof. rewrite elem_of_reverse, elem_of_seqZ. lia. Qed.

Lemma linked_head k a : 0 <= k < NBUF -> linked k a ->
  0 <= nxt a HEAD <= NBUF /\ k <> HEAD /\ k <> nxt a HEAD.
Proof.
  intros Hk [_ Hs]. apply seg_next_in in Hs. unfold HEAD in *.
  apply elem_of_app in Hs as [Hi%in_rev_seq|Hi%list_elem_of_singleton]; lia.
Qed.

Lemma push_linked k a : 0 <= k < NBUF -> linked k a -> linked (k + 1) (push k a).
Proof.
  intros Hk Hl. destruct (linked_head k a Hk Hl) as (_ & HkH & Hkn). destruct Hl as [Hc Hs]. split.
  - intros i. eapply relinked_of. rewrite push_links by done. by rewrite <- Hc.
  - rewrite seqZ_rev_S by lia.
    assert (forall i, i ∈ reverse (seqZ 0 k) -> 0 <= i < k) as Hin by (intros i; apply in_rev_seq).
    eapply (seg_insert (nxt a) (prv a)); [exact Hs| | |done| | | |].
    + intros ?%Hin. unfold HEAD in *. lia.
    + intros [?|?%Hin]%elem_of_cons; [done|lia].
    + rewrite reverse_Permutation. apply NoDup_seqZ.
    + intros ?%Hin. unfold HEAD in *. lia.
    + intros i. unfold nxt at 1. by rewrite push_links.
    + intros i. unfold prv at 1. by rewrite push_links.
Qed.

(** One round of the loop. *)
Lemma wp_binit_step s k (Q : unit -> bst -> Prop) : 0 <= k < NBUF -> linked k (bufs s) ->
  Q tt (set_bufs (push k (bufs s)) s) ->
  wp (let* h := get_buf HEAD in
      upd_buf k (with_next (next h)) ;;;
      upd_buf k (with_prev HEAD) ;;;
      initsleeplock k ;;;
      let* h := get_buf HEAD in
      upd_buf (next h) (with_prev k) ;;;
      upd_buf HEAD (with_next k)) Q s.
Proof.
  intros Hk Hl HQ. destruct (linked_head k _ Hk Hl) as (Hn & HkH & _). destruct Hl as [Hc _].
  assert (0 <= HEAD <= NBUF) as HH by (unfold HEAD; rewrite NBUF_eq; lia).
  apply wp_bind, wp_get_buf; [done|]. apply wp_bind, wp_upd_buf; [lia|].
  apply wp_bind, wp_upd_buf; [lia|]. apply wp_bind, wp_upd_buf; [lia|].
  cbn [bufs set_bufs]. rewrite !asel_insert_eq, insert_insert_eq.
  replace (with_lock (mksl false 0) _) with (with_prev HEAD (with_next (nxt (bufs s) HEAD) (bufs s).[k]))
    by (rewrite (Hc k); done).
  apply wp_bind, wp_get_buf; [done|]. apply wp_bind, wp_upd_buf.
  { cbn [bufs set_bufs]. rewrite 2!asel_insert_ne by done. exact Hn. }
  apply wp_upd_buf; [done|]. unfold push in HQ. cbn zeta in HQ. rewrite asel_insert_eq in HQ. exact HQ.
Qed.

(** From zeroed memory, [binit] builds an empty cache. *)
Lemma wp_binit l sz md w p : 0 <= sz < 4294967296 ->
  wp binit (fun _ s' => bio_rep s' (mkblocks (asel md) (asel md) ∅ ∅ w) (reverse (seqZ 0 NBUF)) /\
    disksize s' = sz /\ mypid s' = p) (boot_bst l sz md w p).
Proof.
  intros Hsz. assert (0 <= HEAD <= NBUF) as HH by (unfold HEAD; rewrite NBUF_eq; lia).
  apply wp_bind, wp_modify. apply wp_bind, wp_upd_buf; [done|]. apply wp_bind, wp_upd_buf; [done|].
  cbn [bufs set_bufs set_bclock boot_bst]. rewrite asel_insert_eq, insert_insert_eq.
  apply (wp_for_up (fun k s => linked k (bufs s) /\ s = mkbst false (bufs s) sz md w p)).
  - split; [|done]. cbn [bufs set_bufs]. split.
    + intros i. unfold nxt, prv. rewrite asel_insert. case_decide; done.
    + change (reverse (seqZ 0 0)) with (@nil Z). cbn [seg]. unfold nxt, prv. by rewrite asel_insert_eq.
  - intros k s Hk [Hl Hs]. apply wp_binit_step; [done|done|]. split; [by apply push_linked|].
    rewrite Hs. done.
  - intros s [[Hc Hs] E]. rewrite Z.max_r in Hs by (rewrite NBUF_eq; lia). split; [|by rewrite E].
    assert (forall b, dev (bufs s).[b] = 1 -> False) as Hdev by (intros b; by rewrite Hc).
    split; try (rewrite E; done).
    + apply reverse_Permutation.
    + intros b Hb. left. by rewrite Hc.
    + intros b b' Hb Hb' Hd. by destruct (Hdev b).
    + intros b Hb. by rewrite Hc.
    + intros b Hb Hd. by destruct (Hdev b).
    + done.
    + intros n. cbn [ba_pin]. split; [intros []%not_elem_of_empty|].
      intros (b & Hb & Hd & _). by destruct (Hdev b).
    + intros b n. cbn [ba_held]. split; [by rewrite lookup_empty|]. intros (Hb & Hl & _). by rewrite Hc in Hl.
Qed.

(** ** The interface *)

Definition buf_data (b : Z) : M bst memory := let* x := get_buf b in ret (data x).
Definition buf_set_data (b : Z) (d : memory) : M bst unit := upd_buf b (with_data d).
Definition buf_set_dirty (b : Z) : M bst unit :=
  upd_buf b (fun x => with_flags (Z.lor (flags x) B_DIRTY) x).
Definition buf_blockno (b : Z) : M bst Z := let* x := get_buf b in ret (blockno x).

Definition bio_ok (s : bst) (A : blocks) : Prop := exists order, bio_rep s A order.

#[global] Instance bio_ok_proper : Proper ((=) ==> (≡) ==> iff) bio_ok.
Proof.
  assert (forall s A B, A ≡ B -> bio_ok s A -> bio_ok s B) as H.
  { intros s A B (Hc & Hd & Hp & Hh & Hw) [order Hr]. exists order.
    split; rewrite <- ?Hp, <- ?Hh, <- ?Hw; try apply Hr.
    - intros n. rewrite <- Hd. apply Hr.
    - intros b Hb Hx. rewrite <- Hc. by apply Hr.
    - intros n Hn Hno. rewrite <- Hc, <- Hd. apply Hr; [done|]. unfold is_held in *. by rewrite Hh. }
  intros s ? <- A B HAB. split; apply H; [done|by symmetry].
Qed.

(** The model of [bio.c] implements the interface. *)
#[global] Program Instance bio_cache : BufCache bst := {
  c_bread := bread;
  c_bwrite := bwrite;
  c_brelse := brelse;
  c_data := buf_data;
  c_set_data := buf_set_data;
  c_set_dirty := buf_set_dirty;
  c_blockno := buf_blockno;
  c_size := disksize;
  c_rep := bio_ok
}.
Next Obligation. intros s A n [order Hr]. apply (br_clean _ _ _ Hr). Qed.
Next Obligation.
  intros s A n [order Hr] Hn Hno Hroom. eapply wp_mono; [|by eapply wp_bread].
  intros b s' (Hb & Hr' & (Hsz & _) & _). split; [done|]. split; [by exists order|done].
Qed.
Next Obligation.
  intros s A b n [order Hr] Hb. eapply wp_mono; [|by eapply wp_bwrite].
  intros _ s' (Hr' & Hsz & _). split; [by exists order|done].
Qed.
Next Obligation.
  intros s A b n [order Hr] Hb Hcl. eapply wp_mono; [|by eapply wp_brelse].
  intros _ s' ((l1 & l2 & _ & Hr') & Hsz & _). split; [by eexists|done].
Qed.
Next Obligation.
  intros s A b n [order Hr] Hb. destruct (held_buf _ _ _ _ _ Hr Hb) as (Hi & _ & _ & _ & Hd & _).
  unfold in_range in Hi. eapply bind_step; [apply get_buf_eq; lia|]. unfold ret. by rewrite Hd.
Qed.
Next Obligation.
  intros s A b n d [order Hr] Hb. destruct (held_buf _ _ _ _ _ Hr Hb) as (Hi & _).
  unfold in_range in Hi. apply wp_upd_buf; [lia|]. split; [|done]. exists order. by apply rep_set.
Qed.
Next Obligation.
  intros s A b n [order Hr] Hb. destruct (held_buf _ _ _ _ _ Hr Hb) as (Hi & _).
  unfold in_range in Hi. apply wp_upd_buf; [lia|]. split; [|done]. exists order. by apply rep_dirty.
Qed.
Next Obligation.
  intros s A b n [order Hr] Hb. destruct (held_buf _ _ _ _ _ Hr Hb) as (Hi & [_ Hn] & _).
  unfold in_range in Hi. eapply bind_step; [apply get_buf_eq; lia|]. unfold ret. by rewrite Hn.
Qed.
