(* ===== verification/Log.v ===== *)
(** * The log ([log.c])

    Translated over the interface of the buffer cache.  The header block on
    disk and [log.lh] in memory have the same layout; [start], [size] and the
    block numbers are [int]s.  A process that must [sleep] in [begin_op] does
    not return until another process runs: the computation then gives
    [NoFuel], as for a held sleep lock. *)

From stdpp Require Import base tactics numbers gmap strings list sets.
From Stdlib Require Import ZArith Lia.
From S2P Require Import Prelude Mmu Memory Spinlock Cache.

(** [struct superblock] *)
Record superblock := mksb {
  sb_size : Z;
  sb_nblocks : Z;
  sb_ninodes : Z;
  sb_nlog : Z;
  sb_logstart : Z;
  sb_inodestart : Z;
  sb_bmapstart : Z
}.

(** [struct log], with [struct logheader lh] *)
Record log := mklog {
  llock : bool;
  start : Z;
  lsize : Z;
  outstanding : Z;
  committing : bool;
  ldev : Z;
  lh_n : Z;
  lh_block : arr Z
}.

Definition with_llock (b : bool) (l : log) : log :=
  mklog b (start l) (lsize l) (outstanding l) (committing l) (ldev l) (lh_n l) (lh_block l).
Definition with_outstanding (n : Z) (l : log) : log :=
  mklog (llock l) (start l) (lsize l) n (committing l) (ldev l) (lh_n l) (lh_block l).
Definition with_committing (b : bool) (l : log) : log :=
  mklog (llock l) (start l) (lsize l) (outstanding l) b (ldev l) (lh_n l) (lh_block l).
Definition with_lh_n (n : Z) (l : log) : log :=
  mklog (llock l) (start l) (lsize l) (outstanding l) (committing l) (ldev l) n (lh_block l).
Definition with_lh_block (a : arr Z) (l : log) : log :=
  mklog (llock l) (start l) (lsize l) (outstanding l) (committing l) (ldev l) (lh_n l) a.

(** The words of a header block. *)
Definition hd_n (d : memory) : Z := i32 (load32 d 0).
Definition hd_block (d : memory) (i : Z) : Z := i32 (load32 d (4 + 4 * i)).
Definition set_hd_n (n : Z) (d : memory) : memory := store32 d 0 n.
Definition set_hd_block (i b : Z) (d : memory) : memory := store32 d (4 + 4 * i) b.

(** [begin_op]'s test and update, made under [log.lock]: [None] is [sleep]. *)
Definition begin_crit (l : log) : option log :=
  if committing l then None
  else if LOGSIZE <? lh_n l + (outstanding l + 1) * MAXOPBLOCKS then None
  else Some (with_outstanding (outstanding l + 1) l).

(** [end_op]'s first critical section: the new log and [do_commit]. *)
Definition end_crit (l : log) : option (log * bool) :=
  let l := with_outstanding (outstanding l - 1) l in
  if committing l then None
  else if outstanding l =? 0 then Some (with_committing true l, true)
  else Some (l, false).

(** What [log_write] does to the log, under [log.lock]: the block [bn] has a
    slot, an old one or the next. *)
Fixpoint log_scan (n : nat) (i bn : Z) (l : log) : option Z :=
  match n with
  | O => None
  | S n' => if u32 (lh_block l).[i] =? bn then Some i else log_scan n' (i + 1) bn l
  end.
Definition write_crit (bn : Z) (l : log) : log :=
  let i := default (Z.max 0 (lh_n l)) (log_scan (Z.to_nat (lh_n l)) 0 bn l) in
  let l := with_lh_block (<[i := i32 bn]> (lh_block l)) l in
  if i =? lh_n l then with_lh_n (lh_n l + 1) l else l.

Section Ops.
Context {C : Type} `{BufCache C}.

Record lst := mklst {
  lg : log;
  cache : C
}.

Definition cache_lens : lens lst C := mklens cache (fun c s => mklst (lg s) c).
Definition upd_log (f : log -> log) : M lst unit := modify (fun s => mklst (f (lg s)) (cache s)).

Definition lk_acquire : M lst unit :=
  Lock.acquire (fun s => llock (lg s)) (fun b s => mklst (with_llock b (lg s)) (cache s)).
Definition lk_release : M lst unit :=
  Lock.release (fun s => llock (lg s)) (fun b s => mklst (with_llock b (lg s)) (cache s)).

Definition bread (d n : Z) : M lst Z := zoom cache_lens (c_bread d n).
Definition bwrite (b : Z) : M lst unit := zoom cache_lens (c_bwrite b).
Definition brelse (b : Z) : M lst unit := zoom cache_lens (c_brelse b).
Definition data (b : Z) : M lst memory := zoom cache_lens (c_data b).
Definition set_data (b : Z) (d : memory) : M lst unit := zoom cache_lens (c_set_data b d).

Definition readsb (dev : Z) : M lst superblock :=
  let* bp := bread (u32 dev) 1 in
  let* d := data bp in
  let sb := mksb (load32 d 0) (load32 d 4) (load32 d 8) (load32 d 12) (load32 d 16)
                 (load32 d 20) (load32 d 24) in
  brelse bp ;;;
  ret sb.

(** [log.lh.block[i]] *)
Definition lh_get (i : Z) : M lst Z := aget LOGSIZE (fun s => lh_block (lg s)) i.
Definition lh_set (i b : Z) : M lst unit :=
  aset LOGSIZE (fun f s => mklst (with_lh_block (f (lh_block (lg s))) (lg s)) (cache s)) i b.

(** [memmove(dst->data, src->data, BSIZE)] *)
Definition copy_block (dst src : Z) : M lst unit := let* d := data src in set_data dst d.

Definition install_step (tail : Z) : M lst unit :=
  let* l := gets lg in
  let* lbuf := bread (u32 (ldev l)) (u32 (start l + tail + 1)) in
  let* blk := lh_get tail in
  let* dbuf := bread (u32 (ldev l)) (u32 blk) in
  copy_block dbuf lbuf ;;;
  bwrite dbuf ;;;
  brelse lbuf ;;;
  brelse dbuf.

Definition install_trans : M lst unit :=
  let* n := gets (fun s => lh_n (lg s)) in
  for_up 0 n install_step.

Definition read_head : M lst unit :=
  let* l := gets lg in
  let* buf := bread (u32 (ldev l)) (u32 (start l)) in
  let* lh := data buf in
  upd_log (with_lh_n (hd_n lh)) ;;;
  for_up 0 (hd_n lh) (fun i =>
    let* lh := data buf in
    lh_set i (hd_block lh i)) ;;;
  brelse buf.

Definition write_head : M lst unit :=
  let* l := gets lg in
  let* buf := bread (u32 (ldev l)) (u32 (start l)) in
  let* hb := data buf in
  set_data buf (set_hd_n (lh_n l) hb) ;;;
  for_up 0 (lh_n l) (fun i =>
    let* b := lh_get i in
    let* hb := data buf in
    set_data buf (set_hd_block i b hb)) ;;;
  bwrite buf ;;;
  brelse buf.

Definition recover_from_log : M lst unit :=
  read_head ;;;
  install_trans ;;;
  upd_log (with_lh_n 0) ;;;
  write_head.

Definition initlog (dev : Z) : M lst unit :=
  if BSIZE <=? 4 + 4 * LOGSIZE then panic "initlog: too big logheader" else
  upd_log (with_llock false) ;;;
  let* sb := readsb dev in
  upd_log (fun l => mklog (llock l) (i32 (sb_logstart sb)) (i32 (sb_nlog sb)) (outstanding l)
                      (committing l) dev (lh_n l) (lh_block l)) ;;;
  recover_from_log.

Definition begin_op : M lst unit :=
  lk_acquire ;;;
  let* l := gets lg in
  match begin_crit l with
  | None => fun _ => NoFuel
  | Some l' => upd_log (fun _ => l')
  end ;;;
  lk_release.

Definition write_log_step (tail : Z) : M lst unit :=
  let* l := gets lg in
  let* to := bread (u32 (ldev l)) (u32 (start l + tail + 1)) in
  let* blk := lh_get tail in
  let* from := bread (u32 (ldev l)) (u32 blk) in
  copy_block to from ;;;
  bwrite to ;;;
  brelse from ;;;
  brelse to.

Definition write_log : M lst unit :=
  let* n := gets (fun s => lh_n (lg s)) in
  for_up 0 n write_log_step.

Definition commit : M lst unit :=
  let* n := gets (fun s => lh_n (lg s)) in
  when (0 <? n) (
    write_log ;;;
    write_head ;;;
    install_trans ;;;
    upd_log (with_lh_n 0) ;;;
    write_head).

Definition end_op : M lst unit :=
  lk_acquire ;;;
  let* l := gets lg in
  let* do_commit := match end_crit l with
    | None => panic "log.committing"
    | Some (l', d) => upd_log (fun _ => l') ;;; ret d
    end in
  lk_release ;;;
  when do_commit (
    commit ;;;
    lk_acquire ;;;
    upd_log (with_committing false) ;;;
    lk_release).

Definition log_write (b : Z) : M lst unit :=
  let* l := gets lg in
  if (LOGSIZE <=? lh_n l) || (lsize l - 1 <=? lh_n l) then panic "too big a transaction" else
  if outstanding l <? 1 then panic "log_write outside of trans" else
  lk_acquire ;;;
  let* bn := zoom cache_lens (c_blockno b) in
  let* i := for_exit 0 (lh_n l) (fun i =>
              let* x := lh_get i in
              ret (if u32 x =? bn then Some i else None)) in
  let i := default (Z.max 0 (lh_n l)) i in
  lh_set i (i32 bn) ;;;
  when (i =? lh_n l) (upd_log (with_lh_n (lh_n l + 1))) ;;;
  zoom cache_lens (c_set_dirty b) ;;;
  lk_release.

End Ops.

Arguments lst : clear implicits.
