(* ===== verification/LogFacts.v ===== *)
(** * The log: specifications

    The rules for the operations of [log.c] over the interface of the buffer
    cache.  Each gives the exact sequence of disk writes; [recovered] is what
    recovery makes of a disk, and the crash lemmas compare it on every prefix
    of those writes. *)

From stdpp Require Import base tactics numbers gmap strings list sets.
From Stdlib Require Import ZArith Lia.
From S2P Require Import Prelude Mmu Memory Spinlock Cache Log.

(** ** Sequences of block writes *)

(** Block [n] gets content [v], in the cache and on disk. *)
Definition ba_put (n : Z) (v : memory) (A : blocks) : blocks :=
  mkblocks (fupd (ba_cur A) n v) (fupd (ba_disk A) n v) (ba_pin A ∖ {[n]}) (ba_held A)
    (ba_writes A ++ [(n, v)]).

Definition puts (ws : list (Z * memory)) (A : blocks) : blocks :=
  foldl (fun A w => ba_put w.1 w.2 A) A ws.

Definition apply_writes (ws : list (Z * memory)) (d : Z -> memory) : Z -> memory :=
  foldl (fun d w => fupd d w.1 w.2) d ws.

Lemma fupd_eq {V} (f : Z -> V) n v : fupd f n v n = v.
Proof. unfold fupd. by rewrite decide_True. Qed.

Lemma fupd_ne {V} (f : Z -> V) n v m : m <> n -> fupd f n v m = f m.
Proof. intros. unfold fupd. by rewrite decide_False. Qed.

Lemma puts_cons w ws A : puts (w :: ws) A = puts ws (ba_put w.1 w.2 A).
Proof. done. Qed.

Lemma apply_cons w ws d : apply_writes (w :: ws) d = apply_writes ws (fupd d w.1 w.2).
Proof. done. Qed.

Lemma puts_app ws ws' A : puts (ws ++ ws') A = puts ws' (puts ws A).
Proof. apply foldl_app. Qed.

Lemma apply_app ws ws' d : apply_writes (ws ++ ws') d = apply_writes ws' (apply_writes ws d).
Proof. apply foldl_app. Qed.

Lemma puts_disk ws : forall A, ba_disk (puts ws A) = apply_writes ws (ba_disk A).
Proof. induction ws as [|w ws IH]; intros A; [done|]. by rewrite puts_cons, IH. Qed.

Lemma puts_cur ws : forall A, ba_cur (puts ws A) = apply_writes ws (ba_cur A).
Proof. induction ws as [|w ws IH]; intros A; [done|]. by rewrite puts_cons, IH. Qed.

Lemma puts_held ws : forall A, ba_held (puts ws A) = ba_held A.
Proof. induction ws as [|w ws IH]; intros A; [done|]. by rewrite puts_cons, IH. Qed.

Lemma puts_writes ws : forall A, ba_writes (puts ws A) = ba_writes A ++ ws.
Proof.
  induction ws as [|w ws IH]; intros A; [cbn; by rewrite app_nil_r|].
  rewrite puts_cons, IH. cbn. rewrite <- app_assoc. by destruct w.
Qed.

Lemma puts_pin ws : forall A, ba_pin (puts ws A) = ba_pin A ∖ list_to_set ws.*1.
Proof.
  induction ws as [|w ws IH]; intros A; [cbn; set_solver|]. rewrite puts_cons, IH. cbn. set_solver.
Qed.

Lemma apply_notin ws : forall d n, n ∉ ws.*1 -> apply_writes ws d n = d n.
Proof.
  induction ws as [|w ws IH]; intros d n Hn; [done|]. cbn in Hn. rewrite apply_cons, IH by set_solver.
  apply fupd_ne. set_solver.
Qed.

(** Writing distinct blocks. *)
Lemma apply_in ws : forall d i n v, NoDup ws.*1 -> ws !! i = Some (n, v) -> apply_writes ws d n = v.
Proof.
  induction ws as [|w ws IH]; intros d i n v Hnd Hi; [done|].
  cbn in Hnd. rewrite apply_cons. apply NoDup_cons in Hnd as [Hw Hnd]. destruct i as [|i]; cbn in *.
  - injection Hi as ->. cbn in *. rewrite apply_notin by done. apply fupd_eq.
  - by eapply IH.
Qed.

Lemma apply_ext ws : forall d d', (forall n, d n = d' n) -> forall n, apply_writes ws d n = apply_writes ws d' n.
Proof.
  induction ws as [|w ws IH]; intros d d' E n; [apply E|]. rewrite !apply_cons. apply IH. intros m. unfold fupd.
  by rewrite E.
Qed.

(** ** The header block *)

Definition hdr_blocks (f : Z -> Z) (n : nat) (d : memory) : memory :=
  foldl (fun d i => set_hd_block i (f i) d) d (seqZ 0 (Z.of_nat n)).

(** The header [write_head] makes from the old block. *)
Definition hdr (l : log) (d : memory) : memory :=
  hdr_blocks (fun i => (lh_block l).[i]) (Z.to_nat (lh_n l)) (set_hd_n (lh_n l) d).

Lemma hdr_blocks_S f n d : hdr_blocks f (S n) d = set_hd_block (Z.of_nat n) (f (Z.of_nat n)) (hdr_blocks f n d).
Proof.
  unfold hdr_blocks. rewrite seqZ_S, foldl_app. cbn. by rewrite Z.add_0_l.
Qed.

Lemma hdr_blocks_n f n d : hd_n (hdr_blocks f n d) = hd_n d.
Proof.
  induction n as [|n IH]; [done|]. rewrite hdr_blocks_S. unfold hd_n, set_hd_block in *.
  rewrite load32_store32_ne by lia. done.
Qed.

Lemma hdr_blocks_get f n d i : 0 <= i < Z.of_nat n -> hd_block (hdr_blocks f n d) i = i32 (u32 (f i)).
Proof.
  induction n as [|n IH]; [lia|]. intros Hi. rewrite hdr_blocks_S.
  unfold hd_block, set_hd_block in *. destruct (decide (i = Z.of_nat n)) as [->|Hne].
  - by rewrite load32_store32_eq.
  - rewrite load32_store32_ne by lia. apply IH. lia.
Qed.

Lemma hdr_n l d : 0 <= lh_n l <= LOGSIZE -> hd_n (hdr l d) = lh_n l.
Proof.
  intros Hn. unfold hdr. rewrite hdr_blocks_n. unfold hd_n, set_hd_n. rewrite load32_store32_eq.
  unfold LOGSIZE, MAXOPBLOCKS in Hn. wrap_lia.
Qed.

Lemma hdr_get l d i : 0 <= i < lh_n l -> 0 <= (lh_block l).[i] < 2147483648 ->
  hd_block (hdr l d) i = (lh_block l).[i].
Proof. intros Hi Hb. unfold hdr. rewrite hdr_blocks_get by lia. wrap_lia. Qed.

(** ** What recovery makes of a disk *)

(** The writes of [install_trans] for the blocks [lbs], from the contents [d]. *)
Definition inst_writes (st : Z) (lbs : list Z) (d : Z -> memory) : list (Z * memory) :=
  imap (fun i b => (b, d (st + Z.of_nat i + 1))) lbs.

(** The block numbers a header holds. *)
Definition hd_list (h : memory) : list Z := (fun i => hd_block h i) <$> seqZ 0 (hd_n h).

(** The disk after the header's blocks are installed. *)
Definition recovered (st : Z) (d : Z -> memory) : Z -> memory :=
  apply_writes (inst_writes st (hd_list (d st)) d) d.

(** The writes of [write_log]: the current contents, into the log. *)
Definition log_writes (st : Z) (lbs : list Z) (d : Z -> memory) : list (Z * memory) :=
  imap (fun i b => (st + Z.of_nat i + 1, d b)) lbs.

Lemma inst_fst st lbs d : (inst_writes st lbs d).*1 = lbs.
Proof.
  unfold inst_writes. rewrite fmap_imap. rewrite <- (list_fmap_id lbs) at 2.
  rewrite <- imap_const. apply imap_ext. done.
Qed.

Lemma log_fst st lbs d n : n ∈ (log_writes st lbs d).*1 <-> st < n <= st + Z.of_nat (length lbs).
Proof.
  unfold log_writes. rewrite fmap_imap, elem_of_lookup_imap. cbn. split.
  - intros (i & b & -> & Hi%lookup_lt_Some). lia.
  - intros Hn. destruct (lookup_lt_is_Some_2 lbs (Z.to_nat (n - st - 1))) as [b Hb]; [lia|].
    exists (Z.to_nat (n - st - 1)), b. split; [lia|done].
Qed.

Lemma log_nodup st lbs d : NoDup (log_writes st lbs d).*1.
Proof.
  apply NoDup_alt. intros i j n Hi Hj. unfold log_writes in *.
  rewrite fmap_imap, list_lookup_imap in Hi, Hj.
  destruct (lbs !! i), (lbs !! j); cbn in *; simplify_eq; lia.
Qed.

(** ** The cache operations under the log *)

Section Rules.
Context {C : Type} `{BufCache C}.
Implicit Types (s : lst C) (A : blocks).

(** What the log's operations leave alone. *)
Definition kept (s s' : lst C) : Prop := lg s' = lg s /\ c_size (cache s') = c_size (cache s).

Lemma kept_refl s : kept s s.
Proof. done. Qed.

Lemma kept_trans s s' s'' : kept s s' -> kept s' s'' -> kept s s''.
Proof. intros [H1 H2] [H3 H4]. split; congruence. Qed.

Lemma lwp_bread s A n (Q : Z -> lst C -> Prop) : c_rep (cache s) A -> 0 <= n < c_size (cache s) ->
  ~ is_held A n -> has_room A n ->
  (forall b s', kept s s' -> ba_held A !! b = None -> c_rep (cache s') (ba_hold b n A) -> Q b s') ->
  wp (Log.bread 1 n) Q s.
Proof.
  intros Hr Hn Hno Hroom HQ. apply wp_zoom. eapply wp_mono; [|by apply c_bread_ok].
  intros b c' (Hb & Hr' & Hsz). by apply HQ.
Qed.

Lemma lwp_bwrite s A b n (Q : unit -> lst C -> Prop) : c_rep (cache s) A -> ba_held A !! b = Some n ->
  (forall s', kept s s' -> c_rep (cache s') (ba_write n A) -> Q tt s') -> wp (Log.bwrite b) Q s.
Proof.
  intros Hr Hb HQ. apply wp_zoom. eapply wp_mono; [|by apply c_bwrite_ok].
  intros [] c' (Hr' & Hsz). by apply HQ.
Qed.

Lemma lwp_brelse s A b n (Q : unit -> lst C -> Prop) : c_rep (cache s) A -> ba_held A !! b = Some n ->
  (n ∈ ba_pin A \/ ba_cur A n = ba_disk A n) ->
  (forall s', kept s s' -> c_rep (cache s') (ba_drop b A) -> Q tt s') -> wp (Log.brelse b) Q s.
Proof.
  intros Hr Hb Hc HQ. apply wp_zoom. eapply wp_mono; [|by eapply c_brelse_ok].
  intros [] c' (Hr' & Hsz). by apply HQ.
Qed.

Lemma lwp_data s A b n (Q : memory -> lst C -> Prop) : c_rep (cache s) A -> ba_held A !! b = Some n ->
  Q (ba_cur A n) s -> wp (Log.data b) Q s.
Proof.
  intros Hr Hb HQ. apply wp_zoom. eapply wp_of_eq; [by eapply c_data_ok|]. by destruct s.
Qed.

Lemma lwp_set_data s A b n d (Q : unit -> lst C -> Prop) : c_rep (cache s) A -> ba_held A !! b = Some n ->
  (forall s', kept s s' -> c_rep (cache s') (ba_set n d A) -> Q tt s') -> wp (Log.set_data b d) Q s.
Proof.
  intros Hr Hb HQ. apply wp_zoom. eapply wp_mono; [|by eapply c_set_data_ok].
  intros [] c' (Hr' & Hsz). by apply HQ.
Qed.

Lemma rep_equiv c A B : c_rep c A -> A ≡ B -> c_rep c B.
Proof. intros Hr <-. done. Qed.

(** Copying one block over another and writing it out, with both held. *)
Lemma wp_copy s A bd bs x y : c_rep (cache s) A -> ba_held A !! bd = Some x ->
  ba_held A !! bs = Some y -> x <> y -> (y ∈ ba_pin A \/ ba_cur A y = ba_disk A y) ->
  wp (copy_block bd bs ;;; Log.bwrite bd ;;; Log.brelse bs ;;; Log.brelse bd)
    (fun _ s' => kept s s' /\
       c_rep (cache s') (ba_drop bd (ba_drop bs (ba_write x (ba_set x (ba_cur A y) A))))) s.
Proof.
  intros Hr Hd Hs Hxy Hy. assert (bd <> bs) as Hne by congruence.
  apply wp_bind. unfold copy_block. apply wp_bind. eapply lwp_data; [done..|].
  eapply lwp_set_data; [done..|]. intros s1 K1 R1.
  apply wp_bind. eapply lwp_bwrite; [done..|]. intros s2 K2 R2.
  apply wp_bind. eapply lwp_brelse; [done|exact Hs| |].
  { cbn. rewrite !fupd_ne by done. set_solver. }
  intros s3 K3 R3. eapply lwp_brelse; [done| | |].
  - cbn. rewrite lookup_delete_ne by done. exact Hd.
  - right. cbn. by rewrite !fupd_eq.
  - intros s4 K4 R4. eauto using kept_trans.
Qed.

Lemma held_not A b n m : ba_held A = ∅ -> m <> n -> ~ is_held (ba_hold b n A) m.
Proof.
  intros He Hm [b' Hb']. cbn in Hb'. rewrite He in Hb'.
  apply lookup_insert_Some in Hb' as [[_ ?]|[_ Hx]]; [done|]. by rewrite lookup_empty in Hx.
Qed.

Lemma held_none A m : ba_held A = ∅ -> ~ is_held A m.
Proof. intros He [b' Hb']. by rewrite He, lookup_empty in Hb'. Qed.

Lemma copied_equiv A b1 n1 b2 n2 bd bs x v : ba_held A = ∅ -> b1 <> b2 ->
  (bd = b1 /\ bs = b2 \/ bd = b2 /\ bs = b1) ->
  ba_drop bd (ba_drop bs (ba_write x (ba_set x v (ba_hold b2 n2 (ba_hold b1 n1 A))))) ≡ ba_put x v A.
Proof.
  intros He Hne Hb. unfold ba_drop, ba_write, ba_set, ba_hold, ba_put. cbn. rewrite fupd_eq, He.
  repeat split; cbn; try done. apply map_empty. intros i.
  rewrite !lookup_delete, !lookup_insert. repeat case_decide; try done; naive_solver.
Qed.

Lemma wp_lh_get i s (Q : Z -> lst C -> Prop) : 0 <= i < LOGSIZE -> Q (lh_block (lg s)).[i] s ->
  wp (lh_get i) Q s.
Proof. intros Hi HQ. by apply wp_aget. Qed.

(** One step of [install_trans] ([dst] is the home block) and of [write_log]
    ([dst] is the log block): the log block is read first. *)
Lemma wp_two_blocks s A x y i (dst : bool) : c_rep (cache s) A -> ba_held A = ∅ ->
  0 <= i < LOGSIZE -> u32 (lh_block (lg s)).[i] = y ->
  0 <= x < c_size (cache s) -> 0 <= y < c_size (cache s) -> x <> y ->
  (x ∉ ba_pin A) ->
  Z.of_nat (size (ba_pin A)) < NBUF -> (y ∈ ba_pin A \/ ba_pin A = ∅) ->
  wp (let* b1 := Log.bread 1 x in
      let* blk := lh_get i in
      let* b2 := Log.bread 1 (u32 blk) in
      let bd := if dst then b1 else b2 in let bs := if dst then b2 else b1 in
      copy_block bd bs ;;; Log.bwrite bd ;;; Log.brelse bs ;;; Log.brelse bd)
    (fun _ s' => kept s s' /\ c_rep (cache s') (if dst then ba_put x (ba_cur A y) A
                                                 else ba_put y (ba_cur A x) A)) s.
Proof.
  intros Hr He Hi Hbk Hx Hy Hxy Hxp Hsz Hyp. apply wp_bind. eapply lwp_bread; [exact Hr|done|by apply held_none| |].
  { right. rewrite He, map_size_empty. lia. }
  intros b1 s1 [K1l K1s] Hb1 R1. apply wp_bind, wp_lh_get; [done|]. rewrite K1l, Hbk.
  apply wp_bind. eapply lwp_bread; [exact R1|lia| | |].
  { by apply held_not. }
  { destruct Hyp as [Hyp| Hyp]; [by left|]. right. cbn. rewrite He, Hyp, size_empty.
    rewrite map_size_insert_None, map_size_empty by apply lookup_empty. done. }
  intros b2 s2 [K2l K2s] Hb2 R2. cbn in Hb2. apply lookup_insert_None in Hb2 as [_ Hne].
  set (A2 := ba_hold b2 y (ba_hold b1 x A)) in *.
  assert (ba_held A2 !! b1 = Some x) as H1.
  { cbn. rewrite lookup_insert_ne by done. apply lookup_insert_eq. }
  assert (ba_held A2 !! b2 = Some y) as H2 by apply lookup_insert_eq.
  assert (ba_cur A x = ba_disk A x) as Hcx.
  { eapply c_clean_ok; [exact Hr|done|by apply held_none]. }
  assert (y ∈ ba_pin A \/ ba_cur A y = ba_disk A y) as Hcy.
  { destruct Hyp as [Hyp|Hyp]; [by left|]. right. eapply c_clean_ok; [exact Hr| |by apply held_none].
    rewrite Hyp. set_solver. }
  destruct dst; (eapply wp_mono; [|eapply (wp_copy s2 A2); eauto; congruence]);
    intros _ s3 [[K3l K3s] R3]; (split; [split; congruence|]); eapply rep_equiv; eauto;
    apply copied_equiv; eauto; congruence.
Qed.

(** ** The loops over the header *)

Definition in_log (l : log) (n : Z) : Prop := start l <= n < start l + lsize l.

(** The in-memory header lists the distinct home blocks [lbs]. *)
Record log_ok (l : log) (sz : Z) (lbs : list Z) : Prop := {
  lo_dev : ldev l = 1;
  lo_start : 0 <= start l;
  lo_size : start l + lsize l <= sz;
  lo_sz : sz <= 2147483648;
  lo_n : lh_n l = Z.of_nat (length lbs);
  lo_len : Z.of_nat (length lbs) <= LOGSIZE /\ Z.of_nat (length lbs) <= lsize l - 1;
  lo_blk : forall i x, lbs !! i = Some x -> (lh_block l).[Z.of_nat i] = x;
  lo_home : forall x, x ∈ lbs -> 0 <= x < sz /\ ~ in_log l x;
  lo_nodup : NoDup lbs
}.

(** The two loops differ in which block is the destination. *)
Definition two_step (dst : bool) : Z -> M (lst C) unit := if dst then write_log_step else install_step.
Definition step_writes (dst : bool) := if dst then log_writes else inst_writes.

Lemma step_lookup dst st lbs d i x : lbs !! i = Some x ->
  step_writes dst st lbs d !! i =
    Some (if dst then (st + Z.of_nat i + 1, d x) else (x, d (st + Z.of_nat i + 1))).
Proof.
  intros Hi. destruct dst; cbn; unfold log_writes, inst_writes; by rewrite list_lookup_imap, Hi.
Qed.

Lemma step_length dst st lbs d : length (step_writes dst st lbs d) = length lbs.
Proof. destruct dst; apply length_imap. Qed.

(** The blocks a prefix of the writes reaches. *)
Lemma step_take dst l sz lbs d k n : log_ok l sz lbs ->
  n ∈ (take k (step_writes dst (start l) lbs d)).*1 ->
  if dst then in_log l n else n ∈ take k lbs.
Proof.
  intros Hl Hin. rewrite fmap_take in Hin. destruct dst; cbn in Hin.
  - apply subseteq_take, log_fst in Hin. destruct (lo_len _ _ _ Hl). unfold in_log. lia.
  - by rewrite inst_fst in Hin.
Qed.

Lemma take_fresh (lbs : list Z) k x : NoDup lbs -> lbs !! k = Some x -> x ∉ take k lbs.
Proof.
  intros Hnd Hk (i & Hi & Hlt)%elem_of_take. assert (i = k); [|lia]. by eapply NoDup_lookup.
Qed.

(** The view in the middle of a loop. *)
Lemma mid_pin dst l sz lbs d k x A : log_ok l sz lbs -> lbs !! k = Some x ->
  (ba_pin A = list_to_set lbs \/ ba_pin A = ∅) ->
  let A' := puts (take k (step_writes dst (start l) lbs d)) A in
  (start l + Z.of_nat k + 1 ∉ ba_pin A') /\
  (size (ba_pin A') <= if decide (ba_pin A = ∅) then 0 else length lbs)%nat /\
  (x ∈ ba_pin A' \/ ba_pin A = ∅ /\ ba_pin A' = ∅).
Proof.
  intros Hl Hk Hpin A'. assert (x ∈ lbs) as Hx by (by eapply list_elem_of_lookup_2).
  assert (in_log l (start l + Z.of_nat k + 1)) as Hlog.
  { apply lookup_lt_Some in Hk. destruct (lo_len _ _ _ Hl). unfold in_log. lia. }
  destruct (lo_home _ _ _ Hl x Hx) as [_ Hxl].
  unfold A'. rewrite puts_pin. split; [|split].
  - destruct Hpin as [->| ->]; [|set_solver]. intros [Hin%elem_of_list_to_set _]%elem_of_difference.
    by apply (lo_home _ _ _ Hl) in Hin as [_ ?].
  - etrans; [apply subseteq_size, subseteq_difference_l; reflexivity|].
    case_decide as Hd; [by rewrite Hd, size_empty|]. destruct Hpin as [->|]; [|done].
    rewrite size_list_to_set by apply Hl. done.
  - destruct Hpin as [->| ->]; [left|right; set_solver]. apply elem_of_difference.
    split; [by apply elem_of_list_to_set|]. intros Hin%elem_of_list_to_set.
    eapply step_take in Hin; [|exact Hl]. destruct dst; [done|]. eapply take_fresh; eauto. apply Hl.
Qed.

Lemma wp_two_step dst s A x y i : c_rep (cache s) A -> ba_held A = ∅ ->
  ldev (lg s) = 1 -> 0 <= i < LOGSIZE -> (lh_block (lg s)).[i] = y -> start (lg s) + i + 1 = x ->
  0 <= x < c_size (cache s) -> 0 <= y < c_size (cache s) -> c_size (cache s) <= 2147483648 ->
  x <> y -> (x ∉ ba_pin A) -> Z.of_nat (size (ba_pin A)) < NBUF -> (y ∈ ba_pin A \/ ba_pin A = ∅) ->
  wp (two_step dst i)
    (fun _ s' => kept s s' /\ c_rep (cache s') (if dst then ba_put x (ba_cur A y) A
                                                 else ba_put y (ba_cur A x) A)) s.
Proof.
  intros Hr He Hdev Hi Hy Hx Hxs Hys Hsz Hne Hxp Hpn Hyp.
  assert (u32 (lh_block (lg s)).[i] = y) as Hyb by (rewrite Hy; wrap_lia).
  pose proof (wp_two_blocks s A x y i dst Hr He Hi Hyb Hxs Hys Hne Hxp Hpn Hyp) as H2.
  destruct dst; apply wp_bind, wp_gets; rewrite Hdev, Hx, (u32_small x) by lia; exact H2.
Qed.

(** Both loops write [step_writes]. *)
Lemma wp_two_loop dst s A lbs : c_rep (cache s) A -> ba_held A = ∅ ->
  log_ok (lg s) (c_size (cache s)) lbs ->
  (ba_pin A = ∅ \/ ba_pin A = list_to_set lbs /\ Z.of_nat (length lbs) < NBUF) ->
  (dst = true -> ba_pin A = list_to_set lbs) ->
  wp (for_up 0 (lh_n (lg s)) (two_step dst)) (fun _ s' => kept s s' /\
    c_rep (cache s') (puts (step_writes dst (start (lg s)) lbs (ba_cur A)) A)) s.
Proof.
  intros Hr He Hl Hpin Hdst. rewrite (lo_n _ _ _ Hl).
  set (ws := step_writes dst (start (lg s)) lbs (ba_cur A)).
  apply (wp_for_up (fun k s' => kept s s' /\ c_rep (cache s') (puts (take (Z.to_nat k) ws) A))).
  - done.
  - intros k s' Hk [[Kl Ks] Hr']. set (kn := Z.to_nat k) in *.
    destruct (lookup_lt_is_Some_2 lbs kn) as [y Hy]; [lia|].
    assert (ba_pin A = list_to_set lbs \/ ba_pin A = ∅) as Hpin' by tauto.
    destruct (mid_pin dst _ _ _ (ba_cur A) kn y A Hl Hy Hpin') as (H1 & H2 & H3). fold ws in H1, H2, H3.
    set (A' := puts (take kn ws) A) in *.
    assert (y ∈ lbs) as Hyl by (by eapply list_elem_of_lookup_2).
    destruct (lo_home _ _ _ Hl y Hyl) as [Hys Hyn]. destruct (lo_len _ _ _ Hl) as [Hlen1 Hlen2].
    pose proof (lo_start _ _ _ Hl). pose proof (lo_size _ _ _ Hl). pose proof (lo_sz _ _ _ Hl).
    assert (in_log (lg s) (start (lg s) + Z.of_nat kn + 1)) as Hxl.
    { unfold in_log. lia. }
    eapply wp_mono; [|apply (wp_two_step dst s' A' (start (lg s) + Z.of_nat kn + 1) y); rewrite ?Kl, ?Ks].
    { intros _ s'' [[Kl' Ks'] Hr'']. split; [split; congruence|].
      replace (Z.to_nat (k + 1)) with (S kn) by lia.
      pose proof (step_lookup dst (start (lg s)) lbs (ba_cur A) kn y Hy) as Hw. fold ws in Hw.
      rewrite (take_S_r _ _ _ Hw), puts_app. fold A'. cbn [puts foldl].
      assert (forall n, (if dst then ~ in_log (lg s) n else in_log (lg s) n) -> ba_cur A' n = ba_cur A n) as Hc.
      { intros n Hn. unfold A'. rewrite puts_cur. apply apply_notin. intros Hin.
        eapply step_take in Hin; [|exact Hl]. destruct dst; [done|].
        apply subseteq_take, (lo_home _ _ _ Hl) in Hin as [_ ?]. done. }
      destruct dst; cbn [fst snd]; rewrite <- Hc by done; exact Hr''. }
    all: try done; try lia.
    + unfold A'. by rewrite puts_held.
    + apply Hl.
    + replace k with (Z.of_nat kn) by lia. by apply (lo_blk _ _ _ Hl).
    + intros E. by rewrite E in Hxl.
    + case_decide; [unfold NBUF, MAXOPBLOCKS; lia|]. destruct Hpin as [?|[_ ?]]; [done|lia].
    + naive_solver.
  - intros s' [K Hr']. rewrite Z.max_r, Nat2Z.id in Hr' by lia.
    rewrite take_ge in Hr' by (unfold ws; rewrite step_length; lia). done.
Qed.

(** ** The header *)

Lemma ba_set_set n v v' A : ba_set n v (ba_set n v' A) ≡ ba_set n v A.
Proof. repeat split; cbn; try done. intros m. unfold fupd. by repeat case_decide. Qed.

Lemma put_equiv A b n v : ba_held A = ∅ ->
  ba_drop b (ba_write n (ba_set n v (ba_hold b n A))) ≡ ba_put n v A.
Proof.
  intros He. repeat split; cbn; rewrite ?fupd_eq, ?He; try done. apply map_empty. intros i.
  rewrite lookup_delete, lookup_insert. by repeat case_decide.
Qed.

Lemma drop_equiv A b n : ba_held A = ∅ -> ba_drop b (ba_hold b n A) ≡ A.
Proof.
  intros He. repeat split; cbn; rewrite ?He; try done. apply map_empty. intros i.
  rewrite lookup_delete, lookup_insert. by repeat case_decide.
Qed.

Lemma wp_write_head s A : c_rep (cache s) A -> ba_held A = ∅ -> ldev (lg s) = 1 ->
  0 <= start (lg s) < c_size (cache s) -> c_size (cache s) <= 2147483648 ->
  0 <= lh_n (lg s) <= LOGSIZE -> Z.of_nat (size (ba_pin A)) < NBUF ->
  wp write_head (fun _ s' => kept s s' /\
    c_rep (cache s') (ba_put (start (lg s)) (hdr (lg s) (ba_cur A (start (lg s)))) A)) s.
Proof.
  intros Hr He Hdev Hst Hsz Hn Hpn. set (l := lg s) in *.
  apply wp_bind, wp_gets. fold l. rewrite Hdev, (u32_small (start l)) by lia.
  apply wp_bind. eapply lwp_bread; [exact Hr|done|by apply held_none| |].
  { right. rewrite He, map_size_empty. lia. }
  intros b s1 K1 Hb R1. set (A1 := ba_hold b (start l) A) in *.
  assert (ba_held A1 !! b = Some (start l)) as Hh by apply lookup_insert_eq.
  apply wp_bind. eapply lwp_data; [exact R1|exact Hh|]. cbn [A1 ba_hold ba_cur].
  set (d := set_hd_n (lh_n l) (ba_cur A (start l))).
  apply wp_bind. eapply lwp_set_data; [exact R1|exact Hh|]. intros s2 K2 R2. fold d in R2.
  set (f := fun i => (lh_block l).[i]).
  apply wp_bind, (wp_for_up (fun k s' => kept s s' /\
    c_rep (cache s') (ba_set (start l) (hdr_blocks f (Z.to_nat k) d) A1))).
  - split; [by eapply kept_trans|exact R2].
  - intros k s3 Hk [K3 R3]. assert (lg s3 = l) as E3 by apply K3.
    apply wp_bind, wp_lh_get; [lia|]. apply wp_bind. eapply lwp_data; [exact R3|exact Hh|].
    cbn [ba_cur ba_set]. rewrite fupd_eq, E3. eapply lwp_set_data; [exact R3|exact Hh|].
    intros s4 K4 R4. split; [by eapply kept_trans|]. rewrite ba_set_set in R4.
    replace (Z.to_nat (k + 1)) with (S (Z.to_nat k)) by lia.
    rewrite hdr_blocks_S, Z2Nat.id by lia. exact R4.
  - intros s3 [K3 R3]. rewrite Z.max_r in R3 by lia.
    apply wp_bind. eapply lwp_bwrite; [exact R3|exact Hh|]. intros s4 K4 R4.
    eapply lwp_brelse; [exact R4|exact Hh| |].
    { right. cbn. by rewrite !fupd_eq. }
    intros s5 K5 R5. split; [eauto using kept_trans|].
    eapply rep_equiv; [exact R5|by apply put_equiv].
Qed.

(** The in-memory header after [read_head]. *)
Definition loaded (l l' : log) (h : memory) : Prop :=
  l' = with_lh_block (lh_block l') (with_lh_n (hd_n h) l) /\
  forall i, 0 <= i < hd_n h -> (lh_block l').[i] = hd_block h i.

Lemma wp_read_head s A : c_rep (cache s) A -> ba_held A = ∅ -> ldev (lg s) = 1 ->
  0 <= start (lg s) < c_size (cache s) -> c_size (cache s) <= 2147483648 ->
  (start (lg s) ∉ ba_pin A) -> hd_n (ba_cur A (start (lg s))) <= LOGSIZE ->
  Z.of_nat (size (ba_pin A)) < NBUF ->
  wp read_head (fun _ s' => c_size (cache s') = c_size (cache s) /\ c_rep (cache s') A /\
    loaded (lg s) (lg s') (ba_cur A (start (lg s)))) s.
Proof.
  intros Hr He Hdev Hst Hsz Hsp Hn Hpn. set (l := lg s) in *. set (h := ba_cur A (start l)) in *.
  apply wp_bind, wp_gets. fold l. rewrite Hdev, (u32_small (start l)) by lia.
  apply wp_bind. eapply lwp_bread; [exact Hr|done|by apply held_none| |].
  { right. rewrite He, map_size_empty. lia. }
  intros b s1 [K1 Z1] Hb R1. set (A1 := ba_hold b (start l) A) in *.
  assert (ba_held A1 !! b = Some (start l)) as Hh by apply lookup_insert_eq.
  apply wp_bind. eapply lwp_data; [exact R1|exact Hh|]. cbn [A1 ba_hold ba_cur]. fold h.
  apply wp_bind, wp_modify. cbn [lg cache].
  apply wp_bind, (wp_for_up (fun k s' => c_size (cache s') = c_size (cache s) /\ c_rep (cache s') A1 /\
    lg s' = with_lh_block (lh_block (lg s')) (with_lh_n (hd_n h) l) /\
    (forall i, 0 <= i < k -> (lh_block (lg s')).[i] = hd_block h i))).
  - cbn. rewrite K1. repeat split; [done..|lia].
  - intros k s2 Hk (Z2 & R2 & E2 & B2). apply wp_bind. eapply lwp_data; [exact R2|exact Hh|].
    cbn [A1 ba_hold ba_cur]. fold h. unfold lh_set. apply wp_aset; [lia|]. cbn.
    split; [done|]. split; [done|]. split; [by rewrite E2|].
    intros i Hi. rewrite asel_insert. case_decide; [by subst|]. apply B2. lia.
  - intros s2 (Z2 & R2 & E2 & B2). eapply lwp_brelse; [exact R2|exact Hh| |].
    { right. cbn. eapply c_clean_ok; [exact Hr|done|by apply held_none]. }
    intros s3 [K3 Z3] R3. split; [congruence|]. split; [eapply rep_equiv; [exact R3|by apply drop_equiv]|].
    unfold loaded. rewrite K3. split; [done|]. intros i Hi. apply B2. lia.
Qed.

(** ** [commit] *)

Definition home_writes (lbs : list Z) (cur : Z -> memory) : list (Z * memory) :=
  (fun b => (b, cur b)) <$> lbs.

(** The disk writes of [commit]: the log, the header, the home locations, and
    the empty header. *)
Definition commit_writes (l : log) (lbs : list Z) (cur : Z -> memory) : list (Z * memory) :=
  let h := hdr l (cur (start l)) in
  log_writes (start l) lbs cur ++ (start l, h) :: home_writes lbs cur ++
  [(start l, set_hd_n 0 h)].

Lemma home_fst lbs cur : (home_writes lbs cur).*1 = lbs.
Proof. unfold home_writes. rewrite <- list_fmap_compose. apply list_fmap_id. Qed.

Lemma inst_home st lbs (d cur : Z -> memory) :
  (forall i b, lbs !! i = Some b -> d (st + Z.of_nat i + 1) = cur b) ->
  inst_writes st lbs d = home_writes lbs cur.
Proof.
  intros Hd. apply list_eq. intros i. unfold inst_writes, home_writes.
  rewrite list_lookup_imap, list_lookup_fmap. destruct (lbs !! i) as [b|] eqn:E; cbn; [|done].
  by rewrite (Hd i b).
Qed.

(** The contents of the log blocks once [write_log] has run. *)
Lemma log_written l sz lbs (d cur : Z -> memory) i b : log_ok l sz lbs -> lbs !! i = Some b ->
  apply_writes (log_writes (start l) lbs cur) d (start l + Z.of_nat i + 1) = cur b.
Proof.
  intros Hl Hi. eapply (apply_in _ _ i); [apply log_nodup|].
  unfold log_writes. by rewrite list_lookup_imap, Hi.
Qed.

Lemma log_start l lbs (d cur : Z -> memory) :
  apply_writes (log_writes (start l) lbs cur) d (start l) = d (start l).
Proof. apply apply_notin. rewrite log_fst. lia. Qed.

Lemma start_home l sz lbs : log_ok l sz lbs -> start l ∉ lbs.
Proof.
  intros Hl Hin. destruct (lo_home _ _ _ Hl _ Hin) as [_ Hn]. apply Hn.
  destruct (lo_len _ _ _ Hl). unfold in_log. lia.
Qed.

Lemma start_range l sz lbs : log_ok l sz lbs -> 0 <= start l < sz.
Proof. intros []. lia. Qed.

Lemma log_ok_n l sz lbs : log_ok l sz lbs -> 0 <= lh_n l <= LOGSIZE.
Proof. intros []. lia. Qed.

Lemma pin_size_le A B : ba_pin B ⊆ ba_pin A -> Z.of_nat (size (ba_pin A)) < NBUF ->
  Z.of_nat (size (ba_pin B)) < NBUF.
Proof. intros Hsub%subseteq_size. lia. Qed.

(** The first half of [commit]: the log blocks, then the header. *)
Lemma wp_log_phase s A lbs : c_rep (cache s) A -> ba_held A = ∅ ->
  log_ok (lg s) (c_size (cache s)) lbs -> ba_pin A = list_to_set lbs ->
  Z.of_nat (length lbs) < NBUF ->
  wp (write_log ;;; write_head) (fun _ s' => kept s s' /\
    c_rep (cache s') (puts (log_writes (start (lg s)) lbs (ba_cur A) ++
      [(start (lg s), hdr (lg s) (ba_cur A (start (lg s))))]) A)) s.
Proof.
  intros Hr He Hl Hpin Hlen. set (l := lg s) in *.
  pose proof (start_range _ _ _ Hl) as Hst. pose proof (log_ok_n _ _ _ Hl) as Hn.
  assert (Z.of_nat (size (ba_pin A)) < NBUF) as Hpn.
  { rewrite Hpin, size_list_to_set by apply Hl. lia. }
  apply wp_bind, wp_bind, wp_gets. fold l.
  eapply wp_mono; [|apply (wp_two_loop true s A lbs); [done..|by right|done]].
  intros _ s1 [[K1 Z1] R1]. fold l in K1, R1. cbn [step_writes] in R1.
  set (A1 := puts (log_writes (start l) lbs (ba_cur A)) A) in *.
  assert (ba_cur A1 (start l) = ba_cur A (start l)) as C1.
  { unfold A1. rewrite puts_cur. apply log_start. }
  eapply wp_mono; [|apply (wp_write_head s1 A1); rewrite ?K1, ?Z1; try done].
  - intros _ s2 [[K2 Z2] R2]. rewrite K1, C1 in R2. split; [unfold kept; fold l; split; congruence|].
    rewrite puts_app. exact R2.
  - unfold A1. by rewrite puts_held.
  - apply Hl.
  - apply Hl.
  - eapply pin_size_le; [|exact Hpn]. unfold A1. rewrite puts_pin. set_solver.
Qed.

(** The second half, also the end of recovery: the home locations, then the
    empty header. *)
Lemma wp_install_phase s A lbs : c_rep (cache s) A -> ba_held A = ∅ ->
  log_ok (lg s) (c_size (cache s)) lbs ->
  (ba_pin A = ∅ \/ ba_pin A = list_to_set lbs /\ Z.of_nat (length lbs) < NBUF) ->
  wp (install_trans ;;; upd_log (with_lh_n 0) ;;; write_head) (fun _ s' =>
    lg s' = with_lh_n 0 (lg s) /\ c_size (cache s') = c_size (cache s) /\
    c_rep (cache s') (puts (inst_writes (start (lg s)) lbs (ba_cur A) ++
      [(start (lg s), set_hd_n 0 (ba_cur A (start (lg s))))]) A)) s.
Proof.
  intros Hr He Hl Hpin. set (l := lg s) in *. pose proof (start_range _ _ _ Hl) as Hst.
  apply wp_bind, wp_bind, wp_gets. fold l.
  eapply wp_mono; [|apply (wp_two_loop false s A lbs); done].
  intros _ s1 [[K1 Z1] R1]. fold l in K1, R1. cbn [step_writes] in R1.
  set (A1 := puts _ A) in *. apply wp_bind, wp_modify.
  assert (ba_cur A1 (start l) = ba_cur A (start l)) as C1.
  { unfold A1. rewrite puts_cur. apply apply_notin. rewrite inst_fst. by eapply start_home. }
  eapply wp_mono; [|apply (wp_write_head _ A1); cbn [lg cache]; rewrite ?K1, ?Z1; try done].
  - intros _ s2 [[K2 Z2] R2]. cbn [lg cache] in *. rewrite K1 in K2, R2.
    split; [done|]. split; [congruence|]. rewrite puts_app. fold A1. cbn. rewrite <- C1. exact R2.
  - unfold A1. by rewrite puts_held.
  - apply Hl.
  - apply Hl.
  - eapply (pin_size_le A); [unfold A1; rewrite puts_pin; set_solver|].
    destruct Hpin as [->|[-> Hlen]]; [by rewrite size_empty|].
    rewrite size_list_to_set by apply Hl. done.
Qed.

(** The view between the two halves. *)
Lemma log_phase_view l sz lbs A h : log_ok l sz lbs -> ba_pin A = list_to_set lbs ->
  let A' := puts (log_writes (start l) lbs (ba_cur A) ++ [(start l, h)]) A in
  ba_pin A' = list_to_set lbs /\ ba_held A' = ba_held A /\ ba_cur A' (start l) = h /\
  inst_writes (start l) lbs (ba_cur A') = home_writes lbs (ba_cur A).
Proof.
  intros Hl Hpin A'. assert (ba_cur A' = fupd (apply_writes (log_writes (start l) lbs (ba_cur A)) (ba_cur A)) (start l) h) as C'.
  { unfold A'. by rewrite puts_cur, apply_app. }
  split; [|split; [apply puts_held|split]].
  - unfold A'. rewrite puts_pin, Hpin. apply set_eq. intros x.
    rewrite fmap_app, !elem_of_difference, !elem_of_list_to_set, elem_of_app, log_fst. cbn.
    rewrite list_elem_of_singleton. split; [tauto|]. intros Hx. split; [done|].
    destruct (lo_home _ _ _ Hl x Hx) as [_ Hxl]. destruct (lo_len _ _ _ Hl). unfold in_log in Hxl. lia.
  - rewrite C'. apply fupd_eq.
  - apply inst_home. intros i b Hi. rewrite C', fupd_ne by lia. by eapply log_written.
Qed.

Lemma wp_commit s A lbs : c_rep (cache s) A -> ba_held A = ∅ ->
  log_ok (lg s) (c_size (cache s)) lbs -> lbs <> [] -> ba_pin A = list_to_set lbs ->
  Z.of_nat (length lbs) < NBUF ->
  wp commit (fun _ s' => lg s' = with_lh_n 0 (lg s) /\ c_size (cache s') = c_size (cache s) /\
    c_rep (cache s') (puts (commit_writes (lg s) lbs (ba_cur A)) A)) s.
Proof.
  intros Hr He Hl Hne Hpin Hlen. apply wp_bind, wp_gets. apply wp_when; intros Hw; bprop.
  2:{ rewrite (lo_n _ _ _ Hl) in Hw. destruct lbs; [done|cbn in Hw; lia]. }
  destruct (log_phase_view _ _ _ A (hdr (lg s) (ba_cur A (start (lg s)))) Hl Hpin) as (P & Hh & Hc & Hi).
  eapply wp_seq2; [by apply (wp_log_phase s A lbs)|]. intros s1 [[K1 Z1] R1]. set (A1 := puts _ A) in *.
  eapply wp_mono; [|apply (wp_install_phase s1 A1 lbs); rewrite ?K1, ?Z1; try done].
  - intros _ s2 (K2 & Z2 & R2). rewrite K1 in K2, R2. rewrite Hi, Hc in R2. split; [done|].
    split; [congruence|].
    unfold commit_writes. rewrite cons_middle, app_assoc, puts_app. exact R2.
  - by rewrite Hh.
  - by right.
Qed.

(** ** Recovery *)

Definition recover_writes (st : Z) (d : Z -> memory) : list (Z * memory) :=
  inst_writes st (hd_list (d st)) d ++ [(st, set_hd_n 0 (d st))].

(** The region of the log on disk. *)
Definition geometry (l : log) (sz : Z) : Prop :=
  ldev l = 1 /\ 0 <= start l /\ 1 <= lsize l /\ start l + lsize l <= sz /\ sz <= 2147483648.

(** A header a commit can have written. *)
Definition valid_hdr (l : log) (sz : Z) (h : memory) : Prop :=
  0 <= hd_n h <= LOGSIZE /\ hd_n h <= lsize l - 1 /\ NoDup (hd_list h) /\
  (forall x, x ∈ hd_list h -> 0 <= x < sz /\ ~ in_log l x).

Lemma hd_list_length h : 0 <= hd_n h -> Z.of_nat (length (hd_list h)) = hd_n h.
Proof. intros Hn. unfold hd_list. rewrite length_fmap, length_seqZ. lia. Qed.

Lemma hd_list_lookup h i x : hd_list h !! i = Some x <->
  Z.of_nat i < hd_n h /\ x = hd_block h (Z.of_nat i).
Proof.
  unfold hd_list. rewrite list_lookup_fmap, fmap_Some. setoid_rewrite lookup_seqZ. split.
  - intros (y & [-> Hy] & ->). by rewrite Z.add_0_l.
  - intros [Hi ->]. exists (Z.of_nat i). split; [lia|done].
Qed.

Lemma loaded_ok l l' h sz : geometry l sz -> valid_hdr l sz h -> loaded l l' h ->
  log_ok l' sz (hd_list h).
Proof.
  intros (? & ? & ? & ? & ?) (Hn & Hn' & Hnd & Hhome) [El Hb].
  rewrite El in *. cbn in *. split; cbn; try done.
  - symmetry. apply hd_list_length. lia.
  - rewrite hd_list_length by lia. lia.
  - intros i x [Hi ->]%hd_list_lookup. apply Hb. lia.
Qed.

Lemma wp_recover s A : c_rep (cache s) A -> ba_held A = ∅ -> ba_pin A = ∅ ->
  geometry (lg s) (c_size (cache s)) ->
  valid_hdr (lg s) (c_size (cache s)) (ba_cur A (start (lg s))) ->
  wp recover_from_log (fun _ s' => geometry (lg s') (c_size (cache s)) /\
    start (lg s') = start (lg s) /\ lsize (lg s') = lsize (lg s) /\ lh_n (lg s') = 0 /\
    outstanding (lg s') = outstanding (lg s) /\ committing (lg s') = committing (lg s) /\
    llock (lg s') = llock (lg s) /\ c_size (cache s') = c_size (cache s) /\
    c_rep (cache s') (puts (recover_writes (start (lg s)) (ba_cur A)) A)) s.
Proof.
  intros Hr He Hp Hg Hv. pose proof Hg as (Hd & Hs0 & Hs1 & Hs2 & Hs3).
  apply wp_bind. eapply wp_mono; [|apply (wp_read_head s A); try done; try lia].
  2:{ rewrite Hp. apply not_elem_of_empty. } 2:{ apply Hv. }
  2:{ by rewrite Hp, size_empty. }
  intros _ s1 (Z1 & R1 & L1). set (h := ba_cur A (start (lg s))) in *.
  pose proof (loaded_ok _ _ _ _ Hg Hv L1) as Hok. destruct L1 as [E1 _].
  assert (start (lg s1) = start (lg s)) as Es by (by rewrite E1).
  eapply wp_mono; [|apply (wp_install_phase s1 A (hd_list h)); rewrite ?Z1; try done; by left].
  intros _ s2 (K2 & Z2 & R2). rewrite Es in R2. fold h in R2. rewrite K2, E1, Z2. cbn.
  repeat split; try done.
Qed.

(** ** Crashes

    A crash keeps a prefix of the disk writes. *)

(** Recovery does not reach outside the blocks the header names, and leaves
    the disk alone when the header is empty. *)
Lemma recovered_empty st d n : hd_n (d st) = 0 -> recovered st d n = d n.
Proof.
  intros Hn. unfold recovered, inst_writes, hd_list. by rewrite Hn.
Qed.

(** A block the header names is taken from the log. *)
Lemma recovered_in st d i n : NoDup (hd_list (d st)) -> hd_list (d st) !! i = Some n ->
  recovered st d n = d (st + Z.of_nat i + 1).
Proof.
  intros Hnd Hi. unfold recovered. eapply (apply_in _ _ i); [by rewrite inst_fst|].
  unfold inst_writes. by rewrite list_lookup_imap, Hi.
Qed.

Lemma recovered_out st d n : n ∉ hd_list (d st) -> recovered st d n = d n.
Proof. intros Hn. unfold recovered. apply apply_notin. by rewrite inst_fst. Qed.

(** The header names [lbs] and the log holds the contents [v]. *)
Definition logged (st : Z) (lbs : list Z) (v d : Z -> memory) : Prop :=
  hd_list (d st) = lbs /\ forall i b, lbs !! i = Some b -> d (st + Z.of_nat i + 1) = v b.

Lemma logged_recovered st lbs v d n : NoDup lbs -> logged st lbs v d ->
  recovered st d n = if decide (n ∈ lbs) then v n else d n.
Proof.
  intros Hnd [Eh Hl]. case_decide as Hn.
  - apply list_elem_of_lookup_1 in Hn as [i Hi]. rewrite (recovered_in st d i) by (by rewrite Eh).
    by apply Hl.
  - apply recovered_out. by rewrite Eh.
Qed.

(** Writing home blocks keeps what the log holds. *)
Lemma logged_home l lbs v d ws : Z.of_nat (length lbs) <= lsize l - 1 ->
  (forall x, x ∈ lbs -> ~ in_log l x) -> logged (start l) lbs v d ->
  (forall x, x ∈ ws.*1 -> x ∈ lbs) -> logged (start l) lbs v (apply_writes ws d).
Proof.
  intros Hlen Hhome [Eh Hd] Hws. assert (forall n, in_log l n -> apply_writes ws d n = d n) as Hk.
  { intros n Hn. apply apply_notin. intros Hin%Hws. by eapply Hhome. }
  split.
  - rewrite Hk; [done|]. unfold in_log. lia.
  - intros i b Hi. rewrite Hk; [by apply Hd|]. apply lookup_lt_Some in Hi. unfold in_log. lia.
Qed.

Lemma hdr_list l sz lbs d : log_ok l sz lbs -> hd_list (hdr l d) = lbs.
Proof.
  intros Hl. pose proof (log_ok_n _ _ _ Hl) as Hn. pose proof (lo_sz _ _ _ Hl).
  apply list_eq. intros i. apply option_eq. intros x.
  rewrite hd_list_lookup, (hdr_n l) by done. rewrite (lo_n _ _ _ Hl). split.
  - intros [Hi ->]. destruct (lookup_lt_is_Some_2 lbs i) as [y Hy]; [lia|]. rewrite Hy.
    pose proof (lo_blk _ _ _ Hl i y Hy) as Hb.
    destruct (lo_home _ _ _ Hl y) as [Hr _]; [by eapply list_elem_of_lookup_2|].
    rewrite hdr_get; [by rewrite Hb|rewrite (lo_n _ _ _ Hl); lia|rewrite Hb; lia].
  - intros Hi. pose proof (lookup_lt_Some _ _ _ Hi). split; [lia|].
    pose proof (lo_blk _ _ _ Hl i x Hi) as Hb.
    destruct (lo_home _ _ _ Hl x) as [Hr _]; [by eapply list_elem_of_lookup_2|].
    rewrite hdr_get; [by rewrite Hb|rewrite (lo_n _ _ _ Hl); lia|rewrite Hb; lia].
Qed.

Lemma take_app_cases {X} (l1 l2 : list X) k :
  take k (l1 ++ l2) = if decide (k <= length l1)%nat then take k l1 else l1 ++ take (k - length l1) l2.
Proof.
  rewrite take_app. case_decide.
  - replace (k - length l1)%nat with 0%nat by lia. by rewrite app_nil_r.
  - by rewrite take_ge by lia.
Qed.

Lemma valid_empty l sz h : geometry l sz -> hd_n h = 0 -> valid_hdr l sz h.
Proof.
  intros (_ & _ & H1 & _) H0. unfold valid_hdr, hd_list. rewrite H0.
  change ((fun i => hd_block h i) <$> seqZ 0 0) with (@nil Z). unfold LOGSIZE, MAXOPBLOCKS.
  split; [lia|]. split; [lia|]. split; [apply NoDup_nil_2|]. intros x []%not_elem_of_nil.
Qed.

Lemma valid_logged l sz lbs h : log_ok l sz lbs -> hd_list h = lbs -> hd_n h = lh_n l -> valid_hdr l sz h.
Proof.
  intros Hl Eh En. unfold valid_hdr. rewrite Eh, En, (lo_n _ _ _ Hl).
  destruct (lo_len _ _ _ Hl). repeat split; try lia; apply Hl; done.
Qed.

Lemma log_ok_geometry l sz lbs : log_ok l sz lbs -> geometry l sz.
Proof. intros []. unfold geometry. lia. Qed.

Lemma hd_n_clear h : hd_n (set_hd_n 0 h) = 0.
Proof. unfold hd_n, set_hd_n. by rewrite load32_store32_eq. Qed.

(** The disk once the log and the header are written. *)
Lemma log_phase_disk l sz lbs (cur d : Z -> memory) h : log_ok l sz lbs -> h = hdr l (cur (start l)) ->
  let d1 := apply_writes (log_writes (start l) lbs cur ++ [(start l, h)]) d in
  logged (start l) lbs cur d1 /\ d1 (start l) = h /\ (forall n, ~ in_log l n -> d1 n = d n).
Proof.
  intros Hl -> d1. unfold d1. rewrite apply_app. cbn.
  split; [split|split].
  - rewrite fupd_eq. by eapply hdr_list.
  - intros i b Hi. rewrite fupd_ne by lia. by eapply log_written.
  - apply fupd_eq.
  - intros n Hn. destruct (lo_len _ _ _ Hl). unfold in_log in Hn. rewrite fupd_ne by lia.
    apply apply_notin. rewrite log_fst. lia.
Qed.

Lemma home_written lbs (cur d : Z -> memory) n : NoDup lbs -> n ∈ lbs ->
  apply_writes (home_writes lbs cur) d n = cur n.
Proof.
  intros Hnd [i Hi]%list_elem_of_lookup_1. eapply (apply_in _ _ i); [by rewrite home_fst|].
  unfold home_writes. by rewrite list_lookup_fmap, Hi.
Qed.

Section CommitCrash.
Context (l : log) (sz : Z) (lbs : list Z) (cur disk : Z -> memory).
Hypothesis Hl : log_ok l sz lbs.

(** A disk on which recovery gives the contents [v], up to the log itself. *)
Definition recovers_to (v d : Z -> memory) : Prop :=
  valid_hdr l sz (d (start l)) /\ forall n, ~ in_log l n -> recovered (start l) d n = v n.

Lemma recovers_empty v d : hd_n (d (start l)) = 0 -> (forall n, ~ in_log l n -> d n = v n) ->
  recovers_to v d.
Proof.
  intros H0 Hd. split; [apply valid_empty; [by eapply log_ok_geometry|done]|].
  intros n Hn. rewrite recovered_empty by done. by apply Hd.
Qed.

(** Before the header is written: the old contents. *)
Lemma crash_log k : hd_n (disk (start l)) = 0 ->
  recovers_to disk (apply_writes (take k (log_writes (start l) lbs cur)) disk).
Proof using Hl.
  intros H0. assert (forall n, ~ in_log l n \/ n = start l ->
    apply_writes (take k (log_writes (start l) lbs cur)) disk n = disk n) as Hd.
  { intros n Hn. apply apply_notin. rewrite fmap_take. intros Hin%subseteq_take%log_fst.
    destruct (lo_len _ _ _ Hl). unfold in_log in Hn. lia. }
  apply recovers_empty; [by rewrite Hd by (by right)|]. intros n Hn. apply Hd. by left.
Qed.

Hypothesis Hclean : forall n, ~ in_log l n -> n ∉ lbs -> cur n = disk n.

Let d1 := apply_writes (log_writes (start l) lbs cur ++ [(start l, hdr l (cur (start l)))]) disk.

(** While the home locations are written: the new contents, from the log. *)
Lemma crash_install k : recovers_to cur (apply_writes (take k (home_writes lbs cur)) d1).
Proof using Hl Hclean.
  destruct (log_phase_disk l sz lbs cur disk _ Hl eq_refl) as (L1 & Eh & D1). fold d1 in L1, Eh, D1.
  set (ws := take k (home_writes lbs cur)).
  assert (forall x, x ∈ ws.*1 -> x ∈ lbs) as Hws.
  { intros x. unfold ws. rewrite fmap_take, home_fst. apply subseteq_take. }
  assert (logged (start l) lbs cur (apply_writes ws d1)) as L2.
  { apply logged_home; [apply Hl| |done..]. intros x Hx. by apply (lo_home _ _ _ Hl). }
  split.
  - eapply valid_logged; [exact Hl|apply L2|].
    rewrite apply_notin; [|by intros ?%Hws; eapply start_home].
    rewrite Eh. apply hdr_n. by eapply log_ok_n.
  - intros n Hn. rewrite (logged_recovered _ lbs cur _ n) by (done || apply Hl). case_decide; [done|].
    rewrite apply_notin by (by intros ?%Hws). rewrite D1 by done. symmetry. by apply Hclean.
Qed.

(** Once the header is cleared: the new contents, in place. *)
Lemma crash_done h : recovers_to cur
  (fupd (apply_writes (home_writes lbs cur) d1) (start l) (set_hd_n 0 h)).
Proof using Hl Hclean.
  destruct (log_phase_disk l sz lbs cur disk _ Hl eq_refl) as (_ & _ & D1). fold d1 in D1.
  apply recovers_empty; [rewrite fupd_eq; apply hd_n_clear|]. intros n Hn.
  assert (n <> start l) as Hns by (intros ->; apply Hn; destruct (lo_len _ _ _ Hl); unfold in_log; lia).
  rewrite fupd_ne by done.
  destruct (decide (n ∈ lbs)) as [Hin|Hout]; [apply home_written; [apply Hl|done]|].
  rewrite apply_notin by (by rewrite home_fst). rewrite D1 by done. symmetry. by apply Hclean.
Qed.

(** After a crash in [commit], recovery gives all of the transaction or none:
    the header write decides. *)
Lemma commit_crash k : hd_n (disk (start l)) = 0 ->
  recovers_to (if decide (k <= length lbs)%nat then disk else cur)
    (apply_writes (take k (commit_writes l lbs cur)) disk).
Proof using Hl Hclean.
  intros H0. unfold commit_writes. cbn zeta. rewrite take_app_cases.
  replace (length (log_writes (start l) lbs cur)) with (length lbs) by (symmetry; apply length_imap).
  case_decide as Hk; [by apply crash_log|].
  destruct (k - length lbs)%nat as [|j] eqn:Ej; [lia|]. cbn [take].
  rewrite cons_middle, app_assoc, apply_app. fold d1. rewrite take_app_cases.
  replace (length (home_writes lbs cur)) with (length lbs) by (symmetry; apply length_fmap).
  case_decide as Hj; [apply crash_install|].
  rewrite take_ge by (cbn; lia). rewrite apply_app. apply crash_done.
Qed.

End CommitCrash.

(** A crash in recovery changes nothing: recovery starts again from the log. *)
Lemma recover_crash l sz (d : Z -> memory) k : geometry l sz -> valid_hdr l sz (d (start l)) ->
  recovers_to l sz (recovered (start l) d) (apply_writes (take k (recover_writes (start l) d)) d).
Proof.
  intros Hg Hv. pose proof Hv as (Hn & Hn' & Hnd & Hhome). unfold recover_writes.
  set (lbs := hd_list (d (start l))) in *. rewrite take_app_cases.
  assert (start l ∉ lbs) as Hst.
  { intros Hin. apply Hhome in Hin as [_ Hin]. apply Hin. unfold in_log. lia. }
  case_decide as Hk.
  - set (ws := take k _). assert (forall x, x ∈ ws.*1 -> x ∈ lbs) as Hws.
    { intros x. unfold ws. rewrite fmap_take, inst_fst. apply subseteq_take. }
    assert (logged (start l) lbs (recovered (start l) d) (apply_writes ws d)) as L.
    { apply logged_home; [unfold lbs; rewrite hd_list_length; lia|intros x Hx; by apply Hhome| |done].
      split; [done|]. intros i b Hi. symmetry. by apply recovered_in. }
    split; [rewrite apply_notin; [done|by intros ?%Hws]|].
    intros n _. rewrite (logged_recovered _ lbs _ _ n Hnd L). case_decide; [done|].
    rewrite apply_notin by (by intros ?%Hws). by rewrite recovered_out.
  - rewrite take_ge by (cbn; lia). rewrite apply_app. cbn [apply_writes foldl fst snd].
    split; [rewrite fupd_eq; apply valid_empty; [done|apply hd_n_clear]|].
    intros n Hout. rewrite recovered_empty by (rewrite fupd_eq; apply hd_n_clear).
    apply fupd_ne. intros ->. apply Hout. unfold in_log. lia.
Qed.

(** ** Transactions *)

(** Between operations: the blocks logged so far are the dirty ones, and the
    log on disk is empty. *)
Record log_inv (s : lst C) (A : blocks) (lbs : list Z) : Prop := {
  li_rep : c_rep (cache s) A;
  li_ok : log_ok (lg s) (c_size (cache s)) lbs;
  li_lock : llock (lg s) = false;
  li_idle : committing (lg s) = false;
  li_out : 0 <= outstanding (lg s);
  li_size : lsize (lg s) <= LOGSIZE;
  li_pin : ba_pin A = list_to_set lbs;
  li_empty : hd_n (ba_disk A (start (lg s))) = 0
}.

(** [begin_op] returns when there is room for [MAXOPBLOCKS] more blocks. *)
Lemma begin_op_eq s : llock (lg s) = false -> committing (lg s) = false ->
  lh_n (lg s) + (outstanding (lg s) + 1) * MAXOPBLOCKS <= LOGSIZE ->
  begin_op s = Ret tt (mklst (with_outstanding (outstanding (lg s) + 1) (lg s)) (cache s)).
Proof.
  intros Hl Hc Hn. unfold begin_op, bind, lk_acquire, Lock.acquire. rewrite Hl. cbn.
  unfold begin_crit. cbn. rewrite Hc. rewrite (proj2 (Z.ltb_ge _ _)) by done. cbn.
  destruct s as [[] c]. cbn in *. by subst.
Qed.

Lemma log_inv_outstanding s A lbs n : log_inv s A lbs -> 0 <= n ->
  log_inv (mklst (with_outstanding n (lg s)) (cache s)) A lbs.
Proof. intros [? [] ? ? ? ? ?] Hn. split; try done. Qed.

(** [log_write]: the block is added to the header unless it is there. *)
Definition absorb (n : Z) (lbs : list Z) : list Z := if decide (n ∈ lbs) then lbs else lbs ++ [n].

(** Where [log_write] finds the block. *)
Lemma wp_log_find s A lbs n : log_ok (lg s) (c_size (cache s)) lbs -> 0 <= n < c_size (cache s) ->
  wp (for_exit 0 (lh_n (lg s)) (fun i => let* x := lh_get i in
        ret (if u32 x =? n then Some i else None)))
    (fun r s' => s' = s /\ match r with
       | Some i => lbs !! Z.to_nat i = Some n /\ 0 <= i
       | None => n ∉ lbs
       end) s.
Proof.
  intros Hl Hn. apply (wp_for_exit (fun k s' => s' = s /\ n ∉ take (Z.to_nat k) lbs)).
  - split; [done|]. apply not_elem_of_nil.
  - intros k s' Hk [-> Hno]. rewrite (lo_n _ _ _ Hl) in Hk. destruct (lo_len _ _ _ Hl).
    destruct (lookup_lt_is_Some_2 lbs (Z.to_nat k)) as [x Hx]; [lia|].
    apply wp_bind, wp_lh_get; [lia|]. apply wp_ret.
    pose proof (lo_blk _ _ _ Hl _ _ Hx) as Hb. rewrite Z2Nat.id in Hb by lia. rewrite Hb.
    destruct (lo_home _ _ _ Hl x) as [Hxr _]; [by eapply list_elem_of_lookup_2|].
    pose proof (lo_sz _ _ _ Hl). rewrite u32_small by lia.
    destruct (Z.eqb_spec x n) as [->|Hne]; [split; [done|split; [done|lia]]|].
    split; [done|]. replace (Z.to_nat (k + 1)) with (S (Z.to_nat k)) by lia.
    rewrite (take_S_r _ _ _ Hx). set_solver.
  - intros s' [-> Hno]. split; [done|]. rewrite take_ge in Hno; [done|].
    rewrite (lo_n _ _ _ Hl). lia.
Qed.

Lemma log_ok_absorb l sz lbs n : log_ok l sz lbs -> 0 <= n < sz -> ~ in_log l n ->
  lh_n l < LOGSIZE -> lh_n l < lsize l - 1 -> n ∉ lbs ->
  log_ok (with_lh_n (lh_n l + 1) (with_lh_block (<[lh_n l := n]> (lh_block l)) l)) sz (lbs ++ [n]).
Proof.
  intros Hl Hn Hnl H1 H2 Hno. pose proof (lo_n _ _ _ Hl) as En.
  split; cbn; try apply Hl.
  - rewrite length_app. cbn. lia.
  - rewrite length_app. cbn. lia.
  - intros i x Hi. rewrite asel_insert. apply lookup_app_Some in Hi as [Hi|[Hle Hi]].
    + pose proof (lookup_lt_Some _ _ _ Hi). rewrite decide_False by lia. by apply Hl.
    + apply list_lookup_singleton_Some in Hi as [Hi <-]. by rewrite decide_True by lia.
  - intros x [Hx| ->%list_elem_of_singleton]%elem_of_app; [by apply Hl|done].
  - apply NoDup_app. split; [apply Hl|]. split; [set_solver|apply NoDup_singleton].
Qed.

Lemma log_ok_same l sz lbs i n : log_ok l sz lbs -> lbs !! i = Some n ->
  log_ok (with_lh_block (<[Z.of_nat i := n]> (lh_block l)) l) sz lbs.
Proof.
  intros Hl Hi. split; cbn; try apply Hl. intros j x Hj. rewrite asel_insert.
  case_decide as E; [|by apply Hl]. apply Nat2Z.inj in E as ->. congruence.
Qed.

(** The end of [log_write]. *)
Lemma wp_log_tail s A lbs b n : c_rep (cache s) A -> ba_held A !! b = Some n ->
  log_ok (lg s) (c_size (cache s)) lbs -> llock (lg s) = true -> committing (lg s) = false ->
  0 <= outstanding (lg s) -> lsize (lg s) <= LOGSIZE -> {[n]} ∪ ba_pin A = list_to_set lbs ->
  hd_n (ba_disk A (start (lg s))) = 0 ->
  wp (zoom cache_lens (c_set_dirty b) ;;; lk_release) (fun _ s' => log_inv s' (ba_dirty n A) lbs /\
    lg s' = with_llock false (lg s) /\ c_size (cache s') = c_size (cache s)) s.
Proof.
  intros Hr Hb Hl Hlk Hid Hout Hls Hpin Hem. apply wp_bind, wp_zoom.
  eapply wp_mono; [|by eapply c_set_dirty_ok]. intros _ c' [Hr' Hsz]. cbn [cache lset cache_lens lget] in *.
  apply Lock.wp_release; [done|]. cbn [lg cache]. split; [|done].
  split; cbn; try done. rewrite Hsz. destruct Hl; by split.
Qed.

Lemma wp_log_write s A lbs b n : log_inv s A lbs -> ba_held A !! b = Some n ->
  0 <= n < c_size (cache s) -> ~ in_log (lg s) n -> 1 <= outstanding (lg s) ->
  lh_n (lg s) < lsize (lg s) - 1 ->
  wp (log_write b) (fun _ s' => log_inv s' (ba_dirty n A) (absorb n lbs) /\
    outstanding (lg s') = outstanding (lg s) /\ start (lg s') = start (lg s) /\
    lsize (lg s') = lsize (lg s) /\ c_size (cache s') = c_size (cache s)) s.
Proof.
  intros [Hr Hl Hlk Hid Hout Hls Hpin Hem] Hb Hn Hnl Ho Hroom. pose proof (lo_sz _ _ _ Hl) as Hsz.
  apply wp_bind, wp_gets. rewrite (proj2 (Z.leb_gt LOGSIZE _)), (proj2 (Z.leb_gt (lsize (lg s) - 1) _)) by lia.
  cbn [orb]. rewrite (proj2 (Z.ltb_ge _ _)) by lia.
  apply wp_bind, Lock.wp_acquire; [done|]. apply wp_bind, wp_zoom. eapply wp_of_eq; [by eapply c_blockno_ok|].
  cbn [lset cache_lens lg cache]. set (s1 := mklst (with_llock true (lg s)) (cache s)).
  assert (log_ok (lg s1) (c_size (cache s1)) lbs) as Hl1 by (destruct Hl; by split).
  apply wp_bind. eapply wp_mono; [|by apply (wp_log_find s1 A lbs n)].
  intros r s' [-> Hres]. pose proof (lo_n _ _ _ Hl) as En. destruct (lo_len _ _ _ Hl) as [Hlen _].
  rewrite i32_small by lia. unfold absorb.
  destruct r as [i|]; cbn [from_option]; unfold lh_set, id.
  - destruct Hres as [Hi Hi0]. pose proof (lookup_lt_Some _ _ _ Hi).
    rewrite decide_True by (by eapply list_elem_of_lookup_2).
    apply wp_bind, wp_aset; [lia|]. apply wp_bind, wp_when; intros E; [bprop; lia|].
    eapply wp_mono; [|apply (wp_log_tail _ A lbs b n); cbn; try done].
    + intros _ s2 (H1 & H2 & H3). rewrite H2. cbn in *. done.
    + rewrite <- (Z2Nat.id i) by done. by apply (log_ok_same (with_llock true (lg s))).
    + rewrite Hpin. apply list_elem_of_lookup_2 in Hi. set_solver.
  - rewrite decide_False by done. rewrite Z.max_r by lia.
    apply wp_bind, wp_aset; [lia|]. apply wp_bind, wp_when; intros E; [|bprop; lia].
    apply wp_modify. eapply wp_mono; [|apply (wp_log_tail _ A (lbs ++ [n]) b n); cbn; try done].
    + intros _ s2 (H1 & H2 & H3). rewrite H2. cbn in *. done.
    + apply (log_ok_absorb (with_llock true (lg s))); cbn; done || lia.
    + rewrite Hpin, list_to_set_app_L. set_solver.
Qed.

(** The disk writes of the [end_op] that ends a transaction. *)
Definition trans_writes (l : log) (lbs : list Z) (cur : Z -> memory) : list (Z * memory) :=
  if decide (lbs = []) then [] else commit_writes l lbs cur.

Lemma commit_cur l sz lbs (cur d : Z -> memory) n : log_ok l sz lbs -> ~ in_log l n ->
  (n ∉ lbs -> d n = cur n) -> apply_writes (commit_writes l lbs cur) d n = cur n.
Proof.
  intros Hl Hn Hd. unfold commit_writes. cbn zeta. rewrite cons_middle, !app_assoc, apply_app. cbn.
  destruct (lo_len _ _ _ Hl). rewrite fupd_ne by (intros ->; apply Hn; unfold in_log; lia).
  rewrite apply_app. destruct (decide (n ∈ lbs)) as [Hin|Hout]; [apply home_written; [apply Hl|done]|].
  rewrite apply_notin by (by rewrite home_fst).
  destruct (log_phase_disk l sz lbs cur d _ Hl eq_refl) as (_ & _ & D1). rewrite D1 by done. by apply Hd.
Qed.

Lemma commit_header l lbs (cur d : Z -> memory) :
  hd_n (apply_writes (commit_writes l lbs cur) d (start l)) = 0.
Proof.
  unfold commit_writes. cbn zeta. rewrite cons_middle, !app_assoc, apply_app. cbn.
  rewrite fupd_eq. apply hd_n_clear.
Qed.

Lemma log_ok_cleared l sz lbs : log_ok l sz lbs -> log_ok (with_lh_n 0 l) sz [].
Proof.
  intros Hl. destruct (lo_len _ _ _ Hl). split; cbn; try apply Hl; try done.
  - unfold LOGSIZE, MAXOPBLOCKS. lia.
  - intros x []%not_elem_of_nil.
  - apply NoDup_nil_2.
Qed.

(** [commit], whether or not anything was logged. *)
Lemma wp_commit_any s A lbs : c_rep (cache s) A -> ba_held A = ∅ ->
  log_ok (lg s) (c_size (cache s)) lbs -> lsize (lg s) <= LOGSIZE -> ba_pin A = list_to_set lbs ->
  hd_n (ba_disk A (start (lg s))) = 0 ->
  wp commit (fun _ s' => lg s' = with_lh_n 0 (lg s) /\ c_size (cache s') = c_size (cache s) /\
    exists A', c_rep (cache s') A' /\ ba_pin A' = ∅ /\ ba_held A' = ∅ /\
      hd_n (ba_disk A' (start (lg s))) = 0 /\
      ba_writes A' = ba_writes A ++ trans_writes (lg s) lbs (ba_cur A) /\
      forall n, ~ in_log (lg s) n -> ba_cur A' n = ba_cur A n) s.
Proof.
  intros Hr He Hl Hls Hpin H0. unfold trans_writes. case_decide as Hn.
  - subst lbs. apply wp_bind, wp_gets. pose proof (lo_n _ _ _ Hl) as En. cbn in En. rewrite En.
    apply wp_when; [done|]. intros _. split; [destruct s as [[] c]; cbn in *; by subst|]. split; [done|].
    exists A. by rewrite app_nil_r, Hpin.
  - destruct (lo_len _ _ _ Hl). eapply wp_mono; [|apply (wp_commit s A lbs); try done].
    2:{ unfold LOGSIZE, NBUF, MAXOPBLOCKS in *. lia. }
    intros _ s' (E & Hz & R). split; [done|]. split; [done|]. eexists. split; [exact R|].
    split; [|split; [by rewrite puts_held|split; [rewrite puts_disk; apply commit_header|
      split; [apply puts_writes|]]]].
    + rewrite puts_pin, Hpin. unfold commit_writes. cbn zeta.
      rewrite fmap_app, fmap_cons, fmap_app, home_fst. set_solver.
    + intros n Hout. rewrite puts_cur. by eapply commit_cur.
Qed.

Lemma wp_end_op_last s A lbs : log_inv s A lbs -> outstanding (lg s) = 1 -> ba_held A = ∅ ->
  wp end_op (fun _ s' => outstanding (lg s') = 0 /\ start (lg s') = start (lg s) /\
    lsize (lg s') = lsize (lg s) /\ c_size (cache s') = c_size (cache s) /\
    exists A', log_inv s' A' [] /\ ba_held A' = ∅ /\
      ba_writes A' = ba_writes A ++ trans_writes (lg s) lbs (ba_cur A) /\
      forall n, ~ in_log (lg s) n -> ba_cur A' n = ba_cur A n /\ ba_disk A' n = ba_cur A n) s.
Proof.
  intros [Hr Hl Hlk Hid Hout Hls Hpin Hem] Ho He.
  apply wp_bind, Lock.wp_acquire; [done|]. apply wp_bind, wp_gets. apply wp_bind.
  unfold end_crit. cbn [lg with_llock with_outstanding committing outstanding]. rewrite Hid, Ho.
  cbn [Z.sub Z.add Z.opp Z.pos_sub Z.eqb]. apply wp_bind, wp_modify, wp_ret.
  apply wp_bind, Lock.wp_release; [done|]. cbn [lg cache with_llock with_outstanding with_committing].
  set (s1 := mklst _ _). assert (log_ok (lg s1) (c_size (cache s1)) lbs) as Hl1 by (destruct Hl; by split).
  apply wp_bind. eapply wp_mono; [|by apply (wp_commit_any s1 A lbs)].
  intros _ s2 (E2 & Z2 & A' & R' & P' & Hh' & H0' & W' & C').
  apply wp_bind, Lock.wp_acquire; [by rewrite E2|]. apply wp_bind, wp_modify.
  apply Lock.wp_release; [done|]. cbn [lg cache]. rewrite E2. cbn.
  split; [done|]. split; [done|]. split; [done|]. split; [done|]. exists A'.
  split; [|split; [done|split; [exact W'|]]].
  - split; cbn; rewrite ?E2, ?P'; try done.
    rewrite Z2. apply log_ok_cleared in Hl1. destruct Hl1. by split.
  - intros n Hn. rewrite <- (C' n Hn). split; [done|]. symmetry. eapply c_clean_ok; [exact R'| |by apply held_none].
    rewrite P'. apply not_elem_of_empty.
Qed.

Lemma wp_end_op_more s A lbs : log_inv s A lbs -> 1 < outstanding (lg s) ->
  wp end_op (fun _ s' => s' = mklst (with_outstanding (outstanding (lg s) - 1) (lg s)) (cache s)) s.
Proof.
  intros [Hr Hl Hlk Hid Hout Hls Hpin Hem] Ho.
  apply wp_bind, Lock.wp_acquire; [done|]. apply wp_bind, wp_gets. apply wp_bind.
  unfold end_crit. cbn [lg with_llock with_outstanding committing outstanding]. rewrite Hid.
  rewrite (proj2 (Z.eqb_neq _ _)) by lia. apply wp_bind, wp_modify, wp_ret.
  apply wp_bind, Lock.wp_release; [done|]. apply wp_ret. cbn.
  destruct s as [[] c]. cbn in *. by subst.
Qed.

End Rules.
