(* ===== verification/LogTheorems.v ===== *)
(** * The buffer cache and the log: theorems

    The refinement of [bio.c], the atomicity of a transaction under crashes,
    the idempotence of recovery, and the reservation of log space by
    concurrent operations. *)

From stdpp Require Import base tactics numbers gmap strings list sets fin_maps.
From Stdlib Require Import ZArith Lia.
From S2P Require Import Prelude Mmu Memory Spinlock Sleeplock Ring Cache Bio BioFacts Log LogFacts.

(** ** The buffer cache *)

(** C13: the buffer cache refines a store of blocks.  [bread] of a block nobody
    holds returns a locked buffer with its current content: the buffer that
    caches the block, or else the least recently released clean buffer, filled
    from disk; it never panics while fewer than [NBUF] buffers are dirty or
    held.  [bwrite] writes the content to disk, and [brelse] makes the buffer
    the most recently used. *)
Theorem bcache_refines s A order : bio_rep s A order ->
  (forall n, 0 <= n < disksize s -> ~ is_held A n -> has_room A n ->
     wp (Bio.bread 1 n) (fun b s' => bio_rep s' (ba_hold b n A) order /\
       Bio.data (bufs s').[b] = ba_cur A n /\
       (caches (bufs s).[b] n \/
        (forall b', in_range b' -> ~ caches (bufs s).[b'] n) /\ lru s order b)) s) /\
  (forall b n, ba_held A !! b = Some n ->
     wp (Bio.bwrite b) (fun _ s' => bio_rep s' (ba_write n A) order) s) /\
  (forall b n, ba_held A !! b = Some n -> n ∈ ba_pin A \/ ba_cur A n = ba_disk A n ->
     wp (Bio.brelse b) (fun _ s' => exists l1 l2, order = l1 ++ b :: l2 /\
       bio_rep s' (ba_drop b A) (b :: l1 ++ l2)) s).
Proof.
  intros Hr. split; [|split].
  - intros n Hn Hno Hroom. eapply wp_mono; [|by eapply wp_bread].
    intros b s' (_ & Hr' & _ & Hwhich). split; [done|]. split; [|done].
    eapply (held_buf _ _ _ _ _ Hr'), lookup_insert_eq.
  - intros b n Hb. eapply wp_mono; [|by eapply wp_bwrite]. intros _ s' [H _]. done.
  - intros b n Hb Hc. eapply wp_mono; [|by eapply wp_brelse]. intros _ s' [H _]. done.
Qed.

(** ** Concurrent operations

    The critical sections of [begin_op], [end_op] and [log_write] run under
    [log.lock]; [ops] gives, for each process in an operation, how many
    blocks it has logged. *)

Record sys := mksys {
  sy_log : log;
  sy_ops : gmap Z Z
}.

Inductive lstep : sys -> sys -> Prop :=
  | lstep_begin p l l' ops : ops !! p = None -> begin_crit l = Some l' ->
      lstep (mksys l ops) (mksys l' (<[p := 0]> ops))
  | lstep_write p k bn l ops : ops !! p = Some k -> k < MAXOPBLOCKS ->
      lh_n l < LOGSIZE -> lh_n l < lsize l - 1 -> 1 <= outstanding l ->
      lstep (mksys l ops) (mksys (write_crit bn l) (<[p := k + 1]> ops))
  | lstep_end p k l l' d ops : ops !! p = Some k -> end_crit l = Some (l', d) ->
      lstep (mksys l ops) (mksys l' (delete p ops))
  | lstep_committed l ops : committing l = true ->
      lstep (mksys l ops) (mksys (with_committing false (with_lh_n 0 l)) ops).

(** [log_write] runs the critical section of the step, after its checks. *)
Section LogWrite.
Context {C : Type} `{BufCache C}.

Lemma log_scan_run bn n i (s : lst C) r s' :
  forn_exit n i (fun i => let* x := lh_get i in ret (if u32 x =? bn then Some i else None)) s = Ret r s' ->
  r = log_scan n i bn (lg s) /\ s' = s.
Proof.
  revert i. induction n as [|n IH]; intros i; cbn [forn_exit log_scan]; [by intros [= <- <-]|].
  intros (o & s1 & E1 & E)%bind_inv. apply bind_inv in E1 as (x & s2 & Ex & E1). unfold lh_get, aget in Ex.
  destruct (_ && _); [|done]. injection Ex as <- <-. injection E1 as <- <-. destruct (u32 _ =? bn); [by injection E as <- <-|by apply IH].
Qed.

Lemma log_scan_llock b n i bn l : log_scan n i bn (with_llock b l) = log_scan n i bn l.
Proof. revert i. induction n as [|n IH]; intros i; cbn; [done|]. by rewrite IH. Qed.

Lemma log_write_crit b (s : lst C) s' : log_write b s = Ret tt s' ->
  lh_n (lg s) < LOGSIZE /\ lh_n (lg s) < lsize (lg s) - 1 /\ 1 <= outstanding (lg s) /\ exists bn, lg s' = write_crit bn (lg s).
Proof.
  intros (l & s0 & [= <- <-] & E)%bind_inv. destruct ((LOGSIZE <=? _) || _) eqn:Eg; [done|]. destruct (outstanding (lg s) <? 1) eqn:Eo; [done|].
  apply orb_false_iff in Eg as [Eg1 Eg2]. bprop. split; [lia|]. split; [lia|]. split; [lia|].
  apply bind_inv in E as (? & s1 & E1 & E). unfold lk_acquire, Lock.acquire in E1. destruct (llock (lg s)) eqn:Hl; [done|]. injection E1 as _ <-.
  apply bind_inv in E as (bn & s2 & E2 & E). exists bn. unfold zoom in E2. destruct (c_blockno b _) as [n c| | |]; try done. injection E2 as -> <-.
  apply bind_inv in E as (o & s3 & E3 & E). unfold for_exit in E3. rewrite Z.sub_0_r in E3. apply log_scan_run in E3 as [Er ->].
  cbn [lg lset cache_lens] in Er. rewrite log_scan_llock in Er. subst o.
  apply bind_inv in E as (? & s4 & E4 & E). unfold lh_set, aset in E4. destruct (_ && _); [|done]. injection E4 as _ <-.
  apply bind_inv in E as (? & s5 & E5 & E). apply bind_inv in E as (? & s6 & E6 & E). unfold zoom in E6.
  destruct (c_set_dirty b _) as [n' c'| | |]; try done. injection E6 as _ <-.
  unfold lk_release, Lock.release in E. case_match; [|done]. injection E as <-. cbn. unfold write_crit. destruct (lg s) as [lo st sz ou co de hn bl]. cbn in *. subst lo.
  revert E5. destruct (_ =? hn); intros E5; injection E5 as _ <-; reflexivity.
Qed.
End LogWrite.

(** The blocks the running operations may still log. *)
Definition reserved (ops : gmap Z Z) : Z := map_fold (fun _ k acc => (MAXOPBLOCKS - k) + acc) 0 ops.

Definition sys_inv (s : sys) : Prop :=
  outstanding (sy_log s) = Z.of_nat (size (sy_ops s)) /\
  (committing (sy_log s) = true -> sy_ops s = ∅) /\
  (forall p k, sy_ops s !! p = Some k -> 0 <= k <= MAXOPBLOCKS) /\
  0 <= lh_n (sy_log s) /\ lh_n (sy_log s) + reserved (sy_ops s) <= LOGSIZE.

Lemma reserved_insert ops p k : ops !! p = None ->
  reserved (<[p := k]> ops) = (MAXOPBLOCKS - k) + reserved ops.
Proof.
  intros Hp. unfold reserved. rewrite map_fold_insert_L; [done| |done]. intros. lia.
Qed.

Lemma reserved_delete ops p k : ops !! p = Some k ->
  reserved ops = (MAXOPBLOCKS - k) + reserved (delete p ops).
Proof.
  intros Hp. rewrite <- (insert_delete_id ops p k) at 1 by done.
  apply reserved_insert, lookup_delete_eq.
Qed.

Lemma reserved_le ops : (forall p k, ops !! p = Some k -> 0 <= k <= MAXOPBLOCKS) ->
  0 <= reserved ops <= MAXOPBLOCKS * Z.of_nat (size ops).
Proof.
  induction ops as [|p k ops Hp IH] using map_ind; intros Hk.
  - unfold reserved. rewrite map_fold_empty, map_size_empty. lia.
  - rewrite reserved_insert, map_size_insert_None by done.
    pose proof (Hk p k (lookup_insert_eq _ _ _)).
    assert (0 <= reserved ops <= MAXOPBLOCKS * Z.of_nat (size ops)); [|unfold MAXOPBLOCKS in *; lia].
    apply IH. intros q j Hq. apply (Hk q j). rewrite lookup_insert_ne; [done|]. intros ->. congruence.
Qed.

Lemma sys_inv_step s s' : lstep s s' -> sys_inv s -> sys_inv s'.
Proof.
  intros Hstep (Hout & Hcom & Hk & Hn & Hres). destruct Hstep as
    [p l l' ops Hp Hb|p k bn l ops Hp Hkm Hl1 Hl2 Ho|p k l l' d ops Hp He|l ops Hc];
    unfold sys_inv; cbn in *.
  - unfold begin_crit in Hb. destruct (committing l) eqn:Ec; [done|].
    destruct (Z.ltb_spec LOGSIZE (lh_n l + (outstanding l + 1) * MAXOPBLOCKS)); [done|].
    injection Hb as <-. cbn. rewrite Ec, map_size_insert_None, reserved_insert by done.
    pose proof (reserved_le ops Hk). split; [lia|]. split; [done|].
    split; [|unfold MAXOPBLOCKS in *; lia].
    intros q j [[_ <-]|[_ Hq]]%lookup_insert_Some; [unfold MAXOPBLOCKS; lia|by eapply Hk].
  - destruct (Hk p k Hp). rewrite map_size_insert_Some by eauto.
    assert (reserved (<[p := k + 1]> ops) = reserved ops - 1) as ->.
    { rewrite (reserved_delete ops p k Hp), (reserved_delete (<[p := k + 1]> ops) p (k + 1))
        by apply lookup_insert_eq. rewrite delete_insert_eq. lia. }
    assert (outstanding (write_crit bn l) = outstanding l /\ committing (write_crit bn l) = committing l /\
      lh_n l <= lh_n (write_crit bn l) <= lh_n l + 1) as (-> & -> & Hw) by (unfold write_crit; destruct (_ =? lh_n _); cbn; split_and!; done || lia).
    split; [done|]. split; [intros E; rewrite (Hcom E) in Hp; by rewrite lookup_empty in Hp|].
    split; [|lia].
    intros q j [[_ <-]|[_ Hq]]%lookup_insert_Some; [lia|by eapply Hk].
  - unfold end_crit in He. cbn in He. destruct (committing l) eqn:Ec; [done|].
    pose proof (reserved_delete ops p k Hp) as Hr. destruct (Hk p k Hp).
    assert (0 < size ops)%nat as Hs.
    { destruct (size ops) eqn:E; [|lia]. apply map_size_empty_inv in E. by rewrite E, lookup_empty in Hp. }
    assert (size (delete p ops) = pred (size ops)) as Hsz by (rewrite map_size_delete; by rewrite Hp).
    split; [|split; [|split]].
    + destruct (Z.eqb_spec (outstanding l - 1) 0); simplify_eq; cbn; lia.
    + destruct (Z.eqb_spec (outstanding l - 1) 0); simplify_eq; cbn; [|by rewrite Ec].
      intros _. apply map_size_empty_inv. lia.
    + intros q j [_ Hq]%lookup_delete_Some. by eapply Hk.
    + destruct (Z.eqb_spec (outstanding l - 1) 0); simplify_eq; cbn; lia.
  - rewrite Hc in Hcom. specialize (Hcom eq_refl) as ->. split; [done|]. split; [done|].
    split; [done|]. unfold reserved in *. rewrite map_fold_empty in *. lia.
Qed.

(** The state in which no operation runs and nothing is logged. *)
Definition idle (s : sys) : Prop :=
  outstanding (sy_log s) = 0 /\ committing (sy_log s) = false /\ lh_n (sy_log s) = 0 /\ sy_ops s = ∅.

(** C12: [begin_op]'s reservation and [end_op]'s decision to commit are right
    under every interleaving of operations that log at most [MAXOPBLOCKS]
    blocks each: [log.outstanding] counts the running operations, no operation
    runs while a commit does (so [end_op] never panics), and a running
    operation that has not used its blocks finds the header below [LOGSIZE]. *)
Theorem log_space_reserved s s' : idle s -> rtc lstep s s' ->
  outstanding (sy_log s') = Z.of_nat (size (sy_ops s')) /\
  (committing (sy_log s') = true -> sy_ops s' = ∅) /\
  (forall p k, sy_ops s' !! p = Some k ->
     is_Some (end_crit (sy_log s')) /\ (k < MAXOPBLOCKS -> lh_n (sy_log s') < LOGSIZE)) /\
  0 <= lh_n (sy_log s') <= LOGSIZE.
Proof.
  intros (H1 & H2 & H3 & H4) Hr. assert (sys_inv s') as (Hout & Hcom & Hk & Hn & Hres).
  { assert (sys_inv s) as Hs.
    { unfold sys_inv. rewrite H1, H2, H3, H4. split; [done|]. split; [done|]. split; [done|]. done. }
    clear H1 H2 H3 H4. induction Hr; [done|]. by apply IHHr, (sys_inv_step x). }
  pose proof (reserved_le _ Hk). split; [done|]. split; [done|]. split; [|lia].
  intros p k Hp. split.
  - unfold end_crit. cbn. destruct (committing (sy_log s')); [|by destruct (_ =? _)].
    rewrite Hcom in Hp by done. by rewrite lookup_empty in Hp.
  - intros Hlt. rewrite (reserved_delete _ p k Hp) in Hres.
    assert (0 <= reserved (delete p (sy_ops s'))); [|lia]. apply reserved_le.
    intros q j [_ Hq]%lookup_delete_Some. by eapply Hk.
Qed.

(** An operation logs block 40. *)
Definition log0 (sz : Z) : log := mklog false 2 sz 0 false 1 0 ∅.
Definition log1 : log := write_crit 40 (with_outstanding 1 (log0 30)).

Lemma log_space_reserved_witness : outstanding log1 = Z.of_nat (size (<[7 := 1]> (∅ : gmap Z Z))) /\ is_Some (end_crit log1).
Proof.
  destruct (log_space_reserved (mksys (log0 30) ∅) (mksys log1 (<[7 := 1]> (<[7 := 0]> ∅)))) as (H1 & _ & H3 & _).
  - repeat split; reflexivity.
  - eapply rtc_l; [apply (lstep_begin 7 _ (with_outstanding 1 (log0 30))); reflexivity|].
    eapply rtc_l; [apply (lstep_write 7 0 40); reflexivity || (cbn; lia)|]. apply rtc_refl.
  - split; [reflexivity|]. apply (H3 7 1). reflexivity.
Defined.

(** ** Transactions and crashes *)

Section Crash.
Context {C : Type} `{BufCache C}.

(** A machine that has just booted on the disk [d]: an empty cache, and the
    log's fields set from the superblock. *)
Record rebooted (s : lst C) (sz st n : Z) (d : Z -> memory) (A0 : blocks) : Prop := {
  rb_rep : c_rep (cache s) A0;
  rb_pin : ba_pin A0 = ∅;
  rb_held : ba_held A0 = ∅;
  rb_disk : forall b, ba_disk A0 b = d b;
  rb_sz : c_size (cache s) = sz;
  rb_geo : geometry (lg s) sz;
  rb_start : start (lg s) = st;
  rb_size : lsize (lg s) = n
}.

(** After recovery every block outside the log has content [v], in the cache
    and on disk, and the log is empty. *)
Definition restored (s : lst C) (st n : Z) (v : Z -> memory) : Prop :=
  lh_n (lg s) = 0 /\ exists A, c_rep (cache s) A /\ ba_pin A = ∅ /\ hd_n (ba_disk A st) = 0 /\
  forall b, ~ (st <= b < st + n) -> ba_cur A b = v b /\ ba_disk A b = v b.

(** Recovery computes [recovered]. *)
Lemma recover_restores s sz st n d A0 l v : rebooted s sz st n d A0 ->
  start l = st -> lsize l = n -> recovers_to l sz v d ->
  wp recover_from_log (fun _ s' => restored s' st n v) s.
Proof.
  intros [Hr Hp Hh Hd Hsz Hg Hst Hn] El En [Hv Hrec].
  assert (forall b, ba_cur A0 b = d b) as Hc.
  { intros b. rewrite <- Hd. eapply c_clean_ok; [exact Hr| |by apply held_none].
    rewrite Hp. apply not_elem_of_empty. }
  eapply wp_mono; [|apply (wp_recover s A0); try done].
  2:{ by rewrite Hsz. }
  2:{ rewrite Hsz, Hc, Hst, <- El. unfold valid_hdr, in_log in *. by rewrite Hst, Hn, <- El, <- En. }
  intros _ s' (_ & Est & _ & Hn0 & _ & _ & _ & _ & R). split; [done|]. eexists. split; [exact R|].
  rewrite Hst in *. set (ws := recover_writes st (ba_cur A0)) in *.
  assert (ba_pin (puts ws A0) = ∅) as Hp' by (rewrite puts_pin, Hp; set_solver).
  assert (forall b, ba_cur (puts ws A0) b = ba_disk (puts ws A0) b) as Hcd.
  { intros b. eapply c_clean_ok; [exact R|rewrite Hp'; apply not_elem_of_empty|].
    apply held_none. by rewrite puts_held. }
  split; [done|]. split.
  { rewrite puts_disk. unfold ws, recover_writes. rewrite apply_app. cbn. rewrite fupd_eq. apply hd_n_clear. }
  intros b Hb. rewrite <- Hcd, puts_cur. cut (apply_writes ws (ba_cur A0) b = v b); [done|].
  rewrite <- Hrec by (unfold in_log; by rewrite El, En). rewrite El. unfold ws, recover_writes, recovered.
  rewrite apply_app. cbn. assert (1 <= n) by (rewrite <- Hn; apply Hg).
  rewrite fupd_ne by lia. rewrite Hc.
  replace (inst_writes st (hd_list (d st)) (ba_cur A0)) with (inst_writes st (hd_list (d st)) d).
  - by apply apply_ext.
  - unfold inst_writes. apply imap_ext. intros i x _. by rewrite Hc.
Qed.

(** C11: a transaction is atomic.  The [end_op] of the last running operation
    installs every logged block; and if the machine crashes after any prefix
    of its disk writes and boots again, [recover_from_log] restores every
    block outside the log to its content before the transaction, when the
    header had not been written, and to its content after it otherwise. *)
Theorem transaction_atomic s A lbs : log_inv s A lbs -> outstanding (lg s) = 1 -> ba_held A = ∅ ->
  wp end_op (fun _ s' => exists A' ws, log_inv s' A' [] /\ ba_writes A' = ba_writes A ++ ws /\
    (forall b, ~ in_log (lg s) b -> ba_cur A' b = ba_cur A b /\ ba_disk A' b = ba_cur A b) /\
    forall k r A0,
      rebooted r (c_size (cache s)) (start (lg s)) (lsize (lg s)) (apply_writes (take k ws) (ba_disk A)) A0 ->
      wp recover_from_log (fun _ r' => restored r' (start (lg s)) (lsize (lg s))
        (if decide (k <= length lbs)%nat then ba_disk A else ba_cur A)) r) s.
Proof.
  intros Hi Ho Hh. eapply wp_mono; [|by apply (wp_end_op_last s A lbs)].
  intros _ s' (_ & _ & _ & _ & A' & Hi' & _ & Hw & Hd).
  exists A', (trans_writes (lg s) lbs (ba_cur A)). split; [done|]. split; [done|]. split; [done|].
  intros k r A0 Hb. eapply (recover_restores r); [exact Hb|done..|].
  pose proof (li_ok _ _ _ Hi) as Hok.
  assert (forall n, n ∉ lbs -> ba_cur A n = ba_disk A n) as Hcl.
  { intros n Hn. eapply c_clean_ok; [apply Hi| |by apply held_none].
    rewrite (li_pin _ _ _ Hi). by rewrite elem_of_list_to_set. }
  unfold trans_writes. destruct (decide (lbs = [])) as [Hnil|Hnil].
  - rewrite take_nil. apply (recovers_empty _ _ lbs); [done|apply Hi|]. intros n Hn. subst lbs. cbn.
    case_decide; [done|]. symmetry. apply Hcl, not_elem_of_nil.
  - apply commit_crash; [done| |apply Hi]. intros n _. apply Hcl.
Qed.

(** Recovery can itself be interrupted.  On a disk whose header a commit
    can have written, [recover_from_log] installs the blocks the header names
    from the log; and a crash after any prefix of its disk writes, followed by
    another recovery, gives the same contents. *)
Theorem recovery_idempotent s sz st n d A0 : rebooted s sz st n d A0 -> valid_hdr (lg s) sz (d st) ->
  wp recover_from_log (fun _ s' => restored s' st n (recovered st d)) s /\
  forall k r A1, rebooted r sz st n (apply_writes (take k (recover_writes st d)) d) A1 ->
    wp recover_from_log (fun _ r' => restored r' st n (recovered st d)) r.
Proof.
  intros Hb Hv. pose proof Hb as [_ _ _ _ _ Hg Hst Hn]. rewrite <- Hst in Hv. split.
  - eapply (recover_restores s); [exact Hb|done..|]. split; [done|]. intros b _. by rewrite Hst.
  - intros k r A1 Hr. eapply (recover_restores r); [exact Hr|exact Hst|exact Hn|].
    rewrite <- Hst. by apply recover_crash.
Qed.

(** [log_write] adds the block of a held buffer to the transaction once,
    and pins it in the cache until the transaction commits; and it panics when
    the transaction already has as many blocks as the log on disk has room
    for. *)
Theorem log_write_correct s A lbs b n : log_inv s A lbs -> ba_held A !! b = Some n ->
  0 <= n < c_size (cache s) -> ~ in_log (lg s) n -> 1 <= outstanding (lg s) ->
  if decide (Z.of_nat (length lbs) < lsize (lg s) - 1)
  then wp (log_write b) (fun _ s' => log_inv s' (ba_dirty n A) (absorb n lbs)) s
  else log_write b s = Panic "too big a transaction" s.
Proof.
  intros Hi Hb Hn Hnl Ho. pose proof (lo_n _ _ _ (li_ok _ _ _ Hi)) as En. case_decide as Hlen.
  - eapply wp_mono; [|apply (wp_log_write s A lbs b n); done || lia]. intros _ s' (H1 & _). done.
  - unfold log_write, bind, gets. rewrite (proj2 (Z.leb_le (lsize (lg s) - 1) _)) by lia.
    by rewrite orb_true_r.
Qed.

(** With a log of [LOGSIZE] blocks, which is what [mkfs.c] makes, [begin_op]
    admits three operations of [MAXOPBLOCKS] blocks each, 30 in all, but the
    header takes 29: the last [log_write] of a full load panics. *)
Lemma log_reservation_exceeds_log :
  exists l1 l2 l3, begin_crit (log0 LOGSIZE) = Some l1 /\ begin_crit l1 = Some l2 /\
    begin_crit l2 = Some l3 /\
    forall b (s : lst C), lg s = with_lh_n (3 * MAXOPBLOCKS - 1) l3 ->
      log_write b s = Panic "too big a transaction" s.
Proof.
  do 3 eexists. split; [reflexivity|]. split; [reflexivity|]. split; [reflexivity|].
  intros b s E. unfold log_write, bind, gets. by rewrite E.
Qed.

End Crash.

(** ** A small machine

    A disk of 100 blocks with the log in blocks 2 to 31; one operation has
    logged block 50. *)

Section Demo.

Definition demo_disk : arr memory := <[50 := <[0 := 1]> ∅]> ∅.
Definition demo_data : memory := <[0 := 2]> ∅.
Definition demo_boot (md : arr memory) : lst bst := mklst (log0 30) (boot_bst false 100 md [] 1).

Definition demo_open : M (lst bst) Z :=
  zoom cache_lens binit ;;;
  begin_op ;;;
  Log.bread 1 50.

Definition demo_run : M (lst bst) unit :=
  let* b := demo_open in
  Log.set_data b demo_data ;;;
  log_write b ;;;
  Log.brelse b.

Definition run {S A} (c : M S A) (s : S) : S := match c s with Ret _ s' => s' | _ => s end.

Definition demo_ready (md : arr memory) : lst bst := run (zoom cache_lens binit) (demo_boot md).
Definition demo_hold : lst bst := run demo_open (demo_boot demo_disk).
Definition demo : lst bst := run demo_run (demo_boot demo_disk).

Definition demo_blocks (md : arr memory) (cur : Z -> memory) (pin : gset Z) : blocks :=
  mkblocks cur (asel md) pin ∅ [].

Lemma run_wp {S A} (c : M S A) P s : wp c P s -> exists a, P a (run c s).
Proof. intros (a & s' & E & H)%wp_inv. unfold run. rewrite E. by exists a. Qed.

Lemma demo_binit md : wp (zoom cache_lens binit) (fun _ s' => lg s' = log0 30 /\
  c_size (cache s') = 100 /\ c_rep (cache s') (demo_blocks md (asel md) ∅)) (demo_boot md).
Proof.
  apply wp_zoom. eapply wp_mono; [|apply (wp_binit false 100 md [] 1); lia].
  intros _ s' (Hr & Hsz & _). split; [done|]. split; [exact Hsz|]. by eexists.
Qed.

Lemma log0_ok : log_ok (log0 30) 100 [].
Proof.
  split; cbn; try done; try lia.
  - intros x []%not_elem_of_nil.
  - apply NoDup_nil_2.
Qed.

Lemma demo_open_wp : wp demo_open (fun b s => 
  log_inv s (ba_hold b 50 (demo_blocks demo_disk (asel demo_disk) ∅)) [] /\
  outstanding (lg s) = 1 /\ start (lg s) = 2 /\ lsize (lg s) = 30 /\ c_size (cache s) = 100)
  (demo_boot demo_disk).
Proof.
  apply wp_bind. eapply wp_mono; [|apply demo_binit].
  intros _ s1 (E1 & Z1 & R1). set (A0 := demo_blocks demo_disk (asel demo_disk) ∅) in *.
  apply wp_bind. eapply wp_of_eq; [apply begin_op_eq; rewrite E1; cbn; try done|].
  rewrite E1. set (s2 := mklst _ _).
  assert (log_inv s2 A0 []) as I2.
  { split; [exact R1| |done..]. change (c_size (cache s2)) with (c_size (cache s1)). rewrite Z1.
    destruct log0_ok; by split. }
  eapply (lwp_bread s2 A0); [apply I2|change (c_size (cache s2)) with (c_size (cache s1)); lia| | |].
  { by apply held_none. } { by right. }
  intros b s3 [K3 Z3] Hb R3. rewrite K3, Z3. split; [|done].
  destruct I2. split; rewrite ?K3, ?Z3; done.
Qed.

Lemma demo_hold_inv : exists b,
  log_inv demo_hold (ba_hold b 50 (demo_blocks demo_disk (asel demo_disk) ∅)) [] /\
  outstanding (lg demo_hold) = 1 /\ start (lg demo_hold) = 2 /\ lsize (lg demo_hold) = 30 /\
  c_size (cache demo_hold) = 100.
Proof. exact (run_wp _ _ _ demo_open_wp). Qed.

Lemma demo_inv : log_inv demo (demo_blocks demo_disk (fupd (asel demo_disk) 50 demo_data) {[50]}) [50] /\
  outstanding (lg demo) = 1.
Proof.
  unfold demo. assert (wp demo_run (fun _ s =>
    log_inv s (demo_blocks demo_disk (fupd (asel demo_disk) 50 demo_data) {[50]}) [50] /\
    outstanding (lg s) = 1) (demo_boot demo_disk)) as H; [|by apply run_wp in H as [_ H]].
  apply wp_bind. eapply wp_mono; [|apply demo_open_wp]. intros b s3 (I3 & O3 & S3 & L3 & Z3).
  set (A3 := ba_hold b 50 _) in *.
  assert (ba_held A3 !! b = Some 50) as H3 by apply lookup_insert_eq.
  apply wp_bind. eapply lwp_set_data; [apply I3|exact H3|]. intros s4 [K4 Z4] R4.
  assert (log_inv s4 (ba_set 50 demo_data A3) []) as I4.
  { destruct I3. split; rewrite ?K4, ?Z4; done. }
  apply wp_bind. eapply wp_mono; [|apply (wp_log_write s4 _ [] b 50 I4 H3)]; rewrite ?K4, ?Z4.
  2:{ lia. } 2:{ unfold in_log. lia. } 2:{ lia. }
  2:{ rewrite (lo_n _ _ _ (li_ok _ _ _ I3)), L3. done. }
  intros _ s5 (I5 & O5 & S5 & L5 & Z5).
  eapply lwp_brelse; [apply I5|exact H3|left; cbn; set_solver|]. intros s6 [K6 Z6] R6.
  rewrite K6, O5, O3. split; [|done].
  destruct I5 as [? Hok Hl Hid Ho Hls Hp He]. split; rewrite ?K6, ?Z6; try done.
  eapply rep_equiv; [exact R6|]. repeat split; cbn; try done; try set_solver.
  rewrite delete_insert_id; [done|]. apply lookup_empty.
Qed.

(** The machine after a reboot. *)
Lemma demo_rebooted md : rebooted (demo_ready md) 100 2 30 (asel md) (demo_blocks md (asel md) ∅).
Proof.
  unfold demo_ready. destruct (run_wp _ _ _ (demo_binit md)) as [_ (E & Z & R)].
  split; [exact R|done|done|done|exact Z| |by rewrite E|by rewrite E].
  rewrite E. repeat split; cbn; lia.
Qed.

#[local] Opaque demo_ready demo_hold demo.

Lemma demo_binit_rep md : exists order, bio_rep (cache (demo_ready md)) (demo_blocks md (asel md) ∅) order.
Proof. apply (rb_rep _ _ _ _ _ _ (demo_rebooted md)). Qed.

(** A disk on which a crash left the committed block 50 in the log only. *)
Definition crash_disk : arr memory :=
  <[2 := set_hd_block 0 50 (set_hd_n 1 ∅)]> (<[3 := demo_data]> demo_disk).

Lemma transaction_atomic_witness :
  let A := demo_blocks demo_disk (fupd (asel demo_disk) 50 demo_data) {[50]} in
  wp end_op (fun _ s' => exists A' ws, log_inv s' A' [] /\ ba_writes A' = ba_writes A ++ ws /\
    (forall b, ~ in_log (lg demo) b -> ba_cur A' b = ba_cur A b /\ ba_disk A' b = ba_cur A b) /\
    forall k r A0,
      rebooted r (c_size (cache demo)) (start (lg demo)) (lsize (lg demo))
        (apply_writes (take k ws) (ba_disk A)) A0 ->
      wp recover_from_log (fun _ r' => restored r' (start (lg demo)) (lsize (lg demo))
        (if decide (k <= length [50])%nat then ba_disk A else ba_cur A)) r) demo.
Proof.
  destruct demo_inv as [Hi Ho]. apply (transaction_atomic demo _ [50] Hi Ho). reflexivity.
Defined.

Lemma recovery_idempotent_witness :
  let d := asel crash_disk in
  recovered 2 d 50 = demo_data /\
  wp recover_from_log (fun _ s' => restored s' 2 30 (recovered 2 d)) (demo_ready crash_disk) /\
  forall k r A1, rebooted r 100 2 30 (apply_writes (take k (recover_writes 2 d)) d) A1 ->
    wp recover_from_log (fun _ r' => restored r' 2 30 (recovered 2 d)) r.
Proof.
  intros d. split; [vm_compute; reflexivity|].
  apply (recovery_idempotent _ _ _ _ _ _ (demo_rebooted crash_disk)).
  pose proof (rb_start _ _ _ _ _ _ (demo_rebooted crash_disk)) as Hs.
  pose proof (rb_size _ _ _ _ _ _ (demo_rebooted crash_disk)) as Hn.
  unfold valid_hdr. rewrite Hn. unfold in_log. rewrite Hs, Hn.
  change (hd_list (asel crash_disk 2)) with [50]. change (hd_n (asel crash_disk 2)) with 1.
  unfold LOGSIZE, MAXOPBLOCKS. split; [lia|]. split; [lia|]. split; [apply NoDup_singleton|].
  intros x ->%list_elem_of_singleton. lia.
Defined.

Lemma log_write_correct_witness : exists b A, ba_held A !! b = Some 50 /\
  wp (log_write b) (fun _ s' => log_inv s' (ba_dirty 50 A) [50]) demo_hold.
Proof.
  destruct demo_hold_inv as (b & I & O & St & L & Sz).
  set (A := ba_hold b 50 _) in *. exists b, A. split; [apply lookup_insert_eq|].
  pose proof (log_write_correct demo_hold A [] b 50 I (lookup_insert_eq _ _ _)) as H.
  rewrite Sz, L, O in H. rewrite decide_True in H by (cbn; lia). apply H; [lia| |lia].
  unfold in_log. rewrite St, L. lia.
Defined.

Lemma bcache_refines_witness :
  wp (Bio.bread 1 50) (fun b s' => Bio.data (bufs s').[b] = demo_disk.[50]) (cache (demo_ready demo_disk)).
Proof.
  destruct (demo_binit_rep demo_disk) as [order Hr].
  destruct (bcache_refines _ _ _ Hr) as [H _].
  eapply wp_mono; [|apply (H 50)].
  - intros b s' (_ & Hd & _). exact Hd.
  - pose proof (rb_sz _ _ _ _ _ _ (demo_rebooted demo_disk)) as Hz. cbn in Hz. rewrite Hz. lia.
  - intros [b Hb]. discriminate Hb.
  - right. reflexivity.
Defined.

End Demo.
