(* ===== verification/Store.v ===== *)
(** * The interface of transactions

    What [log.c] promises to the file system: inside [begin_op]/[end_op] the
    disk is a store of blocks.  A block is changed through a buffer that is
    then handed to [log_write]; a buffer whose change has not been logged must
    not be released.  A transaction may log a bounded number of blocks.  The
    class [TxStore] states this contract and [log_store] discharges it for
    the model of [log.c] over any buffer cache. *)

From stdpp Require Import base tactics numbers gmap strings list sets fin_maps.
From Stdlib Require Import ZArith Lia.
From S2P Require Import Prelude Mmu Memory Spinlock Cache Log LogFacts.

(** The blocks [lo] to [hi - 1], the buffers held (with the block, and whether
    its content is logged), the blocks logged so far, and how many may be. *)
Record store := mkstore {
  st_cur : Z -> memory;
  st_held : gmap Z (Z * bool);
  st_logs : gset Z;
  st_cap : Z;
  st_lo : Z;
  st_hi : Z
}.

Definition st_hold (b n : Z) (T : store) : store :=
  mkstore (st_cur T) (<[b := (n, true)]> (st_held T)) (st_logs T) (st_cap T) (st_lo T) (st_hi T).
Definition st_drop (b : Z) (T : store) : store :=
  mkstore (st_cur T) (delete b (st_held T)) (st_logs T) (st_cap T) (st_lo T) (st_hi T).
Definition st_put (b n : Z) (d : memory) (T : store) : store :=
  mkstore (fupd (st_cur T) n d) (<[b := (n, false)]> (st_held T)) (st_logs T) (st_cap T) (st_lo T) (st_hi T).
Definition st_log (b n : Z) (T : store) : store :=
  mkstore (st_cur T) (<[b := (n, true)]> (st_held T)) ({[n]} ∪ st_logs T) (st_cap T) (st_lo T) (st_hi T).

(** Some buffer holds block [n]. *)
Definition st_holds (T : store) (n : Z) : Prop := exists b c, st_held T !! b = Some (n, c).

(** Views that agree on every block. *)
#[global] Instance store_equiv : Equiv store := fun T U =>
  (forall n, st_cur T n = st_cur U n) /\ st_held T = st_held U /\ st_logs T = st_logs U /\
  st_cap T = st_cap U /\ st_lo T = st_lo U /\ st_hi T = st_hi U.

#[global] Instance store_equivalence : Equivalence (≡@{store}).
Proof.
  split.
  - intros T. by repeat split.
  - intros T U (? & ? & ? & ? & ? & ?). repeat split; done.
  - intros T U W (H1 & H2 & H3 & H4 & H5 & H6) (G1 & G2 & G3 & G4 & G5 & G6).
    split; [intros n; by rewrite H1|]. repeat split; congruence.
Qed.

Class TxStore (S : Type) := {
  t_bread : Z -> Z -> M S Z;
  t_data : Z -> M S memory;
  t_set_data : Z -> memory -> M S unit;
  t_log_write : Z -> M S unit;
  t_brelse : Z -> M S unit;
  t_begin : M S unit;
  t_end : M S unit;

  (** inside a transaction, and between transactions *)
  t_rep : S -> store -> Prop;
  t_idle : S -> (Z -> memory) -> Z -> Z -> Prop;

  t_rep_proper : Proper ((=) ==> (≡) ==> iff) t_rep;
  t_bread_ok : forall s T n, t_rep s T -> st_lo T <= n < st_hi T -> ~ st_holds T n ->
    Z.of_nat (size (st_held T)) + st_cap T < NBUF ->
    wp (t_bread 1 n) (fun b s' => st_held T !! b = None /\ t_rep s' (st_hold b n T)) s;
  t_data_ok : forall s T b n c, t_rep s T -> st_held T !! b = Some (n, c) ->
    t_data b s = Ret (st_cur T n) s;
  t_set_data_ok : forall s T b n c d, t_rep s T -> st_held T !! b = Some (n, c) ->
    wp (t_set_data b d) (fun _ s' => t_rep s' (st_put b n d T)) s;
  t_log_write_ok : forall s T b n c, t_rep s T -> st_held T !! b = Some (n, c) ->
    Z.of_nat (size ({[n]} ∪ st_logs T)) <= st_cap T ->
    wp (t_log_write b) (fun _ s' => t_rep s' (st_log b n T)) s;
  t_brelse_ok : forall s T b n, t_rep s T -> st_held T !! b = Some (n, true) ->
    wp (t_brelse b) (fun _ s' => t_rep s' (st_drop b T)) s;
  t_begin_ok : forall s cur lo hi, t_idle s cur lo hi ->
    wp t_begin (fun _ s' => t_rep s' (mkstore cur ∅ ∅ MAXOPBLOCKS lo hi)) s;
  (** outside a transaction blocks can be read *)
  t_open_ok : forall s cur lo hi, t_idle s cur lo hi -> t_rep s (mkstore cur ∅ ∅ 0 lo hi);
  t_close_ok : forall s T, t_rep s T -> st_held T = ∅ -> st_cap T = 0 ->
    t_idle s (st_cur T) (st_lo T) (st_hi T);
  t_end_ok : forall s T, t_rep s T -> st_held T = ∅ -> 0 < st_cap T ->
    wp t_end (fun _ s' => t_idle s' (st_cur T) (st_lo T) (st_hi T)) s
}.

#[global] Existing Instance t_rep_proper.

(** ** The log implements it *)

Section LogStore.
Context {C : Type} `{BufCache C}.

(** The blocks of the file system lie after the log. *)
Definition fs_region (s : lst C) (lo hi : Z) : Prop :=
  0 <= lo /\ start (lg s) + lsize (lg s) <= lo /\ hi <= c_size (cache s).

Record tx_in (s : lst C) (T : store) (A : blocks) (lbs : list Z) : Prop := {
  tx_inv : log_inv s A lbs;
  tx_out : outstanding (lg s) = 1 /\ st_cap T = MAXOPBLOCKS \/ outstanding (lg s) = 0 /\ st_cap T = 0;
  tx_size : MAXOPBLOCKS + 1 < lsize (lg s);
  tx_region : fs_region s (st_lo T) (st_hi T);
  tx_cur : forall n, st_lo T <= n < st_hi T -> ba_cur A n = st_cur T n;
  tx_held : ba_held A = fst <$> st_held T;
  tx_clean : forall b n, st_held T !! b = Some (n, true) -> n ∈ ba_pin A \/ ba_cur A n = ba_disk A n;
  tx_home : forall b n c, st_held T !! b = Some (n, c) -> st_lo T <= n < st_hi T;
  tx_inj : forall b b' n c c', st_held T !! b = Some (n, c) -> st_held T !! b' = Some (n, c') -> b = b';
  tx_logs : list_to_set lbs = st_logs T;
  tx_cap : Z.of_nat (size (st_logs T)) <= st_cap T
}.

Definition tx_rep (s : lst C) (T : store) : Prop := exists A lbs, tx_in s T A lbs.

Definition tx_idle (s : lst C) (cur : Z -> memory) (lo hi : Z) : Prop :=
  exists A, log_inv s A [] /\ outstanding (lg s) = 0 /\ ba_held A = ∅ /\ fs_region s lo hi /\
    MAXOPBLOCKS + 1 < lsize (lg s) /\ forall n, lo <= n < hi -> ba_cur A n = cur n.

#[global] Instance tx_rep_proper : Proper ((=) ==> (≡) ==> iff) tx_rep.
Proof.
  assert (forall s T U, T ≡ U -> tx_rep s T -> tx_rep s U) as Himp.
  { intros s T U (E1 & E2 & E3 & E4 & E5 & E6) (A & lbs & []). exists A, lbs.
    split; rewrite <- ?E2, <- ?E3, <- ?E4, <- ?E5, <- ?E6; try done. intros n Hn. rewrite <- E1. auto. }
  intros s ? <- T U HTU. split; apply Himp; [done|by symmetry].
Qed.

Lemma held_lookup s T A lbs b n c : tx_in s T A lbs -> st_held T !! b = Some (n, c) ->
  ba_held A !! b = Some n.
Proof. intros Ht Hb. by rewrite (tx_held _ _ _ _ Ht), lookup_fmap, Hb. Qed.

(** A home block is outside the log. *)
Lemma region_home s lo hi n : fs_region s lo hi -> lo <= n < hi ->
  0 <= n < c_size (cache s) /\ ~ in_log (lg s) n.
Proof. unfold fs_region, in_log. lia. Qed.

Lemma log_inv_kept s s' A A' lbs : log_inv s A lbs -> kept s s' -> c_rep (cache s') A' ->
  ba_pin A' = ba_pin A -> ba_disk A' = ba_disk A -> log_inv s' A' lbs.
Proof.
  intros [] [K1 K2] Hr Hp Hd. split; rewrite ?K1, ?K2, ?Hp, ?Hd; done.
Qed.

(** No block is held twice. *)
Definition held_inj (h : gmap Z (Z * bool)) : Prop :=
  forall b b' n c c', h !! b = Some (n, c) -> h !! b' = Some (n, c') -> b = b'.

Lemma held_inj_new h b n c : (forall b' c', h !! b' <> Some (n, c')) -> held_inj h ->
  held_inj (<[b := (n, c)]> h).
Proof.
  intros Hno Hi b1 b2 m c1 c2 [[E1 F1]|[E1 F1]]%lookup_insert_Some [[E2 F2]|[E2 F2]]%lookup_insert_Some;
    simplify_eq; try done; [by destruct (Hno b2 c2)|by destruct (Hno b1 c1)|by eapply Hi].
Qed.

Lemma held_inj_set h b n c c' : h !! b = Some (n, c) -> held_inj h -> held_inj (<[b := (n, c')]> h).
Proof.
  intros Hb Hi b1 b2 m c1 c2 [[E1 F1]|[E1 F1]]%lookup_insert_Some [[E2 F2]|[E2 F2]]%lookup_insert_Some;
    simplify_eq; try done; by eapply Hi.
Qed.

Lemma tx_bread s T n : tx_rep s T -> st_lo T <= n < st_hi T -> ~ st_holds T n ->
  Z.of_nat (size (st_held T)) + st_cap T < NBUF ->
  wp (Log.bread 1 n) (fun b s' => st_held T !! b = None /\ tx_rep s' (st_hold b n T)) s.
Proof.
  intros (A & lbs & Ht) Hn Hno Hroom. pose proof Ht as [Hi Ho Hsz0 Hreg Hcur Hheld Hcl Hhome Hinj Hlogs Hcap].
  destruct (region_home _ _ _ n Hreg Hn) as [Hns Hnl].
  assert (~ is_held A n) as Hnh.
  { intros [b Hb]. rewrite Hheld, lookup_fmap in Hb. destruct (st_held T !! b) as [[m c]|] eqn:E; [|done].
    cbn in Hb. injection Hb as ->. apply Hno. by exists b, c. }
  eapply lwp_bread; [apply Hi|done|done| |].
  { right. rewrite (li_pin _ _ _ Hi), Hlogs, Hheld, map_size_fmap. lia. }
  intros b s' K Hb R. assert (st_held T !! b = None) as Hb'.
  { rewrite Hheld, lookup_fmap in Hb. by destruct (st_held T !! b). }
  split; [done|]. exists (ba_hold b n A), lbs. pose proof K as [K1 K2].
  split; rewrite ?K1; cbn; try done.
  - by eapply log_inv_kept.
  - unfold fs_region in *. by rewrite K1, K2.
  - by rewrite Hheld, fmap_insert.
  - intros b' m [[_ E]|[_ E]]%lookup_insert_Some; [injection E as <-|by eapply Hcl].
    destruct (decide (n ∈ ba_pin A)) as [Hp|Hp]; [by left|right]. by eapply c_clean_ok; [apply Hi|..].
  - intros b' m c [[_ E]|[_ E]]%lookup_insert_Some; [by injection E as <- <-|by eapply Hhome].
  - apply held_inj_new; [|done]. intros b' c' E. apply Hno. by exists b', c'.
Qed.

Lemma tx_set_data s T b n c d : tx_rep s T -> st_held T !! b = Some (n, c) ->
  wp (Log.set_data b d) (fun _ s' => tx_rep s' (st_put b n d T)) s.
Proof.
  intros (A & lbs & Ht) Hb. pose proof Ht as [Hi Ho Hsz0 Hreg Hcur Hheld Hcl Hhome Hinj Hlogs Hcap].
  pose proof (held_lookup _ _ _ _ _ _ _ Ht Hb) as Hh.
  eapply lwp_set_data; [apply Hi|exact Hh|]. intros s' K R. exists (ba_set n d A), lbs.
  pose proof K as [K1 K2].
  split; rewrite ?K1; cbn; try done.
  - by eapply log_inv_kept.
  - unfold fs_region in *. by rewrite K1, K2.
  - intros m Hm. unfold fupd. case_decide; auto.
  - rewrite Hheld, fmap_insert. symmetry. apply insert_id. by rewrite lookup_fmap, Hb.
  - intros b' m [[_ E]|[Hne E]]%lookup_insert_Some; [done|]. rewrite fupd_ne; [by eapply Hcl|].
    intros ->. apply Hne. by eapply Hinj.
  - intros b' m c' [[_ E]|[_ E]]%lookup_insert_Some; [injection E as <- <-|]; by eapply Hhome.
  - by apply held_inj_set with c.
Qed.

Lemma tx_log_write s T b n c : tx_rep s T -> st_held T !! b = Some (n, c) ->
    Z.of_nat (size ({[n]} ∪ st_logs T)) <= st_cap T ->
  wp (log_write b) (fun _ s' => tx_rep s' (st_log b n T)) s.
Proof.
  intros (A & lbs & Ht) Hb Hc1. pose proof Ht as [Hi Ho Hsz0 Hreg Hcur Hheld Hcl Hhome Hinj Hlogs Hcap].
  pose proof (held_lookup _ _ _ _ _ _ _ Ht Hb) as Hh.
  destruct (region_home _ _ _ n Hreg (Hhome _ _ _ Hb)) as [Hns Hnl].
  assert (outstanding (lg s) = 1 /\ st_cap T = MAXOPBLOCKS) as [Ho1 Hc2].
  { destruct Ho as [|[_ E]]; [done|]. rewrite E in Hc1.
    pose proof (subseteq_size {[n]} ({[n]} ∪ st_logs T) ltac:(set_solver)) as Hle. rewrite size_singleton in Hle. lia. }
  eapply wp_mono; [|apply (wp_log_write s A lbs b n); try done; try lia].
  2:{ rewrite (lo_n _ _ _ (li_ok _ _ _ Hi)).
      rewrite <- (size_list_to_set (C := gset Z)) by apply Hi. rewrite Hlogs. lia. }
  intros _ s' (Hi' & Ho' & Hst & Hls & Hsz). exists (ba_dirty n A), (absorb n lbs).
  split; rewrite ?Ho', ?Hls; cbn; try done.
  - unfold fs_region in *. by rewrite Hst, Hls, Hsz.
  - rewrite Hheld, fmap_insert. symmetry. apply insert_id. by rewrite lookup_fmap, Hb.
  - intros b' m [[_ E]|[_ E]]%lookup_insert_Some; [injection E as <-; left; set_solver|].
    destruct (Hcl b' m E); [left; set_solver|by right].
  - intros b' m c' [[_ E]|[_ E]]%lookup_insert_Some; [injection E as <- <-|]; by eapply Hhome.
  - by apply held_inj_set with c.
  - unfold absorb. case_decide; [set_solver|]. rewrite list_to_set_app_L. set_solver.
Qed.

Lemma tx_brelse s T b n : tx_rep s T -> st_held T !! b = Some (n, true) ->
  wp (Log.brelse b) (fun _ s' => tx_rep s' (st_drop b T)) s.
Proof.
  intros (A & lbs & Ht) Hb. pose proof Ht as [Hi Ho Hsz0 Hreg Hcur Hheld Hcl Hhome Hinj Hlogs Hcap].
  pose proof (held_lookup _ _ _ _ _ _ _ Ht Hb) as Hh.
  eapply lwp_brelse; [apply Hi|exact Hh|by eapply Hcl|]. intros s' K R.
  exists (ba_drop b A), lbs. pose proof K as [K1 K2].
  split; rewrite ?K1; cbn; try done.
  - by eapply log_inv_kept.
  - unfold fs_region in *. by rewrite K1, K2.
  - by rewrite Hheld, fmap_delete.
  - intros b' m [_ E]%lookup_delete_Some. by eapply Hcl.
  - intros b' m c' [_ E]%lookup_delete_Some. by eapply Hhome.
  - intros b1 b2 m c1 c2 [_ E1]%lookup_delete_Some [_ E2]%lookup_delete_Some. by eapply Hinj.
Qed.

Lemma tx_begin s cur lo hi : tx_idle s cur lo hi ->
  wp begin_op (fun _ s' => tx_rep s' (mkstore cur ∅ ∅ MAXOPBLOCKS lo hi)) s.
Proof.
  intros (A & Hi & Ho & Hh & Hreg & Hls & Hcur). pose proof (lo_n _ _ _ (li_ok _ _ _ Hi)) as En.
  eapply wp_of_eq; [apply begin_op_eq; [apply Hi|apply Hi|rewrite En, Ho; done]|].
  exists A, []. split; cbn; try done.
  - apply log_inv_outstanding; [done|lia].
  - left. by rewrite Ho.
Qed.

Lemma tx_open s cur lo hi : tx_idle s cur lo hi -> tx_rep s (mkstore cur ∅ ∅ 0 lo hi).
Proof.
  intros (A & Hi & Ho & Hh & Hreg & Hls & Hcur). exists A, []. split; cbn; try done. by right.
Qed.

Lemma tx_close s T : tx_rep s T -> st_held T = ∅ -> st_cap T = 0 -> tx_idle s (st_cur T) (st_lo T) (st_hi T).
Proof.
  intros (A & lbs & Ht) He Hc. pose proof Ht as [Hi Ho Hsz0 Hreg Hcur Hheld Hcl Hhome Hinj Hlogs Hcap].
  rewrite He, fmap_empty in Hheld. destruct Ho as [[_ E]|[Ho _]]; [by rewrite Hc in E|].
  assert (lbs = []) as ->.
  { rewrite <- Hlogs, size_list_to_set, Hc in Hcap by apply Hi. destruct lbs; [done|cbn in Hcap; lia]. }
  by exists A.
Qed.

Lemma tx_end s T : tx_rep s T -> st_held T = ∅ -> 0 < st_cap T ->
  wp end_op (fun _ s' => tx_idle s' (st_cur T) (st_lo T) (st_hi T)) s.
Proof.
  intros (A & lbs & Ht) He Hc. pose proof Ht as [Hi Ho Hsz0 Hreg Hcur Hheld Hcl Hhome Hinj Hlogs Hcap].
  rewrite He, fmap_empty in Hheld. destruct Ho as [[Ho _]|[_ E]]; [|lia].
  eapply wp_mono; [|by apply (wp_end_op_last s A lbs)].
  intros _ s' (Ho' & Hst & Hls & Hsz & A' & Hi' & Hh' & _ & Hd). exists A'.
  split; [done|]. split; [done|]. split; [done|].
  split; [unfold fs_region in *; by rewrite Hst, Hls, Hsz|]. split; [rewrite Hls; apply Hsz0|].
  intros n Hn. destruct (region_home _ _ _ n Hreg Hn) as [_ Hnl]. rewrite <- Hcur by done. by apply Hd.
Qed.

(** The model of [log.c] implements the interface. *)
#[global] Program Instance log_store : TxStore (lst C) := {
  t_bread := Log.bread;
  t_data := Log.data;
  t_set_data := Log.set_data;
  t_log_write := log_write;
  t_brelse := Log.brelse;
  t_begin := begin_op;
  t_end := end_op;
  t_rep := tx_rep;
  t_idle := tx_idle;
  t_bread_ok := tx_bread;
  t_set_data_ok := tx_set_data;
  t_log_write_ok := tx_log_write;
  t_brelse_ok := tx_brelse;
  t_begin_ok := tx_begin;
  t_open_ok := tx_open;
  t_close_ok := tx_close;
  t_end_ok := tx_end
}.
Next Obligation.
  intros s T b n c (A & lbs & Ht) Hb. pose proof (held_lookup _ _ _ _ _ _ _ Ht Hb) as Hh.
  unfold Log.data, zoom. cbn. erewrite c_data_ok; [|apply Ht|exact Hh].
  rewrite (tx_cur _ _ _ _ Ht) by (by eapply tx_home). by destruct s.
Qed.

End LogStore.
