(* ===== verification/Fs.v ===== *)
(** * The file system ([fs.c], [fs.h], [file.h], [stat.h])

    Translated over the interface of transactions.  A block's content is a
    byte map indexed from 0; an in-memory inode is named by its index in
    [icache.inode].  Buffers that C passes as pointers ([dst] and [src] of
    [readi] and [writei], the path, a [struct dirent]) are lists of bytes: the
    bytes copied out are the result, the bytes copied in an argument.  The
    functions in [devsw] are parameters. *)

From stdpp Require Import base tactics numbers gmap strings list sets.
From Stdlib Require Import ZArith Lia.
From S2P Require Import Prelude Mmu Memory Spinlock Sleeplock Cache Log Store.

(** ** [fs.h], [stat.h], [param.h] *)

Definition ROOTINO : Z := 1.
Definition ROOTDEV : Z := 1.
Definition NDIRECT : Z := 12.
Definition NINDIRECT : Z := BSIZE / 4.
Definition MAXFILE : Z := NDIRECT + NINDIRECT.
Definition DINODE_SIZE : Z := 64.
Definition IPB : Z := BSIZE / DINODE_SIZE.
Definition BPB : Z := BSIZE * 8.
Definition DIRSIZ : Z := 14.
Definition DIRENT_SIZE : Z := 16.
Definition T_DIR : Z := 1.
Definition T_FILE : Z := 2.
Definition T_DEV : Z := 3.

Definition IBLOCK (i : Z) (sb : superblock) : Z := u32 (i / IPB + sb_inodestart sb).
Definition BBLOCK (b : Z) (sb : superblock) : Z := u32 (b / BPB + sb_bmapstart sb).

(** Two-byte accesses. *)
Definition load16 (m : memory) (a : Z) : Z := load8 m a + 256 * load8 m (a + 1).
Definition store16 (m : memory) (a v : Z) : memory := store8 (store8 m a v) (a + 1) (v / 256).

(** [struct inode] *)
Record inode := mkinode {
  i_dev : Z;
  i_inum : Z;
  i_ref : Z;
  i_lock : sleeplock;
  i_valid : bool;
  i_type : Z;
  i_major : Z;
  i_minor : Z;
  i_nlink : Z;
  i_size : Z;
  i_addrs : arr Z
}.

#[global] Instance czero_inode : CZero inode := mkinode 0 0 0 (mksl false 0) false 0 0 0 0 0 ∅.

Definition with_ref (r : Z) (ip : inode) : inode :=
  mkinode (i_dev ip) (i_inum ip) r (i_lock ip) (i_valid ip) (i_type ip) (i_major ip) (i_minor ip)
    (i_nlink ip) (i_size ip) (i_addrs ip).
Definition with_ilock (l : sleeplock) (ip : inode) : inode :=
  mkinode (i_dev ip) (i_inum ip) (i_ref ip) l (i_valid ip) (i_type ip) (i_major ip) (i_minor ip)
    (i_nlink ip) (i_size ip) (i_addrs ip).
Definition with_valid (v : bool) (ip : inode) : inode :=
  mkinode (i_dev ip) (i_inum ip) (i_ref ip) (i_lock ip) v (i_type ip) (i_major ip) (i_minor ip)
    (i_nlink ip) (i_size ip) (i_addrs ip).
Definition with_type (t : Z) (ip : inode) : inode :=
  mkinode (i_dev ip) (i_inum ip) (i_ref ip) (i_lock ip) (i_valid ip) t (i_major ip) (i_minor ip)
    (i_nlink ip) (i_size ip) (i_addrs ip).
Definition with_devnum (ma mi : Z) (ip : inode) : inode :=
  mkinode (i_dev ip) (i_inum ip) (i_ref ip) (i_lock ip) (i_valid ip) (i_type ip) ma mi
    (i_nlink ip) (i_size ip) (i_addrs ip).
Definition with_nlink (n : Z) (ip : inode) : inode :=
  mkinode (i_dev ip) (i_inum ip) (i_ref ip) (i_lock ip) (i_valid ip) (i_type ip) (i_major ip) (i_minor ip)
    n (i_size ip) (i_addrs ip).
Definition with_size (n : Z) (ip : inode) : inode :=
  mkinode (i_dev ip) (i_inum ip) (i_ref ip) (i_lock ip) (i_valid ip) (i_type ip) (i_major ip) (i_minor ip)
    (i_nlink ip) n (i_addrs ip).
Definition with_addrs (a : arr Z) (ip : inode) : inode :=
  mkinode (i_dev ip) (i_inum ip) (i_ref ip) (i_lock ip) (i_valid ip) (i_type ip) (i_major ip) (i_minor ip)
    (i_nlink ip) (i_size ip) a.

(** [struct dinode] in a block, at byte offset [o]: five words and the
    addresses. *)
Definition dinode_off (inum : Z) : Z := inum mod IPB * DINODE_SIZE.
Definition dip_type (d : memory) (o : Z) : Z := i16 (load16 d o).

Definition load_addrs (d : memory) (o : Z) : arr Z :=
  list_to_map ((fun k => (k, load32 d (o + 12 + 4 * k))) <$> seqZ 0 (NDIRECT + 1)).

Definition store_addrs (a : arr Z) (d : memory) (o : Z) : memory :=
  foldl (fun d k => store32 d (o + 12 + 4 * k) a.[k]) d (seqZ 0 (NDIRECT + 1)).

(** The copies [iupdate] and [ilock] make. *)
Definition dinode_put (ip : inode) (d : memory) (o : Z) : memory :=
  let d := store16 d o (i_type ip) in
  let d := store16 d (o + 2) (i_major ip) in
  let d := store16 d (o + 4) (i_minor ip) in
  let d := store16 d (o + 6) (i_nlink ip) in
  let d := store32 d (o + 8) (i_size ip) in
  store_addrs (i_addrs ip) d o.

Definition dinode_get (ip : inode) (d : memory) (o : Z) : inode :=
  mkinode (i_dev ip) (i_inum ip) (i_ref ip) (i_lock ip) (i_valid ip)
    (i16 (load16 d o)) (i16 (load16 d (o + 2))) (i16 (load16 d (o + 4))) (i16 (load16 d (o + 6)))
    (load32 d (o + 8)) (load_addrs d o).

(** [struct stat] *)
Record stat := mkstat {
  st_type : Z;
  st_dev : Z;
  st_ino : Z;
  st_nlink : Z;
  st_size : Z
}.

(** Bytes [o], [o+1], ... of a block. *)
Definition get_bytes (d : memory) (o n : Z) : list Z := (fun k => load8 d (o + k)) <$> seqZ 0 n.

Fixpoint put_bytes (d : memory) (o : Z) (l : list Z) : memory :=
  match l with
  | [] => d
  | x :: l' => put_bytes (store8 d o x) (o + 1) l'
  end.

(** [struct dirent] in its 16 bytes. *)
Definition de_inum (de : list Z) : Z := nth 0 de 0 + 256 * nth 1 de 0.
Definition de_name (de : list Z) : list Z := drop 2 de.

(** [strncmp] and [strncpy] on strings that are lists: the end is the NUL. *)
Fixpoint strncmp_l (n : nat) (p q : list Z) : Z :=
  match n with
  | O => 0
  | S n' =>
      let a := nth 0 p 0 in let b := nth 0 q 0 in
      if negb (a =? 0) && (a =? b) then strncmp_l n' (tail p) (tail q) else a - b
  end.

Fixpoint strncpy_l (n : nat) (t : list Z) : list Z :=
  match n with
  | O => []
  | S n' => if nth 0 t 0 =? 0 then replicate n 0 else nth 0 t 0 :: strncpy_l n' (tail t)
  end.

Definition namecmp (s t : list Z) : Z := strncmp_l (Z.to_nat DIRSIZ) s t.

Definition mk_dirent (inum : Z) (name : list Z) : list Z :=
  [u8 inum; u8 (inum / 256)] ++ strncpy_l (Z.to_nat DIRSIZ) name.

(** ** Path elements *)

Definition SLASH : Z := 47.

Fixpoint skip_slashes (path : list Z) : list Z :=
  match path with
  | c :: p => if c =? SLASH then skip_slashes p else path
  | [] => []
  end.

(** The element at the front of a path, and what follows it. *)
Fixpoint span_elem (path : list Z) : list Z * list Z :=
  match path with
  | c :: p => if c =? SLASH then ([], path) else let '(s, r) := span_elem p in (c :: s, r)
  | [] => ([], [])
  end.

(** [skipelem]: the name (its first [DIRSIZ] bytes) and the rest of the path,
    or nothing if there is no element. *)
Definition skipelem (path : list Z) : option (list Z * list Z) :=
  let path := skip_slashes path in
  match path with
  | [] => None
  | _ => let '(s, r) := span_elem path in
         Some (if DIRSIZ <=? Z.of_nat (length s) then take (Z.to_nat DIRSIZ) s else s, skip_slashes r)
  end.

Section Ops.
Context {S : Type} `{TxStore S}.

(** The superblock, [icache], the disk below, and the running process. *)
Record fsst := mkfs {
  sb : superblock;
  iclock : bool;
  inodes : arr inode;
  disk : S;
  mypid : Z;
  cwd : Z
}.

Definition set_iclock (b : bool) (s : fsst) : fsst :=
  mkfs (sb s) b (inodes s) (disk s) (mypid s) (cwd s).
Definition set_inodes (a : arr inode) (s : fsst) : fsst :=
  mkfs (sb s) (iclock s) a (disk s) (mypid s) (cwd s).
Definition disk_lens : lens fsst S :=
  mklens disk (fun d s => mkfs (sb s) (iclock s) (inodes s) d (mypid s) (cwd s)).

Definition ic_acquire : M fsst unit := Lock.acquire iclock set_iclock.
Definition ic_release : M fsst unit := Lock.release iclock set_iclock.

Definition bread (d n : Z) : M fsst Z := zoom disk_lens (t_bread d n).
Definition data (b : Z) : M fsst memory := zoom disk_lens (t_data b).
Definition set_data (b : Z) (d : memory) : M fsst unit := zoom disk_lens (t_set_data b d).
Definition log_write (b : Z) : M fsst unit := zoom disk_lens (t_log_write b).
Definition brelse (b : Z) : M fsst unit := zoom disk_lens (t_brelse b).
Definition begin_op : M fsst unit := zoom disk_lens t_begin.
Definition end_op : M fsst unit := zoom disk_lens t_end.

Definition get_inode (ip : Z) : M fsst inode := aget NINODE inodes ip.
Definition put_inode (ip : Z) (x : inode) : M fsst unit :=
  aset NINODE (fun f s => set_inodes (f (inodes s)) s) ip x.
Definition upd_inode (ip : Z) (f : inode -> inode) : M fsst unit :=
  let* x := get_inode ip in put_inode ip (f x).

(** ** Blocks *)

Definition bzero (dev bno : Z) : M fsst unit :=
  let* bp := bread dev bno in
  let* d := data bp in
  set_data bp (StringC.memset d 0 0 BSIZE) ;;;
  log_write bp ;;;
  brelse bp.

(** The inner loop of [balloc]: the bits of one bitmap block. *)
Definition balloc_bit (dev b bp bi : Z) : M fsst (option Z) :=
  let m := Z.shiftl 1 (bi mod 8) in
  let* d := data bp in
  if Z.land (load8 d (bi / 8)) m =? 0 then
    set_data bp (store8 d (bi / 8) (Z.lor (load8 d (bi / 8)) m)) ;;;
    log_write bp ;;;
    brelse bp ;;;
    bzero dev (b + bi) ;;;
    ret (Some (b + bi))
  else ret None.

Definition balloc_block (dev k : Z) : M fsst (option Z) :=
  let b := k * BPB in
  let* sb := gets sb in
  let* bp := bread dev (BBLOCK b sb) in
  let* r := for_exit 0 (Z.min BPB (sb_size sb - b)) (balloc_bit dev b bp) in
  match r with
  | Some a => ret (Some a)
  | None => brelse bp ;;; ret None
  end.

Definition balloc (dev : Z) : M fsst Z :=
  let* sb := gets sb in
  let* r := for_exit 0 ((sb_size sb + BPB - 1) / BPB) (balloc_block dev) in
  match r with
  | Some a => ret a
  | None => panic "balloc: out of blocks"
  end.

Definition bfree (dev b : Z) : M fsst unit :=
  let* sb := gets sb in
  let* bp := bread dev (BBLOCK b sb) in
  let bi := b mod BPB in
  let m := Z.shiftl 1 (bi mod 8) in
  let* d := data bp in
  if Z.land (load8 d (bi / 8)) m =? 0 then panic "freeing free block" else
  set_data bp (store8 d (bi / 8) (Z.land (load8 d (bi / 8)) (Z.lnot m))) ;;;
  log_write bp ;;;
  brelse bp.

(** ** Inodes *)

(** [iinit]: the superblock is read with [readsb], which [Log.v] has. *)
Definition iinit (readsb : Z -> M fsst superblock) (dev : Z) : M fsst unit :=
  modify (set_iclock false) ;;;
  for_up 0 NINODE (fun i => upd_inode i (with_ilock Sleep.initsleeplock)) ;;;
  let* b := readsb dev in
  modify (fun s => mkfs b (iclock s) (inodes s) (disk s) (mypid s) (cwd s)).

(** The scan of [iget]: the entry found, or the first free one. *)
Definition iget_scan (dev inum : Z) : M fsst (Z + option Z) :=
  iter (Datatypes.S (Z.to_nat NINODE)) (fun '(i, empty) =>
    if negb (i <? NINODE) then ret (inr (inr empty)) else
    let* x := get_inode i in
    if (0 <? i_ref x) && (i_dev x =? dev) && (i_inum x =? inum) then ret (inr (inl i)) else
    ret (inl (i + 1, match empty with
                     | None => if i_ref x =? 0 then Some i else None
                     | e => e
                     end))) (0, None).

Definition iget (dev inum : Z) : M fsst Z :=
  ic_acquire ;;;
  let* r := iget_scan dev inum in
  match r with
  | inl ip =>
      upd_inode ip (fun x => with_ref (i_ref x + 1) x) ;;;
      ic_release ;;;
      ret ip
  | inr None => panic "iget: no inodes"
  | inr (Some ip) =>
      upd_inode ip (fun x => mkinode dev inum 1 (i_lock x) false (i_type x) (i_major x) (i_minor x)
                               (i_nlink x) (i_size x) (i_addrs x)) ;;;
      ic_release ;;;
      ret ip
  end.

Definition ialloc_step (dev type inum : Z) : M fsst (option Z) :=
  let* sb := gets sb in
  let* bp := bread dev (IBLOCK inum sb) in
  let* d := data bp in
  let o := dinode_off inum in
  if dip_type d o =? 0 then
    set_data bp (store16 (StringC.memset d o 0 DINODE_SIZE) o type) ;;;
    log_write bp ;;;
    brelse bp ;;;
    let* ip := iget dev inum in
    ret (Some ip)
  else
    brelse bp ;;; ret None.

Definition ialloc (dev type : Z) : M fsst Z :=
  let* sb := gets sb in
  let* r := for_exit 1 (sb_ninodes sb) (ialloc_step dev type) in
  match r with
  | Some ip => ret ip
  | None => panic "ialloc: no inodes"
  end.

Definition iupdate (ip : Z) : M fsst unit :=
  let* sb := gets sb in
  let* x := get_inode ip in
  let* bp := bread (i_dev x) (IBLOCK (i_inum x) sb) in
  let* d := data bp in
  set_data bp (dinode_put x d (dinode_off (i_inum x))) ;;;
  log_write bp ;;;
  brelse bp.

Definition idup (ip : Z) : M fsst Z :=
  ic_acquire ;;;
  upd_inode ip (fun x => with_ref (i_ref x + 1) x) ;;;
  ic_release ;;;
  ret ip.

Definition acquiresleep (ip : Z) : M fsst unit :=
  let* x := get_inode ip in
  let* me := gets mypid in
  match Sleep.acquiresleep me (i_lock x) with
  | None => fun _ => NoFuel
  | Some l => upd_inode ip (with_ilock l)
  end.

Definition releasesleep (ip : Z) : M fsst unit :=
  upd_inode ip (fun x => with_ilock (Sleep.releasesleep (i_lock x)) x).

Definition ilock (ip : Z) : M fsst unit :=
  let* x := get_inode ip in
  if i_ref x <? 1 then panic "ilock" else
  acquiresleep ip ;;;
  let* x := get_inode ip in
  when (negb (i_valid x)) (
    let* sb := gets sb in
    let* bp := bread (i_dev x) (IBLOCK (i_inum x) sb) in
    let* d := data bp in
    upd_inode ip (fun x => dinode_get x d (dinode_off (i_inum x))) ;;;
    brelse bp ;;;
    upd_inode ip (with_valid true) ;;;
    let* x := get_inode ip in
    when (i_type x =? 0) (panic "ilock: no type")).

Definition iunlock (ip : Z) : M fsst unit :=
  let* x := get_inode ip in
  let* me := gets mypid in
  if negb (Sleep.holdingsleep me (i_lock x)) || (i_ref x <? 1) then panic "iunlock" else
  releasesleep ip.

(** ** Inode content *)

Definition get_addr (ip k : Z) : M fsst Z :=
  let* x := get_inode ip in aget (NDIRECT + 1) (fun _ => i_addrs x) k.
Definition set_addr (ip k v : Z) : M fsst unit :=
  if (0 <=? k) && (k <? NDIRECT + 1) then
    upd_inode ip (fun x => with_addrs (<[k := v]> (i_addrs x)) x)
  else undef.

Definition bmap (ip bn : Z) : M fsst Z :=
  let* x := get_inode ip in
  if bn <? NDIRECT then
    let* addr := get_addr ip bn in
    if addr =? 0 then
      let* addr := balloc (i_dev x) in
      set_addr ip bn addr ;;;
      ret addr
    else ret addr
  else
  let bn := bn - NDIRECT in
  if bn <? NINDIRECT then
    let* addr := get_addr ip NDIRECT in
    let* addr := (if addr =? 0 then
                    let* addr := balloc (i_dev x) in
                    set_addr ip NDIRECT addr ;;;
                    ret addr
                  else ret addr) in
    let* bp := bread (i_dev x) addr in
    let* a := data bp in
    let addr := load32 a (4 * bn) in
    let* addr := (if addr =? 0 then
                    let* addr := balloc (i_dev x) in
                    let* a := data bp in
                    set_data bp (store32 a (4 * bn) addr) ;;;
                    log_write bp ;;;
                    ret addr
                  else ret addr) in
    brelse bp ;;;
    ret addr
  else panic "bmap: out of range".

Definition itrunc_direct (ip i : Z) : M fsst unit :=
  let* x := get_inode ip in
  let* addr := get_addr ip i in
  when (negb (addr =? 0)) (
    bfree (i_dev x) addr ;;;
    set_addr ip i 0).

Definition itrunc_indirect (dev bp j : Z) : M fsst unit :=
  let* a := data bp in
  when (negb (load32 a (4 * j) =? 0)) (bfree dev (load32 a (4 * j))).

Definition itrunc (ip : Z) : M fsst unit :=
  for_up 0 NDIRECT (itrunc_direct ip) ;;;
  let* x := get_inode ip in
  let* addr := get_addr ip NDIRECT in
  when (negb (addr =? 0)) (
    let* bp := bread (i_dev x) addr in
    for_up 0 NINDIRECT (itrunc_indirect (i_dev x) bp) ;;;
    brelse bp ;;;
    bfree (i_dev x) addr ;;;
    set_addr ip NDIRECT 0) ;;;
  upd_inode ip (with_size 0) ;;;
  iupdate ip.

Definition iput (ip : Z) : M fsst unit :=
  acquiresleep ip ;;;
  let* x := get_inode ip in
  when (i_valid x && (i_nlink x =? 0)) (
    ic_acquire ;;;
    let* x := get_inode ip in
    let r := i_ref x in
    ic_release ;;;
    when (r =? 1) (
      itrunc ip ;;;
      upd_inode ip (with_type 0) ;;;
      iupdate ip ;;;
      upd_inode ip (with_valid false))) ;;;
  releasesleep ip ;;;
  ic_acquire ;;;
  upd_inode ip (fun x => with_ref (i_ref x - 1) x) ;;;
  ic_release.

Definition iunlockput (ip : Z) : M fsst unit := iunlock ip ;;; iput ip.

Definition stati (ip : Z) : M fsst stat :=
  let* x := get_inode ip in
  ret (mkstat (i_type x) (i_dev x) (i_inum x) (i_nlink x) (i_size x)).

(** [devsw]: what a device returns, and the bytes it delivers. *)
Context (devread : Z -> option (Z -> Z -> M fsst (Z * list Z))).
Context (devwrite : Z -> option (Z -> list Z -> M fsst Z)).

Definition dev_entry {A} (sw : Z -> option A) (major : Z) : option A :=
  if (major <? 0) || (NDEV <=? major) then None else sw major.

(** One round of the copy loops of [readi] and [writei]. *)
Definition readi_step (ip n tot off : Z) : M fsst (Z * list Z) :=
  let* x := get_inode ip in
  let* a := bmap ip (off / BSIZE) in
  let* bp := bread (i_dev x) a in
  let m := Z.min (n - tot) (BSIZE - off mod BSIZE) in
  let* d := data bp in
  brelse bp ;;;
  ret (m, get_bytes d (off mod BSIZE) m).

Definition readi_loop (ip n off : Z) : M fsst (list Z) :=
  iter (Datatypes.S (Z.to_nat n)) (fun '(tot, off, acc) =>
    if negb (tot <? n) then ret (inr acc) else
    let* r := readi_step ip n tot off in
    ret (inl (tot + r.1, off + r.1, acc ++ r.2))) (0, off, []).

Definition readi (ip off n : Z) : M fsst (Z * list Z) :=
  let* x := get_inode ip in
  if i_type x =? T_DEV then
    match dev_entry devread (i_major x) with
    | None => ret (-1, [])
    | Some f => f ip n
    end
  else
  if (i_size x <? off) || (u32 (off + n) <? off) then ret (-1, []) else
  let n := if i_size x <? u32 (off + n) then i_size x - off else n in
  let* bytes := readi_loop ip n off in
  ret (n, bytes).

Definition writei_step (ip : Z) (src : list Z) (tot off : Z) : M fsst Z :=
  let* x := get_inode ip in
  let n := Z.of_nat (length src) in
  let* a := bmap ip (off / BSIZE) in
  let* bp := bread (i_dev x) a in
  let m := Z.min (n - tot) (BSIZE - off mod BSIZE) in
  let* d := data bp in
  set_data bp (put_bytes d (off mod BSIZE) (take (Z.to_nat m) (drop (Z.to_nat tot) src))) ;;;
  log_write bp ;;;
  brelse bp ;;;
  ret m.

Definition writei_loop (ip : Z) (src : list Z) (off : Z) : M fsst Z :=
  iter (Datatypes.S (length src)) (fun '(tot, off) =>
    if negb (tot <? Z.of_nat (length src)) then ret (inr off) else
    let* m := writei_step ip src tot off in
    ret (inl (tot + m, off + m))) (0, off).

Definition writei (ip : Z) (src : list Z) (off : Z) : M fsst Z :=
  let n := Z.of_nat (length src) in
  let* x := get_inode ip in
  if i_type x =? T_DEV then
    match dev_entry devwrite (i_major x) with
    | None => ret (-1)
    | Some f => f ip src
    end
  else
  if (i_size x <? off) || (u32 (off + n) <? off) then ret (-1) else
  if MAXFILE * BSIZE <? u32 (off + n) then ret (-1) else
  let* off := writei_loop ip src off in
  let* x := get_inode ip in
  when ((0 <? n) && (i_size x <? off)) (
    upd_inode ip (with_size off) ;;;
    iupdate ip) ;;;
  ret n.

(** ** Directories *)

(** The entry at [off], read whole. *)
Definition read_dirent (msg : string) (dp off : Z) : M fsst (list Z) :=
  let* r := readi dp off DIRENT_SIZE in
  if negb (r.1 =? DIRENT_SIZE) then panic msg else ret r.2.

Definition dirlookup (dp : Z) (name : list Z) : M fsst (option (Z * Z)) :=
  let* x := get_inode dp in
  if negb (i_type x =? T_DIR) then panic "dirlookup not DIR" else
  for_exit 0 ((i_size x + DIRENT_SIZE - 1) / DIRENT_SIZE) (fun k =>
    let off := k * DIRENT_SIZE in
    let* de := read_dirent "dirlookup read" dp off in
    if de_inum de =? 0 then ret None else
    if namecmp name (de_name de) =? 0 then
      let* ip := iget (i_dev x) (de_inum de) in
      ret (Some (ip, off))
    else ret None).

Definition dirlink (dp : Z) (name : list Z) (inum : Z) : M fsst Z :=
  let* r := dirlookup dp name in
  match r with
  | Some (ip, _) => iput ip ;;; ret (-1)
  | None =>
      let* x := get_inode dp in
      let cnt := (i_size x + DIRENT_SIZE - 1) / DIRENT_SIZE in
      let* o := for_exit 0 cnt (fun k =>
                  let* de := read_dirent "dirlink read" dp (k * DIRENT_SIZE) in
                  ret (if de_inum de =? 0 then Some (k * DIRENT_SIZE) else None)) in
      let off := default (cnt * DIRENT_SIZE) o in
      let* w := writei dp (mk_dirent inum name) off in
      if negb (w =? DIRENT_SIZE) then panic "dirlink" else ret 0
  end.

(** ** Paths *)

(** [namex]: the inode, and the last name when the parent is asked for. *)
Definition namex (path : list Z) (parent : bool) : M fsst (option (Z * list Z)) :=
  let* ip := (match path with
              | c :: _ => if c =? SLASH then iget ROOTDEV ROOTINO else let* c := gets cwd in idup c
              | [] => let* c := gets cwd in idup c
              end) in
  iter (Datatypes.S (length path)) (fun '(ip, path, name) =>
    match skipelem path with
    | None => if parent : bool then iput ip ;;; ret (inr None) else ret (inr (Some (ip, name)))
    | Some (name, path) =>
        ilock ip ;;;
        let* x := get_inode ip in
        if negb (i_type x =? T_DIR) then iunlockput ip ;;; ret (inr None) else
        if parent && bool_decide (path = []) then iunlock ip ;;; ret (inr (Some (ip, name))) else
        let* r := dirlookup ip name in
        match r with
        | None => iunlockput ip ;;; ret (inr None)
        | Some (nxt, _) => iunlockput ip ;;; ret (inl (nxt, path, name))
        end
    end) (ip, path, []).

Definition namei (path : list Z) : M fsst (option Z) :=
  let* r := namex path false in ret (fst <$> r).

Definition nameiparent (path : list Z) : M fsst (option (Z * list Z)) := namex path true.

End Ops.

Arguments fsst : clear implicits.
