(* ===== verification/FsFacts.v ===== *)
(** * The file system: blocks and inodes

    Rules for the disk operations inside a transaction, and the
    specifications of [balloc], [bfree] and the inode cache. *)

From stdpp Require Import base tactics numbers gmap strings list sets.
From Stdlib Require Import ZArith Lia.
From S2P Require Import Prelude Mmu Memory Spinlock Sleeplock Cache Log LogFacts Store Fs.

(** ** The free map *)

(** The layout the superblock describes: inodes, then the free map, then data;
    [data_start] is the first data block. *)
Definition bmap_blocks (sb : superblock) : Z := sb_size sb / BPB + 1.
Definition data_start (sb : superblock) : Z := sb_bmapstart sb + bmap_blocks sb.

Record fs_geo (sb : superblock) (lo hi : Z) : Prop := {
  fg_lo : 0 < lo <= sb_inodestart sb;
  fg_inodes : 0 < sb_ninodes sb /\ sb_inodestart sb + sb_ninodes sb / IPB < sb_bmapstart sb;
  fg_data : data_start sb <= sb_size sb;
  fg_size : sb_size sb <= hi;
  fg_hi : hi < 2147483648
}.

Definition bit (b : Z) : Z := Z.shiftl 1 (b mod BPB mod 8).
Definition byte_of (b : Z) : Z := b mod BPB / 8.

(** Block [b] is marked in the free map. *)
Definition used (sb : superblock) (cur : Z -> memory) (b : Z) : bool :=
  negb (Z.land (load8 (cur (BBLOCK b sb)) (byte_of b)) (bit b) =? 0).

Definition mark (b : Z) (d : memory) : memory :=
  store8 d (byte_of b) (Z.lor (load8 d (byte_of b)) (bit b)).
Definition unmark (b : Z) (d : memory) : memory :=
  store8 d (byte_of b) (Z.land (load8 d (byte_of b)) (Z.lnot (bit b))).

Lemma BPB_eq : BPB = 4096.
Proof. done. Qed.

Lemma BBLOCK_eq sb lo hi b : fs_geo sb lo hi -> 0 <= b < sb_size sb ->
  BBLOCK b sb = b / BPB + sb_bmapstart sb /\ sb_bmapstart sb <= BBLOCK b sb < data_start sb.
Proof.
  intros [Hlo [Hi1 Hi2] Hd Hsz Hhi] Hb. unfold data_start, bmap_blocks in *.
  assert (0 < BPB) as HB by done.
  assert (0 <= b / BPB <= sb_size sb / BPB) as Hdiv.
  { split; [by apply Z.div_pos; lia|]. apply Z.div_le_mono; lia. }
  assert (0 <= sb_ninodes sb / IPB) by (apply Z.div_pos; [lia|done]).
  unfold BBLOCK. rewrite u32_small by lia. lia.
Qed.

Lemma land_bit x k : 0 <= k -> (Z.land x (Z.shiftl 1 k) =? 0) = negb (Z.testbit x k).
Proof.
  intros Hk. rewrite Z.shiftl_1_l. destruct (Z.testbit x k) eqn:E; cbn [negb].
  - apply Z.eqb_neq. intros H0. assert (Z.testbit (Z.land x (2 ^ k)) k = true) as Ht.
    { rewrite Z.land_spec, E, Z.pow2_bits_true by done. done. }
    by rewrite H0, Z.bits_0 in Ht.
  - apply Z.eqb_eq. apply Z.bits_inj'. intros j Hj. rewrite Z.land_spec, Z.bits_0.
    destruct (decide (j = k)) as [->|Hne]; [by rewrite E|].
    by rewrite Z.pow2_bits_false, andb_false_r by lia.
Qed.

Lemma bit_pos b : 0 <= b mod BPB mod 8 < 8.
Proof. apply Z.mod_pos_bound. lia. Qed.

Lemma used_testbit sb cur b :
  used sb cur b = Z.testbit (load8 (cur (BBLOCK b sb)) (byte_of b)) (b mod BPB mod 8).
Proof. unfold used, bit. rewrite land_bit by apply bit_pos. apply negb_involutive. Qed.

(** A byte with one bit set or cleared. *)
Lemma u8_testbit x k : 0 <= k < 8 -> Z.testbit (u8 x) k = Z.testbit x k.
Proof. intros Hk. unfold u8. change 256 with (2 ^ 8). apply Z.mod_pow2_bits_low. lia. Qed.

Lemma mark_testbit b d a k : 0 <= k < 8 ->
  Z.testbit (load8 (mark b d) a) k =
    (Z.testbit (load8 d a) k || bool_decide (a = byte_of b /\ k = b mod BPB mod 8)).
Proof.
  intros Hk. unfold mark. rewrite load8_store8. destruct (decide (byte_of b = a)) as [E|E].
  - subst a. rewrite u8_testbit, Z.lor_spec by done. f_equal. unfold bit.
    pose proof (bit_pos b). rewrite Z.shiftl_1_l.
    destruct (decide (k = b mod BPB mod 8)) as [->|Hne].
    + rewrite Z.pow2_bits_true by lia. symmetry. by apply bool_decide_eq_true.
    + rewrite Z.pow2_bits_false by lia. symmetry. apply bool_decide_eq_false. naive_solver.
  - rewrite bool_decide_eq_false_2 by naive_solver. by rewrite orb_false_r.
Qed.

Lemma unmark_testbit b d a k : 0 <= k < 8 ->
  Z.testbit (load8 (unmark b d) a) k =
    (Z.testbit (load8 d a) k && negb (bool_decide (a = byte_of b /\ k = b mod BPB mod 8))).
Proof.
  intros Hk. unfold unmark. rewrite load8_store8. destruct (decide (byte_of b = a)) as [E|E].
  - subst a. rewrite u8_testbit, Z.land_spec, Z.lnot_spec by lia. do 2 f_equal. unfold bit.
    pose proof (bit_pos b). rewrite Z.shiftl_1_l.
    destruct (decide (k = b mod BPB mod 8)) as [->|Hne].
    + rewrite Z.pow2_bits_true by lia. symmetry. by apply bool_decide_eq_true.
    + rewrite Z.pow2_bits_false by lia. symmetry. apply bool_decide_eq_false. naive_solver.
  - rewrite bool_decide_eq_false_2 by naive_solver. by rewrite andb_true_r.
Qed.

(** A bit of the free map belongs to one block. *)
Lemma same_bit sb lo hi b b' : fs_geo sb lo hi -> 0 <= b < sb_size sb -> 0 <= b' < sb_size sb ->
  BBLOCK b sb = BBLOCK b' sb -> byte_of b = byte_of b' -> b mod BPB mod 8 = b' mod BPB mod 8 -> b = b'.
Proof.
  intros Hg Hb Hb' E1 E2 E3. destruct (BBLOCK_eq _ _ _ _ Hg Hb) as [F1 _].
  destruct (BBLOCK_eq _ _ _ _ Hg Hb') as [F2 _]. unfold byte_of in E2. rewrite BPB_eq in *.
  Z.to_euclidean_division_equations. lia.
Qed.

Section FreeMap.
Context (sb : superblock) (lo hi : Z) (Hg : fs_geo sb lo hi).

Lemma used_mark cur b b' : 0 <= b < sb_size sb -> 0 <= b' < sb_size sb ->
  used sb (fupd cur (BBLOCK b sb) (mark b (cur (BBLOCK b sb)))) b' = (used sb cur b' || (b' =? b)).
Proof.
  intros Hb Hb'. rewrite !used_testbit. unfold fupd. case_decide as E.
  - rewrite mark_testbit by apply bit_pos. rewrite <- E. f_equal.
    destruct (Z.eqb_spec b' b) as [->|Hne]; [by apply bool_decide_eq_true|].
    apply bool_decide_eq_false. intros [E1 E2]. apply Hne. by eapply same_bit.
  - destruct (Z.eqb_spec b' b) as [->|Hne]; [done|]. by rewrite orb_false_r.
Qed.

Lemma used_unmark cur b b' : 0 <= b < sb_size sb -> 0 <= b' < sb_size sb ->
  used sb (fupd cur (BBLOCK b sb) (unmark b (cur (BBLOCK b sb)))) b' = (used sb cur b' && negb (b' =? b)).
Proof.
  intros Hb Hb'. rewrite !used_testbit. unfold fupd. case_decide as E.
  - rewrite unmark_testbit by apply bit_pos. rewrite <- E. do 2 f_equal.
    destruct (Z.eqb_spec b' b) as [->|Hne]; [by apply bool_decide_eq_true|].
    apply bool_decide_eq_false. intros [E1 E2]. apply Hne. by eapply same_bit.
  - destruct (Z.eqb_spec b' b) as [->|Hne]; [done|]. by rewrite andb_true_r.
Qed.

(** The free map does not depend on data blocks. *)
Lemma used_ext cur cur' b : 0 <= b < sb_size sb ->
  cur' (BBLOCK b sb) = cur (BBLOCK b sb) -> used sb cur' b = used sb cur b.
Proof. intros Hb E. unfold used. by rewrite E. Qed.

End FreeMap.

(** ** Disk operations *)

(** Block [n] gets content [v] and is logged. *)
Definition st_upd (n : Z) (v : memory) (T : store) : store :=
  mkstore (fupd (st_cur T) n v) (st_held T) ({[n]} ∪ st_logs T) (st_cap T) (st_lo T) (st_hi T).

Section Rules.
Context {S : Type} `{TxStore S}.
Implicit Types (s : fsst S) (T : store) (d : S).

Definition with_disk d s : fsst S := lset disk_lens d s.

(** Block [n] can be read now. *)
Definition readable T (n : Z) : Prop :=
  st_lo T <= n < st_hi T /\ ~ st_holds T n /\ Z.of_nat (size (st_held T)) + st_cap T < NBUF.

(** Block [n] can be logged. *)
Definition loggable T (n : Z) : Prop := Z.of_nat (size ({[n]} ∪ st_logs T)) <= st_cap T.

Lemma fwp_bread s T n (Q : Z -> fsst S -> Prop) : t_rep (disk s) T -> readable T n ->
  (forall b d, st_held T !! b = None -> t_rep d (st_hold b n T) -> Q b (with_disk d s)) ->
  wp (Fs.bread 1 n) Q s.
Proof.
  intros Hr (Hn & Hno & Hsz) HQ. apply wp_zoom. eapply wp_mono; [|by eapply t_bread_ok].
  intros b d [Hb Hr']. by apply HQ.
Qed.

Lemma fwp_data s T b n c (Q : memory -> fsst S -> Prop) : t_rep (disk s) T ->
  st_held T !! b = Some (n, c) -> Q (st_cur T n) s -> wp (Fs.data b) Q s.
Proof.
  intros Hr Hb HQ. apply wp_zoom. eapply wp_of_eq; [by eapply t_data_ok|]. by destruct s.
Qed.

Lemma fwp_set_data s T b n c v (Q : unit -> fsst S -> Prop) : t_rep (disk s) T ->
  st_held T !! b = Some (n, c) -> (forall d, t_rep d (st_put b n v T) -> Q tt (with_disk d s)) ->
  wp (Fs.set_data b v) Q s.
Proof.
  intros Hr Hb HQ. apply wp_zoom. eapply wp_mono; [|by eapply t_set_data_ok].
  intros [] d Hr'. by apply HQ.
Qed.

Lemma fwp_log_write s T b n c (Q : unit -> fsst S -> Prop) : t_rep (disk s) T ->
  st_held T !! b = Some (n, c) -> loggable T n ->
  (forall d, t_rep d (st_log b n T) -> Q tt (with_disk d s)) -> wp (Fs.log_write b) Q s.
Proof.
  intros Hr Hb Hl HQ. apply wp_zoom. eapply wp_mono; [|by eapply t_log_write_ok].
  intros [] d Hr'. by apply HQ.
Qed.

Lemma fwp_brelse s T b n (Q : unit -> fsst S -> Prop) : t_rep (disk s) T ->
  st_held T !! b = Some (n, true) -> (forall d, t_rep d (st_drop b T) -> Q tt (with_disk d s)) ->
  wp (Fs.brelse b) Q s.
Proof.
  intros Hr Hb HQ. apply wp_zoom. eapply wp_mono; [|by eapply t_brelse_ok].
  intros [] d Hr'. by apply HQ.
Qed.

Lemma t_rep_equiv d T U : t_rep d T -> T ≡ U -> t_rep d U.
Proof. intros Hr <-. done. Qed.

Lemma drop_hold T b n : st_held T !! b = None -> st_drop b (st_hold b n T) ≡ T.
Proof. intros Hb. repeat split; cbn; try done. by rewrite delete_insert_id. Qed.

Lemma upd_equiv T b n v : st_held T !! b = None ->
  st_drop b (st_log b n (st_put b n v (st_hold b n T))) ≡ st_upd n v T.
Proof. intros Hb. repeat split; cbn; try done. by rewrite !insert_insert_eq, delete_insert_id. Qed.

(** Changing a buffer that is held, logging and releasing it. *)
Lemma fwp_finish s T b n v (Q : unit -> fsst S -> Prop) : t_rep (disk s) (st_hold b n T) ->
  st_held T !! b = None -> loggable T n ->
  (forall d, t_rep d (st_upd n v T) -> Q tt (with_disk d s)) ->
  wp (Fs.set_data b v ;;; Fs.log_write b ;;; Fs.brelse b) Q s.
Proof.
  intros Hr Hb Hl HQ. apply wp_bind. eapply fwp_set_data; [exact Hr|apply lookup_insert_eq|].
  intros d1 R1. apply wp_bind. eapply fwp_log_write; [exact R1|apply lookup_insert_eq|exact Hl|].
  intros d2 R2. eapply fwp_brelse; [exact R2|apply lookup_insert_eq|]. intros d3 R3. apply HQ.
  eapply t_rep_equiv; [exact R3|by apply upd_equiv].
Qed.

(** Reading, changing and logging one block. *)
Lemma fwp_update s T n (f : memory -> memory) (Q : unit -> fsst S -> Prop) : t_rep (disk s) T ->
  readable T n -> loggable T n ->
  (forall d, t_rep d (st_upd n (f (st_cur T n)) T) -> Q tt (with_disk d s)) ->
  wp (let* bp := Fs.bread 1 n in let* d := Fs.data bp in
      Fs.set_data bp (f d) ;;; Fs.log_write bp ;;; Fs.brelse bp) Q s.
Proof.
  intros Hr Hrd Hl HQ. apply wp_bind. eapply fwp_bread; [exact Hr|done|]. intros b d1 Hb R1.
  apply wp_bind. eapply fwp_data; [exact R1|apply lookup_insert_eq|].
  eapply fwp_finish; [exact R1|done|done|]. intros d2 R2. by apply HQ.
Qed.

(** Reading one block. *)
Lemma fwp_read {A} s T n (k : memory -> A) (Q : A -> fsst S -> Prop) : t_rep (disk s) T ->
  readable T n -> (forall d, t_rep d T -> Q (k (st_cur T n)) (with_disk d s)) ->
  wp (let* bp := Fs.bread 1 n in let* d := Fs.data bp in Fs.brelse bp ;;; ret (k d)) Q s.
Proof.
  intros Hr Hrd HQ. apply wp_bind. eapply fwp_bread; [exact Hr|done|]. intros b d1 Hb R1.
  apply wp_bind. eapply fwp_data; [exact R1|apply lookup_insert_eq|].
  apply wp_bind. eapply fwp_brelse; [exact R1|apply lookup_insert_eq|]. intros d2 R2.
  apply wp_ret, HQ. eapply t_rep_equiv; [exact R2|by apply drop_hold].
Qed.

(** ** [balloc] and [bfree] *)

Definition zero_block (v : memory) : memory := StringC.memset v 0 0 BSIZE.

(** The blocks after [balloc] returned [b], and after [bfree] of [b]. *)
Definition marked (sb : superblock) (b : Z) T : store :=
  st_upd (BBLOCK b sb) (mark b (st_cur T (BBLOCK b sb))) T.
Definition allocated (sb : superblock) (b : Z) T : store :=
  st_upd b (zero_block (st_cur (marked sb b T) b)) (marked sb b T).
Definition freed (sb : superblock) (b : Z) T : store :=
  st_upd (BBLOCK b sb) (unmark b (st_cur T (BBLOCK b sb))) T.

(** A well-formed file system inside a transaction, with no bitmap block held. *)
Record fs_view (sb : superblock) T : Prop := {
  fv_geo : fs_geo sb (st_lo T) (st_hi T);
  fv_bits : forall b, 0 <= b < sb_size sb -> ~ st_holds T (BBLOCK b sb);
  fv_bufs : Z.of_nat (size (st_held T)) + st_cap T < NBUF
}.

Lemma fs_view_upd sb T n v : fs_view sb T -> fs_view sb (st_upd n v T).
Proof. intros [H1 H2 H3]. by split. Qed.

Lemma bit_readable sb T b : fs_view sb T -> 0 <= b < sb_size sb -> readable T (BBLOCK b sb).
Proof.
  intros [Hg Hb Hs] Hr. destruct (BBLOCK_eq _ _ _ _ Hg Hr) as [_ Hx].
  destruct Hg as [? [? ?] ? ? ?]. unfold readable. split; [|split; [by apply Hb|done]].
  assert (0 <= sb_ninodes sb / IPB) by (apply Z.div_pos; [lia|done]). lia.
Qed.

(** The bits the inner loop of [balloc] looks at. *)
Lemma loop_bit sb lo hi k bi : fs_geo sb lo hi -> 0 <= k -> 0 <= bi < BPB -> k * BPB + bi < sb_size sb ->
  BBLOCK (k * BPB + bi) sb = BBLOCK (k * BPB) sb /\ byte_of (k * BPB + bi) = bi / 8 /\
  bit (k * BPB + bi) = Z.shiftl 1 (bi mod 8).
Proof.
  intros Hg Hk Hbi Hsz. assert ((k * BPB + bi) mod BPB = bi) as Hm.
  { rewrite Z.add_comm, Z.mod_add by done. by apply Z.mod_small. }
  assert ((k * BPB + bi) / BPB = k) as Hd.
  { rewrite Z.add_comm, Z.div_add by done. rewrite Z.div_small by done. done. }
  unfold byte_of, bit, BBLOCK. rewrite Hm, Hd, Z.div_mul by done. done.
Qed.

Lemma wp_bzero s T n (Q : unit -> fsst S -> Prop) : t_rep (disk s) T -> readable T n -> loggable T n ->
  (forall d, t_rep d (st_upd n (zero_block (st_cur T n)) T) -> Q tt (with_disk d s)) ->
  wp (bzero 1 n) Q s.
Proof. apply (fwp_update s T n zero_block Q). Qed.

(** The conditions under which [balloc] gives [b0]: the first free block, with
    room to log it and its bit. *)
Record balloc_pre (sb : superblock) T (b0 : Z) : Prop := {
  bp_view : fs_view sb T;
  bp_range : data_start sb <= b0 < sb_size sb;
  bp_free : used sb (st_cur T) b0 = false;
  bp_first : forall b, 0 <= b < b0 -> used sb (st_cur T) b = true;
  bp_held : ~ st_holds T b0;
  bp_log : Z.of_nat (size ({[b0]} ∪ ({[BBLOCK b0 sb]} ∪ st_logs T))) <= st_cap T
}.

Lemma data_start_lo sb lo hi : fs_geo sb lo hi -> 0 < lo /\ lo < data_start sb /\ 0 < data_start sb.
Proof.
  intros [? [? ?] ? ? ?]. unfold data_start, bmap_blocks.
  assert (0 <= sb_ninodes sb / IPB) by (apply Z.div_pos; [lia|done]).
  unfold data_start, bmap_blocks in *. rewrite BPB_eq in *. Z.to_euclidean_division_equations. lia.
Qed.

Lemma fwp_balloc_bit s T b0 bp k bi (Q : option Z -> fsst S -> Prop) :
  balloc_pre (sb s) T b0 -> t_rep (disk s) (st_hold bp (BBLOCK (k * BPB) (sb s)) T) -> st_held T !! bp = None ->
  0 <= k -> 0 <= bi < BPB -> k * BPB + bi <= b0 ->
  (k * BPB + bi < b0 -> Q None s) ->
  (forall d, k * BPB + bi = b0 -> t_rep d (allocated (sb s) b0 T) -> Q (Some b0) (with_disk d s)) ->
  wp (balloc_bit 1 (k * BPB) bp bi) Q s.
Proof.
  intros Hp Hr Hb Hk Hbi Hle Hno Hyes. pose proof Hp as [Hv Hrange Hfree Hfirst Hheld Hlog].
  pose proof (fv_geo _ _ Hv) as Hg.
  assert (0 <= k * BPB) by (by apply Z.mul_nonneg_nonneg).
  destruct (loop_bit _ _ _ k bi Hg Hk Hbi ltac:(lia)) as (E1 & E2 & E3).
  unfold balloc_bit. apply wp_bind. eapply fwp_data; [exact Hr|apply lookup_insert_eq|].
  cbn [st_cur st_hold]. rewrite <- E1, <- E2, <- E3.
  assert ((Z.land (load8 (st_cur T (BBLOCK (k * BPB + bi) (sb s))) (byte_of (k * BPB + bi))) (bit (k * BPB + bi)) =? 0)
    = negb (used (sb s) (st_cur T) (k * BPB + bi))) as -> by (unfold used; by rewrite negb_involutive).
  destruct (decide (k * BPB + bi < b0)) as [Hlt|Hge].
  - rewrite Hfirst by lia. cbn [negb]. apply wp_ret. auto.
  - assert (k * BPB + bi = b0) as Eb by lia. rewrite Eb in *. rewrite Hfree. cbn [negb].
    change (store8 _ _ _) with (mark b0 (st_cur T (BBLOCK b0 (sb s)))).
    rewrite <- E1 in Hr. apply wp_seq3. eapply fwp_finish; [exact Hr|done| |].
    { unfold loggable. etrans; [|exact Hlog]. apply inj_le, subseteq_size. set_solver. }
    intros d1 R1. apply wp_bind, (wp_bzero _ (marked (sb s) b0 T)); [exact R1| |exact Hlog|].
    { destruct Hv. destruct (data_start_lo _ _ _ Hg). unfold readable. cbn. split; [|done].
      destruct Hg. lia. }
    intros d2 R2. apply wp_ret. by apply (Hyes d2).
Qed.

Lemma wp_balloc_block s T b0 k (Q : option Z -> fsst S -> Prop) : balloc_pre (sb s) T b0 ->
  t_rep (disk s) T -> 0 <= k -> k * BPB <= b0 ->
  (forall d, (k + 1) * BPB <= b0 -> t_rep d T -> Q None (with_disk d s)) ->
  (forall d, t_rep d (allocated (sb s) b0 T) -> Q (Some b0) (with_disk d s)) ->
  wp (balloc_block 1 k) Q s.
Proof.
  intros Hp Hr Hk Hle Hno Hyes. pose proof Hp as [Hv Hrange _ _ _ _].
  assert (0 <= k * BPB) by (by apply Z.mul_nonneg_nonneg).
  apply wp_bind, wp_gets. apply wp_bind. eapply fwp_bread; [exact Hr|apply bit_readable; [done|lia]|].
  intros bp d1 Hb R1. apply wp_bind.
  apply (wp_for_exit (fun bi s' => exists d, s' = with_disk d s /\ k * BPB + bi <= b0 /\
    t_rep d (st_hold bp (BBLOCK (k * BPB) (sb s)) T))).
  - exists d1. split; [done|]. split; [lia|done].
  - intros bi s' Hbi (d & -> & Hle' & R). apply (fwp_balloc_bit _ T b0); try done; [lia| |].
    + intros Hlt. exists d. split; [done|]. split; [lia|done].
    + intros d' _ R'. by apply wp_ret, (Hyes d').
  - intros s' (d & -> & Hle' & R). apply wp_bind. eapply fwp_brelse; [exact R|apply lookup_insert_eq|].
    intros d' R'. apply wp_ret, (Hno d'); [rewrite BPB_eq in *; lia|].
    eapply t_rep_equiv; [exact R'|by apply drop_hold].
Qed.

(** [balloc] returns the first free block, marked and zeroed. *)
Lemma wp_balloc s T b0 (Q : Z -> fsst S -> Prop) : balloc_pre (sb s) T b0 -> t_rep (disk s) T ->
  (forall d, t_rep d (allocated (sb s) b0 T) -> Q b0 (with_disk d s)) -> wp (balloc 1) Q s.
Proof.
  intros Hp Hr HQ. pose proof Hp as [Hv Hrange _ _ _ _].
  destruct (data_start_lo _ _ _ (fv_geo _ _ Hv)) as (_ & _ & Hds).
  apply wp_bind, wp_gets. apply wp_bind.
  apply (wp_for_exit (fun k s' => exists d, s' = with_disk d s /\ k * BPB <= b0 /\ t_rep d T)).
  - exists (disk s). split; [by destruct s|]. split; [lia|done].
  - intros k s' Hk (d & -> & Hle & R). apply (wp_balloc_block _ T b0); try done; try lia.
    intros d' Hle' R'. by exists d'.
  - intros s' (d & -> & Hle & R). exfalso. rewrite BPB_eq in *. Z.to_euclidean_division_equations. lia.
Qed.

(** With no free block, [balloc] panics. *)
Lemma balloc_full s T : fs_view (sb s) T -> t_rep (disk s) T ->
  (forall b, 0 <= b < sb_size (sb s) -> used (sb s) (st_cur T) b = true) ->
  exists s', balloc 1 s = Panic "balloc: out of blocks" s'.
Proof.
  intros Hv Hr Hall. pose proof (fv_geo _ _ Hv) as Hg.
  assert (wp (for_exit 0 ((sb_size (sb s) + BPB - 1) / BPB) (balloc_block 1))
    (fun r s' => r = None) s) as Hloop.
  { apply (wp_for_exit (fun k s' => exists d, s' = with_disk d s /\ t_rep d T)).
    - exists (disk s). split; [by destruct s|done].
    - intros k s' Hk (d & -> & R). assert (0 <= k * BPB) by (apply Z.mul_nonneg_nonneg; [lia|done]).
      apply wp_bind, wp_gets. cbn [sb with_disk lset disk_lens].
      assert (k * BPB < sb_size (sb s)) as Hlt.
      { rewrite BPB_eq in *. Z.to_euclidean_division_equations. lia. }
      apply wp_bind. eapply fwp_bread; [exact R|apply bit_readable; [done|lia]|]. intros bp d1 Hb R1.
      apply wp_bind. eapply wp_mono; [|apply (wp_for_exit (fun bi s' => s' = with_disk d1 s) _ _ _
        (fun r s' => r = None /\ s' = with_disk d1 s)); [done| |by intros s' ->]].
      + intros r s' [-> ->]. apply wp_bind. eapply fwp_brelse; [exact R1|apply lookup_insert_eq|].
        intros d2 R2. apply wp_ret. exists d2. split; [done|].
        eapply t_rep_equiv; [exact R2|by apply drop_hold].
      + intros bi s' Hbi ->. apply wp_bind. eapply fwp_data; [exact R1|apply lookup_insert_eq|].
        destruct (loop_bit _ _ _ k bi Hg ltac:(lia) ltac:(lia) ltac:(lia)) as (E1 & E2 & E3).
        specialize (Hall (k * BPB + bi) ltac:(lia)). unfold used in Hall. apply negb_true_iff in Hall.
        rewrite E1, E2, E3 in Hall. cbn [st_cur st_hold]. rewrite Hall. by apply wp_ret.
    - done. }
  apply wp_inv in Hloop as (r & s' & E & ->). exists s'.
  eapply bind_step; [reflexivity|]. eapply bind_step; [exact E|done].
Qed.

Lemma wp_bfree s T b (Q : unit -> fsst S -> Prop) : fs_view (sb s) T -> t_rep (disk s) T ->
  0 <= b < sb_size (sb s) -> used (sb s) (st_cur T) b = true -> loggable T (BBLOCK b (sb s)) ->
  (forall d, t_rep d (freed (sb s) b T) -> Q tt (with_disk d s)) -> wp (bfree 1 b) Q s.
Proof.
  intros Hv Hr Hb Hu Hl HQ. apply wp_bind, wp_gets.
  apply wp_bind. eapply fwp_bread; [exact Hr|by apply bit_readable|]. intros bp d1 Hbp R1.
  apply wp_bind. eapply fwp_data; [exact R1|apply lookup_insert_eq|]. cbn [st_cur st_hold].
  unfold used in Hu. apply negb_true_iff in Hu. unfold bit, byte_of in Hu. rewrite Hu.
  eapply fwp_finish; [exact R1|done|done|]. intros d2 R2. by apply HQ.
Qed.

End Rules.
