(* ===== verification/FsFile.v ===== *)
(** * The file system: the content of a file

    The blocks of an inode, its bytes, and what [bmap], [readi] and [writei]
    do to them. *)

From stdpp Require Import base tactics numbers gmap strings list sets.
From Stdlib Require Import ZArith Lia.
From S2P Require Import Prelude Mmu Memory Spinlock Sleeplock Cache Log LogFacts Store Fs FsFacts.

Lemma filter_ext_in {A} (P Q : A -> Prop) `{!forall x, Decision (P x), !forall x, Decision (Q x)} (l : list A) :
  (forall x, x ∈ l -> P x <-> Q x) -> filter P l = filter Q l.
Proof.
  induction l as [|x l IH]; intros HPQ; [done|]. rewrite !filter_cons.
  pose proof (HPQ x ltac:(set_solver)). rewrite IH by set_solver. repeat case_decide; tauto.
Qed.

(** ** The blocks of a file *)

Definition ind_addr (x : inode) : Z := (i_addrs x).[NDIRECT].

(** The address of block [bn] of the file, 0 if it has none. *)
Definition blk (cur : Z -> memory) (x : inode) (bn : Z) : Z :=
  if bn <? NDIRECT then (i_addrs x).[bn]
  else if ind_addr x =? 0 then 0 else load32 (cur (ind_addr x)) (4 * (bn - NDIRECT)).

(** Byte [o] of the file. *)
Definition fbyte (cur : Z -> memory) (x : inode) (o : Z) : Z :=
  if blk cur x (o / BSIZE) =? 0 then 0 else load8 (cur (blk cur x (o / BSIZE))) (o mod BSIZE).

Definition in_file (bn : Z) : Prop := 0 <= bn < MAXFILE.

(** A data block in use. *)
Definition data_used (sb : superblock) (cur : Z -> memory) (b : Z) : Prop :=
  data_start sb <= b < sb_size sb /\ used sb cur b = true.

(** The file's blocks are distinct data blocks in use. *)
Record file_ok (sb : superblock) (cur : Z -> memory) (x : inode) : Prop := {
  fo_data : forall bn, in_file bn -> blk cur x bn <> 0 -> data_used sb cur (blk cur x bn);
  fo_ind : ind_addr x <> 0 -> data_used sb cur (ind_addr x);
  fo_inj : forall bn bn', in_file bn -> in_file bn' -> blk cur x bn <> 0 ->
    blk cur x bn = blk cur x bn' -> bn = bn';
  fo_ne : forall bn, in_file bn -> blk cur x bn <> 0 -> blk cur x bn <> ind_addr x
}.

(** ** Allocation *)

Definition alloc_cur (sb : superblock) (b : Z) (cur : Z -> memory) : Z -> memory :=
  let c1 := fupd cur (BBLOCK b sb) (mark b (cur (BBLOCK b sb))) in fupd c1 b (zero_block (c1 b)).

Lemma zero_byte v o : 0 <= o < BSIZE -> load8 (zero_block v) o = 0.
Proof. intros Ho. unfold zero_block. rewrite StringC.memset_spec by done. by rewrite decide_True by lia. Qed.

Lemma zero_word v o : 0 <= o -> o + 4 <= BSIZE -> load32 (zero_block v) o = 0.
Proof. intros Ho Ho'. unfold load32. by rewrite !zero_byte by lia. Qed.

Section Pure.
Context (sb : superblock) (lo hi : Z) (Hg : fs_geo sb lo hi).

Lemma bblock_lt b : 0 <= b < sb_size sb -> BBLOCK b sb < data_start sb.
Proof using Hg. intros Hb. by destruct (BBLOCK_eq _ _ _ _ Hg Hb) as [_ [_ ?]]. Qed.

Section Alloc.
Context (cur : Z -> memory) (b0 : Z) (Hb0 : data_start sb <= b0 < sb_size sb).

Lemma b0_range : 0 <= b0 < sb_size sb.
Proof using Hg Hb0. destruct (data_start_lo _ _ _ Hg). lia. Qed.

Lemma alloc_data n : data_start sb <= n -> n <> b0 -> alloc_cur sb b0 cur n = cur n.
Proof using Hg Hb0.
  intros Hn Hne. pose proof (bblock_lt b0 b0_range). unfold alloc_cur. cbn zeta. by rewrite !fupd_ne by lia.
Qed.

Lemma alloc_meta n : n < sb_bmapstart sb -> alloc_cur sb b0 cur n = cur n.
Proof using Hg Hb0.
  intros Hn. destruct (BBLOCK_eq _ _ _ _ Hg b0_range) as [_ Hr]. unfold data_start, bmap_blocks in Hb0.
  assert (0 <= sb_size sb / BPB) by (apply Z.div_pos; [pose proof b0_range; lia|done]).
  unfold alloc_cur. cbn zeta. by rewrite !fupd_ne by lia.
Qed.

Lemma alloc_zero o : 0 <= o < BSIZE -> load8 (alloc_cur sb b0 cur b0) o = 0.
Proof. intros Ho. unfold alloc_cur. cbn zeta. rewrite fupd_eq. by apply zero_byte. Qed.

Lemma alloc_zero_word o : 0 <= o -> o + 4 <= BSIZE -> load32 (alloc_cur sb b0 cur b0) o = 0.
Proof. intros Ho Ho'. unfold alloc_cur. cbn zeta. rewrite fupd_eq. by apply zero_word. Qed.

Lemma alloc_used b : 0 <= b < sb_size sb ->
  used sb (alloc_cur sb b0 cur) b = (used sb cur b || (b =? b0)).
Proof using Hg Hb0.
  intros Hb. pose proof (bblock_lt b Hb). rewrite <- (used_mark sb lo hi Hg cur b0 b b0_range Hb).
  unfold used, alloc_cur. cbn zeta. rewrite (fupd_ne _ b0) by lia. done.
Qed.

Lemma alloc_data_used b : data_used sb cur b -> data_used sb (alloc_cur sb b0 cur) b.
Proof using Hg Hb0.
  intros [Hr Hu]. split; [done|]. destruct (data_start_lo _ _ _ Hg).
  rewrite alloc_used by lia. by rewrite Hu.
Qed.

Lemma alloc_new : data_used sb (alloc_cur sb b0 cur) b0.
Proof using Hg Hb0.
  split; [done|]. rewrite alloc_used by apply b0_range. rewrite Z.eqb_refl. apply orb_true_r.
Qed.

End Alloc.

(** Blocks that do not change. *)
Lemma blk_ext cur cur' x bn : (ind_addr x <> 0 -> cur' (ind_addr x) = cur (ind_addr x)) ->
  blk cur' x bn = blk cur x bn.
Proof.
  intros E. unfold blk. destruct (bn <? NDIRECT); [done|].
  destruct (Z.eqb_spec (ind_addr x) 0); [done|]. by rewrite E.
Qed.

Lemma NDIRECT_eq : NDIRECT = 12.
Proof. done. Qed.

Lemma MAXFILE_eq : MAXFILE = 140.
Proof. done. Qed.

Lemma BSIZE_eq : BSIZE = 512.
Proof. done. Qed.

Lemma blk_set_direct cur x bn b bn' : 0 <= bn < NDIRECT -> 0 <= bn' ->
  blk cur (with_addrs (<[bn := b]> (i_addrs x)) x) bn' = if decide (bn' = bn) then b else blk cur x bn'.
Proof.
  intros Hbn Hbn'. unfold blk, ind_addr. cbn [i_addrs with_addrs]. rewrite !asel_insert.
  rewrite (decide_False (P := bn = NDIRECT)) by lia.
  destruct (Z.ltb_spec bn' NDIRECT); repeat case_decide; try done; try lia.
Qed.

Definition set_entry (x : inode) (bn b : Z) (cur : Z -> memory) : Z -> memory :=
  fupd cur (ind_addr x) (store32 (cur (ind_addr x)) (4 * (bn - NDIRECT)) b).

Lemma blk_set_entry cur x bn b bn' : ind_addr x <> 0 -> NDIRECT <= bn < MAXFILE -> 0 <= bn' ->
  0 <= b < 4294967296 ->
  blk (set_entry x bn b cur) x bn' = if decide (bn' = bn) then b else blk cur x bn'.
Proof.
  intros Hi Hbn Hbn' Hb. unfold blk, set_entry.
  destruct (Z.ltb_spec bn' NDIRECT); [by rewrite decide_False by lia|].
  destruct (Z.eqb_spec (ind_addr x) 0); [done|]. rewrite fupd_eq. case_decide as E.
  - subst. rewrite load32_store32_eq. apply u32_small. lia.
  - rewrite load32_store32_ne by lia. done.
Qed.

(** ** Free blocks *)

Definition meta_used (cur : Z -> memory) : Prop := forall b, 0 <= b < data_start sb -> used sb cur b = true.

Definition nfree (cur : Z -> memory) : Z :=
  Z.of_nat (length (filter (fun b => used sb cur b = false) (seqZ 0 (sb_size sb)))).

Lemma least_false (P : Z -> bool) n : (forall b, 0 <= b < Z.of_nat n -> P b = true) \/
  exists b0, 0 <= b0 < Z.of_nat n /\ P b0 = false /\ forall b, 0 <= b < b0 -> P b = true.
Proof.
  induction n as [|n IH]; [left; lia|]. destruct IH as [Hall|(b0 & Hr & Hf & Hb)].
  - destruct (P (Z.of_nat n)) eqn:E; [left|right; exists (Z.of_nat n); split; [lia|done]].
    intros b Hb. destruct (decide (b = Z.of_nat n)) as [->|]; [done|]. apply Hall. lia.
  - right. exists b0. split; [lia|done].
Qed.

Lemma first_free cur : meta_used cur -> 0 < nfree cur ->
  exists b0, data_start sb <= b0 < sb_size sb /\ used sb cur b0 = false /\
    forall b, 0 <= b < b0 -> used sb cur b = true.
Proof.
  intros Hm Hn. destruct (least_false (used sb cur) (Z.to_nat (sb_size sb))) as [Hall|(b0 & Hr & Hf & Hb)].
  - exfalso. unfold nfree in Hn. destruct (filter _ _) as [|b l] eqn:E; [cbn in Hn; lia|].
    assert (b ∈ filter (fun b => used sb cur b = false) (seqZ 0 (sb_size sb))) as Hin by (rewrite E; set_solver).
    apply list_elem_of_filter in Hin as [Hu Hin%elem_of_seqZ]. rewrite Hall in Hu by lia. done.
  - exists b0. split; [|done]. destruct (decide (b0 < data_start sb)) as [Hlt|]; [|lia].
    rewrite Hm in Hf by lia. done.
Qed.

Lemma filter_remove (P : Z -> Prop) `{!forall x, Decision (P x)} (l : list Z) b : NoDup l -> b ∈ l -> P b ->
  length (filter P l) = S (length (filter (fun x => P x /\ x <> b) l)).
Proof.
  intros Hnd Hin HP. induction l as [|y l IH]; [by apply not_elem_of_nil in Hin|].
  apply NoDup_cons in Hnd as [Hy Hnd]. rewrite !filter_cons. destruct (decide (y = b)) as [->|Hne].
  - rewrite decide_True by done. rewrite decide_False by (intros [_ ?]; done). cbn. f_equal.
    f_equal. apply filter_ext_in. intros z Hz. split; [|tauto]. intros Hp. split; [done|]. by intros ->.
  - apply elem_of_cons in Hin as [->|Hin]; [done|]. specialize (IH Hnd Hin).
    repeat case_decide; cbn; try tauto; lia.
Qed.

Lemma nfree_alloc cur b0 : data_start sb <= b0 < sb_size sb -> used sb cur b0 = false ->
  nfree (alloc_cur sb b0 cur) = nfree cur - 1.
Proof using Hg.
  intros Hb Hf. destruct (data_start_lo _ _ _ Hg). unfold nfree.
  rewrite (filter_remove (fun b => used sb cur b = false) _ b0);
    [|apply NoDup_seqZ|apply elem_of_seqZ; lia|done].
  replace (filter (fun b => used sb (alloc_cur sb b0 cur) b = false) (seqZ 0 (sb_size sb)))
    with (filter (fun b => used sb cur b = false /\ b <> b0) (seqZ 0 (sb_size sb))); [lia|].
  apply filter_ext_in. intros b Hin%elem_of_seqZ. rewrite (alloc_used cur b0 Hb) by lia.
  rewrite orb_false_iff, Z.eqb_neq. done.
Qed.

Lemma used_entry x bn b cur b' : data_start sb <= ind_addr x -> 0 <= b' < sb_size sb ->
  used sb (set_entry x bn b cur) b' = used sb cur b'.
Proof using Hg.
  intros Hi Hb. unfold used, set_entry. rewrite fupd_ne; [done|]. pose proof (bblock_lt b' Hb). lia.
Qed.

Lemma nfree_entry x bn b cur : data_start sb <= ind_addr x -> nfree (set_entry x bn b cur) = nfree cur.
Proof using Hg.
  intros Hi. unfold nfree. do 2 f_equal. apply filter_ext_in. intros b' Hb%elem_of_seqZ.
  rewrite used_entry by (done || lia). done.
Qed.

Lemma meta_alloc cur b0 : data_start sb <= b0 < sb_size sb -> meta_used cur ->
  meta_used (alloc_cur sb b0 cur).
Proof using Hg.
  intros Hb Hm b Hr. rewrite (alloc_used cur b0 Hb) by lia. by rewrite Hm.
Qed.

(** ** Growing a file *)

(** A block in use that is no block of the file. *)
Definition foreign (cur : Z -> memory) (x : inode) (n : Z) : Prop :=
  data_used sb cur n /\ n <> ind_addr x /\ forall bn, in_file bn -> n <> blk cur x bn.

(** The file may have more blocks, its bytes change as [P] says, and nothing
    else that is in use has changed. *)
Record file_step (P : Z -> option Z) (cur cur' : Z -> memory) (x x' : inode) : Prop := {
  gr_x : x' = with_addrs (i_addrs x') x;
  gr_ok : file_ok sb cur' x';
  gr_blk : forall bn, in_file bn -> blk cur x bn <> 0 -> blk cur' x' bn = blk cur x bn;
  gr_new : forall bn, in_file bn -> blk cur x bn = 0 -> blk cur' x' bn <> 0 ->
    ~ data_used sb cur (blk cur' x' bn);
  gr_ind : ind_addr x <> 0 -> ind_addr x' = ind_addr x;
  gr_ind_new : ind_addr x = 0 -> ~ data_used sb cur (ind_addr x');
  gr_byte : forall o, 0 <= o < MAXFILE * BSIZE -> fbyte cur' x' o = default (fbyte cur x o) (P o);
  gr_used : forall b, data_used sb cur b -> data_used sb cur' b;
  gr_data : forall n, foreign cur x n -> cur' n = cur n;
  gr_meta : forall n, n < sb_bmapstart sb -> cur' n = cur n;
  gr_bits : meta_used cur'
}.

Definition no_bytes (o : Z) : option Z := None.
Definition file_grows := file_step no_bytes.

Lemma not_data_0 cur : ~ data_used sb cur 0.
Proof using Hg. intros [Hr _]. destruct (data_start_lo _ _ _ Hg). lia. Qed.

Lemma grows_refl cur x : file_ok sb cur x -> meta_used cur -> file_grows cur cur x x.
Proof using Hg.
  intros Hok Hm. split; try done; [by destruct x|]. intros ->. apply not_data_0.
Qed.

Lemma step_foreign P cur cur' x x' n : file_step P cur cur' x x' -> foreign cur x n -> foreign cur' x' n.
Proof using Hg.
  intros [X1 O1 B1 N1 I1 J1 Y1 U1 D1 M1 T1] (Hu & Hni & Hnb). split; [by apply U1|split].
  - destruct (decide (ind_addr x = 0)) as [E|E]; [|by rewrite I1]. intros ->. by apply (J1 E).
  - intros bn Hbn ->. destruct (decide (blk cur x bn = 0)) as [E|E].
    + destruct (decide (blk cur' x' bn = 0)) as [E'|E']; [|by apply (N1 bn Hbn E E')].
      rewrite E' in Hu. by apply not_data_0 in Hu.
    + rewrite B1 in Hnb by done. by apply (Hnb bn Hbn).
Qed.

Lemma step_trans P1 P2 cur cur1 cur2 x x1 x2 : file_step P1 cur cur1 x x1 -> file_step P2 cur1 cur2 x1 x2 ->
  file_step (fun o => P2 o ∪ P1 o) cur cur2 x x2.
Proof using Hg.
  intros H1 H2. pose proof H1 as [X1 O1 B1 N1 I1 J1 Y1 U1 D1 M1 T1].
  destruct H2 as [X2 O2 B2 N2 I2 J2 Y2 U2 D2 M2 T2]. split; try done.
  - rewrite X2, X1. done.
  - intros bn Hbn Hne. rewrite B2; [by apply B1|done|]. by rewrite B1.
  - intros bn Hbn H0 Hne. destruct (decide (blk cur1 x1 bn = 0)) as [E|E].
    + intros Hu. by apply (N2 bn Hbn E Hne), U1.
    + rewrite B2 by done. by apply N1.
  - intros Hi. rewrite I2; [by apply I1|]. by rewrite I1.
  - intros Hi Hu. destruct (decide (ind_addr x1 = 0)) as [E|E].
    + by apply (J2 E), U1.
    + rewrite I2 in Hu by done. by apply (J1 Hi).
  - intros o Ho. rewrite Y2, Y1 by done. by destruct (P2 o), (P1 o).
  - auto.
  - intros n Hn. rewrite D2; [by apply D1|]. by eapply step_foreign.
  - intros n Hn. rewrite M2 by done. by apply M1.
Qed.

Lemma step_ext P P' cur cur' x x' : (forall o, 0 <= o < MAXFILE * BSIZE -> P o = P' o) ->
  file_step P cur cur' x x' -> file_step P' cur cur' x x'.
Proof. intros E []. split; try done. intros o Ho. rewrite <- E; auto. Qed.

Lemma grows_trans cur cur1 cur2 x x1 x2 : file_grows cur cur1 x x1 -> file_grows cur1 cur2 x1 x2 ->
  file_grows cur cur2 x x2.
Proof using Hg. intros H1 H2. eapply step_ext; [|by eapply step_trans]. done. Qed.

Section Step.
Context (cur : Z -> memory) (x : inode) (Hok : file_ok sb cur x) (Hm : meta_used cur).
Context (b0 : Z) (Hb0 : data_start sb <= b0 < sb_size sb) (Hf0 : used sb cur b0 = false).

Lemma b0_fresh : ~ data_used sb cur b0.
Proof using Hf0. intros [_ Hu]. congruence. Qed.

Lemma b0_nonzero : b0 <> 0.
Proof using Hg Hb0. destruct (data_start_lo _ _ _ Hg). lia. Qed.

Lemma alloc_kept n : data_used sb cur n -> alloc_cur sb b0 cur n = cur n.
Proof using Hg Hb0 Hf0.
  intros Hu. apply alloc_data; [done|apply Hu|]. intros ->. by apply b0_fresh.
Qed.

Lemma alloc_blk bn : blk (alloc_cur sb b0 cur) x bn = blk cur x bn.
Proof using Hg Hb0 Hf0 Hok. apply blk_ext. intros Hi. by apply alloc_kept, (fo_ind _ _ _ Hok). Qed.

(** Block [bn] of the file becomes the fresh block [b0]. *)
Section At.
Context (cur' : Z -> memory) (x' : inode) (bn : Z) (Hbn : in_file bn) (H0 : blk cur x bn = 0).
Context (Hx : x' = with_addrs (i_addrs x') x) (Hi : ind_addr x' = ind_addr x).
Context (Hb : forall bn', 0 <= bn' -> blk cur' x' bn' = if decide (bn' = bn) then b0 else blk cur x bn').
Context (Hkeep : forall n, data_used sb cur n -> n <> ind_addr x -> cur' n = cur n).
Context (Hzero : forall o, 0 <= o < BSIZE -> load8 (cur' b0) o = 0).
Context (Hbits : forall b, 0 <= b < sb_size sb -> used sb cur' b = (used sb cur b || (b =? b0))).
Context (Hmeta : forall n, n < sb_bmapstart sb -> cur' n = cur n).

Lemma at_used b : data_used sb cur b -> data_used sb cur' b.
Proof using Hg Hbits.
  intros [Hr Hu]. split; [done|]. destruct (data_start_lo _ _ _ Hg).
  rewrite Hbits by lia. by rewrite Hu.
Qed.

Lemma at_new : data_used sb cur' b0.
Proof using Hg Hbits Hb0.
  split; [done|]. destruct (data_start_lo _ _ _ Hg). rewrite Hbits by lia.
  rewrite Z.eqb_refl. apply orb_true_r.
Qed.

Lemma at_ok : file_ok sb cur' x'.
Proof using Hg Hbits Hb0 Hf0 Hok Hi Hb.
  split.
  - intros bn' [Hn Hn']. rewrite Hb by done. case_decide; [intros _; apply at_new|].
    intros Hx'. by apply at_used, (fo_data _ _ _ Hok).
  - rewrite Hi. intros Hx'. by apply at_used, (fo_ind _ _ _ Hok).
  - intros bn1 bn2 [H1 H1'] [H2 H2']. rewrite !Hb by done. repeat case_decide; subst; try done.
    + intros _ E. exfalso. apply b0_fresh. rewrite E. apply (fo_data _ _ _ Hok); [done|].
      rewrite <- E. apply b0_nonzero.
    + intros Hx' E. exfalso. apply b0_fresh. rewrite <- E. by apply (fo_data _ _ _ Hok).
    + by apply (fo_inj _ _ _ Hok).
  - intros bn' [Hn Hn']. rewrite Hb, Hi by done. case_decide; [|by apply (fo_ne _ _ _ Hok)].
    intros _ E. apply b0_fresh. rewrite E. apply (fo_ind _ _ _ Hok). rewrite <- E. apply b0_nonzero.
Qed.

Lemma at_byte o : 0 <= o < MAXFILE * BSIZE -> fbyte cur' x' o = fbyte cur x o.
Proof using Hg Hb0 Hok Hb H0 Hzero Hkeep.
  intros Ho. unfold fbyte. assert (0 <= o / BSIZE) by (apply Z.div_pos; [lia|done]).
  rewrite Hb by done. case_decide as E.
  - rewrite E, H0. cbn. destruct (Z.eqb_spec b0 0); [done|]. apply Hzero. by apply Z.mod_pos_bound.
  - destruct (Z.eqb_spec (blk cur x (o / BSIZE)) 0) as [|Hne]; [done|].
    assert (in_file (o / BSIZE)) by (split; [done|]; apply Z.div_lt_upper_bound; [done|lia]).
    rewrite Hkeep; [done|by apply (fo_data _ _ _ Hok)|by apply (fo_ne _ _ _ Hok)].
Qed.

Lemma grow_at : file_grows cur cur' x x'.
Proof using All.
  split; try done.
  - apply at_ok.
  - intros bn' Hin Hne. rewrite Hb by apply Hin. rewrite decide_False; [done|]. by intros ->.
  - intros bn' Hin Hne. rewrite Hb by apply Hin. case_decide; [intros _; apply b0_fresh|done].
  - intros E. rewrite Hi, E. apply not_data_0.
  - apply at_byte.
  - apply at_used.
  - intros n (Hu & Hni & _). by apply Hkeep.
  - intros b Hr. destruct (data_start_lo _ _ _ Hg). rewrite Hbits by lia. by rewrite Hm.
Qed.

End At.

Lemma grow_direct bn : 0 <= bn < NDIRECT -> blk cur x bn = 0 ->
  file_grows cur (alloc_cur sb b0 cur) x (with_addrs (<[bn := b0]> (i_addrs x)) x).
Proof using Hg Hb0 Hf0 Hok Hm.
  intros Hbn H0. apply (grow_at _ _ bn); try done.
  - unfold in_file, MAXFILE, NINDIRECT. split; [lia|]. assert (0 <= BSIZE / 4) by done. lia.
  - unfold ind_addr. cbn. rewrite asel_insert_ne by lia. done.
  - intros bn' Hn. rewrite blk_set_direct by done. case_decide; [done|]. apply alloc_blk.
  - intros n Hu _. by apply alloc_kept.
  - intros o. apply alloc_zero.
  - intros b. by apply alloc_used.
  - intros n. by apply alloc_meta.
Qed.

Lemma entry_same bn v n : n <> ind_addr x -> set_entry x bn v (alloc_cur sb b0 cur) n = alloc_cur sb b0 cur n.
Proof. intros Hn. unfold set_entry. by rewrite fupd_ne. Qed.

Lemma grow_entry bn : ind_addr x <> 0 -> NDIRECT <= bn < MAXFILE -> blk cur x bn = 0 ->
  file_grows cur (set_entry x bn b0 (alloc_cur sb b0 cur)) x x.
Proof using Hg Hb0 Hf0 Hok Hm.
  intros Hi Hbn H0. pose proof (fo_ind _ _ _ Hok Hi) as Hui.
  assert (ind_addr x <> b0) as Hne by (intros E; apply b0_fresh; by rewrite <- E).
  assert (0 <= b0 < 4294967296).
  { destruct (data_start_lo _ _ _ Hg). pose proof (fg_size _ _ _ Hg). pose proof (fg_hi _ _ _ Hg). lia. }
  apply (grow_at _ _ bn); try done.
  - unfold in_file. assert (0 < NDIRECT) by done. lia.
  - by destruct x.
  - intros bn' Hn. rewrite blk_set_entry by done. case_decide; [done|]. apply alloc_blk.
  - intros n Hu Hni. rewrite entry_same by done. by apply alloc_kept.
  - intros o Ho. rewrite entry_same by done. by apply alloc_zero.
  - intros b Hb. rewrite <- alloc_used by done. apply used_entry; [apply Hui|done].
  - intros n Hn. rewrite entry_same; [by apply alloc_meta|].
    destruct Hui as [Hr _]. unfold data_start, bmap_blocks in Hr. destruct (data_start_lo _ _ _ Hg).
    assert (0 <= sb_size sb / BPB) by (apply Z.div_pos; [lia|done]). lia.
Qed.

(** The indirect block. *)
Lemma ind_blk bn : ind_addr x = 0 -> in_file bn ->
  blk (alloc_cur sb b0 cur) (with_addrs (<[NDIRECT := b0]> (i_addrs x)) x) bn = blk cur x bn.
Proof.
  intros Hi [Hn Hn']. unfold blk. rewrite Hi. destruct (Z.ltb_spec bn NDIRECT).
  - cbn. rewrite asel_insert_ne by lia. done.
  - unfold ind_addr. cbn. rewrite asel_insert_eq. destruct (Z.eqb_spec b0 0); [done|].
    apply alloc_zero_word; [lia|]. rewrite MAXFILE_eq in Hn'. rewrite NDIRECT_eq, BSIZE_eq. lia.
Qed.

Lemma grow_ind : ind_addr x = 0 ->
  file_grows cur (alloc_cur sb b0 cur) x (with_addrs (<[NDIRECT := b0]> (i_addrs x)) x).
Proof using Hg Hb0 Hf0 Hok Hm.
  intros Hi. set (x' := with_addrs _ x). set (cur' := alloc_cur sb b0 cur).
  assert (ind_addr x' = b0) as Hi'.
  { unfold ind_addr. cbn. by rewrite asel_insert_eq. }
  assert (forall bn, in_file bn -> blk cur' x' bn = blk cur x bn) as Hb.
  { intros bn Hin. by apply ind_blk. }
  split; try done.
  - split.
    + intros bn Hin. rewrite Hb by done. intros Hne. by apply alloc_data_used, (fo_data _ _ _ Hok).
    + intros _. rewrite Hi'. by apply alloc_new.
    + intros bn bn' H1 H2. rewrite !Hb by done. by apply (fo_inj _ _ _ Hok).
    + intros bn Hin. rewrite Hb, Hi' by done. intros Hne E. apply b0_fresh. rewrite <- E.
      by apply (fo_data _ _ _ Hok).
  - intros bn Hin _. by apply Hb.
  - intros bn Hin E. rewrite Hb by done. done.
  - intros _. rewrite Hi'. apply b0_fresh.
  - intros o Ho. unfold fbyte.
    assert (in_file (o / BSIZE)) as Hin.
    { split; [apply Z.div_pos; [lia|done]|]. apply Z.div_lt_upper_bound; [done|lia]. }
    rewrite Hb by done. destruct (Z.eqb_spec (blk cur x (o / BSIZE)) 0); [done|]. unfold cur'.
    rewrite alloc_kept; [done|]. by apply (fo_data _ _ _ Hok).
  - intros b. by apply alloc_data_used.
  - intros n [Hu _]. by apply alloc_kept.
  - intros n Hn. by apply alloc_meta.
  - by apply meta_alloc.
Qed.

End Step.

(** Writing a block of the file. *)
Section Write.
Context (cur : Z -> memory) (x : inode) (Hok : file_ok sb cur x) (Hm : meta_used cur).
Context (bn : Z) (Hbn : in_file bn) (Hne : blk cur x bn <> 0) (v : memory).

Lemma write_same n : n <> blk cur x bn -> fupd cur (blk cur x bn) v n = cur n.
Proof. intros Hn. by rewrite fupd_ne. Qed.

Lemma write_blk bn' : blk (fupd cur (blk cur x bn) v) x bn' = blk cur x bn'.
Proof using Hok Hbn Hne. apply blk_ext. intros Hi. apply write_same. intros E. by apply (fo_ne _ _ _ Hok bn). Qed.

Lemma write_used b : 0 <= b < sb_size sb -> used sb (fupd cur (blk cur x bn) v) b = used sb cur b.
Proof using Hg Hok Hbn Hne.
  intros Hb. unfold used. rewrite write_same; [done|]. pose proof (bblock_lt b Hb).
  destruct (fo_data _ _ _ Hok _ Hbn Hne). lia.
Qed.

Lemma write_data_used b : data_used sb (fupd cur (blk cur x bn) v) b <-> data_used sb cur b.
Proof using Hg Hok Hbn Hne.
  unfold data_used. destruct (data_start_lo _ _ _ Hg).
  split; intros [Hr Hu]; (split; [done|]); rewrite write_used in *; done || lia.
Qed.

Lemma write_step P : (forall o, 0 <= o < BSIZE -> load8 v o = default (load8 (cur (blk cur x bn)) o) (P (bn * BSIZE + o))) ->
  (forall o, o / BSIZE <> bn -> P o = None) ->
  file_step P cur (fupd cur (blk cur x bn) v) x x.
Proof using Hg Hok Hbn Hne Hm.
  intros Hv HP. split.
  - by destruct x.
  - split; intros *; rewrite ?write_blk, ?write_data_used; apply Hok.
  - intros bn' _ _. apply write_blk.
  - intros bn' _ E. by rewrite write_blk.
  - done.
  - intros ->. apply not_data_0.
  - intros o Ho. unfold fbyte. rewrite write_blk.
    assert (in_file (o / BSIZE)) as Hin.
    { split; [apply Z.div_pos; [lia|done]|]. apply Z.div_lt_upper_bound; [done|lia]. }
    destruct (decide (o / BSIZE = bn)) as [E|E].
    + rewrite E. destruct (Z.eqb_spec (blk cur x bn) 0); [done|]. rewrite fupd_eq, Hv by by apply Z.mod_pos_bound.
      do 2 f_equal. rewrite <- E. pose proof (Z.div_mod o BSIZE ltac:(done)). lia.
    + rewrite HP by done. cbn. destruct (Z.eqb_spec (blk cur x (o / BSIZE)) 0); [done|].
      rewrite write_same; [done|]. intros E'. by apply E, (fo_inj _ _ _ Hok).
  - intros b. by rewrite write_data_used.
  - intros n (_ & _ & Hn). apply write_same. by apply Hn.
  - intros n Hn. apply write_same. destruct (fo_data _ _ _ Hok _ Hbn Hne) as [Hr _].
    unfold data_start, bmap_blocks in Hr. destruct (data_start_lo _ _ _ Hg).
    assert (0 <= sb_size sb / BPB) by (apply Z.div_pos; [pose proof (fg_data _ _ _ Hg); lia|done]). lia.
  - intros b Hb. rewrite write_used; [by apply Hm|]. pose proof (fg_data _ _ _ Hg). lia.
Qed.

Lemma write_nfree : nfree (fupd cur (blk cur x bn) v) = nfree cur.
Proof using Hg Hok Hbn Hne.
  unfold nfree. do 2 f_equal. apply filter_ext_in. intros b Hb%elem_of_seqZ.
  rewrite write_used by lia. done.
Qed.

End Write.

End Pure.
