(* ===== verification/FsBmap.v ===== *)
(** * The file system: [bmap]

    The block of a file at an offset, with the blocks it allocates. *)

From stdpp Require Import base tactics numbers gmap strings list sets.
From Stdlib Require Import ZArith Lia.
From S2P Require Import Prelude Mmu Memory Spinlock Sleeplock Cache Log LogFacts Store Fs FsFacts FsFile.

(** ** What a write spends of the log *)

Definition bitmaps (sb : superblock) : gset Z := list_to_set (seqZ (sb_bmapstart sb) (bmap_blocks sb)).
Definition ind_set (x : inode) : gset Z := if ind_addr x =? 0 then ∅ else {[ind_addr x]}.
Definition ind_need (x : inode) : Z := if ind_addr x =? 0 then 1 else 0.

(** The blocks that are or may have to be logged: those logged, the bitmap and
    the indirect block. *)
Definition spent (sb : superblock) (L : gset Z) (x : inode) : Z :=
  Z.of_nat (size (L ∪ bitmaps sb ∪ ind_set x)) + ind_need x.

Lemma size_add (X : gset Z) a : Z.of_nat (size (X ∪ {[a]})) <= Z.of_nat (size X) + 1.
Proof.
  pose proof (size_union_alt X {[a]}). pose proof (subseteq_size ({[a]} ∖ X) {[a]} ltac:(set_solver)).
  rewrite size_singleton in *. lia.
Qed.

Lemma size_le (X Y : gset Z) : X ⊆ Y -> Z.of_nat (size X) <= Z.of_nat (size Y).
Proof. intros Hs. apply inj_le. by apply subseteq_size. Qed.

Lemma bblock_bitmap sb lo hi b : fs_geo sb lo hi -> 0 <= b < sb_size sb -> BBLOCK b sb ∈ bitmaps sb.
Proof.
  intros Hg Hb. destruct (BBLOCK_eq _ _ _ _ Hg Hb) as [_ [Hr Hr']]. unfold bitmaps.
  rewrite elem_of_list_to_set, elem_of_seqZ. unfold data_start in Hr'. lia.
Qed.

Section Bmap.
Context {S : Type} `{TxStore S}.
Implicit Types (s : fsst S) (T : store) (d : S) (x : inode).

(** Inode [ip] locked in a transaction, between two uses of the cache. *)
Record file_in s T (ip : Z) x : Prop := {
  fi_ip : 0 <= ip < NINODE;
  fi_x : (inodes s).[ip] = x;
  fi_dev : i_dev x = 1;
  fi_rep : t_rep (disk s) T;
  fi_held : st_held T = ∅;
  fi_geo : fs_geo (sb s) (st_lo T) (st_hi T);
  fi_cap : st_cap T + 1 < NBUF;
  fi_ok : file_ok (sb s) (st_cur T) x;
  fi_bits : meta_used (sb s) (st_cur T)
}.

(** The state with inode [ip] being [x] and the disk [d]. *)
Definition fs_set (ip : Z) x d s : fsst S :=
  mkfs (sb s) (iclock s) (<[ip := x]> (inodes s)) d (mypid s) (cwd s).

(** [s'] is [s] with inode [ip] being [x], up to the disk. *)
Record fs_at s (ip : Z) x s' : Prop := {
  at_sb : sb s' = sb s;
  at_lock : iclock s' = iclock s;
  at_pid : mypid s' = mypid s;
  at_cwd : cwd s' = cwd s;
  at_inodes : forall j, (inodes s').[j] = if decide (j = ip) then x else (inodes s).[j]
}.

Lemma fs_at_set s ip x d : fs_at s ip x (fs_set ip x d s).
Proof.
  split; try done. intros j. cbn. rewrite asel_insert. repeat case_decide; congruence.
Qed.

Lemma fs_at_same s ip x d : (inodes s).[ip] = x -> fs_at s ip x (with_disk d s).
Proof. intros Hx. split; try done. intros j. cbn. case_decide; congruence. Qed.

Lemma fs_at_trans s ip x s1 x' s2 : fs_at s ip x s1 -> fs_at s1 ip x' s2 -> fs_at s ip x' s2.
Proof.
  intros [A1 A2 A3 A4 A5] [B1 B2 B3 B4 B5]. split; try congruence.
  intros j. rewrite B5, A5. by case_decide.
Qed.

Lemma wp_get_inode s ip (Q : inode -> fsst S -> Prop) : 0 <= ip < NINODE ->
  Q (inodes s).[ip] s -> wp (get_inode ip) Q s.
Proof. intros Hip HQ. by apply wp_aget. Qed.

Lemma wp_upd_inode s ip f (Q : unit -> fsst S -> Prop) : 0 <= ip < NINODE ->
  Q tt (fs_set ip (f (inodes s).[ip]) (disk s) s) -> wp (upd_inode ip f) Q s.
Proof. intros Hip HQ. apply wp_bind, wp_get_inode; [done|]. by apply wp_aset. Qed.

Lemma wp_get_addr s ip k (Q : Z -> fsst S -> Prop) : 0 <= ip < NINODE -> 0 <= k <= NDIRECT ->
  Q (i_addrs (inodes s).[ip]).[k] s -> wp (get_addr ip k) Q s.
Proof. intros Hip Hk HQ. apply wp_bind, wp_get_inode; [done|]. apply wp_aget; [lia|done]. Qed.

Lemma wp_set_addr s ip k v (Q : unit -> fsst S -> Prop) : 0 <= ip < NINODE -> 0 <= k <= NDIRECT ->
  Q tt (fs_set ip (with_addrs (<[k := v]> (i_addrs (inodes s).[ip])) (inodes s).[ip]) (disk s) s) ->
  wp (set_addr ip k v) Q s.
Proof.
  intros Hip Hk HQ. unfold set_addr. destruct (Z.leb_spec 0 k), (Z.ltb_spec k (NDIRECT + 1)); cbn; try lia.
  by apply wp_upd_inode.
Qed.

(** [balloc] when some block is free, and only data blocks in use are held. *)
Lemma wp_balloc_any s T (Q : Z -> fsst S -> Prop) : t_rep (disk s) T -> fs_view (sb s) T ->
  meta_used (sb s) (st_cur T) -> 0 < nfree (sb s) (st_cur T) ->
  (forall n, st_holds T n -> data_used (sb s) (st_cur T) n) ->
  Z.of_nat (size (st_logs T ∪ bitmaps (sb s))) + 1 <= st_cap T ->
  (forall b d, data_start (sb s) <= b < sb_size (sb s) -> used (sb s) (st_cur T) b = false ->
    t_rep d (allocated (sb s) b T) -> Q b (with_disk d s)) ->
  wp (balloc 1) Q s.
Proof.
  intros Hr Hv Hm Hn Hh Hc HQ. pose proof (fv_geo _ _ Hv) as Hg.
  destruct (first_free _ _ _ Hg _ Hm Hn) as (b & Hb & Hf & Hb'). destruct (data_start_lo _ _ _ Hg).
  apply (wp_balloc s T b); [|done|intros d R; by apply HQ]. split; try done.
  - intros Hx%Hh. destruct Hx. congruence.
  - pose proof (bblock_bitmap _ _ _ b Hg ltac:(lia)).
    pose proof (size_add (st_logs T ∪ bitmaps (sb s)) b).
    pose proof (size_le ({[b]} ∪ ({[BBLOCK b (sb s)]} ∪ st_logs T)) (st_logs T ∪ bitmaps (sb s) ∪ {[b]})
      ltac:(set_solver)). lia.
Qed.

Lemma empty_readable T n : st_held T = ∅ -> st_lo T <= n < st_hi T -> st_cap T < NBUF -> readable T n.
Proof.
  intros Hh Hn Hc. split; [done|]. unfold st_holds. rewrite Hh, map_size_empty. split; [|lia].
  intros (b & c & E). by rewrite lookup_empty in E.
Qed.

Lemma data_readable sb T n : fs_geo sb (st_lo T) (st_hi T) -> st_held T = ∅ -> st_cap T + 1 < NBUF ->
  data_start sb <= n < sb_size sb -> readable T n.
Proof.
  intros Hg Hh Hc Hn. destruct (data_start_lo _ _ _ Hg). pose proof (fg_size _ _ _ Hg).
  apply empty_readable; [done|lia|lia].
Qed.

(** A block the file has. *)
Lemma wp_bmap_old s T ip x bn (Q : Z -> fsst S -> Prop) : file_in s T ip x -> in_file bn ->
  blk (st_cur T) x bn <> 0 ->
  (forall d, t_rep d T -> Q (blk (st_cur T) x bn) (with_disk d s)) -> wp (bmap ip bn) Q s.
Proof.
  intros Hf [Hbn Hbn'] Hne HQ. pose proof Hf as [Hip Hx Hd Hr Hh Hg Hc Hok Hm].
  apply wp_bind, wp_get_inode; [done|]. rewrite Hx, Hd. unfold blk in *. destruct (Z.ltb_spec bn NDIRECT).
  - apply wp_bind, wp_get_addr; [done|lia|]. rewrite Hx. destruct (Z.eqb_spec (i_addrs x).[bn] 0); [done|].
    apply wp_ret. replace s with (with_disk (disk s) s) by by destruct s. by apply HQ.
  - destruct (Z.ltb_spec (bn - NDIRECT) NINDIRECT); [|unfold MAXFILE in Hbn'; lia].
    destruct (Z.eqb_spec (ind_addr x) 0) as [|Hi]; [done|].
    apply wp_bind, wp_get_addr; [done|by assert (0 <= NDIRECT) by done; lia|]. rewrite Hx.
    change ((i_addrs x).[NDIRECT]) with (ind_addr x). destruct (Z.eqb_spec (ind_addr x) 0); [done|].
    apply wp_bind, wp_ret. destruct (fo_ind _ _ _ Hok Hi) as [Hr' _].
    apply wp_bind. eapply fwp_bread; [exact Hr|by eapply data_readable|]. intros b d1 Hb R1. apply wp_bind. eapply fwp_data; [exact R1|apply lookup_insert_eq|].
    cbn [st_cur st_hold]. destruct (Z.eqb_spec (load32 (st_cur T (ind_addr x)) (4 * (bn - NDIRECT))) 0); [done|].
    apply wp_bind, wp_ret. apply wp_bind. eapply fwp_brelse; [exact R1|apply lookup_insert_eq|].
    intros d2 R2. apply wp_ret, HQ. eapply t_rep_equiv; [exact R2|by apply drop_hold].
Qed.

(** What [bmap] does: the file has block [bn], at [addr]; at most that block
    and an indirect block are new. *)
Record bmap_post sb T x (bn addr : Z) T' x' : Prop := {
  bm_grows : file_grows sb (st_cur T) (st_cur T') x x';
  bm_addr : addr = blk (st_cur T') x' bn;
  bm_ne : addr <> 0;
  bm_old : blk (st_cur T) x bn <> 0 -> x' = x;
  bm_held : st_held T' = ∅;
  bm_frame : st_cap T' = st_cap T /\ st_lo T' = st_lo T /\ st_hi T' = st_hi T;
  bm_spent : spent sb (st_logs T' ∪ {[addr]}) x' <= spent sb (st_logs T) x + 1;
  bm_free : nfree sb (st_cur T) - ind_need x - 1 <= nfree sb (st_cur T') - ind_need x'
}.

Lemma file_in_view s T ip x : file_in s T ip x -> fs_view (sb s) T.
Proof.
  intros [Hip Hx Hd Hr Hh Hg Hc Hok Hm]. split; [done| |rewrite Hh, map_size_empty; lia].
  intros b Hb (b' & c & E). by rewrite Hh, lookup_empty in E.
Qed.

Lemma spent_le sb L x : Z.of_nat (size (L ∪ bitmaps sb)) <= spent sb L x - ind_need x /\ 0 <= ind_need x <= 1.
Proof.
  unfold spent, ind_need. pose proof (size_le (L ∪ bitmaps sb) (L ∪ bitmaps sb ∪ ind_set x) ltac:(set_solver)).
  destruct (ind_addr x =? 0); lia.
Qed.

Lemma spent_old sb L x a : spent sb (L ∪ {[a]}) x <= spent sb L x + 1.
Proof.
  unfold spent. pose proof (size_add (L ∪ bitmaps sb ∪ ind_set x) a).
  replace (L ∪ {[a]} ∪ bitmaps sb ∪ ind_set x) with (L ∪ bitmaps sb ∪ ind_set x ∪ {[a]}) by set_solver. lia.
Qed.

Lemma spent_mono sb L L' x : L ⊆ L' ∪ bitmaps sb ∪ ind_set x -> spent sb L x <= spent sb L' x.
Proof.
  intros Hs. unfold spent.
  pose proof (size_le (L ∪ bitmaps sb ∪ ind_set x) (L' ∪ bitmaps sb ∪ ind_set x) ltac:(set_solver)). lia.
Qed.

(** [balloc] for a file. *)
Lemma wp_balloc_file s T ip x (Q : Z -> fsst S -> Prop) : file_in s T ip x ->
  0 < nfree (sb s) (st_cur T) -> spent (sb s) (st_logs T) x - ind_need x + 1 <= st_cap T ->
  (forall b d, data_start (sb s) <= b < sb_size (sb s) -> used (sb s) (st_cur T) b = false ->
    t_rep d (allocated (sb s) b T) -> Q b (with_disk d s)) ->
  wp (balloc 1) Q s.
Proof.
  intros Hf Hn Hs HQ. pose proof Hf as [Hip Hx Hd Hr Hh Hg Hc Hok Hm].
  pose proof (spent_le (sb s) (st_logs T) x). eapply wp_balloc_any; try done.
  - by eapply file_in_view.
  - intros n (b' & c & E). by rewrite Hh, lookup_empty in E.
  - lia.
Qed.

Lemma alloc_logs sb lo hi T b x : fs_geo sb lo hi -> data_start sb <= b < sb_size sb ->
  st_logs (allocated sb b T) ⊆ st_logs T ∪ {[b]} ∪ bitmaps sb ∪ ind_set x.
Proof.
  intros Hg Hb. destruct (data_start_lo _ _ _ Hg). pose proof (bblock_bitmap _ _ _ b Hg ltac:(lia)).
  cbn. set_solver.
Qed.

Lemma wp_bmap_direct s T ip x bn (Q : Z -> fsst S -> Prop) : file_in s T ip x -> 0 <= bn < NDIRECT ->
  blk (st_cur T) x bn = 0 ->
  spent (sb s) (st_logs T) x + 1 <= st_cap T -> ind_need x + 1 <= nfree (sb s) (st_cur T) ->
  (forall addr T' x' s', bmap_post (sb s) T x bn addr T' x' -> t_rep (disk s') T' -> fs_at s ip x' s' ->
    Q addr s') ->
  wp (bmap ip bn) Q s.
Proof.
  intros Hf Hbn H0 Hs Hn HQ. pose proof Hf as [Hip Hx Hd Hr Hh Hg Hc Hok Hm].
  pose proof (spent_le (sb s) (st_logs T) x) as [_ Hneed].
  apply wp_bind, wp_get_inode; [done|]. rewrite Hx, Hd. destruct (Z.ltb_spec bn NDIRECT); [|lia].
  apply wp_bind, wp_get_addr; [done|lia|]. rewrite Hx.
  assert ((i_addrs x).[bn] = 0) as ->. { unfold blk in H0. by destruct (Z.ltb_spec bn NDIRECT); [|lia]. }
  apply wp_bind. eapply wp_balloc_file; [exact Hf|lia|lia|]. intros b d Hb Hfree R.
  apply wp_bind, wp_set_addr; [done|lia|]. apply wp_ret. cbn [inodes with_disk lset disk_lens]. rewrite Hx.
  pose proof (grow_direct _ _ _ Hg _ _ Hok Hm _ Hb Hfree bn Hbn H0) as Hgr.
  apply (HQ b (allocated (sb s) b T) (with_addrs (<[bn:=b]> (i_addrs x)) x)); [|exact R|exact (fs_at_set s ip _ d)].
  set (x' := with_addrs _ x) in *. assert (ind_addr x' = ind_addr x) as Hi.
  { unfold ind_addr, x'. cbn. rewrite asel_insert_ne by lia. done. }
  assert (forall L, spent (sb s) L x' = spent (sb s) L x) as Hsp.
  { intros L. unfold spent, ind_set, ind_need. by rewrite Hi. }
  split; try done.
  - unfold x'. rewrite blk_set_direct by lia. by rewrite decide_True.
  - destruct (data_start_lo _ _ _ Hg). lia.
  - rewrite Hsp. etrans; [|apply (spent_old _ _ _ b)]. apply spent_mono.
    pose proof (alloc_logs _ _ _ T b x Hg Hb). set_solver.
  - unfold ind_need. rewrite Hi. pose proof (nfree_alloc _ _ _ Hg (st_cur T) b Hb Hfree) as E.
    change (st_cur (allocated (sb s) b T)) with (alloc_cur (sb s) b (st_cur T)). lia.
Qed.

(** The first half of the indirect case: the indirect block is there. *)
Record ind_post sb T x T' x' : Prop := {
  ip_grows : file_grows sb (st_cur T) (st_cur T') x x';
  ip_ind : ind_addr x' <> 0;
  ip_held : st_held T' = ∅;
  ip_frame : st_cap T' = st_cap T /\ st_lo T' = st_lo T /\ st_hi T' = st_hi T;
  ip_spent : spent sb (st_logs T') x' <= spent sb (st_logs T) x;
  ip_free : nfree sb (st_cur T) - ind_need x <= nfree sb (st_cur T');
  ip_blk : forall bn, in_file bn -> blk (st_cur T') x' bn = blk (st_cur T) x bn
}.

Definition bmap_ind (ip dev : Z) : M (fsst S) Z :=
  let* addr := get_addr ip NDIRECT in
  if addr =? 0 then
    let* addr := balloc dev in
    set_addr ip NDIRECT addr ;;;
    ret addr
  else ret addr.

Lemma grows_in s T ip x s' T' x' : file_in s T ip x -> file_grows (sb s) (st_cur T) (st_cur T') x x' ->
  st_held T' = ∅ -> st_cap T' = st_cap T /\ st_lo T' = st_lo T /\ st_hi T' = st_hi T ->
  t_rep (disk s') T' -> fs_at s ip x' s' -> file_in s' T' ip x'.
Proof.
  intros [Hip Hx Hd Hr Hh Hg Hc Hok Hm] Hgr Hh' (E1 & E2 & E3) Hr' [A1 A2 A3 A4 A5].
  split; rewrite ?A1, ?E1, ?E2, ?E3; try done.
  - rewrite A5. by rewrite decide_True.
  - rewrite (gr_x _ _ _ _ _ _ Hgr). done.
  - apply (gr_ok _ _ _ _ _ _ Hgr).
  - apply (gr_bits _ _ _ _ _ _ Hgr).
Qed.

Lemma wp_bmap_ind s T ip x (Q : Z -> fsst S -> Prop) : file_in s T ip x ->
  spent (sb s) (st_logs T) x <= st_cap T -> ind_need x <= nfree (sb s) (st_cur T) ->
  (forall T' x' s', ind_post (sb s) T x T' x' -> t_rep (disk s') T' -> fs_at s ip x' s' ->
    Q (ind_addr x') s') ->
  wp (bmap_ind ip 1) Q s.
Proof.
  intros Hf Hs Hn HQ. pose proof Hf as [Hip Hx Hd Hr Hh Hg Hc Hok Hm].
  assert (0 < NDIRECT) by done. apply wp_bind, wp_get_addr; [done|lia|]. rewrite Hx.
  change ((i_addrs x).[NDIRECT]) with (ind_addr x). destruct (Z.eqb_spec (ind_addr x) 0) as [E|E].
  2:{ apply wp_ret. apply (HQ T x); [|done|].
      - split; try done; [by eapply grows_refl|]. unfold ind_need. destruct (Z.eqb_spec (ind_addr x) 0); [done|lia].
      - replace s with (with_disk (disk s) s) at 2 by by destruct s. by apply fs_at_same. }
  assert (ind_need x = 1) as Hneed by (unfold ind_need; by rewrite E).
  apply wp_bind. eapply wp_balloc_file; [exact Hf|lia|lia|]. intros b d Hb Hfree R.
  apply wp_bind, wp_set_addr; [done|lia|]. apply wp_ret. cbn [inodes with_disk lset disk_lens]. rewrite Hx.
  pose proof (grow_ind _ _ _ Hg _ _ Hok Hm _ Hb Hfree E) as Hgr.
  set (x' := with_addrs _ x) in *. assert (ind_addr x' = b) as Hi.
  { unfold ind_addr, x'. cbn. by rewrite asel_insert_eq. }
  destruct (data_start_lo _ _ _ Hg).
  rewrite <- Hi at 1. apply (HQ (allocated (sb s) b T) x'); [|exact R|exact (fs_at_set s ip _ d)].
  split; try done.
  - lia.
  - unfold spent, ind_set, ind_need. rewrite Hi, E. destruct (Z.eqb_spec b 0); [lia|].
    pose proof (size_add (st_logs T ∪ bitmaps (sb s)) b). cbn [Z.eqb].
    pose proof (alloc_logs _ _ _ T b x Hg Hb) as Hl. unfold ind_set in Hl. rewrite E in Hl. cbn in Hl |- *.
    pose proof (size_le ({[b]} ∪ ({[BBLOCK b (sb s)]} ∪ st_logs T) ∪ bitmaps (sb s) ∪ {[b]})
      (st_logs T ∪ bitmaps (sb s) ∪ {[b]}) ltac:(set_solver)).
    replace (st_logs T ∪ bitmaps (sb s) ∪ ∅) with (st_logs T ∪ bitmaps (sb s)) by set_solver. lia.
  - pose proof (nfree_alloc _ _ _ Hg (st_cur T) b Hb Hfree) as E1.
    change (st_cur (allocated (sb s) b T)) with (alloc_cur (sb s) b (st_cur T)). lia.
  - intros bn Hin. by apply ind_blk.
Qed.

(** The second half: the entry of the indirect block. *)
Definition bmap_entry (dev k addr : Z) : M (fsst S) Z :=
  let* bp := Fs.bread dev addr in
  let* a := Fs.data bp in
  let addr := load32 a (4 * k) in
  let* addr := (if addr =? 0 then
                  let* addr := balloc dev in
                  let* a := Fs.data bp in
                  Fs.set_data bp (store32 a (4 * k) addr) ;;;
                  Fs.log_write bp ;;;
                  ret addr
                else ret addr) in
  Fs.brelse bp ;;;
  ret addr.

Lemma hold_view s T ip x b n : file_in s T ip x -> st_held T !! b = None -> data_start (sb s) <= n ->
  fs_view (sb s) (st_hold b n T).
Proof.
  intros Hf Hb Hn. pose proof Hf as [Hip Hx Hd Hr Hh Hg Hc Hok Hm]. split; [done| |].
  - intros a Ha (b' & c & E). cbn in E. rewrite Hh in E.
    apply lookup_insert_Some in E as [[_ [= ->]]|[_ E]]; [|done].
    pose proof (bblock_lt _ _ _ Hg a Ha). lia.
  - cbn. rewrite Hh, map_size_insert_None, map_size_empty by done. lia.
Qed.

Lemma wp_bmap_entry_old s T ip x bn (Q : Z -> fsst S -> Prop) : file_in s T ip x -> NDIRECT <= bn < MAXFILE ->
  ind_addr x <> 0 -> blk (st_cur T) x bn <> 0 ->
  (forall d, t_rep d T -> Q (blk (st_cur T) x bn) (with_disk d s)) ->
  wp (bmap_entry 1 (bn - NDIRECT) (ind_addr x)) Q s.
Proof.
  intros Hf Hbn Hi Hne HQ. pose proof Hf as [Hip Hx Hd Hr Hh Hg Hc Hok Hm].
  destruct (fo_ind _ _ _ Hok Hi) as [Hri Hui].
  apply wp_bind. eapply fwp_bread; [exact Hr|by eapply data_readable|]. intros b d1 Hb R1.
  apply wp_bind. eapply fwp_data; [exact R1|apply lookup_insert_eq|].
  unfold blk in *. destruct (Z.ltb_spec bn NDIRECT); [lia|]. destruct (Z.eqb_spec (ind_addr x) 0); [done|].
  cbn [st_cur st_hold]. destruct (Z.eqb_spec (load32 (st_cur T (ind_addr x)) (4 * (bn - NDIRECT))) 0); [done|].
  apply wp_bind, wp_ret, wp_bind. eapply fwp_brelse; [exact R1|apply lookup_insert_eq|].
  intros d2 R2. apply wp_ret, HQ. eapply t_rep_equiv; [exact R2|by apply drop_hold].
Qed.

Lemma wp_bmap_entry_new s T ip x bn (Q : Z -> fsst S -> Prop) : file_in s T ip x -> NDIRECT <= bn < MAXFILE ->
  ind_addr x <> 0 -> blk (st_cur T) x bn = 0 ->
  spent (sb s) (st_logs T) x + 1 <= st_cap T -> 1 <= nfree (sb s) (st_cur T) ->
  (forall addr T' s', bmap_post (sb s) T x bn addr T' x -> t_rep (disk s') T' -> fs_at s ip x s' -> Q addr s') ->
  wp (bmap_entry 1 (bn - NDIRECT) (ind_addr x)) Q s.
Proof.
  intros Hf Hbn Hi H0 Hs Hn HQ. pose proof Hf as [Hip Hx Hd Hr Hh Hg Hc Hok Hm].
  pose proof (fo_ind _ _ _ Hok Hi) as Hui. destruct (data_start_lo _ _ _ Hg).
  assert (load32 (st_cur T (ind_addr x)) (4 * (bn - NDIRECT)) = 0) as E0.
  { unfold blk in H0. destruct (Z.ltb_spec bn NDIRECT); [lia|]. by destruct (Z.eqb_spec (ind_addr x) 0). }
  pose proof (spent_le (sb s) (st_logs T) x) as Hle.
  apply wp_bind. eapply fwp_bread; [exact Hr|eapply data_readable; [done..|apply Hui]|]. intros b d1 Hb R1.
  apply wp_bind. eapply fwp_data; [exact R1|apply lookup_insert_eq|].
  cbn [st_cur st_hold]. rewrite E0. cbn [Z.eqb].
  apply wp_bind, wp_bind. eapply wp_balloc_any;
    [exact R1|exact (hold_view s T ip x b _ Hf Hb (proj1 (proj1 Hui)))|done|cbn; lia| |cbn; lia|].
  { intros n (b' & c & E). cbn in E. rewrite Hh in E. apply lookup_insert_Some in E as [[_ E]|[_ E]]; [|by rewrite lookup_empty in E].
    by injection E as <- _. }
  intros a d2 Ha Hfree R2. change (sb (with_disk d1 s)) with (sb s) in *.
  set (T1 := allocated (sb s) a T). set (v := store32 (st_cur T1 (ind_addr x)) (4 * (bn - NDIRECT)) a).
  assert (st_logs T1 ∪ {[ind_addr x]} ⊆ st_logs T ∪ {[a]} ∪ bitmaps (sb s) ∪ ind_set x) as Hl.
  { pose proof (alloc_logs _ _ _ T a x Hg Ha). unfold ind_set in *. destruct (Z.eqb_spec (ind_addr x) 0); set_solver. }
  change (allocated (sb s) a (st_hold b (ind_addr x) T)) with (st_hold b (ind_addr x) T1) in R2.
  apply wp_bind. eapply fwp_data; [exact R2|apply lookup_insert_eq|]. cbn [st_cur st_hold].
  apply wp_bind. eapply fwp_set_data; [exact R2|apply lookup_insert_eq|]. intros d3 R3.
  apply wp_bind. eapply fwp_log_write; [exact R3|apply lookup_insert_eq| |].
  { pose proof (spent_old (sb s) (st_logs T) x a) as Ho.
    pose proof (size_le ({[ind_addr x]} ∪ st_logs T1) (st_logs T ∪ {[a]} ∪ bitmaps (sb s) ∪ ind_set x)
      ltac:(set_solver)). unfold spent in Ho, Hs.
    change (Z.of_nat (size ({[ind_addr x]} ∪ st_logs T1)) <= st_cap T). lia. }
  intros d4 R4. apply wp_ret, wp_bind. eapply fwp_brelse; [exact R4|apply lookup_insert_eq|]. intros d5 R5.
  apply wp_ret. apply (HQ a (st_upd (ind_addr x) v T1)).
  - pose proof (grow_entry _ _ _ Hg _ _ Hok Hm _ Ha Hfree bn Hi Hbn H0) as Hgr. split; try done.
    + change (st_cur (st_upd (ind_addr x) v T1)) with (set_entry x bn a (alloc_cur (sb s) a (st_cur T))).
      assert (0 <= NDIRECT) by done. pose proof (fg_size _ _ _ Hg). pose proof (fg_hi _ _ _ Hg).
      rewrite blk_set_entry by lia. by rewrite decide_True.
    + lia.
    + etrans; [|apply (spent_old _ _ _ a)]. apply spent_mono. cbn [st_logs st_upd]. set_solver.
    + pose proof (nfree_alloc _ _ _ Hg (st_cur T) a Ha Hfree) as E1.
      pose proof (nfree_entry (sb s) (st_lo T) (st_hi T) Hg x bn a (alloc_cur (sb s) a (st_cur T)) ltac:(apply Hui)) as E2.
      change (st_cur (st_upd (ind_addr x) v T1)) with (set_entry x bn a (alloc_cur (sb s) a (st_cur T))). lia.
  - eapply t_rep_equiv; [exact R5|]. by apply upd_equiv.
  - by apply (fs_at_same s ip x d5).
Qed.

Lemma wp_assoc {A B C} (m : M (fsst S) A) (f : A -> M (fsst S) B) (g : B -> M (fsst S) C) Q s :
  wp (bind (bind m f) g) Q s -> wp (bind m (fun a => bind (f a) g)) Q s.
Proof. unfold wp, bind. by destruct (m s). Qed.

(** [bmap] gives the block [bn] of the file, allocating what is missing. *)
Lemma wp_bmap s T ip x bn (Q : Z -> fsst S -> Prop) : file_in s T ip x -> in_file bn ->
  spent (sb s) (st_logs T) x + 1 <= st_cap T -> ind_need x + 1 <= nfree (sb s) (st_cur T) ->
  (forall addr T' x' s', bmap_post (sb s) T x bn addr T' x' -> t_rep (disk s') T' -> fs_at s ip x' s' ->
    Q addr s') ->
  wp (bmap ip bn) Q s.
Proof.
  intros Hf Hbn Hs Hn HQ. pose proof Hf as [Hip Hx Hd Hr Hh Hg Hc Hok Hm].
  destruct (decide (blk (st_cur T) x bn = 0)) as [H0|Hne].
  2:{ apply (wp_bmap_old s T ip x); [done..|]. intros d R. apply (HQ _ T x); [|done|by apply fs_at_same].
      split; try done; [by eapply grows_refl|apply spent_old|lia]. }
  destruct (decide (bn < NDIRECT)) as [Hlt|Hge].
  { destruct Hbn. by apply (wp_bmap_direct s T ip x); [done|lia|..]. }
  assert (NDIRECT <= bn < MAXFILE) as Hbn' by (destruct Hbn; lia).
  unfold bmap. apply wp_bind, wp_get_inode; [done|]. rewrite Hx, Hd. destruct (Z.ltb_spec bn NDIRECT); [lia|].
  destruct (Z.ltb_spec (bn - NDIRECT) NINDIRECT); [|unfold MAXFILE in Hbn'; lia].
  apply wp_assoc. apply wp_bind. change (wp (bmap_ind ip 1) (fun a s' => wp (bmap_entry 1 (bn - NDIRECT) a) Q s') s).
  apply (wp_bmap_ind s T ip x); [done|lia|lia|]. intros T1 x1 s1 [G1 I1 L1 F1 S1 N1 B1] R1 A1.
  pose proof (grows_in _ _ _ _ _ _ _ Hf G1 L1 F1 R1 A1) as Hf1. pose proof (at_sb _ _ _ _ A1) as Esb.
  assert (ind_need x1 = 0) as E1 by (unfold ind_need; by destruct (Z.eqb_spec (ind_addr x1) 0)).
  apply (wp_bmap_entry_new s1 T1 ip x1 bn); rewrite ?Esb; [done|done|done| | | |].
  - by rewrite B1.
  - destruct F1 as (-> & _). lia.
  - lia.
  - intros a T2 s2 [G2 D2 E2 O2 L2 F2 S2 N2] R2 A2. apply (HQ a T2 x1); [|done|by eapply fs_at_trans].
    split; try done.
    + by eapply grows_trans.
    + destruct F1 as (<- & <- & <-). done.
    + lia.
    + lia.
Qed.

End Bmap.
