(* ===== verification/FsInode.v ===== *)
(** * The file system: inodes on disk

    The copy [iupdate] writes is the one [ilock] reads. *)

From stdpp Require Import base tactics numbers gmap strings list sets.
From Stdlib Require Import ZArith Lia.
From S2P Require Import Prelude Mmu Memory Spinlock Sleeplock Cache Log LogFacts Store Fs FsFacts FsFile FsBmap.

(** The fields fit in a [struct dinode]. *)
Record inode_wf (x : inode) : Prop := {
  iw_type : -32768 <= i_type x < 32768;
  iw_major : -32768 <= i_major x < 32768;
  iw_minor : -32768 <= i_minor x < 32768;
  iw_nlink : -32768 <= i_nlink x < 32768;
  iw_size : 0 <= i_size x < 4294967296;
  iw_addrs : forall k, 0 <= k <= NDIRECT -> 0 <= (i_addrs x).[k] < 4294967296
}.

(** The [struct dinode] at [o] holds the fields of [x]. *)
Record stored (d : memory) (o : Z) (x : inode) : Prop := {
  sd_type : i16 (load16 d o) = i_type x;
  sd_major : i16 (load16 d (o + 2)) = i_major x;
  sd_minor : i16 (load16 d (o + 4)) = i_minor x;
  sd_nlink : i16 (load16 d (o + 6)) = i_nlink x;
  sd_size : load32 d (o + 8) = i_size x;
  sd_addrs : forall k, 0 <= k <= NDIRECT -> load32 d (o + 12 + 4 * k) = (i_addrs x).[k]
}.

Lemma load8_store16 m a v b : load8 (store16 m a v) b =
  if decide (b = a) then u8 v else if decide (b = a + 1) then u8 (v / 256) else load8 m b.
Proof. unfold store16. rewrite !load8_store8. repeat case_decide; try lia; done. Qed.

Lemma i16_load16 m a v : -32768 <= v < 32768 -> i16 (load16 (store16 m a v) a) = v.
Proof.
  intros Hv. unfold load16. rewrite !load8_store16. rewrite !decide_True by lia.
  rewrite (decide_False (P := a + 1 = a)) by lia. rewrite decide_True by lia.
  unfold i16, u8. Z.to_euclidean_division_equations. lia.
Qed.

Lemma load8_store32_out m a v b : b < a \/ a + 4 <= b -> load8 (store32 m a v) b = load8 m b.
Proof. intros Hb. unfold store32. rewrite !load8_store8. repeat case_decide; try lia; done. Qed.

Lemma foldl_store_out (a : arr Z) o ks d b : (forall k, k ∈ ks -> b < o + 12 + 4 * k \/ o + 12 + 4 * k + 4 <= b) ->
  load8 (foldl (fun d k => store32 d (o + 12 + 4 * k) a.[k]) d ks) b = load8 d b.
Proof.
  revert d. induction ks as [|k ks IH]; intros d Hk; [done|]. cbn. rewrite IH by set_solver.
  apply load8_store32_out. apply Hk. set_solver.
Qed.

Lemma foldl_store_in (a : arr Z) o ks d k : NoDup ks -> k ∈ ks ->
  load32 (foldl (fun d k => store32 d (o + 12 + 4 * k) a.[k]) d ks) (o + 12 + 4 * k) = u32 a.[k].
Proof.
  revert d. induction ks as [|k' ks IH]; intros d Hnd Hin; [by apply not_elem_of_nil in Hin|].
  apply NoDup_cons in Hnd as [Hk' Hnd]. apply elem_of_cons in Hin as [->|Hin]; cbn; [|by apply IH].
  rewrite <- (load32_store32_eq d (o + 12 + 4 * k')). apply load32_ext. intros b Hb. apply foldl_store_out.
  intros k Hk. assert (k <> k') by (by intros ->). lia.
Qed.

Lemma store_addrs_out a d o b : b < o + 12 \/ o + 64 <= b -> load8 (store_addrs a d o) b = load8 d b.
Proof.
  intros Hb. apply foldl_store_out. intros k Hk%elem_of_seqZ. assert (NDIRECT = 12) by done. lia.
Qed.

(** [iupdate]'s copy touches the inode's own bytes only. *)
Lemma dinode_put_out x d o b : b < o \/ o + DINODE_SIZE <= b -> load8 (dinode_put x d o) b = load8 d b.
Proof.
  unfold DINODE_SIZE. intros Hb. unfold dinode_put. rewrite store_addrs_out, load8_store32_out by lia.
  rewrite !load8_store16. repeat case_decide; try lia; done.
Qed.

Lemma load16_ext m m' a : load8 m a = load8 m' a -> load8 m (a + 1) = load8 m' (a + 1) -> load16 m a = load16 m' a.
Proof. unfold load16. congruence. Qed.

Lemma load16_store16_ne m a v b : b <> a -> b <> a + 1 -> b + 1 <> a -> load16 (store16 m a v) b = load16 m b.
Proof. intros. apply load16_ext; rewrite load8_store16; repeat case_decide; done || lia. Qed.

Lemma load16_store32_ne m a v b : b + 1 < a \/ a + 4 <= b -> load16 (store32 m a v) b = load16 m b.
Proof. intros. apply load16_ext; apply load8_store32_out; lia. Qed.

Lemma put_stored x d o : inode_wf x -> stored (dinode_put x d o) o x.
Proof.
  intros [Ht Hma Hmi Hn Hs Ha]. unfold dinode_put.
  assert (forall m b, b < o + 11 -> load16 (store_addrs (i_addrs x) m o) b = load16 m b) as E.
  { intros m b Hb. apply load16_ext; apply store_addrs_out; lia. }
  split; rewrite ?E by lia; rewrite ?load16_store32_ne by lia;
    try (rewrite !load16_store16_ne by lia; by apply i16_load16).
  - by apply i16_load16.
  - rewrite (load32_ext _ (store32 (store16 (store16 (store16 (store16 d o (i_type x)) (o + 2) (i_major x))
      (o + 4) (i_minor x)) (o + 6) (i_nlink x)) (o + 8) (i_size x))) by (intros b Hb; apply store_addrs_out; lia).
    rewrite load32_store32_eq. by apply u32_small.
  - intros k Hk. rewrite <- (u32_small (i_addrs x).[k]) by by apply Ha.
    apply foldl_store_in; [apply NoDup_seqZ|]. apply elem_of_seqZ. lia.
Qed.

(** What [ilock] reads of a stored inode. *)
Definition disk_eq (x y : inode) : Prop :=
  i_type x = i_type y /\ i_major x = i_major y /\ i_minor x = i_minor y /\ i_nlink x = i_nlink y /\
  i_size x = i_size y /\ forall k, 0 <= k <= NDIRECT -> (i_addrs x).[k] = (i_addrs y).[k].

Lemma load_addrs_sel d o k : 0 <= k <= NDIRECT -> (load_addrs d o).[k] = load32 d (o + 12 + 4 * k).
Proof.
  intros Hk. unfold load_addrs, asel.
  rewrite (elem_of_list_to_map_1 _ k (load32 d (o + 12 + 4 * k))); [done| |].
  - rewrite <- list_fmap_compose. cbn. rewrite list_fmap_id. apply NoDup_seqZ.
  - apply list_elem_of_fmap. exists k. split; [done|]. apply elem_of_seqZ. lia.
Qed.

Lemma stored_get d o x y : stored d o x -> disk_eq (dinode_get y d o) x.
Proof.
  intros [Ht Hma Hmi Hn Hs Ha]. repeat split; try done. intros k Hk. cbn. by rewrite load_addrs_sel, Ha.
Qed.

(** A stored inode stays stored when another one is written beside it. *)
Lemma stored_other d o o' x y : stored d o x -> o' + DINODE_SIZE <= o \/ o + DINODE_SIZE <= o' ->
  stored (dinode_put y d o') o x.
Proof.
  intros [Ht Hma Hmi Hn Hs Ha] Ho.
  assert (forall b, o <= b < o + 64 -> load8 (dinode_put y d o') b = load8 d b) as E.
  { intros b Hb. apply dinode_put_out. unfold DINODE_SIZE in *. lia. }
  split; rewrite ?(load16_ext _ d) by (apply E; lia); rewrite ?(load32_ext _ d) by (intros; apply E; lia); try done.
  intros k Hk. rewrite <- Ha by done. apply load32_ext. intros b Hb. apply E. assert (NDIRECT = 12) by done. lia.
Qed.

(** Distinct inodes have distinct places. *)
Lemma dinode_off_disjoint i j : 0 <= i -> 0 <= j -> i <> j -> i / IPB = j / IPB ->
  dinode_off i + DINODE_SIZE <= dinode_off j \/ dinode_off j + DINODE_SIZE <= dinode_off i.
Proof.
  intros Hi Hj Hne E. unfold dinode_off, DINODE_SIZE. assert (IPB = 8) as E8 by done. rewrite E8 in *.
  Z.to_euclidean_division_equations. lia.
Qed.

Definition inum_ok (sb : superblock) (i : Z) : Prop := 1 <= i < sb_ninodes sb.

Lemma IBLOCK_eq sb lo hi i : fs_geo sb lo hi -> inum_ok sb i ->
  IBLOCK i sb = i / IPB + sb_inodestart sb /\ sb_inodestart sb <= IBLOCK i sb < sb_bmapstart sb.
Proof.
  intros Hg [Hi Hi']. pose proof (fg_lo _ _ _ Hg). destruct (fg_inodes _ _ _ Hg) as [Hn Hb].
  pose proof (fg_data _ _ _ Hg) as Hd. pose proof (fg_size _ _ _ Hg). pose proof (fg_hi _ _ _ Hg).
  unfold data_start, bmap_blocks in Hd.
  assert (0 <= i / IPB <= sb_ninodes sb / IPB).
  { split; [apply Z.div_pos; [lia|done]|]. apply Z.div_le_mono; [done|lia]. }
  assert (0 <= sb_size sb / BPB).
  { apply Z.div_pos; [|done]. destruct (data_start_lo _ _ _ Hg). unfold data_start, bmap_blocks in *. lia. }
  unfold IBLOCK. rewrite u32_small by lia. lia.
Qed.

Section Inode.
Context {S : Type} `{TxStore S}.
Implicit Types (s : fsst S) (T : store) (d : S) (x : inode).

(** A cached inode while no buffer is held. *)
Record inode_in s T (ip : Z) x : Prop := {
  ii_ip : 0 <= ip < NINODE;
  ii_x : (inodes s).[ip] = x;
  ii_dev : i_dev x = 1;
  ii_inum : inum_ok (sb s) (i_inum x);
  ii_rep : t_rep (disk s) T;
  ii_held : st_held T = ∅;
  ii_geo : fs_geo (sb s) (st_lo T) (st_hi T);
  ii_cap : st_cap T < NBUF
}.

Definition inode_block s x : Z := IBLOCK (i_inum x) (sb s).

Lemma inode_readable s T ip x : inode_in s T ip x -> readable T (inode_block s x).
Proof.
  intros [Hip Hx Hd Hi Hr Hh Hg Hc]. destruct (IBLOCK_eq _ _ _ _ Hg Hi) as [_ Hb]. pose proof (fg_lo _ _ _ Hg).
  pose proof (fg_data _ _ _ Hg) as Hdt. pose proof (fg_size _ _ _ Hg). unfold data_start, bmap_blocks in Hdt.
  destruct (data_start_lo _ _ _ Hg). unfold data_start, bmap_blocks in *.
  assert (0 <= sb_size (sb s) / BPB) by (apply Z.div_pos; [lia|done]).
  apply empty_readable; [done|unfold inode_block; lia|lia].
Qed.

(** The store after [iupdate]. *)
Definition updated s x T : store :=
  st_upd (inode_block s x) (dinode_put x (st_cur T (inode_block s x)) (dinode_off (i_inum x))) T.

Lemma wp_iupdate s T ip x (Q : unit -> fsst S -> Prop) : inode_in s T ip x -> loggable T (inode_block s x) ->
  (forall d, t_rep d (updated s x T) -> Q tt (with_disk d s)) -> wp (iupdate ip) Q s.
Proof.
  intros Hf Hl HQ. pose proof Hf as [Hip Hx Hd Hi Hr Hh Hg Hc].
  apply wp_bind, wp_gets. apply wp_bind, wp_get_inode; [done|]. rewrite Hx, Hd.
  apply (fwp_update s T (inode_block s x) (fun v => dinode_put x v (dinode_off (i_inum x)))); try done.
  by eapply inode_readable.
Qed.

(** [ilock] of an inode that is not in memory reads it from the disk. *)
Definition locked_by s x : inode := with_ilock (mksl true (mypid s)) x.

Lemma wp_acquiresleep s ip x (Q : unit -> fsst S -> Prop) : 0 <= ip < NINODE -> (inodes s).[ip] = x ->
  sl_locked (i_lock x) = false -> Q tt (fs_set ip (locked_by s x) (disk s) s) -> wp (acquiresleep ip) Q s.
Proof.
  intros Hip Hx Hl HQ. apply wp_bind, wp_get_inode; [done|]. apply wp_bind, wp_gets. rewrite Hx.
  unfold Sleep.acquiresleep. rewrite Hl. apply wp_upd_inode; [done|]. by rewrite Hx.
Qed.

Lemma fs_set_set s ip x d x' d' : fs_set ip x' d' (fs_set ip x d s) = fs_set ip x' d' s.
Proof. unfold fs_set. cbn. by rewrite insert_insert_eq. Qed.

Lemma wp_ilock_read s T ip x y (Q : unit -> fsst S -> Prop) : inode_in s T ip x -> 0 < i_ref x ->
  sl_locked (i_lock x) = false -> i_valid x = false ->
  stored (st_cur T (inode_block s x)) (dinode_off (i_inum x)) y -> i_type y <> 0 ->
  (forall d x', disk_eq x' y -> x' = with_valid true (dinode_get (locked_by s x) (st_cur T (inode_block s x)) (dinode_off (i_inum x))) ->
    t_rep d T -> Q tt (fs_set ip x' d s)) ->
  wp (ilock ip) Q s.
Proof.
  intros Hf Href Hl Hv Hst Hty HQ. pose proof Hf as [Hip Hx Hd Hi Hr Hh Hg Hc].
  apply wp_bind, wp_get_inode; [done|]. rewrite Hx. destruct (Z.ltb_spec (i_ref x) 1); [lia|].
  apply wp_bind, (wp_acquiresleep s ip x); [done..|]. apply wp_bind, wp_get_inode; [done|].
  cbn [inodes fs_set]. rewrite asel_insert_eq. cbn [i_valid locked_by with_ilock i_dev i_inum]. rewrite Hv, Hd.
  cbn [negb when]. apply wp_bind, wp_gets. apply wp_bind. cbn [sb fs_set].
  eapply fwp_bread; [exact Hr|by eapply inode_readable|]. intros b d1 Hb R1.
  apply wp_bind. eapply fwp_data; [exact R1|apply lookup_insert_eq|]. cbn [st_cur st_hold].
  apply wp_bind, wp_upd_inode; [done|]. cbn [inodes fs_set with_disk lset disk_lens]. rewrite asel_insert_eq.
  apply wp_bind. eapply fwp_brelse; [exact R1|apply lookup_insert_eq|]. intros d2 R2.
  apply wp_bind, wp_upd_inode; [done|]. cbn [inodes fs_set with_disk lset disk_lens]. rewrite asel_insert_eq.
  apply wp_bind, wp_get_inode; [done|]. cbn [inodes fs_set]. rewrite asel_insert_eq.
  pose proof (stored_get _ _ _ (locked_by s x) Hst) as Hde. destruct (Hde) as (Et & _).
  match goal with |- wp (when (?t =? 0) _) _ _ => change t with
    (i_type (dinode_get (locked_by s x) (st_cur T (inode_block s x)) (dinode_off (i_inum x)))) end.
  rewrite Et. destruct (Z.eqb_spec (i_type y) 0); [done|]. apply wp_ret. unfold fs_set. cbn. rewrite !insert_insert_eq.
  apply (HQ d2 (with_valid true (dinode_get (locked_by s x) (st_cur T (inode_block s x)) (dinode_off (i_inum x)))));
    [exact Hde|done|]. eapply t_rep_equiv; [exact R2|by apply drop_hold].
Qed.

End Inode.
