(* ===== verification/FsRw.v ===== *)
(** * The file system: [readi] and [writei]

    [readi] returns the bytes of the file; [writei] changes those it is given
    and no others, and leaves every block of other files alone. *)

From stdpp Require Import base tactics numbers gmap strings list sets.
From Stdlib Require Import ZArith Lia.
From S2P Require Import Prelude Mmu Memory Spinlock Sleeplock Cache Log LogFacts Store Fs FsFacts FsFile FsBmap FsInode.

(** A file of [i_size] bytes, with every block it needs. *)
Definition dense (cur : Z -> memory) (x : inode) : Prop :=
  forall bn, 0 <= bn -> bn * BSIZE < i_size x -> blk cur x bn <> 0.

(** The bytes [o .. o+n) of the file. *)
Definition content (cur : Z -> memory) (x : inode) (o n : Z) : list Z := fbyte cur x <$> seqZ o n.

Lemma div_block o : 0 <= o < MAXFILE * BSIZE -> in_file (o / BSIZE).
Proof.
  intros Ho. split; [apply Z.div_pos; [lia|done]|]. apply Z.div_lt_upper_bound; [done|lia].
Qed.

Lemma dense_blk cur x o : dense cur x -> 0 <= o < i_size x -> blk cur x (o / BSIZE) <> 0.
Proof.
  intros Hd Ho. apply Hd; [apply Z.div_pos; [lia|done]|].
  pose proof (Z.mul_div_le o BSIZE ltac:(done)). lia.
Qed.

Lemma content_app cur x o n m : 0 <= n -> 0 <= m -> content cur x o n ++ content cur x (o + n) m = content cur x o (n + m).
Proof. intros Hn Hm. unfold content. rewrite seqZ_app by done. by rewrite fmap_app. Qed.

(** A piece of one block is a piece of the file. *)
Lemma get_bytes_content cur x o m : 0 <= o -> 0 <= m -> o mod BSIZE + m <= BSIZE -> blk cur x (o / BSIZE) <> 0 ->
  get_bytes (cur (blk cur x (o / BSIZE))) (o mod BSIZE) m = content cur x o m.
Proof.
  intros Ho Hm Hle Hne. unfold get_bytes, content. 
  assert (seqZ o m = Z.add o <$> seqZ 0 m) as -> by (by rewrite fmap_add_seqZ, Z.add_0_r).
  rewrite <- list_fmap_compose. apply list_fmap_ext. intros i k Hk. apply lookup_seqZ in Hk as [-> Hi].
  cbn. rewrite !Z.add_0_l. unfold fbyte.
  pose proof (Z.mod_pos_bound o BSIZE ltac:(done)). pose proof (Z.div_mod o BSIZE ltac:(done)).
  replace (o + Z.of_nat i) with (o / BSIZE * BSIZE + (o mod BSIZE + Z.of_nat i)) by lia.
  rewrite Z.div_add_l, (Z.div_small (o mod BSIZE + Z.of_nat i)), Z.add_0_r by (done || lia).
  assert ((o / BSIZE * BSIZE + (o mod BSIZE + Z.of_nat i)) mod BSIZE = o mod BSIZE + Z.of_nat i) as ->.
  { rewrite Z.add_comm, Z.mod_add by done. apply Z.mod_small. lia. }
  by destruct (Z.eqb_spec (blk cur x (o / BSIZE)) 0).
Qed.

(** ** What a write changes *)

(** The bytes [src] at [off]. *)
Definition patch (off : Z) (src : list Z) (o : Z) : option Z :=
  if decide (off <= o) then u8 <$> src !! Z.to_nat (o - off) else None.

Lemma patch_none off src o : o < off \/ off + Z.of_nat (length src) <= o -> patch off src o = None.
Proof.
  intros Ho. unfold patch. case_decide; [|done]. rewrite lookup_ge_None_2; [done|]. lia.
Qed.

Lemma put_bytes_load8 d o l a : load8 (put_bytes d o l) a = default (load8 d a) (patch o l a).
Proof.
  revert d o. induction l as [|c l IH]; intros d o; cbn [put_bytes].
  - rewrite patch_none; [done|]. cbn. lia.
  - rewrite IH. destruct (decide (a = o)) as [->|Hne].
    + rewrite patch_none by lia. unfold patch. rewrite decide_True, Z.sub_diag by lia. cbn.
      by rewrite load8_store8_eq.
    + rewrite load8_store8_ne by done. f_equal. unfold patch. repeat case_decide; try lia; try done.
      replace (Z.to_nat (a - o)) with (Datatypes.S (Z.to_nat (a - (o + 1)))) by lia. done.
Qed.

Lemma patch_shift off l k o : patch (off + k) l (o + k) = patch off l o.
Proof. unfold patch. repeat case_decide; try lia; [|done]. do 2 f_equal. lia. Qed.

Lemma patch_app off l1 l2 o :
  patch (off + Z.of_nat (length l1)) l2 o ∪ patch off l1 o = patch off (l1 ++ l2) o.
Proof.
  unfold patch. repeat case_decide; try lia; try done.
  - rewrite (lookup_ge_None_2 l1) by lia. rewrite lookup_app_r by lia. cbn.
    rewrite (right_id_L None union). do 2 f_equal. lia.
  - rewrite lookup_app_l by lia. by rewrite (left_id_L None union).
Qed.

(** The blocks a write of [o .. e) touches. *)
Definition nblocks (o e : Z) : Z := if decide (o < e) then (e - 1) / BSIZE - o / BSIZE + 1 else 0.

Lemma nblocks_step o e m : 0 <= o < e -> m = Z.min (e - o) (BSIZE - o mod BSIZE) ->
  nblocks o e = nblocks (o + m) e + 1.
Proof.
  intros Ho ->. unfold nblocks. assert (BSIZE = 512) as -> by done.
  repeat case_decide; Z.to_euclidean_division_equations; lia.
Qed.

Lemma nblocks_split o mid e : 0 <= o <= mid -> mid <= e -> mid = o \/ mid mod BSIZE = 0 ->
  nblocks o e = nblocks o mid + nblocks mid e.
Proof.
  intros Ho He Hm. unfold nblocks. assert (BSIZE = 512) as E by done. rewrite E in *.
  repeat case_decide; Z.to_euclidean_division_equations; lia.
Qed.

Lemma nblocks_pos o e : 0 <= o < e -> 1 <= nblocks o e.
Proof.
  intros Ho. unfold nblocks. rewrite decide_True by lia.
  pose proof (Z.div_le_mono o (e - 1) BSIZE ltac:(done) ltac:(lia)). lia.
Qed.

Lemma nblocks_nonneg o e : 0 <= o -> 0 <= nblocks o e.
Proof.
  intros Ho. unfold nblocks. case_decide; [|done].
  pose proof (Z.div_le_mono o (e - 1) BSIZE ltac:(done) ltac:(lia)). lia.
Qed.

(** ** Changing an inode block *)

Section Meta.
Context (sb : superblock) (lo hi : Z) (Hg : fs_geo sb lo hi) (cur : Z -> memory).
Context (n : Z) (v : memory) (Hn : n < sb_bmapstart sb).

Lemma meta_lt : sb_bmapstart sb < data_start sb.
Proof using Hg.
  destruct (data_start_lo _ _ _ Hg). pose proof (fg_data _ _ _ Hg). unfold data_start, bmap_blocks in *.
  assert (0 <= sb_size sb / BPB) by (apply Z.div_pos; [lia|done]). lia.
Qed.

Lemma meta_data m : data_start sb <= m -> fupd cur n v m = cur m.
Proof using Hg Hn. intros Hm. rewrite fupd_ne; [done|]. pose proof meta_lt. lia. Qed.

Lemma meta_bit b : 0 <= b < sb_size sb -> used sb (fupd cur n v) b = used sb cur b.
Proof using Hg Hn.
  intros Hb. unfold used. rewrite fupd_ne; [done|]. destruct (BBLOCK_eq _ _ _ _ Hg Hb). lia.
Qed.

Lemma meta_data_used b : data_used sb (fupd cur n v) b <-> data_used sb cur b.
Proof using Hg Hn.
  unfold data_used. destruct (data_start_lo _ _ _ Hg).
  split; intros [Hr Hu]; (split; [done|]); rewrite meta_bit in *; done || lia.
Qed.

Section File.
Context (x : inode) (Hok : file_ok sb cur x).

Lemma meta_blk bn : blk (fupd cur n v) x bn = blk cur x bn.
Proof using Hg Hn Hok. apply blk_ext. intros Hi. apply meta_data. apply (fo_ind _ _ _ Hok Hi). Qed.

Lemma meta_ok : file_ok sb (fupd cur n v) x.
Proof using Hg Hn Hok. split; intros *; rewrite ?meta_blk, ?meta_data_used; apply Hok. Qed.

Lemma meta_byte o : 0 <= o < MAXFILE * BSIZE -> fbyte (fupd cur n v) x o = fbyte cur x o.
Proof using Hg Hn Hok.
  intros Ho. unfold fbyte. rewrite meta_blk. destruct (Z.eqb_spec (blk cur x (o / BSIZE)) 0) as [|Hne]; [done|].
  rewrite meta_data; [done|]. apply (fo_data _ _ _ Hok _ (div_block o Ho) Hne).
Qed.

End File.

Lemma meta_meta : meta_used sb cur -> meta_used sb (fupd cur n v).
Proof using Hg Hn. intros Hm b Hb. pose proof (fg_data _ _ _ Hg). rewrite meta_bit by lia. by apply Hm. Qed.

Lemma meta_nfree : nfree sb (fupd cur n v) = nfree sb cur.
Proof using Hg Hn.
  unfold nfree. do 2 f_equal. apply filter_ext_in. intros b Hb%elem_of_seqZ. rewrite meta_bit by lia. done.
Qed.

End Meta.

Section Rw.
Context {S : Type} `{TxStore S}.
Implicit Types (s : fsst S) (T : store) (d : S) (x : inode).

Lemma file_in_disk s T ip x d : file_in s T ip x -> t_rep d T -> file_in (with_disk d s) T ip x.
Proof. intros [] R. by split. Qed.

Lemma with_disk_id s : with_disk (disk s) s = s.
Proof. by destruct s. Qed.

(** One round of [readi]. *)
Lemma wp_readi_step s T ip x n tot off (Q : Z * list Z -> fsst S -> Prop) : file_in s T ip x -> dense (st_cur T) x ->
  i_size x <= MAXFILE * BSIZE -> 0 <= off -> tot < n -> off + (n - tot) <= i_size x ->
  (forall d, t_rep d T ->
    let m := Z.min (n - tot) (BSIZE - off mod BSIZE) in Q (m, content (st_cur T) x off m) (with_disk d s)) ->
  wp (readi_step ip n tot off) Q s.
Proof.
  intros Hf Hd Hsz Hoff Htot Hn HQ. pose proof Hf as [Hip Hx Hdev Hr Hh Hg Hc Hok Hm].
  pose proof (dense_blk _ _ off Hd ltac:(lia)) as Hne. pose proof (div_block off ltac:(lia)) as Hin.
  apply wp_bind, wp_get_inode; [done|]. rewrite Hx, Hdev. apply wp_bind.
  apply (wp_bmap_old s T ip x); [done..|]. intros d1 R1. apply wp_bind.
  eapply fwp_bread; [exact R1|eapply data_readable; [done..|by apply (fo_data _ _ _ Hok)]|]. intros b d2 Hb R2.
  apply wp_bind. eapply fwp_data; [exact R2|apply lookup_insert_eq|]. cbn [st_cur st_hold].
  apply wp_bind. eapply fwp_brelse; [exact R2|apply lookup_insert_eq|]. intros d3 R3. apply wp_ret.
  pose proof (Z.mod_pos_bound off BSIZE ltac:(done)).
  rewrite get_bytes_content by (done || lia). apply (HQ d3). eapply t_rep_equiv; [exact R3|by apply drop_hold].
Qed.

Lemma wp_readi_loop s T ip x n off (Q : list Z -> fsst S -> Prop) : file_in s T ip x -> dense (st_cur T) x ->
  i_size x <= MAXFILE * BSIZE -> 0 <= off -> 0 <= n -> off + n <= i_size x ->
  (forall d, t_rep d T -> Q (content (st_cur T) x off n) (with_disk d s)) ->
  wp (readi_loop ip n off) Q s.
Proof.
  intros Hf Hd Hsz Hoff Hn Hle HQ.
  eapply (wp_iter (fun '(tot, o, acc) s' => exists d, s' = with_disk d s /\ t_rep d T /\ 0 <= tot <= n /\
    o = off + tot /\ acc = content (st_cur T) x off tot) (fun '(tot, _, _) => Z.to_nat (n - tot))).
  2:{ exists (disk s). rewrite with_disk_id. split; [done|]. split; [apply Hf|]. split; [lia|]. split; [lia|done]. }
  2:{ lia. }
  intros [[tot o] acc] s' (d & -> & R & Ht & -> & ->). destruct (Z.ltb_spec tot n); cbn [negb].
  - apply wp_bind. eapply (wp_readi_step _ T ip x); [by apply file_in_disk|done|done|lia|lia|lia|].
    intros d' R' m. apply wp_ret. cbn [fst snd].
    pose proof (Z.mod_pos_bound (off + tot) BSIZE ltac:(done)). assert (0 < m <= n - tot) by lia. split; [|lia].
    exists d'. split; [done|]. split; [done|]. split; [lia|]. split; [lia|]. rewrite content_app by lia. done.
  - apply wp_ret. replace tot with n by lia. by apply HQ.
Qed.

Section Read.
Context (devread : Z -> option (Z -> Z -> M (fsst S) (Z * list Z))).

(** [readi] returns the bytes of the file from [off], [n] or as many as there
    are, and changes nothing. *)
Lemma wp_readi s T ip x n off (Q : Z * list Z -> fsst S -> Prop) : file_in s T ip x -> dense (st_cur T) x ->
  i_type x <> T_DEV -> i_size x <= MAXFILE * BSIZE -> 0 <= off <= i_size x -> 0 <= n < 2147483648 ->
  (forall d, t_rep d T -> let m := Z.min n (i_size x - off) in
    Q (m, content (st_cur T) x off m) (with_disk d s)) ->
  wp (readi devread ip off n) Q s.
Proof.
  intros Hf Hd Ht Hsz Hoff Hn HQ. assert (MAXFILE * BSIZE = 71680) as E by done.
  pose proof Hf as [Hip Hx Hdev Hr Hh Hg Hc Hok Hm].
  apply wp_bind, wp_get_inode; [done|]. rewrite Hx. destruct (Z.eqb_spec (i_type x) T_DEV); [done|].
  rewrite u32_small by lia.
  destruct (Z.ltb_spec (i_size x) off), (Z.ltb_spec (off + n) off); cbn [orb]; try lia.
  assert ((if i_size x <? off + n then i_size x - off else n) = Z.min n (i_size x - off)) as ->.
  { destruct (Z.ltb_spec (i_size x) (off + n)); lia. }
  apply wp_bind. apply (wp_readi_loop s T ip x); [done|done|done|lia|lia|lia|].
  intros d R. apply wp_ret. by apply HQ.
Qed.

End Read.

(** ** [writei] *)

(** A write of [l] at [off], from [(T, x)] to [(T', x')]. *)
Record wrote sb T x (off : Z) (l : list Z) T' x' : Prop := {
  wr_step : file_step sb (patch off l) (st_cur T) (st_cur T') x x';
  wr_blk : forall o, off <= o < off + Z.of_nat (length l) -> blk (st_cur T') x' (o / BSIZE) <> 0;
  wr_old : (forall o, off <= o < off + Z.of_nat (length l) -> blk (st_cur T) x (o / BSIZE) <> 0) -> x' = x;
  wr_held : st_held T' = ∅;
  wr_frame : st_cap T' = st_cap T /\ st_lo T' = st_lo T /\ st_hi T' = st_hi T;
  wr_spent : spent sb (st_logs T') x' <= spent sb (st_logs T) x + nblocks off (off + Z.of_nat (length l));
  wr_free : nfree sb (st_cur T) - ind_need x - nblocks off (off + Z.of_nat (length l)) <=
    nfree sb (st_cur T') - ind_need x'
}.

Lemma step_in s T ip x s' T' x' P : file_in s T ip x -> file_step (sb s) P (st_cur T) (st_cur T') x x' ->
  st_held T' = ∅ -> st_cap T' = st_cap T /\ st_lo T' = st_lo T /\ st_hi T' = st_hi T ->
  t_rep (disk s') T' -> fs_at s ip x' s' -> file_in s' T' ip x'.
Proof.
  intros [Hip Hx Hd Hr Hh Hg Hc Hok Hm] Hst Hh' (E1 & E2 & E3) Hr' [A1 A2 A3 A4 A5].
  split; rewrite ?A1, ?E1, ?E2, ?E3; try done.
  - rewrite A5. by rewrite decide_True.
  - rewrite (gr_x _ _ _ _ _ _ Hst). done.
  - apply (gr_ok _ _ _ _ _ _ Hst).
  - apply (gr_bits _ _ _ _ _ _ Hst).
Qed.

Lemma wp_writei_step s T ip x src tot off (Q : Z -> fsst S -> Prop) : file_in s T ip x ->
  let n := Z.of_nat (length src) in
  let m := Z.min (n - tot) (BSIZE - off mod BSIZE) in
  0 <= off -> 0 <= tot < n -> off + (n - tot) <= MAXFILE * BSIZE ->
  spent (sb s) (st_logs T) x + 1 <= st_cap T -> ind_need x + 1 <= nfree (sb s) (st_cur T) ->
  (forall T' x' s', wrote (sb s) T x off (take (Z.to_nat m) (drop (Z.to_nat tot) src)) T' x' ->
    t_rep (disk s') T' -> fs_at s ip x' s' -> Q m s') ->
  wp (writei_step ip src tot off) Q s.
Proof.
  intros Hf n m Hoff Htot Hle Hs Hn HQ. pose proof Hf as [Hip Hx Hdev Hr Hh Hg Hc Hok Hm].
  pose proof (div_block off ltac:(lia)) as Hin. pose proof (Z.mod_pos_bound off BSIZE ltac:(done)) as Hmod.
  set (l := take (Z.to_nat m) (drop (Z.to_nat tot) src)) in *.
  assert (Z.of_nat (length l) = m) as Hl. { unfold l. rewrite length_take, length_drop. lia. }
  assert (nblocks off (off + Z.of_nat (length l)) = 1) as Hnb.
  { rewrite Hl. rewrite (nblocks_step _ _ m) by lia. unfold nblocks. rewrite decide_False by lia. done. }
  apply wp_bind, wp_get_inode; [done|]. rewrite Hx, Hdev. apply wp_bind.
  apply (wp_bmap s T ip x); [done..|]. intros a T1 x1 s1 [G1 B1 N1 O1 H1 F1 S1 L1] R1 A1.
  pose proof (step_in _ _ _ _ _ _ _ _ Hf G1 H1 F1 R1 A1) as Hf1. pose proof (at_sb _ _ _ _ A1) as Esb.
  pose proof Hf1 as [_ _ _ _ _ Hg1 Hc1 Hok1 Hm1]. subst a.
  pose proof (fo_data _ _ _ Hok1 _ Hin N1) as [Hrd _].
  apply wp_bind. eapply fwp_bread; [exact R1|by eapply data_readable|]. intros b d2 Hb R2.
  apply wp_bind. eapply fwp_data; [exact R2|apply lookup_insert_eq|]. cbn [st_cur st_hold].
  fold n m l. set (a := blk (st_cur T1) x1 (off / BSIZE)) in *. set (v := put_bytes _ _ l).
  apply wp_bind. eapply fwp_set_data; [exact R2|apply lookup_insert_eq|]. intros d3 R3.
  rewrite Esb in Hm1, Hok1, Hg1. apply wp_bind. eapply fwp_log_write; [exact R3|apply lookup_insert_eq| |].
  { pose proof (size_le ({[a]} ∪ st_logs T1) (st_logs T1 ∪ {[a]} ∪ bitmaps (sb s) ∪ ind_set x1)
      ltac:(set_solver)). pose proof (spent_le (sb s) (st_logs T1) x1). unfold spent at 1 in S1.
    destruct F1 as (E1 & _). change (Z.of_nat (size ({[a]} ∪ st_logs T1)) <= st_cap T1). lia. }
  intros d4 R4. apply wp_bind. eapply fwp_brelse; [exact R4|apply lookup_insert_eq|]. intros d5 R5.
  apply wp_ret. apply (HQ (st_upd a v T1) x1).
  2:{ eapply t_rep_equiv; [exact R5|]. by apply upd_equiv. }
  2:{ eapply fs_at_trans; [exact A1|]. apply (fs_at_same s1 ip x1 d5). by destruct Hf1. }
  pose proof (write_blk (sb s) (st_cur T1) x1 Hok1 (off / BSIZE) Hin N1 v) as Hwb.
  split; [|..|done|done| |].
  - eapply step_ext; [|eapply (step_trans _ _ _ Hg no_bytes); [exact G1|]].
    2:{ apply (write_step _ _ _ Hg1 _ _ Hok1 Hm1 (off / BSIZE) Hin N1 v (patch off l)).
        - intros o Ho. unfold v. rewrite put_bytes_load8. f_equal.
          rewrite <- (patch_shift (off mod BSIZE) l (off / BSIZE * BSIZE)).
          pose proof (Z.div_mod off BSIZE ltac:(done)). f_equal; lia.
        - intros o Ho. apply patch_none. rewrite Hl. assert (BSIZE = 512) as E by done. rewrite E in *.
          subst m. Z.to_euclidean_division_equations. lia. }
    intros o _. unfold no_bytes. cbn beta. by destruct (patch off l o).
  - intros o Ho. cbn [st_cur st_upd]. rewrite Hwb. replace (o / BSIZE) with (off / BSIZE); [done|].
    rewrite Hl in Ho. subst m. assert (BSIZE = 512) as E by done. rewrite E in *.
    Z.to_euclidean_division_equations. lia.
  - intros Hall. apply O1, Hall. rewrite Hl. lia.
  - rewrite Hnb. etrans; [|exact S1]. apply spent_mono. cbn. set_solver.
  - rewrite Hnb. pose proof (write_nfree _ _ _ Hg1 _ _ Hok1 (off / BSIZE) Hin N1 v) as E.
    cbn [st_cur st_upd]. fold a in E. lia.
Qed.

Lemma wrote_refl s T ip x off : file_in s T ip x -> wrote (sb s) T x off [] T x.
Proof.
  intros [Hip Hx Hd Hr Hh Hg Hc Hok Hm].
  assert (nblocks off (off + 0) = 0) as E by (unfold nblocks; by rewrite decide_False by lia).
  change 0 with (Z.of_nat (@length Z [])) in E at 1. split; try done; rewrite ?E; try lia.
  - eapply step_ext; [|by eapply grows_refl]. intros o Ho. rewrite patch_none; [done|]. cbn. lia.
  - intros o Ho. cbn in Ho. lia.
Qed.

Lemma wrote_trans sb T x off l1 T1 x1 l2 T2 x2 : fs_geo sb (st_lo T) (st_hi T) -> 0 <= off ->
  off + Z.of_nat (length (l1 ++ l2)) <= MAXFILE * BSIZE ->
  l1 = [] \/ (off + Z.of_nat (length l1)) mod BSIZE = 0 ->
  wrote sb T x off l1 T1 x1 -> wrote sb T1 x1 (off + Z.of_nat (length l1)) l2 T2 x2 ->
  wrote sb T x off (l1 ++ l2) T2 x2.
Proof.
  intros Hg Hoff Hmax Hal [S1 B1 O1 H1 F1 P1 N1] [S2 B2 O2 H2 F2 P2 N2]. rewrite length_app in Hmax.
  assert (nblocks off (off + Z.of_nat (length (l1 ++ l2))) = nblocks off (off + Z.of_nat (length l1)) +
    nblocks (off + Z.of_nat (length l1)) (off + Z.of_nat (length l1) + Z.of_nat (length l2))) as E.
  { rewrite length_app, Nat2Z.inj_add, Z.add_assoc. apply nblocks_split; [lia|lia|].
    destruct Hal as [->|]; [left; cbn; lia|by right]. }
  split; [|..|done| | |].
  - eapply step_ext; [|by eapply step_trans]. intros o Ho. apply patch_app.
  - intros o Ho. rewrite length_app in Ho.
    destruct (decide (off + Z.of_nat (length l1) <= o)) as [Hge|Hlt]; [apply B2; lia|].
    rewrite (gr_blk _ _ _ _ _ _ S2); [apply B1; lia|apply div_block; lia|apply B1; lia].
  - intros Hall. rewrite length_app in Hall. assert (x1 = x) as -> by (apply O1; intros o Ho; apply Hall; lia).
    apply O2. intros o Ho. rewrite (gr_blk _ _ _ _ _ _ S1); [apply Hall; lia|apply div_block; lia|apply Hall; lia].
  - destruct F1 as (<- & <- & <-). done.
  - rewrite E. lia.
  - rewrite E. lia.
Qed.

Lemma wp_writei_loop s T ip x src off (Q : Z -> fsst S -> Prop) : file_in s T ip x ->
  let n := Z.of_nat (length src) in
  0 <= off -> off + n <= MAXFILE * BSIZE ->
  spent (sb s) (st_logs T) x + nblocks off (off + n) <= st_cap T ->
  ind_need x + nblocks off (off + n) <= nfree (sb s) (st_cur T) ->
  (forall T' x' s', wrote (sb s) T x off src T' x' -> t_rep (disk s') T' -> fs_at s ip x' s' -> Q (off + n) s') ->
  wp (writei_loop ip src off) Q s.
Proof.
  intros Hf n Hoff Hmax Hs Hn HQ. pose proof Hf as [Hip Hx Hd Hr Hh Hg Hc Hok Hm].
  eapply (wp_iter (fun '(tot, o) s' => 0 <= tot <= n /\ o = off + tot /\
    (tot = 0 \/ tot = n \/ o mod BSIZE = 0) /\ exists T' x', wrote (sb s) T x off (take (Z.to_nat tot) src) T' x' /\
    t_rep (disk s') T' /\ fs_at s ip x' s') (fun '(tot, _) => Z.to_nat (n - tot))).
  2:{ split; [lia|]. split; [lia|]. split; [by left|]. exists T, x. cbn [take].
      split; [by eapply wrote_refl|]. split; [done|]. rewrite <- (with_disk_id s) at 2. by apply fs_at_same. }
  2:{ lia. }
  intros [tot o] s' (Ht & -> & Hal & T1 & x1 & W1 & R1 & A1). fold n.
  pose proof (step_in _ _ _ _ _ _ _ _ Hf (wr_step _ _ _ _ _ _ _ W1) (wr_held _ _ _ _ _ _ _ W1)
    (wr_frame _ _ _ _ _ _ _ W1) R1 A1) as Hf1.
  destruct (Z.ltb_spec tot n) as [Hlt|]; cbn [negb].
  2:{ apply wp_ret. replace tot with n in * by lia. rewrite firstn_all2 in W1 by lia. by apply (HQ T1 x1). }
  assert (Z.of_nat (length (take (Z.to_nat tot) src)) = tot) as El by (rewrite length_take; lia).
  pose proof (Z.mod_pos_bound (off + tot) BSIZE ltac:(done)).
  pose proof (nblocks_split off (off + tot) (off + n) ltac:(lia) ltac:(lia) ltac:(destruct Hal; lia)).
  pose proof (nblocks_pos (off + tot) (off + n) ltac:(lia)).
  pose proof (wr_spent _ _ _ _ _ _ _ W1). pose proof (wr_free _ _ _ _ _ _ _ W1).
  destruct (wr_frame _ _ _ _ _ _ _ W1) as (Ec & _). pose proof (at_sb _ _ _ _ A1) as Esb. rewrite El in *.
  apply wp_bind. apply (wp_writei_step s' T1 ip x1); [done|lia|lia|lia|rewrite Esb; lia|rewrite Esb; lia|].
  fold n. set (m := Z.min (n - tot) _). intros T2 x2 s2 W2 R2 A2. apply wp_ret.
  assert (0 < m <= n - tot) by lia. split; [|lia].
  split; [lia|]. split; [lia|]. split.
  { right. destruct (decide (tot + m = n)) as [|Hne]; [by left|right]. assert (BSIZE = 512) as E by done.
    subst m. rewrite E in *. Z.to_euclidean_division_equations. lia. }
  exists T2, x2. split; [|split; [done|by eapply fs_at_trans]].
  replace (take (Z.to_nat (tot + m)) src) with (take (Z.to_nat tot) src ++ take (Z.to_nat m) (drop (Z.to_nat tot) src)).
  2:{ rewrite Z2Nat.inj_add by lia. by rewrite take_take_drop. }
  rewrite Esb in W2. eapply (wrote_trans _ _ _ _ _ T1 x1); [exact Hg|done| | |done|].
  - rewrite length_app, !length_take, length_drop. lia.
  - destruct Hal as [->|[|Hal]]; [by left|lia|right; by rewrite El].
  - by rewrite El.
Qed.

(** What [writei] does. *)
Record writei_post sb T x (off : Z) (src : list Z) T' x' : Prop := {
  wi_x : x' = with_addrs (i_addrs x') (with_size (Z.max (i_size x) (off + Z.of_nat (length src))) x);
  wi_ok : file_ok sb (st_cur T') x';
  wi_bits : meta_used sb (st_cur T');
  wi_dense : dense (st_cur T') x';
  wi_bytes : forall o, 0 <= o < MAXFILE * BSIZE ->
    fbyte (st_cur T') x' o = default (fbyte (st_cur T) x o) (patch off src o);
  wi_other : forall n, foreign sb (st_cur T) x n -> st_cur T' n = st_cur T n /\ foreign sb (st_cur T') x' n;
  wi_meta : forall n, n < sb_bmapstart sb -> n <> IBLOCK (i_inum x) sb -> st_cur T' n = st_cur T n;
  wi_inode : st_cur T' (IBLOCK (i_inum x) sb) =
    if decide (i_size x < off + Z.of_nat (length src)) then
      dinode_put x' (st_cur T (IBLOCK (i_inum x) sb)) (dinode_off (i_inum x))
    else st_cur T (IBLOCK (i_inum x) sb);
  wi_same : off + Z.of_nat (length src) <= i_size x -> x' = x;
  wi_free : nfree sb (st_cur T) - ind_need x - nblocks off (off + Z.of_nat (length src)) <=
    nfree sb (st_cur T') - ind_need x';
  wi_held : st_held T' = ∅;
  wi_frame : st_cap T' = st_cap T /\ st_lo T' = st_lo T /\ st_hi T' = st_hi T
}.

Lemma wrote_dense sb T x off src T' x' : wrote sb T x off src T' x' -> dense (st_cur T) x ->
  0 <= off <= i_size x -> i_size x <= MAXFILE * BSIZE ->
  dense (st_cur T') (with_size (Z.max (i_size x) (off + Z.of_nat (length src))) x').
Proof.
  intros W Hd Hoff Hsz bn Hbn Hlt. cbn in Hlt.
  change (blk (st_cur T') x' bn <> 0). destruct (decide (bn * BSIZE < i_size x)) as [Hin|Hout].
  - pose proof (Hd bn Hbn Hin) as Hne. rewrite (gr_blk _ _ _ _ _ _ (wr_step _ _ _ _ _ _ _ W)); [done| |done].
    split; [done|]. assert (0 < BSIZE) by done. nia.
  - replace bn with (bn * BSIZE / BSIZE) by by rewrite Z.div_mul.
    apply (wr_blk _ _ _ _ _ _ _ W). lia.
Qed.
Lemma written_in s T ip x s' T' x' off src : file_in s T ip x -> writei_post (sb s) T x off src T' x' ->
  t_rep (disk s') T' -> fs_at s ip x' s' -> file_in s' T' ip x'.
Proof.
  intros [Hip Hx Hd Hr Hh Hg Hc Hok Hm] [X1 O1 M1 D1 B1 F1 G1 I1 S1 N1 H1 (E1 & E2 & E3)] Hr' [A1 A2 A3 A4 A5].
  split; rewrite ?A1, ?E1, ?E2, ?E3; try done.
  - rewrite A5. by rewrite decide_True.
  - rewrite X1. done.
Qed.

(** The file did not grow: the inode is the same. *)
Lemma wrote_stay sb T x off src T' x' : fs_geo sb (st_lo T) (st_hi T) -> wrote sb T x off src T' x' -> dense (st_cur T) x ->
  inum_ok sb (i_inum x) ->
  0 <= off -> off + Z.of_nat (length src) <= i_size x -> i_size x <= MAXFILE * BSIZE ->
  writei_post sb T x off src T' x'.
Proof.
  intros Hg W Hd Hi Hoff Hle Hsz. pose proof W as [S1 B1 O1 H1 F1 P1 N1].
  assert (x' = x) as ->. { apply O1. intros o Ho. apply dense_blk; [done|lia]. }
  assert (Z.max (i_size x) (off + Z.of_nat (length src)) = i_size x) as Emax by lia.
  split; rewrite ?Emax; try done.
  - by destruct x.
  - apply (gr_ok _ _ _ _ _ _ S1).
  - apply (gr_bits _ _ _ _ _ _ S1).
  - pose proof (wrote_dense _ _ _ _ _ _ _ W Hd ltac:(lia) Hsz) as Hd'. rewrite Emax in Hd'. by destruct x.
  - apply (gr_byte _ _ _ _ _ _ S1).
  - intros m Hm. split; [by apply (gr_data _ _ _ _ _ _ S1)|by eapply step_foreign].
  - intros m Hm _. by apply (gr_meta _ _ _ _ _ _ S1).
  - rewrite decide_False by lia. apply (gr_meta _ _ _ _ _ _ S1).
    destruct (IBLOCK_eq _ _ _ _ Hg Hi). lia.
Qed.

(** The file grew: the new inode is on the disk. *)
Lemma wrote_grew s T x off src T1 x1 : let n := Z.of_nat (length src) in
  fs_geo (sb s) (st_lo T) (st_hi T) -> wrote (sb s) T x off src T1 x1 -> dense (st_cur T) x ->
  inum_ok (sb s) (i_inum x) -> 0 <= off <= i_size x -> i_size x < off + n -> off + n <= MAXFILE * BSIZE ->
  writei_post (sb s) T x off src (updated s (with_size (off + n) x1) T1) (with_size (off + n) x1).
Proof.
  intros n Hg W Hd Hi Hoff Hlt Hsz. pose proof W as [S1 B1 O1 H1 F1 P1 N1].
  assert (Z.max (i_size x) (off + n) = off + n) as Emax by lia.
  pose proof (gr_x _ _ _ _ _ _ S1) as Ex. pose proof (gr_ok _ _ _ _ _ _ S1) as Hok1.
  assert (i_inum x1 = i_inum x) as Ei by (by rewrite Ex).
  destruct (IBLOCK_eq _ _ _ _ Hg Hi) as [_ [_ Hib]]. set (x2 := with_size (off + n) x1).
  assert (file_ok (sb s) (st_cur T1) x2) as Hok2 by (destruct Hok1; by split).
  assert (inode_block s x2 = IBLOCK (i_inum x) (sb s)) as Eib by (unfold inode_block; by rewrite <- Ei).
  unfold updated. rewrite Eib. split; fold n; rewrite ?Emax; cbn [st_cur st_upd]; try done.
  - unfold x2. rewrite Ex. done.
  - by eapply meta_ok.
  - eapply meta_meta; [done|done|]. apply (gr_bits _ _ _ _ _ _ S1).
  - pose proof (wrote_dense _ _ _ _ _ _ _ W Hd ltac:(lia) ltac:(lia)) as Hd'. fold n in Hd'. rewrite Emax in Hd'.
    intros bn Hbn Hb. erewrite meta_blk by done. by apply Hd'.
  - intros o Ho. erewrite meta_byte by done. apply (gr_byte _ _ _ _ _ _ S1 o Ho).
  - intros m Hm. pose proof (step_foreign _ _ _ Hg _ _ _ _ _ _ S1 Hm) as Hm1. split.
    + erewrite meta_data; [by apply (gr_data _ _ _ _ _ _ S1)|done|done|apply Hm].
    + destruct Hm1 as (Hu & Hn1 & Hb1). split; [by eapply meta_data_used|]. split; [done|].
      intros bn Hbn. erewrite meta_blk by done. by apply Hb1.
  - intros m Hm Hne. rewrite fupd_ne by done. by apply (gr_meta _ _ _ _ _ _ S1).
  - rewrite decide_True by lia. rewrite fupd_eq. cbn [i_inum x2 with_size]. rewrite Ei.
    rewrite (gr_meta _ _ _ _ _ _ S1) by done. done.
  - lia.
  - erewrite meta_nfree by done. exact N1.
Qed.

Section Write.
Context (devwrite : Z -> option (Z -> list Z -> M (fsst S) Z)).

Lemma wp_writei s T ip x src off (Q : Z -> fsst S -> Prop) : file_in s T ip x -> dense (st_cur T) x ->
  let n := Z.of_nat (length src) in
  inum_ok (sb s) (i_inum x) -> i_type x <> T_DEV -> i_size x <= MAXFILE * BSIZE ->
  0 <= off <= i_size x -> off + n <= MAXFILE * BSIZE ->
  spent (sb s) (st_logs T) x + nblocks off (off + n) + 1 <= st_cap T ->
  ind_need x + nblocks off (off + n) <= nfree (sb s) (st_cur T) ->
  (forall T' x' s', writei_post (sb s) T x off src T' x' -> t_rep (disk s') T' -> fs_at s ip x' s' -> Q n s') ->
  wp (writei devwrite ip src off) Q s.
Proof.
  intros Hf Hd n Hi Hty Hsz Hoff Hmax Hs Hn HQ. pose proof Hf as [Hip Hx Hdev Hr Hh Hg Hc Hok Hm].
  assert (MAXFILE * BSIZE = 71680) as Emax by done. unfold writei. fold n.
  apply wp_bind, wp_get_inode; [done|]. rewrite Hx. destruct (Z.eqb_spec (i_type x) T_DEV); [done|].
  rewrite u32_small by lia.
  destruct (Z.ltb_spec (i_size x) off), (Z.ltb_spec (off + n) off); cbn [orb]; try lia.
  destruct (Z.ltb_spec (MAXFILE * BSIZE) (off + n)); [lia|].
  apply wp_bind. apply (wp_writei_loop s T ip x); [done|lia|done|fold n; lia|fold n; lia|]. fold n.
  intros T1 x1 s1 W R1 A1. pose proof W as [S1 B1 O1 L1 F1 P1 N1].
  pose proof (step_in _ _ _ _ _ _ _ _ Hf S1 L1 F1 R1 A1) as Hf1. pose proof (gr_x _ _ _ _ _ _ S1) as Ex.
  assert (i_size x1 = i_size x) as Esz by (by rewrite Ex).
  apply wp_bind, wp_get_inode; [done|]. rewrite (fi_x _ _ _ _ Hf1), Esz.
  destruct (Z.ltb_spec (i_size x) (off + n)) as [Hgrow|Hstay].
  2:{ rewrite andb_false_r. apply wp_bind, wp_ret, wp_ret. apply (HQ T1 x1); [|done|done].
      apply wrote_stay; done || lia. }
  destruct (Z.ltb_spec 0 n); [|lia]. cbn [andb when].
  apply wp_bind, wp_bind, wp_upd_inode; [done|]. rewrite (fi_x _ _ _ _ Hf1).
  set (x2 := with_size (off + n) x1). pose proof (at_sb _ _ _ _ A1) as Esb. destruct F1 as (F1 & F2 & F3).
  assert (i_inum x1 = i_inum x) as Ei by (by rewrite Ex).
  apply (wp_iupdate _ T1 ip x2).
  - split; cbn [inodes fs_set disk sb]; rewrite ?asel_insert_eq, ?F1, ?F2, ?F3, ?Esb; try done.
    + rewrite <- Hdev. unfold x2. by rewrite Ex.
    + unfold x2. cbn [i_inum with_size]. by rewrite Ei.
    + lia.
  - pose proof (spent_le (sb s) (st_logs T1) x1). pose proof (size_add (st_logs T1 ∪ bitmaps (sb s)) (inode_block s x2)).
    pose proof (size_le ({[inode_block s x2]} ∪ st_logs T1) (st_logs T1 ∪ bitmaps (sb s) ∪ {[inode_block s x2]})
      ltac:(set_solver)). fold n in P1. unfold loggable. rewrite F1. unfold inode_block. cbn [sb fs_set]. rewrite Esb.
    unfold inode_block in *. lia.
  - intros d R. apply wp_ret. apply (HQ (updated s x2 T1) x2).
    + by apply (wrote_grew s T x).
    + unfold updated, inode_block in *. cbn [sb fs_set] in R. rewrite Esb in R. exact R.
    + eapply fs_at_trans; [exact A1|]. apply (fs_at_set s1 ip x2 d).
Qed.

End Write.

End Rw.
