(* ===== verification/FsDir.v ===== *)
(** * The file system: the inode cache and directories

    [iget] finds or makes the one entry of an inode; [dirlookup] finds the
    first entry with a name; [dirlink] adds one. *)

From stdpp Require Import base tactics numbers gmap strings list sets.
From Stdlib Require Import ZArith Lia.
From S2P Require Import Prelude Mmu Memory Spinlock Sleeplock Cache Log LogFacts Store Fs FsFacts FsFile FsBmap FsInode FsRw.

(** ** The inode cache *)

(** An entry in use for an inode. *)
Definition caches (x : inode) (dev inum : Z) : Prop := 0 < i_ref x /\ i_dev x = dev /\ i_inum x = inum.

#[global] Instance caches_dec x dev inum : Decision (caches x dev inum).
Proof. unfold caches. apply _. Defined.

(** One entry per inode, and no negative reference count. *)
Record icache_ok (a : arr inode) : Prop := {
  ic_refs : forall i, 0 <= i < NINODE -> 0 <= i_ref a.[i];
  ic_one : forall i j dev inum, 0 <= i < NINODE -> 0 <= j < NINODE ->
    caches a.[i] dev inum -> caches a.[j] dev inum -> i = j
}.

Definition fresh_inode (dev inum : Z) (x : inode) : inode :=
  mkinode dev inum 1 (i_lock x) false (i_type x) (i_major x) (i_minor x) (i_nlink x) (i_size x) (i_addrs x).

Section ICache.
Context {S : Type} `{TxStore S}.
Implicit Types (s : fsst S) (x : inode).

(** What the scan of [iget] knows at entry [i]. *)
Definition scanned (a : arr inode) (dev inum i : Z) (empty : option Z) : Prop :=
  (forall j, 0 <= j < i -> ~ caches a.[j] dev inum) /\
  match empty with
  | Some e => 0 <= e < i /\ i_ref a.[e] = 0 /\ forall j, 0 <= j < e -> i_ref a.[j] <> 0
  | None => forall j, 0 <= j < i -> i_ref a.[j] <> 0
  end.

Lemma caches_bool x dev inum :
  (0 <? i_ref x) && (i_dev x =? dev) && (i_inum x =? inum) = bool_decide (caches x dev inum).
Proof.
  destruct (decide (caches x dev inum)) as [Hc|Hc]; [rewrite bool_decide_true by done|rewrite bool_decide_false by done].
  - destruct Hc as (H1 & -> & ->). rewrite !Z.eqb_refl, (proj2 (Z.ltb_lt 0 (i_ref x))) by done. done.
  - apply not_true_iff_false. intros E. apply Hc. rewrite !andb_true_iff, Z.ltb_lt, !Z.eqb_eq in E.
    destruct E as [[E1 E2] E3]. done.
Qed.

Lemma wp_iget_scan s dev inum (Q : Z + option Z -> fsst S -> Prop) :
  (forall i, 0 <= i < NINODE -> caches (inodes s).[i] dev inum -> Q (inl i) s) ->
  (forall e, scanned (inodes s) dev inum NINODE e -> Q (inr e) s) ->
  wp (iget_scan dev inum) Q s.
Proof.
  intros H1 H2. apply (wp_iter (fun '(i, e) s' => s' = s /\ 0 <= i <= NINODE /\ scanned (inodes s) dev inum i e)
    (fun '(i, _) => Z.to_nat (NINODE - i))).
  2:{ split; [done|]. split; [by unfold NINODE|]. split; intros; lia. }
  2:{ lia. }
  intros [i e] s' (-> & Hi & Hsc). destruct (Z.ltb_spec i NINODE); cbn [negb].
  2:{ apply wp_ret. apply H2. by replace NINODE with i by lia. }
  apply wp_bind, wp_get_inode; [lia|]. rewrite caches_bool. case_bool_decide as Hc.
  { apply wp_ret, H1; [lia|done]. }
  apply wp_ret. split; [|lia]. split; [done|]. split; [lia|]. destruct Hsc as [Hno He]. split.
  - intros j Hj. destruct (decide (j = i)) as [->|]; [done|]. apply Hno. lia.
  - destruct e as [e|]; [split; [lia|apply He]|]. destruct (Z.eqb_spec (i_ref (inodes s).[i]) 0) as [E|E].
    + split; [lia|]. split; [done|]. intros j Hj. apply He. lia.
    + intros j Hj. destruct (decide (j = i)) as [->|]; [done|]. apply He. lia.
Qed.

(** The cache after [iget] gave entry [ip]. *)
Definition got (a a' : arr inode) (dev inum ip : Z) : Prop :=
  0 <= ip < NINODE /\
  (forall j, j <> ip -> a'.[j] = a.[j]) /\
  ((caches a.[ip] dev inum /\ a'.[ip] = with_ref (i_ref a.[ip] + 1) a.[ip]) \/
   (i_ref a.[ip] = 0 /\ (forall j, 0 <= j < NINODE -> ~ caches a.[j] dev inum) /\
    a'.[ip] = fresh_inode dev inum a.[ip])).

Lemma got_caches a a' dev inum ip : got a a' dev inum ip -> caches a'.[ip] dev inum.
Proof. intros (Hip & Hj & [[(H1 & H2 & H3) ->]|(Hz & _ & ->)]); split; cbn; done || lia. Qed.

Lemma got_ok a a' dev inum ip : icache_ok a -> got a a' dev inum ip ->
  icache_ok a' /\ caches a'.[ip] dev inum /\ i_ref a'.[ip] = i_ref a.[ip] + 1.
Proof.
  intros [Hr Ho] (Hip & Hj & Hc).
  assert (caches a'.[ip] dev inum /\ i_ref a'.[ip] = i_ref a.[ip] + 1) as [Hnew Href].
  { pose proof (Hr ip Hip). destruct Hc as [[(H1 & H2 & H3) ->]|(Hz & _ & ->)]; cbn; [|by rewrite Hz].
    split; [split; cbn; [lia|done]|done]. }
  assert (forall j dev' inum', 0 <= j < NINODE -> caches a'.[j] dev' inum' ->
    (j = ip /\ dev' = dev /\ inum' = inum) \/ (j <> ip /\ caches a.[j] dev' inum')) as Hinv.
  { intros j dev' inum' Hrj Hcj. destruct (decide (j = ip)) as [->|Hne].
    - left. destruct Hnew as (_ & <- & <-), Hcj as (_ & <- & <-). done.
    - right. by rewrite Hj in Hcj. }
  assert (forall j, 0 <= j < NINODE -> j <> ip -> ~ caches a.[j] dev inum) as Hno.
  { intros j Hrj Hne Hcj. destruct Hc as [[Hci _]|(_ & Hn & _)]; [|by apply (Hn j)].
    by apply Hne, (Ho j ip dev inum). }
  split; [|done]. split.
  - intros i Hi. destruct (decide (i = ip)) as [->|Hne]; [rewrite Href; pose proof (Hr ip Hip); lia|].
    rewrite Hj by done. by apply Hr.
  - intros i j dev' inum' Hi Hj' Hci Hcj.
    destruct (Hinv i _ _ Hi Hci) as [(-> & -> & ->)|[Hne Hci']], (Hinv j _ _ Hj' Hcj) as [(Ej & E1 & E2)|[Hne' Hcj']];
      subst; try done.
    + by destruct (Hno j).
    + by destruct (Hno i).
    + by apply (Ho i j dev' inum').
Qed.

(** [iget] returns the entry of the inode, if there is one or room for one. *)
Lemma wp_iget s dev inum (Q : Z -> fsst S -> Prop) : iclock s = false ->
  (exists i, 0 <= i < NINODE /\ (caches (inodes s).[i] dev inum \/ i_ref (inodes s).[i] = 0)) ->
  (forall ip a', got (inodes s) a' dev inum ip -> Q ip (set_inodes a' s)) ->
  wp (iget dev inum) Q s.
Proof.
  intros Hl Hroom HQ. apply wp_bind, Lock.wp_acquire; [done|]. apply wp_bind.
  assert (forall ip x', set_iclock false (fs_set ip x' (disk s) (set_iclock true s)) =
    set_inodes (<[ip := x']> (inodes s)) s) as Eset by (intros; destruct s; cbn in *; by subst).
  apply wp_iget_scan; cbn [inodes set_iclock].
  - intros i Hi Hc. apply wp_bind, wp_upd_inode; [done|]. apply wp_bind, Lock.wp_release; [done|]. apply wp_ret.
    cbn [inodes set_iclock disk]. rewrite Eset. apply HQ. split; [done|]. split.
    + intros j Hj. by rewrite asel_insert_ne.
    + left. by rewrite asel_insert_eq.
  - intros [e|] [Hno He].
    2:{ exfalso. destruct Hroom as (i & Hi & [Hc|Hz]); [by apply (Hno i)|by apply (He i)]. }
    destruct He as (Hr & Hz & _). apply wp_bind, wp_upd_inode; [done|].
    apply wp_bind, Lock.wp_release; [done|]. apply wp_ret. cbn [inodes set_iclock disk]. rewrite Eset.
    apply HQ. split; [done|]. split; [intros j Hj; by rewrite asel_insert_ne|]. right.
    rewrite asel_insert_eq. done.
Qed.

(** With every entry in use for another inode, [iget] panics. *)
Lemma iget_full s dev inum : iclock s = false ->
  (forall i, 0 <= i < NINODE -> 0 < i_ref (inodes s).[i] /\ ~ caches (inodes s).[i] dev inum) ->
  exists s', iget dev inum s = Panic "iget: no inodes" s'.
Proof.
  intros Hl Hall. set (s1 := set_iclock true s).
  assert (wp (iget_scan dev inum) (fun r s' => r = inr None /\ s' = s1) s1) as Hw.
  { apply wp_iget_scan; [intros i Hi Hc; by destruct (Hall i Hi)|].
    intros [e|] [_ He]; [|done]. destruct He as (He & Hz & _). destruct (Hall e He). cbn in Hz. lia. }
  apply wp_inv in Hw as (r & s' & E & -> & ->). exists s1.
  eapply bind_step; [unfold ic_acquire, Lock.acquire; by rewrite Hl|]. eapply bind_step; [exact E|done].
Qed.

End ICache.

(** ** Names *)

Lemma strncmp_copy n t : strncmp_l n t (strncpy_l n t) = 0.
Proof.
  revert t. induction n as [|n IH]; intros t; [done|]. cbn [strncmp_l strncpy_l].
  destruct (Z.eqb_spec (nth 0 t 0) 0) as [E|E].
  - rewrite E. cbn. done.
  - cbn [nth tail]. rewrite Z.eqb_refl. destruct t as [|c t]; [done|]. cbn in *.
    destruct (Z.eqb_spec c 0); [done|]. apply IH.
Qed.

Lemma strncpy_length n t : length (strncpy_l n t) = n.
Proof.
  revert t. induction n as [|n IH]; intros t; [done|]. cbn [strncpy_l].
  destruct (nth 0 t 0 =? 0); cbn; [by rewrite length_replicate|by rewrite IH].
Qed.

Lemma strncpy_bytes n t : Forall (fun c => 0 <= c < 256) t -> Forall (fun c => 0 <= c < 256) (strncpy_l n t).
Proof.
  revert t. induction n as [|n IH]; intros t Ht; [constructor|]. cbn [strncpy_l].
  destruct (Z.eqb_spec (nth 0 t 0) 0).
  - apply Forall_forall. intros c [-> _]%elem_of_replicate. lia.
  - destruct t as [|c t]; [done|]. apply Forall_cons in Ht as [Hc Ht]. constructor; [done|]. by apply IH.
Qed.

(** ** Directories *)

(** Entry [k] of a directory. *)
Definition dirent (cur : Z -> memory) (x : inode) (k : Z) : list Z := content cur x (k * DIRENT_SIZE) DIRENT_SIZE.

(** It names an inode by [name]. *)
Definition names (name : list Z) (de : list Z) : Prop := de_inum de <> 0 /\ namecmp name (de_name de) = 0.

#[global] Instance names_dec name de : Decision (names name de).
Proof. unfold names. apply _. Defined.

Definition nentries (x : inode) : Z := i_size x / DIRENT_SIZE.

Section Dir.
Context {S : Type} `{TxStore S}.
Implicit Types (s : fsst S) (T : store) (d : S) (x : inode).

(** A directory locked in a transaction. *)
Record dir_in s T (dp : Z) x : Prop := {
  di_file : file_in s T dp x;
  di_type : i_type x = T_DIR;
  di_dense : dense (st_cur T) x;
  di_max : 0 <= i_size x <= MAXFILE * BSIZE;
  di_whole : i_size x mod DIRENT_SIZE = 0
}.

Lemma dir_in_disk s T dp x d : dir_in s T dp x -> t_rep d T -> dir_in (with_disk d s) T dp x.
Proof. intros [] R. split; try done. by apply file_in_disk. Qed.

Lemma dir_count s T dp x : dir_in s T dp x ->
  (i_size x + DIRENT_SIZE - 1) / DIRENT_SIZE = nentries x /\ i_size x = nentries x * DIRENT_SIZE.
Proof.
  intros [_ _ _ Hm Hw]. unfold nentries. assert (DIRENT_SIZE = 16) as E by done. rewrite E in *.
  Z.to_euclidean_division_equations. lia.
Qed.

Section Find.
Context (devread : Z -> option (Z -> Z -> M (fsst S) (Z * list Z))).

Lemma wp_read_dirent s T dp x msg k (Q : list Z -> fsst S -> Prop) : dir_in s T dp x -> 0 <= k < nentries x ->
  (forall d, t_rep d T -> Q (dirent (st_cur T) x k) (with_disk d s)) ->
  wp (read_dirent devread msg dp (k * DIRENT_SIZE)) Q s.
Proof.
  intros Hd Hk HQ. destruct (dir_count _ _ _ _ Hd) as [_ Esz]. destruct Hd as [Hf Ht Hdn Hm Hw].
  assert (DIRENT_SIZE = 16) as E by done.
  apply wp_bind. apply (wp_readi devread s T dp x); [done|done|by rewrite Ht|lia|lia|by rewrite E|].
  intros d R. rewrite Z.min_l by lia. cbn [fst snd]. rewrite Z.eqb_refl. cbn [negb]. apply wp_ret.
  by apply HQ.
Qed.

(** No entry with the name. *)
Lemma wp_dirlookup_miss s T dp x name (Q : option (Z * Z) -> fsst S -> Prop) : dir_in s T dp x ->
  (forall k, 0 <= k < nentries x -> ~ names name (dirent (st_cur T) x k)) ->
  (forall d, t_rep d T -> Q None (with_disk d s)) ->
  wp (dirlookup devread dp name) Q s.
Proof.
  intros Hd Hno HQ. destruct (dir_count _ _ _ _ Hd) as [Ecnt _]. pose proof (di_file _ _ _ _ Hd) as Hf.
  apply wp_bind, wp_get_inode; [apply Hf|]. rewrite (fi_x _ _ _ _ Hf), (di_type _ _ _ _ Hd), Ecnt.
  cbn [Z.eqb negb T_DIR Pos.eqb].
  apply (wp_for_exit (fun k s' => exists d, s' = with_disk d s /\ t_rep d T)).
  - exists (disk s). rewrite with_disk_id. split; [done|apply Hf].
  - intros k s' Hk (d & -> & R). apply wp_bind. eapply (wp_read_dirent _ T dp x); [by apply dir_in_disk|done|].
    intros d' R'. specialize (Hno k Hk). unfold names in Hno.
    destruct (Z.eqb_spec (de_inum (dirent (st_cur T) x k)) 0); [apply wp_ret; by exists d'|].
    destruct (Z.eqb_spec (namecmp name (de_name (dirent (st_cur T) x k))) 0); [tauto|]. apply wp_ret. by exists d'.
  - intros s' (d & -> & R). by apply HQ.
Qed.

(** The first entry with the name: [iget] of its inode. *)
Lemma wp_dirlookup_hit s T dp x name k (Q : option (Z * Z) -> fsst S -> Prop) : dir_in s T dp x ->
  0 <= k < nentries x -> names name (dirent (st_cur T) x k) ->
  (forall j, 0 <= j < k -> ~ names name (dirent (st_cur T) x j)) ->
  (forall d, t_rep d T -> wp (iget 1 (de_inum (dirent (st_cur T) x k)))
    (fun ip s' => Q (Some (ip, k * DIRENT_SIZE)) s') (with_disk d s)) ->
  wp (dirlookup devread dp name) Q s.
Proof.
  intros Hd Hk Hyes Hno HQ. destruct (dir_count _ _ _ _ Hd) as [Ecnt _]. pose proof (di_file _ _ _ _ Hd) as Hf.
  apply wp_bind, wp_get_inode; [apply Hf|]. rewrite (fi_x _ _ _ _ Hf), (di_type _ _ _ _ Hd), Ecnt.
  cbn [Z.eqb negb T_DIR Pos.eqb]. rewrite (fi_dev _ _ _ _ Hf).
  apply (wp_for_exit (fun j s' => exists d, s' = with_disk d s /\ t_rep d T /\ j <= k)).
  - exists (disk s). rewrite with_disk_id. split; [done|]. split; [apply Hf|lia].
  - intros j s' Hj (d & -> & R & Hle). apply wp_bind. eapply (wp_read_dirent _ T dp x); [by apply dir_in_disk|done|].
    intros d' R'. destruct (decide (j = k)) as [->|Hne].
    + destruct Hyes as [Hi Hn]. destruct (Z.eqb_spec (de_inum (dirent (st_cur T) x k)) 0); [done|].
      rewrite Hn, Z.eqb_refl. apply wp_bind. eapply wp_mono; [|by apply HQ]. intros ip s2 Hq. by apply wp_ret.
    + specialize (Hno j ltac:(lia)). unfold names in Hno.
      assert (exists d0, with_disk d' (with_disk d s) = with_disk d0 s /\ t_rep d0 T /\ j + 1 <= k) as Hinv.
      { exists d'. split; [done|]. split; [done|lia]. }
      destruct (Z.eqb_spec (de_inum (dirent (st_cur T) x j)) 0); [by apply wp_ret|].
      destruct (Z.eqb_spec (namecmp name (de_name (dirent (st_cur T) x j))) 0); [tauto|]. by apply wp_ret.
  - intros s' (d & -> & R & Hle). lia.
Qed.

(** The slot [dirlink] takes: the first free entry, or a new one at the end. *)
Definition free_slot (cur : Z -> memory) (x : inode) (k : Z) : Prop :=
  0 <= k <= nentries x /\
  (forall j, 0 <= j < k -> de_inum (dirent cur x j) <> 0) /\
  (k < nentries x -> de_inum (dirent cur x k) = 0).

Lemma wp_find_slot s T dp x (Q : option Z -> fsst S -> Prop) : dir_in s T dp x ->
  (forall d k r, t_rep d T -> free_slot (st_cur T) x k -> default (nentries x * DIRENT_SIZE) r = k * DIRENT_SIZE ->
    Q r (with_disk d s)) ->
  wp (for_exit 0 (nentries x) (fun k =>
        let* de := read_dirent devread "dirlink read" dp (k * DIRENT_SIZE) in
        ret (if de_inum de =? 0 then Some (k * DIRENT_SIZE) else None))) Q s.
Proof.
  intros Hd HQ. pose proof (di_file _ _ _ _ Hd) as Hf. assert (0 <= nentries x).
  { destruct (dir_count _ _ _ _ Hd) as [_ E]. pose proof (di_max _ _ _ _ Hd). assert (0 < DIRENT_SIZE) by done. nia. }
  apply (wp_for_exit (fun k s' => exists d, s' = with_disk d s /\ t_rep d T /\
    forall j, 0 <= j < k -> de_inum (dirent (st_cur T) x j) <> 0)).
  - exists (disk s). rewrite with_disk_id. split; [done|]. split; [apply Hf|]. intros j Hj. lia.
  - intros k s' Hk (d & -> & R & Hall). apply wp_bind. eapply (wp_read_dirent _ T dp x); [by apply dir_in_disk|done|].
    intros d' R'. apply wp_ret. destruct (Z.eqb_spec (de_inum (dirent (st_cur T) x k)) 0) as [E|E].
    + apply (HQ d' k); [done| |done]. split; [lia|done].
    + exists d'. split; [done|]. split; [done|]. intros j Hj. destruct (decide (j = k)) as [->|]; [done|].
      apply Hall. lia.
  - intros s' (d & -> & R & Hall). apply (HQ d (nentries x)); [done| |done].
    split; [lia|]. split; [|lia]. intros j Hj. apply Hall. lia.
Qed.

End Find.

Definition is_byte (c : Z) : Prop := 0 <= c < 256.

Lemma mk_dirent_length inum name : length (mk_dirent inum name) = 16%nat.
Proof. unfold mk_dirent. rewrite length_app, strncpy_length. done. Qed.

Lemma mk_dirent_bytes inum name : Forall is_byte name -> Forall is_byte (mk_dirent inum name).
Proof.
  intros Hn. apply Forall_app. split; [|by apply strncpy_bytes].
  unfold u8. repeat constructor; by apply Z.mod_pos_bound.
Qed.

Lemma mk_dirent_inum inum name : 0 <= inum < 65536 -> de_inum (mk_dirent inum name) = inum.
Proof. intros Hi. unfold de_inum, mk_dirent. cbn [nth app]. wrap_lia. Qed.

Lemma mk_dirent_names inum name : 0 < inum < 65536 -> names name (mk_dirent inum name).
Proof.
  intros Hi. split; [rewrite mk_dirent_inum; lia|]. apply strncmp_copy.
Qed.

(** The file's bytes that were written, and the others. *)
Lemma content_lookup cur x o n i : (i < Z.to_nat n)%nat -> content cur x o n !! i = Some (fbyte cur x (o + Z.of_nat i)).
Proof.
  intros Hi. unfold content. rewrite list_lookup_fmap, lookup_seqZ_lt by lia. done.
Qed.

Lemma content_length cur x o n : length (content cur x o n) = Z.to_nat n.
Proof. unfold content. by rewrite length_fmap, length_seqZ. Qed.

Lemma patch_content cur x cur' x' off src : 0 <= off -> off + Z.of_nat (length src) <= MAXFILE * BSIZE ->
  (forall o, 0 <= o < MAXFILE * BSIZE -> fbyte cur' x' o = default (fbyte cur x o) (patch off src o)) ->
  content cur' x' off (Z.of_nat (length src)) = u8 <$> src.
Proof.
  intros Ho Hmax Hb. apply list_eq_same_length with (length src);
    [by rewrite length_fmap|rewrite content_length; lia|].
  intros i a b Hi. rewrite content_lookup by lia. rewrite Hb by lia.
  unfold patch. rewrite decide_True by lia. replace (Z.to_nat (off + Z.of_nat i - off)) with i by lia.
  rewrite list_lookup_fmap. destruct (src !! i) as [c|]; cbn; [|done]. congruence.
Qed.

Lemma content_written sb T x off src T' x' : writei_post sb T x off src T' x' -> 0 <= off ->
  off + Z.of_nat (length src) <= MAXFILE * BSIZE ->
  content (st_cur T') x' off (Z.of_nat (length src)) = u8 <$> src.
Proof.
  intros W Ho Hmax. apply (patch_content (st_cur T) x); [done|done|]. apply (wi_bytes _ _ _ _ _ _ _ W).
Qed.

Lemma content_unwritten sb T x off src T' x' o n : writei_post sb T x off src T' x' -> 0 <= o -> 0 <= n ->
  o + n <= MAXFILE * BSIZE -> o + n <= off \/ off + Z.of_nat (length src) <= o ->
  content (st_cur T') x' o n = content (st_cur T) x o n.
Proof.
  intros W Ho Hn Hmax Hdis. unfold content. apply list_fmap_ext. intros i y Hy. apply lookup_seqZ in Hy as [-> Hi].
  rewrite (wi_bytes _ _ _ _ _ _ _ W) by lia. rewrite patch_none by lia. done.
Qed.

Lemma u8_bytes l : Forall is_byte l -> u8 <$> l = l.
Proof.
  intros Hl. induction Hl as [|c l Hc Hl IH]; [done|]. cbn. rewrite IH. f_equal. by apply Z.mod_small.
Qed.

(** The directory after [dirlink] put an entry in slot [k]. *)
Record dir_linked sb T x (name : list Z) (inum k : Z) T' x' : Prop := {
  lk_write : writei_post sb T x (k * DIRENT_SIZE) (mk_dirent inum name) T' x';
  lk_slot : free_slot (st_cur T) x k;
  lk_new : dirent (st_cur T') x' k = mk_dirent inum name;
  lk_old : forall j, 0 <= j < nentries x -> j <> k -> dirent (st_cur T') x' j = dirent (st_cur T) x j;
  lk_count : nentries x' = Z.max (nentries x) (k + 1)
}.

Lemma link_ok s T dp x name inum k T' x' : dir_in s T dp x -> Forall is_byte name ->
  (nentries x + 1) * DIRENT_SIZE <= MAXFILE * BSIZE -> free_slot (st_cur T) x k ->
  writei_post (sb s) T x (k * DIRENT_SIZE) (mk_dirent inum name) T' x' -> dir_linked (sb s) T x name inum k T' x'.
Proof.
  intros Hd Hb Hmax Hk W. destruct (dir_count _ _ _ _ Hd) as [_ Esz]. assert (DIRENT_SIZE = 16) as E by done.
  assert (Z.of_nat (length (mk_dirent inum name)) = DIRENT_SIZE) as El by (by rewrite mk_dirent_length).
  destruct (Hk) as (Hkr & _). split; try done.
  - unfold dirent. rewrite <- El at 2. rewrite (content_written _ _ _ _ _ _ _ W) by lia.
    by apply u8_bytes, mk_dirent_bytes.
  - intros j Hj Hne. unfold dirent. apply (content_unwritten _ _ _ _ _ _ _ _ _ W); lia.
  - unfold nentries in *. rewrite (wi_x _ _ _ _ _ _ _ W). cbn [i_size with_addrs with_size]. rewrite El, E in *.
    Z.to_euclidean_division_equations. lia.
Qed.

Lemma linked_dir s T dp x name inum k T' x' s' : dir_in s T dp x -> dir_linked (sb s) T x name inum k T' x' ->
  (nentries x + 1) * DIRENT_SIZE <= MAXFILE * BSIZE ->
  t_rep (disk s') T' -> fs_at s dp x' s' -> dir_in s' T' dp x'.
Proof.
  intros Hd [W Hk Hn Ho Hc] Hmax R A. destruct (dir_count _ _ _ _ Hd) as [_ Esz]. destruct Hd as [Hf Ht Hdn Hm Hw].
  assert (Z.of_nat (length (mk_dirent inum name)) = DIRENT_SIZE) as El by (by rewrite mk_dirent_length).
  destruct W as [X1 O1 M1 D1 B1 F1 G1 I1 S1 N1 H1 C1]. assert (DIRENT_SIZE = 16) as E by done.
  assert (i_size x' = Z.max (i_size x) (k * DIRENT_SIZE + DIRENT_SIZE)) as Esz' by (rewrite X1, El; done).
  split.
  - by eapply written_in.
  - rewrite X1. done.
  - done.
  - rewrite Esz'. destruct Hk as (Hk & _). lia.
  - rewrite Esz', Esz, E. rewrite E in *. Z.to_euclidean_division_equations. lia.
Qed.

Section Link.
Context (devread : Z -> option (Z -> Z -> M (fsst S) (Z * list Z))).
Context (devwrite : Z -> option (Z -> list Z -> M (fsst S) Z)).

(** [dirlink] of a name that is not there. *)
Lemma wp_dirlink_new s T dp x name inum (Q : Z -> fsst S -> Prop) : dir_in s T dp x -> Forall is_byte name ->
  inum_ok (sb s) (i_inum x) -> (nentries x + 1) * DIRENT_SIZE <= MAXFILE * BSIZE ->
  (forall k, 0 <= k < nentries x -> ~ names name (dirent (st_cur T) x k)) ->
  spent (sb s) (st_logs T) x + 2 <= st_cap T -> ind_need x + 1 <= nfree (sb s) (st_cur T) ->
  (forall k T' x' s', dir_linked (sb s) T x name inum k T' x' -> t_rep (disk s') T' -> fs_at s dp x' s' -> Q 0 s') ->
  wp (dirlink devread devwrite dp name inum) Q s.
Proof.
  intros Hd Hb Hi Hmax Hno Hs Hn HQ. destruct (dir_count _ _ _ _ Hd) as [Ecnt Esz].
  apply wp_bind. apply (wp_dirlookup_miss devread s T dp x); [done..|]. intros d1 R1.
  pose proof (dir_in_disk _ _ _ _ d1 Hd R1) as Hd1. pose proof (di_file _ _ _ _ Hd1) as Hf1.
  apply wp_bind, wp_get_inode; [apply Hf1|]. rewrite (fi_x _ _ _ _ Hf1), Ecnt.
  apply wp_bind. apply (wp_find_slot devread _ T dp x); [done|]. intros d2 k r R2 Hk Er. rewrite Er.
  pose proof (dir_in_disk _ _ _ _ d2 Hd R2) as Hd2. assert (DIRENT_SIZE = 16) as E by done.
  assert (Z.of_nat (length (mk_dirent inum name)) = DIRENT_SIZE) as El by (by rewrite mk_dirent_length).
  assert (nblocks (k * DIRENT_SIZE) (k * DIRENT_SIZE + DIRENT_SIZE) = 1) as Enb.
  { unfold nblocks. assert (BSIZE = 512) as -> by done. rewrite E, decide_True by lia.
    Z.to_euclidean_division_equations. lia. }
  destruct (Hk) as (Hkr & _). change (with_disk d2 (with_disk d1 s)) with (with_disk d2 s).
  apply wp_bind. apply (wp_writei devwrite _ T dp x); rewrite ?El, ?Enb.
  - apply Hd2.
  - apply Hd.
  - done.
  - by rewrite (di_type _ _ _ _ Hd).
  - apply (di_max _ _ _ _ Hd).
  - lia.
  - lia.
  - cbn [sb with_disk lset disk_lens]. lia.
  - cbn [sb with_disk lset disk_lens]. lia.
  - intros T' x' s' W R A. rewrite Z.eqb_refl. cbn [negb]. apply wp_ret. apply (HQ k T' x').
    + by apply (link_ok s T dp).
    + done.
    + destruct A. by split.
Qed.

End Link.

End Dir.
