(* ===== verification/FsTheorems.v ===== *)
(** * The file system: theorems

    The free map, file content, inodes on disk, directories and paths. *)

From stdpp Require Import base tactics numbers gmap strings list sets.
From Stdlib Require Import ZArith Lia.
From S2P Require Import Prelude Mmu Memory Spinlock Sleeplock Cache Bio BioFacts Log LogFacts LogTheorems Store Fs FsFacts FsFile FsBmap FsInode FsRw FsDir.

(** ** Paths *)

(** The strings between the slashes of a path. *)
Fixpoint split_slash (path : list Z) : list (list Z) :=
  match path with
  | [] => [[]]
  | c :: p =>
      if c =? SLASH then [] :: split_slash p
      else match split_slash p with
           | w :: ws => (c :: w) :: ws
           | [] => [[c]]
           end
  end.

(** The elements of a path: the nonempty ones. *)
Definition elements (path : list Z) : list (list Z) := filter (fun w => w <> []) (split_slash path).

(** The names a walk of [skipelem] sees. *)
Fixpoint walk (fuel : nat) (path : list Z) : option (list (list Z)) :=
  match fuel with
  | O => None
  | Datatypes.S n =>
      match skipelem path with
      | None => Some []
      | Some (name, rest) => cons name <$> walk n rest
      end
  end.

Lemma skip_slashes_elements p : elements (skip_slashes p) = elements p.
Proof.
  induction p as [|c p IH]; [done|]. cbn [skip_slashes]. destruct (Z.eqb_spec c SLASH) as [->|]; [|done].
  rewrite IH. unfold elements. cbn [split_slash]. rewrite Z.eqb_refl, filter_cons_False by tauto. done.
Qed.

Lemma skip_slashes_head p c q : skip_slashes p = c :: q -> c <> SLASH.
Proof.
  induction p as [|c' p IH]; cbn; [done|]. destruct (Z.eqb_spec c' SLASH); [done|]. by intros [= -> _].
Qed.

Lemma skip_slashes_length p : (length (skip_slashes p) <= length p)%nat.
Proof. induction p as [|c p IH]; cbn; [done|]. destruct (c =? SLASH); cbn; lia. Qed.

Lemma span_elements p s r : span_elem p = (s, r) -> split_slash p = s :: tail (split_slash p) /\
  elements r = filter (fun w => w <> []) (tail (split_slash p)) /\ (length p = length s + length r)%nat.
Proof.
  revert s r. induction p as [|c p IH]; intros s r; cbn [span_elem].
  - intros [= <- <-]. done.
  - destruct (Z.eqb_spec c SLASH) as [->|Hne].
    + intros [= <- <-]. cbn [split_slash]. rewrite Z.eqb_refl. split; [done|]. split; [|done].
      unfold elements. cbn [split_slash]. rewrite Z.eqb_refl, filter_cons_False by tauto. done.
    + destruct (span_elem p) as [s' r'] eqn:E. intros [= <- <-]. destruct (IH _ _ eq_refl) as (E1 & E2 & E3).
      cbn [split_slash]. destruct (Z.eqb_spec c SLASH); [done|]. rewrite E1. cbn [tail length]. split; [done|].
      split; [done|lia].
Qed.

Lemma span_nonempty c p s r : c <> SLASH -> span_elem (c :: p) = (s, r) -> s <> [].
Proof.
  intros Hc. cbn. destruct (Z.eqb_spec c SLASH); [done|]. destruct (span_elem p). by intros [= <- _].
Qed.

Definition trunc (w : list Z) : list Z := take (Z.to_nat DIRSIZ) w.

(** One step: the first element, cut to [DIRSIZ] bytes, and the others. *)
Lemma skipelem_step path :
  match skipelem path with
  | None => elements path = []
  | Some (name, rest) => exists w, elements path = w :: elements rest /\ name = trunc w /\
      (length rest < length path)%nat
  end.
Proof.
  unfold skipelem. rewrite <- (skip_slashes_elements path). pose proof (skip_slashes_length path) as Hl.
  destruct (skip_slashes path) as [|c p] eqn:E; [done|]. apply skip_slashes_head in E as Hc.
  destruct (span_elem (c :: p)) as [s r] eqn:Es. pose proof (span_nonempty _ _ _ _ Hc Es) as Hs.
  apply span_elements in Es as (E1 & E2 & E3). exists s. split; [|split].
  - unfold elements at 1. rewrite E1, filter_cons_True by done. rewrite skip_slashes_elements. by rewrite E2.
  - unfold trunc. destruct (Z.leb_spec DIRSIZ (Z.of_nat (length s))) as [|Hlt]; [done|].
    rewrite take_ge; [done|]. lia.
  - pose proof (skip_slashes_length r). destruct s; [done|]. cbn in *. lia.
Qed.

(** [skipelem] splits a path: called again on what it leaves, it gives the
    nonempty strings between the slashes, each cut to [DIRSIZ] bytes, and then
    nothing; this takes no more calls than the path has characters. *)
Theorem skipelem_split path fuel : (length path < fuel)%nat ->
  walk fuel path = Some (trunc <$> elements path).
Proof.
  revert path. induction fuel as [|n IH]; intros path Hf; [lia|]. cbn [walk].
  pose proof (skipelem_step path) as Hs. destruct (skipelem path) as [[name rest]|]; [|by rewrite Hs].
  destruct Hs as (w & -> & -> & Hl). rewrite IH by lia. done.
Qed.

(** "//usr/./a" *)
Definition sample_path : list Z := [47; 47; 117; 115; 114; 47; 46; 47; 97].

Lemma skipelem_split_witness :
  walk 10 sample_path = Some (trunc <$> elements sample_path) /\
  elements sample_path = [[117; 115; 114]; [46]; [97]].
Proof. split; [apply (skipelem_split sample_path 10); cbn; lia|reflexivity]. Defined.

Section Theorems.
Context {S : Type} `{TxStore S}.
Implicit Types (devread : Z -> option (Z -> Z -> M (fsst S) (Z * list Z))).
Implicit Types (devwrite : Z -> option (Z -> list Z -> M (fsst S) Z)).
Implicit Types (s : fsst S) (T : store) (d : S) (x : inode).

(** ** The free map *)

Lemma freed_used sb lo hi T b b' : fs_geo sb lo hi -> 0 <= b < sb_size sb -> 0 <= b' < sb_size sb ->
  used sb (st_cur (freed sb b T)) b' = used sb (st_cur T) b' && negb (b' =? b).
Proof. intros Hg Hb Hb'. exact (used_unmark sb lo hi Hg (st_cur T) b b' Hb Hb'). Qed.

(** While a block is free, [balloc] returns one that was not in use, with
    every byte zero, marks it and nothing else, and leaves every other data
    block alone; [bfree] of that block then gives back the free map [balloc]
    started from. *)
Theorem balloc_bfree_roundtrip s T : t_rep (disk s) T -> st_held T = ∅ ->
  fs_geo (sb s) (st_lo T) (st_hi T) -> st_cap T < NBUF -> meta_used (sb s) (st_cur T) ->
  0 < nfree (sb s) (st_cur T) -> Z.of_nat (size (st_logs T ∪ bitmaps (sb s))) + 1 <= st_cap T ->
  wp (balloc 1) (fun b s' => exists T',
    t_rep (disk s') T' /\ data_start (sb s) <= b < sb_size (sb s) /\ used (sb s) (st_cur T) b = false /\
    (forall b', 0 <= b' < sb_size (sb s) -> used (sb s) (st_cur T') b' = used (sb s) (st_cur T) b' || (b' =? b)) /\
    (forall o, 0 <= o < BSIZE -> load8 (st_cur T' b) o = 0) /\
    (forall n, data_start (sb s) <= n -> n <> b -> st_cur T' n = st_cur T n) /\
    wp (bfree 1 b) (fun _ s'' => exists T'', t_rep (disk s'') T'' /\
      forall b', 0 <= b' < sb_size (sb s) -> used (sb s) (st_cur T'') b' = used (sb s) (st_cur T) b') s') s.
Proof.
  intros Hr Hh Hg Hc Hm Hn Hl.
  assert (fs_view (sb s) T) as Hv.
  { split; [done| |rewrite Hh, map_size_empty; lia]. intros b _ (b' & c & E). by rewrite Hh, lookup_empty in E. }
  apply (wp_balloc_any s T); try done.
  { intros n (b' & c & E). by rewrite Hh, lookup_empty in E. }
  intros b d Hb Hf R. destruct (data_start_lo _ _ _ Hg).
  exists (allocated (sb s) b T). split; [exact R|]. split; [done|]. split; [done|].
  split; [intros b' Hb'; by eapply alloc_used|]. split; [intros o; apply alloc_zero|].
  split; [intros n Hn1 Hn2; by eapply alloc_data|].
  pose proof (alloc_used _ _ _ Hg (st_cur T) b Hb) as Hu.
  apply (wp_bfree _ (allocated (sb s) b T)).
  - destruct Hv. by split.
  - exact R.
  - cbn [sb with_disk lset disk_lens]. lia.
  - rewrite <- (orb_true_r (used (sb s) (st_cur T) b)), <- (Z.eqb_refl b). apply Hu. lia.
  - pose proof (bblock_bitmap _ _ _ b Hg ltac:(lia)). unfold loggable. cbn [st_logs st_cap allocated st_upd marked].
    pose proof (size_add (st_logs T ∪ bitmaps (sb s)) b).
    pose proof (size_le ({[BBLOCK b (sb s)]} ∪ ({[b]} ∪ ({[BBLOCK b (sb s)]} ∪ st_logs T)))
      (st_logs T ∪ bitmaps (sb s) ∪ {[b]}) ltac:(set_solver)). cbn [sb with_disk lset disk_lens]. lia.
  - intros d' R'. exists (freed (sb s) b (allocated (sb s) b T)). split; [exact R'|]. intros b' Hb'.
    rewrite (freed_used _ _ _ _ b b' Hg) by lia. change (st_cur (allocated (sb s) b T)) with (alloc_cur (sb s) b (st_cur T)).
    rewrite Hu by lia. destruct (Z.eqb_spec b' b) as [->|]; [rewrite Hf; done|by rewrite orb_false_r, andb_true_r].
Qed.

(** ** File content *)

(** C17: what [writei] puts in a file is what [readi] gets: the write returns
    the number of bytes; a read of the same range returns those bytes; a read
    of any other range returns what it did before; and no block of another file
    changes. *)
Theorem writei_readi_roundtrip devread devwrite s T ip x src off : file_in s T ip x -> dense (st_cur T) x ->
  let n := Z.of_nat (length src) in
  inum_ok (sb s) (i_inum x) -> i_type x <> T_DEV -> i_size x <= MAXFILE * BSIZE ->
  0 <= off <= i_size x -> off + n <= MAXFILE * BSIZE ->
  spent (sb s) (st_logs T) x + nblocks off (off + n) + 1 <= st_cap T ->
  ind_need x + nblocks off (off + n) <= nfree (sb s) (st_cur T) ->
  wp (writei devwrite ip src off) (fun r s1 => r = n /\
    wp (readi devread ip off n) (fun q s2 => q = (n, u8 <$> src)) s1 /\
    (forall o m, 0 <= o -> 0 <= m -> o + m <= i_size x -> o + m <= off \/ off + n <= o ->
      wp (readi devread ip o m) (fun q s2 => q = (m, content (st_cur T) x o m)) s1) /\
    exists T1, t_rep (disk s1) T1 /\ forall b, foreign (sb s) (st_cur T) x b -> st_cur T1 b = st_cur T b) s.
Proof.
  intros Hf Hd n Hi Hty Hsz Hoff Hmax Hs Hn. assert (MAXFILE * BSIZE = 71680) as Emax by done.
  apply (wp_writei devwrite s T ip x); try done.
  intros T1 x1 s1 W R1 A1. pose proof (written_in _ _ _ _ _ _ _ _ _ Hf W R1 A1) as Hf1.
  assert (i_size x1 = Z.max (i_size x) (off + n) /\ i_type x1 = i_type x) as [Esz Ety].
  { rewrite (wi_x _ _ _ _ _ _ _ W). done. }
  pose proof (wi_dense _ _ _ _ _ _ _ W) as Hd1. split; [done|]. split; [|split].
  - apply (wp_readi devread s1 T1 ip x1); [done|done|by rewrite Ety|lia|lia|lia|].
    intros d R. rewrite Z.min_l by lia. f_equal. apply (content_written _ _ _ _ _ _ _ W); lia.
  - intros o m Ho Hm Hle Hdis. apply (wp_readi devread s1 T1 ip x1); [done|done|by rewrite Ety|lia|lia|lia|].
    intros d R. rewrite Z.min_l by lia. f_equal. apply (content_unwritten _ _ _ _ _ _ _ _ _ W); done || lia.
  - exists T1. split; [done|]. intros b Hb. by apply (wi_other _ _ _ _ _ _ _ W).
Qed.

(** ** Inodes *)

(** [iupdate] and [ilock] are inverse: after [iupdate] of an inode, an
    [ilock] of the same inode number through an entry that holds no copy reads
    back the same type, device numbers, link count, size and addresses, and
    every other inode that was on the disk still is. *)
Theorem iupdate_ilock_roundtrip s T ip x : inode_in s T ip x -> inode_wf x -> i_type x <> 0 ->
  loggable T (inode_block s x) ->
  wp (iupdate ip) (fun _ s1 => exists T1, t_rep (disk s1) T1 /\
    (forall jp y, 0 <= jp < NINODE -> (inodes s1).[jp] = y -> i_dev y = 1 -> i_inum y = i_inum x ->
      0 < i_ref y -> sl_locked (i_lock y) = false -> i_valid y = false ->
      wp (ilock jp) (fun _ s2 => disk_eq (inodes s2).[jp] x /\ i_valid (inodes s2).[jp] = true /\
        i_lock (inodes s2).[jp] = mksl true (mypid s)) s1) /\
    (forall j y, inum_ok (sb s) j -> j <> i_inum x ->
      stored (st_cur T (IBLOCK j (sb s))) (dinode_off j) y -> stored (st_cur T1 (IBLOCK j (sb s))) (dinode_off j) y)) s.
Proof.
  intros Hf Hw Hty Hl. pose proof Hf as [Hip Hx Hd Hi Hr Hh Hg Hc]. apply (wp_iupdate s T ip x); [done..|].
  intros d R. exists (updated s x T). split; [exact R|]. split.
  - intros jp y Hjp Hy Hyd Hyi Href Hsl Hv.
    assert (inode_block (with_disk d s) y = inode_block s x) as Eb by (unfold inode_block; by rewrite Hyi).
    apply (wp_ilock_read _ (updated s x T) jp y x); try done.
    + split; try done. by rewrite Hyi.
    + rewrite Eb, Hyi. unfold updated. cbn [st_cur st_upd]. rewrite fupd_eq. by apply put_stored.
    + intros d' x' Hde -> _. cbn [inodes fs_set]. rewrite asel_insert_eq. done.
  - intros j y Hj Hne Hst. unfold updated. cbn [st_cur st_upd].
    destruct (IBLOCK_eq _ _ _ _ Hg Hj) as [Ej _], (IBLOCK_eq _ _ _ _ Hg Hi) as [Ei _].
    destruct (decide (IBLOCK j (sb s) = inode_block s x)) as [E|E]; [|by rewrite fupd_ne].
    rewrite E in *. rewrite fupd_eq. apply stored_other; [done|]. unfold inode_block in *.
    destruct Hj, Hi. apply dinode_off_disjoint; lia.
Qed.

(** The inode cache has one entry per inode: [iget] keeps that, and gives
    an entry for the inode it was asked for with one more reference, leaving
    every other entry alone; when no entry is free, it panics. *)
Theorem iget_one_entry s dev inum : iclock s = false -> icache_ok (inodes s) ->
  (forall i, 0 <= i < NINODE -> 0 < i_ref (inodes s).[i] /\ ~ caches (inodes s).[i] dev inum) /\
    (exists s', iget dev inum s = Panic "iget: no inodes" s') \/
  wp (iget dev inum) (fun ip s' => icache_ok (inodes s') /\ iclock s' = false /\
    caches (inodes s').[ip] dev inum /\ i_ref (inodes s').[ip] = i_ref (inodes s).[ip] + 1 /\
    forall j, j <> ip -> (inodes s').[j] = (inodes s).[j]) s.
Proof.
  intros Hl Hok.
  destruct (decide (Exists (fun i => caches (inodes s).[i] dev inum \/ i_ref (inodes s).[i] = 0) (seqZ 0 NINODE)))
    as [(i & Hi%elem_of_seqZ & Hc)%Exists_exists|Hno%not_Exists_Forall]; [right|left|intros i; unfold decide; apply _].
  - apply wp_iget; [done|exists i; split; [lia|done]|]. intros ip a' Hgot.
    destruct (got_ok _ _ _ _ _ Hok Hgot) as (H1 & H2 & H3). destruct Hgot as (_ & Hj & _). done.
  - rewrite Forall_forall in Hno.
    assert (forall i, 0 <= i < NINODE -> 0 < i_ref (inodes s).[i] /\ ~ caches (inodes s).[i] dev inum) as Hall.
    { intros i Hi. pose proof (ic_refs _ Hok i Hi). specialize (Hno i ltac:(apply elem_of_seqZ; lia)). unfold compose in Hno.
      split; [|tauto]. assert (i_ref (inodes s).[i] <> 0) by tauto. lia. }
    split; [done|]. by apply iget_full.
Qed.

(** ** Directories *)

(** C18: a name linked into a directory is found there: [dirlink] of a new name
    returns 0 and leaves a directory in which every entry in use is as it was,
    and [dirlookup] of the name then returns an entry of the inode cache for
    exactly the inode that was linked. *)
Theorem dirlink_dirlookup devread devwrite s T dp x name inum : dir_in s T dp x -> Forall is_byte name -> 0 < inum < 65536 ->
  inum_ok (sb s) (i_inum x) -> (nentries x + 1) * DIRENT_SIZE <= MAXFILE * BSIZE ->
  (forall k, 0 <= k < nentries x -> ~ names name (dirent (st_cur T) x k)) ->
  spent (sb s) (st_logs T) x + 2 <= st_cap T -> ind_need x + 1 <= nfree (sb s) (st_cur T) ->
  iclock s = false -> (exists i, 0 <= i < NINODE /\ i <> dp /\ i_ref (inodes s).[i] = 0) ->
  wp (dirlink devread devwrite dp name inum) (fun r s1 => r = 0 /\
    (exists T1 x1, dir_in s1 T1 dp x1 /\ forall k, 0 <= k < nentries x -> de_inum (dirent (st_cur T) x k) <> 0 ->
      dirent (st_cur T1) x1 k = dirent (st_cur T) x k) /\
    wp (dirlookup devread dp name) (fun q s2 => exists ip o, q = Some (ip, o) /\ caches (inodes s2).[ip] 1 inum) s1) s.
Proof.
  intros Hd Hb Hin Hi Hmax Hno Hs Hn Hl (i & Hri & Hne & Hfree).
  apply (wp_dirlink_new devread devwrite s T dp x); [done..|]. intros k T1 x1 s1 L R1 A1.
  pose proof (linked_dir _ _ _ _ _ _ _ _ _ _ Hd L Hmax R1 A1) as Hd1. pose proof A1 as [_ El _ _ Ea].
  destruct L as [_ (Hk & Hfull & Hz) Hnew Hold Hcnt]. split; [done|]. split.
  { exists T1, x1. split; [done|]. intros j Hj Hnz. apply Hold; [done|]. intros ->. apply Hnz, Hz. lia. }
  apply (wp_dirlookup_hit devread s1 T1 dp x1 name k); [done|lia| | |].
  - rewrite Hnew. by apply mk_dirent_names.
  - intros j Hj. rewrite Hold by lia. apply Hno. lia.
  - intros d R. rewrite Hnew, mk_dirent_inum by lia. apply wp_iget; cbn [iclock inodes with_disk lset disk_lens].
    + by rewrite El.
    + exists i. split; [done|]. right. rewrite Ea, decide_False by done. done.
    + intros ip a' Hgot. exists ip, (k * DIRENT_SIZE). split; [done|]. cbn [inodes set_inodes].
      by eapply got_caches.
Qed.

End Theorems.

(** ** A small file system

    The disk of [LogTheorems.demo_ready], 100 blocks with the log in blocks 2 to
    31, inodes from block 32 and the bitmap in block 34, the first 40 blocks in
    use; one operation has begun. *)

Section Small.

Definition small_bitmap : memory := <[0 := 255]> (<[1 := 255]> (<[2 := 255]> (<[3 := 255]> (<[4 := 255]> ∅)))).
Definition small_disk : arr memory := <[34 := small_bitmap]> ∅.
Definition small_sb : superblock := mksb 100 65 8 30 2 32 34.
Definition small_tx : lst bst := run Log.begin_op (demo_ready small_disk).
Definition small_store : store := mkstore (asel small_disk) ∅ ∅ MAXOPBLOCKS 32 100.

(** Entry 0 of the inode cache is locked by process 7. *)
Definition small_inode (type : Z) : inode := mkinode 1 2 1 (mksl true 7) true type 0 0 1 0 ∅.
Definition small_fs (type : Z) : fsst (lst bst) :=
  mkfs small_sb false (<[0 := small_inode type]> ∅) small_tx 7 0.

Lemma small_idle : tx_idle (demo_ready small_disk) (asel small_disk) 32 100.
Proof.
  unfold demo_ready. destruct (run_wp _ _ _ (demo_binit small_disk)) as [_ (E & Z & R)].
  revert E Z R. generalize (run (zoom cache_lens binit) (demo_boot small_disk)). intros s E Z R.
  exists (demo_blocks small_disk (asel small_disk) ∅). rewrite E. split; [|split; [done|split; [done|]]].
  - split; rewrite ?E, ?Z; try done. apply log0_ok.
  - split; [|split; [done|]]; [|intros n Hn; done]. unfold fs_region. rewrite E, Z. cbn. lia.
Qed.

Lemma small_rep : t_rep small_tx small_store.
Proof. destruct (run_wp _ _ _ (tx_begin _ _ _ _ small_idle)) as [_ H]. exact H. Qed.

#[local] Opaque small_tx.

Lemma small_geo : fs_geo small_sb 32 100.
Proof. split; cbn; try done; lia. Qed.

Lemma small_used b : 0 <= b < 100 -> used small_sb (asel small_disk) b = (b <? 40).
Proof.
  intros Hb. assert (forallb (fun b => Bool.eqb (used small_sb (asel small_disk) b) (b <? 40)) (seqZ 0 100) = true) as H
    by (vm_compute; reflexivity).
  rewrite forallb_forall in H. apply eqb_prop. apply H. apply list_elem_of_In, elem_of_seqZ. lia.
Qed.

Lemma small_meta : meta_used small_sb (asel small_disk).
Proof. intros b Hb. change (data_start small_sb) with 35 in Hb. rewrite small_used by lia. lia. Qed.

Lemma small_free : nfree small_sb (asel small_disk) = 60.
Proof.
  unfold nfree. rewrite (filter_ext_in _ (fun b => ~ b < 40)).
  - reflexivity.
  - intros b Hb%elem_of_seqZ. cbn in Hb. rewrite small_used by lia. destruct (Z.ltb_spec b 40); split; intros; done || lia.
Qed.

Lemma small_bitmaps : bitmaps small_sb = {[34]}.
Proof. reflexivity. Qed.

Lemma small_file type : file_in (small_fs type) small_store 0 (small_inode type).
Proof.
  assert (forall bn, blk (asel small_disk) (small_inode type) bn = 0) as Eb.
  { intros bn. unfold blk, ind_addr. cbn. unfold asel. rewrite lookup_empty. by destruct (bn <? NDIRECT). }
  split; [by split|done|done|apply small_rep|done|apply small_geo|done| |apply small_meta].
  split; intros *; change (st_cur small_store) with (asel small_disk); rewrite ?Eb; done.
Qed.

Lemma small_dense type : dense (asel small_disk) (small_inode type).
Proof. intros bn Hb Hlt. cbn in Hlt. assert (0 < BSIZE) by done. nia. Qed.

Lemma small_spent type : spent small_sb ∅ (small_inode type) = 2.
Proof. reflexivity. Qed.

Lemma small_inode_in type : inode_in (small_fs type) small_store 0 (small_inode type).
Proof. by split; [by split|done|done|by split|apply small_rep|done|apply small_geo|]. Qed.

(** The files' devices are not used. *)
Definition no_read (major : Z) : option (Z -> Z -> M (fsst (lst bst)) (Z * list Z)) := None.
Definition no_write (major : Z) : option (Z -> list Z -> M (fsst (lst bst)) Z) := None.

Lemma balloc_bfree_roundtrip_witness :
  0 < nfree small_sb (asel small_disk) /\
  wp (balloc 1) (fun b s' => exists T',
    t_rep (disk s') T' /\ data_start small_sb <= b < sb_size small_sb /\ used small_sb (asel small_disk) b = false /\
    (forall b', 0 <= b' < sb_size small_sb -> used small_sb (st_cur T') b' = used small_sb (asel small_disk) b' || (b' =? b)) /\
    (forall o, 0 <= o < BSIZE -> load8 (st_cur T' b) o = 0) /\
    (forall n, data_start small_sb <= n -> n <> b -> st_cur T' n = asel small_disk n) /\
    wp (bfree 1 b) (fun _ s'' => exists T'', t_rep (disk s'') T'' /\
      forall b', 0 <= b' < sb_size small_sb -> used small_sb (st_cur T'') b' = used small_sb (asel small_disk) b') s')
    (small_fs T_FILE).
Proof.
  split; [rewrite small_free; reflexivity|].
  apply (balloc_bfree_roundtrip (small_fs T_FILE) small_store small_rep eq_refl small_geo eq_refl small_meta).
  - change (0 < nfree small_sb (asel small_disk)). rewrite small_free. reflexivity.
  - change (st_logs small_store) with (∅ : gset Z). change (sb (small_fs T_FILE)) with small_sb. rewrite small_bitmaps. discriminate.
Defined.

(** "hello" *)
Definition hello : list Z := [104; 101; 108; 108; 111].

Lemma writei_readi_roundtrip_witness :
  wp (writei no_write 0 hello 0) (fun r s1 => r = 5 /\
    wp (readi no_read 0 0 5) (fun q s2 => q = (5, hello)) s1) (small_fs T_FILE).
Proof.
  eapply wp_mono; [|apply (writei_readi_roundtrip no_read no_write (small_fs T_FILE) small_store 0 (small_inode T_FILE) hello 0
    (small_file T_FILE) (small_dense T_FILE))].
  - intros r s1 (H1 & H2 & _). exact (conj H1 H2).
  - by split.
  - discriminate.
  - discriminate.
  - by split.
  - discriminate.
  - change (spent (sb (small_fs T_FILE)) (st_logs small_store) (small_inode T_FILE)) with
      (spent small_sb ∅ (small_inode T_FILE)). rewrite small_spent. discriminate.
  - change (nfree (sb (small_fs T_FILE)) (st_cur small_store)) with (nfree small_sb (asel small_disk)).
    rewrite small_free. discriminate.
Defined.

Lemma iupdate_ilock_roundtrip_witness :
  wp (iupdate 0) (fun _ s1 => exists T1, t_rep (disk s1) T1) (small_fs T_FILE).
Proof.
  eapply wp_mono; [|apply (iupdate_ilock_roundtrip (small_fs T_FILE) small_store 0 (small_inode T_FILE) (small_inode_in T_FILE))].
  - intros _ s1 (T1 & R & _). by exists T1.
  - by split.
  - discriminate.
  - discriminate.
Defined.

Lemma small_icache : icache_ok (inodes (small_fs T_FILE)).
Proof.
  assert (forall i, i_ref (inodes (small_fs T_FILE)).[i] = if decide (i = 0) then 1 else 0) as E.
  { intros i. cbn [inodes small_fs]. rewrite asel_insert. repeat case_decide; by subst. }
  split; [intros i Hi; rewrite E; by case_decide|].
  intros i j dev inum Hi Hj [H1 _] [H2 _]. rewrite E in *. by repeat case_decide; subst.
Qed.

Lemma iget_one_entry_witness :
  wp (iget 1 5) (fun ip s' => icache_ok (inodes s') /\ caches (inodes s').[ip] 1 5) (small_fs T_FILE).
Proof.
  destruct (iget_one_entry (small_fs T_FILE) 1 5 eq_refl small_icache) as [[H _]|H].
  - exfalso. destruct (H 1) as [H1 _]; [by split|]. discriminate H1.
  - eapply wp_mono; [|exact H]. intros ip s' (H1 & _ & H2 & _). exact (conj H1 H2).
Defined.

Lemma dirlink_dirlookup_witness :
  wp (dirlink no_read no_write 0 hello 3) (fun r s1 => r = 0 /\
    wp (dirlookup no_read 0 hello) (fun q s2 => exists ip o, q = Some (ip, o) /\ caches (inodes s2).[ip] 1 3) s1)
    (small_fs T_DIR).
Proof.
  eapply wp_mono; [|apply (dirlink_dirlookup no_read no_write (small_fs T_DIR) small_store 0 (small_inode T_DIR) hello 3)].
  - intros r s1 (H1 & _ & H2). exact (conj H1 H2).
  - split; [apply small_file|done|apply small_dense|by split|done].
  - repeat constructor; done.
  - done.
  - by split.
  - discriminate.
  - intros k Hk. change (nentries (small_inode T_DIR)) with 0 in Hk. lia.
  - change (spent (sb (small_fs T_DIR)) (st_logs small_store) (small_inode T_DIR)) with
      (spent small_sb ∅ (small_inode T_DIR)). rewrite small_spent. discriminate.
  - change (nfree (sb (small_fs T_DIR)) (st_cur small_store)) with (nfree small_sb (asel small_disk)).
    rewrite small_free. discriminate.
  - done.
  - exists 1. done.
Defined.

End Small.
