(* ===== verification/Pipe.v ===== *)
(** * Pipes: [pipe.c]

    The ring of bytes with its free-running counters, and the critical sections
    of [pipewrite], [piperead] and [pipeclose] as steps of a system of any
    number of processes.  A process runs alone while it holds the pipe's lock;
    [sleep] gives the lock up and [wakeup] makes the sleepers of a channel
    runnable again. *)

From stdpp Require Import base tactics numbers gmap strings list sets relations.
From Stdlib Require Import ZArith Lia.
From S2P Require Import Prelude.

Definition PIPESIZE : Z := 512.

(** [struct pipe], without the lock. *)
Record pipe := mkpipe {
  p_data : arr Z;
  nread : Z;
  nwrite : Z;
  readopen : bool;
  writeopen : bool
}.

(** The fields [pipealloc] sets; the bytes are those of the page. *)
Definition newpipe (page : arr Z) : pipe := mkpipe page 0 0 true true.

Definition full (p : pipe) : bool := nwrite p =? u32 (nread p + PIPESIZE).
Definition empty (p : pipe) : bool := nread p =? nwrite p.

(** [p->data[p->nwrite++ % PIPESIZE] = c] *)
Definition push (c : Z) (p : pipe) : pipe :=
  mkpipe (<[nwrite p mod PIPESIZE := u8 c]> (p_data p)) (nread p) (u32 (nwrite p + 1)) (readopen p) (writeopen p).

(** [p->data[p->nread++ % PIPESIZE]] *)
Definition front (p : pipe) : Z := (p_data p).[nread p mod PIPESIZE].
Definition pop (p : pipe) : pipe :=
  mkpipe (p_data p) (u32 (nread p + 1)) (nwrite p) (readopen p) (writeopen p).

(** The channels of [sleep] and [wakeup]: the addresses of the two counters. *)
Inductive chan := NREAD | NWRITE.

#[global] Instance chan_eq_dec : EqDecision chan.
Proof. solve_decision. Defined.

(** What a process does when it next gives up the lock. *)
Inductive wrote_out := WSleep (i : nat) | WRet (r : Z).
Inductive read_out := RSleep | RRet (r : Z) (bytes : list Z).

(** [pipewrite] from the [i]-th byte on, [rest] being those still to write: the
    pipe, the channels woken and where it stops. *)
Fixpoint pipewrite (killed : bool) (n : Z) (rest : list Z) (i : nat) (p : pipe) : pipe * list chan * wrote_out :=
  match rest with
  | [] => (p, [NREAD], WRet n)
  | c :: rest' =>
      if full p then
        if negb (readopen p) || killed then (p, [], WRet (-1))
        else (p, [NREAD], WSleep i)
      else pipewrite killed n rest' (Datatypes.S i) (push c p)
  end.

(** The copy loop of [piperead]. *)
Fixpoint piperead_copy (n : nat) (p : pipe) : pipe * list Z :=
  match n with
  | O => (p, [])
  | Datatypes.S n' =>
      if empty p then (p, [])
      else let '(p', l) := piperead_copy n' (pop p) in (p', front p :: l)
  end.

Definition piperead (killed : bool) (n : nat) (p : pipe) : pipe * list chan * read_out :=
  if empty p && writeopen p then
    if killed then (p, [], RRet (-1) [])
    else (p, [], RSleep)
  else
    let '(p', l) := piperead_copy n p in (p', [NWRITE], RRet (Z.of_nat (length l)) l).

(** [pipeclose]: the pipe, the channel woken, and whether its page is freed. *)
Definition pipeclose (writable : bool) (p : pipe) : pipe * list chan * bool :=
  let p' := if writable then mkpipe (p_data p) (nread p) (nwrite p) (readopen p) false
            else mkpipe (p_data p) (nread p) (nwrite p) false (writeopen p) in
  (p', [if writable then NREAD else NWRITE], negb (readopen p') && negb (writeopen p')).

(** ** The contents *)

Definition count (p : pipe) : Z := u32 (nwrite p - nread p).

Definition contents (p : pipe) : list Z :=
  (fun k => (p_data p).[(nread p + k) mod PIPESIZE]) <$> seqZ 0 (count p).

(** The counters are 32-bit words at most [PIPESIZE] apart. *)
Record pipe_ok (p : pipe) : Prop := {
  po_read : 0 <= nread p < 4294967296;
  po_write : 0 <= nwrite p < 4294967296;
  po_count : count p <= PIPESIZE
}.

Lemma newpipe_ok page : pipe_ok (newpipe page) /\ contents (newpipe page) = [].
Proof. split; [by split|done]. Qed.

Lemma full_count p : pipe_ok p -> full p = (count p =? PIPESIZE).
Proof.
  intros [Hr Hw Hc]. unfold full, count, PIPESIZE in *. apply eq_true_iff_eq. rewrite !Z.eqb_eq. wrap_lia.
Qed.

Lemma empty_count p : pipe_ok p -> empty p = (count p =? 0).
Proof.
  intros [Hr Hw Hc]. unfold empty, count, PIPESIZE in *. apply eq_true_iff_eq. rewrite !Z.eqb_eq. wrap_lia.
Qed.

Lemma count_nonneg p : 0 <= count p.
Proof. by apply Z.mod_pos_bound. Qed.

Lemma push_count p c : pipe_ok p -> full p = false -> count (push c p) = count p + 1.
Proof.
  intros Hp Hf. rewrite full_count in Hf by done. apply Z.eqb_neq in Hf. destruct Hp as [Hr Hw Hc].
  unfold count, push, PIPESIZE in *. cbn. wrap_lia.
Qed.

Lemma pop_count p : pipe_ok p -> empty p = false -> count (pop p) = count p - 1.
Proof.
  intros Hp Hf. rewrite empty_count in Hf by done. apply Z.eqb_neq in Hf. destruct Hp as [Hr Hw Hc].
  unfold count, pop, PIPESIZE in *. cbn. wrap_lia.
Qed.

(** Entries of the ring stay apart while the pipe is not full. *)
Lemma ring_index p k : pipe_ok p -> full p = false -> 0 <= k < count p ->
  (nread p + k) mod PIPESIZE <> nwrite p mod PIPESIZE.
Proof.
  intros Hp Hf Hk. rewrite full_count in Hf by done. apply Z.eqb_neq in Hf. destruct Hp as [Hr Hw Hc].
  unfold count, PIPESIZE in *. wrap_lia.
Qed.

Lemma ring_end p : pipe_ok p -> (nread p + count p) mod PIPESIZE = nwrite p mod PIPESIZE.
Proof. intros [Hr Hw Hc]. unfold count, PIPESIZE in *. wrap_lia. Qed.

Lemma push_ok p c : pipe_ok p -> full p = false -> pipe_ok (push c p).
Proof.
  intros Hp Hf. pose proof (push_count p c Hp Hf). rewrite full_count in Hf by done. apply Z.eqb_neq in Hf.
  destruct Hp as [Hr Hw Hc]. split; cbn; [done|by apply Z.mod_pos_bound|]. lia.
Qed.

Lemma pop_ok p : pipe_ok p -> empty p = false -> pipe_ok (pop p).
Proof.
  intros Hp Hf. pose proof (pop_count p Hp Hf). destruct Hp as [Hr Hw Hc].
  split; cbn; [by apply Z.mod_pos_bound|done|]. lia.
Qed.

(** A byte goes in at the back and comes out at the front. *)
Lemma push_contents p c : pipe_ok p -> full p = false -> contents (push c p) = contents p ++ [u8 c].
Proof.
  intros Hp Hf. unfold contents. rewrite push_count by done. pose proof (count_nonneg p).
  rewrite seqZ_app, fmap_app by lia. f_equal.
  - apply list_fmap_ext. intros i k Hk. apply lookup_seqZ in Hk as [-> Hi]. cbn.
    rewrite asel_insert_ne; [done|]. apply not_eq_sym, ring_index; done || lia.
  - change (seqZ (0 + count p) 1) with [0 + count p]. cbn [fmap list_fmap]. rewrite Z.add_0_l. f_equal.
    change (nread (push c p)) with (nread p). rewrite ring_end by done. cbn. by rewrite asel_insert_eq.
Qed.

Lemma pop_contents p : pipe_ok p -> empty p = false -> contents p = front p :: contents (pop p).
Proof.
  intros Hp Hf. unfold contents. rewrite pop_count by done. rewrite empty_count in Hf by done. apply Z.eqb_neq in Hf.
  pose proof (count_nonneg p). rewrite seqZ_cons by lia. cbn. rewrite Z.add_0_r. f_equal.
  replace (Z.succ 0) with (1 + 0) by lia. rewrite <- fmap_add_seqZ, <- list_fmap_compose.
  replace (Z.pred (count p)) with (count p - 1) by lia. apply list_fmap_ext. intros i k Hk. cbn.
  f_equal. destruct Hp. unfold PIPESIZE. wrap_lia.
Qed.

Lemma empty_contents p : pipe_ok p -> empty p = true <-> contents p = [].
Proof.
  intros Hp. rewrite empty_count, Z.eqb_eq by done. unfold contents. pose proof (count_nonneg p). split.
  - by intros ->.
  - intros E%(f_equal length). rewrite length_fmap, length_seqZ in E. cbn in E. lia.
Qed.

Lemma contents_length p : Z.of_nat (length (contents p)) = count p.
Proof. unfold contents. rewrite length_fmap, length_seqZ. pose proof (count_nonneg p). lia. Qed.

(** ** What the critical sections do *)

(** The bytes that went in while [p] became [p'], none coming out. *)
Definition appended (l : list Z) (p p' : pipe) : Prop :=
  pipe_ok p' /\ contents p' = contents p ++ (u8 <$> l) /\ readopen p' = readopen p /\ writeopen p' = writeopen p.

Lemma pipewrite_spec killed n rest i p p' ws r : pipe_ok p -> pipewrite killed n rest i p = (p', ws, r) ->
  exists k, appended (take k rest) p p' /\
  match r with
  | WRet v => (v = n /\ k = length rest /\ ws = [NREAD]) \/
      (v = -1 /\ full p' = true /\ (readopen p = false \/ killed = true) /\ ws = [])
  | WSleep j => j = (i + k)%nat /\ (k < length rest)%nat /\ full p' = true /\ readopen p = true /\ killed = false /\ ws = [NREAD]
  end.
Proof.
  revert i p. induction rest as [|c rest IH]; intros i p Hp; cbn [pipewrite].
  - intros [= <- <- <-]. exists O. split; [|by left]. split; [done|]. by rewrite app_nil_r.
  - destruct (full p) eqn:Hf.
    + assert (appended (take 0 (c :: rest)) p p) as H0 by (split; [done|]; by rewrite app_nil_r).
      destruct (negb (readopen p) || killed) eqn:Hs; intros [= <- <- <-]; exists O; split; try done.
      * right. rewrite orb_true_iff, negb_true_iff in Hs. done.
      * rewrite orb_false_iff, negb_false_iff in Hs. destruct Hs. repeat split; try done; cbn; lia.
    + intros E. apply IH in E as (k & (H1 & H2 & H3 & H4) & Hr); [|by apply push_ok].
      exists (Datatypes.S k). split.
      * split; [done|]. rewrite H2, push_contents, H3, H4 by done. by rewrite <- app_assoc.
      * destruct r as [j|v]; cbn [length].
        -- destruct Hr as (-> & ? & ? & ? & ? & ?). repeat split; try done; lia.
        -- destruct Hr as [(-> & -> & ->)|?]; [by left|by right].
Qed.

Lemma piperead_copy_spec n p p' l : pipe_ok p -> piperead_copy n p = (p', l) ->
  pipe_ok p' /\ contents p = l ++ contents p' /\ readopen p' = readopen p /\ writeopen p' = writeopen p /\
  length l = Nat.min n (length (contents p)).
Proof.
  revert p p' l. induction n as [|n IH]; intros p p' l Hp; cbn [piperead_copy]; [by intros [= <- <-]|].
  destruct (empty p) eqn:He.
  - intros [= <- <-]. apply empty_contents in He; [|done]. by rewrite He.
  - destruct (piperead_copy n (pop p)) as [q m] eqn:E. intros [= <- <-].
    apply IH in E as (H1 & H2 & H3 & H4 & H5); [|by apply pop_ok].
    rewrite (pop_contents p) by done. cbn [length app]. rewrite H2 at 1. rewrite H3, H4, H5. done.
Qed.

(** ** A system of processes *)

(** What a process is doing with the pipe. *)
Inductive op := Write (buf : list Z) (i : nat) | Read (n : nat) | Close (writable : bool).

Inductive thread :=
  | Running (o : op)
  | Sleeping (c : chan) (o : op)
  | Returned (r : Z).

(** [wakeup]: the sleepers of the channels run again. *)
Definition woken (ws : list chan) (t : thread) : thread :=
  match t with
  | Sleeping c o => if decide (c ∈ ws) then Running o else t
  | _ => t
  end.

(** The pipe, the processes, those killed, and the history: the bytes written
    and the bytes read so far. *)
Record sys := mksys {
  the_pipe : pipe;
  threads : gmap Z thread;
  killed : gset Z;
  sent : list Z;
  received : list Z
}.

(** What process [i] leaves when it gives up the lock. *)
Definition yield (i : Z) (t : thread) (ws : list chan) (p : pipe) (snd rcv : list Z) (s : sys) : sys :=
  mksys p (<[i := t]> (woken ws <$> threads s)) (killed s) (sent s ++ snd) (received s ++ rcv).

(** How many bytes [pipewrite] put in before it stopped at [r]. *)
Definition taken (buf : list Z) (i : nat) (p p' : pipe) : list Z :=
  u8 <$> take (Z.to_nat (count p' - count p)) (drop i buf).

(** A process inside a call has the file of its end open. *)
Definition ends (w : bool) (t : thread) : Prop :=
  match t with
  | Running (Write _ _) | Sleeping _ (Write _ _) => w = true
  | Running (Read _) | Sleeping _ (Read _) => w = false
  | _ => False
  end.

(** The steps: a process calls, and then runs until it sleeps or returns.
    [fileclose] closes an end of the pipe when no process uses it any more. *)
Inductive step : sys -> sys -> Prop :=
  | step_call s i r o : threads s !! i = Some (Returned r) ->
      match o with
      | Write _ k => writeopen (the_pipe s) = true /\ k = O
      | Read _ => readopen (the_pipe s) = true
      | Close w => (if w then writeopen (the_pipe s) else readopen (the_pipe s)) = true
      end ->
      step s (mksys (the_pipe s) (<[i := Running o]> (threads s)) (killed s) (sent s) (received s))
  | step_write_done s i buf k p ws r : threads s !! i = Some (Running (Write buf k)) ->
      pipewrite (bool_decide (i ∈ killed s)) (Z.of_nat (length buf)) (drop k buf) k (the_pipe s) = (p, ws, WRet r) ->
      step s (yield i (Returned r) ws p (taken buf k (the_pipe s) p) [] s)
  | step_write_sleep s i buf k p ws k' : threads s !! i = Some (Running (Write buf k)) ->
      pipewrite (bool_decide (i ∈ killed s)) (Z.of_nat (length buf)) (drop k buf) k (the_pipe s) = (p, ws, WSleep k') ->
      step s (yield i (Sleeping NWRITE (Write buf k')) ws p (taken buf k (the_pipe s) p) [] s)
  | step_read_done s i n p ws r l : threads s !! i = Some (Running (Read n)) ->
      piperead (bool_decide (i ∈ killed s)) n (the_pipe s) = (p, ws, RRet r l) ->
      step s (yield i (Returned r) ws p [] l s)
  | step_read_sleep s i n p ws : threads s !! i = Some (Running (Read n)) ->
      piperead (bool_decide (i ∈ killed s)) n (the_pipe s) = (p, ws, RSleep) ->
      step s (yield i (Sleeping NREAD (Read n)) ws p [] [] s)
  | step_close s i w p ws freed : threads s !! i = Some (Running (Close w)) ->
      (forall j t, threads s !! j = Some t -> ~ ends w t) ->
      pipeclose w (the_pipe s) = (p, ws, freed) ->
      step s (yield i (Returned 0) ws p [] [] s)
  | step_kill s i t : threads s !! i = Some t ->
      step s (mksys (the_pipe s)
        (<[i := match t with Sleeping _ o => Running o | _ => t end]> (threads s))
        ({[i]} ∪ killed s) (sent s) (received s)).

Record init (s : sys) : Prop := {
  in_ok : pipe_ok (the_pipe s);
  in_empty : contents (the_pipe s) = [];
  in_open : readopen (the_pipe s) = true /\ writeopen (the_pipe s) = true;
  in_idle : forall i t, threads s !! i = Some t -> exists r, t = Returned r;
  in_killed : killed s = ∅;
  in_hist : sent s = [] /\ received s = []
}.

Definition reachable (s : sys) : Prop := exists s0, init s0 /\ rtc step s0 s.

(** The bytes in the pipe are those sent and not yet received. *)
Definition fifo (s : sys) : Prop := pipe_ok (the_pipe s) /\ sent s = received s ++ contents (the_pipe s).

Lemma taken_appended k buf i p p' : pipe_ok p -> appended (take k (drop i buf)) p p' -> (k <= length (drop i buf))%nat ->
  contents p' = contents p ++ taken buf i p p'.
Proof.
  intros Hp (H1 & H2 & _) Hk. rewrite H2. unfold taken. do 3 f_equal.
  apply (f_equal length) in H2. rewrite length_app, length_fmap, length_take in H2.
  pose proof (contents_length p). pose proof (contents_length p'). lia.
Qed.

Lemma write_fifo s i t ws buf k p r : fifo s ->
  pipewrite (bool_decide (i ∈ killed s)) (Z.of_nat (length buf)) (drop k buf) k (the_pipe s) = (p, ws, r) ->
  fifo (yield i t ws p (taken buf k (the_pipe s) p) [] s).
Proof.
  intros [Hp Hh] E. pose proof E as E'. apply pipewrite_spec in E' as (k1 & Ha & _); [|done].
  pose proof Ha as [Hp' _]. split; [done|]. cbn. rewrite app_nil_r, Hh, <- app_assoc. f_equal. symmetry.
  apply (taken_appended (Nat.min k1 (length (drop k buf)))); [done| |lia].
  destruct (decide (k1 <= length (drop k buf))%nat) as [|Hgt]; [by rewrite Nat.min_l by lia|].
  rewrite Nat.min_r by lia. rewrite take_ge in Ha by lia. by rewrite take_ge.
Qed.

Lemma read_fifo s i t ws n p r l : fifo s -> piperead (bool_decide (i ∈ killed s)) n (the_pipe s) = (p, ws, r) ->
  l = match r with RRet _ l => l | RSleep => [] end ->
  fifo (yield i t ws p [] l s).
Proof.
  intros [Hp Hh] E ->. unfold piperead in E. destruct (empty (the_pipe s) && writeopen (the_pipe s)).
  - destruct (bool_decide _); injection E as <- <- <-; (split; [done|]); cbn; by rewrite !app_nil_r.
  - destruct (piperead_copy n (the_pipe s)) as [p' l] eqn:Ec. injection E as <- <- <-.
    apply piperead_copy_spec in Ec as (H1 & H2 & _); [|done]. split; [done|]. cbn. rewrite app_nil_r, Hh, H2.
    by rewrite <- app_assoc.
Qed.

Lemma fifo_step s s' : fifo s -> step s s' -> fifo s'.
Proof.
  intros Hf Hst. destruct Hst as [s i r o Ht Ho|s i buf k p ws r Ht E|s i buf k p ws k' Ht E|s i n p ws r l Ht E|
    s i n p ws Ht E|s i w p ws freed Ht Hno E|s i t Ht].
  - done.
  - by eapply write_fifo.
  - by eapply write_fifo.
  - by eapply read_fifo.
  - by eapply read_fifo.
  - destruct Hf as [[Hr Hw Hc] Hh]. injection E as <- _ _. split.
    + destruct w; by split.
    + cbn. rewrite !app_nil_r, Hh. by destruct w.
  - done.
Qed.

Lemma steps_inv (I : sys -> Prop) : (forall s, init s -> I s) -> (forall s s', I s -> step s s' -> I s') ->
  forall s, reachable s -> I s.
Proof. intros Hi Hst s (s0 & H0 & Hs). apply Hi in H0. induction Hs; eauto. Qed.

(** C26: a pipe is a queue: whatever the processes that use it do, in any
    interleaving, with the counters wrapping around at 32 bits, the bytes
    received so far followed by those in the ring are exactly the bytes sent,
    in order, and the ring never holds more than [PIPESIZE]. *)
Theorem pipe_fifo s : reachable s ->
  sent s = received s ++ contents (the_pipe s) /\ Z.of_nat (length (contents (the_pipe s))) <= PIPESIZE.
Proof.
  intros Hs. assert (fifo s) as [Hp Hh].
  { revert s Hs. apply steps_inv; [|exact fifo_step]. intros s [H1 H2 _ _ _ [E1 E2]].
    split; [done|]. by rewrite E1, E2, H2. }
  split; [done|]. rewrite contents_length. apply Hp.
Qed.

(** ** No lost wakeup *)

(** What a sleeper waits for has not happened. *)
Definition waits (p : pipe) (t : thread) : Prop :=
  match t with
  | Sleeping NREAD o => (exists n, o = Read n) /\ empty p = true /\ writeopen p = true
  | Sleeping NWRITE o => (exists buf k, o = Write buf k) /\ full p = true /\ readopen p = true
  | _ => True
  end.

Definition end_open (p : pipe) (w : bool) : Prop := (if w then writeopen p else readopen p) = true.

Record awake (s : sys) : Prop := {
  aw_ok : pipe_ok (the_pipe s);
  aw_wait : forall i t, threads s !! i = Some t -> waits (the_pipe s) t;
  aw_ends : forall i t w, threads s !! i = Some t -> ends w t -> end_open (the_pipe s) w
}.

(** The threads after a step: the one that ran, and the others woken. *)
Lemma awake_yield s i t ws p snd rcv : pipe_ok p -> waits p t -> (forall w, ends w t -> end_open p w) ->
  (forall j u, threads s !! j = Some u -> waits p (woken ws u)) ->
  (forall j u w, threads s !! j = Some u -> ends w u -> end_open p w) ->
  awake (yield i t ws p snd rcv s).
Proof.
  intros Hp Ht Hte Hw He. split; cbn; [done|..].
  - intros j u [[_ <-]|[_ E]]%lookup_insert_Some; [done|].
    rewrite lookup_fmap in E. destruct (threads s !! j) as [v|] eqn:Ev; [|done]. injection E as <-. eauto.
  - intros j u w [[_ <-]|[_ E]]%lookup_insert_Some; [auto|].
    rewrite lookup_fmap in E. destruct (threads s !! j) as [v|] eqn:Ev; [|done]. injection E as <-.
    intros Hv. apply (He j v); [done|]. unfold woken in Hv. destruct v as [o|c o|r]; try done. by case_decide.
Qed.

Lemma full_stays p p' : pipe_ok p -> pipe_ok p' -> full p = true -> count p <= count p' -> full p' = true.
Proof. intros Hp Hp' Hf Hc. rewrite full_count in * by done. apply Z.eqb_eq in Hf. apply Z.eqb_eq. destruct Hp'. lia. Qed.

Lemma appended_count l p p' : appended l p p' -> count p <= count p'.
Proof. intros (_ & E & _). rewrite <- !contents_length, E, length_app. lia. Qed.

(** A write that is not cut short wakes the readers. *)
Lemma awake_write s i buf k p ws r t : awake s -> threads s !! i = Some (Running (Write buf k)) ->
  pipewrite false (Z.of_nat (length buf)) (drop k buf) k (the_pipe s) = (p, ws, r) ->
  t = match r with WRet v => Returned v | WSleep k' => Sleeping NWRITE (Write buf k') end ->
  forall snd, awake (yield i t ws p snd [] s).
Proof.
  intros [Hp Hw He] Hi E -> snd. apply pipewrite_spec in E as (n & Ha & Hr); [|done].
  pose proof (appended_count _ _ _ Ha) as Hc. destruct Ha as (Hp' & _ & Hro & Hwo).
  assert (forall w, end_open (the_pipe s) w -> end_open p w) as Hend.
  { intros w. unfold end_open. rewrite Hro, Hwo. done. }
  assert (forall c o, waits (the_pipe s) (Sleeping c o) -> c = NWRITE -> waits p (Sleeping c o)) as Hstay.
  { intros c o Hcw ->. destruct Hcw as (? & Hf & Hop). split; [done|split; [by apply (full_stays (the_pipe s))|congruence]]. }
  apply awake_yield.
  - done.
  - destruct r as [k'|v]; [|done]. destruct Hr as (_ & _ & Hf & Hop & _). split; [by do 2 eexists|split; [done|congruence]].
  - intros w Hwt. apply Hend. destruct r as [k'|v]; [|done]. cbn in Hwt. subst w. by apply (He i (Running (Write buf k))).
  - intros j u Hu. pose proof (Hw j u Hu) as Hwu. destruct u as [o|c o|v]; try done. cbn [woken].
    case_decide as Hin; [done|]. destruct c; [|by apply Hstay].
    exfalso. destruct r as [k'|v]; [destruct Hr as (_ & _ & _ & _ & _ & ->); set_solver|].
    destruct Hr as [(_ & _ & ->)|(_ & _ & [Hc1|Hc1] & _)]; [set_solver| |done].
    destruct Hwu as ((n0 & ->) & _). pose proof (He j _ false Hu eq_refl) as Ho. unfold end_open in Ho. congruence.
  - intros j u w Hu Hwu. apply Hend. by apply (He j u).
Qed.

Lemma awake_read s i n p ws r t : awake s -> threads s !! i = Some (Running (Read n)) ->
  piperead false n (the_pipe s) = (p, ws, r) ->
  t = match r with RRet v _ => Returned v | RSleep => Sleeping NREAD (Read n) end ->
  forall rcv, awake (yield i t ws p [] rcv s).
Proof.
  intros [Hp Hw He] Hi E -> rcv. unfold piperead in E.
  destruct (empty (the_pipe s) && writeopen (the_pipe s)) eqn:Hemp.
  - injection E as <- <- <-. apply andb_true_iff in Hemp as [H1 H2]. apply awake_yield; try done.
    + split; [by eexists|done].
    + intros w Hwt. by apply (He i (Running (Read n))).
    + intros j u Hu. pose proof (Hw j u Hu) as Hwu. by destruct u.
  - destruct (piperead_copy n (the_pipe s)) as [p' l] eqn:Ec. injection E as <- <- <-.
    apply piperead_copy_spec in Ec as (Hp' & _ & Hro & Hwo & _); [|done].
    apply awake_yield; try done.
    + intros j u Hu. pose proof (Hw j u Hu) as Hwu. destruct u as [o|c o|v]; try done. cbn [woken].
      case_decide as Hin; [done|]. destruct c; [|set_solver]. destruct Hwu as (_ & H1 & H2). by rewrite H1, H2 in Hemp.
    + intros j u w Hu Hwu. pose proof (He j u w Hu Hwu) as Ho. unfold end_open in *. by rewrite Hro, Hwo.
Qed.

Lemma awake_close s i w p ws freed : awake s -> (forall j t, threads s !! j = Some t -> ~ ends w t) ->
  pipeclose w (the_pipe s) = (p, ws, freed) -> awake (yield i (Returned 0) ws p [] [] s).
Proof.
  intros [[Hr Hw' Hc] Hw He] Hno E. injection E as <- <- _. apply awake_yield; try done.
  - by destruct w.
  - intros j u Hu. pose proof (Hw j u Hu) as Hwu. pose proof (Hno j u Hu) as Hne.
    destruct u as [o|c o|v]; try done. cbn [woken]. case_decide as Hin; [done|].
    destruct c, w.
    + by destruct Hin; apply list_elem_of_singleton.
    + destruct Hwu as ((n0 & ->) & _). by destruct Hne.
    + destruct Hwu as ((buf & k & ->) & _). by destruct Hne.
    + by destruct Hin; apply list_elem_of_singleton.
  - intros j u w' Hu Hwu. pose proof (He j u w' Hu Hwu) as Ho. pose proof (Hno j u Hu) as Hne.
    unfold end_open in *. destruct w, w'; try done.
Qed.

Lemma awake_step s s' : (killed s = ∅ -> awake s) -> step s s' -> killed s' = ∅ -> awake s'.
Proof.
  intros Hs Hst Hk. destruct Hst as [s i r o Ht Ho|s i buf k p ws r Ht E|s i buf k p ws k' Ht E|s i n p ws r l Ht E|
    s i n p ws Ht E|s i w p ws freed Ht Hno E|s i t Ht]; cbn in Hk; [|..|set_solver]; specialize (Hs Hk).
  - destruct Hs as [Hp Hw He]. split; cbn; [done|..].
    + intros j u [[_ <-]|[_ E]]%lookup_insert_Some; [done|eauto].
    + intros j u w [[_ <-]|[_ E]]%lookup_insert_Some; [|eauto].
      destruct o as [buf k|n|w']; cbn; [intros ->; by destruct Ho|by intros ->|done].
  - rewrite Hk, bool_decide_false in E by set_solver. by eapply awake_write.
  - rewrite Hk, bool_decide_false in E by set_solver. by eapply awake_write.
  - rewrite Hk, bool_decide_false in E by set_solver. by eapply awake_read.
  - rewrite Hk, bool_decide_false in E by set_solver. by eapply awake_read.
  - by eapply awake_close.
Qed.

(** C27: no wakeup of a pipe is lost as long as no process is killed: a process
    asleep in [piperead] waits for an empty pipe whose write end is open, and
    one asleep in [pipewrite] for a full pipe whose read end is open; so none
    sleeps while it could go on. *)
Theorem pipe_no_lost_wakeup s : reachable s -> killed s = ∅ ->
  forall i t, threads s !! i = Some t -> waits (the_pipe s) t.
Proof.
  intros Hs Hk. assert (killed s = ∅ -> awake s) as Ha; [|by apply Ha].
  clear Hk. revert s Hs. apply (steps_inv (fun s => killed s = ∅ -> awake s)); [|intros s s' Hs Hst; by eapply awake_step].
  intros s [H1 H2 _ Hid _ _] _. split; [done|..].
  - intros i t Ht. by destruct (Hid i t Ht) as [r ->].
  - intros i t w Ht. by destruct (Hid i t Ht) as [r ->].
Qed.

(** ** A killed writer

    [pipewrite] returns from a full pipe without a wakeup when its process has
    been killed, whatever it has put in before. *)

Lemma pipewrite_killed n rest i p : pipe_ok p -> PIPESIZE - count p < Z.of_nat (length rest) ->
  exists p', pipewrite true n rest i p = (p', [], WRet (-1)) /\ pipe_ok p' /\ full p' = true /\
    readopen p' = readopen p /\ writeopen p' = writeopen p.
Proof.
  revert i p. induction rest as [|c rest IH]; intros i p Hp Hc; cbn [length] in Hc; [destruct Hp; lia|].
  cbn [pipewrite]. destruct (full p) eqn:Hf; [rewrite orb_true_r; by exists p|].
  destruct (IH (Datatypes.S i) (push c p)) as (p' & E & H1 & H2 & H3 & H4); [by apply push_ok| |by exists p'].
  rewrite push_count by done. lia.
Qed.

(** Process 1 reads, process 2 writes. *)
Definition two (p : pipe) (t1 t2 : thread) (k : gset Z) : sys := mksys p (<[1 := t1]> (<[2 := t2]> ∅)) k [] [].

Lemma two_init : init (two (newpipe ∅) (Returned 0) (Returned 0) ∅).
Proof.
  split; [by split|done|done| |done|done]. intros i t Ht. cbn in Ht.
  apply lookup_insert_Some in Ht as [[_ <-]|[_ Ht]]; [by eexists|].
  apply lookup_insert_Some in Ht as [[_ <-]|[_ Ht]]; [by eexists|done].
Qed.

Lemma two_asleep : reachable (two (newpipe ∅) (Sleeping NREAD (Read 1)) (Returned 0) ∅).
Proof.
  exists (two (newpipe ∅) (Returned 0) (Returned 0) ∅). split; [apply two_init|].
  eapply rtc_l; [apply (step_call _ 1 0 (Read 1)); done|].
  eapply rtc_l; [apply (step_read_sleep _ 1 1 (newpipe ∅) []); reflexivity|].
  reflexivity.
Qed.

(** A wakeup is lost: a reader sleeps on an empty pipe; a writer that has been
    killed fills the pipe and returns -1; the reader still sleeps, and no other
    process is in the pipe's code. *)
Lemma pipe_killed_wakeup_lost (buf : list Z) : PIPESIZE < Z.of_nat (length buf) ->
  exists s, reachable s /\ threads s !! 1 = Some (Sleeping NREAD (Read 1)) /\
    threads s !! 2 = Some (Returned (-1)) /\ full (the_pipe s) = true.
Proof.
  intros Hlen. destruct (pipewrite_killed (Z.of_nat (length buf)) buf 0 (newpipe ∅)) as (p' & E & Hp' & Hf & _);
    [apply newpipe_ok|change (count (newpipe ∅)) with 0; lia|].
  destruct two_asleep as (s0 & Hi & Hs). set (s1 := two _ _ _ _) in Hs.
  set (s2 := mksys (the_pipe s1) (<[2 := Running (Write buf 0)]> (threads s1)) ∅ [] []).
  set (s3 := mksys (the_pipe s1) (<[2 := Running (Write buf 0)]> (threads s2)) ({[2]} ∪ ∅) [] []).
  assert (step s1 s2) as H12 by (exact (step_call s1 2 0 (Write buf 0) eq_refl (conj eq_refl eq_refl))).
  assert (step s2 s3) as H23 by (exact (step_kill s2 2 (Running (Write buf 0)) eq_refl)).
  eexists. split; [exists s0; split; [exact Hi|]|].
  - eapply rtc_r; [eapply rtc_r; [eapply rtc_r; [exact Hs|exact H12]|exact H23]|].
    apply (step_write_done s3 2 buf 0 p' [] (-1)); [apply lookup_insert_eq|].
    rewrite bool_decide_true; [exact E|cbn; set_solver].
  - split; [reflexivity|]. split; [apply lookup_insert_eq|exact Hf].
Qed.

(** Process 2 writes three bytes, and process 1 reads two of them. *)
Definition wrote3 : pipe := push 9 (push 8 (push 7 (newpipe ∅))).
Definition read2 : sys :=
  let s1 := two wrote3 (Running (Read 2)) (Returned 3) ∅ in
  mksys (pop (pop wrote3)) (threads (yield 1 (Returned 2) [NWRITE] (the_pipe s1) [] [] s1)) ∅ [7; 8; 9] [7; 8].

Lemma read2_reachable : reachable read2.
Proof.
  set (s0 := two (newpipe ∅) (Returned 0) (Returned 0) ∅). exists s0. split; [apply two_init|].
  eapply rtc_l; [exact (step_call s0 2 0 (Write [7; 8; 9] 0) eq_refl (conj eq_refl eq_refl))|].
  eapply rtc_l; [eapply (step_write_done _ 2 [7; 8; 9] 0 wrote3 _ 3); [apply lookup_insert_eq|reflexivity]|].
  eapply rtc_l; [eapply (step_call _ 1 0 (Read 2)); reflexivity|].
  eapply rtc_l; [eapply (step_read_done _ 1 2 (pop (pop wrote3)) _ 2 [7; 8]); [apply lookup_insert_eq|reflexivity]|].
  vm_compute. reflexivity.
Qed.

Lemma pipe_fifo_witness : [7; 8; 9] = [7; 8] ++ contents (the_pipe read2).
Proof. exact (proj1 (pipe_fifo read2 read2_reachable)). Defined.

Lemma pipe_no_lost_wakeup_witness :
  waits (newpipe ∅) (Sleeping NREAD (Read 1)).
Proof. exact (pipe_no_lost_wakeup _ two_asleep eq_refl 1 _ eq_refl). Defined.
