(* ===== verification/File.v ===== *)
(** * Open files: [file.c], and [pipealloc] of [pipe.c]

    The table of open files with its reference counts, and reading and writing
    through it. *)

From stdpp Require Import base tactics numbers gmap strings list sets.
From Stdlib Require Import ZArith Lia.
From S2P Require Import Prelude Mmu Memory Spinlock Kalloc Sleeplock Cache Log Store Fs Pipe.

Inductive ftype := FD_NONE | FD_PIPE | FD_INODE.

#[global] Instance ftype_eq_dec : EqDecision ftype.
Proof. solve_decision. Defined.

(** [struct file]; the pointers are the address of the pipe's page and the index
    of the inode in the cache. *)
Record file := mkfile {
  f_type : ftype;
  f_ref : Z;
  f_readable : bool;
  f_writable : bool;
  f_pipe : Z;
  f_ip : Z;
  f_off : Z
}.

#[global] Instance czero_file : CZero file := mkfile FD_NONE 0 false false 0 0 0.

Definition with_fref (r : Z) (f : file) : file :=
  mkfile (f_type f) r (f_readable f) (f_writable f) (f_pipe f) (f_ip f) (f_off f).
Definition with_ftype (t : ftype) (f : file) : file :=
  mkfile t (f_ref f) (f_readable f) (f_writable f) (f_pipe f) (f_ip f) (f_off f).
Definition with_off (o : Z) (f : file) : file :=
  mkfile (f_type f) (f_ref f) (f_readable f) (f_writable f) (f_pipe f) (f_ip f) o.

Section Ops.
Context {L : Layout} {S : Type} `{TxStore S}.

(** [ftable], the pipes by the address of their page, the allocator, the file
    system, and whether the running process has been killed. *)
Record flst := mkfl {
  ft_lock : bool;
  ftab : arr file;
  pipes : gmap Z pipe;
  pages : kst;
  fsys : fsst S;
  me_killed : bool
}.

Definition set_ft_lock (b : bool) (s : flst) : flst :=
  mkfl b (ftab s) (pipes s) (pages s) (fsys s) (me_killed s).
Definition set_ftab (a : arr file) (s : flst) : flst :=
  mkfl (ft_lock s) a (pipes s) (pages s) (fsys s) (me_killed s).
Definition set_pipes (a : gmap Z pipe) (s : flst) : flst :=
  mkfl (ft_lock s) (ftab s) a (pages s) (fsys s) (me_killed s).
Definition pages_lens : lens flst kst :=
  mklens pages (fun k s => mkfl (ft_lock s) (ftab s) (pipes s) k (fsys s) (me_killed s)).
Definition fsys_lens : lens flst (fsst S) :=
  mklens fsys (fun d s => mkfl (ft_lock s) (ftab s) (pipes s) (pages s) d (me_killed s)).

Definition ft_acquire : M flst unit := Lock.acquire ft_lock set_ft_lock.
Definition ft_release : M flst unit := Lock.release ft_lock set_ft_lock.

Definition get_file (f : Z) : M flst file := aget NFILE ftab f.
Definition put_file (f : Z) (x : file) : M flst unit :=
  aset NFILE (fun g s => set_ftab (g (ftab s)) s) f x.
Definition upd_file (f : Z) (g : file -> file) : M flst unit :=
  let* x := get_file f in put_file f (g x).

Definition fileinit : M flst unit := modify (set_ft_lock false).

Definition filealloc : M flst (option Z) :=
  ft_acquire ;;;
  let* r := for_exit 0 NFILE (fun f =>
              let* x := get_file f in
              if f_ref x =? 0 then
                put_file f (with_fref 1 x) ;;;
                ft_release ;;;
                ret (Some f)
              else ret None) in
  match r with
  | Some f => ret (Some f)
  | None => ft_release ;;; ret None
  end.

Definition filedup (f : Z) : M flst Z :=
  ft_acquire ;;;
  let* x := get_file f in
  if f_ref x <? 1 then panic "filedup" else
  put_file f (with_fref (f_ref x + 1) x) ;;;
  ft_release ;;;
  ret f.

(** ** Pipes *)

(** A pipe's page that is not there is an access to freed memory. *)
Definition get_pipe (a : Z) : M flst pipe := fun s =>
  match pipes s !! a with Some p => Ret p s | None => Undef end.
Definition put_pipe (a : Z) (p : pipe) : M flst unit := modify (fun s => set_pipes (<[a := p]> (pipes s)) s).
Definition del_pipe (a : Z) : M flst unit := modify (fun s => set_pipes (delete a (pipes s)) s).

(** The operations on a pipe, for a process that runs alone: one that has to
    sleep does not return. *)
Definition do_pipeclose (a : Z) (writable : bool) : M flst unit :=
  let* p := get_pipe a in
  let '(p', _, free) := pipeclose writable p in
  if free : bool then del_pipe a ;;; zoom pages_lens (kfree a)
  else put_pipe a p'.

Definition do_piperead (a n : Z) : M flst (Z * list Z) :=
  let* p := get_pipe a in
  let* k := gets me_killed in
  match piperead k (Z.to_nat n) p with
  | (p', _, RRet r l) => put_pipe a p' ;;; ret (r, l)
  | (_, _, RSleep) => fun _ => NoFuel
  end.

Definition do_pipewrite (a : Z) (src : list Z) : M flst Z :=
  let* p := get_pipe a in
  let* k := gets me_killed in
  match pipewrite k (Z.of_nat (length src)) src 0 p with
  | (p', _, WRet r) => put_pipe a p' ;;; ret r
  | (_, _, WSleep _) => fun _ => NoFuel
  end.

Definition fileclose (f : Z) : M flst unit :=
  ft_acquire ;;;
  let* x := get_file f in
  if f_ref x <? 1 then panic "fileclose" else
  put_file f (with_fref (f_ref x - 1) x) ;;;
  if 0 <? f_ref x - 1 then ft_release else
  let* ff := get_file f in
  upd_file f (with_fref 0) ;;;
  upd_file f (with_ftype FD_NONE) ;;;
  ft_release ;;;
  match f_type ff with
  | FD_PIPE => do_pipeclose (f_pipe ff) (f_writable ff)
  | FD_INODE =>
      zoom fsys_lens begin_op ;;;
      zoom fsys_lens (iput (f_ip ff)) ;;;
      zoom fsys_lens end_op
  | FD_NONE => ret tt
  end.

(** The bytes of the page [kalloc] gave to a pipe. *)
Definition page_bytes (m : memory) (a : Z) : arr Z :=
  list_to_map ((fun k => (k, load8 m (a + k))) <$> seqZ 0 PIPESIZE).

(** [pipealloc]: the two files, or nothing. *)
Definition pipealloc : M flst (option (Z * Z)) :=
  let bad (f0 f1 : option Z) : M flst (option (Z * Z)) :=
    match f0 with Some f => fileclose f | None => ret tt end ;;;
    match f1 with Some f => fileclose f | None => ret tt end ;;;
    ret None in
  let* f0 := filealloc in
  match f0 with
  | None => bad None None
  | Some a =>
      let* f1 := filealloc in
      match f1 with
      | None => bad f0 None
      | Some b =>
          let* p := zoom pages_lens kalloc in
          if p =? 0 then bad f0 f1 else
          let* m := gets (fun s => mem (pages s)) in
          put_pipe p (newpipe (page_bytes m p)) ;;;
          upd_file a (fun x => mkfile FD_PIPE (f_ref x) true false p (f_ip x) (f_off x)) ;;;
          upd_file b (fun x => mkfile FD_PIPE (f_ref x) false true p (f_ip x) (f_off x)) ;;;
          ret (Some (a, b))
      end
  end.

(** ** Reading and writing *)

Definition filestat (f : Z) : M flst (option stat) :=
  let* x := get_file f in
  match f_type x with
  | FD_INODE =>
      zoom fsys_lens (ilock (f_ip x)) ;;;
      let* st := zoom fsys_lens (stati (f_ip x)) in
      zoom fsys_lens (iunlock (f_ip x)) ;;;
      ret (Some st)
  | _ => ret None
  end.

Context (devread : Z -> option (Z -> Z -> M (fsst S) (Z * list Z))).
Context (devwrite : Z -> option (Z -> list Z -> M (fsst S) Z)).

Definition fileread (f n : Z) : M flst (Z * list Z) :=
  let* x := get_file f in
  if negb (f_readable x) then ret (-1, []) else
  match f_type x with
  | FD_PIPE => do_piperead (f_pipe x) n
  | FD_INODE =>
      zoom fsys_lens (ilock (f_ip x)) ;;;
      let* r := zoom fsys_lens (readi devread (f_ip x) (f_off x) n) in
      when (0 <? r.1) (upd_file f (fun x => with_off (u32 (f_off x + r.1)) x)) ;;;
      zoom fsys_lens (iunlock (f_ip x)) ;;;
      ret r
  | FD_NONE => panic "fileread"
  end.

(** The bytes [filewrite] writes in one transaction. *)
Definition wmax : Z := (MAXOPBLOCKS - 1 - 1 - 2) / 2 * 512.

Definition filewrite_step (f : Z) (src : list Z) (i : Z) : M flst Z :=
  let n1 := Z.min (Z.of_nat (length src) - i) wmax in
  zoom fsys_lens begin_op ;;;
  let* x := get_file f in
  zoom fsys_lens (ilock (f_ip x)) ;;;
  let* r := zoom fsys_lens (writei devwrite (f_ip x) (take (Z.to_nat n1) (drop (Z.to_nat i) src)) (f_off x)) in
  when (0 <? r) (upd_file f (fun x => with_off (u32 (f_off x + r)) x)) ;;;
  zoom fsys_lens (iunlock (f_ip x)) ;;;
  zoom fsys_lens end_op ;;;
  ret r.

Definition filewrite (f : Z) (src : list Z) : M flst Z :=
  let n := Z.of_nat (length src) in
  let* x := get_file f in
  if negb (f_writable x) then ret (-1) else
  match f_type x with
  | FD_PIPE => do_pipewrite (f_pipe x) src
  | FD_INODE =>
      let* i := iter (Datatypes.S (length src)) (fun i =>
                  if negb (i <? n) then ret (inr i) else
                  let* r := filewrite_step f src i in
                  if r <? 0 then ret (inr i) else
                  if negb (r =? Z.min (n - i) wmax) then panic "short filewrite" else
                  ret (inl (i + r))) 0 in
      ret (if i =? n then n else -1)
  | FD_NONE => panic "filewrite"
  end.

End Ops.

Arguments flst : clear implicits.
