(* ===== verification/FileTheorems.v ===== *)
(** * Open files: theorems

    Writing and reading through the table of open files, every transaction
    within the log, and the life of a pipe. *)

From stdpp Require Import base tactics numbers gmap strings list sets.
From Stdlib Require Import ZArith Lia.
From S2P Require Import Prelude Mmu Memory Spinlock Kalloc Sample Sleeplock Cache Bio BioFacts Log LogFacts LogTheorems Store Fs FsFacts FsFile FsBmap FsInode FsRw FsDir FsTheorems Pipe File.

(** ** A file between transactions *)

Section Idle.
Context {S : Type} `{TxStore S}.
Implicit Types (s : fsst S) (T : store) (d : S) (x : inode) (cur : Z -> memory).

Record file_idle s cur (lo hi ip : Z) x : Prop := {
  fd_ip : 0 <= ip < NINODE;
  fd_x : (inodes s).[ip] = x;
  fd_dev : i_dev x = 1;
  fd_inum : inum_ok (sb s) (i_inum x);
  fd_type : i_type x <> T_DEV;
  fd_size : 0 <= i_size x <= MAXFILE * BSIZE;
  fd_ref : 0 < i_ref x;
  fd_valid : i_valid x = true;
  fd_unlocked : i_lock x = mksl false 0;
  fd_disk : t_idle (disk s) cur lo hi;
  fd_geo : fs_geo (sb s) lo hi;
  fd_ok : file_ok (sb s) cur x;
  fd_bits : meta_used (sb s) cur;
  fd_dense : dense cur x
}.

(** The lock does not matter for the content. *)
Lemma ok_lock sb cur x l : file_ok sb cur x -> file_ok sb cur (with_ilock l x).
Proof. intros []. by split. Qed.

Lemma wp_ilock_valid s ip x (Q : unit -> fsst S -> Prop) : 0 <= ip < NINODE -> (inodes s).[ip] = x ->
  0 < i_ref x -> sl_locked (i_lock x) = false -> i_valid x = true ->
  Q tt (fs_set ip (locked_by s x) (disk s) s) -> wp (ilock ip) Q s.
Proof.
  intros Hip Hx Hr Hl Hv HQ. apply wp_bind, wp_get_inode; [done|]. rewrite Hx.
  destruct (Z.ltb_spec (i_ref x) 1); [lia|]. apply wp_bind, (wp_acquiresleep s ip x); [done..|].
  apply wp_bind, wp_get_inode; [done|]. cbn [inodes fs_set]. rewrite asel_insert_eq.
  cbn [i_valid locked_by with_ilock]. rewrite Hv. by apply wp_ret.
Qed.

Lemma wp_iunlock s ip x (Q : unit -> fsst S -> Prop) : 0 <= ip < NINODE -> (inodes s).[ip] = x ->
  0 < i_ref x -> i_lock x = mksl true (mypid s) ->
  Q tt (fs_set ip (with_ilock (mksl false 0) x) (disk s) s) -> wp (iunlock ip) Q s.
Proof.
  intros Hip Hx Hr Hl HQ. apply wp_bind, wp_get_inode; [done|]. apply wp_bind, wp_gets. rewrite Hx, Hl.
  unfold Sleep.holdingsleep. cbn [sl_locked sl_pid]. rewrite Z.eqb_refl. cbn [andb negb orb].
  destruct (Z.ltb_spec (i_ref x) 1); [lia|]. apply wp_upd_inode; [done|]. by rewrite Hx.
Qed.

(** What a write of [l] at [off] does to a file between transactions. *)
Record idle_wrote sb cur x (off : Z) (l : list Z) cur' x' : Prop := {
  iw_size' : i_size x' = Z.max (i_size x) (off + Z.of_nat (length l));
  iw_bytes : forall o, 0 <= o < MAXFILE * BSIZE -> fbyte cur' x' o = default (fbyte cur x o) (patch off l o);
  iw_other : forall n, foreign sb cur x n -> cur' n = cur n /\ foreign sb cur' x' n
}.

Lemma idle_wrote_trans sb cur x off l1 cur1 x1 l2 cur2 x2 :
  idle_wrote sb cur x off l1 cur1 x1 -> idle_wrote sb cur1 x1 (off + Z.of_nat (length l1)) l2 cur2 x2 ->
  idle_wrote sb cur x off (l1 ++ l2) cur2 x2.
Proof.
  intros [S1 B1 O1] [S2 B2 O2]. split.
  - rewrite S2, S1, length_app. lia.
  - intros o Ho. rewrite B2, B1, <- patch_app by done.
    by destruct (patch (off + Z.of_nat (length l1)) l2 o), (patch off l1 o).
  - intros n Hn. destruct (O1 n Hn) as [E1 H1], (O2 n (proj2 (O1 n Hn))) as [E2 H2]. split; [congruence|done].
Qed.

Lemma bitmaps_size sb : 0 <= sb_size sb -> Z.of_nat (size (bitmaps sb)) = bmap_blocks sb.
Proof.
  intros Hs. unfold bitmaps. rewrite size_list_to_set by apply NoDup_seqZ. rewrite length_seqZ.
  unfold bmap_blocks. assert (0 <= sb_size sb / BPB) by (apply Z.div_pos; [done|done]). lia.
Qed.

(** The log has room for the blocks of one transaction of [filewrite]. *)
Lemma chunk_fits sb x off n : 0 <= sb_size sb < 4 * BPB -> 0 <= off -> 0 <= n <= wmax ->
  spent sb ∅ x + nblocks off (off + n) + 1 <= MAXOPBLOCKS /\ nblocks off (off + n) <= 4.
Proof.
  intros Hs Ho Hn. assert (nblocks off (off + n) <= 4) as Hb.
  { unfold nblocks. case_decide; [|done]. assert (BSIZE = 512) as -> by done. change wmax with 1536 in Hn.
    Z.to_euclidean_division_equations. lia. }
  split; [|done]. change MAXOPBLOCKS with 10.
  assert (spent sb ∅ x <= bmap_blocks sb + 1) as Hsp.
  { rewrite <- bitmaps_size by lia. unfold spent, ind_set, ind_need. destruct (ind_addr x =? 0).
    - replace (∅ ∪ bitmaps sb ∪ ∅) with (bitmaps sb) by set_solver. lia.
    - pose proof (size_add (bitmaps sb) (ind_addr x)).
      replace (∅ ∪ bitmaps sb ∪ {[ind_addr x]}) with (bitmaps sb ∪ {[ind_addr x]}) by set_solver. lia. }
  assert (sb_size sb / BPB < 4) by (apply Z.div_lt_upper_bound; [done|lia]). unfold bmap_blocks in *. lia.
Qed.

End Idle.

(** ** Writing *)

Section Write.
Context {L : Layout} {S : Type} `{TxStore S}.
Context (devwrite : Z -> option (Z -> list Z -> M (fsst S) Z)).
Implicit Types (x : inode) (cur : Z -> memory).

(** An open file of an inode between transactions. *)
Record open_file (s : flst S) cur (lo hi f : Z) x : Prop := {
  of_f : 0 <= f < NFILE;
  of_type : f_type (ftab s).[f] = FD_INODE;
  of_off : 0 <= f_off (ftab s).[f] <= i_size x;
  of_idle : file_idle (fsys s) cur lo hi (f_ip (ftab s).[f]) x
}.

(** Only the offset of [f], its inode and the disk differ. *)
Record wrote_through (s : flst S) (f ip : Z) (s' : flst S) : Prop := {
  wt_file : (ftab s').[f] = with_off (f_off (ftab s').[f]) (ftab s).[f];
  wt_files : forall g, g <> f -> (ftab s').[g] = (ftab s).[g];
  wt_pipes : pipes s' = pipes s;
  wt_pages : pages s' = pages s;
  wt_inodes : forall j, j <> ip -> (inodes (fsys s')).[j] = (inodes (fsys s)).[j];
  wt_sb : sb (fsys s') = sb (fsys s)
}.

Lemma wp_filewrite_step (s : flst S) cur lo hi f x src i (Q : Z -> flst S -> Prop) : open_file s cur lo hi f x ->
  let off := f_off (ftab s).[f] in
  let n1 := Z.min (Z.of_nat (length src) - i) wmax in
  0 <= i < Z.of_nat (length src) -> off + n1 <= MAXFILE * BSIZE ->
  sb_size (sb (fsys s)) < 4 * BPB -> ind_need x + 4 <= nfree (sb (fsys s)) cur ->
  (forall s' cur' x', open_file s' cur' lo hi f x' -> f_off (ftab s').[f] = off + n1 ->
    idle_wrote (sb (fsys s)) cur x off (take (Z.to_nat n1) (drop (Z.to_nat i) src)) cur' x' ->
    nfree (sb (fsys s)) cur - ind_need x - 4 <= nfree (sb (fsys s)) cur' - ind_need x' ->
    wrote_through s f (f_ip (ftab s).[f]) s' -> Q n1 s') ->
  wp (filewrite_step devwrite f src i) Q s.
Proof.
  intros [Hf Hty Hoff Hid] off n1 Hi Hmax Hsz Hn HQ. pose proof Hid as [Hip Hx Hdev Hin Hnt Hs Href Hv Hul Hd Hg Hok Hb Hdn].
  set (ip := f_ip (ftab s).[f]) in *. change wmax with 1536 in *. assert (0 < n1 <= 1536) as Hn1 by lia.
  apply wp_bind, wp_zoom, wp_zoom. eapply wp_mono; [|by apply t_begin_ok]. intros u d R. cbn beta in R.
  apply wp_bind, wp_aget; [done|]. cbn [ftab lset fsys_lens]. fold ip.
  apply wp_bind, wp_zoom. cbn [lget lset fsys_lens fsys].
  apply (wp_ilock_valid _ ip x); [done|done|done|by rewrite Hul|done|].
  set (T := mkstore cur ∅ ∅ MAXOPBLOCKS lo hi) in *. set (x1 := with_ilock (mksl true (mypid (fsys s))) x).
  match goal with |- context [fs_set ip ?x' ?d' ?s'] => set (s1 := fs_set ip x' d' s') end.
  assert (file_in s1 T ip x1) as Hf1.
  { split; try done; [cbn; by rewrite asel_insert_eq|by apply ok_lock]. }
  set (l := take (Z.to_nat n1) (drop (Z.to_nat i) src)).
  assert (Z.of_nat (length l) = n1) as El. { unfold l. rewrite length_take, length_drop. lia. }
  assert (0 <= sb_size (sb (fsys s))) as Hsz0.
  { destruct (data_start_lo _ _ _ Hg). pose proof (fg_data _ _ _ Hg). lia. }
  destruct (chunk_fits (sb (fsys s)) x off n1 ltac:(lia) ltac:(lia) ltac:(change wmax with 1536; lia)) as [Hfit Hnb].
  apply wp_bind, wp_zoom. cbn [lget lset fsys_lens fsys ftab]. change wmax with 1536. fold n1 l off.
  apply (wp_writei devwrite s1 T ip x1); rewrite ?El; [done|done|done|done|apply Hs|done|done|exact Hfit| |].
  { change (ind_need x + nblocks off (off + n1) <= nfree (sb (fsys s)) cur). lia. }
  intros T2 x2 s2 W R2 A2. pose proof (written_in _ _ _ _ _ _ _ _ _ Hf1 W R2 A2) as Hf2.
  pose proof W as [X1 O1 M1 D1 B1 F1 G1 I1 S1 N1 H1 (C1 & C2 & C3)]. rewrite El in *.
  destruct (Z.ltb_spec 0 n1); [|lia]. cbn [when]. apply wp_bind, wp_bind, wp_aget; [done|]. apply wp_aset; [done|].
  apply wp_bind, wp_zoom. cbn [lget lset fsys_lens fsys ftab set_ftab].
  apply (wp_iunlock s2 ip x2); [done|apply Hf2|by rewrite X1|by rewrite X1, (at_pid _ _ _ _ A2)|].
  apply wp_bind, wp_zoom, wp_zoom. cbn [lget lset fsys_lens fsys disk_lens disk fs_set].
  eapply wp_mono; [|apply (t_end_ok _ T2); [done|done|by rewrite C1]]. intros u' d' R'. cbn beta in R'. rewrite C2, C3 in R'. apply wp_ret.
  cbn [lset fsys_lens ftab pipes pages ft_lock me_killed set_ftab].
  assert (0 <= off + n1 < 4294967296) as Hw by (assert (MAXFILE * BSIZE = 71680) by done; lia).
  destruct A2 as [A1 A2 A3 A4 A5].
  apply (HQ _ (st_cur T2) (with_ilock (mksl false 0) x2)).
  - split; cbn [ftab fsys]; rewrite ?asel_insert_eq; try done.
    + cbn. fold off. rewrite u32_small by done. rewrite X1. cbn. lia.
    + cbn [f_ip with_off]. fold ip. split; cbn; try done; try (by rewrite X1).
      * by rewrite asel_insert_eq.
      * rewrite A1, X1. done.
      * rewrite X1. cbn. lia.
      * by rewrite A1.
      * apply ok_lock. by rewrite A1.
      * by rewrite A1.
  - cbn [ftab]. rewrite asel_insert_eq. cbn. fold off. by rewrite u32_small.
  - split; [|exact B1|exact F1]. fold l. rewrite El. by rewrite X1.
  - etrans; [|exact N1]. change (nfree (sb (fsys s)) cur - ind_need x - 4 <=
      nfree (sb (fsys s)) cur - ind_need x - nblocks off (off + n1)). lia.
  - split; cbn; rewrite ?asel_insert_eq; try done.
    + intros g Hg'. by rewrite asel_insert_ne.
    + intros j Hj. rewrite asel_insert_ne by done. rewrite A5, decide_False by done.
      cbn. by rewrite asel_insert_ne.
Qed.

(** The transactions [filewrite] needs for [n] bytes. *)
Definition chunks (n : Z) : Z := (n + wmax - 1) / wmax.

Lemma chunks_step n i : 0 <= i < n -> chunks (n - i) = chunks (n - i - Z.min (n - i) wmax) + 1.
Proof. intros Hi. unfold chunks. change wmax with 1536. Z.to_euclidean_division_equations. lia. Qed.

Lemma chunks_nonneg n : 0 <= n -> 0 <= chunks n.
Proof. intros Hn. unfold chunks. change wmax with 1536. Z.to_euclidean_division_equations. lia. Qed.

Lemma wrote_through_trans s f ip s1 s2 : wrote_through s f ip s1 -> wrote_through s1 f ip s2 -> wrote_through s f ip s2.
Proof.
  intros [A1 A2 A3 A4 A5 A6] [B1 B2 B3 B4 B5 B6]. split; try congruence.
  - rewrite B1, A1. done.
  - intros g Hg. by rewrite B2, A2.
  - intros j Hj. by rewrite B5, A5.
Qed.

Lemma wp_filewrite_inode (s : flst S) cur lo hi f x src (Q : Z -> flst S -> Prop) : open_file s cur lo hi f x ->
  let off := f_off (ftab s).[f] in
  let n := Z.of_nat (length src) in
  f_writable (ftab s).[f] = true -> off + n <= MAXFILE * BSIZE ->
  sb_size (sb (fsys s)) < 4 * BPB -> ind_need x + 4 * chunks n <= nfree (sb (fsys s)) cur ->
  (forall s' cur' x', open_file s' cur' lo hi f x' -> f_off (ftab s').[f] = off + n ->
    idle_wrote (sb (fsys s)) cur x off src cur' x' -> wrote_through s f (f_ip (ftab s).[f]) s' -> Q n s') ->
  wp (filewrite devwrite f src) Q s.
Proof.
  intros Ho off n Hw Hmax Hsz Hfree HQ. pose proof Ho as [Hf Hty Hoff Hid]. fold off in Hoff.
  unfold filewrite. fold n. apply wp_bind, wp_aget; [done|]. rewrite Hw, Hty. cbn [negb]. apply wp_bind.
  eapply (wp_iter (fun i s' => 0 <= i <= n /\ exists cur' x', open_file s' cur' lo hi f x' /\
    f_off (ftab s').[f] = off + i /\ idle_wrote (sb (fsys s)) cur x off (take (Z.to_nat i) src) cur' x' /\
    wrote_through s f (f_ip (ftab s).[f]) s' /\ ind_need x' + 4 * chunks (n - i) <= nfree (sb (fsys s)) cur')
    (fun i => Z.to_nat (n - i))).
  2:{ split; [lia|]. exists cur, x. split; [done|]. split; [lia|]. change (take (Z.to_nat 0) src) with (@nil Z). rewrite Z.sub_0_r.
      split; [|split; [|done]].
      - split; [cbn; lia| |done]. intros o Hr. rewrite patch_none; [done|]. cbn. lia.
      - split; try done. by destruct ((ftab s).[f]). }
  2:{ lia. }
  intros i s' (Hi & cur' & x' & Ho' & Eoff & Hiw & Hwt & Hfr). destruct (Z.ltb_spec i n) as [Hlt|]; cbn [negb].
  2:{ apply wp_ret, wp_ret. replace i with n in * by lia. rewrite Z.eqb_refl. rewrite firstn_all2 in Hiw by lia.
      by apply (HQ s' cur' x'). }
  pose proof (wt_sb _ _ _ _ Hwt) as Esb. pose proof (chunks_step n i ltac:(lia)) as Hch.
  set (n1 := Z.min (n - i) wmax) in *. assert (0 < n1 <= n - i) as Hn1 by (change wmax with 1536 in *; lia).
  pose proof (chunks_nonneg (n - i - n1) ltac:(lia)).
  apply wp_bind. apply (wp_filewrite_step s' cur' lo hi f x'); rewrite ?Eoff, ?Esb; fold n n1; [done|lia|lia|done|lia|].
  intros s2 cur2 x2 Ho2 Eoff2 Hiw2 Hfr2 Hwt2. destruct (Z.ltb_spec n1 0); [lia|]. rewrite Z.eqb_refl. cbn [negb].
  apply wp_ret. split; [|lia]. split; [lia|]. exists cur2, x2. split; [done|]. split; [lia|].
  assert (f_ip (ftab s').[f] = f_ip (ftab s).[f]) as Eip by (by rewrite (wt_file _ _ _ _ Hwt)).
  split; [|split; [rewrite Eip in Hwt2; by eapply wrote_through_trans|]].
  - replace (take (Z.to_nat (i + n1)) src) with (take (Z.to_nat i) src ++ take (Z.to_nat n1) (drop (Z.to_nat i) src)).
    2:{ rewrite Z2Nat.inj_add by lia. by rewrite take_take_drop. }
    eapply idle_wrote_trans; [exact Hiw|]. rewrite length_take, Nat.min_l, Z2Nat.id by lia. exact Hiw2.
  - replace (n - (i + n1)) with (n - i - n1) by lia. lia.
Qed.

End Write.

Section Read.
Context {L : Layout} {S : Type} `{TxStore S}.
Context (devread : Z -> option (Z -> Z -> M (fsst S) (Z * list Z))).
Implicit Types (x : inode).

(** [fileread] of an inode returns the bytes at the offset and moves it. *)
Lemma wp_fileread_inode (s : flst S) T g x n (Q : Z * list Z -> flst S -> Prop) : 0 <= g < NFILE ->
  f_type (ftab s).[g] = FD_INODE -> f_readable (ftab s).[g] = true ->
  let ip := f_ip (ftab s).[g] in
  let off := f_off (ftab s).[g] in
  file_in (fsys s) T ip x -> dense (st_cur T) x -> i_type x <> T_DEV -> i_size x <= MAXFILE * BSIZE ->
  0 < i_ref x -> i_valid x = true -> sl_locked (i_lock x) = false ->
  0 <= off <= i_size x -> 0 <= n < 2147483648 ->
  (forall s', let m := Z.min n (i_size x - off) in f_off (ftab s').[g] = off + m ->
    Q (m, content (st_cur T) x off m) s') ->
  wp (fileread devread g n) Q s.
Proof.
  intros Hg Hty Hr ip off Hf Hd Hnd Hsz Href Hv Hl Hoff Hn HQ. pose proof Hf as [Hip Hx Hdev Hrep Hh Hgeo Hc Hok Hm].
  assert (MAXFILE * BSIZE = 71680) by done.
  apply wp_bind, wp_aget; [done|]. rewrite Hr, Hty. cbn [negb]. fold ip off.
  apply wp_bind, wp_zoom. apply (wp_ilock_valid _ ip x); [done..|].
  set (s1 := fs_set _ _ _ _). set (x1 := locked_by (fsys s) x).
  assert (file_in s1 T ip x1) as Hf1. { split; try done; [cbn; by rewrite asel_insert_eq|by apply ok_lock]. }
  apply wp_bind, wp_zoom. cbn [lget lset fsys_lens fsys ftab].
  apply (wp_readi devread s1 T ip x1); [done|done|done|done|done|done|]. intros d R m. cbn [fst snd].
  assert (0 <= m) by (change (i_size x1) with (i_size x) in m; lia).
  apply wp_bind. destruct (Z.ltb_spec 0 m) as [Hpos|Hz]; cbn [when].
  - apply wp_bind, wp_aget; [done|]. apply wp_aset; [done|]. apply wp_bind, wp_zoom. cbn [lget lset fsys_lens fsys ftab set_ftab].
    apply (wp_iunlock _ ip x1); [done|cbn; by rewrite asel_insert_eq|done|done|]. apply wp_ret. apply HQ.
    cbn. rewrite asel_insert_eq. cbn. fold off. rewrite u32_small; [done|]. subst m. change (i_size x1) with (i_size x). lia.
  - apply wp_ret. apply wp_bind, wp_zoom. cbn [lget lset fsys_lens fsys ftab].
    apply (wp_iunlock _ ip x1); [done|cbn; by rewrite asel_insert_eq|done|done|]. apply wp_ret. apply HQ.
    cbn. fold off. change (off = off + m). lia.
Qed.

End Read.

Section Correct.
Context {L : Layout} {S : Type} `{TxStore S}.

(** C28: [filewrite] writes any number of bytes that the file can hold: it
    splits them into transactions that each fit in the log, returns their
    number, advances the offset, and changes no block of another file and no
    other open file; a [fileread] through another open file at the old offset
    then returns exactly those bytes. *)
Theorem filewrite_fileread devread devwrite (s : flst S) cur lo hi f g x src : open_file s cur lo hi f x ->
  let off := f_off (ftab s).[f] in
  let n := Z.of_nat (length src) in
  f_writable (ftab s).[f] = true -> off + n <= MAXFILE * BSIZE ->
  sb_size (sb (fsys s)) < 4 * BPB -> ind_need x + 4 * chunks n <= nfree (sb (fsys s)) cur ->
  g <> f -> 0 <= g < NFILE -> f_type (ftab s).[g] = FD_INODE -> f_readable (ftab s).[g] = true ->
  f_ip (ftab s).[g] = f_ip (ftab s).[f] -> f_off (ftab s).[g] = off ->
  wp (filewrite devwrite f src) (fun r s1 => r = n /\ f_off (ftab s1).[f] = off + n /\
    (forall h, h <> f -> (ftab s1).[h] = (ftab s).[h]) /\
    (exists cur1, t_idle (disk (fsys s1)) cur1 lo hi /\ forall b, foreign (sb (fsys s)) cur x b -> cur1 b = cur b) /\
    wp (fileread devread g n) (fun q s2 => q = (n, u8 <$> src) /\ f_off (ftab s2).[g] = off + n) s1) s.
Proof.
  intros Ho off n Hw Hmax Hsz Hfree Hne Hg Hgt Hgr Hgi Hgo. assert (MAXFILE * BSIZE = 71680) by done.
  pose proof (of_off _ _ _ _ _ _ Ho) as Hoff. fold off in Hoff.
  apply (wp_filewrite_inode devwrite s cur lo hi f x); [done..|]. intros s1 cur1 x1 Ho1 Eoff W Hwt.
  pose proof Ho1 as [_ _ _ [Hip Hx Hdev Hin Hnt Hs Href Hv Hul Hd Hgeo Hok Hb Hdn]].
  pose proof W as [Esz Hby Hot]. pose proof (wt_files _ _ _ _ Hwt g Hne) as Eg.
  assert (f_ip (ftab s1).[f] = f_ip (ftab s).[f]) as Eip by (by rewrite (wt_file _ _ _ _ Hwt)).
  rewrite Eip in *. split; [done|]. split; [done|]. split; [apply (wt_files _ _ _ _ Hwt)|].
  split; [exists cur1; split; [done|]; intros b Hfb; by apply Hot|].
  apply (wp_fileread_inode devread s1 (mkstore cur1 ∅ ∅ 0 lo hi) g x1 n); rewrite ?Eg, ?Hgi, ?Hgo;
    [done|done|done| |done|done|apply Hs|done|done|by rewrite Hul|lia|lia|].
  - split; try done. by apply t_open_ok.
  - intros s2 m Eo. subst m. rewrite Z.min_l in * by lia. split; [|done]. f_equal.
    by apply (patch_content cur x); [lia|..].
Qed.

End Correct.

(** ** The table of open files *)

Section Table.
Context {L : Layout} {S : Type} `{TxStore S}.
Implicit Types (s : flst S).

(** An entry that is not in use has no type. *)
Definition ftable_ok (a : arr file) : Prop :=
  forall f, 0 <= f < NFILE -> 0 <= f_ref a.[f] /\ (f_ref a.[f] = 0 -> f_type a.[f] = FD_NONE).

Lemma wp_filealloc s (Q : option Z -> flst S -> Prop) : ft_lock s = false ->
  (forall f, 0 <= f < NFILE -> f_ref (ftab s).[f] = 0 ->
    Q (Some f) (set_ftab (<[f := with_fref 1 (ftab s).[f]]> (ftab s)) s)) ->
  ((forall f, 0 <= f < NFILE -> f_ref (ftab s).[f] <> 0) -> Q None s) ->
  wp filealloc Q s.
Proof.
  intros Hl H1 H2. apply wp_bind, Lock.wp_acquire; [done|]. apply wp_bind.
  assert (set_ft_lock false (set_ft_lock true s) = s) as Es by (destruct s; cbn in *; by subst).
  apply (wp_for_exit (fun f s' => s' = set_ft_lock true s /\ forall g, 0 <= g < f -> f_ref (ftab s).[g] <> 0)).
  - split; [done|]. intros g Hg. lia.
  - intros f s' Hf (-> & Hall). apply wp_bind, wp_aget; [done|]. cbn [ftab set_ft_lock].
    destruct (Z.eqb_spec (f_ref (ftab s).[f]) 0) as [E|E].
    + apply wp_bind, wp_aset; [done|]. apply wp_bind, Lock.wp_release; [done|]. apply wp_ret, wp_ret.
      specialize (H1 f Hf E). by destruct s; cbn in *; subst.
    + apply wp_ret. split; [done|]. intros g Hg. destruct (decide (g = f)) as [->|]; [done|]. apply Hall. lia.
  - intros s' (-> & Hall). apply wp_bind, Lock.wp_release; [done|]. rewrite Es. apply wp_ret, H2.
    intros f Hf. apply Hall. change (Z.max 0 NFILE) with NFILE. done.
Qed.

(** Closing the only reference to a file. *)
Definition closed (f : Z) (a : arr file) : arr file :=
  <[f := with_ftype FD_NONE (with_fref 0 a.[f])]> a.

Lemma wp_fileclose_last s f (Q : unit -> flst S -> Prop) : ft_lock s = false ->
  0 <= f < NFILE -> f_ref (ftab s).[f] = 1 -> 
  (forall a', (forall g, a'.[g] = (closed f (ftab s)).[g]) ->
    wp (match f_type (ftab s).[f] with
        | FD_PIPE => do_pipeclose (f_pipe (ftab s).[f]) (f_writable (ftab s).[f])
        | FD_INODE =>
            zoom fsys_lens begin_op ;;;
            zoom fsys_lens (iput (f_ip (ftab s).[f])) ;;;
            zoom fsys_lens end_op
        | FD_NONE => ret tt
        end) Q (set_ftab a' s)) ->
  wp (fileclose f) Q s.
Proof.
  intros Hl Hf Hr HQ. apply wp_bind, Lock.wp_acquire; [done|]. apply wp_bind, wp_aget; [done|].
  cbn [ftab set_ft_lock]. rewrite Hr. cbn [Z.ltb Z.compare Pos.compare Pos.compare_cont Z.sub Z.add Z.opp Z.pos_sub].
  apply wp_bind, wp_aset; [done|]. apply wp_bind, wp_aget; [done|]. cbn [ftab set_ftab set_ft_lock].
  rewrite asel_insert_eq. apply wp_bind, wp_bind, wp_aget; [done|]. apply wp_aset; [done|].
  apply wp_bind, wp_bind, wp_aget; [done|]. apply wp_aset; [done|].
  apply wp_bind, Lock.wp_release; [done|]. cbn [ftab set_ftab set_ft_lock]. rewrite !asel_insert_eq.
  cbn [f_type with_fref f_pipe f_writable f_ip]. destruct s as [l a pi pg fs k']. cbn in Hl. subst l.
  apply HQ. intros g. unfold closed. cbn. rewrite !asel_insert. by repeat case_decide.
Qed.

(** A program that opens a pipe and closes both ends. *)
Definition pipe_cycle : M (flst S) bool :=
  let* r := pipealloc in
  match r with
  | Some (a, b) => fileclose a ;;; fileclose b ;;; ret true
  | None => ret false
  end.

(** The state differs from [s] at most in the entries of the table that are not
    in use. *)
Record unleaked s (l : list Z) (s' : flst S) : Prop := {
  ul_refs : forall g, f_ref (ftab s').[g] = f_ref (ftab s).[g];
  ul_used : forall g, f_ref (ftab s).[g] <> 0 -> (ftab s').[g] = (ftab s).[g];
  ul_pipes : pipes s' = pipes s;
  ul_pages : kmem_inv (pages s') l;
  ul_fsys : fsys s' = fsys s
}.

(** The end of a failed [pipealloc] that had taken one entry. *)
Lemma wp_close_fresh s f (Q : unit -> flst S -> Prop) : ft_lock s = false -> 0 <= f < NFILE ->
  f_ref (ftab s).[f] = 1 -> f_type (ftab s).[f] = FD_NONE ->
  (forall a', (forall g, a'.[g] = (closed f (ftab s)).[g]) -> Q tt (set_ftab a' s)) ->
  wp (fileclose f) Q s.
Proof. intros Hl Hf Hr Ht HQ. apply wp_fileclose_last; [done..|]. rewrite Ht. intros a' Ha. apply wp_ret. auto. Qed.

(** The two ends of a new pipe, closed in turn. *)
Lemma wp_close_pipe s l f f2 p (Q : unit -> flst S -> Prop) : ft_lock s = false -> 0 <= f < NFILE -> 0 <= f2 < NFILE -> f <> f2 ->
  (ftab s).[f] = mkfile FD_PIPE 1 true false p (f_ip (ftab s).[f]) (f_off (ftab s).[f]) ->
  (ftab s).[f2] = mkfile FD_PIPE 1 false true p (f_ip (ftab s).[f2]) (f_off (ftab s).[f2]) ->
  (exists q, pipes s !! p = Some q /\ readopen q = true /\ writeopen q = true) ->
  page_ok p -> p ∉ l -> kmem_inv (pages s) l ->
  (forall s', (forall g, (ftab s').[g] = (closed f2 (closed f (ftab s))).[g]) -> pipes s' = delete p (pipes s) ->
    kmem_inv (pages s') (p :: l) -> fsys s' = fsys s -> Q tt s') ->
  wp (fileclose f ;;; fileclose f2) Q s.
Proof.
  intros Hl Hf Hf2 Hne E1 E2 (q & Hq & Hro & Hwo) Hp Hnin Hk HQ.
  apply wp_bind, wp_fileclose_last; [done|done|by rewrite E1|]. intros a1 Ha1. rewrite E1. cbn [f_type f_pipe f_writable].
  apply wp_bind. unfold get_pipe, wp at 1. cbn [pipes set_ftab]. rewrite Hq. cbn [pipeclose].
  rewrite Hwo. cbn [readopen writeopen negb andb]. apply wp_modify.
  assert (a1.[f2] = (ftab s).[f2]) as E3. { rewrite Ha1. unfold closed. by rewrite asel_insert_ne. }
  apply wp_fileclose_last; cbn [ftab set_ftab set_pipes ft_lock]; [done|done|by rewrite E3, E2|].
  intros a2 Ha2. rewrite E3, E2. cbn [f_type f_pipe f_writable]. apply wp_bind. unfold get_pipe, wp at 1.
  cbn [pipes set_ftab set_pipes]. rewrite lookup_insert_eq. cbn. apply wp_bind, wp_modify, wp_zoom.
  cbn [lget lset pages_lens pages set_pipes set_ftab].
  apply (wp_kfree p _ l); [done..|]. intros Hk'. apply HQ; cbn.
  - intros g. rewrite Ha2. unfold closed. rewrite !asel_insert, !Ha1. unfold closed. rewrite !asel_insert.
    repeat case_decide; congruence.
  - by rewrite delete_insert_eq.
  - done.
  - done.
Qed.

Lemma close_fresh_ul s l f a : ftable_ok (ftab s) -> 0 <= f < NFILE -> f_ref (ftab s).[f] = 0 -> kmem_inv (pages s) l ->
  (forall g, a.[g] = (closed f (<[f := with_fref 1 (ftab s).[f]]> (ftab s))).[g]) ->
  unleaked s l (set_ftab a s).
Proof.
  intros Hok Hf Hr Hk Ha. unfold closed in Ha.
  split; cbn; try done; intros g; rewrite Ha, !asel_insert; repeat case_decide; subst; done.
Qed.

Lemma closed_two_ul a f f2 (t t2 : file) (b : arr file) g : f <> f2 -> f_ref a.[f] = 0 -> f_ref a.[f2] = 0 ->
  (forall g, b.[g] = if decide (g = f) then t else if decide (g = f2) then t2 else a.[g]) ->
  f_ref (closed f2 (closed f b)).[g] = f_ref a.[g] /\ (f_ref a.[g] <> 0 -> (closed f2 (closed f b)).[g] = a.[g]).
Proof.
  intros Hne H1 H2 Hb. unfold closed. rewrite !asel_insert, !Hb. repeat case_decide; subst; done.
Qed.

(** Opening a pipe and closing both ends leaves nothing behind: the
    reference counts of the table, the entries in use, the pipes, the file
    system and the free pages are those of before, whether [pipealloc]
    succeeded or not; and it fails only when no page or fewer than two entries
    are free. *)
Theorem pipe_no_leak s l : ft_lock s = false -> ftable_ok (ftab s) -> kmem_inv (pages s) l ->
  (forall p, p ∈ l -> pipes s !! p = None) ->
  wp pipe_cycle (fun r s' => unleaked s l s' /\
    (r = false -> l = [] \/ exists g, forall f, 0 <= f < NFILE -> f_ref (ftab s).[f] = 0 -> f = g)) s.
Proof.
  intros Hl Hok Hk Hpn. unfold pipe_cycle. apply wp_bind. apply wp_bind, wp_filealloc; [done| |].
  2:{ intros Hall. apply wp_bind, wp_ret, wp_bind, wp_ret, wp_ret, wp_ret. split; [by split|].
      intros _. right. exists 0. intros f Hf E. by destruct (Hall f Hf). }
  intros f Hf E0. destruct (Hok f Hf) as [_ Ht0]. specialize (Ht0 E0).
  apply wp_bind, wp_filealloc; cbn [ft_lock ftab set_ftab]; [done| |].
  2:{ intros Hall. apply wp_bind, wp_close_fresh; cbn [ft_lock ftab set_ftab]; rewrite ?asel_insert_eq; [done..|].
      intros a' Ha. apply wp_bind, wp_ret, wp_ret, wp_ret. split; [exact (close_fresh_ul s l f a' Hok Hf E0 Hk Ha)|].
      intros _. right. exists f. intros g Hg Eg. destruct (decide (g = f)) as [|Hne]; [done|].
      destruct (Hall g Hg). by rewrite asel_insert_ne. }
  intros f2 Hf2 E2. assert (f <> f2) as Hne. { intros ->. by rewrite asel_insert_eq in E2. }
  rewrite asel_insert_ne in E2 by done. destruct (Hok f2 Hf2) as [_ Ht2]. specialize (Ht2 E2).
  rewrite asel_insert_ne by done. apply wp_bind, wp_zoom. cbn [lget lset pages_lens pages set_ftab].
  set (a2 := <[f2 := with_fref 1 (ftab s).[f2]]> (<[f := with_fref 1 (ftab s).[f]]> (ftab s))).
  assert (forall g, a2.[g] = if decide (g = f) then with_fref 1 (ftab s).[f]
    else if decide (g = f2) then with_fref 1 (ftab s).[f2] else (ftab s).[g]) as Ea2.
  { intros g. unfold a2. rewrite !asel_insert. repeat case_decide; congruence. }
  apply (wp_kalloc (pages s) l); [done|..].
  - intros El. cbn [Z.eqb]. apply wp_bind, wp_close_fresh; cbn [ft_lock ftab set_ftab]; rewrite ?Ea2, ?decide_True by done; [done..|].
    intros a3 Ha3. apply wp_bind.
    assert (a3.[f2] = with_fref 1 (ftab s).[f2]) as E3.
    { rewrite Ha3. unfold closed. rewrite asel_insert_ne, Ea2, decide_False, decide_True by done. done. }
    apply wp_close_fresh; cbn [ft_lock ftab set_ftab]; rewrite ?E3; [done..|]. intros a4 Ha4.
    apply wp_ret, wp_ret. split; [|by left].
    assert (forall g, a4.[g] = (closed f2 (closed f a2)).[g]) as E4.
    { intros g. rewrite Ha4. unfold closed. rewrite !asel_insert, !Ha3. unfold closed. by rewrite !asel_insert. }
    split; cbn; try done; intros g; rewrite E4; by eapply closed_two_ul.
  - intros p l' k' -> Hp Hnin Hk' _. destruct (Z.eqb_spec p 0) as [->|]; [by destruct (page_ok_range 0 Hp)|].
    apply wp_bind, wp_gets. apply wp_bind, wp_modify.
    apply wp_bind, wp_bind, wp_aget; [done|]. apply wp_aset; [done|].
    apply wp_bind, wp_bind, wp_aget; [done|]. apply wp_aset; [done|]. apply wp_ret.
    cbn [ftab set_ftab set_pipes pipes pages lset pages_lens mem].
    match goal with |- wp _ _ ?st => set (s5 := st) end.
    assert (forall g, (ftab s5).[g] = if decide (g = f) then mkfile FD_PIPE 1 true false p (f_ip (ftab s).[f]) (f_off (ftab s).[f])
      else if decide (g = f2) then mkfile FD_PIPE 1 false true p (f_ip (ftab s).[f2]) (f_off (ftab s).[f2]) else (ftab s).[g]) as E5.
    { intros g. cbn. rewrite !asel_insert, !Ea2. repeat case_decide; subst; try done. }
    eapply (wp_seq2 (fileclose f) (fileclose f2) _ (fun _ s' => wp (ret true) _ s')); [|by intros s' Hs'].
    apply (wp_close_pipe s5 l' f f2 p); rewrite ?E5, ?decide_True by done; try done.
    + rewrite decide_False, decide_True by done. done.
    + eexists. split; [apply lookup_insert_eq|done].
    + intros s6 F6 P6 K6 Y6. apply wp_ret. split; [|done].
      assert (pipes s !! p = None) as Hn0 by (apply Hpn; set_solver).
      split; [intros g|intros g|..].
      * rewrite F6. by eapply closed_two_ul.
      * rewrite F6. by eapply closed_two_ul.
      * rewrite P6. cbn. by rewrite delete_insert_id.
      * done.
      * by rewrite Y6.
Qed.

End Table.

(** ** A small system

    The file system of [FsTheorems.small_disk] between transactions; entry 0 of
    the inode cache is open for writing as file 0 and for reading as file 1. *)

Section SmallFiles.

#[local] Existing Instance sample_layout.

Definition small_unlocked : inode := mkinode 1 2 2 (mksl false 0) true T_FILE 0 0 1 0 ∅.

Definition small_files : flst (lst bst) :=
  mkfl false
    (<[0 := mkfile FD_INODE 1 false true 0 0 0]> (<[1 := mkfile FD_INODE 1 true false 0 0 0]> ∅))
    ∅ (machine free5)
    (mkfs small_sb false (<[0 := small_unlocked]> ∅) (demo_ready small_disk) 7 0) false.

Lemma small_file_idle : file_idle (fsys small_files) (asel small_disk) 32 100 0 small_unlocked.
Proof.
  assert (forall bn, blk (asel small_disk) small_unlocked bn = 0) as Eb.
  { intros bn. unfold blk, ind_addr. cbn. unfold asel. rewrite lookup_empty. by destruct (bn <? NDIRECT). }
  split; [by split|reflexivity|reflexivity|by split|discriminate|by split|reflexivity|reflexivity|reflexivity
    |exact small_idle|exact small_geo| |exact small_meta|].
  - split; intros *; rewrite ?Eb; done.
  - intros bn Hb Hlt. cbn in Hlt. assert (0 < BSIZE) by done. nia.
Qed.

Lemma filewrite_fileread_witness :
  wp (filewrite no_write 0 hello) (fun r s1 => r = 5 /\
    wp (fileread no_read 1 5) (fun q s2 => q = (5, hello)) s1) small_files.
Proof.
  eapply wp_mono; [|apply (filewrite_fileread no_read no_write small_files (asel small_disk) 32 100 0 1 small_unlocked hello)].
  - intros r s1 (H1 & _ & _ & _ & H2). split; [exact H1|]. eapply wp_mono; [|exact H2]. intros q s2 [H3 _]. exact H3.
  - split; [by split|reflexivity|by split|exact small_file_idle].
  - reflexivity.
  - discriminate.
  - reflexivity.
  - change (nfree (sb (fsys small_files)) (asel small_disk)) with (nfree small_sb (asel small_disk)).
    rewrite small_free. discriminate.
  - discriminate.
  - by split.
  - reflexivity.
  - reflexivity.
  - reflexivity.
  - reflexivity.
Defined.

Lemma small_ftable : ftable_ok (ftab small_files).
Proof.
  intros f Hf. cbn [ftab small_files]. rewrite !asel_insert. repeat case_decide; by split.
Qed.

Lemma pipe_no_leak_witness :
  wp pipe_cycle (fun r s' => unleaked small_files free5 s' /\
    (r = false -> free5 = [] \/ exists g, forall f, 0 <= f < NFILE -> f_ref (ftab small_files).[f] = 0 -> f = g)) small_files.
Proof.
  apply (pipe_no_leak small_files free5 eq_refl small_ftable).
  - exact (machine_inv free5 (proj1 free5_ok) (proj2 free5_ok)).
  - intros p _. reflexivity.
Defined.

End SmallFiles.
