(* ===== verification/Proc.v ===== *)
(** * Processes: [proc.c]

    The process table and the operations on it, over the models of memory
    ([Kalloc], [Vm]), open files ([File]), the file system ([Fs]) and shared
    memory ([Shm]).  An operation runs up to the point where it gives up the
    CPU in [sched]; [ProcSteps.v] composes these runs. *)

From stdpp Require Import base tactics numbers gmap strings list sets.
From Stdlib Require Import ZArith Lia.
From S2P Require Import Prelude Mmu Memory Spinlock Kalloc Vm Shm Sleeplock Cache Log Store Fs Pipe File.

Inductive procstate := UNUSED | EMBRYO | SLEEPING | RUNNABLE | RUNNING | ZOMBIE.

#[global] Instance procstate_eq_dec : EqDecision procstate.
Proof. solve_decision. Defined.

(** What a process sleeps on: a process (in [wait]) or some other address. *)
Inductive wchan := CProc (i : Z) | CAddr (a : Z).

#[global] Instance wchan_eq_dec : EqDecision wchan.
Proof. solve_decision. Defined.

#[global] Instance czero_option {A} : CZero (option A) := None.

(** [struct proc]; a process is its index in the table, a file its index in
    [ftable], an inode its index in [icache]. *)
Record proc := mkproc {
  p_sz : Z;
  p_pgdir : Z;
  p_kstack : Z;
  p_state : procstate;
  p_pid : Z;
  p_parent : option Z;
  p_tf : Z;
  p_context : Z;
  p_chan : option wchan;
  p_killed : bool;
  p_ofile : arr (option Z);
  p_cwd : option Z;
  p_name : list Z;
  p_shmsegs : arr attached
}.

#[global] Instance czero_proc : CZero proc :=
  mkproc 0 0 0 UNUSED 0 None 0 0 None false ∅ None (replicate 16 0) ∅.

Definition with_state (st : procstate) (p : proc) : proc :=
  mkproc (p_sz p) (p_pgdir p) (p_kstack p) st (p_pid p) (p_parent p) (p_tf p) (p_context p) (p_chan p)
    (p_killed p) (p_ofile p) (p_cwd p) (p_name p) (p_shmsegs p).
Definition with_pid (i : Z) (p : proc) : proc :=
  mkproc (p_sz p) (p_pgdir p) (p_kstack p) (p_state p) i (p_parent p) (p_tf p) (p_context p) (p_chan p)
    (p_killed p) (p_ofile p) (p_cwd p) (p_name p) (p_shmsegs p).
Definition with_mem (sz pgdir : Z) (p : proc) : proc :=
  mkproc sz pgdir (p_kstack p) (p_state p) (p_pid p) (p_parent p) (p_tf p) (p_context p) (p_chan p)
    (p_killed p) (p_ofile p) (p_cwd p) (p_name p) (p_shmsegs p).
Definition with_kstack (k : Z) (p : proc) : proc :=
  mkproc (p_sz p) (p_pgdir p) k (p_state p) (p_pid p) (p_parent p) (p_tf p) (p_context p) (p_chan p)
    (p_killed p) (p_ofile p) (p_cwd p) (p_name p) (p_shmsegs p).
Definition with_frames (tf ctx : Z) (p : proc) : proc :=
  mkproc (p_sz p) (p_pgdir p) (p_kstack p) (p_state p) (p_pid p) (p_parent p) tf ctx (p_chan p)
    (p_killed p) (p_ofile p) (p_cwd p) (p_name p) (p_shmsegs p).
Definition with_parent (q : option Z) (p : proc) : proc :=
  mkproc (p_sz p) (p_pgdir p) (p_kstack p) (p_state p) (p_pid p) q (p_tf p) (p_context p) (p_chan p)
    (p_killed p) (p_ofile p) (p_cwd p) (p_name p) (p_shmsegs p).
Definition with_chan (c : option wchan) (p : proc) : proc :=
  mkproc (p_sz p) (p_pgdir p) (p_kstack p) (p_state p) (p_pid p) (p_parent p) (p_tf p) (p_context p) c
    (p_killed p) (p_ofile p) (p_cwd p) (p_name p) (p_shmsegs p).
Definition with_killed (k : bool) (p : proc) : proc :=
  mkproc (p_sz p) (p_pgdir p) (p_kstack p) (p_state p) (p_pid p) (p_parent p) (p_tf p) (p_context p) (p_chan p)
    k (p_ofile p) (p_cwd p) (p_name p) (p_shmsegs p).
Definition with_ofile (o : arr (option Z)) (p : proc) : proc :=
  mkproc (p_sz p) (p_pgdir p) (p_kstack p) (p_state p) (p_pid p) (p_parent p) (p_tf p) (p_context p) (p_chan p)
    (p_killed p) o (p_cwd p) (p_name p) (p_shmsegs p).
Definition with_cwd (c : option Z) (p : proc) : proc :=
  mkproc (p_sz p) (p_pgdir p) (p_kstack p) (p_state p) (p_pid p) (p_parent p) (p_tf p) (p_context p) (p_chan p)
    (p_killed p) (p_ofile p) c (p_name p) (p_shmsegs p).
Definition with_name (n : list Z) (p : proc) : proc :=
  mkproc (p_sz p) (p_pgdir p) (p_kstack p) (p_state p) (p_pid p) (p_parent p) (p_tf p) (p_context p) (p_chan p)
    (p_killed p) (p_ofile p) (p_cwd p) n (p_shmsegs p).
Definition with_shmsegs (a : arr attached) (p : proc) : proc :=
  mkproc (p_sz p) (p_pgdir p) (p_kstack p) (p_state p) (p_pid p) (p_parent p) (p_tf p) (p_context p) (p_chan p)
    (p_killed p) (p_ofile p) (p_cwd p) (p_name p) a.

(** ** The process table alone

    What the loops over [ptable.proc] do, as functions of the table. *)

(** The first process from [i] on that satisfies [f]. *)
Fixpoint find_from (n : nat) (i : Z) (f : Z -> bool) : option Z :=
  match n with
  | O => None
  | Datatypes.S n' => if f i then Some i else find_from n' (i + 1) f
  end.

Definition find_proc (f : Z -> bool) : option Z := find_from (Z.to_nat NPROC) 0 f.

Definition is_state (st : procstate) (p : proc) : bool := bool_decide (p_state p = st).

(** Each process in turn through [g]. *)
Definition map_procs (g : proc -> proc) (a : arr proc) : arr proc :=
  foldr (fun i b => <[i := g a.[i]]> b) a (seqZ 0 NPROC).

(** [wakeup1]; the null channel is [None]. *)
Definition wakeup1_proc (c : option wchan) (p : proc) : proc :=
  if is_state SLEEPING p && bool_decide (p_chan p = c) then with_state RUNNABLE p else p.
Definition wakeup1 (c : option wchan) (a : arr proc) : arr proc := map_procs (wakeup1_proc c) a.

(** The loop of [kill]. *)
Definition kill_proc (p : proc) : proc :=
  let p := with_killed true p in
  if is_state SLEEPING p then with_state RUNNABLE p else p.
Definition kill_tab (pid : Z) (a : arr proc) : option (arr proc) :=
  match find_proc (fun i => p_pid a.[i] =? pid) with
  | Some i => Some (<[i := kill_proc a.[i]]> a)
  | None => None
  end.

(** The loop of [exit] that passes the children of [me] to [init]. *)
Definition reparent_step (me init : Z) (a : arr proc) (i : Z) : arr proc :=
  if bool_decide (p_parent a.[i] = Some me) then
    let a := <[i := with_parent (Some init) a.[i]]> a in
    if is_state ZOMBIE a.[i] then wakeup1 (Some (CProc init)) a else a
  else a.
Definition reparent (me init : Z) (a : arr proc) : arr proc :=
  foldl (reparent_step me init) a (seqZ 0 NPROC).

(** What [exit] does to the table while it holds its lock. *)
Definition exit_tab (me init : Z) (a : arr proc) : arr proc :=
  let a := wakeup1 (CProc <$> p_parent a.[me]) a in
  let a := reparent me init a in
  <[me := with_state ZOMBIE a.[me]]> a.

(** [safestrcpy(s, t, n + 1)] on the bytes of an array. *)
Fixpoint safestrcpy_l (n : nat) (s t : list Z) : list Z :=
  match n with
  | O => 0 :: tail s
  | Datatypes.S n' =>
      let c := nth 0 t 0 in
      if c =? 0 then 0 :: 0 :: drop 2 s else c :: safestrcpy_l n' (tail s) (tail t)
  end.

(** What the locks use of [struct cpu], and whether the CPU takes interrupts
    ([FL_IF] of its eflags).  [ncli] is not negative: [popcli] panics first. *)
Record cpu := mkcpu {
  ncli : nat;
  intena : bool;
  fl_if : bool
}.

Section Ops.
Context {L : Layout} {S : Type} `{TxStore S}.

(** [ptable], [nextpid], [initproc], the index of the running process, the page
    directory the CPU uses, the files (with the file system and the pages), the
    shared memory, whether [tickslock] is held, and the CPU's interrupts. *)
Record os := mkos {
  plock : bool;
  procs : arr proc;
  nextpid : Z;
  initproc : option Z;
  me : Z;
  cr3 : Z;
  fl : flst S;
  shg : shst;
  tickslock : bool;
  this_cpu : cpu
}.

Definition set_plock (b : bool) (s : os) : os :=
  mkos b (procs s) (nextpid s) (initproc s) (me s) (cr3 s) (fl s) (shg s) (tickslock s) (this_cpu s).
Definition set_procs (a : arr proc) (s : os) : os :=
  mkos (plock s) a (nextpid s) (initproc s) (me s) (cr3 s) (fl s) (shg s) (tickslock s) (this_cpu s).
Definition set_nextpid (n : Z) (s : os) : os :=
  mkos (plock s) (procs s) n (initproc s) (me s) (cr3 s) (fl s) (shg s) (tickslock s) (this_cpu s).
Definition set_initproc (i : option Z) (s : os) : os :=
  mkos (plock s) (procs s) (nextpid s) i (me s) (cr3 s) (fl s) (shg s) (tickslock s) (this_cpu s).
Definition set_me (i : Z) (s : os) : os :=
  mkos (plock s) (procs s) (nextpid s) (initproc s) i (cr3 s) (fl s) (shg s) (tickslock s) (this_cpu s).
Definition set_cr3 (a : Z) (s : os) : os :=
  mkos (plock s) (procs s) (nextpid s) (initproc s) (me s) a (fl s) (shg s) (tickslock s) (this_cpu s).
Definition set_fl (f : flst S) (s : os) : os :=
  mkos (plock s) (procs s) (nextpid s) (initproc s) (me s) (cr3 s) f (shg s) (tickslock s) (this_cpu s).
Definition set_shg (g : shst) (s : os) : os :=
  mkos (plock s) (procs s) (nextpid s) (initproc s) (me s) (cr3 s) (fl s) g (tickslock s) (this_cpu s).
Definition set_tickslock (b : bool) (s : os) : os :=
  mkos (plock s) (procs s) (nextpid s) (initproc s) (me s) (cr3 s) (fl s) (shg s) b (this_cpu s).
Definition set_cpu (c : cpu) (s : os) : os :=
  mkos (plock s) (procs s) (nextpid s) (initproc s) (me s) (cr3 s) (fl s) (shg s) (tickslock s) c.

Definition myproc (s : os) : proc := (procs s).[me s].

(** Each part, with what it reads of the running process filled in. *)
Definition my_fs (s : os) : fsst S :=
  let f := fsys (fl s) in
  mkfs (sb f) (iclock f) (inodes f) (disk f) (p_pid (myproc s)) (default 0 (p_cwd (myproc s))).
Definition files_lens : lens os (flst S) :=
  mklens (fun s => mkfl (ft_lock (fl s)) (ftab (fl s)) (pipes (fl s)) (pages (fl s)) (my_fs s) (p_killed (myproc s)))
    set_fl.
Definition fs_lens : lens os (fsst S) :=
  mklens my_fs (fun f s => set_fl (lset fsys_lens f (fl s)) s).
Definition mem_lens : lens os kst :=
  mklens (fun s => pages (fl s)) (fun k s => set_fl (lset pages_lens k (fl s)) s).
Definition shm_lens : lens os shst :=
  mklens (fun s => set_km (pages (fl s)) (set_cur (mkshproc (p_pid (myproc s)) (p_pgdir (myproc s)) (p_shmsegs (myproc s))) (shg s)))
    (fun g s =>
       let s := set_fl (lset pages_lens (km g) (fl s)) (set_shg g s) in
       set_procs (<[me s := with_shmsegs (shmsegs (cur g)) (myproc s)]> (procs s)) s).

(** [mycpu] (its CPU is the one whose interrupts [os] has), and [pushcli] and
    [popcli] of [spinlock.c].  The locks inside the
    parts above are released before a call on the part returns, so that their
    nesting is not seen here. *)
Definition mycpu : M os cpu := fun s =>
  if fl_if (this_cpu s) then Panic "mycpu called with interrupts enabled\n" s else Ret (this_cpu s) s.

Definition pushcli : M os unit :=
  let* e := gets this_cpu in
  modify (set_cpu (mkcpu (ncli e) (intena e) false)) ;;;
  let* c := mycpu in
  when (ncli c =? 0)%nat (modify (set_cpu (mkcpu (ncli c) (fl_if e) (fl_if c)))) ;;;
  let* c := mycpu in
  modify (set_cpu (mkcpu (Datatypes.S (ncli c)) (intena c) (fl_if c))).

Definition popcli : M os unit :=
  let* e := gets this_cpu in
  if fl_if e then panic "popcli - interruptible" else
  let* c := mycpu in
  match ncli c with
  | O => panic "popcli"
  | Datatypes.S n =>
      modify (set_cpu (mkcpu n (intena c) (fl_if c))) ;;;
      when ((n =? 0)%nat && intena c) (modify (set_cpu (mkcpu n (intena c) true)))
  end.

(** [acquire] and [release] of a lock that [held] tells of. *)
Definition os_acquire (held : os -> bool) (set_held : bool -> os -> os) : M os unit :=
  pushcli ;;; Lock.acquire held set_held.
Definition os_release (held : os -> bool) (set_held : bool -> os -> os) : M os unit :=
  Lock.release held set_held ;;; popcli.

Definition pt_acquire : M os unit := os_acquire plock set_plock.
Definition pt_release : M os unit := os_release plock set_plock.

Definition get_proc (i : Z) : M os proc := aget NPROC procs i.
Definition put_proc (i : Z) (p : proc) : M os unit :=
  aset NPROC (fun f s => set_procs (f (procs s)) s) i p.
Definition upd_proc (i : Z) (f : proc -> proc) : M os unit :=
  let* p := get_proc i in put_proc i (f p).
Definition upd_procs (f : arr proc -> arr proc) : M os unit := modify (fun s => set_procs (f (procs s)) s).

Definition pinit : M os unit := modify (set_plock false).

(** Sizes and offsets of [struct trapframe] and [struct context]. *)
Definition TF_SIZE : Z := 76.
Definition TF_EAX : Z := 28.
Definition TF_ES : Z := 40.
Definition TF_DS : Z := 44.
Definition TF_EIP : Z := 56.
Definition TF_CS : Z := 60.
Definition TF_EFLAGS : Z := 64.
Definition TF_ESP : Z := 68.
Definition TF_SS : Z := 72.
Definition CTX_SIZE : Z := 20.
Definition CTX_EIP : Z := 16.

(** Addresses of code the linker places. *)
Context (trapret forkret : Z).

Definition allocproc : M os (option Z) :=
  pt_acquire ;;;
  let* a := gets procs in
  match find_proc (fun i => is_state UNUSED a.[i]) with
  | None => pt_release ;;; ret None
  | Some i =>
      upd_proc i (with_state EMBRYO) ;;;
      let* n := gets nextpid in
      upd_proc i (with_pid n) ;;;
      modify (set_nextpid (i32 (n + 1))) ;;;
      pt_release ;;;
      let* k := zoom mem_lens kalloc in
      upd_proc i (with_kstack k) ;;;
      if k =? 0 then upd_proc i (with_state UNUSED) ;;; ret None else
      let sp := k + KSTACKSIZE - TF_SIZE in
      let tf := sp in
      let sp := sp - 4 in
      zoom mem_lens (wr32 sp trapret) ;;;
      let sp := sp - CTX_SIZE in
      upd_proc i (with_frames tf sp) ;;;
      zoom mem_lens (kmemset sp 0 CTX_SIZE) ;;;
      zoom mem_lens (wr32 (sp + CTX_EIP) forkret) ;;;
      ret (Some i)
  end.

(** A 16-bit store. *)
Definition wr16 (a v : Z) : M kst unit := modify (fun s => set_mem (store16 (mem s) a v) s).

Definition ucode : Z := Z.lor (Z.shiftl 3 3) 3.
Definition udata : Z := Z.lor (Z.shiftl 4 3) 3.
Definition FL_IF : Z := 0x200.

(** The name "initcode" and the path "/". *)
Definition initcode_name : list Z := [105; 110; 105; 116; 99; 111; 100; 101].

(** The first process; the program is [size] bytes at [start].  [devread] and
    [namei] are those of the file system. *)
Context (devread : Z -> option (Z -> Z -> M (fsst S) (Z * list Z))).

Definition userinit (start size : Z) : M os unit :=
  let* p := allocproc in
  match p with
  | None => undef
  | Some i =>
      modify (set_initproc (Some i)) ;;;
      let* pgdir := zoom mem_lens setupkvm in
      upd_proc i (fun x => with_mem (p_sz x) pgdir x) ;;;
      if pgdir =? 0 then panic "userinit: out of memory?" else
      zoom mem_lens (inituvm pgdir start size) ;;;
      upd_proc i (with_mem PGSIZE pgdir) ;;;
      let* x := get_proc i in
      let tf := p_tf x in
      zoom mem_lens (kmemset tf 0 TF_SIZE) ;;;
      zoom mem_lens (wr16 (tf + TF_CS) ucode) ;;;
      zoom mem_lens (wr16 (tf + TF_DS) udata) ;;;
      zoom mem_lens (wr16 (tf + TF_ES) udata) ;;;
      zoom mem_lens (wr16 (tf + TF_SS) udata) ;;;
      zoom mem_lens (wr32 (tf + TF_EFLAGS) FL_IF) ;;;
      zoom mem_lens (wr32 (tf + TF_ESP) PGSIZE) ;;;
      zoom mem_lens (wr32 (tf + TF_EIP) 0) ;;;
      upd_proc i (fun x => with_name (safestrcpy_l 15 (p_name x) initcode_name) x) ;;;
      let* c := zoom fs_lens (namei devread [SLASH]) in
      upd_proc i (with_cwd c) ;;;
      pt_acquire ;;;
      upd_proc i (with_state RUNNABLE) ;;;
      pt_release
  end.

(** [switchuvm] and [switchkvm] of [vm.c], as far as the page directory goes. *)
Definition switchuvm (i : Z) : M os unit :=
  let* x := get_proc i in
  if p_kstack x =? 0 then panic "switchuvm: no kstack" else
  if p_pgdir x =? 0 then panic "switchuvm: no pgdir" else
  modify (set_cr3 (V2P (p_pgdir x))).

Definition growproc (n : Z) : M os Z :=
  let* i := gets me in
  let* x := get_proc i in
  let* sz := (if 0 <? n then zoom mem_lens (allocuvm (p_pgdir x) (p_sz x) (u32 (p_sz x + n)))
              else if n <? 0 then zoom mem_lens (deallocuvm (p_pgdir x) (p_sz x) (u32 (p_sz x + n)))
              else ret (p_sz x)) in
  if negb (n =? 0) && (sz =? 0) then ret (-1) else
  upd_proc i (fun x => with_mem sz (p_pgdir x) x) ;;;
  switchuvm i ;;;
  ret 0.

(** One round of the loop of [fork] over the attachments, with [last_shmid]. *)
Definition fork_shm_step (np last i : Z) : M os Z :=
  let* m := gets me in
  let* c := get_proc m in
  let att := (p_shmsegs c).[i] in
  upd_proc np (fun x => with_shmsegs (<[i := att]> (p_shmsegs x)) x) ;;;
  let id := shmid att in
  if (id =? -1) || (id =? last) then ret last else
  let* x := get_proc np in
  zoom shm_lens (updateShmSeg id (p_pid x) 0) ;;;
  ret id.

Definition fork_shm (np : Z) : M os unit :=
  let* m := gets me in
  let* c := get_proc m in
  if 2 <? p_pid c then
    iter (Datatypes.S (Z.to_nat SHMMAXSEG)) (fun '(i, last) =>
      if negb (i <? SHMMAXSEG) then ret (inr tt) else
      let* last := fork_shm_step np last i in
      ret (inl (i + 1, last))) (0, -2)
  else
    for_up 0 SHMMAXSEG (fun i =>
      upd_proc np (fun x => with_shmsegs (<[i := mkatt 0 (-1)]> (p_shmsegs x)) x)).

Definition fork : M os Z :=
  let* m := gets me in
  let* np := allocproc in
  match np with
  | None => ret (-1)
  | Some np =>
      let* c := get_proc m in
      let* pgdir := zoom mem_lens (copyuvm (p_pgdir c) (p_sz c)) in
      upd_proc np (fun x => with_mem (p_sz x) pgdir x) ;;;
      if pgdir =? 0 then
        let* x := get_proc np in
        zoom mem_lens (kfree (p_kstack x)) ;;;
        upd_proc np (with_kstack 0) ;;;
        upd_proc np (with_state UNUSED) ;;;
        ret (-1)
      else
      upd_proc np (with_mem (p_sz c) pgdir) ;;;
      upd_proc np (with_parent (Some m)) ;;;
      let* x := get_proc np in
      zoom mem_lens (kmemmove (p_tf x) (p_tf c) TF_SIZE) ;;;
      zoom mem_lens (wr32 (p_tf x + TF_EAX) 0) ;;;
      for_up 0 NOFILE (fun i =>
        match (p_ofile c).[i] with
        | None => ret tt
        | Some f =>
            let* f := zoom files_lens (filedup f) in
            upd_proc np (fun x => with_ofile (<[i := Some f]> (p_ofile x)) x)
        end) ;;;
      match p_cwd c with
      | None => undef
      | Some d =>
          let* d := zoom fs_lens (idup d) in
          upd_proc np (with_cwd (Some d))
      end ;;;
      upd_proc np (fun x => with_name (safestrcpy_l 15 (p_name x) (p_name c)) x) ;;;
      let* x := get_proc np in
      let pid := p_pid x in
      pt_acquire ;;;
      fork_shm np ;;;
      upd_proc np (with_state RUNNABLE) ;;;
      pt_release ;;;
      ret pid
  end.

(** [sched], up to the switch to the scheduler. *)
Definition sched : M os unit :=
  let* i := gets me in
  let* h := gets plock in
  if negb h then panic "sched ptable.lock" else
  let* c := mycpu in
  if negb (ncli c =? 1)%nat then panic "sched locks" else
  let* x := get_proc i in
  if is_state RUNNING x then panic "sched running" else
  let* e := gets this_cpu in
  if fl_if e then panic "sched interruptible" else ret tt.

(** [sched] when the process runs again; [ie] is [intena] at the switch. *)
Definition sched_back (ie : bool) : M os unit :=
  let* c := mycpu in
  modify (set_cpu (mkcpu (ncli c) ie (fl_if c))).

(** [exit], up to the switch; the process does not run again. *)
Definition exit_close (i : Z) : M os unit :=
  for_up 0 NOFILE (fun fd =>
    let* x := get_proc i in
    match (p_ofile x).[fd] with
    | None => ret tt
    | Some f =>
        zoom files_lens (fileclose f) ;;;
        upd_proc i (fun x => with_ofile (<[fd := None]> (p_ofile x)) x)
    end).

Definition exit_last (i : Z) (init : option Z) : M os unit :=
  pt_acquire ;;;
  upd_procs (exit_tab i (default 0 init)) ;;;
  sched.

Definition exit : M os unit :=
  let* i := gets me in
  let* init := gets initproc in
  if bool_decide (init = Some i) then panic "init exiting" else
  exit_close i ;;;
  zoom fs_lens begin_op ;;;
  let* x := get_proc i in
  match p_cwd x with
  | None => undef
  | Some d => zoom fs_lens (iput d)
  end ;;;
  zoom fs_lens end_op ;;;
  upd_proc i (with_cwd None) ;;;
  exit_last i init.

(** One pass of [wait] over the table: the child it reaps, or whether there
    are children at all. *)
Definition zombie_child (i : Z) (a : arr proc) : option Z :=
  find_proc (fun j => bool_decide (p_parent a.[j] = Some i) && is_state ZOMBIE a.[j]).
Definition has_child (i : Z) (a : arr proc) : bool :=
  match find_proc (fun j => bool_decide (p_parent a.[j] = Some i)) with Some _ => true | None => false end.

(** The entry after its process has been reaped. *)
Definition reaped (p : proc) : proc :=
  with_state UNUSED (with_killed false (with_name (0 :: tail (p_name p)) (with_parent None (with_pid 0 p)))).

(** [wait]: the result, or nothing if the process goes to sleep. *)
Definition wait : M os (option Z) :=
  let* i := gets me in
  pt_acquire ;;;
  let* a := gets procs in
  match zombie_child i a with
  | Some j =>
      let* x := get_proc j in
      zoom mem_lens (kfree (p_kstack x)) ;;;
      upd_proc j (with_kstack 0) ;;;
      zoom mem_lens (freevm (p_pgdir x)) ;;;
      upd_proc j reaped ;;;
      pt_release ;;;
      ret (Some (p_pid x))
  | None =>
      let* x := get_proc i in
      if negb (has_child i a) || p_killed x then pt_release ;;; ret (Some (-1)) else
      upd_proc i (with_chan (Some (CProc i))) ;;;
      upd_proc i (with_state SLEEPING) ;;;
      sched ;;;
      ret None
  end.

(** [yield], up to the switch. *)
Definition yield : M os unit :=
  pt_acquire ;;;
  let* i := gets me in
  upd_proc i (with_state RUNNABLE) ;;;
  sched.

(** [sleep] with a lock other than [ptable.lock], which [release] gives up, up
    to the switch. *)
Definition sleep (c : wchan) (release : M os unit) : M os unit :=
  pt_acquire ;;;
  release ;;;
  let* i := gets me in
  upd_proc i (with_chan (Some c)) ;;;
  upd_proc i (with_state SLEEPING) ;;;
  sched.

(** The rest of [yield] and of [sleep], when the process runs again. *)
Definition yielded (ie : bool) : M os unit := sched_back ie ;;; pt_release.
Definition awoken (ie : bool) (reacquire : M os unit) : M os unit :=
  sched_back ie ;;;
  let* i := gets me in
  upd_proc i (with_chan None) ;;;
  pt_release ;;;
  reacquire.

Definition wakeup (c : wchan) : M os unit :=
  pt_acquire ;;;
  upd_procs (wakeup1 (Some c)) ;;;
  pt_release.

Definition kill (pid : Z) : M os Z :=
  pt_acquire ;;;
  let* a := gets procs in
  match kill_tab pid a with
  | Some a' => upd_procs (fun _ => a') ;;; pt_release ;;; ret 0
  | None => pt_release ;;; ret (-1)
  end.

(** One choice of [scheduler]: process [i] gets the CPU. *)
Definition dispatch (i : Z) : M os unit :=
  let* x := get_proc i in
  if negb (is_state RUNNABLE x) then ret tt else
  modify (set_me i) ;;;
  switchuvm i ;;;
  upd_proc i (with_state RUNNING).

End Ops.

Arguments os : clear implicits.
