(* ===== verification/ProcSteps.v ===== *)
(** * Processes: the life of a process

    The changes of the process table that the functions of [proc.c] make, as steps of a system of CPUs and processes, and
    what holds after any number of them: a running process is on exactly one
    CPU, every process has a live parent to reap it, and no parent sleeps in
    [wait] while a child of it is a zombie. *)

From stdpp Require Import base tactics numbers gmap strings list sets relations.
From Stdlib Require Import ZArith Lia.
From S2P Require Import Prelude Mmu Memory Spinlock Kalloc Vm Shm Sample Sleeplock Cache Bio Log Store Fs Pipe File FileTheorems Proc.

(** ** Lookups in a table *)

Lemma find_from_some n i f j : find_from n i f = Some j -> i <= j < i + Z.of_nat n /\ f j = true /\
  forall k, i <= k < j -> f k = false.
Proof.
  revert i. induction n as [|n IH]; intros i; cbn [find_from]; [done|]. destruct (f i) eqn:E.
  - intros [= <-]. split; [lia|]. split; [done|]. intros k Hk. lia.
  - intros (H1 & H2 & H3)%IH. split; [lia|]. split; [done|]. intros k Hk.
    destruct (decide (k = i)) as [->|]; [done|]. apply H3. lia.
Qed.

Lemma find_from_none n i f : find_from n i f = None -> forall k, i <= k < i + Z.of_nat n -> f k = false.
Proof.
  revert i. induction n as [|n IH]; intros i; cbn [find_from]; [lia|]. destruct (f i) eqn:E; [done|].
  intros Hn k Hk. destruct (decide (k = i)) as [->|]; [done|]. apply (IH (i + 1)); [done|lia].
Qed.

Definition in_tab (i : Z) : Prop := 0 <= i < NPROC.

Lemma find_proc_some f j : find_proc f = Some j -> in_tab j /\ f j = true /\ forall k, 0 <= k < j -> f k = false.
Proof. intros (H1 & H2 & H3)%find_from_some. rewrite Z2Nat.id in H1 by done. split; [unfold in_tab; lia|done]. Qed.

Lemma find_proc_none f : find_proc f = None -> forall k, in_tab k -> f k = false.
Proof. intros Hn k Hk. unfold in_tab in Hk. apply (find_from_none _ _ _ Hn). rewrite Z2Nat.id by done. lia. Qed.

Lemma foldr_insert_sel (g : Z -> proc) (l : list Z) (a : arr proc) i :
  (foldr (fun i b => <[i := g i]> b) a l).[i] = if decide (i ∈ l) then g i else a.[i].
Proof.
  induction l as [|j l IH]; cbn [foldr]; [by rewrite decide_False by apply not_elem_of_nil|].
  rewrite asel_insert, IH. destruct (decide (j = i)) as [->|Hne]; [by rewrite decide_True by set_solver|].
  destruct (decide (i ∈ l)); [by rewrite decide_True by set_solver|]. by rewrite decide_False by set_solver.
Qed.

Lemma map_procs_sel g a i : in_tab i -> (map_procs g a).[i] = g a.[i].
Proof.
  intros Hi. unfold map_procs. rewrite (foldr_insert_sel (fun i => g a.[i])).
  rewrite decide_True; [done|]. apply elem_of_seqZ. unfold in_tab in Hi. lia.
Qed.

Lemma wakeup1_sel c a i : in_tab i -> (wakeup1 c a).[i] = wakeup1_proc c a.[i].
Proof. apply map_procs_sel. Qed.

Lemma map_procs_out g a i : ~ in_tab i -> (map_procs g a).[i] = a.[i].
Proof.
  intros Hi. unfold map_procs. rewrite (foldr_insert_sel (fun i => g a.[i])).
  rewrite decide_False; [done|]. rewrite elem_of_seqZ. unfold in_tab in Hi. lia.
Qed.

(** ** What the loops do to one process *)

Definition asleep_on (c : option wchan) (p : proc) : Prop := p_state p = SLEEPING /\ p_chan p = c.

#[global] Instance asleep_on_dec c p : Decision (asleep_on c p).
Proof. unfold asleep_on. apply _. Defined.

Lemma wakeup1_proc_eq c p :
  wakeup1_proc c p = if decide (asleep_on c p) then with_state RUNNABLE p else p.
Proof.
  unfold wakeup1_proc, is_state, asleep_on. repeat case_bool_decide; cbn; case_decide; try done; naive_solver.
Qed.

(** A process that may only have been woken, from sleep. *)
Definition maybe_woken (p p' : proc) : Prop :=
  p' = p \/ p_state p = SLEEPING /\ p' = with_state RUNNABLE p.

Lemma wakeup1_maybe c p : maybe_woken p (wakeup1_proc c p).
Proof. rewrite wakeup1_proc_eq. case_decide as Hs; [right; by destruct Hs|by left]. Qed.

Lemma maybe_woken_trans p q r : maybe_woken p q -> maybe_woken q r -> maybe_woken p r.
Proof. intros [->|[H1 ->]] [->|[H2 ->]]; unfold maybe_woken; auto; done. Qed.

Lemma with_parent_maybe q p p' : maybe_woken p p' -> maybe_woken (with_parent q p) (with_parent q p').
Proof. intros [->|[H ->]]; [by left|by right]. Qed.

(** The passing of children, process by process. *)
Section Reparent.
Context (me init : Z) (Hne : me <> init).

Definition handed (p : proc) : proc := if decide (p_parent p = Some me) then with_parent (Some init) p else p.

(** After the first [n] rounds. *)
Record handed_over (a b : arr proc) (n : Z) : Prop := {
  ho_proc : forall i, in_tab i -> exists p, maybe_woken (if decide (i < n) then handed a.[i] else a.[i]) p /\ b.[i] = p;
  ho_init : forall i, in_tab i -> i < n -> p_parent a.[i] = Some me -> p_state a.[i] = ZOMBIE ->
    ~ asleep_on (Some (CProc init)) b.[init]
}.

Lemma handed_woken a p : maybe_woken a p -> maybe_woken (handed a) (handed p).
Proof.
  unfold handed. intros [->|[H ->]]; [by left|]. right. cbn. case_decide; by split.
Qed.

Lemma reparent_step_ok a b n : in_tab n -> in_tab init -> handed_over a b n -> handed_over a (reparent_step me init b n) (n + 1).
Proof using Hne.
  intros Hn Hi [Hp Hz]. unfold reparent_step. destruct (Hp n Hn) as (p & Hw & E).
  rewrite decide_False in Hw by lia. rewrite E.
  assert (p_parent p = p_parent a.[n] /\ (p_state p = ZOMBIE <-> p_state a.[n] = ZOMBIE)) as [Epar Ez].
  { destruct Hw as [->|[Hs ->]]; [done|]. split; [done|]. cbn. rewrite Hs. done. }
  case_bool_decide as Hpar.
  2:{ split.
      - intros i Hri. destruct (Hp i Hri) as (q & Hq & Eq). exists q. split; [|done].
        destruct (decide (i < n)) as [|]; [by rewrite decide_True by lia|]. destruct (decide (i = n)) as [->|].
        + rewrite decide_True by lia. unfold handed. rewrite decide_False by congruence. done.
        + by rewrite decide_False by lia.
      - intros i Hri Hlt Hpi Hzi. destruct (decide (i = n)) as [->|]; [congruence|]. apply (Hz i); done || lia. }
  set (b1 := <[n := with_parent (Some init) p]> b).
  assert (forall i, in_tab i -> exists q, maybe_woken (if decide (i < n + 1) then handed a.[i] else a.[i]) q /\ b1.[i] = q) as Hb1.
  { intros i Hri. unfold b1. rewrite asel_insert. destruct (decide (n = i)) as [<-|Hni].
    - rewrite decide_True by lia. eexists. split; [|done]. unfold handed. rewrite decide_True by congruence.
      by apply with_parent_maybe.
    - destruct (Hp i Hri) as (q & Hq & Eq). exists q. split; [|done].
      destruct (decide (i < n)); [by rewrite decide_True by lia|by rewrite decide_False by lia]. }
  unfold b1 at 1. rewrite asel_insert_eq. unfold is_state. cbn [p_state with_parent]. case_bool_decide as Hzs.
  - split.
    + intros i Hri. destruct (Hb1 i Hri) as (q & Hq & Eq). eexists. split; [|done].
      rewrite wakeup1_sel, Eq by done. eapply maybe_woken_trans; [exact Hq|apply wakeup1_maybe].
    + intros i _ _ _ _ Hs. rewrite wakeup1_sel, wakeup1_proc_eq in Hs by done. case_decide as Ha; [by destruct Hs|done].
  - split; [exact Hb1|]. intros i Hri Hlt Hpi Hzi. destruct (decide (i = n)) as [->|Hni]; [by apply Ez in Hzi|].
    pose proof (Hz i Hri ltac:(lia) Hpi Hzi) as Hns. unfold b1. rewrite asel_insert.
    destruct (decide (n = init)) as [->|]; [|done]. intros [Hs1 Hs2]. apply Hns. rewrite E. by split.
Qed.

End Reparent.

Lemma reparent_rounds me init a n : me <> init -> in_tab init -> 0 <= n <= NPROC ->
  handed_over me init a (foldl (reparent_step me init) a (seqZ 0 n)) n.
Proof.
  intros Hne Hi [H0 Hn]. revert Hn. pattern n. apply natlike_ind; [|clear n H0|exact H0].
  - intros _. split; [|unfold in_tab; lia]. intros i Hri. exists a.[i]. unfold in_tab in Hri.
    rewrite decide_False by lia. split; [by left|done].
  - intros n H0 IH Hn. rewrite <- Z.add_1_r in *. rewrite seqZ_app, foldl_app by lia.
    change (seqZ (0 + n) 1) with [0 + n]. cbn [foldl]. rewrite Z.add_0_l.
    apply reparent_step_ok; [done|unfold in_tab; lia|done|apply IH; lia].
Qed.

Lemma reparent_ok me init a : me <> init -> in_tab init -> handed_over me init a (reparent me init a) NPROC.
Proof. intros Hne Hi. apply reparent_rounds; [done|done|]. split; [by compute|apply Z.le_refl]. Qed.

(** What [exit] of [me] leaves: each process woken at most, its children with
    the initial process, and neither its parent nor, if a zombie was handed
    over, the initial process asleep in [wait]. *)
Record exited (me init : Z) (a b : arr proc) : Prop := {
  ex_me : p_state b.[me] = ZOMBIE /\ p_parent b.[me] = p_parent a.[me];
  ex_other : forall i, in_tab i -> i <> me -> maybe_woken (handed me init a.[i]) b.[i];
  ex_parent : forall q, p_parent a.[me] = Some q -> in_tab q -> q <> me -> ~ asleep_on (Some (CProc q)) b.[q];
  ex_init : forall i, in_tab i -> i <> me -> p_parent a.[i] = Some me -> p_state a.[i] = ZOMBIE ->
    ~ asleep_on (Some (CProc init)) b.[init]
}.

Lemma asleep_handed c me init p : asleep_on c (handed me init p) <-> asleep_on c p.
Proof. unfold handed. by case_decide. Qed.

Lemma asleep_maybe c p p' : maybe_woken p p' -> asleep_on c p' -> asleep_on c p.
Proof. intros [->|[Hs ->]]; [done|]. intros [H1 _]. done. Qed.

Definition parent_woken (me : Z) (a : arr proc) : arr proc :=
  wakeup1 (CProc <$> p_parent a.[me]) a.

Lemma parent_woken_maybe me a i : in_tab i -> maybe_woken a.[i] (parent_woken me a).[i].
Proof.
  intros Hri. unfold parent_woken. rewrite wakeup1_sel by done. apply wakeup1_maybe.
Qed.

Lemma exited_from me init a b : me <> init -> in_tab me -> in_tab init -> p_parent a.[me] <> Some me ->
  handed_over me init (parent_woken me a) b NPROC -> exited me init a (<[me := with_state ZOMBIE b.[me]]> b).
Proof.
  intros Hne Hm Hi Hself [Hp Hz]. pose proof (parent_woken_maybe me a) as H1. set (a1 := parent_woken me a) in *.
  assert (forall i, in_tab i -> p_parent a1.[i] = p_parent a.[i] /\ (p_state a.[i] = ZOMBIE -> p_state a1.[i] = ZOMBIE)) as Ep.
  { intros i Hri. destruct (H1 i Hri) as [->|[Hs ->]]; [done|]. split; [done|]. by rewrite Hs. }
  assert (forall i, in_tab i -> maybe_woken (handed me init a.[i]) b.[i]) as Hb.
  { intros i Hri. destruct (Hp i Hri) as (p & Hw & E). rewrite decide_True in Hw by apply Hri. rewrite E.
    eapply maybe_woken_trans; [|exact Hw]. by apply handed_woken, H1. }
  split.
  - rewrite asel_insert_eq. split; [done|]. cbn. destruct (Hb me Hm) as [E|[_ E]]; rewrite E; unfold handed; by rewrite decide_False.
  - intros i Hri Hni. rewrite asel_insert_ne by done. by apply Hb.
  - intros q Hq Hrq Hnq. rewrite asel_insert_ne by done. intros Hs.
    destruct (Hp q Hrq) as (p & Hw & E). rewrite E in Hs. rewrite decide_True in Hw by apply Hrq.
    apply (asleep_maybe _ _ _ Hw) in Hs. rewrite asleep_handed in Hs. unfold a1, parent_woken in Hs. rewrite Hq in Hs.
    rewrite wakeup1_sel, wakeup1_proc_eq in Hs by done. case_decide; [by destruct Hs|done].
  - intros i Hri Hni Hpi Hzi. rewrite asel_insert_ne by done. destruct (Ep i Hri) as [E1 E2].
    apply (Hz i Hri); [apply Hri|by rewrite E1|auto].
Qed.

Lemma exit_tab_ok me init a : me <> init -> in_tab me -> in_tab init -> p_parent a.[me] <> Some me ->
  exited me init a (exit_tab me init a).
Proof. intros. apply exited_from; [done..|]. by apply reparent_ok. Qed.

(** ** The system *)

(** The table, [nextpid], the initial process, the process of each CPU, and the
    entries that a process has allocated in [fork] and not yet started. *)
Record psys := mkpsys {
  tab : arr proc;
  npid : Z;
  pinitial : Z;
  oncpu : gmap Z Z;
  forking : gmap Z Z
}.

Definition upd (i : Z) (f : proc -> proc) (a : arr proc) : arr proc := <[i := f a.[i]]> a.
Arguments upd : simpl never.

Definition with_tab (a : arr proc) (s : psys) : psys := mkpsys a (npid s) (pinitial s) (oncpu s) (forking s).

(** CPU [c] is back in the scheduler. *)
Definition off_cpu (c : Z) (a : arr proc) (s : psys) : psys :=
  mkpsys a (npid s) (pinitial s) (delete c (oncpu s)) (forking s).

Definition go_to_sleep (ch : wchan) (p : proc) : proc := with_state SLEEPING (with_chan (Some ch) p).

(** The fields that processes read of each other. *)
Definition same_public (p p' : proc) : Prop :=
  p_state p' = p_state p /\ p_pid p' = p_pid p /\ p_parent p' = p_parent p /\ p_chan p' = p_chan p /\ p_killed p' = p_killed p.

Inductive pstep : psys -> psys -> Prop :=
  (** [scheduler] on CPU [c] *)
  | ps_dispatch s c i : oncpu s !! c = None -> in_tab i -> p_state (tab s).[i] = RUNNABLE ->
      pstep s (mkpsys (upd i (with_state RUNNING) (tab s)) (npid s) (pinitial s) (<[c := i]> (oncpu s)) (forking s))
  (** [yield], [sleep] *)
  | ps_yield s c i : oncpu s !! c = Some i ->
      pstep s (off_cpu c (upd i (with_state RUNNABLE) (tab s)) s)
  | ps_sleep s c i a : oncpu s !! c = Some i ->
      pstep s (off_cpu c (upd i (go_to_sleep (CAddr a)) (tab s)) s)
  (** a process that slept clears [chan] when it runs again *)
  | ps_awoken s c i : oncpu s !! c = Some i -> pstep s (with_tab (upd i (with_chan None) (tab s)) s)
  (** [wakeup], [kill] *)
  | ps_wakeup s a : pstep s (with_tab (wakeup1 (Some (CAddr a)) (tab s)) s)
  | ps_kill s pid t : kill_tab pid (tab s) = Some t -> pstep s (with_tab t s)
  (** [wait]: a child is reaped, or the process sleeps *)
  | ps_reap s c i j : oncpu s !! c = Some i -> zombie_child i (tab s) = Some j ->
      pstep s (with_tab (upd j reaped (upd j (with_kstack 0) (tab s))) s)
  | ps_wait s c i : oncpu s !! c = Some i -> zombie_child i (tab s) = None -> has_child i (tab s) = true ->
      pstep s (off_cpu c (upd i (go_to_sleep (CProc i)) (tab s)) s)
  (** [fork]: an entry is taken, given up before it has a parent, or started after it *)
  | ps_alloc s c i j : oncpu s !! c = Some i ->
      find_proc (fun k => is_state UNUSED (tab s).[k]) = Some j ->
      pstep s (mkpsys (upd j (with_pid (npid s)) (upd j (with_state EMBRYO) (tab s))) (i32 (npid s + 1)) (pinitial s)
        (oncpu s) (<[j := i]> (forking s)))
  | ps_giveup s c i j : oncpu s !! c = Some i -> forking s !! j = Some i -> p_parent (tab s).[j] = None ->
      pstep s (mkpsys (upd j (with_state UNUSED) (tab s)) (npid s) (pinitial s) (oncpu s) (delete j (forking s)))
  | ps_parent s c i j : oncpu s !! c = Some i -> forking s !! j = Some i ->
      pstep s (with_tab (upd j (with_parent (Some i)) (tab s)) s)
  | ps_start s c i j : oncpu s !! c = Some i -> forking s !! j = Some i -> p_parent (tab s).[j] = Some i ->
      pstep s (mkpsys (upd j (with_state RUNNABLE) (tab s)) (npid s) (pinitial s) (oncpu s) (delete j (forking s)))
  (** [exit], which a process does not call inside [fork] *)
  | ps_exit s c i : oncpu s !! c = Some i -> i <> pinitial s -> (forall j, forking s !! j <> Some i) ->
      pstep s (off_cpu c (exit_tab i (pinitial s) (tab s)) s)
  (** outside the lock, a process changes what is its own, or what will be its child's *)
  | ps_private s c i j p : oncpu s !! c = Some i -> in_tab j -> j = i \/ forking s !! j = Some i ->
      same_public (tab s).[j] p -> pstep s (with_tab (<[j := p]> (tab s)) s).

Definition live (p : proc) : Prop := p_state p = SLEEPING \/ p_state p = RUNNABLE \/ p_state p = RUNNING.
Definition fresh (p : proc) : Prop := p_state p = UNUSED \/ p_state p = EMBRYO.

(** A process runs exactly where the CPUs say. *)
Record cpu_ok (a : arr proc) (m : gmap Z Z) : Prop := {
  cp_run : forall c i, m !! c = Some i -> in_tab i /\ p_state a.[i] = RUNNING;
  cp_inj : forall c c' i, m !! c = Some i -> m !! c' = Some i -> c = c';
  cp_on : forall i, in_tab i -> p_state a.[i] = RUNNING -> exists c, m !! c = Some i
}.

(** The tree of processes. *)
Record family (a : arr proc) (init : Z) : Prop := {
  fa_init : in_tab init /\ live a.[init] /\ p_parent a.[init] = None;
  fa_parent : forall i, in_tab i -> ~ fresh a.[i] -> i <> init ->
    exists q, p_parent a.[i] = Some q /\ q <> i /\ in_tab q /\ live a.[q];
  fa_unused : forall i, in_tab i -> p_state a.[i] = UNUSED -> p_parent a.[i] = None
}.

(** No process sleeps in [wait] beside a zombie. *)
Definition wait_ok (a : arr proc) : Prop :=
  forall i c, in_tab i -> asleep_on (Some (CProc c)) a.[i] ->
    c = i /\ forall j, in_tab j -> p_parent a.[j] = Some i -> p_state a.[j] <> ZOMBIE.

Record pinv (s : psys) : Prop := {
  pv_cpu : cpu_ok (tab s) (oncpu s);
  pv_family : family (tab s) (pinitial s);
  pv_wait : wait_ok (tab s);
  pv_fork : forall j i, forking s !! j = Some i -> in_tab j /\ p_state (tab s).[j] = EMBRYO
}.

(** ** The CPUs *)

Lemma upd_sel i f a j : (upd i f a).[j] = if decide (i = j) then f a.[j] else a.[j].
Proof. unfold upd. rewrite asel_insert. by case_decide; subst. Qed.

Lemma upd_eq i f a : (upd i f a).[i] = f a.[i].
Proof. rewrite upd_sel. by rewrite decide_True. Qed.

Lemma upd_ne i f a j : i <> j -> (upd i f a).[j] = a.[j].
Proof. intros. rewrite upd_sel. by rewrite decide_False. Qed.

Lemma upd_upd j f g a : upd j g (upd j f a) = upd j (fun p => g (f p)) a.
Proof. unfold upd. by rewrite asel_insert_eq, insert_insert_eq. Qed.

Definition same_running (a a' : arr proc) (i : Z) : Prop := p_state a'.[i] = RUNNING <-> p_state a.[i] = RUNNING.

Lemma cpu_same a a' m : (forall i, in_tab i -> same_running a a' i) -> cpu_ok a m -> cpu_ok a' m.
Proof.
  intros Hs [H1 H2 H3]. split; [|exact H2|].
  - intros c i Hc. destruct (H1 _ _ Hc) as [Hi Hr]. split; [done|]. by apply Hs.
  - intros i Hi Hr. apply H3; [done|]. by apply Hs.
Qed.

Lemma cpu_off a a' m c i : m !! c = Some i -> p_state a'.[i] <> RUNNING ->
  (forall j, in_tab j -> j <> i -> same_running a a' j) -> cpu_ok a m -> cpu_ok a' (delete c m).
Proof.
  intros Hc Hi Hs [H1 H2 H3]. split.
  - intros c' j [Hne Hj]%lookup_delete_Some. destruct (H1 _ _ Hj) as [Hrj Hr]. split; [done|]. apply Hs; [done| |done].
    intros ->. by apply Hne, (H2 _ _ i).
  - intros c1 c2 j [_ E1]%lookup_delete_Some [_ E2]%lookup_delete_Some. by apply (H2 _ _ j).
  - intros j Hj Hr. assert (j <> i) as Hji by congruence. destruct (H3 j Hj) as [c' Hc']; [by apply Hs|].
    exists c'. apply lookup_delete_Some. split; [|done]. congruence.
Qed.

Lemma cpu_on a a' m c i : m !! c = None -> in_tab i -> p_state a.[i] <> RUNNING -> p_state a'.[i] = RUNNING ->
  (forall j, in_tab j -> j <> i -> same_running a a' j) -> cpu_ok a m -> cpu_ok a' (<[c := i]> m).
Proof.
  intros Hc Hi Hn Hi' Hs [H1 H2 H3].
  assert (forall c', m !! c' <> Some i) as Hno. { intros c' Hc'. by destruct (H1 _ _ Hc'). }
  split.
  - intros c' j [[<- <-]|[Hne Hj]]%lookup_insert_Some; [done|]. destruct (H1 _ _ Hj) as [Hrj Hr]. split; [done|].
    apply Hs; [done| |done]. intros ->. by apply (Hno c').
  - intros c1 c2 j [[<- <-]|[Hn1 E1]]%lookup_insert_Some [[<- E]|[Hn2 E2]]%lookup_insert_Some; try done.
    + by destruct (Hno c2).
    + subst. by destruct (Hno c1).
    + by apply (H2 _ _ j).
  - intros j Hj Hr. destruct (decide (j = i)) as [->|Hji]; [exists c; apply lookup_insert_eq|].
    destruct (H3 j Hj) as [c' Hc']; [by apply Hs|]. exists c'. rewrite lookup_insert_ne; congruence.
Qed.

(** ** The tree *)

(** Changes of a process that keep its place in the tree. *)
Definition same_life (p p' : proc) : Prop :=
  p_parent p' = p_parent p /\ (p_state p' = p_state p \/ live p /\ live p').

Lemma same_life_refl p : same_life p p.
Proof. split; auto. Qed.

Lemma live_not_fresh p : live p -> ~ fresh p /\ p_state p <> ZOMBIE.
Proof. unfold live, fresh. destruct (p_state p); naive_solver. Qed.

Lemma same_life_live p p' : same_life p p' -> live p' <-> live p.
Proof. unfold live. intros [_ [->|[H1 H2]]]; [done|]. split; auto. Qed.

Lemma same_life_fresh p p' : same_life p p' -> fresh p' <-> fresh p.
Proof.
  unfold fresh. intros [_ [->|[H1 H2]]]; [done|]. apply live_not_fresh in H1, H2. unfold fresh in *. tauto.
Qed.

Lemma same_life_zombie p p' : same_life p p' -> p_state p' = ZOMBIE <-> p_state p = ZOMBIE.
Proof. intros [_ [->|[H1 H2]]]; [done|]. apply live_not_fresh in H1, H2. tauto. Qed.

Lemma family_same a a' init : (forall i, in_tab i -> same_life a.[i] a'.[i]) -> family a init -> family a' init.
Proof.
  intros Hs [H1 H2 H3]. split.
  - destruct H1 as (Hi & Hl & Hp). destruct (Hs _ Hi) as [E ?]. split; [done|]. split; [by apply (same_life_live _ _ (Hs _ Hi))|congruence].
  - intros i Hi Hf Hne. rewrite (same_life_fresh _ _ (Hs _ Hi)) in Hf. destruct (H2 i Hi Hf Hne) as (q & E & Hqi & Hq & Hl).
    exists q. destruct (Hs _ Hi) as [-> _]. split; [done|]. split; [done|]. split; [done|]. by apply (same_life_live _ _ (Hs _ Hq)).
  - intros i Hi Hf. destruct (Hs _ Hi) as [-> [E|[_ Hl]]]; [apply H3; congruence|].
    unfold live in Hl. rewrite Hf in Hl. naive_solver.
Qed.

(** Sleepers in [wait] were there before, or have no zombie. *)
Lemma wait_same a a' : (forall i, in_tab i -> same_life a.[i] a'.[i]) ->
  (forall i c, in_tab i -> asleep_on (Some (CProc c)) a'.[i] ->
     asleep_on (Some (CProc c)) a.[i] \/ c = i /\ forall j, in_tab j -> p_parent a.[j] = Some i -> p_state a.[j] <> ZOMBIE) ->
  wait_ok a -> wait_ok a'.
Proof.
  intros Hs Hw Ha i c Hi Hsl.
  assert (c = i /\ forall j, in_tab j -> p_parent a.[j] = Some i -> p_state a.[j] <> ZOMBIE) as [-> Hc].
  { destruct (Hw i c Hi Hsl) as [H|H]; [by apply Ha|done]. }
  split; [done|]. intros j Hj Hp Hz. rewrite (same_life_zombie _ _ (Hs _ Hj)) in Hz.
  destruct (Hs _ Hj) as [E _]. apply (Hc j Hj); congruence.
Qed.

(** A change of one entry that is not alive before. *)
Lemma family_one a a' init j : (forall k, k <> j -> a'.[k] = a.[k]) -> ~ live a.[j] ->
  (p_state a'.[j] = UNUSED -> p_parent a'.[j] = None) ->
  (~ fresh a'.[j] -> exists q, p_parent a'.[j] = Some q /\ q <> j /\ in_tab q /\ live a.[q]) ->
  family a init -> family a' init.
Proof.
  intros Hk Hn Hf Hp [(Hi & Hl & Hpi) H2 H3]. assert (init <> j) as Hij by congruence. split.
  - by rewrite !Hk.
  - intros i Hri Hfi Hne. destruct (decide (i = j)) as [->|Hd].
    + destruct (Hp Hfi) as (q & E & Hqj & Hq & Hlq). exists q. by rewrite (Hk q).
    + rewrite Hk in * by done. destruct (H2 i Hri Hfi Hne) as (q & E & Hqi & Hq & Hlq). exists q.
      assert (q <> j) by congruence. by rewrite (Hk q).
  - intros i Hri Hfi. destruct (decide (i = j)) as [->|Hd]; [auto|]. rewrite Hk in * by done. auto.
Qed.

Lemma wait_one a a' j : (forall k, k <> j -> a'.[k] = a.[k]) ->
  p_state a'.[j] <> SLEEPING -> p_state a'.[j] <> ZOMBIE -> wait_ok a -> wait_ok a'.
Proof.
  intros Hk Hns Hnz Ha i c Hi Hs. destruct (decide (i = j)) as [->|Hd]; [by destruct Hs|].
  rewrite Hk in Hs by done. destruct (Ha i c Hi Hs) as [-> Hc]. split; [done|]. intros k Hrk Hp.
  destruct (decide (k = j)) as [->|Hkj]; [done|]. rewrite Hk in * by done. auto.
Qed.

Lemma pinv_same s s' : pinv s -> pinitial s' = pinitial s -> forking s' = forking s ->
  cpu_ok (tab s') (oncpu s') ->
  (forall i, in_tab i -> same_life (tab s).[i] (tab s').[i]) ->
  (forall i c, in_tab i -> asleep_on (Some (CProc c)) (tab s').[i] -> asleep_on (Some (CProc c)) (tab s).[i] \/
     c = i /\ forall j, in_tab j -> p_parent (tab s).[j] = Some i -> p_state (tab s).[j] <> ZOMBIE) ->
  pinv s'.
Proof.
  intros [H1 H2 H3 H4] Ei Ef Hc Hs Hw. split; [done|rewrite Ei; by apply (family_same (tab s))|by apply (wait_same (tab s))|].
  rewrite Ef. intros j i Hj. destruct (H4 j i Hj) as [Hr He]. split; [done|]. destruct (Hs j Hr) as [_ [E|[Hl _]]]; [congruence|].
  unfold live in Hl. rewrite He in Hl. naive_solver.
Qed.

(** A step that only wakes processes. *)
Lemma woken_life p p' : maybe_woken p p' -> same_life p p' /\ (p_state p' = RUNNING <-> p_state p = RUNNING).
Proof.
  intros [->|[Hs ->]]; [split; [apply same_life_refl|done]|]. unfold same_life, live. cbn. rewrite Hs. naive_solver.
Qed.

Lemma pinv_woken s a : pinv s -> (forall i, in_tab i -> exists p, same_life (tab s).[i] p /\
    (p_state p = RUNNING <-> p_state (tab s).[i] = RUNNING) /\
    (forall c, asleep_on (Some c) p -> asleep_on (Some c) (tab s).[i]) /\ a.[i] = p) ->
  pinv (with_tab a s).
Proof.
  intros Hp Ha. apply (pinv_same s); [done|done|done| | |].
  - apply (cpu_same (tab s)); [|apply Hp]. intros i Hi. destruct (Ha i Hi) as (p & _ & H & _ & E). unfold same_running. cbn.
    by rewrite E.
  - intros i Hi. destruct (Ha i Hi) as (p & H & _ & _ & E). cbn. by rewrite E.
  - intros i c Hi Hs. left. destruct (Ha i Hi) as (p & _ & _ & H & E). cbn in Hs. rewrite E in Hs. auto.
Qed.

(** A running process leaves its CPU. *)
Lemma pinv_off s c i f : pinv s -> oncpu s !! c = Some i ->
  p_parent (f (tab s).[i]) = p_parent (tab s).[i] ->
  live (f (tab s).[i]) -> p_state (f (tab s).[i]) <> RUNNING ->
  (forall c, asleep_on (Some (CProc c)) (f (tab s).[i]) ->
     c = i /\ forall j, in_tab j -> p_parent (tab s).[j] = Some i -> p_state (tab s).[j] <> ZOMBIE) ->
  pinv (off_cpu c (upd i f (tab s)) s).
Proof.
  intros Hp Hc Ep Hl Hn Hw. destruct (cp_run _ _ (pv_cpu _ Hp) _ _ Hc) as [Hi Hr]. apply (pinv_same s); [done|done|done| | |]; cbn.
  - apply (cpu_off (tab s) _ _ _ i); [done|by rewrite upd_eq| |apply Hp]. intros j Hj Hne. unfold same_running. by rewrite upd_ne.
  - intros j Hj. rewrite upd_sel. destruct (decide (i = j)) as [<-|]; [|apply same_life_refl]. split; [done|]. right.
    split; [|done]. unfold live. auto.
  - intros j c' Hj Hs. rewrite upd_sel in Hs. destruct (decide (i = j)) as [<-|]; [|by left]. right. by apply Hw.
Qed.

Lemma zombie_child_some i a j : zombie_child i a = Some j -> in_tab j /\ p_parent a.[j] = Some i /\ p_state a.[j] = ZOMBIE.
Proof.
  intros (Hj & [H1 H2]%andb_true_iff & _)%find_proc_some. apply bool_decide_eq_true in H1. unfold is_state in H2.
  by apply bool_decide_eq_true in H2.
Qed.

Lemma zombie_child_none i a j : zombie_child i a = None -> in_tab j -> p_parent a.[j] = Some i -> p_state a.[j] <> ZOMBIE.
Proof.
  intros Hn Hj Hp Hz. pose proof (find_proc_none _ Hn j Hj) as H. cbn in H. unfold is_state in H.
  rewrite !bool_decide_eq_true_2 in H by done. done.
Qed.

Lemma kill_life p : same_life p (kill_proc p) /\ (p_state (kill_proc p) = RUNNING <-> p_state p = RUNNING) /\
  forall c, asleep_on c (kill_proc p) -> asleep_on c p.
Proof.
  unfold kill_proc, is_state, same_life, live, asleep_on. cbn. case_bool_decide as Hs; cbn; [rewrite Hs; naive_solver|naive_solver].
Qed.

Lemma pinv_kill s pid a : pinv s -> kill_tab pid (tab s) = Some a -> pinv (with_tab a s).
Proof.
  intros Hp. unfold kill_tab. destruct (find_proc _) as [k|] eqn:Ek; [|done]. intros [= <-]. apply (pinv_woken s); [done|].
  intros i Hi. eexists. split; [|split; [|split; [|done]]]; rewrite asel_insert; destruct (decide (k = i)) as [->|];
    try apply kill_life; try done; try apply same_life_refl. intros c. apply kill_life.
Qed.

(** The entries that [fork] and [wait] change are not those of live processes. *)
Lemma pinv_entry s j f n fk : pinv s -> in_tab j -> ~ live (tab s).[j] ->
  let p := f (tab s).[j] in
  p_state p <> SLEEPING -> p_state p <> ZOMBIE -> p_state p <> RUNNING ->
  (p_state p = UNUSED -> p_parent p = None) ->
  (~ fresh p -> exists q, p_parent p = Some q /\ q <> j /\ in_tab q /\ live (tab s).[q]) ->
  (forall k i, fk !! k = Some i -> k = j /\ p_state p = EMBRYO \/ k <> j /\ forking s !! k = Some i) ->
  pinv (mkpsys (upd j f (tab s)) n (pinitial s) (oncpu s) fk).
Proof.
  intros [H1 H2 H3 H4] Hj Hnl p Hs Hz Hr Hfr Hpa Hfk.
  assert (forall k, k <> j -> (upd j f (tab s)).[k] = (tab s).[k]) as Hk by (intros; by apply upd_ne).
  split; cbn.
  - apply (cpu_same (tab s)); [|done]. intros i Hi. unfold same_running. rewrite upd_sel. destruct (decide (j = i)) as [<-|]; [|done].
    split; [done|]. intros Hru. destruct Hnl. unfold live. auto.
  - apply (family_one (tab s) _ _ j); rewrite ?upd_eq; done.
  - apply (wait_one (tab s) _ j); rewrite ?upd_eq; done.
  - intros k i Hki. destruct (Hfk k i Hki) as [[-> He]|[Hne Hf]]; [by rewrite upd_eq|]. rewrite upd_ne by done. by apply (H4 _ i).
Qed.

(** ** [exit] *)

Lemma exited_life me init a b i : exited me init a b -> in_tab i -> i <> me ->
  (live b.[i] <-> live a.[i]) /\ (fresh b.[i] <-> fresh a.[i]) /\ (p_state b.[i] = ZOMBIE <-> p_state a.[i] = ZOMBIE) /\
  (p_state b.[i] = RUNNING <-> p_state a.[i] = RUNNING) /\ (p_state b.[i] = EMBRYO <-> p_state a.[i] = EMBRYO) /\
  p_parent b.[i] = (if decide (p_parent a.[i] = Some me) then Some init else p_parent a.[i]) /\
  forall c, asleep_on c b.[i] -> asleep_on c a.[i].
Proof.
  intros He Hi Hne. pose proof (ex_other _ _ _ _ He i Hi Hne) as Hw. unfold handed, live, fresh, asleep_on in *.
  destruct Hw as [->|[Hs ->]].
  - by case_decide.
  - case_decide; cbn in *; rewrite Hs; naive_solver.
Qed.

Section Exited.
Context (i init : Z) (a b : arr proc) (He : exited i init a b) (Hf : family a init) (Hi : in_tab i) (Hne : i <> init).

Let Hl := fun k => exited_life i init a b k He.

Lemma exit_family : ~ fresh a.[i] -> family b init.
Proof using He Hf Hi Hne.
  intros Hnfr. destruct Hf as [(Hin & Hil & Hip) Hp Hfr]. destruct (Hp i Hi Hnfr Hne) as (q & Eq & Hqi & Hq & Hql).
  destruct (ex_me _ _ _ _ He) as [Hz Hpm]. split.
  - destruct (Hl _ Hin (not_eq_sym Hne)) as (E1 & _ & _ & _ & _ & E2 & _). rewrite E1, E2, Hip. by rewrite decide_False.
  - intros j Hj Hfj Hnj. destruct (decide (j = i)) as [->|Hji].
    + exists q. rewrite Hpm. split; [done|]. split; [done|]. split; [done|]. by apply (Hl q Hq).
    + destruct (Hl j Hj Hji) as (_ & E1 & _ & _ & _ & -> & _). rewrite E1 in Hfj.
      destruct (Hp j Hj Hfj Hnj) as (r & Er & Hrj & Hrr & Hrl). destruct (decide _) as [Hd|Hd].
      * exists init. split; [done|]. split; [congruence|]. split; [done|]. by apply (Hl _ Hin (not_eq_sym Hne)).
      * exists r. split; [done|]. split; [done|]. split; [done|]. apply (Hl r Hrr); congruence.
  - intros j Hj Hfj. destruct (decide (j = i)) as [->|Hji]; [congruence|].
    destruct (Hl j Hj Hji) as (_ & E1 & _ & _ & E3 & E2 & _). rewrite E2, (Hfr j Hj); [by rewrite decide_False|].
    unfold fresh in E1. rewrite Hfj in E1, E3. naive_solver.
Qed.

Lemma exit_wait : ~ fresh a.[i] -> wait_ok a -> wait_ok b.
Proof using He Hf Hi Hne.
  intros Hnfr Ha w ch Hw Hs. destruct (fa_parent _ _ Hf i Hi Hnfr Hne) as (q & Eq & Hqi & Hq & _).
  destruct (ex_me _ _ _ _ He) as [Hz Hpm].
  destruct (decide (w = i)) as [->|Hwi]; [destruct Hs as [Hs _]; congruence|].
  destruct (Hl w Hw Hwi) as (_ & _ & _ & _ & _ & _ & Hsl). destruct (Ha w ch Hw (Hsl _ Hs)) as [-> Hno]. split; [done|].
  intros j Hj Hpj Hzj. destruct (decide (j = i)) as [->|Hji].
  - rewrite Hpm, Eq in Hpj. injection Hpj as <-. by apply (ex_parent _ _ _ _ He q).
  - destruct (Hl j Hj Hji) as (_ & _ & E1 & _ & _ & E2 & _). rewrite E1 in Hzj. rewrite E2 in Hpj. destruct (decide _) as [Hd|Hd].
    + injection Hpj as <-. by apply (ex_init _ _ _ _ He j).
    + by apply (Hno j).
Qed.

End Exited.

Lemma pinv_exit s c i : pinv s -> oncpu s !! c = Some i -> i <> pinitial s ->
  pinv (off_cpu c (exit_tab i (pinitial s) (tab s)) s).
Proof.
  intros [H1 H2 H3 H4] Hc Hni. destruct (cp_run _ _ H1 _ _ Hc) as [Hi Hr].
  assert (~ fresh (tab s).[i]) as Hnfr. { unfold fresh. rewrite Hr. naive_solver. }
  destruct (fa_parent _ _ H2 i Hi Hnfr Hni) as (q & Eq & Hqi & _).
  assert (exited i (pinitial s) (tab s) (exit_tab i (pinitial s) (tab s))) as He
    by (apply exit_tab_ok; [done|done|apply H2|congruence]).
  set (b := exit_tab i (pinitial s) (tab s)) in *. clearbody b. destruct (ex_me _ _ _ _ He) as [Hz _].
  split; cbn.
  - apply (cpu_off (tab s) _ _ _ i); [done|by rewrite Hz| |done]. intros j Hj Hne.
    by destruct (exited_life _ _ _ _ j He Hj Hne) as (_ & _ & _ & ? & _).
  - by apply (exit_family i _ (tab s)).
  - by apply (exit_wait i (pinitial s) (tab s)).
  - intros j k Hj. destruct (H4 j k Hj) as [Hrj Hej]. split; [done|]. apply (exited_life _ _ _ _ j He Hrj); congruence.
Qed.

(** ** Every step *)

Lemma pinv_step s s' : pstep s s' -> pinv s -> pinv s'.
Proof.
  intros Hst Hp. destruct Hst as [s c i Hc Hi Hr|s c i Hc|s c i a Hc|s c i Hc|s a|s pid t Hk|s c i j Hc Hz|s c i Hc Hz Hh
    |s c i j Hc Hf|s c i j Hc Hf Hpn|s c i j Hc Hf|s c i j Hc Hf Hpj|s c i Hc Hni Hnf|s c i j p Hc Hj Hij (E1 & _ & E3 & E4 & _)].
  - apply (pinv_same s); [done|done|done| | |]; cbn.
    + apply (cpu_on (tab s)); [done|done|congruence|by rewrite upd_eq| |apply Hp]. intros j Hj Hne. unfold same_running. by rewrite upd_ne.
    + intros j Hj. rewrite upd_sel. destruct (decide (i = j)) as [<-|]; [|apply same_life_refl]. unfold same_life, live. cbn. rewrite Hr. naive_solver.
    + intros j ch Hj Hs. left. rewrite upd_sel in Hs. destruct (decide (i = j)) as [<-|]; [by destruct Hs|done].
  - apply pinv_off; unfold live; cbn; auto; by intros ? [? _].
  - apply pinv_off; unfold live; cbn; auto; by intros ? [_ ?].
  - apply pinv_woken; [done|]. intros j Hj. eexists. split; [|split; [|split; [|done]]]; rewrite upd_sel; destruct (decide (i = j)) as [<-|];
      try done; try apply same_life_refl; [split; auto|]. by intros ? [_ ?].
  - apply pinv_woken; [done|]. intros j Hj. eexists. split; [|split; [|split; [|done]]]; rewrite wakeup1_sel by done;
      [apply woken_life, wakeup1_maybe..|]. intros ch. apply asleep_maybe, wakeup1_maybe.
  - by apply (pinv_kill s pid).
  - apply zombie_child_some in Hz as (Hj & Hpj & Hzj). assert (~ live (tab s).[j]) as Hnl by (unfold live; rewrite Hzj; naive_solver).
    rewrite upd_upd.
    apply (pinv_entry s); try done; [cbn; unfold fresh; cbn; naive_solver|]. intros k m Hkm. right. split; [|done].
    intros ->. destruct (pv_fork _ Hp _ _ Hkm). congruence.
  - apply pinv_off; unfold live; cbn; auto; try done. intros ch [_ E]. injection E as <-. split; [done|].
    intros j Hj. by apply zombie_child_none.
  - apply find_proc_some in Hf as (Hj & Hu & _). unfold is_state in Hu. apply bool_decide_eq_true in Hu.
    rewrite upd_upd.
    apply (pinv_entry s); try done.
    + unfold live. rewrite Hu. naive_solver.
    + unfold fresh. cbn. naive_solver.
    + intros k m [[<- <-]|[Hne Hk]]%lookup_insert_Some; [by left|by right].
  - destruct (pv_fork _ Hp _ _ Hf) as [Hj He]. apply (pinv_entry s); try done.
    + unfold live. rewrite He. naive_solver.
    + unfold fresh. cbn. naive_solver.
    + intros k m [Hne Hk]%lookup_delete_Some. by right.
  - destruct (pv_fork _ Hp _ _ Hf) as [Hj He]. apply (pinv_entry s); cbn; rewrite ?He; try done.
    + unfold live. rewrite He. naive_solver.
    + unfold fresh. cbn. rewrite He. naive_solver.
    + intros k m Hk. destruct (decide (k = j)) as [->|]; [by left|by right].
  - destruct (pv_fork _ Hp _ _ Hf) as [Hj He]. destruct (cp_run _ _ (pv_cpu _ Hp) _ _ Hc) as [Hi Hr]. apply (pinv_entry s); try done.
    + unfold live. rewrite He. naive_solver.
    + intros _. exists i. split; [done|]. split; [congruence|]. split; [done|]. unfold live. auto.
    + intros k m [Hne Hk]%lookup_delete_Some. by right.
  - by apply pinv_exit.
  - apply pinv_woken; [done|]. intros k Hk. exists (<[j := p]> (tab s)).[k]. rewrite asel_insert.
    destruct (decide (j = k)) as [<-|]; [|by split; [apply same_life_refl|]].
    split; [by split; [|left]|]. unfold asleep_on. by rewrite E1, E4.
Qed.

(** The table after [userinit]: the initial process in its first entry. *)
Record booted (s : psys) : Prop := {
  bo_init : pinitial s = 0 /\ p_state (tab s).[0] = RUNNABLE;
  bo_parent : forall i, in_tab i -> p_parent (tab s).[i] = None;
  bo_unused : forall i, in_tab i -> i <> 0 -> p_state (tab s).[i] = UNUSED;
  bo_idle : oncpu s = ∅ /\ forking s = ∅
}.

Lemma booted_pinv s : booted s -> pinv s.
Proof.
  intros [[E0 H0] Hp Hu [Ec Ef]].
  assert (forall i, in_tab i -> i = 0 /\ p_state (tab s).[i] = RUNNABLE \/ p_state (tab s).[i] = UNUSED) as Hs.
  { intros i Hi. destruct (decide (i = 0)) as [->|]; auto. }
  assert (in_tab 0) as Hr0 by (unfold in_tab, NPROC; lia). split.
  - rewrite Ec. split; [done|done|]. intros i Hi Hr. destruct (Hs i Hi) as [[_ E]|E]; congruence.
  - rewrite E0. split.
    + unfold live. auto.
    + intros i Hi Hf Hne. destruct Hf. left. auto.
    + auto.
  - intros i c Hi [Hsl _]. destruct (Hs i Hi) as [[_ E]|E]; congruence.
  - by rewrite Ef.
Qed.

Lemma pinv_steps s s' : relations.rtc pstep s s' -> booted s -> pinv s'.
Proof. intros Hr Hb%booted_pinv. induction Hr as [|s s1 s' Hst _ IH]; [done|]. by apply IH, (pinv_step s). Qed.

(** ** The functions take these steps

    [view m fk] is the table an [os] holds, beside the CPUs and the forks in
    progress. *)
Section Refine.
Context {L : Layout} {S : Type} `{TxStore S}.
Implicit Types o : os S.

Definition view (m fk : gmap Z Z) o : psys := mkpsys (procs o) (nextpid o) (default 0 (initproc o)) m fk.

(** ** Interrupts: [pushcli] and [popcli] *)

(** Interrupts are off while [ncli] is not zero. *)
Definition cli_ok (c : cpu) : Prop := ncli c <> O -> fl_if c = false.
Definition pushed (c : cpu) : cpu := mkcpu (Datatypes.S (ncli c)) (if (ncli c =? 0)%nat then fl_if c else intena c) false.
Definition popped (c : cpu) : cpu := mkcpu (pred (ncli c)) (intena c) ((pred (ncli c) =? 0)%nat && intena c).

(** [intena] matters only while [ncli] is not zero. *)
Definition same_cpu (c c' : cpu) : Prop :=
  ncli c' = ncli c /\ fl_if c' = fl_if c /\ (ncli c <> O -> intena c' = intena c).

Lemma popped_same c : cli_ok c -> same_cpu c (popped (pushed c)).
Proof.
  destruct c as [[|n] ie f]; intros Hc; [done|]. unfold cli_ok in Hc. cbn in Hc. rewrite Hc by done. done.
Qed.

Lemma wp_mycpu o (Q : cpu -> os S -> Prop) : fl_if (this_cpu o) = false -> Q (this_cpu o) o -> wp mycpu Q o.
Proof. unfold wp, mycpu. by intros ->. Qed.

Lemma wp_pushcli o (Q : unit -> os S -> Prop) : Q tt (set_cpu (pushed (this_cpu o)) o) -> wp pushcli Q o.
Proof.
  intros HQ. apply wp_bind, wp_gets. apply wp_bind, wp_modify. apply wp_bind, wp_mycpu; [done|]. unfold pushed in HQ. cbn.
  destruct (ncli (this_cpu o) =? 0)%nat.
  - apply wp_bind, wp_modify. by apply wp_bind, wp_mycpu.
  - apply wp_bind, wp_ret. by apply wp_bind, wp_mycpu.
Qed.

Lemma wp_popcli o (Q : unit -> os S -> Prop) : ncli (this_cpu o) <> O -> fl_if (this_cpu o) = false ->
  Q tt (set_cpu (popped (this_cpu o)) o) -> wp popcli Q o.
Proof.
  intros Hn Hf HQ. apply wp_bind, wp_gets. rewrite Hf. apply wp_bind, wp_mycpu; [done|]. unfold popped in HQ.
  destruct (ncli (this_cpu o)) as [|n]; [done|]. apply wp_bind, wp_modify. cbn [pred] in HQ. rewrite Hf.
  destruct ((n =? 0)%nat && _); exact HQ.
Qed.

(** The states with and without [ptable.lock]. *)
Definition got o : os S := set_plock true (set_cpu (pushed (this_cpu o)) o).
Definition gone o : os S := set_cpu (popped (this_cpu o)) (set_plock false o).

Lemma wp_pt_acquire o (Q : unit -> os S -> Prop) : plock o = false -> Q tt (got o) -> wp pt_acquire Q o.
Proof. intros Hl HQ. apply wp_bind, wp_pushcli. by apply Lock.wp_acquire. Qed.

Lemma wp_pt_release o (Q : unit -> os S -> Prop) : plock o = true -> ncli (this_cpu o) <> O -> fl_if (this_cpu o) = false ->
  Q tt (gone o) -> wp pt_release Q o.
Proof. intros Hl Hn Hf HQ. apply wp_bind, Lock.wp_release; [done|]. by apply wp_popcli. Qed.

(** A process about to enter the process table, on CPU [c]. *)
Record caller (c : Z) (m : gmap Z Z) o : Prop := {
  cl_lock : plock o = false;
  cl_cpu : m !! c = Some (me o);
  cl_tab : in_tab (me o);
  cl_cli : cli_ok (this_cpu o)
}.

Lemma wp_upd_proc i f o (Q : unit -> os S -> Prop) :
  in_tab i -> Q tt (set_procs (upd i f (procs o)) o) -> wp (upd_proc i f) Q o.
Proof.
  intros Hi HQ. unfold upd_proc, get_proc, put_proc. apply wp_bind, wp_aget; [done|]. by apply wp_aset.
Qed.

(** With [ptable.lock] and no other lock. *)
Definition only_plock o : Prop := plock o = true /\ ncli (this_cpu o) = 1%nat /\ fl_if (this_cpu o) = false.

Lemma got_only o : ncli (this_cpu o) = O -> only_plock (got o).
Proof. intros Hn. unfold only_plock. cbn. by rewrite Hn. Qed.

Lemma wp_sched o (Q : unit -> os S -> Prop) : only_plock o -> in_tab (me o) -> p_state (procs o).[me o] <> RUNNING ->
  Q tt o -> wp sched Q o.
Proof.
  intros (Hl & Hn & Hf) Hm Hr HQ. apply wp_bind, wp_gets. apply wp_bind, wp_gets. rewrite Hl. cbn [negb].
  apply wp_bind, wp_mycpu; [done|]. rewrite Hn. cbn [Nat.eqb negb]. apply wp_bind, wp_aget; [done|].
  unfold is_state. rewrite bool_decide_eq_false_2 by done. apply wp_bind, wp_gets. by rewrite Hf.
Qed.

(** The CPU [c] is given up, with [ptable.lock] and no other lock. *)
Definition switches (c : Z) (m fk : gmap Z Z) o : unit -> os S -> Prop := fun _ o' =>
  only_plock o' /\ pstep (view m fk o) (view (delete c m) fk o').

Lemma wp_yield c m fk o : caller c m o -> ncli (this_cpu o) = O -> wp yield (switches c m fk o) o.
Proof.
  intros [Hl Hc Hm _] Hn. apply wp_bind, wp_pt_acquire; [done|]. apply wp_bind, wp_gets. pose proof (got_only o Hn) as Ho.
  apply wp_bind, wp_upd_proc; [done|]. apply wp_sched; [exact Ho|done|cbn; by rewrite upd_eq|].
  split; [exact Ho|]. by apply (ps_yield (view m fk o)).
Qed.

(** [yield] inside another critical section. *)
Lemma yield_locked c m o : caller c m o -> ncli (this_cpu o) <> O -> exists o', yield o = Panic "sched locks" o'.
Proof.
  intros [Hl Hc Hm _] Hn. assert (pt_acquire o = Ret tt (got o)) as Ea.
  { apply wp_eq_ret, wp_pt_acquire; done. }
  eexists. unfold yield. eapply bind_step; [exact Ea|]. eapply bind_step; [reflexivity|].
  eapply bind_step; [apply wp_eq_ret, wp_upd_proc; [done|split; reflexivity]|]. do 2 (eapply bind_step; [reflexivity|]). cbn [plock got set_plock set_procs negb].
  eapply bind_step; [reflexivity|]. cbn. destruct (ncli (this_cpu o)); [done|]. reflexivity.
Qed.

Lemma wp_go_to_sleep ch o (Q : unit -> os S -> Prop) : only_plock o -> in_tab (me o) ->
  Q tt (set_procs (upd (me o) (go_to_sleep ch) (procs o)) o) ->
  wp (upd_proc (me o) (with_chan (Some ch)) ;;; upd_proc (me o) (with_state SLEEPING) ;;; sched) Q o.
Proof.
  intros Hl Hm HQ. apply wp_bind, wp_upd_proc; [done|]. apply wp_bind, wp_upd_proc; [done|]. cbn. rewrite upd_upd.
  apply wp_sched; [exact Hl|done|cbn; by rewrite upd_eq|exact HQ].
Qed.

(** Taking or giving up another lock does not change the table. *)
Definition keeps_table o o' : Prop :=
  plock o' = plock o /\ procs o' = procs o /\ nextpid o' = nextpid o /\ initproc o' = initproc o /\ me o' = me o.

(** [rel] gives up the only lock held beside [ptable.lock]. *)
Definition gives_up (rel : M (os S) unit) o : Prop := wp rel (fun _ o' => keeps_table o o' /\ only_plock o') o.

Lemma wp_sleep c m fk o a rel : caller c m o -> gives_up rel (got o) -> wp (sleep (CAddr a) rel) (switches c m fk o) o.
Proof.
  intros [Hl Hc Hm _] Hrel. apply wp_bind, wp_pt_acquire; [done|]. apply wp_bind. eapply wp_mono; [|exact Hrel].
  intros _ o' [(E1 & E2 & E3 & E4 & E5) Ho]. cbn in *. apply wp_bind, wp_gets. apply wp_go_to_sleep; [done|congruence|].
  split; [exact Ho|]. rewrite E5. unfold view. cbn. rewrite E2, E3, E4. by apply (ps_sleep (view m fk o)).
Qed.

(** Nothing has changed but, with no lock held, [intena]. *)
Definition unchanged o o' : Prop := o' = set_cpu (this_cpu o') o /\ same_cpu (this_cpu o) (this_cpu o').

Lemma unchanged_got c m o : caller c m o -> unchanged o (gone (got o)).
Proof. intros [Hl _ _ Hc]. split; [destruct o; cbn in *; by subst|by apply popped_same]. Qed.

Lemma wp_wait_idle c m fk o : caller c m o -> ncli (this_cpu o) = O -> zombie_child (me o) (procs o) = None ->
  wp wait (fun r o' => match r with
                       | None => switches c m fk o tt o'
                       | Some v => v = -1 /\ unchanged o o' /\ (has_child (me o) (procs o) = false \/ p_killed (myproc o) = true)
                       end) o.
Proof.
  intros Hcl Hn Hz. destruct Hcl as [Hl Hc Hm Hok] eqn:Ecl. clear Ecl. pose proof (got_only o Hn) as Ho.
  apply wp_bind, wp_gets. apply wp_bind, wp_pt_acquire; [done|]. apply wp_bind, wp_gets.
  cbn [procs set_plock set_cpu got]. rewrite Hz. apply wp_bind, wp_aget; [done|]. destruct (negb _ || _) eqn:E.
  - apply wp_bind, wp_pt_release; [done..|]. apply wp_ret. split; [done|]. split; [by apply (unchanged_got c m)|].
    apply orb_true_iff in E as [E|E]; [left; by destruct (has_child _ _)|by right].
  - apply orb_false_iff in E as [E _]. apply wp_seq3, (wp_go_to_sleep _ (got o)); [exact Ho|done|]. apply wp_ret.
    split; [exact Ho|]. apply (ps_wait (view m fk o)); [done|done|]. cbn. by destruct (has_child _ _).
Qed.

(** The caller goes on running. *)
Definition stays (m fk : gmap Z Z) o o' : Prop :=
  plock o' = false /\ same_cpu (this_cpu o) (this_cpu o') /\ pstep (view m fk o) (view m fk o').

Lemma wp_wakeup c m fk o a : caller c m o -> wp (wakeup (CAddr a)) (fun _ => stays m fk o) o.
Proof.
  intros [Hl Hc Hm Hok]. apply wp_bind, wp_pt_acquire; [done|]. apply wp_bind, wp_modify.
  apply wp_pt_release; [done..|]. split; [done|]. split; [by apply popped_same|]. apply (ps_wakeup (view m fk o)).
Qed.

Lemma wp_kill c m fk o pid : caller c m o ->
  wp (kill pid) (fun r o' => r = 0 /\ stays m fk o o' \/ r = -1 /\ unchanged o o' /\ forall i, in_tab i -> p_pid (procs o).[i] <> pid) o.
Proof.
  intros Hcl. destruct Hcl as [Hl Hc Hm Hok] eqn:Ecl. clear Ecl. apply wp_bind, wp_pt_acquire; [done|]. apply wp_bind, wp_gets.
  cbn [procs set_plock set_cpu got]. destruct (kill_tab pid (procs o)) as [t|] eqn:E.
  - apply wp_bind, wp_modify. apply wp_bind, wp_pt_release; [done..|]. apply wp_ret. left. split; [done|]. split; [done|].
    split; [by apply popped_same|]. by apply (ps_kill (view m fk o) pid).
  - apply wp_bind, wp_pt_release; [done..|]. apply wp_ret. right. split; [done|]. split; [by apply (unchanged_got c m)|].
    unfold kill_tab in E. destruct (find_proc _) eqn:Ef; [done|]. intros i Hi. pose proof (find_proc_none _ Ef i Hi). cbn in *. lia.
Qed.

Lemma wp_exit_last c m fk o init : caller c m o -> ncli (this_cpu o) = O ->
  initproc o = Some init -> init <> me o -> in_tab init ->
  p_parent (myproc o) <> Some (me o) -> (forall j, fk !! j <> Some (me o)) ->
  wp (exit_last (me o) (initproc o)) (switches c m fk o) o.
Proof.
  intros [Hl Hc Hm _] Hn Ei Hni Hri Hps Hfk. pose proof (got_only o Hn) as Ho.
  apply wp_bind, wp_pt_acquire; [done|]. apply wp_bind, wp_modify. rewrite Ei.
  pose proof (exit_tab_ok (me o) init (procs o) (not_eq_sym Hni) Hm Hri Hps) as [[Hz _] _ _ _].
  assert (pstep (view m fk o) (off_cpu c (exit_tab (me o) init (procs o)) (view m fk o))) as Hst.
  { pose proof (ps_exit (view m fk o) c (me o)) as H1. unfold view in H1 at 2 5. cbn in H1. rewrite Ei in H1. by apply H1. }
  cbn [default]. apply wp_sched; [exact Ho|done| |].
  - change (p_state (exit_tab (me o) init (procs o)).[me o] <> RUNNING). by rewrite Hz.
  - split; [exact Ho|exact Hst].
Qed.

(** [wait] with a zombie child, when the pages of the child are freed. *)
Lemma wp_wait_reap c m fk o j k1 k2 : caller c m o -> zombie_child (me o) (procs o) = Some j ->
  kfree (p_kstack (procs o).[j]) (pages (fl o)) = Ret tt k1 -> freevm (p_pgdir (procs o).[j]) k1 = Ret tt k2 ->
  wp wait (fun r o' => r = Some (p_pid (procs o).[j]) /\ pages (fl o') = k2 /\ stays m fk o o') o.
Proof.
  intros [Hl Hc Hm Hok] Hz Hk1 Hk2. destruct (zombie_child_some _ _ _ Hz) as (Hj & _).
  apply wp_bind, wp_gets. apply wp_bind, wp_pt_acquire; [done|]. apply wp_bind, wp_gets.
  cbn [procs set_plock set_cpu got]. rewrite Hz. apply wp_bind, wp_aget; [done|]. cbn [procs set_plock set_cpu got].
  apply wp_bind, wp_zoom, (wp_of_eq _ _ _ _ _ Hk1). apply wp_bind, wp_upd_proc; [done|].
  apply wp_bind, wp_zoom, (wp_of_eq _ _ _ _ _ Hk2). apply wp_bind, wp_upd_proc; [done|].
  apply wp_bind, wp_pt_release; [done..|]. apply wp_ret. split; [done|]. split; [done|]. split; [done|].
  split; [by apply popped_same|]. by apply (ps_reap (view m fk o) c (me o)).
Qed.

(** ** The scheduler gives the CPU, and the process goes on *)

Lemma wp_dispatch c m fk o i : m !! c = None -> in_tab i -> p_state (procs o).[i] = RUNNABLE ->
  p_kstack (procs o).[i] <> 0 -> p_pgdir (procs o).[i] <> 0 ->
  wp (dispatch i) (fun _ o' => me o' = i /\ cr3 o' = V2P (p_pgdir (procs o).[i]) /\
    plock o' = plock o /\ this_cpu o' = this_cpu o /\ pstep (view m fk o) (view (<[c := i]> m) fk o')) o.
Proof.
  intros Hc Hi Hr Hk Hp. apply wp_bind, wp_aget; [done|]. unfold is_state. rewrite bool_decide_eq_true_2 by done. cbn [negb].
  apply wp_bind, wp_modify, wp_bind, wp_bind, wp_aget; [done|]. cbn [procs set_me].
  rewrite (proj2 (Z.eqb_neq _ _) Hk), (proj2 (Z.eqb_neq _ _) Hp). apply wp_modify, wp_upd_proc; [done|].
  repeat (split; [done|]). by apply (ps_dispatch (view m fk o)).
Qed.

(** A process that the scheduler has given the CPU [c], inside [sched]. *)
Record resumed (c : Z) (m : gmap Z Z) o : Prop := {
  rs_lock : only_plock o;
  rs_cpu : m !! c = Some (me o);
  rs_tab : in_tab (me o)
}.

(** Back outside, with interrupts as they were before the process took the lock. *)
Definition outside (ie : bool) o : Prop := plock o = false /\ ncli (this_cpu o) = O /\ fl_if (this_cpu o) = ie.

Lemma wp_sched_back ie o (Q : unit -> os S -> Prop) : only_plock o -> Q tt (set_cpu (mkcpu 1 ie false) o) -> wp (sched_back ie) Q o.
Proof. intros (_ & Hn & Hf) HQ. apply wp_bind, wp_mycpu; [done|]. by rewrite Hn, Hf. Qed.

Lemma wp_yielded c m ie o : resumed c m o ->
  wp (yielded ie) (fun _ o' => outside ie o' /\ forall fk, view m fk o' = view m fk o) o.
Proof.
  intros [Ho Hc Hm]. apply wp_bind, wp_sched_back; [done|]. destruct Ho as (Hl & _). by apply wp_pt_release.
Qed.

Lemma wp_awoken c m fk ie re o : resumed c m o ->
  (forall o1, outside ie o1 -> wp re (fun _ => keeps_table o1) o1) ->
  wp (awoken ie re) (fun _ o' => plock o' = false /\ pstep (view m fk o) (view m fk o')) o.
Proof.
  intros [Ho Hc Hm] Hre. apply wp_bind, wp_sched_back; [done|]. destruct Ho as (Hl & _). apply wp_bind, wp_gets.
  apply wp_bind, wp_upd_proc; [done|]. apply wp_bind, wp_pt_release; [done..|].
  eapply wp_mono; [|apply Hre; done]. intros _ o' (E1 & E2 & E3 & E4 & E5). split; [done|].
  unfold view. rewrite E2, E3, E4. by apply (ps_awoken (view m fk o) c).
Qed.
End Refine.

(** ** Properties *)

(** C21: A process is [RUNNING] exactly when a CPU runs it, and no two CPUs
    run the same process, after any sequence of scheduler choices and of the
    table changes of [proc.c]. *)
Theorem running_one_cpu s0 s i : booted s0 -> relations.rtc pstep s0 s -> in_tab i ->
  (p_state (tab s).[i] = RUNNING <-> exists c, oncpu s !! c = Some i) /\
  forall c c', oncpu s !! c = Some i -> oncpu s !! c' = Some i -> c = c'.
Proof.
  intros Hb Hr Hi. destruct (pv_cpu _ (pinv_steps _ _ Hr Hb)) as [H1 H2 H3]. split; [split|].
  - by apply H3.
  - intros [c Hc]. apply (H1 _ _ Hc).
  - intros c c' Hc Hc'. by apply (H2 _ _ i).
Qed.

(** C20: Every zombie is reaped if its parent asks: the parent is a live
    process, it is not asleep in [wait] (no wakeup of [exit] is lost, whether
    the parent is the one that forked the child or the initial process that
    adopted it), and the scan of [wait] finds a zombie for it. *)
Theorem zombie_reapable s0 s j : booted s0 -> relations.rtc pstep s0 s -> in_tab j -> p_state (tab s).[j] = ZOMBIE ->
  exists q, p_parent (tab s).[j] = Some q /\ in_tab q /\ live (tab s).[q] /\
    (forall c, ~ asleep_on (Some (CProc c)) (tab s).[q]) /\ zombie_child q (tab s) <> None.
Proof.
  intros Hb Hr Hj Hz. destruct (pinv_steps _ _ Hr Hb) as [_ H2 H3 _].
  assert (j <> pinitial s) as Hne. { intros ->. destruct (fa_init _ _ H2) as (_ & Hl & _). by apply live_not_fresh in Hl as [_ Hl]. }
  destruct (fa_parent _ _ H2 j Hj) as (q & Ep & Hqj & Hq & Hl); [unfold fresh; rewrite Hz; naive_solver|done|].
  exists q. split; [done|]. split; [done|]. split; [done|]. split.
  - intros c Hs. destruct (H3 q c Hq Hs) as [_ Hn]. by apply (Hn j).
  - intros Hn. by apply (zombie_child_none q (tab s) j).
Qed.

(** C22: The functions of [proc.c] change the table by these steps.  Run by a
    process that has the CPU, with [ptable.lock] free, [yield], the last part of
    [exit] and [wait] with nothing to reap (no lock held), [sleep] (its lock the
    only one held), [wakeup], [kill] and [wait] with a child to reap (whatever
    locks are held) return, or get past all the checks of [sched] and switch to
    the scheduler with [ptable.lock] as the only lock held and interrupts off,
    and the table before and after is related by a step.  A call that returns
    leaves the nesting of [pushcli] and the interrupt flag as they were.  [yield]
    with another lock held panics in [sched].  The scheduler gives the CPU to a
    runnable process by a step, and the process goes on in [yield] or [sleep] by
    giving up [ptable.lock], with the interrupts it had. *)
Theorem table_ops_refine {L : Layout} {S : Type} `{TxStore S} c m fk (o : os S) :
  (caller c m o ->
    (ncli (this_cpu o) = O -> wp yield (switches c m fk o) o) /\
    (ncli (this_cpu o) <> O -> exists o', yield o = Panic "sched locks" o') /\
    (forall a rel, gives_up rel (got o) -> wp (sleep (CAddr a) rel) (switches c m fk o) o) /\
    (forall a, wp (wakeup (CAddr a)) (fun _ => stays m fk o) o) /\
    (forall pid, wp (kill pid) (fun r o' => r = 0 /\ stays m fk o o' \/
       r = -1 /\ unchanged o o' /\ forall i, in_tab i -> p_pid (procs o).[i] <> pid) o) /\
    (forall init, ncli (this_cpu o) = O -> initproc o = Some init -> init <> me o -> in_tab init ->
       p_parent (myproc o) <> Some (me o) -> (forall j, fk !! j <> Some (me o)) ->
       wp (exit_last (me o) (initproc o)) (switches c m fk o) o) /\
    (ncli (this_cpu o) = O -> zombie_child (me o) (procs o) = None ->
       wp wait (fun r o' => match r with
                            | None => switches c m fk o tt o'
                            | Some v => v = -1 /\ unchanged o o' /\ (has_child (me o) (procs o) = false \/ p_killed (myproc o) = true)
                            end) o) /\
    (forall j k1 k2, zombie_child (me o) (procs o) = Some j ->
       kfree (p_kstack (procs o).[j]) (pages (fl o)) = Ret tt k1 -> freevm (p_pgdir (procs o).[j]) k1 = Ret tt k2 ->
       wp wait (fun r o' => r = Some (p_pid (procs o).[j]) /\ pages (fl o') = k2 /\ stays m fk o o') o)) /\
  (forall i, m !! c = None -> in_tab i -> p_state (procs o).[i] = RUNNABLE ->
    p_kstack (procs o).[i] <> 0 -> p_pgdir (procs o).[i] <> 0 ->
    wp (dispatch i) (fun _ o' => me o' = i /\ cr3 o' = V2P (p_pgdir (procs o).[i]) /\
      plock o' = plock o /\ this_cpu o' = this_cpu o /\ pstep (view m fk o) (view (<[c := i]> m) fk o')) o) /\
  (resumed c m o -> forall ie,
    wp (yielded ie) (fun _ o' => outside ie o' /\ forall fk, view m fk o' = view m fk o) o /\
    forall re, (forall o1, outside ie o1 -> wp re (fun _ => keeps_table o1) o1) ->
      wp (awoken ie re) (fun _ o' => plock o' = false /\ pstep (view m fk o) (view m fk o')) o).
Proof.
  split; [|split; [intros; by apply wp_dispatch|intros Hr ie; split; [by apply (wp_yielded c)|intros; by eapply (wp_awoken c)]]].
  intros Hc. split; [by apply wp_yield|]. split; [by apply (yield_locked c m)|]. split; [by intros; apply wp_sleep|].
  split; [intros; by apply (wp_wakeup c)|]. split; [intros; by apply (wp_kill c)|]. split; [intros; by eapply wp_exit_last|].
  split; [by apply wp_wait_idle|]. intros; by eapply (wp_wait_reap c).
Qed.

(** [kill(0)] finds an unused entry, whose pid is 0, and marks it; [allocproc]
    does not clear the mark, so the next process that gets the entry starts
    killed. *)
Lemma kill_zero_marks_unused a i n :
  find_proc (fun k => p_pid a.[k] =? 0) = Some i -> p_state a.[i] = UNUSED ->
  exists a', kill_tab 0 a = Some a' /\ p_state a'.[i] = UNUSED /\
    p_killed (upd i (with_pid n) (upd i (with_state EMBRYO) a')).[i] = true.
Proof.
  intros Hf Hs. unfold kill_tab. rewrite Hf. eexists. split; [done|]. rewrite upd_upd, upd_eq, asel_insert_eq.
  unfold kill_proc, is_state. cbn. rewrite bool_decide_eq_false_2 by congruence. done.
Qed.

(** ** Witnesses *)

(** The initial process forks a child on one CPU and waits; the child exits on
    another. *)
Definition w_boot : psys := mkpsys (<[0 := with_state RUNNABLE (with_pid 1 czero)]> ∅) 2 0 ∅ ∅.
Definition w_on (c i : Z) (s : psys) : psys :=
  mkpsys (upd i (with_state RUNNING) (tab s)) (npid s) (pinitial s) (<[c := i]> (oncpu s)) (forking s).
Definition w_fork : psys :=
  let s := w_on 0 0 w_boot in
  mkpsys (upd 1 (with_pid (npid s)) (upd 1 (with_state EMBRYO) (tab s))) (i32 (npid s + 1)) (pinitial s)
    (oncpu s) (<[1 := 0]> (forking s)).
Definition w_child : psys :=
  w_on 1 1 (mkpsys (upd 1 (with_state RUNNABLE) (upd 1 (with_parent (Some 0)) (tab w_fork))) (npid w_fork) (pinitial w_fork)
    (oncpu w_fork) (delete 1 (forking w_fork))).
Definition w_waiting : psys := off_cpu 0 (upd 0 (go_to_sleep (CProc 0)) (tab w_child)) w_child.
Definition w_zombie : psys := off_cpu 1 (exit_tab 1 0 (tab w_waiting)) w_waiting.

Lemma w_booted : booted w_boot.
Proof.
  split; [done| | |done]; intros i Hi; cbn; rewrite asel_insert; by case_decide.
Qed.

Lemma w_child_run : relations.rtc pstep w_boot w_child.
Proof.
  eapply rtc_l; [apply (ps_dispatch _ 0 0); [done|by compute|done]|].
  eapply rtc_l; [apply (ps_alloc _ 0 0 1); [done|vm_compute; reflexivity]|].
  eapply rtc_l; [apply (ps_parent _ 0 0 1); done|].
  eapply rtc_l; [apply (ps_start _ 0 0 1); [done|done|by vm_compute]|]. apply rtc_once.
  apply (ps_dispatch _ 1 1); [done|by compute|by vm_compute].
Qed.

Lemma w_zombie_run : relations.rtc pstep w_boot w_zombie.
Proof.
  etransitivity; [apply w_child_run|].
  eapply rtc_l; [apply (ps_wait _ 0 0); [done|vm_compute; reflexivity|vm_compute; reflexivity]|]. apply rtc_once.
  apply (ps_exit w_waiting 1 1); [done|done|]. intros j. cbn. by rewrite delete_insert_eq.
Qed.

Lemma running_one_cpu_witness : p_state (tab w_child).[1] = RUNNING /\ exists c, oncpu w_child !! c = Some 1.
Proof.
  assert (p_state (tab w_child).[1] = RUNNING) as E by (vm_compute; reflexivity). split; [exact E|].
  apply (running_one_cpu w_boot w_child 1 w_booted w_child_run); [by compute|exact E].
Defined.

Lemma zombie_reapable_witness : exists q, p_parent (tab w_zombie).[1] = Some q /\ live (tab w_zombie).[q] /\
  zombie_child q (tab w_zombie) <> None.
Proof.
  destruct (zombie_reapable w_boot w_zombie 1 w_booted w_zombie_run) as (q & H1 & _ & H2 & _ & H3);
    [by compute|vm_compute; reflexivity|]. exists q. auto.
Defined.

Section SmallOs.
#[local] Existing Instance sample_layout.

(** The child of [w_child] runs. *)
Definition small_os : os (lst bst) :=
  mkos false (tab w_child) 3 (Some 0) 1 0 small_files (sample free5) false (mkcpu 0 false true).

Lemma small_caller : caller 1 (oncpu w_child) small_os.
Proof. split; [reflexivity|reflexivity|split; [discriminate|reflexivity]|]. intros Hn. by destruct Hn. Qed.

(** The same process inside [sys_sleep], with [tickslock]. *)
Definition ticking_os : os (lst bst) := set_cpu (mkcpu 1 true false) (set_tickslock true small_os).

Lemma ticking_caller : caller 1 (oncpu w_child) ticking_os.
Proof. split; [reflexivity|reflexivity|split; [discriminate|reflexivity]|]. by intros _. Qed.

Lemma table_ops_refine_witness : wp yield (switches 1 (oncpu w_child) ∅ small_os) small_os /\
  wp (exit_last 1 (Some 0)) (switches 1 (oncpu w_child) ∅ small_os) small_os /\
  wp (sleep (CAddr 7) (os_release tickslock set_tickslock)) (switches 1 (oncpu w_child) ∅ ticking_os) ticking_os.
Proof.
  destruct (proj1 (table_ops_refine 1 (oncpu w_child) ∅ small_os) small_caller) as (H1 & _ & _ & _ & _ & H2 & _).
  split; [exact (H1 eq_refl)|]. split.
  - refine (H2 0 eq_refl eq_refl _ _ _ _); [discriminate|split; [discriminate|reflexivity]|vm_compute; discriminate|].
    intros j. rewrite lookup_empty. discriminate.
  - destruct (proj1 (table_ops_refine 1 (oncpu w_child) ∅ ticking_os) ticking_caller) as (_ & _ & H3 & _). apply H3.
    apply wp_bind, Lock.wp_release; [reflexivity|]. apply wp_popcli; [discriminate|reflexivity|]. by repeat split.
Defined.

End SmallOs.
