(* ===== verification/ProcFork.v ===== *)
(** * Processes: [fork] takes the steps of [ProcSteps]

    [fork] works on the entry of the child outside [ptable.lock], between the
    steps that take the entry, give it a parent and start it.  The calls it
    makes on memory, files and shared memory change no field of the table that
    another process reads, whatever they do to their own state: that follows
    from the part of the state they run on. *)

From stdpp Require Import base tactics numbers gmap strings list sets relations.
From Stdlib Require Import ZArith Lia.
From S2P Require Import Prelude Mmu Memory Spinlock Kalloc Vm Shm Sleeplock Cache Log Store Fs Pipe File Proc ProcSteps.

(** ** What a run that returns keeps *)

Definition keeps {S A} (I : S -> Prop) (k : M S A) : Prop := forall s a s', I s -> k s = Ret a s' -> I s'.

Create HintDb keeps.

Section Keeps.
Context {S : Type} (I : S -> Prop).

Lemma keeps_bind {A B} (c : M S A) (k : A -> M S B) : keeps I c -> (forall a, keeps I (k a)) -> keeps I (bind c k).
Proof. intros Hc Hk s b s' Hs (a & s1 & E1 & E2)%bind_inv. eapply Hk; [|exact E2]. by eapply Hc. Qed.

Lemma keeps_ret {A} (a : A) : keeps I (ret a).
Proof. by intros s b s' Hs [= <- <-]. Qed.

Lemma keeps_gets {A} (f : S -> A) : keeps I (gets f).
Proof. by intros s b s' Hs [= <- <-]. Qed.

Lemma keeps_undef {A} : keeps I (undef : M S A).
Proof. by intros s b s' Hs E. Qed.

Lemma keeps_aget {A} `{CZero A} n (f : S -> arr A) i : keeps I (aget n f i).
Proof. intros s a s' Hs E. unfold aget in E. destruct (_ && _); by simplify_eq. Qed.

Lemma keeps_for_up lo hi (body : Z -> M S unit) : (forall i, keeps I (body i)) -> keeps I (for_up lo hi body).
Proof.
  intros Hb. unfold for_up. generalize (Z.to_nat (hi - lo)) as n. intros n. revert lo.
  induction n as [|n IH]; intros lo; [apply keeps_ret|]. apply keeps_bind; [apply Hb|]. intros _. apply IH.
Qed.

Lemma keeps_iter {A B} n (body : A -> M S (A + B)) a : (forall a, keeps I (body a)) -> keeps I (iter n body a).
Proof.
  intros Hb. revert a. induction n as [|n IH]; intros a; [by intros s b s' Hs E|]. apply keeps_bind; [apply Hb|].
  intros [a'|b]; [apply IH|apply keeps_ret].
Qed.

End Keeps.

#[export] Hint Resolve keeps_bind keeps_ret keeps_gets keeps_undef keeps_aget keeps_for_up keeps_iter : keeps.

(** ** The calls that do not touch the table *)

Section Fork.
Context {L : Layout} {S : Type} `{TxStore S} (trapret forkret c : Z) (m fk : gmap Z Z).

Definition quiet {A} (k : M (os S) A) : Prop := forall s a s', k s = Ret a s' ->
  procs s' = procs s /\ nextpid s' = nextpid s /\ initproc s' = initproc s /\ me s' = me s.

Lemma quiet_mem {A} (k : M kst A) : quiet (zoom mem_lens k).
Proof. intros s a s' E. unfold zoom in E. destruct (k _); by simplify_eq. Qed.
Lemma quiet_files {A} (k : M (flst S) A) : quiet (zoom files_lens k).
Proof. intros s a s' E. unfold zoom in E. destruct (k _); by simplify_eq. Qed.
Lemma quiet_fs {A} (k : M (fsst S) A) : quiet (zoom fs_lens k).
Proof. intros s a s' E. unfold zoom in E. destruct (k _); by simplify_eq. Qed.

Lemma quiet_bind {A B} (k : M (os S) A) (h : A -> M (os S) B) : quiet k -> (forall a, quiet (h a)) -> quiet (bind k h).
Proof.
  intros Hk Hh s b s' (a & s1 & E1 & E2)%bind_inv. apply Hk in E1 as (<- & <- & <- & <-). by apply Hh in E2.
Qed.
Lemma quiet_modify f : (forall s, procs (f s) = procs s /\ nextpid (f s) = nextpid s /\ initproc (f s) = initproc s /\ me (f s) = me s) ->
  quiet (modify f).
Proof. intros Hf s a s' [= _ <-]. apply Hf. Qed.
Lemma quiet_ret {A} (a : A) : quiet (ret a).
Proof. by intros s b s' [= <- <-]. Qed.
Lemma quiet_gets {A} (f : os S -> A) : quiet (gets f).
Proof. by intros s b s' [= <- <-]. Qed.
Lemma quiet_mycpu : quiet mycpu.
Proof. intros s a s' E. unfold mycpu in E. destruct (fl_if _); by simplify_eq. Qed.
Lemma quiet_panic {A} e : quiet (panic e : M (os S) A).
Proof. by intros s b s' E. Qed.

Lemma quiet_acquire : quiet pt_acquire.
Proof.
  apply quiet_bind.
  - repeat (apply quiet_bind; [|intros ?]); try apply quiet_gets; try apply quiet_mycpu; try by apply quiet_modify.
    unfold when. destruct (_ =? _)%nat; [by apply quiet_modify|apply quiet_ret].
  - intros _ s a s' E. unfold Lock.acquire in E. destruct (plock s); by simplify_eq.
Qed.

Lemma quiet_release : quiet pt_release.
Proof.
  apply quiet_bind.
  - intros s a s' E. unfold Lock.release in E. destruct (plock s); by simplify_eq.
  - intros _. apply quiet_bind; [apply quiet_gets|]. intros e. destruct (fl_if e); [apply quiet_panic|].
    apply quiet_bind; [apply quiet_mycpu|]. intros d. destruct (ncli d); [apply quiet_panic|].
    apply quiet_bind; [by apply quiet_modify|]. intros _. unfold when. destruct (_ && _); [by apply quiet_modify|apply quiet_ret].
Qed.

Lemma upd_proc_inv i f (s : os S) a s' : upd_proc i f s = Ret a s' -> in_tab i /\ s' = set_procs (upd i f (procs s)) s.
Proof.
  intros (x & s1 & E1 & E2)%bind_inv. unfold get_proc, aget, put_proc, aset in *. destruct (_ && _) eqn:Ei; simplify_eq.
  split; [unfold in_tab; lia|done].
Qed.

(** ** A child in the making *)

(** The caller [i], on CPU [c], has taken the entry [np], whose parent is [q]. *)
Record building (s0 : psys) (i np : Z) (q : option Z) (s : os S) : Prop := {
  bl_steps : relations.rtc pstep s0 (view m (<[np := i]> fk) s);
  bl_me : me s = i /\ m !! c = Some i /\ in_tab i;
  bl_child : in_tab np;
  bl_parent : p_parent (procs s).[np] = q
}.

Section Building.
Context (s0 : psys) (i np : Z).

Lemma building_quiet {A} q (k : M (os S) A) : quiet k -> keeps (building s0 i np q) k.
Proof.
  intros Hk s a s' [H1 H2 H3 H4] E. apply Hk in E as (E1 & E2 & E3 & E4).
  split; unfold view; rewrite ?E1, ?E2, ?E3, ?E4; done.
Qed.

Lemma building_private q j f s : building s0 i np q s -> in_tab j -> j = i \/ j = np -> (forall p, same_public p (f p)) ->
  building s0 i np q (set_procs (upd j f (procs s)) s).
Proof.
  intros [H1 H2 H3 H4] Hj Hij Hf. split; [|done|done|].
  - eapply rtc_r; [exact H1|]. assert (j = i \/ (<[np := i]> fk) !! j = Some i) as Hij'.
    { destruct Hij as [?|?]; subst j; [by left|right; apply lookup_insert_eq]. }
    exact (ps_private (view m (<[np := i]> fk) s) c i j (f (procs s).[j]) (proj1 (proj2 H2)) Hj Hij' (Hf _)).
  - cbn. rewrite upd_sel. destruct (decide (j = np)) as [->|]; [|done]. rewrite <- H4. apply Hf.
Qed.

Lemma building_upd q f : (forall p, same_public p (f p)) -> keeps (building s0 i np q) (upd_proc np f).
Proof. intros Hf s a s' Hb [Hj ->]%upd_proc_inv. apply building_private; auto. Qed.

Lemma building_shm {A} q (k : M shst A) : keeps (building s0 i np q) (zoom shm_lens k).
Proof.
  intros s a s' Hb E. unfold zoom in E. destruct (k _) as [x g| | |]; simplify_eq.
  destruct (bl_me _ _ _ _ _ Hb) as (Hm & _ & Hi).
  set (s1 := set_fl (lset pages_lens (km g) (fl s)) (set_shg g s)).
  assert (building s0 i np q s1) as Hb1 by (destruct Hb; by split).
  assert (building s0 i np q (set_procs (upd (me s) (with_shmsegs (shmsegs (cur g))) (procs s1)) s1)) as Hb2
    by (rewrite Hm; apply building_private; auto; by repeat split).
  exact Hb2.
Qed.

End Building.

#[local] Hint Resolve quiet_mem quiet_files quiet_fs quiet_acquire quiet_release : keeps.
#[local] Hint Extern 1 (keeps (building _ _ _ _) (upd_proc _ _)) => apply building_upd; intros; by repeat split : keeps.
#[local] Hint Extern 1 (keeps _ (zoom shm_lens _)) => apply building_shm : keeps.
#[local] Hint Extern 2 (keeps (building _ _ _ _) _) => apply building_quiet : keeps.

(** ** The parts of [fork] *)

Lemma fork_shm_keeps s0 i np q : keeps (building s0 i np q) (fork_shm np).
Proof.
  apply keeps_bind; [auto with keeps|]. intros me. apply keeps_bind; [apply keeps_aget|]. intros x. destruct (2 <? p_pid x).
  - apply keeps_iter. intros [k last]. destruct (negb (k <? SHMMAXSEG)); [apply keeps_ret|]. apply keeps_bind; [|intros; apply keeps_ret].
    unfold fork_shm_step. apply keeps_bind; [auto with keeps|]. intros ?. apply keeps_bind; [apply keeps_aget|]. intros y.
    apply keeps_bind; [auto with keeps|]. intros _. destruct (_ || _); [apply keeps_ret|].
    apply keeps_bind; [apply keeps_aget|]. intros z. apply keeps_bind; [auto with keeps|]. intros _. apply keeps_ret.
  - apply keeps_for_up. intros k. auto with keeps.
Qed.

(** The child, made but for the start. *)
Lemma fork_files_keeps s0 i np q (x : proc) : keeps (building s0 i np q)
  (for_up 0 NOFILE (fun k => match (p_ofile x).[k] with
     | None => ret tt
     | Some f => let* f := zoom files_lens (filedup f) in upd_proc np (fun y => with_ofile (<[k := Some f]> (p_ofile y)) y)
     end)).
Proof.
  apply keeps_for_up. intros k. destruct (p_ofile x).[k]; [|apply keeps_ret]. apply keeps_bind; [auto with keeps|]. auto with keeps.
Qed.

(** The steps that take the entry, fill it, give it up, give it a parent and
    start it. *)
Lemma building_alloc s i np : me s = i -> m !! c = Some i -> in_tab i ->
  find_proc (fun k => is_state UNUSED (procs s).[k]) = Some np ->
  building (view m fk s) i np (p_parent (procs s).[np])
    (set_nextpid (i32 (nextpid s + 1)) (set_procs (upd np (with_pid (nextpid s)) (upd np (with_state EMBRYO) (procs s))) s)).
Proof.
  intros Hm Hc Hi Hf. apply find_proc_some in Hf as Hnp. destruct Hnp as (Hnp & _). split; [|done|done|].
  - apply rtc_once. by apply (ps_alloc (view m fk s) c i np).
  - cbn. by rewrite upd_upd, upd_eq.
Qed.

Lemma building_giveup s0 i np s : fk !! np = None -> building s0 i np None s ->
  relations.rtc pstep s0 (view m fk (set_procs (upd np (with_state UNUSED) (procs s)) s)).
Proof.
  intros Hn [H1 (_ & Hc & _) H3 H4]. eapply rtc_r; [exact H1|].
  pose proof (ps_giveup (view m (<[np := i]> fk) s) c i np Hc) as Hs. cbn in Hs. rewrite lookup_insert_eq, delete_insert_id in Hs by done.
  by apply Hs.
Qed.

Lemma building_start s0 i np s : fk !! np = None -> building s0 i np (Some i) s ->
  relations.rtc pstep s0 (view m fk (set_procs (upd np (with_state RUNNABLE) (procs s)) s)).
Proof.
  intros Hn [H1 (_ & Hc & _) H3 H4]. eapply rtc_r; [exact H1|].
  pose proof (ps_start (view m (<[np := i]> fk) s) c i np Hc) as Hs. cbn in Hs. rewrite lookup_insert_eq, delete_insert_id in Hs by done.
  by apply Hs.
Qed.

Lemma building_adopt s0 i np q s : building s0 i np q s ->
  building s0 i np (Some i) (set_procs (upd np (with_parent (Some i)) (procs s)) s).
Proof.
  intros [H1 (Hm & Hc & Hi) H3 H4]. split; [|done|done|cbn; by rewrite upd_eq]. eapply rtc_r; [exact H1|].
  exact (ps_parent (view m (<[np := i]> fk) s) c i np Hc (lookup_insert_eq fk np i)).
Qed.

(** The entries that are not in use have no parent and nobody builds them. *)
Definition spare_ok (s : os S) : Prop := forall j, in_tab j -> p_state (procs s).[j] = UNUSED ->
  fk !! j = None /\ p_parent (procs s).[j] = None.

Lemma pinv_spare s : pinv (view m fk s) -> spare_ok s.
Proof.
  intros [_ H2 _ H4] j Hj Hu. split; [|by apply (fa_unused _ _ H2)]. destruct (fk !! j) as [k|] eqn:E; [|done].
  destruct (H4 j k E) as [_ He]. cbn in He. congruence.
Qed.

(** [allocproc] after the entry is taken. *)
Definition alloc_rest (i : Z) : M (os S) (option Z) :=
  pt_release ;;;
  let* k := zoom mem_lens kalloc in
  upd_proc i (with_kstack k) ;;;
  if k =? 0 then upd_proc i (with_state UNUSED) ;;; ret None else
  let sp := k + KSTACKSIZE - TF_SIZE in
  let tf := sp in
  let sp := sp - 4 in
  zoom mem_lens (wr32 sp trapret) ;;;
  let sp := sp - CTX_SIZE in
  upd_proc i (with_frames tf sp) ;;;
  zoom mem_lens (kmemset sp 0 CTX_SIZE) ;;;
  zoom mem_lens (wr32 (sp + CTX_EIP) forkret) ;;;
  ret (Some i).

Lemma alloc_rest_run s0 i np s r s' : fk !! np = None -> building s0 i np None s -> alloc_rest np s = Ret r s' ->
  match r with
  | None => relations.rtc pstep s0 (view m fk s')
  | Some np' => np' = np /\ building s0 i np None s'
  end.
Proof.
  intros Hn Hb. intros (? & s1 & E1 & E)%bind_inv. apply (building_quiet _ _ _ _ _ quiet_release _ _ _ Hb) in E1.
  apply bind_inv in E as (k & s2 & E2 & E). apply (building_quiet _ _ _ _ _ (quiet_mem _) _ _ _ E1) in E2.
  apply bind_inv in E as (? & s3 & E3 & E).
  apply (building_upd _ _ _ _ (with_kstack k) ltac:(by repeat split) _ _ _ E2) in E3. destruct (k =? 0).
  - apply bind_inv in E as (? & s4 & [_ ->]%upd_proc_inv & E). injection E as <- <-. by eapply building_giveup.
  - cbv zeta in E. apply bind_inv in E as (? & s4 & E4 & E). apply (building_quiet _ _ _ _ _ (quiet_mem _) _ _ _ E3) in E4.
    apply bind_inv in E as (? & s5 & E5 & E). apply (building_upd _ _ _ _ (with_frames _ _) ltac:(by repeat split) _ _ _ E4) in E5.
    apply bind_inv in E as (? & s6 & E6 & E). apply (building_quiet _ _ _ _ _ (quiet_mem _) _ _ _ E5) in E6.
    apply bind_inv in E as (? & s7 & E7 & E). apply (building_quiet _ _ _ _ _ (quiet_mem _) _ _ _ E6) in E7.
    by injection E as <- <-.
Qed.

Lemma allocproc_run s r s' : caller c m s -> spare_ok s -> allocproc trapret forkret s = Ret r s' ->
  match r with
  | None => relations.rtc pstep (view m fk s) (view m fk s')
  | Some np => fk !! np = None /\ building (view m fk s) (me s) np None s'
  end.
Proof.
  intros [_ Hc Hi _] Hsp (? & s1 & (P1 & N1 & I1 & M1)%quiet_acquire & E)%bind_inv. apply bind_inv in E as (a & s2 & [= <- <-] & E).
  assert (view m fk s1 = view m fk s) as Ev by (unfold view; by rewrite P1, N1, I1).
  destruct (find_proc _) as [np|] eqn:Ef.
  - destruct (find_proc_some _ _ Ef) as (Hnp & Hu & _). unfold is_state in Hu. apply bool_decide_eq_true in Hu.
    rewrite P1 in Hu. destruct (Hsp np Hnp Hu) as [Hn Hp].
    pose proof (building_alloc s1 (me s) np M1 Hc Hi Ef) as Hb. rewrite Ev, P1, Hp in Hb.
    apply bind_inv in E as (? & s2 & [_ ->]%upd_proc_inv & E). apply bind_inv in E as (n & s3 & [= <- <-] & E).
    apply bind_inv in E as (? & s4 & [_ ->]%upd_proc_inv & E). apply bind_inv in E as (? & s5 & [= _ <-] & E). cbn in E. rewrite P1 in E.
    pose proof (alloc_rest_run _ _ _ _ _ _ Hn Hb E) as Hr. destruct r; [|done]. destruct Hr as [-> Hr]. done.
  - apply bind_inv in E as (? & s2 & (P2 & N2 & I2 & M2)%quiet_release & E). injection E as <- <-.
    unfold view. rewrite P2, N2, I2, P1, N1, I1. apply rtc_refl.
Qed.

(** One call of a run [E] from a state with [Hb] to the next. *)
Ltac next E Hb :=
  let E1 := fresh "E" in let K := fresh "K" in
  apply bind_inv in E as (? & ? & E1 & E);
  match type of Hb with
  | building ?s0 ?i ?np ?q _ =>
      match type of E1 with
      | ?k _ = _ => assert (keeps (building s0 i np q) k) as K by auto with keeps
      end
  end;
  apply (K _ _ _ Hb) in E1; clear K Hb; rename E1 into Hb.

(** [fork] with the child's entry and parent, to its start. *)
Definition fork_rest (np : Z) (x : proc) : M (os S) Z :=
  let* y := get_proc np in
  zoom mem_lens (kmemmove (p_tf y) (p_tf x) TF_SIZE) ;;;
  zoom mem_lens (wr32 (p_tf y + TF_EAX) 0) ;;;
  for_up 0 NOFILE (fun i =>
    match (p_ofile x).[i] with
    | None => ret tt
    | Some f =>
        let* f := zoom files_lens (filedup f) in
        upd_proc np (fun y => with_ofile (<[i := Some f]> (p_ofile y)) y)
    end) ;;;
  match p_cwd x with
  | None => undef
  | Some d =>
      let* d := zoom fs_lens (idup d) in
      upd_proc np (with_cwd (Some d))
  end ;;;
  upd_proc np (fun y => with_name (safestrcpy_l 15 (p_name y) (p_name x)) y) ;;;
  let* y := get_proc np in
  let pid := p_pid y in
  pt_acquire ;;;
  fork_shm np ;;;
  upd_proc np (with_state RUNNABLE) ;;;
  pt_release ;;;
  ret pid.

#[local] Hint Resolve fork_shm_keeps fork_files_keeps : keeps.
#[local] Hint Extern 1 (keeps _ (get_proc _)) => apply keeps_aget : keeps.

Lemma fork_cwd_keeps s0 i np q (x : proc) : keeps (building s0 i np q)
  (match p_cwd x with None => undef | Some d => let* d := zoom fs_lens (idup d) in upd_proc np (with_cwd (Some d)) end).
Proof. destruct (p_cwd x); [|apply keeps_undef]. apply keeps_bind; auto with keeps. Qed.
#[local] Hint Resolve fork_cwd_keeps : keeps.

Lemma fork_rest_run s0 i np x s r s' : fk !! np = None -> building s0 i np (Some i) s -> fork_rest np x s = Ret r s' ->
  relations.rtc pstep s0 (view m fk s').
Proof.
  intros Hn Hb E. unfold fork_rest in E. do 9 next E Hb. apply bind_inv in E as (? & s2 & [_ ->]%upd_proc_inv & E).
  pose proof (building_start _ _ _ _ Hn Hb) as Hr. apply bind_inv in E as (? & s3 & (P1 & N1 & I1 & _)%quiet_release & E).
  injection E as _ <-. unfold view in *. by rewrite P1, N1, I1.
Qed.

(** [fork], run by a process that has the CPU, when it returns: what it did to
    the table is a sequence of steps, and no entry is left in the making. *)
Lemma fork_run (s : os S) r s' : caller c m s -> pinv (view m fk s) -> fork trapret forkret s = Ret r s' ->
  relations.rtc pstep (view m fk s) (view m fk s').
Proof.
  intros Hc Hv%pinv_spare E. apply bind_inv in E as (? & s0 & [= <- <-] & E). apply bind_inv in E as ([np|] & s1 & Ha & E).
  2:{ injection E as _ <-. exact (allocproc_run _ _ _ Hc Hv Ha). }
  apply (allocproc_run _ _ _ Hc Hv) in Ha as [Hn Hb]. apply bind_inv in E as (x & s2 & Ex & E).
  apply (keeps_aget _ _ _ _ _ _ _ Hb) in Ex. clear Hb. rename Ex into Hb.
  apply bind_inv in E as (pgdir & s3 & Ec & E). apply (building_quiet _ _ _ _ _ (quiet_mem _) _ _ _ Hb) in Ec. clear Hb. rename Ec into Hb.
  next E Hb. destruct (pgdir =? 0).
  - do 3 next E Hb. apply bind_inv in E as (? & s4 & [_ ->]%upd_proc_inv & E). injection E as _ <-. by eapply building_giveup.
  - next E Hb. apply bind_inv in E as (? & s4 & [_ ->]%upd_proc_inv & E). apply building_adopt in Hb.
    exact (fork_rest_run _ _ _ _ _ _ _ Hn Hb E).
Qed.

End Fork.
