(* ===== verification/Syscall.v ===== *)
(** * System calls: arguments, and the calls on processes ([syscall.c],
    [sysproc.c])

    The kernel runs a system call on the page table of the process that makes
    it, so a user address is read and written through the entries of that
    table.  An access that finds no entry faults in the kernel, where [trap]
    panics. *)

From stdpp Require Import base tactics numbers gmap strings list.
From Stdlib Require Import ZArith Lia.
From S2P Require Import Prelude Mmu Memory Spinlock Kalloc Vm VmFacts Shm Sleeplock Cache Log Store Fs Pipe File Proc.

Section Ops.
Context {L : Layout} {S : Type} `{TxStore S}.

(** ** User memory *)

Definition umapping (s : os S) (va : Z) : option Z := mapping (mem (pages (fl s))) (P2V (cr3 s)) va.
Definition frame_addr (e va : Z) : Z := P2V (PTE_ADDR e) + va mod PGSIZE.

Definition uload8 (va : Z) : M (os S) Z := fun s =>
  match umapping s va with
  | Some e => Ret (load8 (mem (pages (fl s))) (frame_addr e va)) s
  | None => Panic "trap" s
  end.

(** [CR0_WP] is set: the kernel too needs [PTE_W]. *)
Definition ustore8 (va v : Z) : M (os S) unit := fun s =>
  match umapping s va with
  | Some e =>
      if has e PTE_W then
        zoom mem_lens (modify (fun k => set_mem (store8 (mem k) (frame_addr e va) v) k)) s
      else Panic "trap" s
  | None => Panic "trap" s
  end.

Fixpoint uload (n : nat) (va : Z) : M (os S) (list Z) :=
  match n with
  | O => ret []
  | Datatypes.S n' => let* c := uload8 va in let* l := uload n' (va + 1) in ret (c :: l)
  end.

Fixpoint ustore (va : Z) (l : list Z) : M (os S) unit :=
  match l with
  | [] => ret tt
  | c :: l' => ustore8 va c ;;; ustore (va + 1) l'
  end.

(** The bytes of a word, and the word. *)
Definition le32 (l : list Z) : Z :=
  nth 0 l 0 + 256 * nth 1 l 0 + 65536 * nth 2 l 0 + 16777216 * nth 3 l 0.
Definition bytes32 (v : Z) : list Z := [u8 v; u8 (v / 256); u8 (v / 65536); u8 (v / 16777216)].

(** ** [syscall.c] *)

Definition my : M (os S) proc := gets myproc.

Definition fetchint (addr : Z) : M (os S) (option Z) :=
  let* p := my in
  if (p_sz p <=? addr) || (p_sz p <? u32 (addr + 4)) then ret None else
  let* w := uload 4 addr in
  ret (Some (i32 (le32 w))).

(** The loop of [fetchstr]: the bytes before the first NUL below the end. *)
Fixpoint fetch_chars (n : nat) (a : Z) : M (os S) (option (list Z)) :=
  match n with
  | O => ret None
  | Datatypes.S n' =>
      let* c := uload8 a in
      if c =? 0 then ret (Some []) else
      let* r := fetch_chars n' (a + 1) in
      ret (cons c <$> r)
  end.

(** The string at [addr], without its NUL.  The code keeps the pointer and
    reads the string later. *)
Definition fetchstr (addr : Z) : M (os S) (option (list Z)) :=
  let* p := my in
  if p_sz p <=? addr then ret None else fetch_chars (Z.to_nat (p_sz p - addr)) addr.

Definition tf_word (o : Z) : M (os S) Z :=
  let* p := my in zoom mem_lens (rd32 (p_tf p + o)).

Definition argint (n : Z) : M (os S) (option Z) :=
  let* esp := tf_word TF_ESP in fetchint (u32 (esp + 4 + 4 * n)).

Definition argptr (n size : Z) : M (os S) (option Z) :=
  let* i := argint n in
  match i with
  | None => ret None
  | Some i =>
      let* p := my in
      if (size <? 0) || (p_sz p <=? u32 i) || (p_sz p <? u32 (u32 i + size)) then ret None else ret (Some (u32 i))
  end.

Definition argstr (n : Z) : M (os S) (option (list Z)) :=
  let* a := argint n in
  match a with
  | None => ret None
  | Some a => fetchstr (u32 a)
  end.

(** [if(... < 0) return -1;] *)
Definition or_fail {A} (c : M (os S) (option A)) (k : A -> M (os S) Z) : M (os S) Z :=
  let* r := c in
  match r with
  | None => ret (-1)
  | Some a => k a
  end.

(** ** [sysproc.c]

    A call that may leave the CPU before it returns gives no result then. *)

Context (trapret forkret : Z).

Definition sys_fork : M (os S) Z := fork trapret forkret.
Definition sys_exit : M (os S) (option Z) := exit ;;; ret None.
Definition sys_wait : M (os S) (option Z) := wait.
Definition sys_kill : M (os S) Z := or_fail (argint 0) kill.
Definition sys_getpid : M (os S) Z := let* p := my in ret (p_pid p).

Definition sys_sbrk : M (os S) Z :=
  or_fail (argint 0) (fun n =>
    let* p := my in
    let addr := i32 (p_sz p) in
    let* r := growproc n in
    if r <? 0 then ret (-1) else ret addr).

Definition tk_acquire : M (os S) unit := os_acquire tickslock set_tickslock.
Definition tk_release : M (os S) unit := os_release tickslock set_tickslock.

(** The channel [&ticks]. *)
Context (ticks_addr : Z).

(** The test of the loop, with [tickslock] held: the result, or sleep.  [n] is
    compared as an unsigned number. *)
Definition sys_sleep_pass (n ticks0 : Z) : M (os S) (option Z) :=
  let* t := gets (fun s => ticks (shg s)) in
  if u32 (t - ticks0) <? u32 n then
    let* p := my in
    if p_killed p then tk_release ;;; ret (Some (-1)) else
    sleep (CAddr ticks_addr) tk_release ;;;
    ret None
  else tk_release ;;; ret (Some 0).

Definition sys_sleep : M (os S) (option Z) :=
  let* n := argint 0 in
  match n with
  | None => ret (Some (-1))
  | Some n =>
      tk_acquire ;;;
      let* ticks0 := gets (fun s => ticks (shg s)) in
      sys_sleep_pass n ticks0
  end.

Definition sys_uptime : M (os S) Z :=
  tk_acquire ;;;
  let* x := gets (fun s => ticks (shg s)) in
  tk_release ;;;
  ret (i32 x).

End Ops.
