(* ===== verification/Exec.v ===== *)
(** * Loading a program ([exec.c], [elf.h], [loaduvm] of [vm.c])

    The strings of [argv] are read from the memory of the calling process
    before its page table is replaced; here they are lists of bytes. *)

From stdpp Require Import base tactics numbers gmap strings list.
From Stdlib Require Import ZArith Lia.
From S2P Require Import Prelude Mmu Memory Spinlock Kalloc Vm Shm Sleeplock Cache Log Store Fs Pipe File Proc Syscall.

(** ** [elf.h] *)

Definition ELF_MAGIC : Z := 0x464C457F.
Definition ELF_PROG_LOAD : Z := 1.

(** The fields [exec] reads of [struct elfhdr] and [struct proghdr]. *)
Record elfhdr := mkelf { magic : Z; entry : Z; phoff : Z; phnum : Z }.
Record proghdr := mkph { ph_type : Z; ph_off : Z; ph_vaddr : Z; ph_filesz : Z; ph_memsz : Z }.

Definition ELF_SIZE : Z := 52.
Definition PH_SIZE : Z := 32.

Definition word_at (l : list Z) (o : nat) : Z := le32 (drop o l).
Definition elf_of (l : list Z) : elfhdr :=
  mkelf (word_at l 0) (word_at l 24) (word_at l 28) (nth 44 l 0 + 256 * nth 45 l 0).
Definition ph_of (l : list Z) : proghdr :=
  mkph (word_at l 0) (word_at l 4) (word_at l 8) (word_at l 16) (word_at l 20).

(** [copyout] of bytes that are not in kernel memory. *)
Definition copyout_bytes {L : Layout} (pgdir va : Z) (l : list Z) : M kst Z :=
  iter (Z.to_nat ((va mod PGSIZE + Z.of_nat (length l) + PGSIZE - 1) / PGSIZE) + 1)%nat (fun '(va, buf) =>
    let len := Z.of_nat (length buf) in
    if negb (0 <? len) then ret (inr 0) else
    let va0 := PGROUNDDOWN va in
    let* pa0 := uva2ka pgdir va0 in
    if pa0 =? 0 then ret (inr (-1)) else
    let n := u32 (PGSIZE - (va - va0)) in
    let n := if len <? n then len else n in
    modify (fun k => set_mem (put_bytes (mem k) (pa0 + (va - va0)) (take (Z.to_nat n) buf)) k) ;;;
    ret (inl (u32 (va0 + PGSIZE), drop (Z.to_nat n) buf))) (va, l).

(** The part of a path after its last slash. *)
Fixpoint last_elem (path last : list Z) : list Z :=
  match path with
  | [] => last
  | c :: p => last_elem p (if c =? SLASH then p else last)
  end.

Section Ops.
Context {L : Layout} {S : Type} `{TxStore S}.
Context (devread : Z -> option (Z -> Z -> M (fsst S) (Z * list Z))).

Definition loaduvm_step (pgdir addr ip offset sz i : Z) : M (os S) (Z + Z) :=
  if negb (i <? sz) then ret (inr 0) else
  let* pte := zoom mem_lens (walkpgdir pgdir (u32 (addr + i)) false) in
  if pte =? 0 then panic "loaduvm: address should exist" else
  let* e := zoom mem_lens (rd32 pte) in
  let pa := PTE_ADDR e in
  let n := if u32 (sz - i) <? PGSIZE then u32 (sz - i) else PGSIZE in
  let* r := zoom fs_lens (readi devread ip (u32 (offset + i)) n) in
  zoom mem_lens (modify (fun k => set_mem (put_bytes (mem k) (P2V pa) r.2) k)) ;;;
  if negb (u32 r.1 =? n) then ret (inr (-1)) else
  ret (inl (u32 (i + PGSIZE))).

Definition loaduvm (pgdir addr ip offset sz : Z) : M (os S) Z :=
  if negb (u32 addr mod PGSIZE =? 0) then panic "loaduvm: addr must be page aligned" else
  iter (Z.to_nat ((sz + PGSIZE - 1) / PGSIZE) + 1)%nat (loaduvm_step pgdir addr ip offset sz) 0.

(** One program header: nothing for [goto bad], or the size of the image. *)
Definition exec_segment (ip pgdir off sz : Z) : M (os S) (option Z) :=
  let* r := zoom fs_lens (readi devread ip (u32 off) PH_SIZE) in
  if negb (r.1 =? PH_SIZE) then ret None else
  let ph := ph_of r.2 in
  if negb (ph_type ph =? ELF_PROG_LOAD) then ret (Some sz) else
  if ph_memsz ph <? ph_filesz ph then ret None else
  if u32 (ph_vaddr ph + ph_memsz ph) <? ph_vaddr ph then ret None else
  let* sz := zoom mem_lens (allocuvm pgdir sz (u32 (ph_vaddr ph + ph_memsz ph))) in
  if sz =? 0 then ret None else
  if negb (ph_vaddr ph mod PGSIZE =? 0) then ret None else
  let* r := loaduvm pgdir (ph_vaddr ph) ip (ph_off ph) (ph_filesz ph) in
  if r <? 0 then ret None else ret (Some sz).

Definition exec_load (ip pgdir : Z) (elf : elfhdr) : M (os S) (option Z) :=
  iter (Z.to_nat (phnum elf) + 1)%nat (fun '(i, off, sz) =>
    if negb (i <? phnum elf) then ret (inr (Some sz)) else
    let* r := exec_segment ip pgdir off sz in
    match r with
    | None => ret (inr None)
    | Some sz => ret (inl (i + 1, i32 (off + PH_SIZE), sz))
    end) (0, i32 (phoff elf), 0).

(** The argument strings, each below the one before: the stack pointer and the
    addresses of the strings. *)
Fixpoint push_args (pgdir : Z) (argv : list (list Z)) (argc sp : Z) : M kst (option (Z * list Z)) :=
  match argv with
  | [] => ret (Some (sp, []))
  | a :: argv' =>
      if MAXARG <=? argc then ret None else
      let sp := Z.land (u32 (sp - (Z.of_nat (length a) + 1))) (u32 (Z.lnot 3)) in
      let* r := copyout_bytes pgdir sp (a ++ [0]) in
      if r <? 0 then ret None else
      let* r := push_args pgdir argv' (argc + 1) sp in
      ret ((fun '(sp', l) => (sp', sp :: l)) <$> r)
  end.

(** The words [exec] leaves at the top of the stack. *)
Definition ustack (argc sp : Z) (addrs : list Z) : list Z :=
  [0xffffffff; argc; u32 (sp - (argc + 1) * 4)] ++ addrs ++ [0].

Definition exec_stack (pgdir sz : Z) (argv : list (list Z)) : M kst (option Z) :=
  let* r := push_args pgdir argv 0 sz in
  match r with
  | None => ret None
  | Some (sp, addrs) =>
      let argc := Z.of_nat (length argv) in
      let w := ustack argc sp addrs in
      let sp := u32 (sp - (3 + argc + 1) * 4) in
      let* r := copyout_bytes pgdir sp (flat_map bytes32 w) in
      if r <? 0 then ret None else ret (Some sp)
  end.

(** The two pages above the image: the first inaccessible, the second the stack
    with the arguments.  The size of the address space and the stack pointer. *)
Definition exec_user_stack (pgdir sz : Z) (argv : list (list Z)) : M kst (option (Z * Z)) :=
  let sz := PGROUNDUP sz in
  let* sz := allocuvm pgdir sz (u32 (sz + 2 * PGSIZE)) in
  if sz =? 0 then ret None else
  clearpteu pgdir (u32 (sz - 2 * PGSIZE)) ;;;
  let* sp := exec_stack pgdir sz argv in
  ret (pair sz <$> sp).

(** The attachments the new program does not keep. *)
Definition exec_shm_step (last i : Z) : M (os S) Z :=
  let* m := gets me in
  let* c := get_proc m in
  if negb (isAttached (p_shmsegs c).[i] =? 1) then ret last else
  let id := shmid (p_shmsegs c).[i] in
  upd_proc m (fun x => with_shmsegs (<[i := mkatt 0 (-1)]> (p_shmsegs x)) x) ;;;
  if id =? last then ret last else
  zoom shm_lens (updateShmSeg id (-1) 1) ;;;
  ret id.

Definition exec_shm : M (os S) unit :=
  iter (Datatypes.S (Z.to_nat SHMMAXSEG)) (fun '(i, last) =>
    if negb (i <? SHMMAXSEG) then ret (inr tt) else
    let* last := exec_shm_step last i in
    ret (inl (i + 1, last))) (0, -2).

(** [bad:] *)
Definition exec_bad (pgdir : Z) (ip : option Z) : M (os S) Z :=
  when (negb (pgdir =? 0)) (zoom mem_lens (freevm pgdir)) ;;;
  match ip with
  | Some ip => zoom fs_lens (iunlockput ip) ;;; zoom fs_lens end_op
  | None => ret tt
  end ;;;
  ret (-1).

(** From [commit to the user image]. *)
Definition exec_commit (path : list Z) (pgdir sz ent sp : Z) : M (os S) Z :=
  let* m := gets me in
  upd_proc m (fun x => with_name (safestrcpy_l 15 (p_name x) (last_elem path path)) x) ;;;
  let* x := get_proc m in
  let oldpgdir := p_pgdir x in
  upd_proc m (with_mem sz pgdir) ;;;
  zoom mem_lens (wr32 (p_tf x + TF_EIP) ent) ;;;
  zoom mem_lens (wr32 (p_tf x + TF_ESP) sp) ;;;
  exec_shm ;;;
  switchuvm m ;;;
  zoom mem_lens (freevm oldpgdir) ;;;
  ret 0.

Definition exec (path : list Z) (argv : list (list Z)) : M (os S) Z :=
  zoom fs_lens begin_op ;;;
  let* ip := zoom fs_lens (namei devread path) in
  match ip with
  | None =>
      zoom fs_lens end_op ;;;
      zoom mem_lens (cprintf "exec: fail\n" []) ;;;
      ret (-1)
  | Some ip =>
      zoom fs_lens (ilock ip) ;;;
      let* r := zoom fs_lens (readi devread ip 0 ELF_SIZE) in
      if negb (r.1 =? ELF_SIZE) then exec_bad 0 (Some ip) else
      let elf := elf_of r.2 in
      if negb (magic elf =? ELF_MAGIC) then exec_bad 0 (Some ip) else
      let* pgdir := zoom mem_lens setupkvm in
      if pgdir =? 0 then exec_bad 0 (Some ip) else
      let* sz := exec_load ip pgdir elf in
      match sz with
      | None => exec_bad pgdir (Some ip)
      | Some sz =>
          zoom fs_lens (iunlockput ip) ;;;
          zoom fs_lens end_op ;;;
          let* r := zoom mem_lens (exec_user_stack pgdir sz argv) in
          match r with
          | None => exec_bad pgdir None
          | Some (sz, sp) => exec_commit path pgdir sz (entry elf) sp
          end
      end
  end.

End Ops.
