(* ===== verification/Sysfile.v ===== *)
(** * System calls on files and on shared memory ([sysfile.c])

    Arguments are fetched as in [Syscall].  The bytes a call reads from the
    caller's buffer are loaded before the call into [file.c] and the bytes it
    writes there are stored after it. *)

From stdpp Require Import base tactics numbers gmap strings list.
From Stdlib Require Import ZArith Lia.
From S2P Require Import Prelude Mmu Memory Spinlock Kalloc Vm Shm Sleeplock Cache Log Store Fs Pipe File Proc Syscall Exec.

(** ** [fcntl.h] *)

Definition O_RDONLY : Z := 0x000.
Definition O_WRONLY : Z := 0x001.
Definition O_RDWR : Z := 0x002.
Definition O_CREATE : Z := 0x200.

(** "." and ".." *)
Definition dot : list Z := [46].
Definition dotdot : list Z := [46; 46].

Section Ops.
Context {L : Layout} {S : Type} `{TxStore S}.
Context (trapret forkret ticks_addr : Z).
Context (devread : Z -> option (Z -> Z -> M (fsst S) (Z * list Z))).
Context (devwrite : Z -> option (Z -> list Z -> M (fsst S) Z)).

(** ** Descriptors *)

Definition argfd (n : Z) : M (os S) (option (Z * Z)) :=
  let* fd := argint n in
  match fd with
  | None => ret None
  | Some fd =>
      let* p := my in
      if (fd <? 0) || (NOFILE <=? fd) then ret None else
      match (p_ofile p).[fd] with
      | None => ret None
      | Some f => ret (Some (fd, f))
      end
  end.

Definition set_ofile (fd : Z) (f : option Z) : M (os S) unit :=
  let* m := gets me in
  upd_proc m (fun x => with_ofile (<[fd := f]> (p_ofile x)) x).

Definition fdalloc (f : Z) : M (os S) Z :=
  let* r := for_exit 0 NOFILE (fun fd =>
    let* p := my in
    match (p_ofile p).[fd] with
    | None => set_ofile fd (Some f) ;;; ret (Some fd)
    | Some _ => ret None
    end) in
  ret (default (-1) r).

Definition dup_file (f : Z) : M (os S) Z :=
  let* fd := fdalloc f in
  if fd <? 0 then ret (-1) else
  zoom files_lens (filedup f) ;;;
  ret fd.

Definition sys_dup : M (os S) Z := or_fail (argfd 0) (fun '(_, f) => dup_file f).

Definition sys_read : M (os S) Z :=
  or_fail (argfd 0) (fun '(_, f) =>
    or_fail (argint 2) (fun n =>
      or_fail (argptr 1 n) (fun p =>
        let* r := zoom files_lens (fileread devread f n) in
        ustore p r.2 ;;;
        ret r.1))).

Definition sys_write : M (os S) Z :=
  or_fail (argfd 0) (fun '(_, f) =>
    or_fail (argint 2) (fun n =>
      or_fail (argptr 1 n) (fun p =>
        let* l := uload (Z.to_nat n) p in
        zoom files_lens (filewrite devwrite f l)))).

Definition close_fd (fd f : Z) : M (os S) Z :=
  set_ofile fd None ;;;
  zoom files_lens (fileclose f) ;;;
  ret 0.

Definition sys_close : M (os S) Z := or_fail (argfd 0) (fun '(fd, f) => close_fd fd f).

Definition STAT_SIZE : Z := 20.

Definition ustore_stat (p : Z) (st : stat) : M (os S) unit :=
  ustore p (take 2 (bytes32 (st_type st))) ;;;
  ustore (p + 4) (bytes32 (st_dev st)) ;;;
  ustore (p + 8) (bytes32 (st_ino st)) ;;;
  ustore (p + 12) (take 2 (bytes32 (st_nlink st))) ;;;
  ustore (p + 16) (bytes32 (st_size st)).

Definition sys_fstat : M (os S) Z :=
  or_fail (argfd 0) (fun '(_, f) =>
    or_fail (argptr 1 STAT_SIZE) (fun p =>
      let* st := zoom files_lens (filestat f) in
      match st with
      | Some st => ustore_stat p st ;;; ret 0
      | None => ret (-1)
      end)).

(** ** Names *)

(** The part of [sys_link] after [ilock] of the old file, [bad:] included. *)
Definition link_undo (ip : Z) : M (fsst S) Z :=
  ilock ip ;;;
  upd_inode ip (fun x => with_nlink (i16 (i_nlink x - 1)) x) ;;;
  iupdate ip ;;;
  iunlockput ip ;;;
  end_op ;;;
  ret (-1).

Definition link_new (ip : Z) (new : list Z) : M (fsst S) Z :=
  let* r := nameiparent devread new in
  match r with
  | None => link_undo ip
  | Some (dp, name) =>
      ilock dp ;;;
      let* d := get_inode dp in
      let* x := get_inode ip in
      let* ok := (if negb (i_dev d =? i_dev x) then ret false else
                  let* r := dirlink devread devwrite dp name (i_inum x) in ret (negb (r <? 0))) in
      iunlockput dp ;;;
      if negb ok then link_undo ip else
      iput ip ;;;
      end_op ;;;
      ret 0
  end.

Definition link (old new : list Z) : M (fsst S) Z :=
  begin_op ;;;
  let* ip := namei devread old in
  match ip with
  | None => end_op ;;; ret (-1)
  | Some ip =>
      ilock ip ;;;
      let* x := get_inode ip in
      if i_type x =? T_DIR then
        iunlockput ip ;;; end_op ;;; ret (-1)
      else
      upd_inode ip (fun x => with_nlink (i16 (i_nlink x + 1)) x) ;;;
      iupdate ip ;;;
      iunlock ip ;;;
      link_new ip new
  end.

Definition sys_link : M (os S) Z :=
  or_fail (argstr 0) (fun old => or_fail (argstr 1) (fun new => zoom fs_lens (link old new))).

Definition isdirempty (dp : Z) : M (fsst S) bool :=
  let* x := get_inode dp in
  let* r := for_exit 2 ((i_size x + DIRENT_SIZE - 1) / DIRENT_SIZE) (fun k =>
    let* r := readi devread dp (k * DIRENT_SIZE) DIRENT_SIZE in
    if negb (r.1 =? DIRENT_SIZE) then panic "isdirempty: readi" else
    ret (if de_inum r.2 =? 0 then None else Some tt)) in
  ret (match r with Some _ => false | None => true end).

(** The entry at [off] of the locked directory [dp] names [ip]. *)
Definition unlink_entry (dp ip off : Z) : M (fsst S) Z :=
  ilock ip ;;;
  let* x := get_inode ip in
  if i_nlink x <? 1 then panic "unlink: nlink < 1" else
  let* e := (if i_type x =? T_DIR then isdirempty ip else ret true) in
  if negb e then
    iunlockput ip ;;; iunlockput dp ;;; end_op ;;; ret (-1)
  else
  let* r := writei devwrite dp (replicate (Z.to_nat DIRENT_SIZE) 0) off in
  if negb (r =? DIRENT_SIZE) then panic "unlink: writei" else
  when (i_type x =? T_DIR) (
    upd_inode dp (fun d => with_nlink (i16 (i_nlink d - 1)) d) ;;;
    iupdate dp) ;;;
  iunlockput dp ;;;
  upd_inode ip (fun x => with_nlink (i16 (i_nlink x - 1)) x) ;;;
  iupdate ip ;;;
  iunlockput ip ;;;
  end_op ;;;
  ret 0.

Definition unlink (path : list Z) : M (fsst S) Z :=
  begin_op ;;;
  let* r := nameiparent devread path in
  match r with
  | None => end_op ;;; ret (-1)
  | Some (dp, name) =>
      ilock dp ;;;
      if (namecmp name dot =? 0) || (namecmp name dotdot =? 0) then
        iunlockput dp ;;; end_op ;;; ret (-1)
      else
      let* r := dirlookup devread dp name in
      match r with
      | None => iunlockput dp ;;; end_op ;;; ret (-1)
      | Some (ip, off) => unlink_entry dp ip off
      end
  end.

Definition sys_unlink : M (os S) Z := or_fail (argstr 0) (fun path => zoom fs_lens (unlink path)).

(** A new inode, named by the directory [dp]. *)
Definition create_new (dp : Z) (name : list Z) (type major minor : Z) : M (fsst S) (option Z) :=
  let* d := get_inode dp in
  let* ip := ialloc (i_dev d) type in
  ilock ip ;;;
  upd_inode ip (fun x => with_nlink 1 (with_devnum major minor x)) ;;;
  iupdate ip ;;;
  let* x := get_inode ip in
  when (type =? T_DIR) (
    upd_inode dp (fun d => with_nlink (i16 (i_nlink d + 1)) d) ;;;
    iupdate dp ;;;
    let* r := dirlink devread devwrite ip dot (i_inum x) in
    if r <? 0 then panic "create dots" else
    let* r := dirlink devread devwrite ip dotdot (i_inum d) in
    if r <? 0 then panic "create dots" else ret tt) ;;;
  let* r := dirlink devread devwrite dp name (i_inum x) in
  if r <? 0 then panic "create: dirlink" else
  iunlockput dp ;;;
  ret (Some ip).

Definition create (path : list Z) (type major minor : Z) : M (fsst S) (option Z) :=
  let* r := nameiparent devread path in
  match r with
  | None => ret None
  | Some (dp, name) =>
      ilock dp ;;;
      let* r := dirlookup devread dp name in
      match r with
      | Some (ip, _) =>
          iunlockput dp ;;;
          ilock ip ;;;
          let* x := get_inode ip in
          if (type =? T_FILE) && (i_type x =? T_FILE) then ret (Some ip) else
          iunlockput ip ;;;
          ret None
      | None => create_new dp name type major minor
      end
  end.

(** The inode [sys_open] opens, locked. *)
Definition open_inode (path : list Z) (omode : Z) : M (fsst S) (option Z) :=
  if has omode O_CREATE then create path T_FILE 0 0 else
  let* ip := namei devread path in
  match ip with
  | None => ret None
  | Some ip =>
      ilock ip ;;;
      let* x := get_inode ip in
      if (i_type x =? T_DIR) && negb (omode =? O_RDONLY) then iunlockput ip ;;; ret None else ret (Some ip)
  end.

Definition open_as (ip omode : Z) (f : file) : file :=
  mkfile FD_INODE (f_ref f) (negb (has omode O_WRONLY)) (has omode O_WRONLY || has omode O_RDWR) (f_pipe f) ip 0.

Definition open_fail (ip : Z) : M (os S) Z :=
  zoom fs_lens (iunlockput ip) ;;; zoom fs_lens end_op ;;; ret (-1).

Definition sys_open : M (os S) Z :=
  or_fail (argstr 0) (fun path =>
    or_fail (argint 1) (fun omode =>
      zoom fs_lens begin_op ;;;
      let* ip := zoom fs_lens (open_inode path omode) in
      match ip with
      | None => zoom fs_lens end_op ;;; ret (-1)
      | Some ip =>
          let* f := zoom files_lens filealloc in
          match f with
          | None => open_fail ip
          | Some f =>
              let* fd := fdalloc f in
              if fd <? 0 then zoom files_lens (fileclose f) ;;; open_fail ip else
              zoom fs_lens (iunlock ip) ;;;
              zoom fs_lens end_op ;;;
              zoom files_lens (upd_file f (open_as ip omode)) ;;;
              ret fd
          end
      end)).

Definition make (path : option (list Z)) (type major minor : Z) : M (os S) Z :=
  match path with
  | None => zoom fs_lens end_op ;;; ret (-1)
  | Some path =>
      let* ip := zoom fs_lens (create path type major minor) in
      match ip with
      | None => zoom fs_lens end_op ;;; ret (-1)
      | Some ip => zoom fs_lens (iunlockput ip) ;;; zoom fs_lens end_op ;;; ret 0
      end
  end.

Definition sys_mkdir : M (os S) Z :=
  zoom fs_lens begin_op ;;;
  let* path := argstr 0 in
  make path T_DIR 0 0.

Definition sys_mknod : M (os S) Z :=
  zoom fs_lens begin_op ;;;
  let* path := argstr 0 in
  match path with
  | None => make None T_DEV 0 0
  | Some _ =>
      let* major := argint 1 in
      match major with
      | None => make None T_DEV 0 0
      | Some major =>
          let* minor := argint 2 in
          match minor with
          | None => make None T_DEV 0 0
          | Some minor => make path T_DEV (i16 major) (i16 minor)
          end
      end
  end.

Definition sys_chdir : M (os S) Z :=
  zoom fs_lens begin_op ;;;
  let* path := argstr 0 in
  let* ip := match path with None => ret None | Some path => zoom fs_lens (namei devread path) end in
  match ip with
  | None => zoom fs_lens end_op ;;; ret (-1)
  | Some ip =>
      zoom fs_lens (ilock ip) ;;;
      let* x := zoom fs_lens (get_inode ip) in
      if negb (i_type x =? T_DIR) then
        zoom fs_lens (iunlockput ip) ;;; zoom fs_lens end_op ;;; ret (-1)
      else
      zoom fs_lens (iunlock ip) ;;;
      let* p := my in
      match p_cwd p with
      | None => undef
      | Some d => zoom fs_lens (iput d)
      end ;;;
      zoom fs_lens end_op ;;;
      let* m := gets me in
      upd_proc m (with_cwd (Some ip)) ;;;
      ret 0
  end.

(** ** [exec] and [pipe] *)

(** The strings of the user's [argv]; nothing if one is bad or there are more
    than fit. *)
Definition fetch_argv (uargv : Z) : M (os S) (option (list (list Z))) :=
  iter (Datatypes.S (Z.to_nat MAXARG)) (fun '(i, acc) =>
    if MAXARG <=? i then ret (inr None) else
    let* uarg := fetchint (u32 (uargv + 4 * i)) in
    match uarg with
    | None => ret (inr None)
    | Some uarg =>
        if uarg =? 0 then ret (inr (Some acc)) else
        let* a := fetchstr (u32 uarg) in
        match a with
        | None => ret (inr None)
        | Some a => ret (inl (i + 1, acc ++ [a]))
        end
    end) (0, []).

Definition sys_exec : M (os S) Z :=
  or_fail (argstr 0) (fun path =>
    or_fail (argint 1) (fun uargv =>
      or_fail (fetch_argv (u32 uargv)) (fun argv => exec devread path argv))).

Definition sys_pipe : M (os S) Z :=
  or_fail (argptr 0 8) (fun p =>
    let* r := zoom files_lens pipealloc in
    match r with
    | None => ret (-1)
    | Some (rf, wf) =>
        let* fd0 := fdalloc rf in
        let* fd1 := (if fd0 <? 0 then ret (-1) else fdalloc wf) in
        if (fd0 <? 0) || (fd1 <? 0) then
          when (0 <=? fd0) (set_ofile fd0 None) ;;;
          zoom files_lens (fileclose rf) ;;;
          zoom files_lens (fileclose wf) ;;;
          ret (-1)
        else
        ustore p (bytes32 fd0) ;;;
        ustore (p + 4) (bytes32 fd1) ;;;
        ret 0
    end).

(** ** Shared memory *)

Definition sys_shmget : M (os S) Z :=
  or_fail (argint 0) (fun key => or_fail (argint 1) (fun size => or_fail (argint 2) (fun shmflag =>
    zoom shm_lens (shmgetHelper key (u32 size) shmflag)))).

Definition sys_shmat : M (os S) Z :=
  let* id := argint 0 in
  match id with
  | None => ret 101
  | Some id =>
      let* a := argint 1 in
      match a with
      | None => ret 102
      | Some a =>
          let* f := argint 2 in
          match f with
          | None => ret 103
          | Some f => zoom shm_lens (shmatHelper id a f)
          end
      end
  end.

Definition sys_shmdt : M (os S) Z :=
  or_fail (argint 0) (fun a => zoom shm_lens (shmdtHelper a)).

(** The caller's [struct shmid_ds]: nine words that the calls use, and a
    tenth. *)
Definition ds_of (l : list Z) : shmid_ds :=
  let w k := le32 (drop (4 * k) l) in
  mkds (mkperm (i32 (w 0%nat)) (w 1%nat)) (w 2%nat) (i32 (w 3%nat)) (i32 (w 4%nat)) (i32 (w 5%nat)) (i32 (w 6%nat))
    (i32 (w 7%nat)) (w 8%nat) 0.
Definition ds_bytes (d : shmid_ds) : list Z :=
  flat_map bytes32 [__key (shm_perm d); mode (shm_perm d); shm_segsz d; shm_atime d; shm_dtime d; shm_ctime d;
    shm_cpid d; shm_lpid d; shm_nattch d].

(** What [shmctlHelper] reads there: only [IPC_SET] on a segment it may change
    does, the size first and the rest if the size is a page or more. *)
Definition shmctl_arg (id cmd p : Z) : M (os S) shmid_ds :=
  let* g := gets shg in
  let d := (shm_segs g).[id] in
  if negb (cmd =? IPC_SET) || (id <? 0) || (lastShmSegIndex g <? id) || (__key (shm_perm d) =? -1) ||
     has (mode (shm_perm d)) SHM_R then ret czero else
  let* w := uload 4 (p + 8) in
  if le32 w / PGSIZE =? 0 then ret (mkds (mkperm 0 0) (le32 w) 0 0 0 0 0 0 0) else
  let* l := uload 36 p in
  ret (ds_of l).

(** [argptr] is given the size of a pointer. *)
Definition sys_shmctl : M (os S) Z :=
  or_fail (argint 0) (fun id => or_fail (argint 1) (fun cmd => or_fail (argptr 2 4) (fun p =>
    let* b := shmctl_arg id cmd p in
    let* r := zoom shm_lens (shmctlHelper id cmd b) in
    when ((cmd =? IPC_STAT) && (r.1 =? 0)) (ustore p (ds_bytes r.2)) ;;;
    ret r.1))).

Definition sys_shminfo : M (os S) unit := zoom shm_lens shminfoHelper.

Definition sys_removeshm : M (os S) Z :=
  or_fail (argint 0) (fun id => or_fail (argint 1) (fun flag => zoom shm_lens (removeshmHelper id flag))).

End Ops.
