(* ===== verification/Trap.v ===== *)
(** * Traps and the system call table ([trap.c], [syscall], [traps.h],
    [syscall.h])

    [trap] as it runs while a process is on the CPU.  The interrupt handlers
    of the devices are parameters.  A result [false] means that the process
    has left the CPU, in [exit], in [yield], or asleep in a system call. *)

From stdpp Require Import base tactics numbers gmap strings list.
From Stdlib Require Import ZArith Lia.
From S2P Require Import Prelude Mmu Memory Spinlock Kalloc Vm Shm Sleeplock Cache Log Store Fs Pipe File Proc Syscall Exec Sysfile.

(** ** [traps.h] *)

Definition T_SYSCALL : Z := 64.
Definition T_IRQ0 : Z := 32.
Definition IRQ_TIMER : Z := 0.
Definition IRQ_KBD : Z := 1.
Definition IRQ_COM1 : Z := 4.
Definition IRQ_IDE : Z := 14.
Definition IRQ_SPURIOUS : Z := 31.
Definition DPL_USER : Z := 3.

Definition TF_TRAPNO : Z := 48.
Definition TF_ERR : Z := 52.

(** The characters of a name up to its NUL. *)
Fixpoint cstring (l : list Z) : string :=
  match l with
  | [] => EmptyString
  | c :: l' => if c =? 0 then EmptyString else String (Ascii.ascii_of_N (Z.to_N c)) (cstring l')
  end.

Section Ops.
Context {L : Layout} {S : Type} `{TxStore S}.
Context (trapret forkret ticks_addr : Z).
Context (devread : Z -> option (Z -> Z -> M (fsst S) (Z * list Z))).
Context (devwrite : Z -> option (Z -> list Z -> M (fsst S) Z)).

(** What [%eax] holds when [sys_shminfo], which has no result, returns. *)
Context (shminfo_eax : Z).

Definition done_with (c : M (os S) Z) : M (os S) (option Z) := let* r := c in ret (Some r).

(** [syscalls], with the numbers of [syscall.h]. *)
Definition syscalls (num : Z) : option (M (os S) (option Z)) :=
  match num with
  | 1 => Some (done_with (sys_fork trapret forkret))
  | 2 => Some sys_exit
  | 3 => Some sys_wait
  | 4 => Some (done_with sys_pipe)
  | 5 => Some (done_with (sys_read devread))
  | 6 => Some (done_with sys_kill)
  | 7 => Some (done_with (sys_exec devread))
  | 8 => Some (done_with sys_fstat)
  | 9 => Some (done_with (sys_chdir devread))
  | 10 => Some (done_with sys_dup)
  | 11 => Some (done_with sys_getpid)
  | 12 => Some (done_with sys_sbrk)
  | 13 => Some (sys_sleep ticks_addr)
  | 14 => Some (done_with sys_uptime)
  | 15 => Some (done_with (sys_open devread devwrite))
  | 16 => Some (done_with (sys_write devwrite))
  | 17 => Some (done_with (sys_mknod devread devwrite))
  | 18 => Some (done_with (sys_unlink devread devwrite))
  | 19 => Some (done_with (sys_link devread devwrite))
  | 20 => Some (done_with (sys_mkdir devread devwrite))
  | 21 => Some (done_with sys_close)
  | 22 => Some (done_with sys_shmget)
  | 23 => Some (done_with sys_shmat)
  | 24 => Some (done_with sys_shmdt)
  | 25 => Some (done_with sys_shmctl)
  | 26 => Some (sys_shminfo ;;; ret (Some shminfo_eax))
  | 27 => Some (done_with sys_removeshm)
  | _ => None
  end.

Definition set_eax (v : Z) : M (os S) unit :=
  let* p := my in zoom mem_lens (wr32 (p_tf p + TF_EAX) v).

Definition syscall : M (os S) bool :=
  let* eax := tf_word TF_EAX in
  let num := i32 eax in
  match syscalls num with
  | Some f =>
      let* r := f in
      match r with
      | Some v => set_eax v ;;; ret true
      | None => ret false
      end
  | None =>
      let* p := my in
      zoom mem_lens (cprintf "%d %s: unknown sys call %d\n" [CInt (p_pid p); CStr (cstring (p_name p)); CInt num]) ;;;
      set_eax (-1) ;;;
      ret true
  end.

(** ** [trap.c] *)

Context (ideintr kbdintr uartintr : M (os S) unit).

Definition set_ticks (t : Z) (s : os S) : os S :=
  let g := shg s in
  set_shg (mkshst (km g) (lock g) (shm_segs g) (lastShmSegIndex g) (used_ids g) (shm_tot g) (r g) (rtc g) t (cur g)) s.

Definition tick : M (os S) unit :=
  tk_acquire ;;;
  modify (fun s => set_ticks (u32 (ticks (shg s) + 1)) s) ;;;
  wakeup (CAddr ticks_addr) ;;;
  tk_release.

Definition exit_if_killed (k : M (os S) bool) : M (os S) bool :=
  let* p := my in
  if p_killed p then exit ;;; ret false else k.

Definition trap_syscall (tf : Z) : M (os S) bool :=
  exit_if_killed (
    let* m := gets me in
    upd_proc m (fun x => with_frames tf (p_context x) x) ;;;
    let* r := syscall in
    if negb r then ret false else exit_if_killed (ret true)).

(** The [switch]: [cpu] is [cpuid()] and [cr2] the faulting address. *)
Definition trap_irq (tf cpu cr2 trapno cs : Z) : M (os S) unit :=
  let* eip := zoom mem_lens (rd32 (tf + TF_EIP)) in
  if trapno =? T_IRQ0 + IRQ_TIMER then when (cpu =? 0) tick
  else if trapno =? T_IRQ0 + IRQ_IDE then ideintr
  else if trapno =? T_IRQ0 + IRQ_IDE + 1 then ret tt
  else if trapno =? T_IRQ0 + IRQ_KBD then kbdintr
  else if trapno =? T_IRQ0 + IRQ_COM1 then uartintr
  else if (trapno =? T_IRQ0 + 7) || (trapno =? T_IRQ0 + IRQ_SPURIOUS) then
    zoom mem_lens (cprintf "cpu%d: spurious interrupt at %x:%x\n" [CInt cpu; CInt cs; CInt eip])
  else if Z.land cs 3 =? 0 then
    zoom mem_lens (cprintf "unexpected trap %d from cpu %d eip %x (cr2=0x%x)\n"
      [CInt trapno; CInt cpu; CInt eip; CInt cr2]) ;;;
    panic "trap"
  else
    let* p := my in
    let* err := zoom mem_lens (rd32 (tf + TF_ERR)) in
    zoom mem_lens (cprintf "pid %d %s: trap %d err %d on cpu %d eip 0x%x addr 0x%x--kill proc\n"
      [CInt (p_pid p); CStr (cstring (p_name p)); CInt trapno; CInt err; CInt cpu; CInt eip; CInt cr2]) ;;;
    let* m := gets me in
    upd_proc m (with_killed true).

(** The last test, also made when the process runs again after [yield]. *)
Definition trap_return (cs : Z) : M (os S) bool :=
  if Z.land cs 3 =? DPL_USER then exit_if_killed (ret true) else ret true.

Definition trap (tf cpu cr2 : Z) : M (os S) bool :=
  let* trapno := zoom mem_lens (rd32 (tf + TF_TRAPNO)) in
  if trapno =? T_SYSCALL then trap_syscall tf else
  let* w := zoom mem_lens (rd32 (tf + TF_CS)) in
  let cs := u16 w in
  trap_irq tf cpu cr2 trapno cs ;;;
  let* go := trap_return cs in
  if negb go then ret false else
  let* p := my in
  if is_state RUNNING p && (trapno =? T_IRQ0 + IRQ_TIMER) then yield ;;; ret false
  else trap_return cs.

End Ops.
