(* ===== verification/SyscallTheorems.v ===== *)
(** * System calls: what the argument checks guarantee

    A process whose pages below [sz] are all mapped cannot make the kernel
    fault or read outside [0, sz) through [argint], [argptr] and [argstr]; and
    since shared memory lies above [HEAPLIMIT], no buffer in it passes the
    check. *)

From stdpp Require Import base tactics numbers gmap strings list.
From Stdlib Require Import ZArith Lia.
From S2P Require Import Prelude Mmu Memory Spinlock Kalloc Vm VmFacts VmUser Shm Sample VmTheorems Sleeplock Cache Bio Log Store Fs Pipe File FileTheorems Proc ProcSteps Syscall Exec Sysfile Trap.

Section Args.
Context {L : Layout} {S : Type} `{TxStore S}.
Implicit Types s : os S.

(** The byte at a user address. *)
Definition ubyte s (va : Z) : Z :=
  match umapping s va with
  | Some e => load8 (mem (pages (fl s))) (frame_addr e va)
  | None => 0
  end.

Definition ubytes s (va n : Z) : list Z := (fun k => ubyte s (va + k)) <$> seqZ 0 n.
Definition uword s (va : Z) : Z := le32 (ubytes s va 4).

(** The memory of the running process. *)
Record user_space s : Prop := {
  us_sz : 0 <= p_sz (myproc s) <= KERNBASE;
  us_map : forall va, 0 <= va < p_sz (myproc s) -> umapping s va <> None
}.

(** The address of argument [n], and its value as a word. *)
Definition arg_addr s (n : Z) : Z := u32 (load32 (mem (pages (fl s))) (p_tf (myproc s) + TF_ESP) + 4 + 4 * n).
Definition arg s (n : Z) : Z := uword s (arg_addr s n).

Lemma uload8_eq s va : umapping s va <> None -> uload8 va s = Ret (ubyte s va) s.
Proof. unfold uload8, ubyte. by destruct (umapping s va). Qed.

Lemma uload_eq s n va : (forall k, va <= k < va + Z.of_nat n -> umapping s k <> None) ->
  uload n va s = Ret (ubytes s va (Z.of_nat n)) s.
Proof.
  revert va. induction n as [|n IH]; intros va Hm; [done|]. cbn [uload].
  eapply bind_step; [apply uload8_eq, Hm; lia|]. eapply bind_step; [apply IH; intros k Hk; apply Hm; lia|].
  unfold ret, ubytes. f_equal. rewrite Nat2Z.inj_succ, <- Z.add_1_l, seqZ_app by lia.
  change (seqZ 0 1) with [0]. cbn [fmap list_fmap app]. rewrite Z.add_0_r. f_equal.
  change (seqZ (0 + 1) (Z.of_nat n)) with (seqZ (1 + 0) (Z.of_nat n)). rewrite <- fmap_add_seqZ, <- list_fmap_compose.
  apply list_fmap_ext. intros i k Hk. cbn. f_equal. lia.
Qed.

Lemma fetchint_eq s a : user_space s -> 0 <= a < 4294967296 ->
  fetchint a s = Ret (if decide (a + 4 <= p_sz (myproc s)) then Some (i32 (uword s a)) else None) s.
Proof.
  intros [Hsz Hm] Ha. unfold fetchint. eapply bind_step; [done|].
  destruct (decide (a + 4 <= p_sz (myproc s))) as [Hd|Hd].
  - rewrite (proj2 (Z.leb_gt _ _)), u32_small, (proj2 (Z.ltb_ge _ _)) by (unfold KERNBASE in *; lia). cbn [orb].
    eapply bind_step; [apply uload_eq; intros k Hk; apply Hm; lia|done].
  - destruct (p_sz (myproc s) <=? a) eqn:E; [done|]. apply Z.leb_gt in E.
    rewrite u32_small, (proj2 (Z.ltb_lt _ _)) by (unfold KERNBASE in *; lia). done.
Qed.

Lemma tf_word_eq s o : tf_word o s = Ret (load32 (mem (pages (fl s))) (p_tf (myproc s) + o)) s.
Proof. by destruct s as [? ? ? ? ? ? [] ? ?]. Qed.

Lemma argint_eq s n : user_space s ->
  argint n s = Ret (if decide (arg_addr s n + 4 <= p_sz (myproc s)) then Some (i32 (arg s n)) else None) s.
Proof.
  intros Hu. unfold argint. eapply bind_step; [apply tf_word_eq|]. apply fetchint_eq; [done|]. apply u32_range.
Qed.

Lemma ubyte_range s va : 0 <= ubyte s va < 256.
Proof. unfold ubyte, load8, u8. destruct (umapping s va); [apply Z.mod_pos_bound; lia|lia]. Qed.

Lemma uword_range s va : 0 <= uword s va < 4294967296.
Proof.
  unfold uword, le32, ubytes. change (seqZ 0 4) with [0; 1; 2; 3]. cbn [fmap list_fmap nth]. pose proof (ubyte_range s (va + 0)). pose proof (ubyte_range s (va + 1)).
  pose proof (ubyte_range s (va + 2)). pose proof (ubyte_range s (va + 3)). lia.
Qed.

Lemma u32_i32 z : u32 (i32 z) = u32 z.
Proof. unfold u32, i32. rewrite Zminus_mod, Zmod_mod, <- Zminus_mod. f_equal. lia. Qed.

Definition ptr_ok s (n size : Z) : Prop :=
  arg_addr s n + 4 <= p_sz (myproc s) /\ 0 <= size /\ arg s n < p_sz (myproc s) /\ arg s n + size <= p_sz (myproc s).

#[export] Instance ptr_ok_dec s n size : Decision (ptr_ok s n size).
Proof. unfold ptr_ok. apply _. Defined.

Lemma argptr_eq s n size : user_space s -> size < 2147483648 ->
  argptr n size s = Ret (if decide (ptr_ok s n size) then Some (arg s n) else None) s.
Proof.
  intros Hu Hs. unfold argptr. eapply bind_step; [by apply argint_eq|]. pose proof (uword_range s (arg_addr s n)) as Hw.
  change (uword s (arg_addr s n)) with (arg s n) in Hw. destruct (us_sz _ Hu) as [H0 H1].
  destruct (decide (arg_addr s n + 4 <= _)) as [Ha|Ha].
  2:{ rewrite decide_False; [done|]. by intros [? _]. }
  eapply bind_step; [done|]. rewrite u32_i32, (u32_small (arg s n)) by done. case_decide as Hd.
  - destruct Hd as (_ & H2 & H3 & H4). rewrite (u32_small (arg s n + size)) by (unfold KERNBASE in *; lia).
    rewrite (proj2 (Z.ltb_ge size 0)), (proj2 (Z.leb_gt _ _)), (proj2 (Z.ltb_ge _ _)) by lia. done.
  - destruct (size <? 0) eqn:E1; [done|]. destruct (p_sz (myproc s) <=? arg s n) eqn:E2; [done|]. bprop.
    rewrite (u32_small (arg s n + size)) by (unfold KERNBASE in *; lia). rewrite (proj2 (Z.ltb_lt _ _)); [done|].
    unfold ptr_ok in Hd. lia.
Qed.

(** The characters from [a] up to [end], if there is a NUL among them. *)
Fixpoint ustring s (n : nat) (a : Z) : option (list Z) :=
  match n with
  | O => None
  | Datatypes.S n' => if ubyte s a =? 0 then Some [] else cons (ubyte s a) <$> ustring s n' (a + 1)
  end.

Lemma fetch_chars_eq s n a : (forall k, a <= k < a + Z.of_nat n -> umapping s k <> None) ->
  fetch_chars n a s = Ret (ustring s n a) s.
Proof.
  revert a. induction n as [|n IH]; intros a Hm; [done|]. cbn [fetch_chars ustring].
  eapply bind_step; [apply uload8_eq, Hm; lia|]. destruct (_ =? 0); [done|].
  eapply bind_step; [apply IH; intros k Hk; apply Hm; lia|done].
Qed.

(** What such a string is. *)
Lemma ustring_spec s n a l : ustring s n a = Some l ->
  Z.of_nat (length l) < Z.of_nat n /\ ubyte s (a + Z.of_nat (length l)) = 0 /\
  forall i c, l !! i = Some c -> c = ubyte s (a + Z.of_nat i) /\ c <> 0.
Proof.
  revert a l. induction n as [|n IH]; intros a l; cbn [ustring]; [done|]. destruct (ubyte s a =? 0) eqn:E; bprop.
  - intros [= <-]. cbn. rewrite Z.add_0_r. split; [lia|]. split; [done|]. intros i c Hi. done.
  - intros (l' & Hl & ->)%fmap_Some. destruct (IH _ _ Hl) as (H1 & H2 & H3). cbn [length]. split; [lia|].
    split; [by replace (a + Z.of_nat (Datatypes.S (length l'))) with (a + 1 + Z.of_nat (length l')) by lia|].
    intros [|i] c; cbn.
    + intros [= <-]. by rewrite Z.add_0_r.
    + intros Hi. destruct (H3 i c Hi) as [-> Hne]. split; [|done]. f_equal. lia.
Qed.

Lemma ustring_none s n a : ustring s n a = None -> forall k, a <= k < a + Z.of_nat n -> ubyte s k <> 0.
Proof.
  revert a. induction n as [|n IH]; intros a; cbn [ustring]; [lia|]. destruct (ubyte s a =? 0) eqn:E; [done|]. bprop.
  intros Hn%fmap_None k Hk. destruct (decide (k = a)) as [->|]; [done|]. apply (IH (a + 1)); [done|lia].
Qed.

Lemma argstr_eq s n : user_space s -> argstr n s =
  Ret (if decide (arg_addr s n + 4 <= p_sz (myproc s)) then ustring s (Z.to_nat (p_sz (myproc s) - arg s n)) (arg s n) else None) s.
Proof.
  intros Hu. unfold argstr. eapply bind_step; [by apply argint_eq|]. case_decide as Ha; [|done].
  pose proof (uword_range s (arg_addr s n)) as Hw. change (uword s (arg_addr s n)) with (arg s n) in Hw.
  rewrite u32_i32, u32_small by done. unfold fetchstr. eapply bind_step; [done|]. destruct (_ <=? _) eqn:E; bprop.
  - by replace (Z.to_nat (p_sz (myproc s) - arg s n)) with O by lia.
  - apply fetch_chars_eq. intros k Hk. apply (us_map _ Hu). lia.
Qed.

(** C30: The argument checks are exact and safe.  For a process whose pages below
    its size are mapped, fetching an argument never faults and changes
    nothing; a word is returned exactly if it lies below [sz]; a pointer
    exactly if the whole buffer does; a string exactly if a NUL follows below
    [sz], and then it is the bytes up to the first NUL. *)
Theorem args_checked s n : user_space s ->
  argint n s = Ret (if decide (arg_addr s n + 4 <= p_sz (myproc s)) then Some (i32 (arg s n)) else None) s /\
  (forall size, size < 2147483648 -> argptr n size s = Ret (if decide (ptr_ok s n size) then Some (arg s n) else None) s) /\
  (exists r, argstr n s = Ret r s /\
     match r with
     | Some l => arg s n + Z.of_nat (length l) < p_sz (myproc s) /\ ubyte s (arg s n + Z.of_nat (length l)) = 0 /\
                 forall i c, l !! i = Some c -> c = ubyte s (arg s n + Z.of_nat i) /\ c <> 0
     | None => p_sz (myproc s) < arg_addr s n + 4 \/ forall k, arg s n <= k < p_sz (myproc s) -> ubyte s k <> 0
     end).
Proof.
  intros Hu. split; [by apply argint_eq|]. split; [intros size Hs; by apply argptr_eq|]. eexists. split; [by apply argstr_eq|].
  pose proof (us_sz _ Hu) as Hsz. case_decide as Ha; [|left; lia]. destruct (ustring _ _ _) as [l|] eqn:E.
  - destruct (ustring_spec _ _ _ _ E) as (H1 & H2 & H3). split; [lia|done].
  - right. intros k Hk. apply (ustring_none _ _ _ E). pose proof (uword_range s (arg_addr s n)). lia.
Qed.

(** ** Shared memory is out of reach of the system calls *)

Lemma argfd_keeps s n : user_space s -> exists r, argfd n s = Ret r s.
Proof.
  intros Hu. unfold argfd. pose proof (argint_eq s n Hu) as E. destruct (decide _).
  - erewrite bind_step; [|exact E|eapply bind_step; [done|reflexivity]].
    destruct (_ || _); [by eexists|]. destruct (_.[_]); by eexists.
  - erewrite bind_step; [|exact E|reflexivity]. by eexists.
Qed.

Lemma or_fail_none {A} (c : M (os S) (option A)) k s : c s = Ret None s -> or_fail c k s = Ret (-1) s.
Proof. intros E. by eapply bind_step. Qed.

Lemma or_fail_any {A} (c : M (os S) (option A)) k s r : c s = Ret r s -> (forall a, k a s = Ret (-1) s) -> or_fail c k s = Ret (-1) s.
Proof. intros E Hk. eapply bind_step; [exact E|]. by destruct r. Qed.

Lemma argptr_above s n size : user_space s -> size < 2147483648 -> p_sz (myproc s) <= arg s n -> argptr n size s = Ret None s.
Proof. intros Hu Hs Ha. rewrite argptr_eq by done. rewrite decide_False; [done|]. intros (_ & _ & ? & _). lia. Qed.

Lemma argstr_above s n : user_space s -> p_sz (myproc s) <= arg s n -> argstr n s = Ret None s.
Proof. intros Hu Ha. rewrite argstr_eq by done. case_decide; [|done]. by replace (Z.to_nat _) with O by lia. Qed.

Lemma i32_upper z : i32 z < 2147483648.
Proof. unfold i32. pose proof (Z.mod_pos_bound (z + 2147483648) 4294967296). lia. Qed.

(** [read] and [write] with the buffer as second argument. *)
Lemma rw_above (k : Z -> Z -> Z -> M (os S) Z) s : user_space s -> p_sz (myproc s) <= arg s 1 ->
  or_fail (argfd 0) (fun '(_, f) => or_fail (argint 2) (fun n => or_fail (argptr 1 n) (fun p => k f n p))) s = Ret (-1) s.
Proof.
  intros Hu Ha. destruct (argfd_keeps s 0 Hu) as [r E]. eapply or_fail_any; [exact E|]. intros [fd f].
  pose proof (argint_eq s 2 Hu) as E2. destruct (decide _).
  - eapply bind_step; [exact E2|]. cbn. apply or_fail_none, argptr_above; [done|apply i32_upper|done].
  - by apply or_fail_none.
Qed.
End Args.

Section Refused.
Context {L : Layout} {S : Type} `{TxStore S}.
Implicit Types s : os S.
Context (devread : Z -> option (Z -> Z -> M (fsst S) (Z * list Z))).
Context (devwrite : Z -> option (Z -> list Z -> M (fsst S) Z)).

(** No system call takes a buffer or a name in attached shared memory: the
    window of [shmat] starts at [HEAPLIMIT], above the size of any process, so
    [read], [write], [open], [unlink], [link], [exec] and [pipe] with a
    pointer into it return -1 and change nothing. *)
Theorem shared_buffer_refused s : user_space s -> p_sz (myproc s) <= HEAPLIMIT ->
  (HEAPLIMIT <= arg s 1 -> sys_read devread s = Ret (-1) s /\ sys_write devwrite s = Ret (-1) s) /\
  (HEAPLIMIT <= arg s 0 ->
     sys_open devread devwrite s = Ret (-1) s /\ sys_unlink devread devwrite s = Ret (-1) s /\
     sys_link devread devwrite s = Ret (-1) s /\ sys_exec devread s = Ret (-1) s /\ sys_pipe s = Ret (-1) s).
Proof.
  intros Hu Hsz. split; intros Ha.
  - split; [apply (rw_above _ s)|apply (rw_above _ s)]; (done || lia).
  - assert (argstr 0 s = Ret None s) as E by (apply argstr_above; (done || lia)).
    split; [by apply or_fail_none|]. split; [by apply or_fail_none|]. split; [by apply or_fail_none|].
    split; [by apply or_fail_none|]. apply or_fail_none, argptr_above; (done || lia).
Qed.
End Refused.

(** ** Descriptors *)

Section Descriptors.
Context {L : Layout} {S : Type} `{TxStore S}.
Implicit Types s : os S.

Definition ofile s (fd : Z) : option Z := (p_ofile (myproc s)).[fd].

(** [s'] is [s] with descriptor [fd] of the running process set to [f]. *)
Definition with_fd (fd : Z) (f : option Z) s : os S :=
  set_procs (upd (me s) (fun x => with_ofile (<[fd := f]> (p_ofile x)) x) (procs s)) s.

Lemma ofile_with_fd s fd f k : ofile (with_fd fd f s) k = if decide (fd = k) then f else ofile s k.
Proof. unfold ofile, myproc, with_fd. cbn. rewrite upd_eq. cbn. apply asel_insert. Qed.

Lemma wp_set_ofile s fd f (Q : unit -> os S -> Prop) : in_tab (me s) -> Q tt (with_fd fd f s) -> wp (set_ofile fd f) Q s.
Proof. intros Hm HQ. apply wp_bind, wp_gets. by apply wp_upd_proc. Qed.

(** [fdalloc] takes the lowest free descriptor. *)
Lemma wp_fdalloc s f (Q : Z -> os S -> Prop) : in_tab (me s) ->
  (forall fd, 0 <= fd < NOFILE -> ofile s fd = None -> (forall k, 0 <= k < fd -> ofile s k <> None) -> Q fd (with_fd fd (Some f) s)) ->
  ((forall k, 0 <= k < NOFILE -> ofile s k <> None) -> Q (-1) s) ->
  wp (fdalloc f) Q s.
Proof.
  intros Hm Hsome Hnone. apply wp_bind.
  apply (wp_for_exit (fun i s' => s' = s /\ forall k, 0 <= k < i -> ofile s k <> None)).
  - split; [done|lia].
  - intros i s' Hi [-> Hk]. apply wp_bind, wp_gets. fold (ofile s i). destruct (ofile s i) as [g|] eqn:E.
    + apply wp_ret. split; [done|]. intros k Hki. destruct (decide (k = i)) as [->|]; [by rewrite E|]. apply Hk. lia.
    + apply wp_bind, wp_set_ofile; [done|]. apply wp_ret, wp_ret. by apply Hsome.
  - intros s' [-> Hk]. apply wp_ret, Hnone. intros k Hkr. apply Hk. lia.
Qed.

(** The table of open files with entry [f] replaced. *)
Definition with_file (f : Z) (x : file) s : os S :=
  set_fl (set_ftab (<[f := x]> (ftab (fl s))) (lget files_lens s)) s.

Lemma wp_filedup s f (Q : Z -> os S -> Prop) : ft_lock (fl s) = false -> 0 <= f < NFILE -> 1 <= f_ref (ftab (fl s)).[f] ->
  Q f (with_file f (with_fref (f_ref (ftab (fl s)).[f] + 1) (ftab (fl s)).[f]) s) -> wp (zoom files_lens (filedup f)) Q s.
Proof.
  intros Hl Hf Hr HQ. apply wp_zoom. apply wp_bind, Lock.wp_acquire; [done|]. apply wp_bind, wp_aget; [done|]. cbn.
  rewrite (proj2 (Z.ltb_ge _ _)) by done. apply wp_bind, wp_aset; [done|]. apply wp_bind, Lock.wp_release; [done|].
  apply wp_ret. unfold with_file in HQ. cbn in HQ. rewrite Hl in HQ. exact HQ.
Qed.

Lemma wp_fileclose_shared s f (Q : unit -> os S -> Prop) : ft_lock (fl s) = false -> 0 <= f < NFILE -> 2 <= f_ref (ftab (fl s)).[f] ->
  Q tt (with_file f (with_fref (f_ref (ftab (fl s)).[f] - 1) (ftab (fl s)).[f]) s) -> wp (zoom files_lens (fileclose f)) Q s.
Proof.
  intros Hl Hf Hr HQ. apply wp_zoom. apply wp_bind, Lock.wp_acquire; [done|]. apply wp_bind, wp_aget; [done|]. cbn.
  rewrite (proj2 (Z.ltb_ge _ _)) by lia. apply wp_bind, wp_aset; [done|]. rewrite (proj2 (Z.ltb_lt _ _)) by lia.
  apply Lock.wp_release; [done|]. unfold with_file in HQ. cbn in HQ. rewrite Hl in HQ. exact HQ.
Qed.

(** What the two calls leave alone. *)
Record same_system s s' : Prop := {
  ss_procs : forall i, i <> me s -> (procs s').[i] = (procs s).[i];
  ss_me : me s' = me s;
  ss_pages : pages (fl s') = pages (fl s) /\ pipes (fl s') = pipes (fl s);
  ss_disk : disk (fsys (fl s')) = disk (fsys (fl s)) /\ inodes (fsys (fl s')) = inodes (fsys (fl s))
}.

Lemma with_fref_back x : with_fref (f_ref x + 1 - 1) (with_fref (f_ref x + 1) x) = x.
Proof. destruct x. unfold with_fref. cbn. f_equal. lia. Qed.

(** [dup] gives the lowest free descriptor, or fails without effect when
    there is none; the file has one more reference, so that closing the new
    descriptor keeps it open, and gives back the descriptors and the file table
    the process had. *)
Theorem dup_close_roundtrip s f : in_tab (me s) -> ft_lock (fl s) = false -> 0 <= f < NFILE -> 1 <= f_ref (ftab (fl s)).[f] ->
  wp (dup_file f) (fun fd s1 =>
    (fd = -1 /\ s1 = s /\ forall k, 0 <= k < NOFILE -> ofile s k <> None) \/
    (0 <= fd < NOFILE /\ ofile s fd = None /\ (forall k, 0 <= k < fd -> ofile s k <> None) /\
     (forall k, ofile s1 k = if decide (fd = k) then Some f else ofile s k) /\
     f_ref (ftab (fl s1)).[f] = f_ref (ftab (fl s)).[f] + 1 /\ same_system s s1 /\
     wp (close_fd fd f) (fun r s2 => r = 0 /\ same_system s s2 /\
       (forall k, ofile s2 k = ofile s k) /\ forall g, (ftab (fl s2)).[g] = (ftab (fl s)).[g]) s1)) s.
Proof.
  intros Hm Hl Hf Hr. apply wp_bind. apply wp_fdalloc; [done| |].
  - intros fd Hfd Hn Hk. rewrite (proj2 (Z.ltb_ge fd 0)) by lia. apply wp_bind. apply wp_filedup; [done..|]. apply wp_ret.
    right. split; [done|]. split; [done|]. split; [done|]. split; [intros k; apply (ofile_with_fd s)|].
    split; [cbn; by rewrite asel_insert_eq|]. split.
    { split; [|done|done|done]. intros i Hi. cbn. by rewrite upd_ne. }
    apply wp_bind, wp_set_ofile; [done|]. apply wp_bind, wp_fileclose_shared; [done|done|cbn; rewrite asel_insert_eq; cbn; lia|].
    apply wp_ret. split; [done|]. split; [split; [|done|done|done]|split].
    + intros i Hi. cbn. by rewrite !upd_ne.
    + intros k. unfold ofile, myproc, with_fd, with_file. cbn. rewrite upd_upd, upd_eq. cbn. rewrite insert_insert_eq, asel_insert.
      destruct (decide (fd = k)) as [<-|]; [by rewrite <- Hn|done].
    + intros g. cbn. rewrite asel_insert_eq, insert_insert_eq, asel_insert. cbn.
      destruct (decide (f = g)) as [<-|]; [apply with_fref_back|done].
  - intros Hfull. rewrite (proj2 (Z.ltb_lt (-1) 0)) by lia. apply wp_ret. by left.
Qed.
End Descriptors.

(** ** A process with one page, whose second argument points to shared memory *)

Section SmallUser.
#[local] Existing Instance sample_layout.

Definition user_k : kst :=
  set_mem (store32 (store32 (mem sample_user) (page 10 + 4 * 2) 0x7F000000) (page 30 + 4 * 17) 0) sample_user.

Lemma user_k_frame : frame (fun q => q = page 10 \/ q = page 30) (mem sample_user) (mem user_k).
Proof.
  eapply frame_trans; [eapply frame_weaken; [|apply (store32_frame _ (page 10) 2); [reflexivity|lia]]; intros q <-; by left|].
  eapply frame_weaken; [|apply (store32_frame _ (page 30) 17); [reflexivity|lia]]. intros q <-. by right.
Qed.

Definition user_proc : proc := with_mem 4096 (page 20) (with_frames (page 30) 0 (with_state RUNNING czero)).

Definition user_os : os (lst bst) :=
  mkos false (<[1 := user_proc]> ∅) 3 (Some 0) 1 (V2P (page 20))
    (mkfl false (ftab small_files) ∅ user_k (fsys small_files) false) (sample free5) false (mkcpu 0 false true).

Lemma user_mapping va : 0 <= va < 4096 -> umapping user_os va = Some (V2P (page 10) + 7).
Proof.
  intros Hva. destruct sample_user_vm as [Hvm Hm].
  change (umapping user_os va) with (mapping (mem user_k) (P2V (V2P (page 20))) va).
  replace (P2V (V2P (page 20))) with (page 20) by (vm_compute; reflexivity).
  erewrite mapping_frame; [|apply (vi_ok _ _ _ _ Hvm)|apply user_k_frame| |lia].
  - rewrite Hm by lia. rewrite decide_True; [done|]. unfold page_of, PGSIZE. rewrite Z.mod_small by lia. lia.
  - intros q [Hq|[i Hq]] Hn; [subst q|unfold user_tabs in Hq; apply lookup_singleton_Some in Hq as [_ <-]];
      by destruct Hn as [Hn|Hn]; apply page_inj in Hn.
Qed.

Lemma user_os_space : user_space user_os.
Proof.
  split; [change (0 <= 4096 <= KERNBASE); split; discriminate|]. intros va Hva. change (p_sz (myproc user_os)) with 4096 in Hva. by rewrite user_mapping.
Qed.

Lemma user_byte va : 0 <= va < 4096 -> ubyte user_os va = load8 (mem user_k) (page 10 + va).
Proof.
  intros Hva. unfold ubyte. rewrite user_mapping by lia. change (mem (pages (fl user_os))) with (mem user_k).
  unfold frame_addr, PGSIZE. rewrite Z.mod_small by lia.
  replace (P2V (PTE_ADDR (V2P (page 10) + 7))) with (page 10) by (vm_compute; reflexivity). reflexivity.
Qed.

Lemma user_arg1 : arg user_os 1 = 0x7F000000.
Proof.
  assert (arg_addr user_os 1 = 8) as E.
  { unfold arg_addr. change (mem (pages (fl user_os))) with (mem user_k). change (p_tf (myproc user_os)) with (page 30).
    change (page 30 + TF_ESP) with (page 30 + 4 * 17). unfold user_k. cbn [mem set_mem]. by rewrite load32_store32_eq. }
  unfold arg. rewrite E. unfold uword, ubytes. change (seqZ 0 4) with [0; 1; 2; 3]. cbn [fmap list_fmap].
  rewrite (user_byte (8 + 0)), (user_byte (8 + 1)), (user_byte (8 + 2)), (user_byte (8 + 3)) by lia. unfold user_k. cbn [mem set_mem].
  rewrite !load8_store32_ne with (a := page 30 + 4 * 17) by (unfold page, PGSIZE; lia).
  rewrite !load8_store32, !decide_True by lia. vm_compute. reflexivity.
Qed.

Lemma args_checked_witness : user_space user_os /\ argptr 1 16 user_os = Ret None user_os.
Proof.
  split; [exact user_os_space|]. destruct (args_checked user_os 1 user_os_space) as (_ & H & _).
  rewrite (H 16 ltac:(lia)). rewrite decide_False; [reflexivity|]. intros (_ & _ & Hlt & _). rewrite user_arg1 in Hlt.
  change (p_sz (myproc user_os)) with 4096 in Hlt. lia.
Defined.

Lemma shared_buffer_refused_witness : HEAPLIMIT <= arg user_os 1 /\
  sys_write (fun _ => None) user_os = Ret (-1) user_os.
Proof.
  assert (HEAPLIMIT <= arg user_os 1) as Ha by (rewrite user_arg1; discriminate). split; [exact Ha|].
  assert (p_sz (myproc user_os) <= HEAPLIMIT) as Hsz by (change (4096 <= HEAPLIMIT); discriminate).
  destruct (shared_buffer_refused (fun _ => None) (fun _ => None) user_os user_os_space Hsz) as [Hw _].
  destruct (Hw Ha) as [_ Hs]. exact Hs.
Defined.

Lemma dup_close_roundtrip_witness : wp (dup_file 0) (fun fd s1 => fd = -1 \/ wp (close_fd fd 0) (fun r _ => r = 0) s1) user_os.
Proof.
  eapply wp_mono; [|apply (dup_close_roundtrip user_os 0); [split; [discriminate|reflexivity]|reflexivity|split; [discriminate|reflexivity]|discriminate]].
  intros fd s1 [[-> _]|(_ & _ & _ & _ & _ & _ & Hc)]; [by left|]. right. eapply wp_mono; [|exact Hc]. by intros r s2 [-> _].
Defined.

End SmallUser.
