(* ===== verification/ExecTheorems.v ===== *)
(** * Loading a program: the initial stack

    [exec] builds the stack of the new program in one page, above a page the
    program may not access.  If the arguments fit, the program finds them where
    [main] expects them; if they do not, [exec] notices and fails. *)

From stdpp Require Import base tactics numbers gmap strings list.
From Stdlib Require Import ZArith Lia.
From S2P Require Import Prelude Mmu Memory Spinlock Kalloc Vm VmFacts VmUser VmCopy Shm Sample VmTheorems Sleeplock Cache Log Store Fs FsRw Pipe File Proc Syscall Exec.

(** The stack space a string takes, and all of them. *)
Definition round4 (n : Z) : Z := 4 * ((n + 3) / 4).
Definition arg_space (a : list Z) : Z := round4 (Z.of_nat (length a) + 1).
Fixpoint args_space (argv : list (list Z)) : Z :=
  match argv with
  | [] => 0
  | a :: argv' => arg_space a + args_space argv'
  end.

(** With the words below them. *)
Definition stack_space (argv : list (list Z)) : Z := args_space argv + 4 * (Z.of_nat (length argv) + 4).

Lemma land_not3 a : 0 <= a < 4294967296 -> Z.land a (u32 (Z.lnot 3)) = a - a mod 4.
Proof.
  intros Ha. change (u32 (Z.lnot 3)) with (Z.land (Z.ones 32) (Z.lnot (Z.ones 2))).
  rewrite Z.land_assoc, Z.land_ones by lia. rewrite <- Z.ldiff_land, Z.ldiff_ones_r by lia.
  rewrite Z.shiftl_mul_pow2, Z.shiftr_div_pow2 by lia.
  change (2 ^ 32) with 4294967296. change (2 ^ 2) with 4. wrap_lia.
Qed.

Lemma arg_space_pos a : 0 < arg_space a /\ arg_space a mod 4 = 0 /\ Z.of_nat (length a) + 1 <= arg_space a <= Z.of_nat (length a) + 4.
Proof. unfold arg_space, round4. Z.to_euclidean_division_equations. lia. Qed.

Lemma args_space_nonneg argv : 0 <= args_space argv /\ args_space argv mod 4 = 0.
Proof.
  induction argv as [|a argv IH]; cbn [args_space]; [done|]. pose proof (arg_space_pos a).
  split; [lia|]. rewrite Z.add_mod by done. destruct IH as [_ ->]. destruct H as (_ & -> & _). done.
Qed.

(** ** [clearpteu], and addresses that are not the program's *)

Section Entries.
Context {L : Layout}.

Definition no_user (g : Z) : Z := Z.land g (u32 (Z.lnot PTE_U)).

Lemma no_user_bits g : 0 <= g < 4294967296 -> 0 <= no_user g < 4294967296 /\ has (no_user g) PTE_P = has g PTE_P /\
  has (no_user g) PTE_U = false /\ PTE_ADDR (no_user g) = PTE_ADDR g.
Proof.
  intros Hg. assert (0 <= no_user g < 4294967296) as Hb.
  { unfold no_user. split; [apply Z.land_nonneg; lia|]. change (u32 (Z.lnot PTE_U)) with (Z.ones 32 - 4).
    destruct (Z.eq_dec (Z.land g (Z.ones 32 - 4)) 0) as [->|Hn]; [done|].
    apply (Z.log2_lt_pow2 _ 32); [pose proof (proj2 (Z.land_nonneg g (Z.ones 32 - 4)) (or_introl (proj1 Hg))); lia|].
    eapply Z.le_lt_trans; [apply Z.log2_land; [lia|done]|]. change (Z.log2 (Z.ones 32 - 4)) with 31. lia. }
  split; [done|]. unfold has, PTE_ADDR. rewrite (u32_small (no_user g)), (u32_small g) by done. unfold no_user.
  rewrite <- !Z.land_assoc. change (Z.land (u32 (Z.lnot PTE_U)) PTE_P) with PTE_P. change (Z.land (u32 (Z.lnot PTE_U)) PTE_U) with 0.
  rewrite Z.land_0_r. by change (Z.land (u32 (Z.lnot PTE_U)) (u32 (Z.lnot 0xFFF))) with (u32 (Z.lnot 0xFFF)).
Qed.

Lemma wp_clearpteu k l pgdir tabs us b q g (Q : unit -> kst -> Prop) : as_inv k l pgdir tabs us -> us !! b = Some q ->
  mapping (mem k) pgdir b = Some g ->
  (forall k', as_inv k' l pgdir tabs us ->
     (forall va, 0 <= va < 4294967296 ->
        mapping (mem k') pgdir va = if decide (b = page_of va) then Some (no_user g) else mapping (mem k) pgdir va) ->
     frame (vpage pgdir tabs) (mem k) (mem k') -> Q tt k') ->
  wp (clearpteu pgdir b) Q k.
Proof.
  intros Hi Hq Hm HQ. pose proof (as_vm _ _ _ _ _ Hi) as Hvm. destruct (as_dom _ _ _ _ _ Hi _ _ Hq) as (Hb & Hal & Hpok).
  destruct (as_table _ _ _ _ _ _ _ Hi Hq) as (t & e & Ht & Hl & Hh & He). assert (0 <= b < 4294967296) as Hb' by mlia.
  rewrite (mapping_entry _ _ _ _ b t Hvm Hb' Ht), Hl in Hm. unfold present in Hm. rewrite Hh in Hm. injection Hm as ->.
  assert (0 <= g < 4294967296) as Hg by (rewrite <- Hl; apply load32_range).
  destruct (no_user_bits g Hg) as (Hn & HP & HU & HA).
  unfold clearpteu. apply wp_bind. eapply wp_of_eq; [eapply walk_noalloc; [exact Hvm|exact Hb']|]. rewrite Ht.
  rewrite (walk_nonnull _ _ _ _ b t Hvm Hb' Ht). apply wp_bind, wp_gets. rewrite Hl. apply wp_modify.
  change (Z.land g (u32 (Z.lnot PTE_U))) with (no_user g).
  destruct (with_pte_ok k l pgdir tabs b t (no_user g) Hvm Hb' Ht Hn) as (Hvm' & Hm' & Hf').
  assert (page_of b = b) as Epb by (unfold page_of; mlia). unfold present in Hm'. rewrite HP, Hh, Epb in Hm'.
  apply HQ; [|exact Hm'|eapply frame_weaken; [|exact Hf']; intros x <-; right; eauto].
  split; [exact Hvm'| |apply Hi|apply Hi|apply Hi]. intros va Hva Ha. rewrite Hm' by mlia.
  destruct (decide (b = page_of va)) as [E|E]; [|by apply (as_map _ _ _ _ _ Hi)].
  assert (va = b) as -> by (unfold page_of in E; mlia). exists q. split; [done|]. by rewrite HA.
Qed.

(** [uva2ka] of a mapped address without [PTE_U]. *)
Lemma uva2ka_kernel k l pgdir tabs va g : vm_inv k l pgdir tabs -> 0 <= va < 4294967296 ->
  mapping (mem k) pgdir va = Some g -> has g PTE_U = false -> uva2ka pgdir va k = Ret 0 k.
Proof.
  intros Hvm Hva Hm HU. destruct (mapping_table _ _ _ _ va g Hvm Hva Hm) as [t Ht].
  rewrite (mapping_entry _ _ _ _ va t Hvm Hva Ht) in Hm. unfold present in Hm. destruct (has (load32 _ _) PTE_P) eqn:Hh; [|done]. injection Hm as Hl.
  unfold uva2ka. eapply bind_step; [eapply walk_noalloc; [exact Hvm|exact Hva]|]. rewrite Ht, (walk_nonnull _ _ _ _ va t Hvm Hva Ht).
  eapply bind_step; [done|]. rewrite Hl in *. unfold has in Hh, HU. rewrite negb_true_iff in Hh. rewrite negb_false_iff in HU. by rewrite Hh, HU.
Qed.
End Entries.

Section Stack.
Context {L : Layout}.
Context (l : list Z) (pgdir : Z) (tabs us : gmap Z Z) (base p e : Z).

(** The page of the stack, [p] at [base]. *)
Record stack_page (k : kst) : Prop := {
  sp_inv : as_inv k l pgdir tabs us;
  sp_page : us !! base = Some p /\ mapping (mem k) pgdir base = Some e /\ has e PTE_U = true;
  sp_base : base mod 4096 = 0 /\ base + 4096 <= HEAPLIMIT
}.

(** Only the bytes of the stack from [lo] up to [hi] differ. *)
Record stack_wrote (lo hi : Z) (k k' : kst) : Prop := {
  sw_mem : forall a, ~ (p + (lo - base) <= a < p + (hi - base)) -> load8 (mem k') a = load8 (mem k) a;
  sw_rest : freelist k' = freelist k /\ klocked k' = klocked k
}.

Lemma stack_wrote_refl lo hi k : stack_wrote lo hi k k.
Proof. by split. Qed.

Lemma stack_wrote_trans lo mid hi k k1 k2 : lo <= mid <= hi -> stack_wrote mid hi k k1 -> stack_wrote lo mid k1 k2 -> stack_wrote lo hi k k2.
Proof.
  intros Hle [H1 [E1 E2]] [H2 [E3 E4]]. split; [|split; congruence]. intros a Ha. rewrite H2, H1 by lia. done.
Qed.

Lemma stack_page_wrote k k' lo hi : stack_page k -> base <= lo -> hi <= base + 4096 -> stack_wrote lo hi k k' -> stack_page k'.
Proof.
  intros [Hi (Hp & Hm & HU) Hb] Hlo Hhi [Hw [Ef Ek]]. pose proof (as_dom _ _ _ _ _ Hi _ _ Hp) as (_ & _ & Hpok).
  assert (frame (eq p) (mem k) (mem k')) as Hf.
  { intros a Ha. apply Hw. intros Hr. apply Ha. symmetry. apply page_of_range; [apply Hpok|]. unfold PGSIZE. lia. }
  split; [| |done].
  - eapply as_user_frame; [exact Hi| |done|done]. eapply frame_weaken; [|exact Hf]. intros q <-. by exists base.
  - split; [done|]. split; [|done]. rewrite <- Hm. eapply mapping_frame; [apply (as_vm _ _ _ _ _ Hi)|exact Hf| |].
    + intros q Hq <-. by destruct (as_own _ _ _ _ _ Hi _ _ Hp).
    + pose proof (as_dom _ _ _ _ _ Hi _ _ Hp). unfold HEAPLIMIT in *. lia.
Qed.

(** ** [copyout] into the page, and into the page below *)

Lemma put_bytes_wrote k va bs : base <= va ->
  stack_wrote va (va + Z.of_nat (length bs)) k (set_mem (put_bytes (mem k) (p + (va - base)) bs) k).
Proof.
  intros Hva. split; [|done]. intros a Ha. cbn [mem set_mem]. rewrite put_bytes_load8, patch_none by lia. done.
Qed.

Lemma copyout_turns va (bs : list Z) : base mod 4096 = 0 -> base <= va -> va + Z.of_nat (length bs) <= base + 4096 -> bs <> [] ->
  Z.to_nat ((va mod PGSIZE + Z.of_nat (length bs) + PGSIZE - 1) / PGSIZE) = 1%nat /\ va mod PGSIZE = va - base.
Proof.
  intros Hb Hva Hlen Hne. assert (0 < Z.of_nat (length bs)) by (destruct bs; [done|cbn; lia]). unfold PGSIZE.
  assert (va mod 4096 = va - base) as -> by (Z.to_euclidean_division_equations; lia). split; [|done].
  change 1%nat with (Z.to_nat 1). f_equal. Z.to_euclidean_division_equations. lia.
Qed.

Lemma wp_copyout_page k va bs (Q : Z -> kst -> Prop) : stack_page k -> base <= va -> va + Z.of_nat (length bs) <= base + 4096 -> bs <> [] ->
  Q 0 (set_mem (put_bytes (mem k) (p + (va - base)) bs) k) -> wp (copyout_bytes pgdir va bs) Q k.
Proof.
  intros [Hi (Hp & Hm & HU) [Hbal Hbmax]] Hva Hlen Hne HQ. unfold copyout_bytes.
  destruct (copyout_turns va bs Hbal Hva Hlen Hne) as [-> Hmod]. cbn [Nat.add iter].
  pose proof (as_dom _ _ _ _ _ Hi _ _ Hp) as (Hb0 & _ & Hpok). pose proof (page_ok_range p Hpok) as Hpr.
  assert (0 < Z.of_nat (length bs)) as Hpos by (destruct bs; [done|cbn; lia]).
  apply wp_bind. rewrite (proj2 (Z.ltb_lt 0 _)) by done. cbn [negb].
  assert (PGROUNDDOWN va = base) as ->.
  { rewrite PGROUNDDOWN_page by (unfold HEAPLIMIT in *; lia). unfold page_of. lia. }
  apply wp_bind. eapply wp_of_eq; [eapply uva2ka_eq; [exact Hi|exact Hp|exact Hm]|]. rewrite HU.
  rewrite (proj2 (Z.eqb_neq p 0)) by mlia. rewrite (u32_small (PGSIZE - (va - base))) by (unfold PGSIZE; lia).
  set (n := if _ <? _ then _ else _). assert (n = Z.of_nat (length bs)) as ->.
  { unfold n. destruct (Z.ltb_spec (Z.of_nat (length bs)) (PGSIZE - (va - base))); unfold PGSIZE in *; lia. }
  rewrite Nat2Z.id, take_ge, drop_ge by lia. apply wp_bind, wp_modify, wp_ret. cbn. apply wp_bind, wp_ret. exact HQ.
Qed.

(** Below the stack is a page the program may not access, then the image; the
    addresses of the devices are mapped for the kernel. *)
Record below (k : kst) : Prop := {
  bw_guard : 4096 <= base /\ exists g, mapping (mem k) pgdir (base - 4096) = Some g /\ has g PTE_U = false;
  bw_image : forall va, 0 <= va < base -> va mod 4096 = 0 -> is_Some (us !! va);
  bw_dev : forall va, DEVSPACE <= va < 4294967296 -> exists g, mapping (mem k) pgdir va = Some g /\ has g PTE_U = false
}.

(** Only pages of the program have changed. *)
Record user_wrote (k k' : kst) : Prop := {
  uw_mem : frame (fun q => exists b, us !! b = Some q) (mem k) (mem k');
  uw_rest : freelist k' = freelist k /\ klocked k' = klocked k
}.

Lemma user_wrote_refl k : user_wrote k k.
Proof. by split. Qed.

Lemma user_wrote_trans k k1 k2 : user_wrote k k1 -> user_wrote k1 k2 -> user_wrote k k2.
Proof. intros [H1 [E1 E2]] [H2 [E3 E4]]. split; [by eapply frame_trans|split; congruence]. Qed.

Lemma user_wrote_mapping k k' va : as_inv k l pgdir tabs us -> user_wrote k k' -> 0 <= va < 4294967296 ->
  mapping (mem k') pgdir va = mapping (mem k) pgdir va.
Proof.
  intros Hi [Hw _]. eapply mapping_frame; [apply (as_vm _ _ _ _ _ Hi)|exact Hw|].
  intros q Hq [b Hb]. by destruct (as_own _ _ _ _ _ Hi _ _ Hb).
Qed.

Lemma user_wrote_inv k k' : as_inv k l pgdir tabs us -> user_wrote k k' -> as_inv k' l pgdir tabs us.
Proof. intros Hi [Hw [E1 E2]]. by eapply as_user_frame. Qed.

Lemma below_wrote k k' : as_inv k l pgdir tabs us -> base + 4096 <= HEAPLIMIT -> user_wrote k k' -> below k -> below k'.
Proof.
  intros Hi Hmax Hw [(Hb & g & Hg) H2 H3]. split; [split; [done|]|exact H2|].
  - exists g. by rewrite (user_wrote_mapping _ _ _ Hi Hw) by (unfold HEAPLIMIT in *; lia).
  - intros va Hva. destruct (H3 va Hva) as (g' & Hg'). exists g'. by rewrite (user_wrote_mapping _ _ _ Hi Hw) by (unfold DEVSPACE in *; lia).
Qed.

Lemma stack_user_wrote k k' lo hi : stack_page k -> base <= lo -> hi <= base + 4096 -> stack_wrote lo hi k k' -> user_wrote k k'.
Proof.
  intros [Hi (Hp & _) Hb] Hlo Hhi [Hw Hr]. split; [|done]. pose proof (as_dom _ _ _ _ _ Hi _ _ Hp) as (_ & _ & Hpok).
  intros a Ha. apply Hw. intros Hin. apply Ha. exists base. rewrite Hp. f_equal. symmetry. apply page_of_range; [apply Hpok|]. unfold PGSIZE. lia.
Qed.

(** A page of the image below the guard page. *)
Lemma wp_copyout_image k va (bs : list Z) (Q : Z * list Z + Z -> kst -> Prop) : as_inv k l pgdir tabs us -> below k ->
  base mod 4096 = 0 -> base + 4096 <= HEAPLIMIT -> 0 <= va < base -> base - 4096 < va + Z.of_nat (length bs) -> 0 < Z.of_nat (length bs) ->
  Q (inr (-1)) k ->
  (forall k', user_wrote k k' -> page_of va + 4096 <= base - 4096 -> 
     Q (inl (page_of va + 4096, drop (Z.to_nat (page_of va + 4096 - va)) bs)) k') ->
  wp (let len := Z.of_nat (length bs) in
      if negb (0 <? len) then ret (inr 0) else
      let va0 := PGROUNDDOWN va in
      let* pa0 := uva2ka pgdir va0 in
      if pa0 =? 0 then ret (inr (-1)) else
      let n := u32 (PGSIZE - (va - va0)) in
      let n := if len <? n then len else n in
      modify (fun k => set_mem (put_bytes (mem k) (pa0 + (va - va0)) (take (Z.to_nat n) bs)) k) ;;;
      ret (inl (u32 (va0 + PGSIZE), drop (Z.to_nat n) bs))) Q k.
Proof.
  intros Hi Hbw Hal Hmax Hva Hreach Hpos H1 H2. destruct (bw_guard _ Hbw) as (Hb & g & Hg & HUg). cbv zeta.
  assert (page_of va mod 4096 = 0 /\ page_of va <= va < page_of va + 4096 /\ 0 <= page_of va) as (Ha0 & Hr0 & Hp0)
    by (unfold page_of, PGSIZE; Z.to_euclidean_division_equations; lia).
  rewrite (proj2 (Z.ltb_lt 0 _) Hpos). cbn [negb]. rewrite PGROUNDDOWN_page by (unfold HEAPLIMIT in *; lia).
  destruct (decide (page_of va = base - 4096)) as [E|E].
  - apply wp_bind. eapply wp_of_eq; [eapply uva2ka_kernel; [apply Hi| |rewrite E; exact Hg|exact HUg]|]; [unfold HEAPLIMIT in *; lia|].
    cbn. by apply wp_ret.
  - assert (page_of va + 4096 <= base - 4096) as Hlow by (Z.to_euclidean_division_equations; lia).
    destruct (bw_image _ Hbw (page_of va) ltac:(lia) Ha0) as [q Hq].
    pose proof (as_map _ _ _ _ _ Hi (page_of va) ltac:(lia) Ha0) as Hm. destruct (mapping (mem k) pgdir (page_of va)) as [e'|] eqn:Em; [|congruence].
    apply wp_bind. eapply wp_of_eq; [eapply uva2ka_eq; [exact Hi|exact Hq|exact Em]|]. destruct (has e' PTE_U); [|cbn; by apply wp_ret].
    destruct (as_dom _ _ _ _ _ Hi _ _ Hq) as (_ & _ & Hqok). pose proof (page_ok_range q Hqok). rewrite (proj2 (Z.eqb_neq q 0)) by mlia.
    rewrite (u32_small (PGSIZE - (va - page_of va))) by (unfold PGSIZE; lia). rewrite (proj2 (Z.ltb_ge _ _)) by (unfold PGSIZE; lia).
    apply wp_bind, wp_modify, wp_ret. rewrite (u32_small (page_of va + PGSIZE)) by (unfold PGSIZE, HEAPLIMIT in *; lia).
    replace (PGSIZE - (va - page_of va)) with (page_of va + 4096 - va) by (unfold PGSIZE; lia). apply H2; [|done].
    split; [|done]. intros a Ha. cbn [mem set_mem]. assert (~ q <= a < q + 4096) as Hout.
    { intros Hin. apply Ha. exists (page_of va). rewrite Hq. f_equal. symmetry. by apply page_of_range; [apply Hqok|]. }
    rewrite put_bytes_load8, patch_none; [done|]. rewrite length_take. lia.
Qed.

(** A copy that starts below the stack runs into the guard page. *)
Lemma wp_copyout_below k va bs (Q : Z -> kst -> Prop) : as_inv k l pgdir tabs us -> below k ->
  base mod 4096 = 0 -> base + 4096 <= HEAPLIMIT -> 0 <= va < base -> base - 4096 < va + Z.of_nat (length bs) -> 0 < Z.of_nat (length bs) ->
  (forall k', user_wrote k k' -> Q (-1) k') -> wp (copyout_bytes pgdir va bs) Q k.
Proof.
  intros Hi Hbw Hal Hmax Hva Hreach Hpos HQ. unfold copyout_bytes.
  apply (wp_iter (fun '(va', bs') k' => user_wrote k k' /\ 0 <= va' < base /\ base - 4096 < va' + Z.of_nat (length bs') /\ 0 < Z.of_nat (length bs'))
    (fun '(va', bs') => Z.to_nat ((va' mod PGSIZE + Z.of_nat (length bs') + PGSIZE - 1) / PGSIZE))); [|split; [apply user_wrote_refl|done]|lia].
  intros [va' bs'] k' (Hw & Hva' & Hr' & Hp'). apply wp_copyout_image; [by eapply user_wrote_inv|by eapply below_wrote|done|done|done|done|done|by apply HQ|].
  intros k2 Hw2 Hlow. assert (page_of va' = va' - va' mod 4096) as Ep by done.
  assert (0 <= va' mod 4096 < 4096) as Hmod by (apply Z.mod_pos_bound; done).
  rewrite length_drop. split; [split; [by eapply user_wrote_trans|lia]|].
  assert ((page_of va' + 4096) mod PGSIZE = 0) as -> by (unfold page_of, PGSIZE; Z.to_euclidean_division_equations; lia).
  unfold PGSIZE. apply Z2Nat.inj_lt; Z.to_euclidean_division_equations; lia.
Qed.

(** A copy to an address of the devices fails at once. *)
Lemma wp_copyout_dev k va bs (Q : Z -> kst -> Prop) : as_inv k l pgdir tabs us -> below k ->
  DEVSPACE <= va < 4294967296 -> bs <> [] -> Q (-1) k -> wp (copyout_bytes pgdir va bs) Q k.
Proof.
  intros Hi Hbw Hva Hne HQ. unfold copyout_bytes. rewrite Nat.add_1_r. cbn [iter].
  assert (0 < Z.of_nat (length bs)) as Hpos by (destruct bs; [done|cbn; lia]).
  apply wp_bind. rewrite (proj2 (Z.ltb_lt 0 _)) by done. cbn [negb]. rewrite PGROUNDDOWN_page by (unfold DEVSPACE in *; lia).
  assert (DEVSPACE <= page_of va < 4294967296) as Hp by (unfold page_of, PGSIZE, DEVSPACE in *; Z.to_euclidean_division_equations; lia).
  destruct (bw_dev _ Hbw _ Hp) as (g & Hg & HU). apply wp_bind.
  eapply wp_of_eq; [eapply uva2ka_kernel; [apply Hi| |exact Hg|exact HU]; unfold DEVSPACE in *; lia|]. cbn. apply wp_ret. exact HQ.
Qed.

(** ** The strings *)

(** The bytes [bs] lie in the stack at [x]. *)
Definition bytes_at (k : kst) (x : Z) (bs : list Z) : Prop :=
  forall i c, bs !! i = Some c -> load8 (mem k) (p + (x - base) + Z.of_nat i) = u8 c.

Lemma put_bytes_at k x bs : bytes_at (set_mem (put_bytes (mem k) (p + (x - base)) bs) k) x bs.
Proof.
  intros i c Hi. cbn [mem set_mem]. rewrite put_bytes_load8. unfold patch. rewrite decide_True by lia.
  replace (Z.to_nat _) with i by lia. by rewrite Hi.
Qed.

Lemma bytes_at_wrote k k' lo hi x bs : stack_wrote lo hi k k' -> hi <= x \/ x + Z.of_nat (length bs) <= lo -> bytes_at k x bs -> bytes_at k' x bs.
Proof.
  intros [Hw _] Hx Hb i c Hi. pose proof (lookup_lt_Some _ _ _ Hi). rewrite Hw by lia. by apply Hb.
Qed.

(** The strings at the addresses, one below the other. *)
Fixpoint args_at (k : kst) (top : Z) (argv : list (list Z)) (addrs : list Z) : Prop :=
  match argv, addrs with
  | [], [] => True
  | a :: argv', x :: addrs' => x = top - arg_space a /\ bytes_at k x (a ++ [0]) /\ args_at k x argv' addrs'
  | _, _ => False
  end.

Lemma args_at_wrote k k' lo hi top argv addrs : stack_wrote lo hi k k' -> hi <= top - args_space argv ->
  args_at k top argv addrs -> args_at k' top argv addrs.
Proof.
  intros Hw. revert top addrs. induction argv as [|a argv IH]; intros top [|x addrs] Hhi; cbn [args_at args_space] in *; try done.
  intros (-> & Hb & Hr). pose proof (args_space_nonneg argv). split; [done|]. split; [|apply IH; [lia|done]].
  eapply bytes_at_wrote; [exact Hw| |exact Hb]. lia.
Qed.

Lemma push_addr sp n : 0 <= sp < 4294967296 -> sp mod 4 = 0 -> 0 <= n -> round4 n <= sp ->
  Z.land (u32 (sp - n)) (u32 (Z.lnot 3)) = sp - round4 n.
Proof.
  intros Hsp Hal Hn Hle. unfold round4 in *. assert (n <= 4 * ((n + 3) / 4)) by (Z.to_euclidean_division_equations; lia).
  rewrite (u32_small (sp - n)) by lia. rewrite land_not3 by lia. Z.to_euclidean_division_equations. lia.
Qed.

(** What [push_args] returns: the strings fit below [sp], or it fails. *)
Definition pushed (argv : list (list Z)) (argc sp : Z) (k : kst) (r : option (Z * list Z)) (k' : kst) : Prop :=
  if decide (base <= sp - args_space argv /\ argc + Z.of_nat (length argv) <= MAXARG) then
    exists addrs, r = Some (sp - args_space argv, addrs) /\ args_at k' sp argv addrs /\
      stack_wrote (sp - args_space argv) sp k k'
  else r = None /\ user_wrote k k'.

(** A string that starts at or above the page of the stack, below it, or, when
    it is longer than all that is below [sp], at the top of the address space. *)
Lemma push_addr_cases sp n : base <= sp <= base + 4096 -> base + 4096 <= HEAPLIMIT -> 4096 <= base -> sp mod 4 = 0 ->
  0 < n <= base + (4294967296 - DEVSPACE) -> let x := Z.land (u32 (sp - n)) (u32 (Z.lnot 3)) in
  (base <= sp - round4 n /\ x = sp - round4 n) \/ (sp - round4 n < base /\ 0 <= x < base /\ base - 4096 < x + n) \/
  (sp - round4 n < base /\ DEVSPACE <= x < 4294967296).
Proof.
  intros Hsp Hmax Hb Hal Hn x. unfold round4 in *. destruct (decide (n <= sp)) as [Hle|Hgt].
  - assert (x = sp - 4 * ((n + 3) / 4)) as ->.
    { apply push_addr; [unfold HEAPLIMIT in *; lia|done|lia|]. unfold round4. Z.to_euclidean_division_equations. lia. }
    Z.to_euclidean_division_equations. lia.
  - right. right. unfold x. assert (u32 (sp - n) = sp - n + 4294967296) as ->.
    { unfold u32. change (2 ^ 32) with 4294967296. unfold DEVSPACE, HEAPLIMIT in *. Z.to_euclidean_division_equations. lia. }
    rewrite land_not3 by (unfold DEVSPACE, HEAPLIMIT in *; lia). unfold DEVSPACE in *. Z.to_euclidean_division_equations. lia.
Qed.

(** One string. *)
Lemma wp_push_one a k sp (Q : Z -> kst -> Prop) : stack_page k -> below k -> base <= sp <= base + 4096 -> sp mod 4 = 0 ->
  Z.of_nat (length a) < base + (4294967296 - DEVSPACE) ->
  let x := Z.land (u32 (sp - (Z.of_nat (length a) + 1))) (u32 (Z.lnot 3)) in
  (forall k', sp - arg_space a < base -> user_wrote k k' -> Q (-1) k') ->
  (forall k', base <= sp - arg_space a -> x = sp - arg_space a -> stack_wrote x sp k k' -> bytes_at k' x (a ++ [0]) -> Q 0 k') ->
  wp (copyout_bytes pgdir x (a ++ [0])) Q k.
Proof.
  intros Hk Hbw Hr Hal Hlen x HF HS. destruct (sp_base _ Hk) as [Hb1 Hb2]. destruct (bw_guard _ Hbw) as [Hb3 _].
  assert (length (a ++ [0]) = (length a + 1)%nat) as El by (rewrite length_app; done).
  assert (a ++ [0] <> []) as Hnn by (by destruct a). pose proof (arg_space_pos a) as Hp.
  pose proof (push_addr_cases sp (Z.of_nat (length a) + 1) Hr Hb2 Hb3 Hal ltac:(lia)) as Hc. cbv zeta in Hc. fold x in Hc. clearbody x.
  destruct Hc as [[Hin Ex]|[(Hout & Hx & Hx2)|[Hout Hx]]].
  - change (round4 (Z.of_nat (length a) + 1)) with (arg_space a) in *. rewrite Ex in *.
    apply wp_copyout_page; [done|done|rewrite El; lia|done|]. apply HS; [done|done| |apply put_bytes_at].
    destruct (put_bytes_wrote k (sp - arg_space a) (a ++ [0]) Hin) as [Hw Hwr]. split; [|done]. intros b Hb. apply Hw. rewrite El. lia.
  - apply wp_copyout_below; [apply Hk|done|done|done|done|rewrite El; lia|rewrite El; lia|]. intros k' Hw. by apply HF.
  - apply wp_copyout_dev; [apply Hk|done|done|done|]. apply HF; [done|apply user_wrote_refl].
Qed.

Lemma wp_push_args argv : forall argc sp k, stack_page k -> below k -> base <= sp <= base + 4096 -> sp mod 4 = 0 ->
  Forall (fun a => Z.of_nat (length a) < base + (4294967296 - DEVSPACE)) argv -> argc <= MAXARG ->
  wp (push_args pgdir argv argc sp) (pushed argv argc sp k) k.
Proof.
  induction argv as [|a argv IH]; intros argc sp k Hsp Hg Hr Hal Hlen Hargc; cbn [push_args].
  - apply wp_ret. unfold pushed. cbn [args_space length]. rewrite decide_True by lia. exists []. rewrite Z.sub_0_r.
    split; [done|]. split; [done|apply stack_wrote_refl].
  - apply Forall_cons in Hlen as [Ha Hlen]. pose proof (args_space_nonneg argv) as [Hs0 _]. pose proof (arg_space_pos a) as (Hp0 & Hp4 & Hpr).
    unfold pushed. cbn [args_space length]. destruct (MAXARG <=? argc) eqn:Em; bprop.
    { apply wp_ret. rewrite decide_False by lia. split; [done|apply user_wrote_refl]. }
    apply wp_bind, wp_push_one; [done|done|done|done|done|intros k1 Hout Hw1|intros k1 Hin Ex Hw1 Hb1].
    { rewrite (proj2 (Z.ltb_lt (-1) 0)) by lia. apply wp_ret. rewrite decide_False by lia. done. }
    rewrite Z.ltb_irrefl. rewrite Ex in *. set (x := sp - arg_space a) in *.
    assert (x mod 4 = 0) as Hx4 by (unfold x; rewrite Zminus_mod, Hal, Hp4; done).
    assert (user_wrote k k1) as Huw by (eapply stack_user_wrote; [exact Hsp| | |exact Hw1]; lia).
    apply wp_bind. eapply wp_mono; [|apply (IH (argc + 1) x k1);
      [eapply stack_page_wrote; [exact Hsp| | |exact Hw1]; lia|eapply below_wrote; [apply Hsp|apply Hsp|exact Huw|exact Hg]|unfold x in *; lia|done|done|lia]].
    intros r k2. unfold pushed. cbn beta. intros Hr2. apply wp_ret.
    destruct (decide (base <= x - args_space argv /\ _)) as [[Hfit Hc]|Hno].
    + destruct Hr2 as (addrs & -> & Hat & Hw2). rewrite decide_True by (unfold x in *; lia). exists (x :: addrs).
      replace (sp - (arg_space a + args_space argv)) with (x - args_space argv) by (unfold x; lia). split; [done|]. split.
      * split; [done|]. split; [|done]. eapply bytes_at_wrote; [exact Hw2|left; lia|exact Hb1].
      * eapply stack_wrote_trans; [|exact Hw1|exact Hw2]. unfold x. lia.
    + destruct Hr2 as [-> Hw2]. rewrite decide_False by (unfold x in *; lia). split; [done|by eapply user_wrote_trans].
Qed.

(** ** The words *)

Lemma flat_bytes32_length ws : length (flat_map bytes32 ws) = (4 * length ws)%nat.
Proof. induction ws as [|w ws IH]; [done|]. cbn [flat_map]. rewrite length_app, IH. cbn. lia. Qed.

Lemma flat_bytes32_lookup ws i w j b : ws !! i = Some w -> bytes32 w !! j = Some b ->
  flat_map bytes32 ws !! (4 * i + j)%nat = Some b.
Proof.
  revert i. induction ws as [|v ws IH]; intros i; [done|]. cbn [flat_map]. destruct i as [|i]; cbn [lookup list_lookup].
  - intros [= ->] Hj. rewrite lookup_app_l; [done|]. by apply lookup_lt_Some in Hj.
  - intros Hi Hj. rewrite lookup_app_r by (cbn; lia). replace (4 * Datatypes.S i + j - length (bytes32 v))%nat with (4 * i + j)%nat by (cbn; lia).
    by apply IH.
Qed.

(** A word and a string as the program sees them. *)
Definition uword_at (k : kst) (a w : Z) : Prop :=
  forall i b, bytes32 w !! i = Some b -> umem (mem k) us (a + Z.of_nat i) = Some b.
Definition ustring_at (k : kst) (a : Z) (str : list Z) : Prop :=
  forall i c, (str ++ [0]) !! i = Some c -> umem (mem k) us (a + Z.of_nat i) = Some (u8 c).

(** The stack as [main(argc, argv)] finds it. *)
Record main_stack (k : kst) (sp : Z) (argv : list (list Z)) : Prop := {
  ms_ret : uword_at k sp 0xffffffff;
  ms_argc : uword_at k (sp + 4) (Z.of_nat (length argv));
  ms_argv : uword_at k (sp + 8) (sp + 12);
  ms_arg : forall i a, argv !! i = Some a ->
    exists x, uword_at k (sp + 12 + 4 * Z.of_nat i) x /\ ustring_at k x a;
  ms_null : uword_at k (sp + 12 + 4 * Z.of_nat (length argv)) 0
}.

Lemma stack_umem k x : stack_page k -> base <= x < base + 4096 -> umem (mem k) us x = Some (load8 (mem k) (p + (x - base))).
Proof.
  intros [Hi (Hp & _) [Hb _]] Hx. unfold umem.
  assert (x mod PGSIZE = x - base) as Hm by (unfold PGSIZE; Z.to_euclidean_division_equations; lia).
  assert (page_of x = base) as -> by (unfold page_of; lia). by rewrite Hp, Hm.
Qed.

Lemma words_at k sp ws i w : stack_page k -> base <= sp -> sp + 4 * Z.of_nat (length ws) <= base + 4096 ->
  bytes_at k sp (flat_map bytes32 ws) -> ws !! i = Some w -> uword_at k (sp + 4 * Z.of_nat i) w.
Proof.
  intros Hk Hsp Hle Hb Hi j b Hj. pose proof (lookup_lt_Some _ _ _ Hi) as Hlt. pose proof (lookup_lt_Some _ _ _ Hj) as Hlt'.
  assert (0 <= b < 256) as Hbb.
  { apply list_elem_of_lookup_2 in Hj. unfold bytes32, u8 in Hj. rewrite !elem_of_cons in Hj.
    destruct Hj as [->|[->|[->|[->|Hj]]]]; try apply Z.mod_pos_bound; try lia. by apply elem_of_nil in Hj. }
  change (length (bytes32 w)) with 4%nat in Hlt'. rewrite stack_umem by (done || lia). f_equal.
  replace (p + (sp + 4 * Z.of_nat i + Z.of_nat j - base)) with (p + (sp - base) + Z.of_nat (4 * i + j)) by lia.
  rewrite (Hb _ _ (flat_bytes32_lookup _ _ _ _ _ Hi Hj)). by apply Z.mod_small.
Qed.

Lemma args_at_lookup k top argv addrs i a : args_at k top argv addrs -> argv !! i = Some a ->
  exists x, addrs !! i = Some x /\ top - args_space argv <= x /\ x + Z.of_nat (length a) < top /\ bytes_at k x (a ++ [0]).
Proof.
  revert top addrs i. induction argv as [|b argv IH]; intros top [|y addrs] i; cbn [args_at args_space]; try done.
  intros (-> & Hb & Hr). pose proof (arg_space_pos b). pose proof (args_space_nonneg argv). destruct i as [|i]; cbn.
  - intros [= ->]. eexists. split; [done|]. split; [lia|]. split; [lia|done].
  - intros Hi. destruct (IH _ _ _ Hr Hi) as (x & Hx & H1 & H2 & H3). exists x. split; [done|]. split; [lia|]. split; [lia|done].
Qed.

Lemma args_at_length k top argv addrs : args_at k top argv addrs -> length addrs = length argv.
Proof.
  revert top addrs. induction argv as [|b argv IH]; intros top [|y addrs]; cbn [args_at]; try done.
  intros (_ & _ & Hr). cbn. by rewrite (IH _ _ Hr).
Qed.

(** The stack that holds the strings and, below them, the words. *)
Lemma main_stack_ok k top argv addrs : stack_page k -> top <= base + 4096 -> base <= top - stack_space argv ->
  args_at k top argv addrs ->
  bytes_at k (top - stack_space argv) (flat_map bytes32 (ustack (Z.of_nat (length argv)) (top - args_space argv) addrs)) ->
  main_stack k (top - stack_space argv) argv.
Proof.
  intros Hk Htop Hb Ha Hw. pose proof (args_at_length _ _ _ _ Ha) as El. pose proof (args_space_nonneg argv) as [Hs0 _].
  set (ws := ustack _ _ _) in Hw. set (sp := top - stack_space argv) in *.
  pose proof (as_dom _ _ _ _ _ (sp_inv _ Hk) _ _ (proj1 (sp_page _ Hk))) as (Hb0 & _). pose proof (sp_base _ Hk) as [_ Hmax].
  assert (length ws = (length argv + 4)%nat) as Elw by (unfold ws, ustack; rewrite !length_app, El; cbn; lia).
  assert (forall i w, ws !! i = Some w -> uword_at k (sp + 4 * Z.of_nat i) w) as Hword.
  { intros i w. apply words_at; [done|done|rewrite Elw; unfold sp, stack_space; lia|done]. }
  assert (ws !! 2%nat = Some (sp + 12)) as H2.
  { unfold ws, ustack. cbn. f_equal. rewrite u32_small by (unfold sp, stack_space, HEAPLIMIT in *; lia). unfold sp, stack_space. lia. }
  split.
  - rewrite <- (Z.add_0_r sp). by apply (Hword 0%nat).
  - by apply (Hword 1%nat).
  - by apply (Hword 2%nat).
  - intros i a Hi. destruct (args_at_lookup _ _ _ _ _ _ Ha Hi) as (x & Hx & H1 & H3 & H4). exists x. split.
    + replace (sp + 12 + 4 * Z.of_nat i) with (sp + 4 * Z.of_nat (3 + i)) by lia. apply Hword.
      unfold ws, ustack. rewrite lookup_app_r by (cbn; lia). rewrite lookup_app_l by (apply lookup_lt_Some in Hx; cbn; lia).
      cbn [length]. by replace (3 + i - 3)%nat with i by lia.
    + intros j c Hj. pose proof (lookup_lt_Some _ _ _ Hj) as Hlt. rewrite length_app in Hlt. cbn in Hlt.
      rewrite stack_umem; [|done|unfold sp, stack_space in *; lia]. f_equal. rewrite <- (H4 _ _ Hj). f_equal. lia.
  - replace (sp + 12 + 4 * Z.of_nat (length argv)) with (sp + 4 * Z.of_nat (3 + length argv)) by lia. apply Hword.
    unfold ws, ustack. rewrite lookup_app_r by (cbn; lia). rewrite lookup_app_r by (cbn; lia). cbn [length].
    by replace (3 + length argv - 3 - length addrs)%nat with 0%nat by lia.
Qed.

(** There is room for the arguments. *)
Definition args_fit (argv : list (list Z)) : Prop := stack_space argv <= 4096 /\ Z.of_nat (length argv) <= MAXARG.

Lemma wp_exec_stack k argv : stack_page k -> below k ->
  Forall (fun a => Z.of_nat (length a) < base + (4294967296 - DEVSPACE)) argv ->
  wp (exec_stack pgdir (base + 4096) argv) (fun r k' =>
    args_fit argv /\ r = Some (base + 4096 - stack_space argv) /\ main_stack k' (base + 4096 - stack_space argv) argv /\
      stack_wrote (base + 4096 - stack_space argv) (base + 4096) k k' \/
    ~ args_fit argv /\ r = None /\ user_wrote k k') k.
Proof.
  intros Hk Hg Hlen. pose proof (sp_base _ Hk) as [Hal Hmax]. pose proof (args_space_nonneg argv) as [Hs0 Hs4]. unfold args_fit.
  assert (base mod 4 = 0) as Hal4 by (Z.to_euclidean_division_equations; lia).
  apply wp_bind. eapply wp_mono; [|apply (wp_push_args argv 0 (base + 4096) k); [done|done|lia| |done|by compute]].
  2:{ rewrite Z.add_mod, Hal4 by done. done. }
  intros r k1. unfold pushed. set (top := base + 4096) in *. rewrite Z.add_0_l. destruct (decide _) as [[Hfit Hc]|Hno].
  2:{ intros [-> Hw]. apply wp_ret. right. unfold stack_space, top in *. split; [lia|done]. }
  intros (addrs & -> & Hat & Hw). pose proof (args_at_length _ _ _ _ Hat) as El. set (ws := ustack _ _ _).
  assert (length (flat_map bytes32 ws) = (4 * (length argv + 4))%nat) as Elw.
  { rewrite flat_bytes32_length. unfold ws, ustack. rewrite !length_app, El. cbn. lia. }
  assert (stack_page k1) as Hk1 by (eapply stack_page_wrote; [exact Hk| | |exact Hw]; unfold top; lia).
  assert (user_wrote k k1) as Huw by (eapply stack_user_wrote; [exact Hk| | |exact Hw]; unfold top; lia).
  pose proof (below_wrote _ _ (sp_inv _ Hk) Hmax Huw Hg) as Hg1.
  assert (MAXARG = 32) as HM by done. destruct (bw_guard _ Hg) as [Hgb _].
  replace (u32 (top - args_space argv - _)) with (top - stack_space argv)
    by (unfold stack_space, top, HEAPLIMIT in *; rewrite u32_small; lia).
  destruct (decide (base <= top - stack_space argv)) as [Hin|Hout].
  - apply wp_bind, (wp_copyout_page _ _ _ _ Hk1 Hin); [rewrite Elw; unfold stack_space; lia|done|]. rewrite Z.ltb_irrefl. apply wp_ret.
    left. split; [unfold top in *; lia|]. set (k2 := set_mem _ k1).
    assert (stack_wrote (top - stack_space argv) (top - args_space argv) k1 k2) as Hw2.
    { destruct (put_bytes_wrote k1 (top - stack_space argv) (flat_map bytes32 ws) Hin) as [H1 H2]. split; [|done].
      intros a Ha. apply H1. rewrite Elw. unfold stack_space in *. lia. }
    assert (stack_page k2) as Hk2 by (eapply stack_page_wrote; [exact Hk1| | |exact Hw2]; unfold top in *; lia).
    split; [done|]. split; [|eapply stack_wrote_trans; [|exact Hw|exact Hw2]; unfold stack_space; lia].
    eapply main_stack_ok; [done|done|done|eapply args_at_wrote; [exact Hw2|lia|exact Hat]|apply put_bytes_at].
  - apply wp_bind, (wp_copyout_below _ _ _ _ (sp_inv _ Hk1) Hg1); [done|done|unfold stack_space, top in *; lia..|].
    intros k2 Hw2. rewrite (proj2 (Z.ltb_lt (-1) 0)) by lia. apply wp_ret. right. split; [unfold top in *; lia|]. split; [done|].
    by eapply user_wrote_trans.
Qed.
End Stack.

(** ** The stack of a new program *)

Section UserStack.
Context {L : Layout}.

(** What the loading of the image leaves: pages for all of it and none above,
    and the mappings of the kernel. *)
Record loaded (k : kst) (l : list Z) (pgdir : Z) (tabs us : gmap Z Z) (sz : Z) : Prop := {
  ld_inv : as_inv k l pgdir tabs us;
  ld_size : 0 <= sz <= HEAPLIMIT;
  ld_image : forall va, 0 <= va < PGROUNDUP sz -> va mod 4096 = 0 -> is_Some (us !! va);
  ld_end : forall va, PGROUNDUP sz <= va -> us !! va = None;
  ld_kernel : forall va, KERNBASE <= va < 4294967296 -> mapping (mem k) pgdir va = kmaps kmap va
}.

Lemma has_user_bit g : has g PTE_U = Z.testbit g 2.
Proof.
  unfold has. change PTE_U with (2 ^ 2). destruct (Z.testbit g 2) eqn:Hb.
  - rewrite negb_true_iff. apply Z.eqb_neq. intros E. assert (Z.testbit (Z.land g (2 ^ 2)) 2 = true) as Ht by (by rewrite Z.land_spec, Hb).
    by rewrite E in Ht.
  - rewrite negb_false_iff. apply Z.eqb_eq, Z.bits_inj_0. intros n. rewrite Z.land_spec, Z.pow2_bits_eqb by lia.
    destruct (Z.eqb_spec 2 n) as [<-|]; [by rewrite Hb|by rewrite andb_false_r].
Qed.

Lemma kmaps_dev va : DEVSPACE <= va < 4294967296 -> exists g, kmaps kmap va = Some g /\ has g PTE_U = false.
Proof.
  intros Hva. pose proof layout_data as Hd. pose proof layout_end as He. exists (page_of va + 3). split.
  - unfold kmap. cbn [kmaps virt phys_start phys_end kperm]. unfold ksize. cbn [phys_start phys_end]. rewrite !V2P_high by mlia.
    do 3 rewrite decide_False by (rewrite ?u32_small by mlia; mlia).
    rewrite decide_True by (change (u32 (0 - DEVSPACE)) with 0x2000000; mlia). f_equal. change (Z.lor PTE_W PTE_P) with 3. lia.
  - rewrite has_user_bit, Z.testbit_false by lia. change (2 ^ 2) with 4. unfold page_of, PGSIZE. Z.to_euclidean_division_equations. lia.
Qed.

(** What the program has: its stack, the page below it that it may not access,
    and its image as it was. *)
Record stack_built (k : kst) (us : gmap Z Z) (pgdir base : Z) (argv : list (list Z)) (k' : kst) (us' : gmap Z Z) : Prop := {
  sb_main : main_stack us' k' (base + PGSIZE - stack_space argv) argv;
  sb_stack : exists p, us' !! base = Some p /\ mapping (mem k') pgdir base = Some (V2P p + 7);
  sb_guard : exists g, mapping (mem k') pgdir (base - PGSIZE) = Some g /\ has g PTE_U = false;
  sb_map : forall va, 0 <= va < 4294967296 -> ~ base - PGSIZE <= va < base + PGSIZE ->
    mapping (mem k') pgdir va = mapping (mem k) pgdir va;
  sb_image : forall x, 0 <= x < base - PGSIZE -> umem (mem k') us' x = umem (mem k) us x
}.

Lemma umem_page m m' us us' x (P : Z -> Prop) : us' !! page_of x = us !! page_of x -> frame P m m' ->
  (forall q, us !! page_of x = Some q -> page_ok q /\ ~ P q) -> umem m' us' x = umem m us x.
Proof.
  intros E Hf Hq. unfold umem. rewrite E. destruct (us !! page_of x) as [q|]; [|done]. destruct (Hq q eq_refl) as [Hok HP]. f_equal.
  apply Hf. assert (page_of (q + x mod PGSIZE) = q) as -> by (apply page_of_range; [apply Hok|mlia]). exact HP.
Qed.

(** The state between [clearpteu] and the arguments. *)
Lemma stack_ready k l pgdir tabs us sz k1 l1 tabs1 us1 k2 g : loaded k l pgdir tabs us sz -> PGROUNDUP sz + 8192 < HEAPLIMIT ->
  let base := PGROUNDUP sz + 4096 in
  grow_progress k l pgdir tabs us (PGROUNDUP sz) (base + 4096) k1 l1 tabs1 us1 -> 0 <= g < 4294967296 ->
  as_inv k2 l1 pgdir tabs1 us1 ->
  (forall va, 0 <= va < 4294967296 ->
     mapping (mem k2) pgdir va = if decide (PGROUNDUP sz = page_of va) then Some (no_user g) else mapping (mem k1) pgdir va) ->
  exists p, stack_page l1 pgdir tabs1 us1 base p (V2P p + 7) k2 /\ below pgdir us1 base k2.
Proof.
  intros [Hi Hsz Him Hend Hker] Hmax base Hg Hgw Hi2 Hm2.
  assert (PGROUNDUP sz mod 4096 = 0 /\ 0 <= PGROUNDUP sz) as [Hal Hp0] by (rewrite PGROUNDUP_eq by mlia; mlia).
  assert (base mod 4096 = 0) as Hab by (unfold base; Z.to_euclidean_division_equations; lia).
  destruct (gp_in _ _ _ _ _ _ _ _ _ _ _ Hg base ltac:(unfold base; lia) Hab) as (p & Hp & Hmp & _). destruct (no_user_bits g Hgw) as (_ & _ & HU & _).
  assert (forall va, va mod 4096 = 0 -> page_of va = va) as Hpg by (intros va Hva; unfold page_of; mlia).
  exists p. split; [split; [done| |split; [done|unfold base; lia]]|split; [split; [unfold base; lia|]| |]].
  - split; [done|]. split; [rewrite Hm2, decide_False by (rewrite ?Hpg by done; unfold base, HEAPLIMIT in *; lia); done|].
    destruct (as_dom _ _ _ _ _ Hi2 _ _ Hp) as (_ & _ & Hpok). destruct (page_phys p Hpok) as (Hpa & _).
    rewrite has_user_bit, Z.testbit_true by lia. change (2 ^ 2) with 4. Z.to_euclidean_division_equations. lia.
  - exists (no_user g). replace (base - 4096) with (PGROUNDUP sz) by (unfold base; lia).
    rewrite Hm2, decide_True by (rewrite ?Hpg by done; unfold base, HEAPLIMIT in *; lia). done.
  - intros va Hva Hav. destruct (decide (va < PGROUNDUP sz)) as [Hlt|Hge].
    + rewrite (gp_out _ _ _ _ _ _ _ _ _ _ _ Hg) by lia. apply Him; [lia|done].
    + destruct (gp_in _ _ _ _ _ _ _ _ _ _ _ Hg va ltac:(lia) Hav) as (q & Hq & _). by exists q.
  - intros va Hva. destruct (kmaps_dev va Hva) as (g' & Hg' & HU'). exists g'. split; [|done]. rewrite <- Hg', <- (Hker va) by mlia.
    rewrite Hm2, decide_False by (unfold page_of; mlia). apply (gp_map _ _ _ _ _ _ _ _ _ _ _ Hg); unfold base; mlia.
Qed.

Lemma stack_space_pos argv : 0 < stack_space argv.
Proof. unfold stack_space. pose proof (args_space_nonneg argv). lia. Qed.

(** The state after the arguments. *)
Lemma stack_built_ok k l pgdir tabs us sz k1 l1 tabs1 us1 k2 g k3 p argv : loaded k l pgdir tabs us sz -> PGROUNDUP sz + 8192 < HEAPLIMIT ->
  let base := PGROUNDUP sz + PGSIZE in
  grow_progress k l pgdir tabs us (PGROUNDUP sz) (base + 4096) k1 l1 tabs1 us1 ->
  (forall va, 0 <= va < 4294967296 ->
     mapping (mem k2) pgdir va = if decide (PGROUNDUP sz = page_of va) then Some (no_user g) else mapping (mem k1) pgdir va) ->
  frame (vpage pgdir tabs1) (mem k1) (mem k2) ->
  stack_page l1 pgdir tabs1 us1 base p (V2P p + 7) k2 -> below pgdir us1 base k2 -> user_wrote us1 k2 k3 ->
  stack_wrote base p (base + 4096 - stack_space argv) (base + 4096) k2 k3 -> stack_space argv <= 4096 ->
  main_stack us1 k3 (base + 4096 - stack_space argv) argv -> stack_built k us pgdir base argv k3 us1.
Proof.
  intros [Hi Hsz Him Hend Hker] Hmax base Hg Hm2 Hf2 Hsp Hbw Huw Hw Hfit Hms.
  assert (PGROUNDUP sz mod 4096 = 0 /\ 0 <= PGROUNDUP sz) as [Hal Hp0] by (rewrite PGROUNDUP_eq by mlia; mlia).
  destruct Hsp as [Hi2 (Hp & Hmp & _) [Hb1 Hb2]]. pose proof (stack_space_pos argv) as Hpos.
  assert (0 <= base - 4096 /\ base + 4096 < 4294967296) as Hbr by (unfold base; mlia).
  pose proof (user_wrote_mapping l1 pgdir tabs1 us1 k2 k3) as Hm3. split; [exact Hms|..].
  - exists p. split; [done|]. by rewrite Hm3 by (done || lia).
  - destruct (bw_guard _ _ _ _ Hbw) as (_ & g' & Hg' & HU). exists g'. change PGSIZE with 4096. by rewrite Hm3 by (done || lia).
  - intros va Hva Hout. rewrite Hm3, Hm2, decide_False by (done || unfold page_of, base in *; mlia).
    apply (gp_map _ _ _ _ _ _ _ _ _ _ _ Hg); [done|unfold base in *; mlia].
  - intros x Hx. assert (~ PGROUNDUP sz <= page_of x < base + 4096) as Hout by (unfold page_of, base in *; mlia).
    assert (us1 !! page_of x = us !! page_of x) as Eu by (by apply (gp_out _ _ _ _ _ _ _ _ _ _ _ Hg)).
    destruct (as_dom _ _ _ _ _ Hi2 _ _ Hp) as (_ & _ & Hpok). transitivity (umem (mem k2) us1 x); [|transitivity (umem (mem k1) us1 x)].
    + eapply (umem_page _ _ _ _ _ (eq p)); [done| |].
      * intros a Ha. apply (sw_mem _ _ _ _ _ _ Hw). intros Hin. apply Ha. symmetry. apply page_of_range; [apply Hpok|mlia].
      * intros q Hq. destruct (as_dom _ _ _ _ _ Hi2 _ _ Hq) as (_ & _ & Hqok). split; [done|]. intros <-.
        pose proof (as_inj _ _ _ _ _ Hi2 _ _ _ Hp Hq). unfold base in *. mlia.
    + eapply (umem_page _ _ _ _ _ (vpage pgdir tabs1)); [done|exact Hf2|]. intros q Hq.
      split; [apply (as_dom _ _ _ _ _ Hi2 _ _ Hq)|apply (as_own _ _ _ _ _ Hi2 _ _ Hq)].
    + eapply umem_page; [exact Eu|apply (gp_frame _ _ _ _ _ _ _ _ _ _ _ Hg)|]. intros q Hq.
      split; [apply (as_dom _ _ _ _ _ Hi _ _ Hq)|]. destruct (as_own _ _ _ _ _ Hi _ _ Hq). tauto.
Qed.

(** C29: [exec] hands its arguments to the new program.  Given the image, it
    takes two pages above it, makes the first inaccessible to the program and
    builds the stack in the second.  It succeeds exactly if there is memory
    (four free pages are enough) below [HEAPLIMIT], there are at most [MAXARG]
    arguments, and they fit in the page with the words that describe them.
    Then [main] finds [argc], [argv] with a null at its end, and under each
    entry of [argv] the bytes of the argument and a NUL; the page below the
    stack is mapped without [PTE_U]; the image and the other mappings are as they
    were.  If it fails, every page is still accounted for.  An argument may be
    longer than the page and the image, up to the size of the device space. *)
Theorem exec_stack_argv k l pgdir tabs us sz argv : loaded k l pgdir tabs us sz ->
  Forall (fun a => Z.of_nat (length a) < PGROUNDUP sz + (4294967296 - DEVSPACE)) argv ->
  let base := PGROUNDUP sz + PGSIZE in
  wp (exec_user_stack pgdir sz argv) (fun r k' => exists l' tabs' us', as_inv k' l' pgdir tabs' us' /\
    (forall q, owned l' pgdir tabs' us' q <-> owned l pgdir tabs us q) /\
    match r with
    | None => HEAPLIMIT <= base + PGSIZE \/ (length l < 4)%nat \/ ~ args_fit argv
    | Some (sz', sp) => sz' = base + PGSIZE /\ sp = sz' - stack_space argv /\ sz' < HEAPLIMIT /\ args_fit argv /\
        stack_built k us pgdir base argv k' us'
    end) k.
Proof.
  intros Hld Hlen base. pose proof Hld as [Hi Hsz Him Hend Hker].
  assert (PGROUNDUP sz mod 4096 = 0 /\ 0 <= PGROUNDUP sz <= HEAPLIMIT) as [Hal Hp0] by (rewrite PGROUNDUP_eq by mlia; mlia).
  assert (forall n, n mod 4096 = 0 -> 0 <= n < 0x80000000 -> PGROUNDUP n = n) as Hpg
    by (intros n Hn Hb; rewrite PGROUNDUP_eq by mlia; mlia).
  pose proof (Hpg (PGROUNDUP sz) Hal ltac:(mlia)) as E1. pose proof (Hpg (PGROUNDUP sz + 8192) ltac:(mlia) ltac:(mlia)) as E2.
  assert (base + PGSIZE = PGROUNDUP sz + 8192) as E3 by (unfold base, PGSIZE; lia). rewrite !E3.
  unfold exec_user_stack. cbv zeta. change (2 * PGSIZE) with 8192. rewrite (u32_small (PGROUNDUP sz + 8192)) by mlia.
  apply wp_bind. eapply wp_allocuvm; [exact Hi|lia|lia|rewrite E1; intros va Hva; apply Hend; lia|intros Hlim|intros; lia|..]; rewrite ?E1, ?E2.
  - apply wp_ret. exists l, tabs, us. auto.
  - intros k' l' tabs' _ Hf. apply wp_ret. exists l', tabs', us. split; [apply Hf|]. split; [apply Hf|]. right. left.
    pose proof (gf_count _ _ _ _ _ _ _ _ _ Hf) as Hc. replace (PGROUNDUP sz + 8192 - PGROUNDUP sz) with 8192 in Hc by lia.
    change (8192 / PGSIZE) with 2 in Hc. lia.
  - intros k1 l1 tabs1 us1 [_ Hlim] Hg. rewrite (proj2 (Z.eqb_neq _ _)) by lia.
    rewrite (u32_small (_ - 8192)) by mlia. replace (PGROUNDUP sz + 8192 - 8192) with (PGROUNDUP sz) by lia.
    pose proof (gp_as _ _ _ _ _ _ _ _ _ _ _ Hg) as Hi1.
    destruct (gp_in _ _ _ _ _ _ _ _ _ _ _ Hg (PGROUNDUP sz) ltac:(lia) Hal) as (q & Hq & Hmq & _).
    destruct (as_dom _ _ _ _ _ Hi1 _ _ Hq) as (_ & _ & Hqok). destruct (page_phys q Hqok) as (_ & Hq1 & Hq2 & _).
    apply wp_bind. eapply wp_clearpteu; [exact Hi1|exact Hq|exact Hmq|]. intros k2 Hi2 Hm2 Hf2.
    replace (PGROUNDUP sz + 8192) with (base + 4096) in * by (unfold base, PGSIZE; lia).
    assert (0 <= V2P q + 7 < 4294967296) as Hgw by mlia. assert (PGROUNDUP sz + 8192 < HEAPLIMIT) as Hmax by (unfold base, PGSIZE in *; lia).
    destruct (stack_ready _ _ _ _ _ _ _ _ _ _ _ _ Hld Hmax Hg Hgw Hi2 Hm2) as (p & Hsp & Hbw).
    change (PGROUNDUP sz + 4096) with base in Hsp, Hbw.
    apply wp_bind. eapply wp_mono; [|apply (wp_exec_stack l1 pgdir tabs1 us1 base p (V2P p + 7) k2 argv Hsp Hbw)].
    2:{ eapply Forall_impl; [exact Hlen|]. cbn. intros a Ha. unfold base, PGSIZE. lia. }
    intros r k3 [(Hfit & -> & Hms & Hw)|(Hnf & -> & Hw)]; apply wp_ret; exists l1, tabs1, us1; cbn [fmap option_fmap option_map].
    + pose proof (stack_space_pos argv) as Hpos. destruct Hfit as [Hfit Hma].
      assert (user_wrote us1 k2 k3) as Huw by (eapply stack_user_wrote; [exact Hsp| | |exact Hw]; lia).
      split; [by eapply user_wrote_inv|]. split; [apply Hg|]. repeat (split; [done|]).
      eapply stack_built_ok; eauto.
    + split; [by eapply user_wrote_inv|]. split; [apply Hg|]. by right; right.
Qed.
End UserStack.

(** ** On the sample machine *)

Section SmallStack.
#[local] Existing Instance sample_layout.

Definition free100 : list Z := page <$> seqZ 0 100.

Lemma free100_inv : kmem_inv (machine free100) free100.
Proof.
  apply machine_inv.
  - apply Forall_forall. intros q Hq. apply list_elem_of_fmap in Hq as (i & -> & Hi%elem_of_seqZ). apply page_page_ok. lia.
  - apply NoDup_fmap_2; [intros i j; apply page_inj|apply NoDup_seqZ].
Qed.

(** A program without an image, with the arguments "a" and "bc". *)
Lemma exec_stack_argv_witness :
  wp (let* d := setupkvm in exec_user_stack d 0 [[97]; [98; 99]]) (fun r _ => r = Some (8192, 8160)) (machine free100).
Proof.
  apply wp_bind. eapply wp_setupkvm_count; [exact free100_inv|intros k l _ _ _ Hc|intros d k l tabs Hi Hm _ _ _ Hc].
  - exfalso. change (length free100) with 100%nat in Hc. lia.
  - change (length free100) with 100%nat in Hc.
    assert (loaded k l d tabs ∅ 0) as Hld.
    { split; [exact Hi|split; discriminate|intros va Hva; change (PGROUNDUP 0) with 0 in Hva; lia|intros; apply lookup_empty|].
      intros va Hva. apply Hm. mlia. }
    eapply wp_mono; [|exact (exec_stack_argv k l d tabs ∅ 0 [[97]; [98; 99]] Hld ltac:(repeat constructor))].
    intros [[sz sp]|] k' (l' & tabs' & us' & _ & _ & Hr).
    + destruct Hr as (-> & -> & _). reflexivity.
    + exfalso. destruct Hr as [Hr|[Hr|Hr]]; [by apply Hr|lia|apply Hr; by split].
Defined.

End SmallStack.
