(* ===== verification/Grep.v ===== *)
(** * Searching files for a pattern ([grep.c])

    Strings are lists of bytes without their NUL.  [matchhere] and [matchstar]
    are the mutually recursive functions of the source; [accepts] gives the
    language of a pattern independently of them, and [match_iff_accepts] says
    that they agree.  [grep] is the loop over what [read] returns. *)

From stdpp Require Import base tactics numbers list.
From Stdlib Require Import ZArith Lia.
From S2P Require Import Prelude.

(** ['^'], ['.'], ['*'], ['$'] and the newline. *)
Definition CARET : Z := 94.
Definition ANY : Z := 46.
Definition STAR : Z := 42.
Definition DOLLAR : Z := 36.
Definition NL : Z := 10.

(** [matchstar c re text], over the function that matches [re]. *)
Fixpoint matchstar_with (here : list Z -> bool) (c : Z) (text : list Z) : bool :=
  here text ||
  match text with
  | [] => false
  | t :: text' => if (t =? c) || (c =? ANY) then matchstar_with here c text' else false
  end.

Fixpoint matchhere (re text : list Z) : bool :=
  match re with
  | [] => true
  | c :: re1 =>
      let one :=
        match text with
        | [] => false
        | t :: text' => if (c =? ANY) || (c =? t) then matchhere re1 text' else false
        end in
      match re1 with
      | d :: re2 => if d =? STAR then matchstar_with (matchhere re2) c text else one
      | [] => if c =? DOLLAR then bool_decide (text = []) else one
      end
  end.

Definition matchstar (c : Z) (re text : list Z) : bool := matchstar_with (matchhere re) c text.

(** The loop of [match] over the suffixes of the text. *)
Fixpoint match_from (re text : list Z) : bool :=
  matchhere re text || match text with [] => false | _ :: text' => match_from re text' end.

Definition match_ (re text : list Z) : bool :=
  match re with
  | c :: re' => if c =? CARET then matchhere re' text else match_from re text
  | [] => match_from re text
  end.

(** ** The language of a pattern *)

Inductive rx := Eps | Eol | Chr (c : Z) (r : rx) | Rep (c : Z) (r : rx).

Fixpoint parse (re : list Z) : rx :=
  match re with
  | [] => Eps
  | c :: re1 =>
      match re1 with
      | d :: re2 => if d =? STAR then Rep c (parse re2) else Chr c (parse re1)
      | [] => if c =? DOLLAR then Eol else Chr c Eps
      end
  end.

(** The character [t] is one that [c] stands for. *)
Definition stands_for (c t : Z) : Prop := c = ANY \/ c = t.

(** [accepts r w rest]: the pattern matches [w] when [rest] follows it. *)
Inductive accepts : rx -> list Z -> list Z -> Prop :=
  | ac_eps rest : accepts Eps [] rest
  | ac_eol : accepts Eol [] []
  | ac_chr c r t w rest : stands_for c t -> accepts r w rest -> accepts (Chr c r) (t :: w) rest
  | ac_rep c r u w rest : Forall (stands_for c) u -> accepts r w rest -> accepts (Rep c r) (u ++ w) rest.

(** A match at the start of [text]. *)
Definition starts (r : rx) (text : list Z) : Prop := exists w rest, text = w ++ rest /\ accepts r w rest.

Lemma stands_for_spec c t : (c =? ANY) || (c =? t) = true <-> stands_for c t.
Proof. unfold stands_for. rewrite orb_true_iff, !Z.eqb_eq. done. Qed.

Lemma starts_chr c r text : starts (Chr c r) text <-> exists t text', text = t :: text' /\ stands_for c t /\ starts r text'.
Proof.
  split.
  - intros (w & rest & -> & H). inversion H; subst. eexists _, _. split; [done|]. split; [done|]. by exists w0, rest.
  - intros (t & text' & -> & Hs & w & rest & -> & Ha). exists (t :: w), rest. split; [done|]. by constructor.
Qed.

Lemma starts_rep c r text : starts (Rep c r) text <->
  starts r text \/ exists t text', text = t :: text' /\ stands_for c t /\ starts (Rep c r) text'.
Proof.
  split.
  - intros (w & rest & -> & H). inversion H as [| | |? ? u w' ? Hu Ha]; subst. destruct u as [|t u].
    + left. by exists w', rest.
    + right. apply Forall_cons in Hu as [Ht Hu]. exists t, (u ++ w' ++ rest). split; [cbn; by rewrite <- app_assoc|].
      split; [done|]. exists (u ++ w'), rest. split; [by rewrite <- app_assoc|]. by constructor.
  - intros [(w & rest & -> & Ha)|(t & text' & -> & Ht & w & rest & -> & Ha)].
    + exists w, rest. split; [done|]. by apply (ac_rep c r []).
    + inversion Ha as [| | |? ? u w' ? Hu Ha']; subst. exists (t :: u ++ w'), rest. split; [done|].
      apply (ac_rep c r (t :: u)); [by constructor|done].
Qed.

(** One step of [matchstar], as the [do ... while] loop reads. *)
Lemma matchstar_with_eq here c text : matchstar_with here c text =
  here text || match text with [] => false | t :: text' => ((t =? c) || (c =? ANY)) && matchstar_with here c text' end.
Proof. destruct text; cbn; [done|]. by destruct ((_ =? c) || (c =? ANY)). Qed.

Lemma matchstar_spec here r c text : (forall t, here t = true <-> starts r t) ->
  matchstar_with here c text = true <-> starts (Rep c r) text.
Proof.
  intros Hh. induction text as [|t text IH]; rewrite matchstar_with_eq, starts_rep, orb_true_iff, Hh.
  - naive_solver.
  - rewrite andb_true_iff, IH, (Z.eqb_sym t c), orb_comm, stands_for_spec. naive_solver.
Qed.

Lemma matchhere_spec re : forall text, matchhere re text = true <-> starts (parse re) text.
Proof.
  induction re as [re IH] using (induction_ltof1 _ (@length Z)). unfold ltof in IH. intros text.
  destruct re as [|c re1]; [split; [intros _; exists [], text; split; [done|constructor]|done]|].
  assert (forall r, (forall t, matchhere re1 t = true <-> starts r t) ->
    match text with [] => false | t :: text' => if (c =? ANY) || (c =? t) then matchhere re1 text' else false end = true
    <-> starts (Chr c r) text) as Hone.
  { intros r Hr. rewrite starts_chr. destruct text as [|t text']; [naive_solver|].
    destruct ((c =? ANY) || (c =? t)) eqn:E.
    - apply stands_for_spec in E. rewrite Hr. naive_solver.
    - split; [done|]. intros (t' & tx & [= <- <-] & Hs & _). apply stands_for_spec in Hs. congruence. }
  cbn [matchhere parse]. destruct re1 as [|d re2].
  - destruct (c =? DOLLAR).
    + rewrite bool_decide_eq_true. split; [intros ->; exists [], []; split; [done|constructor]|].
      intros (w & rest & -> & H). by inversion H.
    + apply Hone. intros t. split; [intros _; exists [], t; split; [done|constructor]|done].
  - destruct (d =? STAR); [apply matchstar_spec, IH; cbn; lia|apply Hone, IH; cbn; lia].
Qed.

Lemma match_from_spec re text : match_from re text = true <-> exists pre text', text = pre ++ text' /\ starts (parse re) text'.
Proof.
  induction text as [|t text IH]; cbn [match_from]; rewrite orb_true_iff, matchhere_spec.
  - split; [intros [H|H]; [by exists [], []|done]|]. intros (pre & text' & E & H). symmetry in E. apply app_nil in E as [-> ->]. by left.
  - rewrite IH. split.
    + intros [H|(pre & text' & -> & H)]; [by exists [], (t :: text)|by exists (t :: pre), text'].
    + intros ([|u pre] & text' & E & H); cbn in E; [left; by subst|]. injection E as <- ->. right. by exists pre, text'.
Qed.

(** What a pattern asks of a line: to start with a match, or to contain one. *)
Definition line_matches (re line : list Z) : Prop :=
  match re with
  | c :: re' => if c =? CARET then starts (parse re') line
                else exists pre text, line = pre ++ text /\ starts (parse re) text
  | [] => True
  end.

(** [match] decides the language of the pattern: for every pattern and line
    it returns (it is total), and answers yes exactly if the line starts with
    a match of an anchored pattern, or contains a match of another one. *)
Theorem match_iff_accepts re line : match_ re line = true <-> line_matches re line.
Proof.
  unfold match_, line_matches. destruct re as [|c re]; [by destruct line|].
  destruct (c =? CARET); [apply matchhere_spec|apply match_from_spec].
Qed.

(** ** The loop over the input *)

(** [strchr(p, '\n')]: the bytes before the newline and those after it.  A NUL
    ends the string. *)
Fixpoint strchr_nl (p : list Z) : option (list Z * list Z) :=
  match p with
  | [] => None
  | c :: p' =>
      if c =? 0 then None else
      if c =? NL then Some ([], p') else
      (fun '(l, q) => (c :: l, q)) <$> strchr_nl p'
  end.

(** The inner loop: what is written, and the bytes from [p] on.  Every turn
    consumes a newline, so [length] turns are enough. *)
Fixpoint grep_lines (fuel : nat) (re p : list Z) : list Z * list Z :=
  match fuel with
  | O => ([], p)
  | S fuel' =>
      match strchr_nl p with
      | None => ([], p)
      | Some (line, q) =>
          let '(out, rest) := grep_lines fuel' re q in
          ((if match_ re line then line ++ [NL] else []) ++ out, rest)
      end
  end.

(** One turn of the outer loop: the bytes carried over and those [read]
    returned, to the bytes carried on and the output. *)
Definition grep_step (re carry chunk : list Z) : list Z * list Z :=
  let buf := carry ++ chunk in
  let '(out, rest) := grep_lines (length buf) re buf in
  ((if Nat.eqb (length rest) (length buf) then [] else rest), out).

(** The whole input, as [read] returns it. *)
Fixpoint grep (re carry : list Z) (reads : list (list Z)) : list Z :=
  match reads with
  | [] => []
  | chunk :: reads' =>
      let '(carry', out) := grep_step re carry chunk in
      out ++ grep re carry' reads'
  end.

(** The lines of a text, and what follows the last newline. *)
Fixpoint cut (p : list Z) : list (list Z) * list Z :=
  match p with
  | [] => ([], [])
  | c :: p' =>
      let '(ls, r) := cut p' in
      if c =? NL then ([] :: ls, r) else
      match ls with
      | [] => ([], c :: r)
      | l :: ls' => ((c :: l) :: ls', r)
      end
  end.

(** The lines a pattern selects, each with its newline. *)
Definition select (re : list Z) (ls : list (list Z)) : list Z :=
  flat_map (fun l => if match_ re l then l ++ [NL] else []) ls.

Definition no_nul (p : list Z) : Prop := Forall (fun c => c <> 0) p.

(** What [read] may return: not nothing, and no more than fits in [buf]. *)
Fixpoint reads_ok (carry : list Z) (reads : list (list Z)) : Prop :=
  match reads with
  | [] => True
  | chunk :: reads' =>
      NL ∈ chunk /\ (length (carry ++ chunk) <= 1023)%nat /\ reads_ok (snd (cut (carry ++ chunk))) reads'
  end.

Lemma cut_app a b : cut (a ++ b) = let '(la, ra) := cut a in let '(lb, rb) := cut (ra ++ b) in (la ++ lb, rb).
Proof.
  induction a as [|c a IH]; cbn; [by destruct (cut b)|]. rewrite IH. destruct (cut a) as [la ra].
  destruct (c =? NL) eqn:Ec; [by destruct (cut (ra ++ b))|]. destruct la as [|l la]; cbn; [|by destruct (cut (ra ++ b))].
  rewrite Ec. destruct (cut (ra ++ b)) as [[|l lb] rb]; done.
Qed.

Lemma cut_nonl p : fst (cut p) = [] -> snd (cut p) = p.
Proof.
  induction p as [|c p IH]; cbn; [done|]. destruct (cut p) as [ls r]. destruct (c =? NL); [done|]. destruct ls; [|done].
  cbn in *. intros _. f_equal. auto.
Qed.

Lemma cut_length p : (length (snd (cut p)) + length (fst (cut p)) <= length p)%nat.
Proof.
  induction p as [|c p IH]; cbn; [lia|]. destruct (cut p) as [ls r]. cbn in IH. destruct (c =? NL); [cbn; lia|].
  destruct ls; cbn in *; lia.
Qed.

Lemma strchr_cut p : no_nul p ->
  match strchr_nl p with
  | None => fst (cut p) = []
  | Some (l, q) => cut p = (l :: fst (cut q), snd (cut q)) /\ no_nul q /\ (length q < length p)%nat
  end.
Proof.
  induction 1 as [|c p Hc Hp IH]; [done|]. cbn. rewrite (proj2 (Z.eqb_neq c 0)) by done. destruct (c =? NL).
  - destruct (cut p) as [ls r]. split; [done|]. split; [done|lia].
  - destruct (strchr_nl p) as [[l q]|]; cbn.
    + destruct IH as (-> & Hq & Hl). split; [done|]. split; [done|lia].
    + destruct (cut p) as [[|l ls] r]; done.
Qed.

Lemma grep_lines_spec n re p : no_nul p -> (length p <= n)%nat ->
  grep_lines n re p = (select re (fst (cut p)), snd (cut p)).
Proof.
  revert p. induction n as [|n IH]; intros p Hp Hn; [by destruct p; [|cbn in Hn; lia]|]. cbn [grep_lines].
  pose proof (strchr_cut p Hp) as Hc. destruct (strchr_nl p) as [[l q]|].
  - destruct Hc as (-> & Hq & Hl). by rewrite (IH q) by (done || lia).
  - by rewrite Hc, cut_nonl.
Qed.

Lemma cut_nl p : NL ∈ p -> fst (cut p) <> [].
Proof.
  induction p as [|c p IH]; [by intros ?%not_elem_of_nil|]. cbn. destruct (cut p) as [ls r]. destruct (c =? NL) eqn:E; [done|].
  intros [<-|Hin]%elem_of_cons; [by rewrite Z.eqb_refl in E|]. specialize (IH Hin). by destruct ls.
Qed.

Lemma cut_tail_nul p : no_nul p -> no_nul (snd (cut p)).
Proof.
  induction 1 as [|c p Hc Hp IH]; cbn; [constructor|]. destruct (cut p) as [ls r]. destruct (c =? NL); [done|].
  destruct ls; [by constructor|done].
Qed.

(** A turn that finds a newline. *)
Lemma grep_step_spec re carry chunk : no_nul (carry ++ chunk) -> NL ∈ chunk ->
  grep_step re carry chunk = (snd (cut (carry ++ chunk)), select re (fst (cut (carry ++ chunk)))).
Proof.
  intros Hn Hin. unfold grep_step. rewrite grep_lines_spec by done. f_equal.
  assert (NL ∈ carry ++ chunk) as Hnl by (apply elem_of_app; by right). apply cut_nl in Hnl.
  pose proof (cut_length (carry ++ chunk)) as Hl. destruct (cut (carry ++ chunk)) as [[|l ls] r]; [done|]. cbn [fst snd] in *.
  destruct (Nat.eqb_spec (length r) (length (carry ++ chunk))) as [E|]; [|done]. cbn in Hl. lia.
Qed.

(** [grep] prints the lines that match, in order and nothing else, however
    the input is cut into reads, as long as every read returns a newline and
    the text has no NUL: the lines are those of the whole text, whose last
    piece, after the last newline, is not searched. *)
Theorem grep_selects re reads : forall carry, fst (cut carry) = [] -> no_nul (carry ++ concat reads) -> reads_ok carry reads ->
  grep re carry reads = select re (fst (cut (carry ++ concat reads))).
Proof.
  induction reads as [|chunk reads IH]; intros carry Hc Hn Hok; cbn [grep concat] in *.
  - by rewrite app_nil_r, Hc.
  - destruct Hok as (Hnl & _ & Hok). rewrite app_assoc in Hn |- *. pose proof Hn as [Hn1 Hn2]%Forall_app.
    rewrite grep_step_spec by done. pose proof (cut_app (carry ++ chunk) []) as E0. rewrite app_nil_r in E0.
    rewrite (cut_app (carry ++ chunk)). pose proof (cut_tail_nul _ Hn1) as Ht. destruct (cut (carry ++ chunk)) as [ls r] eqn:Ec. cbn [fst snd] in *.
    rewrite IH; [|rewrite app_nil_r in E0|apply Forall_app; done|done].
    + destruct (cut (r ++ concat reads)) as [ls2 r2]. cbn. unfold select. by rewrite flat_map_app.
    + destruct (cut r) as [ls2 r2]. injection E0 as E0 _. rewrite <- (app_nil_r ls) in E0 at 1. by apply app_inv_head in E0.
Qed.

(** A read that returns part of a line, as a pipe may, loses that part: the
    line [ab] does not match [a] when [a] and [b] come in two reads. *)
Lemma grep_loses_partial_line : grep [97] [] [[97]; [98; NL]] = [] /\ match_ [97] [97; 98] = true.
Proof. split; reflexivity. Qed.

(** ** Witnesses *)

(** The pattern [^a.*c$] on a few lines, in two reads. *)
Lemma grep_selects_witness :
  grep [94; 97; 46; 42; 99; 36] [] [[97; 120; 99; NL; 97]; [99; 100; NL; 97; 99; NL]] = [97; 120; 99; NL; 97; 99; NL].
Proof.
  rewrite (grep_selects [94; 97; 46; 42; 99; 36] [[97; 120; 99; NL; 97]; [99; 100; NL; 97; 99; NL]] []).
  - reflexivity.
  - reflexivity.
  - repeat constructor; discriminate.
  - cbn. repeat split; try lia; repeat (left + right).
Defined.
