(* ===== verification/Format.v ===== *)
(** * Printing and reading numbers ([printf.c], [printint] and [cprintf] of
    [console.c], [ulib.c])

    Output is the list of bytes that reach the file or the console.  The
    string functions of the user library work on NUL-terminated strings, here
    the list of bytes before the NUL. *)

From stdpp Require Import base tactics numbers list.
From Stdlib Require Import ZArith Lia.
From S2P Require Import Prelude.

(** ** [printint] *)

(** The tables of the two versions. *)
Definition digits_upper (d : Z) : Z := if d <? 10 then 48 + d else 55 + d.
Definition digits_lower (d : Z) : Z := if d <? 10 then 48 + d else 87 + d.

Definition MINUS : Z := 45.
Definition PERCENT : Z := 37.

(** [buf] as the loop fills it, the last digit first.  A 32-bit number has at
    most 32 digits in any base. *)
Fixpoint digit_loop (fuel : nat) (digits : Z -> Z) (base x : Z) : list Z :=
  match fuel with
  | O => []
  | S fuel' => digits (x mod base) :: (if x / base =? 0 then [] else digit_loop fuel' digits base (x / base))
  end.

Definition printint (digits : Z -> Z) (xx base : Z) (sgn : bool) : list Z :=
  let neg := sgn && (xx <? 0) in
  let x := if neg then u32 (- xx) else u32 xx in
  rev (digit_loop 32 digits base x ++ (if neg then [MINUS] else [])).

(** ** [printf] and [cprintf]

    The arguments are words; one printed with [%s] points to a string or is
    null. *)
Inductive parg := PInt (w : Z) | PStr (s : option (list Z)).

(** "(null)" *)
Definition null_text : list Z := [40; 110; 117; 108; 108; 41].

Definition as_int (a : parg) : Z := match a with PInt w => i32 w | PStr _ => 0 end.
Definition as_str (a : parg) : list Z := match a with PStr s => default null_text s | PInt _ => [] end.

(** The user library: a state machine over the characters, [pct] being
    [state == '%']. *)
Fixpoint printf_with (digits : Z -> Z) (pct : bool) (fmt : list Z) (ap : list parg) : list Z :=
  match fmt with
  | [] => []
  | c :: fmt' =>
      if negb pct then
        if c =? PERCENT then printf_with digits true fmt' ap else c :: printf_with digits false fmt' ap
      else if c =? 100 then
        printint digits (as_int (hd (PInt 0) ap)) 10 true ++ printf_with digits false fmt' (tl ap)
      else if (c =? 120) || (c =? 112) then
        printint digits (as_int (hd (PInt 0) ap)) 16 false ++ printf_with digits false fmt' (tl ap)
      else if c =? 115 then
        as_str (hd (PInt 0) ap) ++ printf_with digits false fmt' (tl ap)
      else if c =? 99 then
        u8 (as_int (hd (PInt 0) ap)) :: printf_with digits false fmt' (tl ap)
      else if c =? PERCENT then c :: printf_with digits false fmt' ap
      else PERCENT :: c :: printf_with digits false fmt' ap
  end.

Definition printf (fmt : list Z) (ap : list parg) : list Z := printf_with digits_upper false fmt ap.

(** The kernel: one conversion per turn. *)
Fixpoint cprintf_with (digits : Z -> Z) (fmt : list Z) (argp : list parg) : list Z :=
  match fmt with
  | [] => []
  | c :: fmt1 =>
      if negb (c =? PERCENT) then c :: cprintf_with digits fmt1 argp else
      match fmt1 with
      | [] => []
      | d :: fmt2 =>
          if d =? 100 then
            printint digits (as_int (hd (PInt 0) argp)) 10 true ++ cprintf_with digits fmt2 (tl argp)
          else if (d =? 120) || (d =? 112) then
            printint digits (as_int (hd (PInt 0) argp)) 16 false ++ cprintf_with digits fmt2 (tl argp)
          else if d =? 115 then as_str (hd (PInt 0) argp) ++ cprintf_with digits fmt2 (tl argp)
          else if d =? PERCENT then PERCENT :: cprintf_with digits fmt2 argp
          else PERCENT :: d :: cprintf_with digits fmt2 argp
      end
  end.

Definition cprintf (fmt : list Z) (argp : list parg) : list Z := cprintf_with digits_lower fmt argp.

(** ** [ulib.c] *)

Definition is_digit (c : Z) : bool := (48 <=? c) && (c <=? 57).

Fixpoint atoi_from (n : Z) (s : list Z) : Z :=
  match s with
  | [] => n
  | c :: s' => if is_digit c then atoi_from (i32 (n * 10 + c - 48)) s' else n
  end.
Definition atoi (s : list Z) : Z := atoi_from 0 s.

(** The bytes are compared as [uchar]; a string that ends reads as 0. *)
Fixpoint strcmp (p q : list Z) : Z :=
  match p with
  | [] => 0 - hd 0 q
  | a :: p' => if a =? hd 0 q then strcmp p' (tl q) else a - hd 0 q
  end.

Fixpoint strchr (s : list Z) (c : Z) : option (list Z) :=
  match s with
  | [] => None
  | a :: s' => if a =? c then Some s else strchr s' c
  end.

(** [gets]: the line, and the input that is left. *)
Fixpoint gets (max : nat) (input : list Z) : list Z * list Z :=
  match max with
  | O | S O => ([], input)
  | S max' =>
      match input with
      | [] => ([], [])
      | c :: input' =>
          if (c =? 10) || (c =? 13) then ([c], input') else
          let '(l, rest) := gets max' input' in (c :: l, rest)
      end
  end.

(** ** Digits *)

(** The number a string of digits stands for. *)
Definition value (base : Z) (val : Z -> Z) (s : list Z) : Z := foldl (fun n c => n * base + val c) 0 s.

Lemma value_app base val s c : value base val (s ++ [c]) = value base val s * base + val c.
Proof. unfold value. by rewrite foldl_app. Qed.

Lemma digit_loop_value fuel digits val base x : 1 < base -> 0 <= x < base ^ Z.of_nat fuel ->
  (forall d, 0 <= d < base -> val (digits d) = d) -> value base val (rev (digit_loop fuel digits base x)) = x.
Proof.
  intros Hb. revert x. induction fuel as [|fuel IH]; intros x Hx Hd; [cbn in *; lia|].
  cbn [digit_loop rev]. rewrite value_app, Hd by (apply Z.mod_pos_bound; lia).
  pose proof (Z.div_mod x base ltac:(lia)) as Ex. destruct (x / base =? 0) eqn:E; bprop.
  - cbn. rewrite E in Ex. lia.
  - rewrite IH; [lia| |done]. split; [apply Z.div_pos; lia|]. apply Z.div_lt_upper_bound; [lia|].
    rewrite Nat2Z.inj_succ, Z.pow_succ_r in Hx by lia. lia.
Qed.

Lemma digit_loop_all fuel digits base x (P : Z -> Prop) : 1 < base -> 0 <= x ->
  (forall d, 0 <= d < base -> P (digits d)) -> Forall P (digit_loop fuel digits base x).
Proof.
  intros Hb Hx Hd. revert x Hx. induction fuel as [|fuel IH]; intros x Hx; cbn; [constructor|].
  constructor; [apply Hd, Z.mod_pos_bound; lia|]. destruct (_ =? 0); [constructor|]. apply IH, Z.div_pos; lia.
Qed.

(** [n] digits are enough for a number below [base ^ n]. *)
Lemma digit_loop_length fuel digits base x n : 1 < base -> 0 <= x < base ^ Z.of_nat n -> (0 < n)%nat ->
  (length (digit_loop fuel digits base x) <= n)%nat.
Proof.
  intros Hb. revert x n. induction fuel as [|fuel IH]; intros x n Hx Hn; cbn; [lia|].
  destruct (x / base =? 0) eqn:E; bprop; cbn; [lia|]. destruct n as [|[|n]]; [lia| |].
  - rewrite Z.pow_1_r in Hx. rewrite Z.div_small in E by lia. lia.
  - apply le_n_S, IH; [|lia]. split; [apply Z.div_pos; lia|]. apply Z.div_lt_upper_bound; [lia|].
    rewrite Nat2Z.inj_succ, Z.pow_succ_r in Hx by lia. lia.
Qed.

Lemma upper_digit d : 0 <= d < 10 -> is_digit (digits_upper d) = true /\ digits_upper d - 48 = d.
Proof. intros Hd. unfold digits_upper, is_digit. rewrite (proj2 (Z.ltb_lt d 10)) by lia. lia. Qed.

Lemma foldl_digits_mono s n m : n <= m -> 0 <= n -> Forall (fun c => is_digit c = true) s ->
  n <= foldl (fun n c => n * 10 + (c - 48)) m s.
Proof.
  revert n m. induction s as [|c s IH]; intros n m Hle Hn Hs; cbn; [done|]. apply Forall_cons in Hs as [Hc Hs].
  unfold is_digit in Hc. apply andb_true_iff in Hc as [?%Z.leb_le ?%Z.leb_le]. apply IH; [lia|done|done].
Qed.

(** [atoi] reads digits as long as the number fits. *)
Lemma atoi_from_digits s rest n : Forall (fun c => is_digit c = true) s -> is_digit (hd 0 rest) = false ->
  0 <= n -> foldl (fun n c => n * 10 + (c - 48)) n s < 2147483648 ->
  atoi_from n (s ++ rest) = foldl (fun n c => n * 10 + (c - 48)) n s.
Proof.
  revert n. induction s as [|c s IH]; intros n Hs Hr Hn Hb; cbn in *.
  - destruct rest as [|c rest]; [done|]. cbn in *. by rewrite Hr.
  - apply Forall_cons in Hs as [Hc Hs]. rewrite Hc. pose proof Hc as Hc'. unfold is_digit in Hc'.
    apply andb_true_iff in Hc' as [?%Z.leb_le ?%Z.leb_le].
    pose proof (foldl_digits_mono s (n * 10 + (c - 48)) (n * 10 + (c - 48)) ltac:(lia) ltac:(lia) Hs).
    rewrite i32_small by lia. replace (n * 10 + c - 48) with (n * 10 + (c - 48)) by lia. apply IH; [done|done|lia|done].
Qed.

(** Printing a number and reading it back.  The decimal text of a number
    that fits in an [int] is read back by [atoi], whatever follows it that is
    not a digit; a negative number is printed as a minus sign and its absolute
    value; the hexadecimal text stands for the word; and the digits never
    overflow the buffer of 16 bytes. *)
Theorem printint_roundtrip xx rest : -2147483648 <= xx < 2147483648 -> is_digit (hd 0 rest) = false ->
  (0 <= xx -> atoi (printint digits_upper xx 10 true ++ rest) = xx) /\
  (xx < 0 -> printint digits_upper xx 10 true = MINUS :: printint digits_upper (u32 (- xx)) 10 false) /\
  value 16 (fun c => if c <? 58 then c - 48 else c - 55) (printint digits_upper xx 16 false) = u32 xx /\
  (length (printint digits_upper xx 10 true) <= 11)%nat /\ (length (printint digits_upper xx 16 false) <= 8)%nat.
Proof.
  intros Hx Hr. assert (10 ^ 32 > 4294967296 /\ 16 ^ 32 > 4294967296) as [H10 H16] by (by vm_compute).
  pose proof (u32_range xx) as Hu. pose proof (u32_range (- xx)) as Hu'. split; [|split; [|split; [|split]]].
  - intros H0. unfold printint. rewrite (proj2 (Z.ltb_ge xx 0)), andb_false_r, app_nil_r, (u32_small xx) by lia.
    assert (value 10 (fun c => c - 48) (rev (digit_loop 32 digits_upper 10 xx)) = xx) as Ev.
    { apply digit_loop_value; [lia|change (Z.of_nat 32) with 32; lia|]. intros d Hd. apply upper_digit. lia. }
    unfold atoi. rewrite atoi_from_digits; [exact Ev| |done|done|unfold value in Ev; lia].
    apply Forall_rev, digit_loop_all; [lia|lia|]. intros d Hd. by apply upper_digit.
  - intros H0. unfold printint. rewrite (proj2 (Z.ltb_lt xx 0)) by lia. cbn [andb]. rewrite rev_app_distr. cbn [rev app].
    by rewrite app_nil_r, u32_u32.
  - unfold printint. cbn [andb]. rewrite app_nil_r. apply digit_loop_value; [lia|change (Z.of_nat 32) with 32; lia|].
    intros d Hd. unfold digits_upper. destruct (d <? 10) eqn:E; bprop.
    + rewrite (proj2 (Z.ltb_lt _ _)) by lia. lia.
    + rewrite (proj2 (Z.ltb_ge _ _)) by lia. lia.
  - unfold printint. rewrite length_rev, length_app. assert (10 ^ 10 > 4294967296) by (by vm_compute).
    pose proof (digit_loop_length 32 digits_upper 10 (if true && (xx <? 0) then u32 (- xx) else u32 xx) 10) as Hl.
    change (Z.of_nat 10) with 10 in Hl. destruct (true && (xx <? 0)); cbn [length]; specialize (Hl ltac:(lia) ltac:(lia) ltac:(lia)); lia.
  - unfold printint. cbn [andb]. rewrite app_nil_r, length_rev. apply digit_loop_length; [lia| |lia].
    assert (16 ^ 8 = 4294967296) by (by vm_compute). change (Z.of_nat 8) with 8. lia.
Qed.

(** ** The two versions of [printf] *)

(** Every conversion of the format is one both versions know, or none does. *)
Fixpoint common (pct : bool) (fmt : list Z) : bool :=
  match fmt with
  | [] => true
  | c :: fmt' => if pct then negb (c =? 99) && common false fmt' else common (c =? PERCENT) fmt'
  end.

Lemma printf_cprintf digits fmt : (forall ap, common false fmt = true -> printf_with digits false fmt ap = cprintf_with digits fmt ap) /\
  forall ap, common true fmt = true -> printf_with digits true fmt ap = cprintf_with digits (PERCENT :: fmt) ap.
Proof.
  induction fmt as [|c fmt [IH1 IH2]]; [done|]. split; intros ap Hc.
  - cbn [printf_with cprintf_with common] in *. destruct (c =? PERCENT) eqn:E; cbn [negb]; [|by rewrite IH1].
    rewrite (IH2 ap Hc). bprop. subst c. reflexivity.
  - cbn [common] in Hc. apply andb_true_iff in Hc as [Hc1 Hc2]. cbn [printf_with cprintf_with negb]. rewrite Z.eqb_refl. cbn [negb].
    rewrite !IH1 by done. destruct (c =? 99) eqn:E99; [done|]. destruct (c =? PERCENT) eqn:E; [bprop; subst c|]; done.
Qed.

(** The kernel and the user library format alike: for a format without
    [%c], which only the library knows, [cprintf] prints what [printf] prints,
    but for the case of hexadecimal digits. *)
Theorem cprintf_agrees digits fmt args : common false fmt = true ->
  cprintf_with digits fmt args = printf_with digits false fmt args.
Proof. intros Hc. symmetry. by apply printf_cprintf. Qed.

(** ** Strings *)

(** [strcmp] of two strings of bytes is 0 exactly if they are equal. *)
Lemma strcmp_zero p : forall q, Forall (fun c => 0 < c) p -> Forall (fun c => 0 < c) q -> strcmp p q = 0 <-> p = q.
Proof.
  induction p as [|a p IH]; intros [|b q] Hp Hq; cbn; try done.
  - apply Forall_cons in Hq as [Hb _]. split; [lia|done].
  - apply Forall_cons in Hp as [Ha _]. rewrite (proj2 (Z.eqb_neq a 0)) by lia. split; [lia|done].
  - apply Forall_cons in Hp as [Ha Hp]. apply Forall_cons in Hq as [Hb Hq]. destruct (Z.eqb_spec a b) as [->|Hne].
    + rewrite IH by done. split; [by intros ->|by intros [= ->]].
    + split; [lia|congruence].
Qed.

(** ** Witnesses *)

Lemma printint_roundtrip_witness : atoi (printint digits_upper 2147483647 10 true ++ [10]) = 2147483647.
Proof.
  destruct (printint_roundtrip 2147483647 [10]) as [H _]; [lia|reflexivity|]. apply H. lia.
Defined.

(** The format "%d %s%%" *)
Lemma cprintf_agrees_witness :
  cprintf_with digits_lower [37; 100; 32; 37; 115; 37; 37] [PInt 42; PStr None] = [52; 50; 32; 40; 110; 117; 108; 108; 41; 37].
Proof. rewrite (cprintf_agrees digits_lower [37; 100; 32; 37; 115; 37; 37] [PInt 42; PStr None]) by reflexivity. reflexivity. Defined.
