(* ===== verification/Console.v ===== *)
(** * The console ([console.c])

    [cgaputc] on the screen memory and the cursor register, and the input
    buffer with its line editing: [input] is a ring of 128 characters with
    three 32-bit indices that only grow.  [editor] is what it stands for: the
    lines a reader may take, and the line being typed. *)

From stdpp Require Import base tactics numbers gmap strings list.
From Stdlib Require Import ZArith Lia.
From S2P Require Import Prelude.

(** ** The screen *)

Definition BACKSPACE : Z := 0x100.
Definition NEWLINE : Z := 10.

(** The cells of [crt], and the cursor as the controller keeps it. *)
Record cga := mkcga { crt : arr Z; cursor : Z }.

Definition put_cell (i v : Z) : M cga unit := aset (25 * 80) (fun f s => mkcga (f (crt s)) (cursor s)) i v.

(** [memmove(crt, crt+80, ...)] and the [memset] of the cells from [pos] on. *)
Definition scroll_up (a : arr Z) : arr Z :=
  foldr (fun i b => <[i := a.[i + 80]]> b) a (seqZ 0 (23 * 80)).
Definition blank_from (pos : Z) (a : arr Z) : arr Z :=
  foldr (fun i b => <[i := 0]> b) a (seqZ pos (24 * 80 - pos)).

Definition cgaputc (c : Z) : M cga unit :=
  let* pos := gets cursor in
  let* pos :=
    (if c =? NEWLINE then ret (pos + (80 - pos mod 80))
     else if c =? BACKSPACE then ret (if 0 <? pos then pos - 1 else pos)
     else put_cell pos (Z.lor (Z.land c 0xff) 0x0700) ;;; ret (pos + 1)) in
  if (pos <? 0) || (25 * 80 <? pos) then panic "pos under/overflow" else
  let* pos :=
    (if 24 <=? pos / 80 then
       modify (fun s => mkcga (blank_from (pos - 80) (scroll_up (crt s))) (cursor s)) ;;; ret (pos - 80)
     else ret pos) in
  modify (fun s => mkcga (crt s) (u16 pos)) ;;;
  put_cell pos (Z.lor 32 0x0700).

(** The cursor is on the first 24 lines. *)
Definition cursor_ok (s : cga) : Prop := 0 <= cursor s < 24 * 80.

Lemma foldr_put_sel (g : Z -> Z) (l : list Z) (a : arr Z) i :
  (foldr (fun i b => <[i := g i]> b) a l).[i] = if decide (i ∈ l) then g i else a.[i].
Proof.
  induction l as [|j l IH]; cbn [foldr]; [by rewrite decide_False by apply not_elem_of_nil|].
  rewrite asel_insert, IH. destruct (decide (j = i)) as [->|Hne]; [by rewrite decide_True by set_solver|].
  destruct (decide (i ∈ l)); [by rewrite decide_True by set_solver|]. by rewrite decide_False by set_solver.
Qed.

(** The screen after the lines have moved up by one. *)
Lemma scrolled_sel pos a i : 0 <= i < 24 * 80 -> 23 * 80 <= pos ->
  (blank_from pos (scroll_up a)).[i] = if decide (pos <= i) then 0 else if decide (i < 23 * 80) then a.[i + 80] else a.[i].
Proof.
  intros Hi Hpos. unfold blank_from, scroll_up. rewrite (foldr_put_sel (fun _ => 0)), (foldr_put_sel (fun i => a.[i + 80])).
  repeat case_decide; try done; exfalso; rewrite ?elem_of_seqZ in *; lia.
Qed.

Definition char_cell (c : Z) : Z := Z.lor (Z.land c 0xff) 0x0700.
Definition blank_cell : Z := Z.lor 32 0x0700.

(** The cells and the cursor after one character. *)
Definition shown (c : Z) (s s' : cga) : Prop :=
  let pos := cursor s in
  if decide (c = BACKSPACE) then
    cursor s' = Z.max 0 (pos - 1) /\ forall i, (crt s').[i] = if decide (i = cursor s') then blank_cell else (crt s).[i]
  else
    let a := if decide (c = NEWLINE) then crt s else <[pos := char_cell c]> (crt s) in
    let next := if decide (c = NEWLINE) then pos + (80 - pos mod 80) else pos + 1 in
    if decide (next < 24 * 80) then
      cursor s' = next /\ forall i, (crt s').[i] = if decide (i = next) then blank_cell else a.[i]
    else
      cursor s' = 23 * 80 /\ forall i, 0 <= i < 24 * 80 ->
        (crt s').[i] = if decide (i = 23 * 80) then blank_cell else if decide (23 * 80 < i) then 0 else a.[i + 80].

Lemma wp_put_cell i v s (Q : unit -> cga -> Prop) : 0 <= i < 2000 -> Q tt (mkcga (<[i := v]> (crt s)) (cursor s)) -> wp (put_cell i v) Q s.
Proof. intros Hi HQ. by apply wp_aset. Qed.

(** The end of [cgaputc], once the new position is known. *)
Lemma wp_cga_end pos s (Q : unit -> cga -> Prop) : 0 <= pos <= 24 * 80 ->
  (pos < 24 * 80 -> Q tt (mkcga (<[pos := blank_cell]> (crt s)) pos)) ->
  (pos = 24 * 80 -> Q tt (mkcga (<[23 * 80 := blank_cell]> (blank_from (23 * 80) (scroll_up (crt s)))) (23 * 80))) ->
  wp (if (pos <? 0) || (25 * 80 <? pos) then panic "pos under/overflow" else
      let* pos :=
        (if 24 <=? pos / 80 then
           modify (fun s => mkcga (blank_from (pos - 80) (scroll_up (crt s))) (cursor s)) ;;; ret (pos - 80)
         else ret pos) in
      modify (fun s => mkcga (crt s) (u16 pos)) ;;;
      put_cell pos (Z.lor 32 0x0700)) Q s.
Proof.
  intros Hp H1 H2. rewrite (proj2 (Z.ltb_ge pos 0)), (proj2 (Z.ltb_ge (25 * 80) pos)) by lia. cbn [orb]. apply wp_bind.
  destruct (Z.leb_spec 24 (pos / 80)) as [Hs|Hs].
  - assert (pos = 24 * 80) as -> by (Z.to_euclidean_division_equations; lia). apply wp_bind, wp_modify, wp_ret.
    apply wp_bind, wp_modify. apply wp_put_cell; [lia|]. by apply H2.
  - assert (pos < 24 * 80) by (Z.to_euclidean_division_equations; lia). apply wp_ret. apply wp_bind, wp_modify.
    apply wp_put_cell; [lia|]. cbn [crt cursor]. unfold u16. rewrite Z.mod_small by lia. by apply H1.
Qed.

Lemma wp_cgaputc c s : cursor_ok s -> wp (cgaputc c) (fun _ s' => cursor_ok s' /\ shown c s s') s.
Proof.
  intros Hc. unfold cursor_ok in Hc. unfold cgaputc. apply wp_bind, wp_gets. apply wp_bind. unfold shown.
  assert (0 < 80 - cursor s mod 80 <= 80 /\ cursor s + (80 - cursor s mod 80) <= 24 * 80) as [Hr1 Hr2]
    by (Z.to_euclidean_division_equations; lia).
  assert (forall a i, 0 <= i < 24 * 80 -> (<[23 * 80 := blank_cell]> (blank_from (23 * 80) (scroll_up a))).[i] =
    if decide (i = 23 * 80) then blank_cell else if decide (23 * 80 < i) then 0 else a.[i + 80]) as Hscr.
  { intros a i Hi. rewrite asel_insert, scrolled_sel by lia. repeat case_decide; try lia; done. }
  destruct (Z.eqb_spec c NEWLINE) as [->|Hn]; [|destruct (Z.eqb_spec c BACKSPACE) as [->|Hb]].
  - apply wp_ret. apply wp_cga_end; [lia| |]; intros Hp; (rewrite (decide_False (P := NEWLINE = BACKSPACE)) by done; rewrite !(decide_True (P := NEWLINE = NEWLINE)) by done; cbn zeta).
    + rewrite decide_True by done. split; [unfold cursor_ok; cbn; lia|]. split; [done|]. intros i. cbn.
      rewrite asel_insert. repeat case_decide; try lia; done.
    + rewrite decide_False by lia. split; [by compute|]. split; [done|]. apply Hscr.
  - apply wp_ret. assert ((if 0 <? cursor s then cursor s - 1 else cursor s) = Z.max 0 (cursor s - 1)) as ->
      by (destruct (Z.ltb_spec 0 (cursor s)); lia).
    apply wp_cga_end; [lia| |lia]. intros Hp. rewrite (decide_True (P := BACKSPACE = BACKSPACE)) by done. split; [unfold cursor_ok; cbn; lia|]. split; [done|]. intros i. cbn.
    rewrite asel_insert. repeat case_decide; try lia; done.
  - apply wp_bind, wp_put_cell; [lia|]. apply wp_ret.
    apply wp_cga_end; [lia| |]; intros Hp; (rewrite (decide_False (P := c = BACKSPACE)), !(decide_False (P := c = NEWLINE)) by done; cbn zeta).
    + rewrite decide_True by done. split; [unfold cursor_ok; cbn; lia|]. split; [done|]. intros i. cbn [crt].
      rewrite (asel_insert _ (cursor s + 1)). repeat case_decide; try lia; done.
    + rewrite decide_False by lia. split; [by compute|]. split; [done|]. apply Hscr.
Qed.

(** ** The input buffer *)

Definition INPUT_BUF : Z := 128.

Record input := mkinput { ibuf : arr Z; ir : Z; iw : Z; ie : Z }.

(** [C('P')], [C('U')], [C('H')], delete and [C('D')] *)
Definition CTRL_P : Z := 16.
Definition CTRL_U : Z := 21.
Definition CTRL_H : Z := 8.
Definition DEL : Z := 127.
Definition CTRL_D : Z := 4.

(** Kill line: how often the loop runs; at most [INPUT_BUF] times. *)
Fixpoint kill_line (fuel : nat) (i : input) : input * nat :=
  match fuel with
  | O => (i, O)
  | S fuel' =>
      if negb (ie i =? iw i) && negb ((ibuf i).[u32 (ie i - 1) mod INPUT_BUF] =? NEWLINE) then
        let '(i', n) := kill_line fuel' (mkinput (ibuf i) (ir i) (iw i) (u32 (ie i - 1))) in (i', S n)
      else (i, O)
  end.

(** One character: the buffer, what goes to [consputc], whether readers are
    woken, and whether the process list is wanted. *)
Definition consoleintr_char (c : Z) (i : input) : input * list Z * bool * bool :=
  if c =? CTRL_P then (i, [], false, true)
  else if c =? CTRL_U then
    let '(i', n) := kill_line (Z.to_nat INPUT_BUF) i in (i', replicate n BACKSPACE, false, false)
  else if (c =? CTRL_H) || (c =? DEL) then
    if negb (ie i =? iw i) then
      (mkinput (ibuf i) (ir i) (iw i) (u32 (ie i - 1)), [BACKSPACE], false, false)
    else (i, [], false, false)
  else if negb (c =? 0) && (u32 (ie i - ir i) <? INPUT_BUF) then
    let c := if c =? 13 then NEWLINE else c in
    let b := <[ie i mod INPUT_BUF := u8 c]> (ibuf i) in
    let e := u32 (ie i + 1) in
    if (c =? NEWLINE) || (c =? CTRL_D) || (e =? u32 (ir i + INPUT_BUF)) then
      (mkinput b (ir i) e e, [c], true, false)
    else (mkinput b (ir i) (iw i) e, [c], false, false)
  else (i, [], false, false).

(** The loop over the characters that [getc] returns. *)
Fixpoint consoleintr (cs : list Z) (i : input) : input * list Z * bool * bool :=
  match cs with
  | [] => (i, [], false, false)
  | c :: cs' =>
      let '(i1, out1, wk1, dump1) := consoleintr_char c i in
      let '(i2, out2, wk2, dump2) := consoleintr cs' i1 in
      (i2, out1 ++ out2, wk1 || wk2, dump1 || dump2)
  end.

(** [consoleread], with [n] of [target] bytes to go, up to its return or its
    next [sleep]: the bytes copied, and how it stops. After a [sleep] it goes
    on with the [n] that is left. *)
Inductive read_end := ReadDone | ReadKilled | ReadSleeps.

Fixpoint consoleread (killed : bool) (n target : nat) (i : input) : input * list Z * read_end :=
  match n with
  | O => (i, [], ReadDone)
  | S n' =>
      if ir i =? iw i then (i, [], if killed then ReadKilled else ReadSleeps) else
      let c := (ibuf i).[ir i mod INPUT_BUF] in
      let i1 := mkinput (ibuf i) (u32 (ir i + 1)) (iw i) (ie i) in
      if c =? CTRL_D then
        ((if Nat.ltb n target then mkinput (ibuf i) (u32 (ir i1 - 1)) (iw i) (ie i) else i1), [], ReadDone)
      else if c =? NEWLINE then (i1, [c], ReadDone)
      else
        let '(i2, l, e) := consoleread killed n' target i1 in (i2, c :: l, e)
  end.

(** ** What it stands for *)

Definition slice (b : arr Z) (from n : Z) : list Z := (fun k => b.[(from + k) mod INPUT_BUF]) <$> seqZ 0 n.

(** The lines that are complete, and the line being typed. *)
Record editor := mked { lines : list Z; typing : list Z }.

Definition abs_input (i : input) : editor :=
  mked (slice (ibuf i) (ir i) (u32 (iw i - ir i))) (slice (ibuf i) (iw i) (u32 (ie i - iw i))).

Definition ed_key (c : Z) (ed : editor) : editor :=
  if c =? CTRL_P then ed
  else if c =? CTRL_U then mked (lines ed) []
  else if (c =? CTRL_H) || (c =? DEL) then mked (lines ed) (removelast (typing ed))
  else
    let room := INPUT_BUF - Z.of_nat (length (lines ed) + length (typing ed)) in
    if (c =? 0) || (room =? 0) then ed else
    let c := if c =? 13 then NEWLINE else c in
    if (c =? NEWLINE) || (c =? CTRL_D) || (room =? 1) then mked (lines ed ++ typing ed ++ [c]) []
    else mked (lines ed) (typing ed ++ [c]).

(** What a reader takes of the complete lines: up to and with a newline, up
    to an end-of-file mark, which stays for the next read unless it comes
    first. *)
Fixpoint ed_take (killed : bool) (n target : nat) (l : list Z) : list Z * list Z * read_end :=
  match n, l with
  | O, _ => (l, [], ReadDone)
  | S _, [] => (l, [], if killed then ReadKilled else ReadSleeps)
  | S n', c :: l' =>
      if c =? CTRL_D then ((if Nat.ltb n target then l else l'), [], ReadDone)
      else if c =? NEWLINE then (l', [c], ReadDone)
      else let '(l2, t, e) := ed_take killed n' target l' in (l2, c :: t, e)
  end.

Record input_ok (i : input) : Prop := {
  io_range : 0 <= ir i < 4294967296 /\ 0 <= iw i < 4294967296 /\ 0 <= ie i < 4294967296;
  io_count : u32 (iw i - ir i) + u32 (ie i - iw i) <= INPUT_BUF;
  io_typing : Forall (fun c => c <> NEWLINE) (typing (abs_input i))
}.

Lemma slice_length b from n : 0 <= n -> length (slice b from n) = Z.to_nat n.
Proof. intros Hn. unfold slice. by rewrite length_fmap, length_seqZ. Qed.

Lemma slice_snoc b from n : 0 <= n -> slice b from (n + 1) = slice b from n ++ [b.[(from + n) mod INPUT_BUF]].
Proof. intros Hn. unfold slice. rewrite seqZ_app, fmap_app by lia. done. Qed.

Lemma slice_app b from n m : 0 <= n -> 0 <= m -> slice b from (n + m) = slice b from n ++ slice b (from + n) m.
Proof.
  intros Hn Hm. unfold slice. rewrite seqZ_app, fmap_app by lia. f_equal. rewrite <- (Z.add_comm n 0), <- fmap_add_seqZ, <- list_fmap_compose.
  apply list_fmap_ext. intros j k Hk. cbn. do 2 f_equal. lia.
Qed.

(** The start of a slice matters only modulo the size of the ring. *)
Lemma slice_mod b from from' n : from mod INPUT_BUF = from' mod INPUT_BUF -> slice b from n = slice b from' n.
Proof.
  intros E. unfold slice. apply list_fmap_ext. intros j k Hk. cbn. f_equal. by rewrite Z.add_mod, E, <- Z.add_mod by done.
Qed.

(** A write outside a slice. *)
Lemma slice_put b from n k v : (forall j, 0 <= j < n -> (from + j) mod INPUT_BUF <> k) -> slice (<[k := v]> b) from n = slice b from n.
Proof.
  intros Hk. unfold slice. apply list_fmap_ext. intros j x Hx. apply lookup_seqZ in Hx as [-> Hj]. cbn.
  rewrite asel_insert_ne; [done|]. apply not_eq_sym, Hk. lia.
Qed.

(** The counts, and where the indices are in the ring. *)
Lemma counts i : input_ok i ->
  0 <= u32 (iw i - ir i) /\ 0 <= u32 (ie i - iw i) /\ u32 (ie i - ir i) = u32 (iw i - ir i) + u32 (ie i - iw i) /\
  iw i mod INPUT_BUF = (ir i + u32 (iw i - ir i)) mod INPUT_BUF /\
  ie i mod INPUT_BUF = (iw i + u32 (ie i - iw i)) mod INPUT_BUF /\
  ie i mod INPUT_BUF = (ir i + u32 (ie i - ir i)) mod INPUT_BUF.
Proof. intros [(Hr & Hw & He) Hc _]. unfold INPUT_BUF in *. wrap_lia. Qed.

Lemma abs_counts i : input_ok i -> Z.of_nat (length (lines (abs_input i)) + length (typing (abs_input i))) = u32 (ie i - ir i).
Proof. intros Hi. destruct (counts i Hi) as (H1 & H2 & H3 & _). cbn. rewrite !slice_length by done. lia. Qed.

Lemma typing_snoc i : input_ok i -> ie i <> iw i ->
  typing (abs_input i) = slice (ibuf i) (iw i) (u32 (ie i - iw i) - 1) ++ [(ibuf i).[u32 (ie i - 1) mod INPUT_BUF]] /\
  u32 (u32 (ie i - 1) - iw i) = u32 (ie i - iw i) - 1.
Proof.
  intros Hi Hne. destruct (counts i Hi) as (H1 & H2 & _). destruct Hi as [(Hr & Hw & He) Hc _].
  assert (0 < u32 (ie i - iw i)) by (unfold u32 in *; wrap_lia).
  split; [|unfold u32 in *; wrap_lia]. cbn [typing abs_input]. set (n := u32 (ie i - iw i)) in *.
  replace n with (n - 1 + 1) at 1 by lia. rewrite slice_snoc by lia. do 3 f_equal. unfold n, INPUT_BUF. wrap_lia.
Qed.

Lemma removelast_snoc {A} (l : list A) x : removelast (l ++ [x]) = l.
Proof. apply removelast_last. Qed.

(** One character taken back. *)
Lemma erase_ok i : input_ok i -> ie i <> iw i ->
  let i' := mkinput (ibuf i) (ir i) (iw i) (u32 (ie i - 1)) in
  input_ok i' /\ abs_input i' = mked (lines (abs_input i)) (removelast (typing (abs_input i))).
Proof.
  intros Hi Hne i'. destruct (typing_snoc i Hi Hne) as [Et En]. destruct (counts i Hi) as (H1 & H2 & _).
  assert (abs_input i' = mked (lines (abs_input i)) (removelast (typing (abs_input i)))) as Ea.
  { rewrite Et, removelast_snoc. unfold abs_input, i'. cbn. by rewrite En. }
  split; [|exact Ea]. pose proof Hi as [(Hr & Hw & He) Hc Ht]. split.
  - unfold i'. cbn. split; [done|]. split; [done|]. apply u32_range.
  - unfold i'. cbn. rewrite En. lia.
  - rewrite Ea. cbn [typing]. rewrite Et in Ht |- *. rewrite removelast_snoc. by apply Forall_app in Ht as [Ht _].
Qed.

Lemma kill_line_ok n : forall i, input_ok i -> Z.of_nat n >= u32 (ie i - iw i) ->
  let '(i', k) := kill_line n i in input_ok i' /\ abs_input i' = mked (lines (abs_input i)) [] /\ k = length (typing (abs_input i)).
Proof.
  induction n as [|n IH]; intros i Hi Hn; cbn [kill_line]; destruct (counts i Hi) as (H1 & H2 & _).
  - split; [done|]. unfold abs_input. replace (u32 (ie i - iw i)) with 0 by lia. done.
  - destruct (Z.eqb_spec (ie i) (iw i)) as [E|Hne]; cbn [negb andb].
    + split; [done|]. unfold abs_input. rewrite E, Z.sub_diag. done.
    + destruct (typing_snoc i Hi Hne) as [Et En]. destruct (erase_ok i Hi Hne) as [Hi' Ea].
      pose proof (io_typing _ Hi) as Ht. rewrite Et in Ht. apply Forall_app in Ht as [_ Ht]. apply Forall_cons in Ht as [Hc _].
      rewrite (proj2 (Z.eqb_neq _ _) Hc). cbn [negb]. specialize (IH _ Hi'). cbn [ie iw] in IH.
      destruct (kill_line n _) as [i' k]. destruct IH as (I1 & I2 & I3); [lia|]. rewrite Ea in I2, I3. cbn [lines typing] in I2, I3.
      split; [done|]. split; [done|]. rewrite I3, Et, removelast_snoc, length_app. cbn. lia.
Qed.

(** The buffer with one more character at the end. *)
Lemma append_ok i c : input_ok i -> u32 (ie i - ir i) < INPUT_BUF ->
  let b := <[ie i mod INPUT_BUF := c]> (ibuf i) in
  slice b (ir i) (u32 (iw i - ir i)) = lines (abs_input i) /\
  slice b (iw i) (u32 (u32 (ie i + 1) - iw i)) = typing (abs_input i) ++ [c] /\
  u32 (u32 (ie i + 1) - ir i) = u32 (ie i - ir i) + 1 /\
  u32 (u32 (ie i + 1) - iw i) = u32 (ie i - iw i) + 1.
Proof.
  intros Hi Hlt b. pose proof Hi as [(Hr & Hw & He) Hc _]. destruct (counts i Hi) as (H1 & H2 & H3 & H4 & H5 & H6).
  assert (u32 (u32 (ie i + 1) - iw i) = u32 (ie i - iw i) + 1) as E1 by (unfold INPUT_BUF in *; wrap_lia).
  assert (u32 (u32 (ie i + 1) - ir i) = u32 (ie i - ir i) + 1) as E2 by (unfold INPUT_BUF in *; wrap_lia).
  split; [|split; [|done]].
  - apply slice_put. intros j Hj. rewrite H6, H3. unfold INPUT_BUF in *. wrap_lia.
  - rewrite E1, slice_snoc by done. f_equal.
    + apply slice_put. intros j Hj. rewrite H5. unfold INPUT_BUF in *. wrap_lia.
    + unfold b. by rewrite <- H5, asel_insert_eq.
Qed.

(** The line being typed becomes a complete one. *)
Lemma commit_ok i c : input_ok i -> u32 (ie i - ir i) < INPUT_BUF ->
  let i' := mkinput (<[ie i mod INPUT_BUF := c]> (ibuf i)) (ir i) (u32 (ie i + 1)) (u32 (ie i + 1)) in
  input_ok i' /\ abs_input i' = mked (lines (abs_input i) ++ typing (abs_input i) ++ [c]) [].
Proof.
  intros Hi Hlt i'. destruct (append_ok i c Hi Hlt) as (A1 & A2 & A3 & A4). destruct (counts i Hi) as (H1 & H2 & H3 & H4 & _).
  assert (abs_input i' = mked (lines (abs_input i) ++ typing (abs_input i) ++ [c]) []) as Ea.
  { unfold abs_input at 1, i'. cbn [ibuf ir iw ie]. rewrite Z.sub_diag, A3. f_equal.
    rewrite H3, <- Z.add_assoc, <- A4, slice_app by lia. rewrite A1, <- A2. f_equal. apply slice_mod. done. }
  split; [|exact Ea]. pose proof Hi as [(Hr & Hw & He) _ _]. split; [|cbn; rewrite A3, Z.sub_diag; change (u32 0) with 0; lia|by rewrite Ea].
  cbn. pose proof (u32_range (ie i + 1)). lia.
Qed.

Lemma key_ok c i : input_ok i -> 0 <= c < 256 ->
  let i' := (consoleintr_char c i).1.1.1 in input_ok i' /\ abs_input i' = ed_key c (abs_input i).
Proof.
  intros Hi Hc i'. unfold i', consoleintr_char, ed_key. pose proof (abs_counts i Hi) as Hcnt.
  destruct (counts i Hi) as (H1 & H2 & H3 & _). pose proof Hi as [(Hr & Hw & He) Hcount Ht].
  destruct (c =? CTRL_P); [done|]. destruct (c =? CTRL_U).
  { pose proof (kill_line_ok (Z.to_nat INPUT_BUF) i Hi) as Hk. destruct (kill_line _ i) as [i2 k]. cbn. destruct Hk as (? & ? & _); [lia|done]. }
  destruct ((c =? CTRL_H) || (c =? DEL)).
  { destruct (Z.eqb_spec (ie i) (iw i)) as [E|Hne]; cbn [negb fst]; [|by apply erase_ok].
    split; [done|]. unfold abs_input. cbn [lines typing]. by rewrite E, Z.sub_diag. }
  rewrite Hcnt. destruct (Z.eqb_spec c 0); cbn [negb andb orb fst]; [done|].
  destruct (Z.ltb_spec (u32 (ie i - ir i)) INPUT_BUF) as [Hlt|Hge]; [rewrite (proj2 (Z.eqb_neq (INPUT_BUF - _) 0)) by lia|rewrite (proj2 (Z.eqb_eq (INPUT_BUF - _) 0)) by lia; done].
  set (c' := if c =? 13 then NEWLINE else c). assert (u8 c' = c') as -> by (unfold c', NEWLINE; case_match; unfold u8; apply Z.mod_small; lia).
  destruct (append_ok i c' Hi Hlt) as (A1 & A2 & A3 & A4). set (b := <[ie i mod INPUT_BUF := c']> (ibuf i)) in *.
  assert ((u32 (ie i + 1) =? u32 (ir i + INPUT_BUF)) = (INPUT_BUF - u32 (ie i - ir i) =? 1)) as Efull.
  { apply eq_true_iff_eq. rewrite !Z.eqb_eq. unfold INPUT_BUF in *. wrap_lia. }
  rewrite Efull. destruct (c' =? NEWLINE) eqn:En; cbn [orb]; [|destruct (c' =? CTRL_D); cbn [orb]; [|destruct (_ =? 1)]]; cbn [fst];
    try (by apply (commit_ok i c')).
  apply Z.eqb_neq in En. assert (abs_input (mkinput b (ir i) (iw i) (u32 (ie i + 1))) = mked (lines (abs_input i)) (typing (abs_input i) ++ [c'])) as Ea.
  { unfold abs_input. cbn [ibuf ir iw ie]. by rewrite A1, A2. }
  split; [|exact Ea]. split; [cbn; pose proof (u32_range (ie i + 1)); lia|cbn; rewrite A4; lia|].
  rewrite Ea. apply Forall_app. split; [done|]. by apply Forall_cons.
Qed.

(** One character read. *)
Lemma lines_cons i : input_ok i -> ir i <> iw i ->
  let i' := mkinput (ibuf i) (u32 (ir i + 1)) (iw i) (ie i) in
  input_ok i' /\ typing (abs_input i') = typing (abs_input i) /\
  lines (abs_input i) = (ibuf i).[ir i mod INPUT_BUF] :: lines (abs_input i') /\ u32 (ir i' - 1) = ir i.
Proof.
  intros Hi Hne i'. destruct (counts i Hi) as (H1 & H2 & _). pose proof Hi as [(Hr & Hw & He) Hc Ht].
  assert (u32 (iw i - ir i) = 1 + u32 (iw i - u32 (ir i + 1))) as E by (unfold INPUT_BUF in *; wrap_lia).
  unfold i'. split; [split; [cbn [ir iw ie]; pose proof (u32_range (ir i + 1)); lia|cbn [ir iw ie]; lia|done]|]. split; [done|].
  split; [|cbn; wrap_lia]. cbn [lines abs_input]. rewrite E, slice_app by (pose proof (u32_range (iw i - u32 (ir i + 1))); lia).
  change (slice (ibuf i) (ir i) 1) with [(ibuf i).[(ir i + 0) mod INPUT_BUF]]. rewrite Z.add_0_r. cbn [app]. f_equal.
  apply slice_mod. cbn [ir]. unfold INPUT_BUF. wrap_lia.
Qed.

Lemma lines_nil i : ir i = iw i -> lines (abs_input i) = [].
Proof. intros E. cbn. by rewrite E, Z.sub_diag. Qed.

Lemma read_ok killed target n : forall i, input_ok i ->
  let '(i', l, e) := consoleread killed n target i in
  input_ok i' /\ typing (abs_input i') = typing (abs_input i) /\
  ed_take killed n target (lines (abs_input i)) = (lines (abs_input i'), l, e).
Proof.
  induction n as [|n IH]; intros i Hi; [done|]. cbn [consoleread]. destruct (Z.eqb_spec (ir i) (iw i)) as [E|Hne].
  { split; [done|]. split; [done|]. by rewrite (lines_nil i E). }
  destruct (lines_cons i Hi Hne) as (Hi' & Et & El & Eu). rewrite El. cbn [ed_take]. rewrite <- El.
  destruct (_ =? CTRL_D).
  { destruct (Nat.ltb _ _); [|done]. cbn [ir] in Eu |- *. rewrite Eu. by destruct i. }
  destruct (_ =? NEWLINE); [done|]. specialize (IH _ Hi'). destruct (consoleread _ n _ _) as [[i2 l] e].
  destruct IH as (I1 & I2 & I3). rewrite I3. split; [done|]. split; [congruence|done].
Qed.

(** ** Sessions *)

(** What happens to the buffer: an interrupt that brings characters, or a
    reader that goes on with [n] of [target] bytes. *)
Inductive cevent := Typed (cs : list Z) | Reads (killed : bool) (n target : nat).

Definition cevent_ok (ev : cevent) : Prop :=
  match ev with Typed cs => Forall (fun c => 0 <= c < 256) cs | Reads _ _ _ => True end.

Fixpoint session (evs : list cevent) (i : input) : input * list (list Z * read_end) :=
  match evs with
  | [] => (i, [])
  | Typed cs :: evs' => session evs' (consoleintr cs i).1.1.1
  | Reads killed n target :: evs' =>
      let '(i1, l, e) := consoleread killed n target i in
      let '(i2, out) := session evs' i1 in (i2, (l, e) :: out)
  end.

Fixpoint ed_session (evs : list cevent) (ed : editor) : editor * list (list Z * read_end) :=
  match evs with
  | [] => (ed, [])
  | Typed cs :: evs' => ed_session evs' (foldl (fun ed c => ed_key c ed) ed cs)
  | Reads killed n target :: evs' =>
      let '(ls, l, e) := ed_take killed n target (lines ed) in
      let '(ed2, out) := ed_session evs' (mked ls (typing ed)) in (ed2, (l, e) :: out)
  end.

Lemma keys_ok cs : forall i, input_ok i -> Forall (fun c => 0 <= c < 256) cs ->
  let i' := (consoleintr cs i).1.1.1 in input_ok i' /\ abs_input i' = foldl (fun ed c => ed_key c ed) (abs_input i) cs.
Proof.
  induction cs as [|c cs IH]; intros i Hi Hcs; [done|]. apply Forall_cons in Hcs as [Hc Hcs]. cbn [consoleintr foldl].
  destruct (key_ok c i Hi Hc) as [Hi1 E1]. destruct (consoleintr_char c i) as [[[i1 o1] w1] d1]. cbn [fst] in Hi1, E1.
  specialize (IH i1 Hi1 Hcs). destruct (consoleintr cs i1) as [[[i2 o2] w2] d2]. cbn [fst] in IH |- *. by rewrite <- E1.
Qed.

(** C36: The console's circular buffer, with its three free-running
    unsigned indices, is a line editor: whatever characters arrive in
    interrupts (ordinary ones, carriage returns, backspace, ^U, ^D, ^P, more
    than the buffer holds) and whatever reads come between them, readers are
    given exactly what they would be given from a list of complete lines and
    a line being typed, and the indices stay within one buffer of each
    other, also when they wrap around. *)
Theorem console_refines evs : forall i, input_ok i -> Forall cevent_ok evs ->
  let '(i', out) := session evs i in input_ok i' /\ ed_session evs (abs_input i) = (abs_input i', out).
Proof.
  induction evs as [|[cs|killed n target] evs IH]; intros i Hi Hev; [done|..]; apply Forall_cons in Hev as [Hc Hev]; cbn [session ed_session].
  - destruct (keys_ok cs i Hi Hc) as [Hi' <-]. by apply IH.
  - pose proof (read_ok killed target n i Hi) as Hread. destruct (consoleread _ _ _ i) as [[i1 l] e]. destruct Hread as (Hi1 & Et & ->).
    rewrite <- Et. specialize (IH i1 Hi1 Hev). destruct (session evs i1) as [i2 out]. destruct IH as [Hi2 E]. split; [done|].
    replace (mked (lines (abs_input i1)) (typing (abs_input i1))) with (abs_input i1) by done. by rewrite E.
Qed.

(** The keys "lx", backspace, "s", return, ^D with the indices about to
    wrap around, a read of ten bytes and a read that meets the ^D. *)
Lemma console_refines_witness :
  let i := mkinput ∅ 4294967294 4294967294 4294967294 in
  (session [Typed [108; 120; 8; 115; 13; 4]; Reads false 10 10; Reads false 10 10] i).2 = [([108; 115; 10], ReadDone); ([], ReadDone)] /\
  let '(i', out) := session [Typed [108; 120; 8; 115; 13; 4]; Reads false 10 10; Reads false 10 10] i in
  input_ok i' /\ ed_session [Typed [108; 120; 8; 115; 13; 4]; Reads false 10 10; Reads false 10 10] (abs_input i) = (abs_input i', out).
Proof.
  intros i. split; [by vm_compute|]. apply console_refines.
  - split; [cbn; lia|by vm_compute|by constructor].
  - repeat constructor; cbn; lia.
Defined.

(** ** Output to the screen and the serial line *)

Record console := mkconsole { screen : cga; serial : list Z; uart : bool; panicked : bool }.

Definition screen_lens : lens console cga :=
  mklens screen (fun v s => mkconsole v (serial s) (uart s) (panicked s)).

(** [uartputc]: the byte is sent once the line is free, or the waiting loop
    has run 128 times. *)
Definition uartputc (c : Z) : M console unit :=
  modify (fun s => if uart s then mkconsole (screen s) (serial s ++ [u8 c]) (uart s) (panicked s) else s).

(** A kernel that has panicked spins for ever. *)
Definition consputc (c : Z) : M console unit :=
  let* p := gets panicked in
  if p then fun _ => NoFuel else
  (if c =? BACKSPACE then uartputc 8 ;;; uartputc 32 ;;; uartputc 8 else uartputc c) ;;;
  zoom screen_lens (cgaputc c).

Fixpoint consputs (l : list Z) : M console unit :=
  match l with
  | [] => ret tt
  | c :: l' => consputc c ;;; consputs l'
  end.

(** [consolewrite], between the release and the new acquisition of the
    inode's lock. *)
Definition consolewrite (buf : list Z) : M console Z :=
  consputs (map (fun c => Z.land c 0xff) buf) ;;; ret (Z.of_nat (length buf)).

(** What one character sends. *)
Definition sent (c : Z) : list Z := if c =? BACKSPACE then [8; 32; 8] else [u8 c].

Lemma wp_consputc c s : cursor_ok (screen s) -> panicked s = false ->
  wp (consputc c) (fun _ s' => cursor_ok (screen s') /\ shown c (screen s) (screen s') /\
    serial s' = serial s ++ (if uart s then sent c else []) /\ uart s' = uart s /\ panicked s' = false) s.
Proof.
  intros Hc Hp. unfold consputc. apply wp_bind, wp_gets. rewrite Hp. apply wp_bind.
  assert (forall Q : unit -> console -> Prop, Q tt (mkconsole (screen s) (serial s ++ (if uart s then sent c else [])) (uart s) false) ->
    wp (if c =? BACKSPACE then uartputc 8 ;;; uartputc 32 ;;; uartputc 8 else uartputc c) Q s) as Hsend.
  { intros Q HQ. destruct s as [sc se [|] p]; cbn in *; subst p; unfold sent in HQ; rewrite ?app_nil_r in HQ; destruct (c =? BACKSPACE).
    - apply wp_bind, wp_modify, wp_bind, wp_modify, wp_modify. cbn. by rewrite <- !app_assoc.
    - by apply wp_modify.
    - by apply wp_bind, wp_modify, wp_bind, wp_modify, wp_modify.
    - by apply wp_modify. }
  apply Hsend. apply wp_zoom. cbn. eapply wp_mono; [|apply wp_cgaputc, Hc]. intros _ sc [H1 H2]. done.
Qed.

Lemma wp_consputs l : forall s, cursor_ok (screen s) -> panicked s = false ->
  wp (consputs l) (fun _ s' => cursor_ok (screen s') /\ serial s' = serial s ++ (if uart s then concat (map sent l) else []) /\
    uart s' = uart s /\ panicked s' = false) s.
Proof.
  induction l as [|c l IH]; intros s Hc Hp; cbn [consputs map concat].
  { apply wp_ret. split; [done|]. by destruct (uart s); rewrite app_nil_r. }
  apply wp_bind. eapply wp_mono; [|by apply wp_consputc]. intros _ s1 (H1 & _ & H2 & H3 & H4).
  eapply wp_mono; [|by apply IH]. intros _ s2 (G1 & G2 & G3 & G4). rewrite G2, H2, H3, G3, H3.
  split; [done|]. split; [|done]. destruct (uart s); [by rewrite <- app_assoc|by rewrite !app_nil_r].
Qed.

(** Writing any bytes to the console, starting with the cursor on the
    24 lines of the screen, never panics, returns the number of bytes, sends
    exactly these bytes over the serial line if there is one, and keeps the
    cursor on the screen. Each character lands at the cursor, a newline goes
    to the next line, a backspace blanks the cell before, and past the last
    line everything moves up by one line. *)
Theorem consolewrite_correct buf c s : cursor_ok (screen s) -> panicked s = false -> Forall (fun b => 0 <= b < 256) buf ->
  wp (consolewrite buf) (fun n s' => n = Z.of_nat (length buf) /\ cursor_ok (screen s') /\
    serial s' = serial s ++ (if uart s then buf else [])) s /\
  wp (consputc c) (fun _ s' => cursor_ok (screen s') /\ shown c (screen s) (screen s')) s.
Proof.
  intros Hs Hp Hb. split.
  - assert (map (fun c => Z.land c 0xff) buf = buf) as Em.
    { clear -Hb. induction Hb as [|b l Hb _ IH]; cbn [map]; [done|]. rewrite IH. f_equal. change 0xff with (Z.ones 8).
      rewrite Z.land_ones by lia. by apply Z.mod_small. }
    assert (concat (map sent buf) = buf) as Es.
    { clear -Hb. induction Hb as [|b l Hb _ IH]; cbn [map concat]; [done|]. rewrite IH. unfold sent, BACKSPACE, u8.
      rewrite (proj2 (Z.eqb_neq b 256)) by lia. cbn. f_equal. by apply Z.mod_small. }
    unfold consolewrite. rewrite Em. apply wp_bind. eapply wp_mono; [|by apply wp_consputs].
    intros _ s' (H1 & H2 & _). apply wp_ret. by rewrite Es in H2.
  - eapply wp_mono; [|by apply wp_consputc]. naive_solver.
Qed.

(** A line written when the cursor is on the last cell. *)
Lemma consolewrite_correct_witness :
  let s := mkconsole (mkcga ∅ 1919) [] true false in
  wp (consolewrite [104; 105; 10]) (fun n s' => n = 3 /\ cursor_ok (screen s') /\ serial s' = [104; 105; 10]) s /\
  wp (consputc 65) (fun _ s' => cursor_ok (screen s') /\ shown 65 (screen s) (screen s')) s.
Proof.
  intros s. apply (consolewrite_correct [104; 105; 10] 65 s); [unfold cursor_ok; cbn; lia|done|repeat constructor; lia].
Defined.
