(* ===== verification/Kbd.v ===== *)
(** * The keyboard ([kbd.c], [kbd.h])

    Scan codes to characters: the tables, the modifiers kept between the
    calls of [kbdgetc], and the keyboard interrupt, which hands what
    [kbdgetc] returns to the console.  The theorem follows a line from the
    keys to the reader. *)

From stdpp Require Import base tactics numbers gmap strings list.
From Stdlib Require Import ZArith Lia Ascii.
From S2P Require Import Prelude Console.

Definition NO : Z := 0.

Definition SHIFT : Z := Z.shiftl 1 0.
Definition CTL : Z := Z.shiftl 1 1.
Definition ALT : Z := Z.shiftl 1 2.
Definition CAPSLOCK : Z := Z.shiftl 1 3.
Definition NUMLOCK : Z := Z.shiftl 1 4.
Definition SCROLLLOCK : Z := Z.shiftl 1 5.
Definition E0ESC : Z := Z.shiftl 1 6.

Definition KEY_HOME : Z := 0xE0.
Definition KEY_END : Z := 0xE1.
Definition KEY_UP : Z := 0xE2.
Definition KEY_DN : Z := 0xE3.
Definition KEY_LF : Z := 0xE4.
Definition KEY_RT : Z := 0xE5.
Definition KEY_PGUP : Z := 0xE6.
Definition KEY_PGDN : Z := 0xE7.
Definition KEY_INS : Z := 0xE8.
Definition KEY_DEL : Z := 0xE9.

(** The characters of a row of a table, and the control characters [C(x)]. *)
Fixpoint row (s : string) : list Z :=
  match s with EmptyString => [] | String a s' => Z.of_nat (nat_of_ascii a) :: row s' end.
Definition ctl (s : string) : list Z := map (fun x => x - 64) (row s).

(** A table of 256 bytes: entries from 0 on, and entries at given places. *)
Definition table (first : list Z) (at_ : list (Z * Z)) (i : Z) : Z :=
  match list_find (fun e => e.1 = i) at_ with
  | Some (_, (_, v)) => v
  | None => default NO (first !! Z.to_nat i)
  end.

Definition shiftcode : Z -> Z :=
  table [] [(0x1D, CTL); (0x2A, SHIFT); (0x36, SHIFT); (0x38, ALT); (0x9D, CTL); (0xB8, ALT)].
Definition togglecode : Z -> Z :=
  table [] [(0x3A, CAPSLOCK); (0x45, NUMLOCK); (0x46, SCROLLLOCK)].

(** The keys that all three maps share. *)
Definition special : list (Z * Z) :=
  [(0xC8, KEY_UP); (0xD0, KEY_DN); (0xC9, KEY_PGUP); (0xD1, KEY_PGDN); (0xCB, KEY_LF); (0xCD, KEY_RT);
   (0x97, KEY_HOME); (0xCF, KEY_END); (0xD2, KEY_INS); (0xD3, KEY_DEL)].

Definition normalmap : Z -> Z :=
  table ([NO; 0x1B] ++ row "1234567890-=" ++ [8; 9] ++ row "qwertyuiop[]" ++ [10; NO] ++ row "asdfghjkl;'`" ++ [NO] ++
         row "\zxcvbnm,./" ++ [NO] ++ row "*" ++ [NO] ++ row " " ++ replicate 13 NO ++ row "789-456+1230.")
        ([(0x9C, 10); (0xB5, 47)] ++ special).
Definition shiftmap : Z -> Z :=
  table ([NO; 27] ++ row "!@#$%^&*()_+" ++ [8; 9] ++ row "QWERTYUIOP{}" ++ [10; NO] ++ row "ASDFGHJKL:" ++ [34] ++ row "~" ++ [NO] ++
         row "|ZXCVBNM<>?" ++ [NO] ++ row "*" ++ [NO] ++ row " " ++ replicate 13 NO ++ row "789-456+1230.")
        ([(0x9C, 10); (0xB5, 47)] ++ special).
(** The source's [C('/')] is negative; stored in a byte it is 239. *)
Definition ctlmap : Z -> Z :=
  table (replicate 16 NO ++ ctl "QWERTYUIOP" ++ [NO; NO; 13; NO] ++ ctl "ASDFGHJKL" ++ [NO; NO; NO; NO] ++
         ctl "\ZXCVBNM" ++ [NO; NO; u8 (47 - 64); NO; NO])
        ([(0x9C, 13); (0xB5, u8 (47 - 64))] ++ special).

Definition charcode (i : Z) : option (Z -> Z) := [normalmap; shiftmap; ctlmap; ctlmap] !! Z.to_nat i.

(** An access to one of the tables. *)
Definition tab (t : Z -> Z) (i : Z) : M Z Z := if (0 <=? i) && (i <? 256) then ret (t i) else undef.

(** [kbdgetc]; the state is [shift], the argument what the controller has. *)
Definition kbdgetc (data : option Z) : M Z Z :=
  match data with
  | None => ret (-1)
  | Some data =>
      if data =? 0xE0 then modify (fun shift => Z.lor shift E0ESC) ;;; ret 0
      else
        let* shift := gets (fun shift => shift) in
        if negb (Z.land data 0x80 =? 0) then
          let data := if negb (Z.land shift E0ESC =? 0) then data else Z.land data 0x7F in
          let* sc := tab shiftcode data in
          modify (fun shift => Z.land shift (Z.lnot (Z.lor sc E0ESC))) ;;; ret 0
        else
          let* data :=
            (if negb (Z.land shift E0ESC =? 0) then
               modify (fun shift => Z.land shift (Z.lnot E0ESC)) ;;; ret (Z.lor data 0x80)
             else ret data) in
          let* sc := tab shiftcode data in
          modify (fun shift => Z.lor shift sc) ;;;
          let* tc := tab togglecode data in
          modify (fun shift => Z.lxor shift tc) ;;;
          let* shift := gets (fun shift => shift) in
          match charcode (Z.land shift (Z.lor CTL SHIFT)) with
          | None => undef
          | Some map =>
              let* c := tab map data in
              if negb (Z.land shift CAPSLOCK =? 0) then
                if (97 <=? c) && (c <=? 122) then ret (c + (65 - 97))
                else if (65 <=? c) && (c <=? 90) then ret (c + (97 - 65))
                else ret c
              else ret c
          end
  end.

(** What the calls of [kbdgetc] return for the codes that are waiting. *)
Fixpoint kbd_chars (codes : list Z) : M Z (list Z) :=
  match codes with
  | [] => ret []
  | d :: codes' =>
      let* c := kbdgetc (Some d) in
      let* cs := kbd_chars codes' in
      ret (c :: cs)
  end.

(** [kbdintr]: [consoleintr] calls [kbdgetc] until it returns -1. *)
Definition kbdintr (codes : list Z) (i : input) : M Z input :=
  let* cs := kbd_chars codes in
  ret (consoleintr cs i).1.1.1.

(** ** Ranges *)

Lemma fits_iff n x : 0 <= n -> (0 <= x < 2 ^ n <-> Z.land x (Z.ones n) = x).
Proof.
  intros Hn. rewrite Z.land_ones by done. split; intros H; [by apply Z.mod_small|].
  rewrite <- H. apply Z.mod_pos_bound. lia.
Qed.

Lemma lor_fits n a b : 0 <= n -> 0 <= a < 2 ^ n -> 0 <= b < 2 ^ n -> 0 <= Z.lor a b < 2 ^ n.
Proof. intros Hn. rewrite !fits_iff by done. intros Ha Hb. by rewrite Z.land_lor_distr_l, Ha, Hb. Qed.

Lemma lxor_fits n a b : 0 <= n -> 0 <= a < 2 ^ n -> 0 <= b < 2 ^ n -> 0 <= Z.lxor a b < 2 ^ n.
Proof.
  intros Hn. rewrite !fits_iff by done. intros Ha Hb. apply Z.bits_inj'. intros k Hk.
  rewrite <- Ha, <- Hb at 2. rewrite !Z.land_spec, !Z.lxor_spec, !Z.land_spec.
  by destruct (Z.testbit a k), (Z.testbit b k), (Z.testbit _ k).
Qed.

Lemma land_fits n a b : 0 <= n -> 0 <= a < 2 ^ n -> 0 <= Z.land a b < 2 ^ n.
Proof. intros Hn. rewrite !fits_iff by done. intros Ha. by rewrite <- Z.land_assoc, (Z.land_comm b), Z.land_assoc, Ha. Qed.

(** What holds of the 256 entries of a table holds of every access. *)
Lemma table_all (f : Z -> bool) : forallb f (seqZ 0 256) = true -> forall i, 0 <= i < 256 -> f i = true.
Proof. intros H i Hi. rewrite forallb_forall in H. apply H. apply list_elem_of_In, elem_of_seqZ. lia. Qed.

Lemma codes_fit i : 0 <= i < 256 -> 0 <= shiftcode i < 2 ^ 7 /\ 0 <= togglecode i < 2 ^ 7.
Proof.
  intros Hi. pose proof (table_all (fun i => (0 <=? shiftcode i) && (shiftcode i <? 128) && (0 <=? togglecode i) && (togglecode i <? 128))) as H.
  specialize (H ltac:(by vm_compute) i Hi). cbn in H. rewrite !andb_true_iff, !Z.leb_le, !Z.ltb_lt in H. lia.
Qed.

Lemma charcode_fits k : 0 <= k < 4 -> exists t, charcode k = Some t /\ forall i, 0 <= i < 256 -> 0 <= t i < 256.
Proof.
  intros Hk. assert (forall t, forallb (fun i => (0 <=? t i) && (t i <? 256)) (seqZ 0 256) = true -> forall i, 0 <= i < 256 -> 0 <= t i < 256) as H.
  { intros t Ht i Hi. pose proof (table_all _ Ht i Hi) as E. cbn in E. rewrite andb_true_iff, Z.leb_le, Z.ltb_lt in E. lia. }
  assert (k = 0 \/ k = 1 \/ k = 2 \/ k = 3) as [-> | [-> | [-> | ->]]] by lia; eexists; (split; [reflexivity|]); apply H; by vm_compute.
Qed.

Lemma wp_tab t i shift (Q : Z -> Z -> Prop) : 0 <= i < 256 -> Q (t i) shift -> wp (tab t i) Q shift.
Proof. intros Hi HQ. unfold tab. rewrite (proj2 (Z.leb_le 0 i)), (proj2 (Z.ltb_lt i 256)) by lia. by apply wp_ret. Qed.

(** The part of [kbdgetc] that looks a pressed key up. *)
Lemma wp_kbdgetc data shift : 0 <= data < 2 ^ 8 -> 0 <= shift < 2 ^ 7 ->
  wp (kbdgetc (Some data)) (fun c shift' => 0 <= c < 256 /\ 0 <= shift' < 2 ^ 7) shift.
Proof.
  intros Hd Hs. assert (0 <= E0ESC < 2 ^ 7) by by compute. cbn [kbdgetc]. destruct (data =? 0xE0).
  { apply wp_bind, wp_modify, wp_ret. split; [lia|]. by apply lor_fits. }
  apply wp_bind, wp_gets. destruct (negb (Z.land data 128 =? 0)).
  { cbn zeta. apply wp_bind, wp_tab; [|apply wp_bind, wp_modify, wp_ret; split; [lia|by apply land_fits]].
    destruct (negb _); [done|]. by apply (land_fits 8). }
  apply wp_bind. set (P := fun data shift => 0 <= data < 2 ^ 8 /\ 0 <= shift < 2 ^ 7).
  apply (wp_mono _ P).
  2:{ destruct (negb _); [|by apply wp_ret]. apply wp_bind, wp_modify, wp_ret. split; [by apply lor_fits|by apply land_fits]. }
  clear data shift Hd Hs. intros data shift [Hd Hs]. destruct (codes_fit data Hd) as [Hsc Htc].
  apply wp_bind, wp_tab; [done|]. apply wp_bind, wp_modify, wp_bind, wp_tab; [done|]. apply wp_bind, wp_modify, wp_bind, wp_gets.
  assert (0 <= Z.lxor (Z.lor shift (shiftcode data)) (togglecode data) < 2 ^ 7) as Hs' by (apply lxor_fits; [done|by apply lor_fits|done]).
  set (shift' := Z.lxor _ _) in *. clearbody shift'.
  destruct (charcode_fits (Z.land shift' (Z.lor CTL SHIFT))) as (t & -> & Ht).
  { rewrite Z.land_comm. by apply (land_fits 2). }
  apply wp_bind, wp_tab; [done|]. specialize (Ht data Hd). destruct (negb _); [|by apply wp_ret].
  destruct (Z.leb_spec 97 (t data)), (Z.leb_spec (t data) 122); cbn [andb];
    try (destruct (Z.leb_spec 65 (t data)), (Z.leb_spec (t data) 90); cbn [andb]); apply wp_ret; (split; [lia|done]).
Qed.

(** ** Keys and characters *)

Definition find_code (t : Z -> Z) (c : Z) : option Z := snd <$> list_find (fun i => t i = c) (seqZ 0 128).

(** The codes for one character: the key goes down and up, with the left
    shift key held where the character needs it. *)
Definition keystrokes (c : Z) : list Z :=
  match find_code normalmap c with
  | Some d => [d; d + 128]
  | None => match find_code shiftmap c with
            | Some d => [0x2A; d; d + 128; 0x2A + 128]
            | None => []
            end
  end.

(** The printable characters. *)
Definition printable (c : Z) : Prop := 32 <= c < 127.

Definition keys_of (c : Z) : bool :=
  match kbd_chars (keystrokes c) 0 with
  | Ret cs shift => (shift =? 0) && forallb (fun x => (x =? 0) || (x =? c)) cs &&
                    (Z.of_nat (length (List.filter (fun x => negb (x =? 0)) cs)) =? 1)
  | _ => false
  end.

Lemma keys_of_all : forallb keys_of (10 :: seqZ 32 95) = true.
Proof. by vm_compute. Qed.

Lemma keystrokes_chars c : c = 10 \/ printable c ->
  wp (kbd_chars (keystrokes c)) (fun cs shift => shift = 0 /\ Forall (fun x => 0 <= x < 256) cs /\
    List.filter (fun x => negb (x =? 0)) cs = [c]) 0.
Proof.
  intros Hc. assert (keys_of c = true) as Hk.
  { pose proof keys_of_all as H. rewrite forallb_forall in H. apply H. destruct Hc as [->|Hc]; [by left|right].
    apply list_elem_of_In, elem_of_seqZ. unfold printable in Hc. lia. }
  assert (0 < c < 256) as Hr by (unfold printable in Hc; lia). clear Hc.
  unfold keys_of in Hk. unfold wp. destruct (kbd_chars (keystrokes c) 0) as [cs shift| | |]; try done.
  rewrite !andb_true_iff, !Z.eqb_eq in Hk. destruct Hk as [[-> Hall] Hlen]. split; [done|].
  rewrite forallb_forall in Hall. split.
  { apply Forall_forall. intros x Hx. apply list_elem_of_In, Hall, orb_true_iff in Hx. rewrite !Z.eqb_eq in Hx. lia. }
  assert (forall x, In x (List.filter (fun x => negb (x =? 0)) cs) -> x = c) as Hin.
  { intros x Hx. apply filter_In in Hx as [Hx Hz]. specialize (Hall x Hx). destruct (Z.eqb_spec x 0); [done|]. cbn in Hall. by apply Z.eqb_eq. }
  destruct (List.filter _ cs) as [|x [|y l]]; cbn [length] in Hlen; [lia| |lia]. f_equal. apply Hin. by left.
Qed.

Lemma wp_bind_inv {S A B} (c : M S A) (k : A -> M S B) Q s : wp (bind c k) Q s -> wp c (fun a => wp (k a) Q) s.
Proof. unfold wp, bind. by destruct (c s). Qed.

Lemma wp_kbd_chars_app l1 l2 (Q : list Z -> Z -> Prop) shift :
  wp (kbd_chars l1) (fun cs1 => wp (kbd_chars l2) (fun cs2 => Q (cs1 ++ cs2))) shift -> wp (kbd_chars (l1 ++ l2)) Q shift.
Proof.
  revert Q shift. induction l1 as [|d l1 IH]; intros Q shift H; cbn [kbd_chars app] in *.
  - exact H.
  - apply wp_bind. apply wp_bind_inv in H. eapply wp_mono; [|exact H]. intros c s Hc. apply wp_bind. apply wp_bind_inv in Hc.
    apply IH. eapply wp_mono; [|exact Hc]. intros cs1 s1 H1. eapply wp_mono; [|exact H1].
    intros cs2 s2 H2. by apply wp_ret.
Qed.

Lemma keystrokes_text text : Forall (fun c => c = 10 \/ printable c) text ->
  wp (kbd_chars (concat (map keystrokes text))) (fun cs shift => shift = 0 /\ Forall (fun x => 0 <= x < 256) cs /\
    List.filter (fun x => negb (x =? 0)) cs = text) 0.
Proof.
  induction 1 as [|c text Hc _ IH]; cbn [map concat]; [by apply wp_ret|].
  apply wp_kbd_chars_app. eapply wp_mono; [|by apply keystrokes_chars]. intros cs1 s1 (-> & H1 & E1).
  eapply wp_mono; [|exact IH]. intros cs2 s2 (-> & H2 & E2). split; [done|]. split; [by apply Forall_app|].
  by rewrite List.filter_app, E1, E2.
Qed.

(** Zeros, which [kbdgetc] returns for releases and modifiers, are ignored. *)
Lemma ed_keys_nonzero cs ed :
  foldl (fun ed c => ed_key c ed) ed cs = foldl (fun ed c => ed_key c ed) ed (List.filter (fun x => negb (x =? 0)) cs).
Proof.
  revert ed. induction cs as [|c cs IH]; intros ed; [done|]. cbn [List.filter foldl].
  destruct (Z.eqb_spec c 0) as [->|]; cbn [negb foldl]; by rewrite IH.
Qed.

Lemma ed_types text : forall t, Forall printable text -> Z.of_nat (length t + length text) < INPUT_BUF ->
  foldl (fun ed c => ed_key c ed) (mked [] t) text = mked [] (t ++ text).
Proof.
  induction text as [|c text IH]; intros t Ht Hl; cbn [foldl]; [by rewrite app_nil_r|].
  apply Forall_cons in Ht as [Hc Ht]. unfold printable in Hc. cbn [length] in Hl.
  assert (ed_key c (mked [] t) = mked [] (t ++ [c])) as ->.
  { unfold ed_key, CTRL_P, CTRL_U, CTRL_H, DEL, NEWLINE, CTRL_D, INPUT_BUF in *. cbn [lines typing length].
    rewrite !(proj2 (Z.eqb_neq c _)) by lia. cbn [orb]. rewrite !(proj2 (Z.eqb_neq (128 - _) _)) by lia. done. }
  rewrite IH; [by rewrite <- app_assoc|done|]. rewrite length_app. cbn. lia.
Qed.

Lemma ed_take_line killed text : forall n target, Forall printable text -> (length text < n)%nat ->
  ed_take killed n target (text ++ [10]) = ([], text ++ [10], ReadDone).
Proof.
  induction text as [|c text IH]; intros n target Ht Hn; destruct n as [|n]; cbn [length] in Hn; try lia; [done|].
  apply Forall_cons in Ht as [Hc Ht]. unfold printable in Hc. cbn [ed_take app]. unfold CTRL_D, NEWLINE.
  rewrite !(proj2 (Z.eqb_neq c _)) by lia. by rewrite IH by (done || lia).
Qed.

(** A line travels from the keyboard to the reader.  [kbdgetc] never
    indexes outside its tables and returns a byte for every scan code and
    every state of the modifiers; and when the keys of a text of printable
    characters are pressed and released, shifted where the character needs
    it, followed by the enter key, a process that reads from the console
    gets the text and the newline, and no modifier is left set. *)
Theorem kbd_line text i data shift killed n : Forall printable text -> Z.of_nat (length text) < 127 ->
  input_ok i -> abs_input i = mked [] [] -> (length text < n)%nat -> 0 <= data < 256 -> 0 <= shift < 128 ->
  wp (kbdgetc (Some data)) (fun c shift' => 0 <= c < 256 /\ 0 <= shift' < 128) shift /\
  wp (kbdintr (concat (map keystrokes (text ++ [10]))) i) (fun i' shift' => shift' = 0 /\ input_ok i' /\
    exists i'', consoleread killed n n i' = (i'', text ++ [10], ReadDone) /\ abs_input i'' = mked [] []) 0.
Proof.
  intros Ht Hl Hi Ha Hn Hd Hs. split; [by apply wp_kbdgetc|]. unfold kbdintr. apply wp_bind.
  eapply wp_mono; [|apply (keystrokes_text (text ++ [10]))].
  2:{ apply Forall_app. split; [|by repeat constructor]. eapply Forall_impl; [exact Ht|]. by right. }
  intros cs shift' (-> & Hcs & Ef). apply wp_ret. split; [done|]. destruct (keys_ok cs i Hi Hcs) as [Hi' Ea].
  rewrite Ha, ed_keys_nonzero, Ef, foldl_app, ed_types in Ea by (done || unfold INPUT_BUF; cbn; lia).
  split; [exact Hi'|]. revert Hi' Ea. generalize (consoleintr cs i).1.1.1. intros i' Hi' Ea.
  assert (abs_input i' = mked (text ++ [10]) []) as Ea'.
  { rewrite Ea. cbn [app foldl]. unfold ed_key. cbn [lines typing length app]. unfold INPUT_BUF.
    rewrite (proj2 (Z.eqb_neq (128 - _) 0)) by lia. done. }
  pose proof (read_ok killed n n i' Hi') as Hr. destruct (consoleread killed n n i') as [[i'' l] e].
  destruct Hr as (Hi'' & Et & Er). rewrite Ea' in Er, Et. cbn [lines typing] in Er, Et. rewrite ed_take_line in Er by done.
  injection Er as E1 E2 E3. subst l e. exists i''. split; [done|].
  change (abs_input i'') with (mked (lines (abs_input i'')) (typing (abs_input i''))). by rewrite Et, (eq_sym E1 : lines (abs_input i'') = []).
Qed.

(** The keys for "Hi" and enter. *)
Lemma kbd_line_witness :
  concat (map keystrokes [72; 105; 10]) = [42; 35; 163; 170; 23; 151; 28; 156] /\
  wp (kbdintr (concat (map keystrokes ([72; 105] ++ [10]))) (mkinput ∅ 0 0 0)) (fun i' shift' => shift' = 0 /\ input_ok i' /\
    exists i'', consoleread false 100 100 i' = (i'', [72; 105] ++ [10], ReadDone) /\ abs_input i'' = mked [] []) 0.
Proof.
  split; [by vm_compute|]. apply (kbd_line [72; 105] (mkinput ∅ 0 0 0) 0 0 false 100); cbn [length]; try done; try lia.
  repeat constructor; by compute.
Defined.
