(* ===== verification/Sh.v ===== *)
(** * The shell's parser ([sh.c])

    [parsecmd] and the functions below it, on the characters of a line: a
    position moves through the buffer, [gettoken] and [peek] read it, and the
    recursive-descent functions build a command whose words are pairs of
    positions; [nulterminate] then cuts the words out of the buffer.  Memory
    for the commands is taken to be available.  The grammar is given apart
    from the parser, as relations on token lists. *)

From stdpp Require Import base tactics numbers gmap strings list.
From Stdlib Require Import ZArith Lia Ascii.
From S2P Require Import Format.
From S2P Require Import Prelude.

(** ** Commands *)

Definition MAXARGS : nat := 10.
Definition O_RDONLY : Z := 0.
Definition O_WRONLY : Z := 1.
Definition O_CREATE : Z := 0x200.

(** [W] is what stands for a word: a pair of positions in the code. *)
Inductive cmd (W : Type) :=
| EXEC (argv : list W)
| REDIR (c : cmd W) (file : W) (mode fd : Z)
| PIPE (left right : cmd W)
| LIST (left right : cmd W)
| BACK (c : cmd W).

Arguments EXEC {W} argv.
Arguments REDIR {W} c file mode fd.
Arguments PIPE {W} left right.
Arguments LIST {W} left right.
Arguments BACK {W} c.

(** The [execcmd] that [parseexec] fills in is the one below the
    redirections put around it. *)
Fixpoint add_arg {W} (w : W) (c : cmd W) : cmd W :=
  match c with
  | EXEC argv => EXEC (argv ++ [w])
  | REDIR c' f m d => REDIR (add_arg w c') f m d
  | _ => c
  end.

Fixpoint argc {W} (c : cmd W) : nat :=
  match c with EXEC argv => length argv | REDIR c' _ _ _ => argc c' | _ => 0%nat end.

(** ** Characters *)

Definition whitespace : list Z := [32; 9; 13; 10; 11].
Definition symbols : list Z := [60; 124; 62; 38; 59; 40; 41].

Definition found (s : list Z) (c : Z) : bool := bool_decide (is_Some (Format.strchr s c)).
Definition is_space (c : Z) : bool := found whitespace c.
Definition is_word (c : Z) : bool := negb (found whitespace c) && negb (found symbols c).

Definition LT : Z := 60.
Definition BAR : Z := 124.
Definition GT : Z := 62.
Definition AMP : Z := 38.
Definition SEMI : Z := 59.
Definition LPAR : Z := 40.
Definition RPAR : Z := 41.
Definition PLUS : Z := 43.
Definition WORD : Z := 97.

(** ** The parser *)

Section Parser.

(** The characters before the final zero. *)
Variable buf : list Z.

Definition es : nat := length buf.
Definition at_ (s : nat) : Z := default 0 (buf !! s).

(** [while(s < es && p( *s)) s++], with [fuel] the distance to [es]. *)
Fixpoint advance (p : Z -> bool) (fuel s : nat) : nat :=
  match fuel with
  | O => s
  | S fuel' => if p (at_ s) then advance p fuel' (S s) else s
  end.

Definition skip (s : nat) : nat := advance is_space (es - s) s.

Definition gettoken : M nat (Z * nat * nat) :=
  let* s0 := gets (fun s => s) in
  let s := skip s0 in
  let q := s in
  let '(tok, s) :=
    (if at_ s =? 0 then (0, s)
     else if bool_decide (at_ s ∈ [BAR; LPAR; RPAR; SEMI; AMP; LT]) then (at_ s, S s)
     else if at_ s =? GT then if at_ (S s) =? GT then (PLUS, S (S s)) else (GT, S s)
     else (WORD, advance is_word (es - s) s)) in
  let eq := s in
  modify (fun _ => skip s) ;;;
  ret (tok, q, eq).

Definition peek (toks : list Z) : M nat bool :=
  modify skip ;;;
  let* s := gets (fun s => s) in
  ret (negb (at_ s =? 0) && found toks (at_ s)).

Definition redircmd (tok : Z) (w : nat * nat) (c : cmd (nat * nat)) : cmd (nat * nat) :=
  if tok =? LT then REDIR c w O_RDONLY 0
  else if tok =? GT then REDIR c w (Z.lor O_WRONLY O_CREATE) 1
  else if tok =? PLUS then REDIR c w (Z.lor O_WRONLY O_CREATE) 1
  else c.

Fixpoint parseredirs (fuel : nat) (c : cmd (nat * nat)) : M nat (cmd (nat * nat)) :=
  match fuel with
  | O => fun _ => NoFuel
  | S n =>
      let* more := peek [LT; GT] in
      if more then
        let* '(tok, _, _) := gettoken in
        let* '(t, q, eq) := gettoken in
        if negb (t =? WORD) then panic "missing file for redirection"
        else parseredirs n (redircmd tok (q, eq) c)
      else ret c
  end.

(** The loop of [parseexec]. *)
Fixpoint parseargs (fuel : nat) (c : cmd (nat * nat)) : M nat (cmd (nat * nat)) :=
  match fuel with
  | O => fun _ => NoFuel
  | S n =>
      let* stop := peek [BAR; RPAR; AMP; SEMI] in
      if stop then ret c else
      let* '(tok, q, eq) := gettoken in
      if tok =? 0 then ret c
      else if negb (tok =? WORD) then panic "syntax"
      else
        let c := add_arg (q, eq) c in
        if bool_decide (MAXARGS <= argc c)%nat then panic "too many args"
        else
          let* c := parseredirs n c in
          parseargs n c
  end.

(** The loop of [parseline]. *)
Fixpoint parsebacks (fuel : nat) (c : cmd (nat * nat)) : M nat (cmd (nat * nat)) :=
  match fuel with
  | O => fun _ => NoFuel
  | S n =>
      let* more := peek [AMP] in
      if more then gettoken ;;; parsebacks n (BACK c) else ret c
  end.

Fixpoint parseline (fuel : nat) : M nat (cmd (nat * nat)) :=
  match fuel with
  | O => fun _ => NoFuel
  | S n =>
      let* c := parsepipe n in
      let* c := parsebacks n c in
      let* more := peek [SEMI] in
      if more then gettoken ;;; let* r := parseline n in ret (LIST c r) else ret c
  end
with parsepipe (fuel : nat) : M nat (cmd (nat * nat)) :=
  match fuel with
  | O => fun _ => NoFuel
  | S n =>
      let* c := parseexec n in
      let* more := peek [BAR] in
      if more then gettoken ;;; let* r := parsepipe n in ret (PIPE c r) else ret c
  end
with parseexec (fuel : nat) : M nat (cmd (nat * nat)) :=
  match fuel with
  | O => fun _ => NoFuel
  | S n =>
      let* block := peek [LPAR] in
      if block then parseblock n else
      let* c := parseredirs n (EXEC []) in
      parseargs n c
  end
with parseblock (fuel : nat) : M nat (cmd (nat * nat)) :=
  match fuel with
  | O => fun _ => NoFuel
  | S n =>
      let* open := peek [LPAR] in
      if negb open then panic "parseblock" else
      gettoken ;;;
      let* c := parseline n in
      let* close := peek [RPAR] in
      if negb close then panic "syntax - missing )" else
      gettoken ;;;
      parseredirs n c
  end.

(** Enough fuel for the whole line. *)
Definition parse_fuel : nat := (4 * es + 4)%nat.

End Parser.

(** ** Cutting out the words *)

(** On the buffer with its zero at the end. *)
Fixpoint nulterminate (c : cmd (nat * nat)) (b : list Z) : list Z :=
  match c with
  | EXEC argv => foldl (fun b w => <[snd w := 0]> b) b argv
  | REDIR c' file _ _ => <[snd file := 0]> (nulterminate c' b)
  | PIPE l r | LIST l r => nulterminate r (nulterminate l b)
  | BACK c' => nulterminate c' b
  end.

(** [parsecmd]: the command, and the buffer that its words point into. *)
Definition parsecmd (buf : list Z) : M nat (cmd (nat * nat) * list Z) :=
  let* c := parseline buf (parse_fuel buf) in
  peek buf [] ;;;
  let* s := gets (fun s => s) in
  if bool_decide (s <> es buf) then panic "syntax" else
  ret (c, nulterminate c (buf ++ [0])).

(** ** The language *)

Inductive token := Word (w : list Z) | Sym (c : Z).

Definition flush (w : list Z) (ts : list token) : list token := if bool_decide (w = []) then ts else Word w :: ts.

(** The tokens of a text, [w] being the word begun. *)
Fixpoint scan (w l : list Z) : list token :=
  match l with
  | [] => flush w []
  | c :: l' =>
      if is_word c then scan (w ++ [c]) l'
      else flush w
        (if is_space c then scan [] l'
         else if c =? GT then
           match l' with
           | c2 :: l'' => if c2 =? GT then Sym PLUS :: scan [] l'' else Sym GT :: scan [] l'
           | [] => [Sym GT]
           end
         else Sym c :: scan [] l')
  end.

Definition tokens (l : list Z) : list token := scan [] l.

Definition tree := cmd (list Z).

(** What a redirection sign means. *)
Definition redir_of (c : Z) : option (Z * Z) :=
  if c =? LT then Some (O_RDONLY, 0)
  else if (c =? GT) || (c =? PLUS) then Some (Z.lor O_WRONLY O_CREATE, 1)
  else None.

(** Redirections after a command. *)
Inductive redirs_g : tree -> list token -> tree -> Prop :=
| rg_nil t : redirs_g t [] t
| rg_cons t c m d w ts t' : redir_of c = Some (m, d) -> redirs_g (REDIR t w m d) ts t' -> redirs_g t (Sym c :: Word w :: ts) t'.

(** Words and redirections in any order; at most nine words. *)
Inductive simple_g : tree -> list token -> tree -> Prop :=
| sg_nil t : simple_g t [] t
| sg_redir t c m d w ts t' : redir_of c = Some (m, d) -> simple_g (REDIR t w m d) ts t' -> simple_g t (Sym c :: Word w :: ts) t'
| sg_arg t w ts t' : (argc (add_arg w t) < MAXARGS)%nat -> simple_g (add_arg w t) ts t' -> simple_g t (Word w :: ts) t'.

Inductive exec_g : list token -> tree -> Prop :=
| eg_simple ts t : simple_g (EXEC []) ts t -> exec_g ts t
| eg_block ts rs t t' : line_g ts t -> redirs_g t rs t' -> exec_g (Sym LPAR :: ts ++ Sym RPAR :: rs) t'
with pipe_g : list token -> tree -> Prop :=
| pg_one ts t : exec_g ts t -> pipe_g ts t
| pg_pipe ts ts' l r : exec_g ts l -> pipe_g ts' r -> pipe_g (ts ++ Sym BAR :: ts') (PIPE l r)
with line_g : list token -> tree -> Prop :=
| lg_back k ts t : pipe_g ts t -> line_g (ts ++ replicate k (Sym AMP)) (Nat.iter k BACK t)
| lg_list k ts ts' l r : pipe_g ts l -> line_g ts' r -> line_g (ts ++ replicate k (Sym AMP) ++ Sym SEMI :: ts') (LIST (Nat.iter k BACK l) r).

Scheme exec_g_mut := Induction for exec_g Sort Prop
with pipe_g_mut := Induction for pipe_g Sort Prop
with line_g_mut := Induction for line_g Sort Prop.
Combined Scheme grammar_ind from exec_g_mut, pipe_g_mut, line_g_mut.

(** The command with its words, given what stands for them. *)
Fixpoint fmap_cmd {V W} (f : V -> W) (c : cmd V) : cmd W :=
  match c with
  | EXEC argv => EXEC (map f argv)
  | REDIR c' file m d => REDIR (fmap_cmd f c') (f file) m d
  | PIPE l r => PIPE (fmap_cmd f l) (fmap_cmd f r)
  | LIST l r => LIST (fmap_cmd f l) (fmap_cmd f r)
  | BACK c' => BACK (fmap_cmd f c')
  end.

(** The characters from a position to the next zero. *)
Fixpoint cstring (b : list Z) : list Z :=
  match b with [] => [] | c :: b' => if c =? 0 then [] else c :: cstring b' end.

Definition readback (b : list Z) (c : cmd (nat * nat)) : tree := fmap_cmd (fun w => cstring (drop (fst w) b)) c.

(** ** Tokens and the lexer *)

Lemma scan_word w v l : Forall (fun c => is_word c = true) v -> scan w (v ++ l) = scan (w ++ v) l.
Proof.
  intros Hv. revert w. induction Hv as [|c v Hc _ IH]; intros w; cbn [scan app]; [by rewrite app_nil_r|].
  by rewrite Hc, IH, <- app_assoc.
Qed.

Lemma space_not_word c : is_space c = true -> is_word c = false.
Proof. unfold is_word, is_space. by intros ->. Qed.

Lemma tokens_space v l : Forall (fun c => is_space c = true) v -> tokens (v ++ l) = tokens l.
Proof.
  induction 1 as [|c v Hc _ IH]; [done|]. unfold tokens in *. cbn [scan app]. rewrite space_not_word, Hc by done. exact IH.
Qed.

Lemma tokens_word w l : w <> [] -> Forall (fun c => is_word c = true) w -> is_word (hd 32 l) = false -> tokens (w ++ l) = Word w :: tokens l.
Proof.
  intros Hw Hall Hl. unfold tokens. rewrite scan_word by done. cbn [app]. assert (forall ts, flush w ts = Word w :: ts) as Ef.
  { intros ts. unfold flush. by rewrite bool_decide_eq_false_2. }
  destruct l as [|c l]; cbn [scan hd] in *; [by rewrite Ef|]. by rewrite Hl, Ef.
Qed.

Lemma found_spec s c : found s c = true <-> c ∈ s.
Proof.
  unfold found. rewrite bool_decide_eq_true. induction s as [|x s IH]; cbn [Format.strchr].
  { split; [by intros [? ?]|by intros ?%elem_of_nil]. }
  destruct (Z.eqb_spec x c) as [->|Hne]; [split; [by left|by eauto]|]. rewrite IH, elem_of_cons. naive_solver.
Qed.

(** The characters that are neither space nor part of a word. *)
Lemma symbol_cases c : is_space c = false -> is_word c = false -> c ∈ symbols.
Proof.
  unfold is_word, is_space. intros -> H. apply found_spec. cbn [negb andb] in H. by destruct (found symbols c).
Qed.

Lemma tokens_sym c l : c ∈ symbols -> c <> GT -> tokens (c :: l) = Sym c :: tokens l.
Proof.
  intros Hc Hne. unfold tokens. cbn [scan]. assert (is_word c = false) as ->.
  { unfold is_word. rewrite (proj2 (found_spec symbols c) Hc). apply andb_false_r. }
  assert (is_space c = false) as ->.
  { apply not_true_is_false. unfold is_space. rewrite found_spec. intros Hs. unfold symbols, whitespace in *. set_unfold. naive_solver lia. }
  by rewrite (proj2 (Z.eqb_neq c GT) Hne).
Qed.

Section Lexer.

Variable buf : list Z.
Hypothesis Hnul : Forall (fun c => c <> 0) buf.

Abbreviation len := (es buf).
Abbreviation rest s := (drop s buf).
Abbreviation slice q e := (take (e - q) (drop q buf)).

Lemma rest_cons s : (s < len)%nat -> rest s = at_ buf s :: rest (S s).
Proof. intros Hs. unfold at_. destruct (lookup_lt_is_Some_2 buf s Hs) as [c Hc]. rewrite Hc. by apply drop_S. Qed.

Lemma rest_es : rest len = [].
Proof. by apply drop_ge. Qed.

Lemma at_zero s : (s <= len)%nat -> at_ buf s = 0 <-> s = len.
Proof.
  intros Hs. split; [|intros ->; unfold at_; by rewrite lookup_ge_None_2 by done].
  intros H0. destruct (decide (s = len)); [done|]. exfalso. unfold at_ in H0.
  destruct (lookup_lt_is_Some_2 buf s) as [c Hc]; [unfold es in *; lia|]. rewrite Hc in H0. cbn in H0. subst c.
  by eapply Forall_lookup_1 in Hnul.
Qed.

Lemma advance_spec p n : forall s, (s + n = len)%nat -> let e := advance buf p n s in
  (s <= e <= len)%nat /\ Forall (fun c => p c = true) (slice s e) /\ (e = len \/ p (at_ buf e) = false).
Proof.
  induction n as [|n IH]; intros s Hs; cbn [advance].
  - rewrite Nat.sub_diag. split; [lia|]. split; [constructor|left; lia].
  - destruct (p (at_ buf s)) eqn:Hp.
    + destruct (IH (S s)) as (H1 & H2 & H3); [lia|]. cbn zeta in *. split; [lia|]. split; [|done].
      rewrite rest_cons by lia. replace (advance buf p n (S s) - s)%nat with (S (advance buf p n (S s) - S s)) by lia. cbn [take].
      by constructor.
    + rewrite Nat.sub_diag. split; [lia|]. split; [constructor|by right].
Qed.

Lemma rest_split s e : (s <= e)%nat -> rest s = slice s e ++ rest e.
Proof. intros He. replace (rest e) with (drop (e - s) (rest s)) by (rewrite drop_drop; f_equal; lia). by rewrite take_drop. Qed.

Lemma skip_spec s : (s <= len)%nat -> (s <= skip buf s <= len)%nat /\ tokens (rest (skip buf s)) = tokens (rest s) /\
  is_space (at_ buf (skip buf s)) = false.
Proof.
  intros Hs. destruct (advance_spec is_space (len - s) s) as (H1 & H2 & H3); [lia|]. cbn zeta in *. fold (skip buf s) in *.
  split; [done|]. split; [by rewrite (rest_split s (skip buf s)), tokens_space by (done || lia)|].
  destruct H3 as [->|H3]; [|done]. rewrite (proj2 (at_zero len ltac:(lia))) by done. done.
Qed.

Definition word_ok (w : nat * nat) : Prop :=
  (fst w < snd w <= len)%nat /\ Forall (fun c => is_word c = true) (slice (fst w) (snd w)) /\
  (snd w = len \/ is_word (at_ buf (snd w)) = false).

(** What [gettoken] returns at a position, by the tokens ahead. *)
Definition got (s : nat) (r : Z * nat * nat) (s' : nat) : Prop :=
  (s' <= len)%nat /\
  match tokens (rest s) with
  | [] => r.1.1 = 0 /\ s' = len
  | Word w :: ts => r.1.1 = WORD /\ word_ok (r.1.2, r.2) /\ slice r.1.2 r.2 = w /\ tokens (rest s') = ts /\ (s < s')%nat
  | Sym c :: ts => r.1.1 = c /\ c ∈ PLUS :: symbols /\ tokens (rest s') = ts /\ (s < s')%nat
  end.

Lemma sym_first s : (s < len)%nat -> bool_decide (at_ buf s ∈ [BAR; LPAR; RPAR; SEMI; AMP; LT]) = true ->
  tokens (rest s) = Sym (at_ buf s) :: tokens (rest (S s)) /\ at_ buf s ∈ PLUS :: symbols.
Proof.
  rewrite bool_decide_eq_true. intros Hs Hc. rewrite rest_cons by done. unfold symbols, BAR, LPAR, RPAR, SEMI, AMP, LT, PLUS in *.
  split; [apply tokens_sym; [unfold symbols|unfold GT]|]; set_unfold; naive_solver lia.
Qed.

Lemma gt_first s : (s < len)%nat -> at_ buf s = GT ->
  tokens (rest s) = if at_ buf (S s) =? GT then Sym PLUS :: tokens (rest (S (S s))) else Sym GT :: tokens (rest (S s)).
Proof.
  intros Hs Hc. rewrite rest_cons, Hc by done. unfold tokens at 1. cbn [scan]. change (is_word GT) with false. change (is_space GT) with false.
  change (GT =? GT) with true. unfold flush. rewrite ?bool_decide_eq_true_2 by done. destruct (decide (S s = len)) as [E|Hne].
  - rewrite E, rest_es. rewrite (proj2 (at_zero len ltac:(lia))) by done. done.
  - rewrite rest_cons by lia. done.
Qed.

Lemma wp_gettoken s : (s <= len)%nat -> wp (gettoken buf) (got s) s.
Proof.
  intros Hs. unfold gettoken. apply wp_bind, wp_gets. cbn zeta. destruct (skip_spec s Hs) as (H1 & H2 & H3).
  set (q := skip buf s) in *. unfold got. rewrite <- H2. destruct (Z.eqb_spec (at_ buf q) 0) as [E0|Hne].
  { apply at_zero in E0; [|lia]. apply wp_bind, wp_modify, wp_ret. destruct (skip_spec q) as (G1 & _ & _); [lia|]. split; [lia|]. rewrite E0, rest_es. split; [done|]. rewrite E0 in G1. lia. }
  assert (q < len)%nat as Hq by (rewrite at_zero in Hne by lia; lia). destruct (bool_decide _) eqn:Hb.
  { apply wp_bind, wp_modify, wp_ret. destruct (sym_first q Hq Hb) as [-> Hin]. destruct (skip_spec (S q)) as (G1 & G2 & _); [lia|]. cbn [fst snd].
    split; [lia|]. split; [done|]. split; [done|]. split; [done|lia]. }
  destruct (Z.eqb_spec (at_ buf q) GT) as [Eg|Hng].
  { rewrite (gt_first q Hq Eg). destruct (Z.eqb_spec (at_ buf (S q)) GT) as [Eg2|_]; apply wp_bind, wp_modify, wp_ret.
    - assert (S q < len)%nat. { destruct (decide (S q = len)) as [E|]; [|lia]. rewrite (proj2 (at_zero (S q) ltac:(lia)) E) in Eg2. done. }
      destruct (skip_spec (S (S q))) as (G1 & G2 & _); [lia|]. cbn [fst snd]. split; [lia|]. split; [done|]. split; [by left|]. split; [done|lia].
    - destruct (skip_spec (S q)) as (G1 & G2 & _); [lia|]. cbn [fst snd]. split; [lia|]. split; [done|]. split; [right; unfold symbols, GT; set_solver|]. split; [done|lia]. }
  apply wp_bind, wp_modify, wp_ret. destruct (advance_spec is_word (len - q) q) as (A1 & A2 & A3); [lia|]. cbn zeta in *.
  set (e := advance buf is_word (len - q) q) in *.
  assert (is_word (at_ buf q) = true) as Hw.
  { apply not_false_is_true. intros Hf. pose proof (symbol_cases _ H3 Hf) as Hin. rewrite bool_decide_eq_false in Hb. apply Hb.
    unfold symbols, BAR, LPAR, RPAR, SEMI, AMP, LT, GT in *. set_unfold. naive_solver lia. }
  assert (q < e)%nat as Hqe. { destruct (decide (q = e)) as [E|]; [|lia]. destruct A3 as [A3|A3]; [lia|]. rewrite <- E in A3. congruence. }
  assert (tokens (rest q) = Word (slice q e) :: tokens (rest e)) as ->.
  { rewrite (rest_split q e) at 1 by lia. apply tokens_word; [|done|].
    - intros E. apply (f_equal length) in E. rewrite length_take, length_drop in E. cbn in E. unfold es in *. lia.
    - destruct A3 as [->|A3]; [by rewrite rest_es|]. destruct (decide (e = len)) as [->|]; [by rewrite rest_es|]. by rewrite rest_cons by lia. }
  destruct (skip_spec e) as (G1 & G2 & _); [lia|]. cbn [fst snd]. split; [lia|]. split; [done|]. split; [split; cbn [fst snd]; [lia|done]|]. split; [done|]. split; [done|lia].
Qed.

(** What [peek] answers, by the tokens ahead. *)
Definition ahead (toks : list Z) (ts : list token) : bool :=
  match ts with Sym c :: _ => found toks (if c =? PLUS then GT else c) | _ => false end.

Lemma wp_peek toks s : (s <= len)%nat -> (forall c, c ∈ toks -> c ∈ symbols) ->
  wp (peek buf toks) (fun b s' => (s <= s' <= len)%nat /\ tokens (rest s') = tokens (rest s) /\ b = ahead toks (tokens (rest s)) /\
    (tokens (rest s) = [] <-> s' = len)) s.
Proof.
  intros Hs Htoks. unfold peek. apply wp_bind, wp_modify, wp_bind, wp_gets, wp_ret. destruct (skip_spec s Hs) as (H1 & H2 & H3).
  split; [done|]. split; [done|]. rewrite <- H2. set (q := skip buf s) in *.
  destruct (decide (q = len)) as [E|Hne].
  { rewrite (proj2 (at_zero q ltac:(lia)) E). rewrite E, rest_es. cbn. by split. }
  assert (at_ buf q <> 0) as Hz by (rewrite at_zero by lia; done). rewrite (proj2 (Z.eqb_neq _ _) Hz). cbn [negb andb].
  destruct (is_word (at_ buf q)) eqn:Hw.
  - assert (exists w ts, tokens (rest q) = Word w :: ts) as (w & ts & ->).
    { rewrite rest_cons by lia. unfold tokens. cbn [scan]. rewrite Hw. generalize (rest (S q)). intros l. cbn [app].
      assert (forall w, w <> [] -> exists w' ts, scan w l = Word w' :: ts) as Hscan; [|by apply Hscan].
      induction l as [|c l IH]; intros w Hw'; cbn [scan]; unfold flush; rewrite ?bool_decide_eq_false_2 by done; [by eauto|].
      destruct (is_word c); [|by eauto]. apply IH. by destruct w. }
    cbn [ahead]. split; [|by split]. apply not_true_is_false. rewrite found_spec. intros Hin%Htoks%found_spec.
    unfold is_word in Hw. rewrite Hin, andb_false_r in Hw. done.
  - pose proof (symbol_cases _ H3 Hw) as Hin. destruct (decide (at_ buf q = GT)) as [Eg|Hng].
    + rewrite (gt_first q) by (done || lia). rewrite Eg. destruct (_ =? GT); cbn [ahead]; (split; [done|by split]).
    + rewrite rest_cons by lia. rewrite tokens_sym by done. cbn [ahead]. rewrite (proj2 (Z.eqb_neq _ PLUS)); [split; [done|by split]|].
      intros E. rewrite E in Hin. unfold symbols, PLUS in Hin. set_unfold. naive_solver lia.
Qed.

(** ** What the parser accepts is in the language

    [exits]: the computation returns with [Q], or gives up with a message. *)

Definition exits {S A} (c : M S A) (Q : A -> S -> Prop) (s : S) : Prop :=
  match c s with Ret a s' => Q a s' | Panic _ _ => True | _ => False end.

Lemma exits_wp {S A} (c : M S A) Q s : wp c Q s -> exits c Q s.
Proof. unfold wp, exits. by destruct (c s). Qed.

Lemma exits_bind {S A B} (c : M S A) (k : A -> M S B) Q s : exits c (fun a => exits (k a) Q) s -> exits (bind c k) Q s.
Proof. unfold exits, bind. by destruct (c s). Qed.

Lemma exits_mono {S A} (c : M S A) (P Q : A -> S -> Prop) s : (forall a s', P a s' -> Q a s') -> exits c P s -> exits c Q s.
Proof. unfold exits. destruct (c s); eauto. Qed.

(** First a step that returns, then the rest. *)
Lemma exits_step {S A B} (c : M S A) (k : A -> M S B) P Q s :
  wp c P s -> (forall a s', P a s' -> exits (k a) Q s') -> exits (bind c k) Q s.
Proof. intros Hc Hk. apply exits_bind. eapply exits_mono; [exact Hk|]. by apply exits_wp. Qed.

Fixpoint cmd_ok (c : cmd (nat * nat)) : Prop :=
  match c with
  | EXEC argv => Forall word_ok argv
  | REDIR c' file _ _ => cmd_ok c' /\ word_ok file
  | PIPE l r | LIST l r => cmd_ok l /\ cmd_ok r
  | BACK c' => cmd_ok c'
  end.

Definition words (c : cmd (nat * nat)) : tree := fmap_cmd (fun w => slice (fst w) (snd w)) c.

Definition parsed (s : nat) (R : list token -> tree -> Prop) (c' : cmd (nat * nat)) (s' : nat) : Prop :=
  (s <= s' <= len)%nat /\ cmd_ok c' /\ exists ts, tokens (rest s) = ts ++ tokens (rest s') /\ R ts (words c').

Lemma words_add_arg w c : words (add_arg w c) = add_arg (slice (fst w) (snd w)) (words c).
Proof. unfold words. induction c; cbn; [by rewrite map_app|by rewrite IHc|done..]. Qed.

Lemma argc_words c : argc (words c) = argc c.
Proof. induction c; cbn; [by rewrite length_map|done..]. Qed.

Lemma add_arg_ok w c : word_ok w -> cmd_ok c -> cmd_ok (add_arg w c).
Proof. intros Hw. induction c; cbn; [intros H; apply Forall_app; split; [done|]; apply Forall_cons; by split|naive_solver|done..]. Qed.

Lemma redirs_simple t ts t' ts' t'' : redirs_g t ts t' -> simple_g t' ts' t'' -> simple_g t (ts ++ ts') t''.
Proof. induction 1; cbn; [done|]. intros Hs. eapply sg_redir; [done|]. by auto. Qed.

Lemma word_not_sym c : c ∈ PLUS :: symbols -> c <> WORD /\ c <> 0.
Proof. unfold symbols, PLUS, WORD. set_unfold. naive_solver lia. Qed.

Lemma one_symbol x c : x ∈ symbols -> x <> GT -> found [x] (if c =? PLUS then GT else c) = true -> c = x.
Proof.
  intros Hx Hg H%found_spec. apply list_elem_of_singleton in H. destruct (Z.eqb_spec c PLUS); congruence.
Qed.

(** A symbol ahead that [peek] has seen, taken by [gettoken]. *)
Lemma wp_take_sym x s : (s <= len)%nat -> x ∈ symbols -> x <> GT -> ahead [x] (tokens (rest s)) = true ->
  wp (gettoken buf) (fun _ s' => (s < s' <= len)%nat /\ tokens (rest s) = Sym x :: tokens (rest s')) s.
Proof.
  intros Hs Hx Hg Ha. eapply wp_mono; [|by apply wp_gettoken]. intros [[tok q] e] s' [Hs' Hgot].
  destruct (tokens (rest s)) as [|[w|c] ts]; cbn [ahead] in Ha; [done..|]. apply one_symbol in Ha as ->; [|done..].
  destruct Hgot as (_ & _ & Ht & Hlt). rewrite Ht. split; [lia|done].
Qed.

Lemma single_sub x : x ∈ symbols -> forall c, c ∈ [x] -> c ∈ symbols.
Proof. intros Hx c Hc. apply list_elem_of_singleton in Hc. by subst. Qed.

Lemma redircmd_ok tok m d w c : redir_of tok = Some (m, d) -> redircmd tok w c = REDIR c w m d.
Proof. unfold redir_of, redircmd. destruct (tok =? LT), (tok =? GT), (tok =? PLUS); cbn; intros [= <- <-]; done. Qed.

Lemma redir_ahead c ts : ahead [LT; GT] (Sym c :: ts) = true -> exists m d, redir_of c = Some (m, d).
Proof.
  cbn [ahead]. intros H%found_spec. unfold redir_of. destruct (Z.eqb_spec c PLUS) as [->|Hp]; [by eauto|].
  set_unfold in H. destruct H as [->|[->|[]]]; by eauto.
Qed.

Lemma parseredirs_sound n : forall c s, (s <= len)%nat -> (len - s < n)%nat -> cmd_ok c ->
  exits (parseredirs buf n c) (parsed s (fun ts t => redirs_g (words c) ts t)) s.
Proof.
  induction n as [|n IH]; intros c s Hs Hn Hc; [lia|]. cbn [parseredirs].
  eapply exits_step; [apply wp_peek; [done|]|].
  { unfold symbols, LT, GT. intros x. set_unfold. naive_solver. }
  intros b s1 (H1 & Et & -> & _). rewrite <- Et. destruct (ahead _ _) eqn:Ha.
  2:{ cbn. split; [lia|]. split; [done|]. exists []. split; [done|constructor]. }
  eapply exits_step; [apply wp_gettoken; lia|]. intros [[tok q0] e0] s2 [H2 Hg]. cbn [fst snd] in Hg.
  destruct (tokens (rest s1)) as [|[w|x] ts1] eqn:E1; [done..|]. destruct Hg as (-> & Hx & Ht2 & Hlt).
  destruct (redir_ahead _ _ Ha) as (m & d & Hr).
  eapply exits_step; [apply wp_gettoken; lia|]. intros [[t q] e] s3 [H3 Hg]. cbn [fst snd] in Hg.
  destruct (tokens (rest s2)) as [|[w|y] ts2] eqn:E2.
  - destruct Hg as [-> _]. done.
  - destruct Hg as (-> & Hw & Es & Ht3 & Hlt3). change (negb (WORD =? WORD)) with false. cbn [negb].
    rewrite (redircmd_ok _ m d) by done. eapply exits_mono; [|apply IH; [lia|lia|done]].
    intros c' s' (Hle & Hok & ts & Ets & Hred). split; [lia|]. split; [done|]. exists (Sym x :: Word w :: ts).
    rewrite <- Et, <- Ht2. split; [by rewrite <- Ht3, Ets|]. econstructor; [done|]. rewrite <- Es. exact Hred.
  - destruct Hg as (-> & Hy & _). rewrite (proj2 (Z.eqb_neq y WORD)) by (by apply word_not_sym). done.
Qed.

Lemma parseargs_sound n : forall c s, (s <= len)%nat -> (len - s < n)%nat -> cmd_ok c ->
  exits (parseargs buf n c) (parsed s (fun ts t => simple_g (words c) ts t)) s.
Proof.
  induction n as [|n IH]; intros c s Hs Hn Hc; [lia|]. cbn [parseargs].
  assert (forall s', (s <= s' <= len)%nat -> tokens (rest s') = tokens (rest s) -> parsed s (fun ts t => simple_g (words c) ts t) c s') as Hstop.
  { intros s' Hle Et. split; [done|]. split; [done|]. exists []. split; [done|constructor]. }
  eapply exits_step; [apply wp_peek; [done|]|].
  { unfold symbols, BAR, RPAR, AMP, SEMI. intros x. set_unfold. naive_solver. }
  intros b s1 (H1 & Et & -> & _). rewrite <- Et. destruct (ahead _ _) eqn:Ha; [by apply Hstop|].
  eapply exits_step; [apply wp_gettoken; lia|]. intros [[tok q] e] s2 [H2 Hg]. cbn [fst snd] in Hg.
  destruct (tokens (rest s1)) as [|[w|x] ts1] eqn:E1.
  - destruct Hg as [-> ->]. apply Hstop; [lia|]. by rewrite rest_es.
  - destruct Hg as (-> & Hw & Es & Ht2 & Hlt). change (WORD =? 0) with false. change (negb (WORD =? WORD)) with false. cbn iota zeta.
    destruct (bool_decide _) eqn:Hmax; [done|]. apply bool_decide_eq_false in Hmax. apply exits_bind.
    eapply exits_mono; [|apply parseredirs_sound; [lia|lia|by apply add_arg_ok]].
    intros c2 s3 (Hle3 & Hok3 & ts3 & Ets3 & Hred). eapply exits_mono; [|apply IH; [lia|lia|done]].
    intros c' s' (Hle & Hok & ts & Ets & Hsim). split; [lia|]. split; [done|]. exists (Word w :: ts3 ++ ts).
    rewrite <- Et, <- Ht2, Ets3, Ets, app_assoc. split; [done|]. rewrite words_add_arg in Hred. cbn [fst snd] in Hred. rewrite Es in Hred.
    apply sg_arg; [|by eapply redirs_simple]. rewrite <- Es. change (slice q e) with (slice (fst (q, e)) (snd (q, e))). rewrite <- words_add_arg, argc_words. lia.
  - destruct Hg as (-> & Hx & _). apply word_not_sym in Hx as [Hx1 Hx2].
    rewrite (proj2 (Z.eqb_neq x 0)), (proj2 (Z.eqb_neq x WORD)) by done. done.
Qed.

Lemma parsebacks_sound n : forall c s, (s <= len)%nat -> (len - s < n)%nat -> cmd_ok c ->
  exits (parsebacks buf n c) (parsed s (fun ts t => exists k, ts = replicate k (Sym AMP) /\ t = Nat.iter k BACK (words c))) s.
Proof.
  induction n as [|n IH]; intros c s Hs Hn Hc; [lia|]. cbn [parsebacks].
  assert (AMP ∈ symbols) as Hamp by (unfold symbols, AMP; set_solver).
  eapply exits_step; [apply wp_peek; [done|by apply single_sub]|]. intros b s1 (H1 & Et & -> & _). rewrite <- Et.
  destruct (ahead _ _) eqn:Ha.
  - eapply exits_step; [by apply (wp_take_sym AMP); [lia|done|done|]|]. intros _ s2 [H2 E2].
    eapply exits_mono; [|apply IH; [lia|lia|done]]. intros c' s' (Hle & Hok & ts & Ets & k & -> & Ew). split; [lia|]. split; [done|].
    exists (replicate (S k) (Sym AMP)). rewrite <- Et, E2, Ets. split; [done|]. exists (S k). split; [done|].
    rewrite Ew. cbn [words fmap_cmd]. change (fmap_cmd _ c) with (words c). by rewrite Nat.iter_succ_r.
  - split; [lia|]. split; [done|]. exists []. split; [done|]. by exists 0%nat.
Qed.

(** The four functions with fuel [n]; each lemma goes one step up. *)
Definition sound_at (n : nat) : Prop := forall s, (s <= len)%nat ->
  ((4 * (len - s) + 3 < n)%nat -> exits (parseline buf n) (parsed s line_g) s) /\
  ((4 * (len - s) + 2 < n)%nat -> exits (parsepipe buf n) (parsed s pipe_g) s) /\
  ((4 * (len - s) + 1 < n)%nat -> exits (parseexec buf n) (parsed s exec_g) s) /\
  ((4 * (len - s) < n)%nat -> exits (parseblock buf n) (parsed s exec_g) s).

Lemma parseline_sound n s : sound_at n -> (s <= len)%nat -> (4 * (len - s) + 3 < S n)%nat -> exits (parseline buf (S n)) (parsed s line_g) s.
Proof.
  intros IH' Hs Hn. cbn [parseline]. apply exits_bind. eapply exits_mono; [|apply IH'; lia]. intros c1 s1 (L1 & O1 & ts1 & E1 & G1).
  apply exits_bind. eapply exits_mono; [|apply parsebacks_sound; [lia|lia|done]]. intros c2 s2 (L2 & O2 & ts2 & E2 & k & -> & G2).
  assert (SEMI ∈ symbols) as Hsym by (unfold symbols, SEMI; set_solver).
  eapply exits_step; [apply wp_peek; [lia|by apply single_sub]|]. intros b s3 (L3 & E3 & -> & _). rewrite <- E3.
  destruct (ahead _ _) eqn:Ha.
  + eapply exits_step; [by apply (wp_take_sym SEMI); [lia|done|done|]|]. intros _ s4 [L4 E4]. apply exits_bind.
    eapply exits_mono; [|apply IH'; lia]. intros c5 s5 (L5 & O5 & ts5 & E5 & G5). cbn. split; [lia|]. split; [done|].
    exists (ts1 ++ replicate k (Sym AMP) ++ Sym SEMI :: ts5). rewrite E1, E2, <- E3, E4, E5, <- !app_assoc. split; [done|].
    cbn [words fmap_cmd]. fold (words c2) (words c5). rewrite G2. by constructor.
  + split; [lia|]. split; [done|]. exists (ts1 ++ replicate k (Sym AMP)). rewrite E1, E2, <- E3, <- !app_assoc. split; [done|].
    rewrite G2. by constructor.
Qed.

Lemma parsepipe_sound n s : sound_at n -> (s <= len)%nat -> (4 * (len - s) + 2 < S n)%nat -> exits (parsepipe buf (S n)) (parsed s pipe_g) s.
Proof.
  intros IH' Hs Hn. cbn [parsepipe]. apply exits_bind. eapply exits_mono; [|apply IH'; lia]. intros c1 s1 (L1 & O1 & ts1 & E1 & G1).
  assert (BAR ∈ symbols) as Hsym by (unfold symbols, BAR; set_solver).
  eapply exits_step; [apply wp_peek; [lia|by apply single_sub]|]. intros b s3 (L3 & E3 & -> & _). rewrite <- E3.
  destruct (ahead _ _) eqn:Ha.
  + eapply exits_step; [by apply (wp_take_sym BAR); [lia|done|done|]|]. intros _ s4 [L4 E4]. apply exits_bind.
    eapply exits_mono; [|apply IH'; lia]. intros c5 s5 (L5 & O5 & ts5 & E5 & G5). cbn. split; [lia|]. split; [done|].
    exists (ts1 ++ Sym BAR :: ts5). rewrite E1, <- E3, E4, E5, <- !app_assoc. split; [done|]. by apply pg_pipe.
  + split; [lia|]. split; [done|]. exists ts1. rewrite E1, <- E3. split; [done|]. by constructor.
Qed.

Lemma parseexec_sound n s : sound_at n -> (s <= len)%nat -> (4 * (len - s) + 1 < S n)%nat -> exits (parseexec buf (S n)) (parsed s exec_g) s.
Proof.
  intros IH' Hs Hn. cbn [parseexec]. assert (LPAR ∈ symbols) as Hsym by (unfold symbols, LPAR; set_solver).
  eapply exits_step; [apply wp_peek; [lia|by apply single_sub]|]. intros b s3 (L3 & E3 & -> & _). rewrite <- E3.
  destruct (ahead _ _) eqn:Ha.
  + eapply exits_mono; [|apply IH'; lia]. intros c5 s5 (L5 & O5 & ts5 & E5 & G5). split; [lia|]. split; [done|]. exists ts5. by rewrite <- E3.
  + apply exits_bind. eapply exits_mono; [|apply parseredirs_sound; [lia|lia|constructor]]. intros c1 s1 (L1 & O1 & ts1 & E1 & G1).
    eapply exits_mono; [|apply parseargs_sound; [lia|lia|done]]. intros c5 s5 (L5 & O5 & ts5 & E5 & G5). split; [lia|]. split; [done|].
    exists (ts1 ++ ts5). rewrite <- E3, E1, E5, <- app_assoc. split; [done|]. constructor. by eapply redirs_simple.
Qed.

Lemma parseblock_sound n s : sound_at n -> (s <= len)%nat -> (4 * (len - s) < S n)%nat -> exits (parseblock buf (S n)) (parsed s exec_g) s.
Proof.
  intros IH' Hs Hn. cbn [parseblock]. assert (LPAR ∈ symbols) as Hsym by (unfold symbols, LPAR; set_solver).
  assert (RPAR ∈ symbols) as Hsym' by (unfold symbols, RPAR; set_solver).
  eapply exits_step; [apply wp_peek; [lia|by apply single_sub]|]. intros b s3 (L3 & E3 & -> & _). rewrite <- E3.
  destruct (ahead _ _) eqn:Ha; cbn [negb]; [|done].
  eapply exits_step; [by apply (wp_take_sym LPAR); [lia|done|done|]|]. intros _ s4 [L4 E4]. apply exits_bind.
  eapply exits_mono; [|apply IH'; lia]. intros c5 s5 (L5 & O5 & ts5 & E5 & G5).
  eapply exits_step; [apply wp_peek; [lia|by apply single_sub]|]. intros b s6 (L6 & E6 & -> & _). rewrite <- E6.
  destruct (ahead [RPAR] _) eqn:Hb; cbn [negb]; [|done].
  eapply exits_step; [by apply (wp_take_sym RPAR); [lia|done|done|]|]. intros _ s7 [L7 E7].
  eapply exits_mono; [|apply parseredirs_sound; [lia|lia|done]]. intros c8 s8 (L8 & O8 & ts8 & E8 & G8). split; [lia|]. split; [done|].
  exists (Sym LPAR :: ts5 ++ Sym RPAR :: ts8). rewrite <- E3, E4, E5, <- E6, E7, E8. cbn [app]. rewrite <- !app_assoc. split; [done|]. by econstructor.
Qed.

Lemma parse_sound n : sound_at n.
Proof.
  induction n as [|n IH]; intros s Hs; [lia|].
  split; [|split; [|split]]; intros Hn; [apply parseline_sound|apply parsepipe_sound|apply parseexec_sound|apply parseblock_sound]; done.
Qed.

(** ** What is in the language is accepted *)

Definition follows (cs : list Z) (fs : list token) : Prop :=
  match fs with [] => True | Sym c :: _ => c ∈ cs | Word _ :: _ => False end.

Definition done_at (t : tree) (fs : list token) (s : nat) (c' : cmd (nat * nat)) (s' : nat) : Prop :=
  (s <= s' <= len)%nat /\ cmd_ok c' /\ words c' = t /\ tokens (rest s') = fs.

Lemma wp_step {S A B} (c : M S A) (k : A -> M S B) P Q s :
  wp c P s -> (forall a s', P a s' -> wp (k a) Q s') -> wp (bind c k) Q s.
Proof. intros Hc Hk. apply wp_bind. eapply wp_mono; [exact Hk|exact Hc]. Qed.

(** A sign that may follow a command is not one of [toks]. *)
Lemma follows_not cs toks fs : follows cs fs -> (forall c, c ∈ cs -> found toks (if c =? PLUS then GT else c) = false) -> ahead toks fs = false.
Proof. destruct fs as [|[w|c] fs]; cbn; [done|done|]. auto. Qed.

Lemma follows_sub cs cs' fs : follows cs fs -> (forall c, c ∈ cs -> c ∈ cs') -> follows cs' fs.
Proof. destruct fs as [|[w|c] fs]; cbn; auto. Qed.

Lemma ahead_self x ts : x ∈ symbols -> ahead [x] (Sym x :: ts) = true.
Proof.
  intros Hx. cbn. rewrite (proj2 (Z.eqb_neq x PLUS)); [by apply found_spec, list_elem_of_singleton|].
  intros ->. unfold symbols, PLUS in Hx. set_unfold. naive_solver lia.
Qed.

Lemma redir_symbol c m d ts : redir_of c = Some (m, d) -> ahead [LT; GT] (Sym c :: ts) = true.
Proof.
  unfold redir_of. intros H. cbn [ahead]. destruct (Z.eqb_spec c LT) as [->|]; [done|].
  destruct (Z.eqb_spec c GT) as [->|]; [done|]. destruct (Z.eqb_spec c PLUS); [done|]. done.
Qed.

(** One redirection. *)
Lemma wp_one_redir n c s x m d w fs Q : (s <= len)%nat -> tokens (rest s) = Sym x :: Word w :: fs -> redir_of x = Some (m, d) -> cmd_ok c ->
  (forall c' s', (s < s' <= len)%nat -> cmd_ok c' -> words c' = REDIR (words c) w m d -> tokens (rest s') = fs -> wp (parseredirs buf n c') Q s') ->
  wp (parseredirs buf (S n) c) Q s.
Proof.
  intros Hs Et Hr Hc HQ. cbn [parseredirs]. eapply wp_step; [apply wp_peek; [done|]|].
  { unfold symbols, LT, GT. intros y. set_unfold. naive_solver. }
  intros b s1 (H1 & E1 & -> & _). rewrite Et in *. rewrite (redir_symbol x m d) by done.
  eapply wp_step; [apply wp_gettoken; lia|]. intros [[tok q0] e0] s2 [H2 Hg]. rewrite E1 in Hg. cbn [fst snd] in Hg. destruct Hg as (-> & _ & E2 & L2).
  eapply wp_step; [apply wp_gettoken; lia|]. intros [[t q] e] s3 [H3 Hg]. rewrite E2 in Hg. cbn [fst snd] in Hg. destruct Hg as (-> & Hw & Es & E3 & L3).
  change (negb (WORD =? WORD)) with false. cbn iota. rewrite (redircmd_ok x m d) by done. apply HQ; [lia|done| |done].
  cbn. by rewrite Es.
Qed.

(** No redirection. *)
Lemma wp_no_redir n c s (Q : cmd (nat * nat) -> nat -> Prop) : (s <= len)%nat -> ahead [LT; GT] (tokens (rest s)) = false ->
  (forall s', (s <= s' <= len)%nat -> tokens (rest s') = tokens (rest s) -> Q c s') -> wp (parseredirs buf (S n) c) Q s.
Proof.
  intros Hs Ha HQ. cbn [parseredirs]. eapply wp_step; [apply wp_peek; [done|]|].
  { unfold symbols, LT, GT. intros y. set_unfold. naive_solver. }
  intros b s1 (H1 & E1 & -> & _). rewrite Ha. apply wp_ret. by apply HQ.
Qed.

Lemma parseredirs_complete t rs t' : redirs_g t rs t' -> forall n c s fs, (s <= len)%nat -> (len - s < n)%nat -> cmd_ok c -> words c = t ->
  tokens (rest s) = rs ++ fs -> ahead [LT; GT] fs = false -> wp (parseredirs buf n c) (done_at t' fs s) s.
Proof.
  induction 1 as [t|t x m d w rs t' Hr _ IH]; intros n c s fs Hs Hn Hc Hw Et Ha; (destruct n as [|n]; [lia|]).
  - apply wp_no_redir; [done|by rewrite Et|]. intros s' Hle E. split; [done|]. split; [done|]. split; [done|]. by rewrite E.
  - eapply wp_one_redir; [done|exact Et|done|done|]. intros c' s' Hle Hc' Hw' Et'. rewrite Hw in Hw'.
    eapply wp_mono; [|apply (IH n c' s' fs); [lia|lia|done|done|done|done]]. intros c2 s2 (L & ? & ? & ?). split; [lia|]. done.
Qed.

Lemma parsebacks_complete k : forall n c s fs, (s <= len)%nat -> (len - s < n)%nat -> cmd_ok c ->
  tokens (rest s) = replicate k (Sym AMP) ++ fs -> ahead [AMP] fs = false -> wp (parsebacks buf n c) (done_at (Nat.iter k BACK (words c)) fs s) s.
Proof.
  assert (AMP ∈ symbols) as Hamp by (unfold symbols, AMP; set_solver).
  induction k as [|k IH]; intros n c s fs Hs Hn Hc Et Ha; (destruct n as [|n]; [lia|]); cbn [parsebacks];
    (eapply wp_step; [apply wp_peek; [done|by apply single_sub]|]); intros b s1 (L1 & E1 & -> & _); rewrite Et in *; cbn [replicate app] in *.
  - rewrite Ha. apply wp_ret. split; [done|]. split; [done|]. split; [done|]. done.
  - rewrite ahead_self by done. eapply wp_step; [by apply (wp_take_sym AMP); [lia|done|done|rewrite E1; by apply ahead_self]|].
    intros _ s2 [L2 E2]. rewrite E1 in E2. injection E2 as E2. eapply wp_mono; [|apply (IH n (BACK c) s2 fs); [lia|lia|done|done|done]].
    intros c' s' (L & ? & Ew & ?). split; [lia|]. split; [done|]. split; [|done]. rewrite Ew. cbn [words fmap_cmd]. fold (words c). by rewrite Nat.iter_succ_r.
Qed.

Definition stops : list Z := [BAR; RPAR; AMP; SEMI].

Lemma stops_sub c : c ∈ stops -> c ∈ symbols.
Proof. unfold stops, symbols, BAR, RPAR, AMP, SEMI. set_unfold. naive_solver. Qed.

Lemma follows_no_redir fs : follows stops fs -> ahead [LT; GT] fs = false.
Proof. intros Hf. eapply follows_not; [exact Hf|]. unfold stops. intros c. set_unfold. naive_solver. Qed.

Lemma simple_complete t ts t' : simple_g t ts t' -> forall m n c s fs, (s <= len)%nat -> (len - s < m)%nat -> (len - s < n)%nat -> cmd_ok c -> words c = t ->
  tokens (rest s) = ts ++ fs -> follows stops fs ->
  wp (parseredirs buf m c) (fun c1 => wp (parseargs buf n c1) (done_at t' fs s)) s.
Proof.
  induction 1 as [t|t x md d w ts t' Hr _ IH|t w ts t' Hmax _ IH]; intros m n c s fs Hs Hm Hn Hc Hw Et Hf; (destruct m as [|m]; [lia|]).
  - apply wp_no_redir; [done|rewrite Et; by apply follows_no_redir|]. intros s1 L1 E1. rewrite Et in E1. destruct n as [|n]; [lia|]. cbn [parseargs app] in *.
    eapply wp_step; [apply wp_peek; [lia|apply stops_sub]|]. intros b s2 (L2 & E2 & -> & _). rewrite E1 in *.
    destruct (ahead _ fs) eqn:Ha; [apply wp_ret; split; [lia|done]|].
    destruct fs as [|[v|x] fs]; [|done|].
    + eapply wp_step; [apply wp_gettoken; lia|]. intros [[tok q] e] s3 [L3 Hg]. rewrite E2 in Hg. cbn [fst snd] in Hg. destruct Hg as [-> ->].
      apply wp_ret. split; [lia|]. split; [done|]. split; [done|]. by rewrite rest_es.
    + exfalso. cbn [follows] in Hf. cbn [ahead] in Ha. unfold stops in Hf. set_unfold in Hf. destruct Hf as [->|[->|[->|[->|[]]]]]; done.
  - eapply wp_one_redir; [done|exact Et|done|done|]. intros c' s' Hle Hc' Hw' Et'. rewrite Hw in Hw'.
    eapply wp_mono; [|apply (IH m n c' s' fs); [lia|lia|lia|done|done|done|done]]. intros c1 s1 H1. eapply wp_mono; [|exact H1].
    intros c2 s2 (L & ? & ? & ?). split; [lia|]. done.
  - apply wp_no_redir; [done|by rewrite Et|]. intros s1 L1 E1. rewrite Et in E1. destruct n as [|n]; [lia|]. cbn [parseargs app] in *.
    eapply wp_step; [apply wp_peek; [lia|apply stops_sub]|]. intros b s2 (L2 & E2 & -> & _). rewrite E1 in *. cbn [ahead].
    eapply wp_step; [apply wp_gettoken; lia|]. intros [[tok q] e] s3 [L3 Hg]. rewrite E2 in Hg. cbn [fst snd] in Hg. destruct Hg as (-> & Hwok & Es & E3 & Hlt).
    change (WORD =? 0) with false. change (negb (WORD =? WORD)) with false. cbn iota zeta.
    assert (words (add_arg (q, e) c) = add_arg w t) as Ew by (rewrite words_add_arg; cbn [fst snd]; by rewrite Es, Hw).
    rewrite bool_decide_eq_false_2 by (rewrite <- argc_words, Ew; lia). apply wp_bind.
    eapply wp_mono; [|apply (IH n n (add_arg (q, e) c) s3 fs); [lia|lia|lia|by apply add_arg_ok|done|done|done]].
    intros c1 s4 H4. eapply wp_mono; [|exact H4]. intros c2 s5 (L & ? & ? & ?). split; [lia|]. done.
Qed.

Lemma simple_head t ts t' fs : simple_g t ts t' -> follows stops fs -> ahead [LPAR] (ts ++ fs) = false.
Proof.
  intros Hs Hf. destruct Hs as [|t x m d w ts t' Hr|]; cbn [app]; [|cbn [ahead]|done].
  - eapply follows_not; [exact Hf|]. unfold stops. intros c. set_unfold. naive_solver.
  - unfold redir_of in Hr. destruct (Z.eqb_spec x LT) as [->|]; [done|]. destruct (Z.eqb_spec x GT) as [->|]; [done|]. destruct (Z.eqb_spec x PLUS) as [->|]; done.
Qed.

(** A parser with enough fuel returns [t] in front of [fs]. *)
Definition returns (p : nat -> M nat (cmd (nat * nat))) (extra : nat) (after : list Z) (ts : list token) (t : tree) : Prop :=
  forall n s fs, (s <= len)%nat -> (4 * (len - s) + extra < n)%nat -> tokens (rest s) = ts ++ fs -> follows after fs ->
  wp (p n) (done_at t fs s) s.

Definition after_pipe : list Z := [RPAR; AMP; SEMI].

Lemma after_pipe_stops fs : follows after_pipe fs -> follows stops fs /\ ahead [BAR] fs = false.
Proof.
  intros Hf. split; [eapply follows_sub; [exact Hf|unfold after_pipe, stops; set_solver]|].
  eapply follows_not; [exact Hf|]. unfold after_pipe. intros c. set_unfold. naive_solver.
Qed.

Lemma after_line fs : follows [RPAR] fs -> follows after_pipe fs /\ ahead [AMP] fs = false /\ ahead [SEMI] fs = false.
Proof.
  intros Hf. split; [eapply follows_sub; [exact Hf|unfold after_pipe; set_solver]|].
  split; (eapply follows_not; [exact Hf|]; intros c Hc; apply list_elem_of_singleton in Hc; by subst).
Qed.

Lemma exec_simple_returns ts t : simple_g (EXEC []) ts t -> returns (parseexec buf) 1 stops ts t.
Proof.
  intros Hg n s fs Hs Hn Et Hf. destruct n as [|n]; [lia|]. cbn [parseexec].
  assert (LPAR ∈ symbols) as Hsym by (unfold symbols, LPAR; set_solver).
  eapply wp_step; [apply wp_peek; [lia|by apply single_sub]|]. intros b s1 (L1 & E1 & -> & _). rewrite Et in *.
  rewrite (simple_head _ _ _ _ Hg Hf). apply wp_bind.
  eapply wp_mono; [|apply (simple_complete _ _ _ Hg n n (EXEC []) s1 fs); [lia|lia|lia|constructor|done|done|done]].
  intros c s2 H2. eapply wp_mono; [|exact H2]. intros c' s' (L & ? & ? & ?). split; [lia|done].
Qed.

Lemma exec_block_returns ts rs t t' : returns (parseline buf) 3 [RPAR] ts t -> redirs_g t rs t' ->
  returns (parseexec buf) 1 stops (Sym LPAR :: ts ++ Sym RPAR :: rs) t'.
Proof.
  intros IH Hr n s fs Hs Hn Et Hf. destruct n as [|[|n]]; [lia|lia|]. cbn [parseexec parseblock].
  assert (LPAR ∈ symbols) as Hsym by (unfold symbols, LPAR; set_solver). assert (RPAR ∈ symbols) as Hsym' by (unfold symbols, RPAR; set_solver).
  eapply wp_step; [apply wp_peek; [lia|by apply single_sub]|]. intros b s1 (L1 & E1 & -> & _). rewrite Et in *. cbn [app] in *. rewrite ahead_self by done.
  eapply wp_step; [apply wp_peek; [lia|by apply single_sub]|]. intros b s2 (L2 & E2 & -> & _). rewrite E1 in *. rewrite ahead_self by done. cbn [negb].
  eapply wp_step; [by apply (wp_take_sym LPAR); [lia|done|done|rewrite E2; by apply ahead_self]|]. intros _ s3 [L3 E3]. rewrite E2 in E3. injection E3 as E3.
  rewrite <- app_assoc in E3. eapply wp_step; [apply (IH n s3 (Sym RPAR :: rs ++ fs)); [lia|lia|done|by left]|]. intros c s4 (L4 & O4 & W4 & E4).
  eapply wp_step; [apply wp_peek; [lia|by apply single_sub]|]. intros b s5 (L5 & E5 & -> & _). rewrite E4 in *. rewrite ahead_self by done. cbn [negb].
  eapply wp_step; [by apply (wp_take_sym RPAR); [lia|done|done|rewrite E5; by apply ahead_self]|]. intros _ s6 [L6 E6]. rewrite E5 in E6. injection E6 as E6.
  eapply wp_mono; [|apply (parseredirs_complete _ _ _ Hr n c s6 fs); [lia|lia|done|done|done|by apply follows_no_redir]].
  intros c' s' (L & ? & ? & ?). split; [lia|done].
Qed.

Lemma pipe_one_returns ts t : returns (parseexec buf) 1 stops ts t -> returns (parsepipe buf) 2 after_pipe ts t.
Proof.
  intros IH n s fs Hs Hn Et Hf. destruct n as [|n]; [lia|]. cbn [parsepipe]. destruct (after_pipe_stops fs Hf) as [Hf1 Hf2].
  assert (BAR ∈ symbols) as Hsym by (unfold symbols, BAR; set_solver).
  eapply wp_step; [apply (IH n s fs); [lia|lia|done|done]|]. intros c s1 (L1 & O1 & W1 & E1).
  eapply wp_step; [apply wp_peek; [lia|by apply single_sub]|]. intros b s2 (L2 & E2 & -> & _). rewrite E1 in *. rewrite Hf2.
  apply wp_ret. split; [lia|done].
Qed.

Lemma pipe_pipe_returns ts ts' l r : returns (parseexec buf) 1 stops ts l -> returns (parsepipe buf) 2 after_pipe ts' r ->
  returns (parsepipe buf) 2 after_pipe (ts ++ Sym BAR :: ts') (PIPE l r).
Proof.
  intros IH IH' n s fs Hs Hn Et Hf. destruct n as [|n]; [lia|]. cbn [parsepipe]. rewrite <- app_assoc in Et.
  assert (BAR ∈ symbols) as Hsym by (unfold symbols, BAR; set_solver).
  eapply wp_step; [apply (IH n s (Sym BAR :: ts' ++ fs)); [lia|lia|done|by left]|]. intros c s1 (L1 & O1 & W1 & E1).
  eapply wp_step; [apply wp_peek; [lia|by apply single_sub]|]. intros b s2 (L2 & E2 & -> & _). rewrite E1 in *. rewrite ahead_self by done.
  eapply wp_step; [by apply (wp_take_sym BAR); [lia|done|done|rewrite E2; by apply ahead_self]|]. intros _ s3 [L3 E3]. rewrite E2 in E3. injection E3 as E3.
  eapply wp_step; [apply (IH' n s3 fs); [lia|lia|done|done]|]. intros c' s4 (L4 & O4 & W4 & E4).
  apply wp_ret. split; [lia|]. split; [done|]. split; [|done]. cbn [words fmap_cmd]. fold (words c) (words c'). by rewrite W1, W4.
Qed.

Lemma line_back_returns k ts t : returns (parsepipe buf) 2 after_pipe ts t -> returns (parseline buf) 3 [RPAR] (ts ++ replicate k (Sym AMP)) (Nat.iter k BACK t).
Proof.
  intros IH n s fs Hs Hn Et Hf. destruct n as [|n]; [lia|]. cbn [parseline]. rewrite <- app_assoc in Et. destruct (after_line fs Hf) as (Hf1 & Hf2 & Hf3).
  assert (SEMI ∈ symbols) as Hsym by (unfold symbols, SEMI; set_solver).
  eapply wp_step; [apply (IH n s (replicate k (Sym AMP) ++ fs)); [lia|lia|done|]|].
  { destruct k; [done|]. cbn. unfold after_pipe. set_solver. }
  intros c s1 (L1 & O1 & W1 & E1).
  eapply wp_step; [apply (parsebacks_complete k n c s1 fs); [lia|lia|done|done|done]|]. intros c2 s2 (L2 & O2 & W2 & E2).
  eapply wp_step; [apply wp_peek; [lia|by apply single_sub]|]. intros b s3 (L3 & E3 & -> & _). rewrite E2 in *. rewrite Hf3.
  apply wp_ret. split; [lia|]. split; [done|]. by rewrite W2, W1.
Qed.

Lemma line_list_returns k ts ts' l r : returns (parsepipe buf) 2 after_pipe ts l -> returns (parseline buf) 3 [RPAR] ts' r ->
  returns (parseline buf) 3 [RPAR] (ts ++ replicate k (Sym AMP) ++ Sym SEMI :: ts') (LIST (Nat.iter k BACK l) r).
Proof.
  intros IH IH' n s fs Hs Hn Et Hf. destruct n as [|n]; [lia|]. cbn [parseline]. rewrite <- !app_assoc in Et. cbn [app] in Et.
  assert (SEMI ∈ symbols) as Hsym by (unfold symbols, SEMI; set_solver).
  eapply wp_step; [apply (IH n s (replicate k (Sym AMP) ++ Sym SEMI :: ts' ++ fs)); [lia|lia|done|]|].
  { destruct k; cbn; unfold after_pipe; set_solver. }
  intros c s1 (L1 & O1 & W1 & E1).
  eapply wp_step; [apply (parsebacks_complete k n c s1 (Sym SEMI :: ts' ++ fs)); [lia|lia|done|done|done]|]. intros c2 s2 (L2 & O2 & W2 & E2).
  eapply wp_step; [apply wp_peek; [lia|by apply single_sub]|]. intros b s3 (L3 & E3 & -> & _). rewrite E2 in *. rewrite ahead_self by done.
  eapply wp_step; [by apply (wp_take_sym SEMI); [lia|done|done|rewrite E3; by apply ahead_self]|]. intros _ s4 [L4 E4]. rewrite E3 in E4. injection E4 as E4.
  eapply wp_step; [apply (IH' n s4 fs); [lia|lia|done|done]|]. intros c' s5 (L5 & O5 & W5 & E5).
  apply wp_ret. split; [lia|]. split; [done|]. split; [|done]. cbn [words fmap_cmd]. fold (words c2) (words c'). by rewrite W2, W1, W5.
Qed.

Lemma grammar_returns :
  (forall ts t, exec_g ts t -> returns (parseexec buf) 1 stops ts t) /\
  (forall ts t, pipe_g ts t -> returns (parsepipe buf) 2 after_pipe ts t) /\
  (forall ts t, line_g ts t -> returns (parseline buf) 3 [RPAR] ts t).
Proof.
  apply grammar_ind; intros; [by apply exec_simple_returns|by eapply exec_block_returns|by apply pipe_one_returns|
    by apply pipe_pipe_returns|by apply line_back_returns|by apply line_list_returns].
Qed.

(** ** The words after [nulterminate] *)

Fixpoint ends (c : cmd (nat * nat)) : list nat :=
  match c with
  | EXEC argv => map snd argv
  | REDIR c' file _ _ => ends c' ++ [snd file]
  | PIPE l r | LIST l r => ends l ++ ends r
  | BACK c' => ends c'
  end.

Lemma nulterminate_ends c : forall b, nulterminate c b = foldl (fun b e => <[e := 0]> b) b (ends c).
Proof.
  induction c as [argv|c IH file m d|l IHl r IHr|l IHl r IHr|c IH]; intros b; cbn [nulterminate ends]; rewrite ?foldl_app, ?IHl, ?IHr, ?IH; try done.
  revert b. induction argv as [|w argv IH]; intros b; cbn; [done|]. by rewrite IH.
Qed.

Lemma zeroed_lookup es' : forall (b : list Z) i,
  foldl (fun b e => <[e := 0]> b) b es' !! i = if bool_decide (i ∈ es' /\ (i < length b)%nat) then Some 0 else b !! i.
Proof.
  induction es' as [|e es' IH]; intros b i; cbn [foldl].
  { rewrite bool_decide_eq_false_2; [done|]. intros [H _]. by apply elem_of_nil in H. }
  rewrite IH, length_insert. destruct (decide (i = e)) as [->|Hne].
  - destruct (decide (e < length b)%nat).
    + rewrite list_lookup_insert_eq by done. rewrite (bool_decide_eq_true_2 (e ∈ e :: es' /\ _)) by (split; [by left|done]). by case_bool_decide.
    + rewrite !bool_decide_eq_false_2 by naive_solver. rewrite !lookup_ge_None_2 by (rewrite ?length_insert; lia). done.
  - rewrite list_lookup_insert_ne by done. rewrite (bool_decide_ext (i ∈ es' /\ _) (i ∈ e :: es' /\ (i < length b)%nat)); [done|].
    rewrite elem_of_cons. naive_solver.
Qed.

Lemma ends_ok c : cmd_ok c -> Forall (fun e => (e <= len)%nat /\ (e = len \/ is_word (at_ buf e) = false)) (ends c).
Proof.
  induction c as [argv|c IH file m d|l IHl r IHr|l IHl r IHr|c IH]; cbn [cmd_ok ends].
  - intros H. apply Forall_map. eapply Forall_impl; [exact H|]. intros w (H1 & _ & H3). cbn. split; [lia|done].
  - intros [H (H1 & _ & H3)]. apply Forall_app. split; [by apply IH|]. apply Forall_singleton. split; [lia|done].
  - intros [H1 H2]. apply Forall_app. by split; [apply IHl|apply IHr].
  - intros [H1 H2]. apply Forall_app. by split; [apply IHl|apply IHr].
  - exact IH.
Qed.

Lemma cstring_app l r : Forall (fun c => c <> 0) l -> cstring (l ++ 0 :: r) = l.
Proof. induction 1 as [|c l Hc _ IH]; [done|]. cbn [cstring app]. rewrite (proj2 (Z.eqb_neq c 0)) by done. by rewrite IH. Qed.

(** A word whose end is one of those cut, when no cut is inside a word. *)
Lemma cut_word b' q e : word_ok (q, e) -> b' !! e = Some 0 -> (forall i, (q <= i < e)%nat -> b' !! i = buf !! i) ->
  cstring (drop q b') = slice q e.
Proof.
  intros (Hqe & _ & _) He Hin. cbn [fst snd] in Hqe.
  assert (drop q b' = slice q e ++ 0 :: drop (S e) b') as ->; [|apply cstring_app; by apply Forall_take, Forall_drop].
  rewrite <- (take_drop (e - q) (drop q b')). rewrite drop_drop. replace (q + (e - q))%nat with e by lia. rewrite (drop_S b' 0 e) by done. f_equal.
  apply list_eq. intros i. destruct (decide (i < e - q)%nat) as [Hi|Hi].
  - rewrite !lookup_take_lt, !lookup_drop by lia. apply Hin. lia.
  - by rewrite !lookup_take_ge by lia.
Qed.

Lemma fmap_cmd_ext (f g : nat * nat -> list Z) (E : list nat) c : cmd_ok c -> (forall e, e ∈ ends c -> e ∈ E) ->
  (forall w, word_ok w -> snd w ∈ E -> f w = g w) -> fmap_cmd f c = fmap_cmd g c.
Proof.
  intros Hok HE H. induction c as [argv|c IH file m d|l IHl r IHr|l IHl r IHr|c IH]; cbn [cmd_ok fmap_cmd ends] in *.
  - f_equal. apply map_ext_in. intros w Hw%list_elem_of_In. apply H; [by eapply Forall_forall|]. apply HE. by apply list_elem_of_fmap_2.
  - destruct Hok as [H1 H2]. rewrite IH; [|done|intros e He; apply HE; set_solver]. f_equal. apply H; [done|]. apply HE. set_solver.
  - destruct Hok as [H1 H2]. rewrite IHl, IHr; [done|done|intros e He; apply HE; set_solver|done|intros e He; apply HE; set_solver].
  - destruct Hok as [H1 H2]. rewrite IHl, IHr; [done|done|intros e He; apply HE; set_solver|done|intros e He; apply HE; set_solver].
  - by rewrite IH.
Qed.

Lemma readback_words c : cmd_ok c -> readback (nulterminate c (buf ++ [0])) c = words c.
Proof.
  intros Hok. pose proof (ends_ok c Hok) as He. rewrite Forall_forall in He. apply (fmap_cmd_ext _ _ (ends c) c Hok); [done|].
  intros [q e] Hw Hin. cbn [fst snd] in *. pose proof Hw as (Hqe & Hword & _). cbn [fst snd] in Hqe, Hword.
  apply cut_word; [done|rewrite nulterminate_ends, zeroed_lookup|intros i Hi; rewrite nulterminate_ends, zeroed_lookup].
  - rewrite bool_decide_eq_true_2; [done|]. split; [done|]. rewrite length_app. cbn. unfold es in *. lia.
  - rewrite bool_decide_eq_false_2; [by rewrite lookup_app_l by (unfold es in *; lia)|]. intros [Hi' _]. destruct (He i Hi') as [_ [->|Hf]]; [lia|].
    rewrite Forall_lookup in Hword. assert (slice q e !! (i - q)%nat = Some (at_ buf i)) as Hl.
    { rewrite lookup_take_lt, lookup_drop by lia. replace (q + (i - q))%nat with i by lia. unfold at_.
      destruct (lookup_lt_is_Some_2 buf i) as [x Hx]; [unfold es in *; lia|]. by rewrite Hx. }
    specialize (Hword _ _ Hl). cbn in Hword. congruence.
Qed.

(** ** The whole of [parsecmd] *)

Lemma parsecmd_exits : exits (parsecmd buf) (fun r s => s = len /\ cmd_ok (fst r) /\ line_g (tokens buf) (words (fst r)) /\
  snd r = nulterminate (fst r) (buf ++ [0])) 0%nat.
Proof.
  unfold parsecmd. apply exits_bind. eapply exits_mono; [|apply parse_sound; [lia|unfold parse_fuel; lia]].
  intros c s1 (L1 & O1 & ts & E1 & G1). eapply exits_step; [apply wp_peek; [lia|by intros x Hx%elem_of_nil]|].
  intros b s2 (L2 & E2 & _ & Hend). apply exits_bind, exits_wp, wp_gets.
  case_bool_decide as Hs; [done|]. assert (s2 = len) as Hs2 by (destruct (decide (s2 = len)); [done|by exfalso]).
  cbn. split; [done|]. split; [done|]. split; [|done]. rewrite drop_0, (proj2 Hend Hs2), app_nil_r in E1. by rewrite E1.
Qed.

Lemma parsecmd_accepts t : line_g (tokens buf) t ->
  wp (parsecmd buf) (fun r _ => cmd_ok (fst r) /\ words (fst r) = t /\ snd r = nulterminate (fst r) (buf ++ [0])) 0%nat.
Proof.
  intros Hg. unfold parsecmd. destruct grammar_returns as (_ & _ & Hline).
  eapply wp_step; [apply (Hline _ _ Hg (parse_fuel buf) 0%nat []); [lia|unfold parse_fuel; lia|by rewrite drop_0, app_nil_r|done]|].
  intros c s1 (L1 & O1 & W1 & E1). eapply wp_step; [apply wp_peek; [lia|by intros x Hx%elem_of_nil]|].
  intros b s2 (L2 & E2 & _ & Hend). apply wp_bind, wp_gets. rewrite bool_decide_eq_false_2; [|intros Hn; apply Hn; by apply Hend].
  by apply wp_ret.
Qed.

End Lexer.

(** C31: The shell's parser accepts exactly the language of the grammar, with
    the right tree: a line parses to the command [t], read back from the
    buffer once the words are cut out, if and only if [t] is a command for
    the tokens of the line: pipelines of simple commands or blocks, each
    with its redirections, followed by any number of [&], in a list
    separated by [;], with at most nine words to a command. *)
Theorem parsecmd_iff buf t : Forall (fun c => c <> 0) buf ->
  (exists c b s, parsecmd buf 0%nat = Ret (c, b) s /\ readback b c = t) <-> line_g (tokens buf) t.
Proof.
  intros Hnul. split.
  - intros (c & b & s & E & <-). pose proof (parsecmd_exits buf Hnul) as H. unfold exits in H. rewrite E in H. cbn in H.
    destruct H as (_ & Hok & Hg & ->). by rewrite readback_words.
  - intros Hg. destruct (wp_inv _ _ _ (parsecmd_accepts buf Hnul t Hg)) as ([c b] & s & E & Hok & Hw & Hb). cbn in *. subst b.
    exists c, (nulterminate c (buf ++ [0])), s. split; [done|]. by rewrite readback_words.
Qed.

(** The tree of "a<b|c&", which has no spaces. *)
Lemma parsecmd_iff_witness :
  (exists c b s, parsecmd [97; 60; 98; 124; 99; 38] 0%nat = Ret (c, b) s /\
    readback b c = BACK (PIPE (REDIR (EXEC [[97]]) [98] O_RDONLY 0) (EXEC [[99]]))).
Proof.
  apply (parsecmd_iff [97; 60; 98; 124; 99; 38]); [repeat constructor; done|]. change (tokens _) with [Word [97]; Sym LT; Word [98]; Sym BAR; Word [99]; Sym AMP].
  apply (lg_back 1 [Word [97]; Sym LT; Word [98]; Sym BAR; Word [99]]). apply (pg_pipe [Word [97]; Sym LT; Word [98]]).
  - constructor. apply sg_arg; [cbn; unfold MAXARGS; lia|]. by eapply sg_redir; [|constructor].
  - constructor. constructor. apply sg_arg; [cbn; unfold MAXARGS; lia|]. constructor.
Defined.

(** C32: The parser ends on every line: with fuel for four calls to each
    character it returns a command or gives up with a message, and a command
    it returns has taken the whole line, with words that lie inside it. *)
Theorem parsecmd_terminates buf : Forall (fun c => c <> 0) buf ->
  match parsecmd buf 0%nat with
  | Ret (c, b) s => s = length buf /\ cmd_ok buf c /\ length b = S (length buf)
  | Panic msg _ => True
  | Undef | NoFuel => False
  end.
Proof.
  intros Hnul. pose proof (parsecmd_exits buf Hnul) as H. unfold exits in H. destruct (parsecmd buf 0%nat) as [[c b] s| | |]; try done.
  cbn in H. destruct H as (-> & Hok & _ & ->). split; [done|]. split; [done|]. rewrite nulterminate_ends.
  assert (forall l (b : list Z), length (foldl (fun b e => <[e := 0]> b) b l) = length b) as Hlen.
  { induction l as [|e l IH]; intros b; cbn; [done|]. by rewrite IH, length_insert. }
  rewrite Hlen, length_app. cbn. lia.
Qed.

(** A line with an unclosed parenthesis is given up. *)
Lemma parsecmd_terminates_witness :
  parsecmd [40; 97] 0%nat = Panic "syntax - missing )" 2%nat /\
  match parsecmd [40; 97] 0%nat with
  | Ret (c, b) s => s = 2%nat /\ cmd_ok [40; 97] c /\ length b = 3%nat
  | Panic msg _ => True
  | Undef | NoFuel => False
  end.
Proof. split; [by vm_compute|]. apply (parsecmd_terminates [40; 97]). repeat constructor; done. Defined.
