(* ===== verification/ShRun.v ===== *)
(** * Running commands ([sh.c])

    [runcmd] and [main] as the sequences of system calls they make, one tree
    of calls for all outcomes; a meaning for the calls on a table of file
    descriptors; and which programs are started with which descriptors. *)

From stdpp Require Import base tactics numbers gmap strings list.
From Stdlib Require Import ZArith Lia.
From S2P Require Import Format Prelude Sh.

(** ** Calls *)

(** [Fork] and the calls with results go on with what they return. *)
Inductive prog :=
| Exit
| Exec (argv : list (list Z)) (failed : prog)
| Print (fmt : string) (args : list (list Z)) (k : prog)
| Close (fd : Z) (k : prog)
| Open (file : list Z) (mode : Z) (k : Z -> prog)
| Fork (k : Z -> prog)
| Wait (k : prog)
| Pipe (k : option (Z * Z) -> prog)
| Dup (fd : Z) (k : prog)
| Chdir (path : list Z) (k : Z -> prog).

Definition panic_ (msg : string) : prog := Print msg [] Exit.

Definition fork1 (k : Z -> prog) : prog := Fork (fun pid => if pid =? -1 then panic_ "fork" else k pid).

Fixpoint runcmd (c : tree) : prog :=
  match c with
  | EXEC [] => Exit
  | EXEC ((path :: _) as argv) => Exec argv (Print "exec %s failed" [path] Exit)
  | REDIR c' file mode fd =>
      Close fd (Open file mode (fun r => if r <? 0 then Print "open %s failed" [file] Exit else runcmd c'))
  | LIST l r => fork1 (fun pid => if pid =? 0 then runcmd l else Wait (runcmd r))
  | PIPE l r =>
      Pipe (fun p =>
        match p with
        | None => panic_ "pipe"
        | Some (p0, p1) =>
            fork1 (fun pid => if pid =? 0 then Close 1 (Dup p1 (Close p0 (Close p1 (runcmd l)))) else
            fork1 (fun pid => if pid =? 0 then Close 0 (Dup p0 (Close p0 (Close p1 (runcmd r)))) else
            Close p0 (Close p1 (Wait (Wait Exit)))))
        end)
  | BACK c' => fork1 (fun pid => if pid =? 0 then runcmd c' else Exit)
  end.

(** The loop of [main] over the lines that [getcmd] returns.  A line that
    does not parse ends the child with the parser's message. *)
Definition cd_prefix : list Z := [99; 100; 32].

Fixpoint sh_lines (lines : list (list Z)) : prog :=
  match lines with
  | [] => Exit
  | buf :: lines' =>
      if bool_decide (take 3 buf = cd_prefix) then
        let buf := take (length buf - 1) buf in
        Chdir (drop 3 buf) (fun r => if r <? 0 then Print "cannot cd %s" [drop 3 buf] (sh_lines lines') else sh_lines lines')
      else
        fork1 (fun pid =>
          if pid =? 0 then
            match parsecmd buf 0%nat with
            | Ret (c, b) _ => runcmd (readback b c)
            | Panic msg _ => panic_ msg
            | Undef | NoFuel => Exit
            end
          else Wait (sh_lines lines'))
  end.

(** The loop that opens the console until descriptor 3 would be used. *)
Definition O_RDWR : Z := 2.
Definition console_name : list Z := [99; 111; 110; 115; 111; 108; 101].

Fixpoint open_std (fuel : nat) (k : prog) : prog :=
  match fuel with
  | O => Exit
  | S n => Open console_name O_RDWR (fun fd => if fd <? 0 then k else if 3 <=? fd then Close fd k else open_std n k)
  end.

(** At most sixteen descriptors can be open. *)
Definition sh_main (lines : list (list Z)) : prog := open_std 17 (sh_lines lines).

(** ** Descriptors *)

(** What a descriptor refers to: something the shell was started with, an
    opened file, an end of a pipe. *)
Inductive obj := Given (k : Z) | File (name : list Z) (mode : Z) | PipeR (n : nat) | PipeW (n : nat).

Abbreviation fds := (gmap Z obj).

Definition NOFILE : Z := 16.

(** The lowest free descriptor, as [fdalloc] takes it. *)
Definition free_fd (f : fds) : option Z := snd <$> list_find (fun i => f !! i = None) (seqZ 0 NOFILE).

(** One started program: its arguments and its descriptors. *)
Definition started : Type := (list (list Z) * fds)%type.

(** The programs that are started, when [fork] succeeds and the files that
    [can_open] allows can be opened; [n] numbers the pipes.  A child's
    programs come before those its parent starts afterwards. *)
Fixpoint starts (can_open : list Z -> Z -> bool) (p : prog) (f : fds) (n : nat) : list started * nat :=
  match p with
  | Exit => ([], n)
  | Exec argv _ => ([(argv, f)], n)
  | Print _ _ k | Wait k => starts can_open k f n
  | Close fd k => starts can_open k (delete fd f) n
  | Open file mode k =>
      match free_fd f with
      | Some fd => if can_open file mode then starts can_open (k fd) (<[fd := File file mode]> f) n else starts can_open (k (-1)) f n
      | None => starts can_open (k (-1)) f n
      end
  | Fork k =>
      let '(l1, n1) := starts can_open (k 0) f n in
      let '(l2, n2) := starts can_open (k 1) f n1 in
      (l1 ++ l2, n2)
  | Pipe k =>
      match free_fd f with
      | Some p0 =>
          let f1 := <[p0 := PipeR n]> f in
          match free_fd f1 with
          | Some p1 => starts can_open (k (Some (p0, p1))) (<[p1 := PipeW n]> f1) (S n)
          | None => starts can_open (k None) f n
          end
      | None => starts can_open (k None) f n
      end
  | Dup fd k =>
      match f !! fd, free_fd f with
      | Some o, Some fd' => starts can_open k (<[fd' := o]> f) n
      | _, _ => starts can_open k f n
      end
  | Chdir _ k => starts can_open (k 0) f n
  end.

(** ** What a command means *)

Fixpoint wiring (can_open : list Z -> Z -> bool) (c : tree) (f : fds) (n : nat) : list started * nat :=
  match c with
  | EXEC [] => ([], n)
  | EXEC argv => ([(argv, f)], n)
  | REDIR c' file mode fd => if can_open file mode then wiring can_open c' (<[fd := File file mode]> f) n else ([], n)
  | LIST l r =>
      let '(l1, n1) := wiring can_open l f n in
      let '(l2, n2) := wiring can_open r f n1 in (l1 ++ l2, n2)
  | PIPE l r =>
      let '(l1, n1) := wiring can_open l (<[1 := PipeW n]> f) (S n) in
      let '(l2, n2) := wiring can_open r (<[0 := PipeR n]> f) n1 in (l1 ++ l2, n2)
  | BACK c' => wiring can_open c' f n
  end.

(** Exactly the descriptors 0, 1 and 2 are open. *)
Definition std (f : fds) : Prop := forall i, is_Some (f !! i) <-> 0 <= i < 3.

(** Redirections are of descriptors 0 and 1, as the parser makes them. *)
Fixpoint redirs_ok {W} (c : cmd W) : Prop :=
  match c with
  | EXEC _ => True
  | REDIR c' _ _ fd => (fd = 0 \/ fd = 1) /\ redirs_ok c'
  | PIPE l r | LIST l r => redirs_ok l /\ redirs_ok r
  | BACK c' => redirs_ok c'
  end.

Lemma free_fd_eq (f : fds) k : 0 <= k < NOFILE -> f !! k = None -> (forall i, 0 <= i < k -> is_Some (f !! i)) -> free_fd f = Some k.
Proof.
  intros Hk Hn Hlow. unfold free_fd. assert (list_find (fun i => f !! i = None) (seqZ 0 NOFILE) = Some (Z.to_nat k, k)) as ->; [|done].
  apply list_find_Some. split; [rewrite lookup_seqZ; lia|]. split; [done|]. intros j y Hj Hlt. rewrite lookup_seqZ in Hj. destruct Hj as [-> Hj].
  intros E. destruct (Hlow (0 + Z.of_nat j)) as [o Ho]; [lia|]. congruence.
Qed.

Lemma std_insert f i o : std f -> 0 <= i < 3 -> std (<[i := o]> f).
Proof. intros Hf Hi j. destruct (decide (i = j)) as [->|Hne]; [rewrite lookup_insert_eq; naive_solver|]. rewrite lookup_insert_ne by done. apply Hf. Qed.

Lemma std_above f i : std f -> 3 <= i -> f !! i = None.
Proof. intros Hf Hi. destruct (f !! i) eqn:E; [|done]. exfalso. assert (0 <= i < 3) by (apply Hf; by eexists). lia. Qed.

(** A standard descriptor that is closed is the one taken next. *)
Lemma free_closed (f : fds) i : (forall j, 0 <= j < i -> is_Some (f !! j)) -> 0 <= i < 3 -> free_fd (delete i f) = Some i.
Proof.
  intros Hf Hi. apply free_fd_eq; [unfold NOFILE; lia|by rewrite lookup_delete_eq|]. intros j Hj. rewrite lookup_delete_ne by lia. by apply Hf.
Qed.

Lemma redir_table f i (o : obj) : std f -> 0 <= i < 3 -> <[i := o]> (delete i f) = <[i := o]> f.
Proof. intros _ _. by rewrite insert_delete_eq. Qed.

(** The two descriptors of a pipe. *)
Lemma pipe_fds f n : std f -> free_fd f = Some 3 /\ free_fd (<[3 := PipeR n]> f) = Some 4.
Proof.
  intros Hf. split; (apply free_fd_eq; [unfold NOFILE; lia| |]).
  - apply std_above; [done|lia].
  - intros i Hi. apply Hf. lia.
  - rewrite lookup_insert_ne by lia. apply std_above; [done|lia].
  - intros i Hi. destruct (decide (i = 3)) as [->|]; [by rewrite lookup_insert_eq|]. rewrite lookup_insert_ne by lia. apply Hf. lia.
Qed.

(** The descriptors of the child that writes, and of the one that reads. *)
Lemma pipe_end f n i o : std f -> 0 <= i < 2 -> let f2 := <[4 := PipeW n]> (<[3 := PipeR n]> f) in
  free_fd (delete i f2) = Some i /\ delete 4 (delete 3 (<[i := o]> (delete i f2))) = <[i := o]> f.
Proof.
  intros Hf Hi f2. split.
  - apply free_closed; [|lia]. intros j Hj. unfold f2. rewrite !lookup_insert_ne by lia. apply Hf. lia.
  - apply map_eq. intros j. unfold f2. destruct (decide (j = 4)) as [->|]; [rewrite lookup_delete_eq, lookup_insert_ne, std_above by (done || lia); done|].
    rewrite lookup_delete_ne by done. destruct (decide (j = 3)) as [->|]; [rewrite lookup_delete_eq, lookup_insert_ne, std_above by (done || lia); done|].
    rewrite lookup_delete_ne by done. destruct (decide (j = i)) as [->|]; [by rewrite !lookup_insert_eq|].
    by rewrite !lookup_insert_ne, lookup_delete_ne, !lookup_insert_ne by done.
Qed.

Lemma starts_fork can_open k f n : starts can_open (fork1 k) f n =
  (let '(l1, n1) := starts can_open (k 0) f n in let '(l2, n2) := starts can_open (k 1) f n1 in (l1 ++ l2, n2)).
Proof. done. Qed.

Lemma runcmd_starts can_open c : forall f n, std f -> redirs_ok c -> starts can_open (runcmd c) f n = wiring can_open c f n.
Proof.
  induction c as [argv|c IH file mode fd|l IHl r IHr|l IHl r IHr|c IH]; intros f n Hf Hr; cbn [runcmd wiring redirs_ok] in *.
  - by destruct argv.
  - destruct Hr as [Hfd Hr]. cbn [starts]. rewrite free_closed; [|intros j Hj; apply Hf; lia|lia].
    destruct (can_open file mode); [|done]. rewrite (proj2 (Z.ltb_ge fd 0)) by lia. rewrite insert_delete_eq. apply IH; [apply std_insert; [done|lia]|done].
  - destruct Hr as [Hrl Hrr]. cbn [starts]. destruct (pipe_fds f n Hf) as [-> ->]. rewrite starts_fork. cbn [Z.eqb].
    destruct (pipe_end f n 1 (PipeW n) Hf ltac:(lia)) as [E1 E2]. destruct (pipe_end f n 0 (PipeR n) Hf ltac:(lia)) as [E3 E4].
    cbn [starts]. rewrite E1. rewrite (lookup_delete_ne _ 1 4), lookup_insert_eq by done. rewrite E2.
    rewrite IHl; [|by apply std_insert|done]. destruct (wiring can_open l _ _) as [l1 n1].
    rewrite starts_fork. cbn [Z.eqb starts]. rewrite E3. rewrite (lookup_delete_ne _ 0 3), (lookup_insert_ne _ 4 3), lookup_insert_eq by done. rewrite E4.
    rewrite IHr; [|by apply std_insert|done]. destruct (wiring can_open r _ _) as [l2 n2]. by rewrite app_nil_r.
  - destruct Hr as [Hrl Hrr]. rewrite starts_fork. cbn [Z.eqb starts]. rewrite IHl by done. destruct (wiring can_open l f n) as [l1 n1]. by rewrite IHr.
  - rewrite starts_fork. cbn [Z.eqb starts]. rewrite IH by done. destruct (wiring can_open c f n) as [l1 n1]. by rewrite app_nil_r.
Qed.

(** ** Sessions *)

(** The parser makes only redirections of 0 and 1. *)
Lemma redir_of_ok c m d : redir_of c = Some (m, d) -> d = 0 \/ d = 1.
Proof. unfold redir_of. destruct (c =? LT); [intros [= _ <-]; by left|]. destruct (_ || _); [intros [= _ <-]; by right|done]. Qed.

Lemma add_arg_redirs w (t : tree) : redirs_ok t -> redirs_ok (add_arg w t).
Proof. induction t; cbn; naive_solver. Qed.

Lemma redirs_g_ok t ts t' : redirs_g t ts t' -> redirs_ok t -> redirs_ok t'.
Proof. induction 1 as [|t c m d w ts t' Hr _ IH]; [done|]. intros Ht. apply IH. split; [by eapply redir_of_ok|done]. Qed.

Lemma simple_g_ok t ts t' : simple_g t ts t' -> redirs_ok t -> redirs_ok t'.
Proof.
  induction 1 as [|t c m d w ts t' Hr _ IH|t w ts t' _ _ IH]; intros Ht; [done|apply IH; split; [by eapply redir_of_ok|done]|].
  by apply IH, add_arg_redirs.
Qed.

Lemma backs_ok k (t : tree) : redirs_ok t -> redirs_ok (Nat.iter k BACK t).
Proof. induction k; cbn; auto. Qed.

Lemma grammar_redirs_ok : (forall ts t, exec_g ts t -> redirs_ok t) /\ (forall ts t, pipe_g ts t -> redirs_ok t) /\ (forall ts t, line_g ts t -> redirs_ok t).
Proof.
  apply grammar_ind; intros; cbn; eauto using simple_g_ok, redirs_g_ok, backs_ok.
  by eapply simple_g_ok.
Qed.

(** What a line starts, by its tree. *)
Definition line_wiring (can_open : list Z -> Z -> bool) (buf : list Z) (f : fds) (n : nat) : list started * nat :=
  if bool_decide (take 3 buf = cd_prefix) then ([], n) else
  match parsecmd buf 0%nat with
  | Ret (c, b) _ => wiring can_open (readback b c) f n
  | _ => ([], n)
  end.

Fixpoint session_wiring (can_open : list Z -> Z -> bool) (lines : list (list Z)) (f : fds) (n : nat) : list started * nat :=
  match lines with
  | [] => ([], n)
  | buf :: lines' =>
      let '(l1, n1) := line_wiring can_open buf f n in
      let '(l2, n2) := session_wiring can_open lines' f n1 in (l1 ++ l2, n2)
  end.

Lemma lines_start can_open lines : forall f n, std f -> Forall (Forall (fun c => c <> 0)) lines ->
  starts can_open (sh_lines lines) f n = session_wiring can_open lines f n.
Proof.
  induction lines as [|buf lines IH]; intros f n Hf Hl; [done|]. apply Forall_cons in Hl as [Hb Hl]. cbn [sh_lines session_wiring].
  unfold line_wiring. case_bool_decide as Hcd.
  - cbn [starts]. change (0 <? 0) with false. cbn iota. rewrite IH by done. by destruct (session_wiring _ _ _ _).
  - rewrite starts_fork. cbn [Z.eqb starts].
    assert (starts can_open match parsecmd buf 0%nat with Ret (c, b) _ => runcmd (readback b c) | Panic msg _ => panic_ msg | Undef | NoFuel => Exit end f n =
      match parsecmd buf 0%nat with Ret (c, b) _ => wiring can_open (readback b c) f n | _ => ([], n) end) as ->.
    { pose proof (parsecmd_exits buf Hb) as Hp. unfold exits in Hp. destruct (parsecmd buf 0%nat) as [[c b] s| | |]; try done. cbn in Hp.
      destruct Hp as (_ & Hok & Hg & ->). rewrite readback_words by done. apply runcmd_starts; [done|]. by eapply grammar_redirs_ok. }
    generalize (match parsecmd buf 0%nat with Ret (c, b) _ => wiring can_open (readback b c) f n | _ => ([], n) end). intros [l1 n1]. by rewrite IH.
Qed.

(** The console on the standard descriptors that were not open. *)
Definition with_std (f : fds) : fds := f ∪ list_to_map (map (fun i => (i, File console_name O_RDWR)) [0; 1; 2]).

(** The first [k] descriptors are open, and no others. *)
Definition first_open (k : Z) (f : fds) : Prop := forall i, is_Some (f !! i) <-> 0 <= i < k.

Lemma first_open_next k f : 0 <= k < NOFILE -> first_open k f -> free_fd f = Some k.
Proof.
  intros Hk Hf. apply free_fd_eq; [done| |]; [|intros i Hi; by apply Hf]. destruct (f !! k) eqn:E; [|done].
  assert (0 <= k < k) by (apply Hf; by eexists). lia.
Qed.

Lemma open_std_starts can_open p : can_open console_name O_RDWR = true -> forall d fuel k f n, k + Z.of_nat d = 3 -> 0 <= k -> (d < fuel)%nat -> first_open k f ->
  starts can_open (open_std fuel p) f n = starts can_open p (with_std f) n /\ std (with_std f).
Proof.
  intros Ho. induction d as [|d IH]; intros fuel k f n Hd Hk Hfuel Hf; (destruct fuel as [|fuel]; [lia|]); cbn [open_std starts].
  - assert (k = 3) as -> by lia. rewrite (first_open_next 3 f) by done. rewrite Ho. cbn [Z.ltb Z.leb Z.compare starts].
    assert (with_std f = f) as E.
    { apply map_eq. intros i. unfold with_std. destruct (f !! i) eqn:E; [by erewrite lookup_union_Some_l|]. rewrite lookup_union_r by done.
      apply not_elem_of_list_to_map_1. cbn. intros Hi. assert (0 <= i < 3) as Hr by (set_unfold; lia). apply Hf in Hr as [o Ho']. congruence. }
    rewrite E. split; [|exact Hf]. change (3 <? 0) with false. change (3 <=? 3) with true. cbn [starts]. rewrite delete_insert_id; [done|].
    by apply std_above.
  - rewrite (first_open_next k f) by (done || unfold NOFILE; lia). rewrite Ho. rewrite (proj2 (Z.ltb_ge k 0)), (proj2 (Z.leb_gt 3 k)) by lia.
    destruct (IH fuel (k + 1) (<[k := File console_name O_RDWR]> f) n) as [E1 E2]; [lia|lia|lia| |].
    { intros i. destruct (decide (i = k)) as [->|]; [rewrite lookup_insert_eq; split; [lia|by eexists]|]. rewrite lookup_insert_ne by done. rewrite (Hf i). lia. }
    assert (with_std (<[k := File console_name O_RDWR]> f) = with_std f) as E; [|by rewrite E in *].
    apply map_eq. intros i. unfold with_std. destruct (decide (i = k)) as [->|]; [|by rewrite !lookup_union, lookup_insert_ne by done].
    rewrite (lookup_union_Some_l (<[_ := _]> f) _ k (File console_name O_RDWR)) by apply lookup_insert_eq.
    rewrite lookup_union_r by (destruct (f !! k) eqn:E'; [assert (0 <= k < k) by (apply Hf; by eexists); lia|done]).
    assert (k = 0 \/ k = 1 \/ k = 2) as [-> | [-> | ->]] by lia; done.
Qed.

(** C33: The shell wires up what it starts.  Started with the first [k <= 3]
    descriptors open, it runs every line with exactly the descriptors 0, 1
    and 2, the missing ones being the console; and the programs a line
    starts are those of its tree, each with its redirections on 0 and 1,
    the two sides of a pipe on its two ends, and no other descriptor: no end
    of a pipe is left open in a program that does not use it. *)
Theorem shell_wires can_open lines k f n : can_open console_name O_RDWR = true -> 0 <= k <= 3 -> first_open k f ->
  Forall (Forall (fun c => c <> 0)) lines ->
  starts can_open (sh_main lines) f n = session_wiring can_open lines (with_std f) n.
Proof.
  intros Ho Hk Hf Hl. destruct (open_std_starts can_open (sh_lines lines) Ho (Z.to_nat (3 - k)) 17 k f n) as [E Hs]; [lia|lia|lia|done|].
  unfold sh_main. rewrite E. by apply lines_start.
Qed.

(** "a|b>c" started with the console on 0 only. *)
Lemma shell_wires_witness :
  let f : fds := {[0 := Given 0]} in
  starts (fun _ _ => true) (sh_main [[97; 124; 98; 62; 99; 10]]) f 0 =
    session_wiring (fun _ _ => true) [[97; 124; 98; 62; 99; 10]] (with_std f) 0 /\
  (session_wiring (fun _ _ => true) [[97; 124; 98; 62; 99; 10]] (with_std f) 0).1 =
    [([[97]], <[1 := PipeW 0]> (with_std f)); ([[98]], <[1 := File [99] 513]> (<[0 := PipeR 0]> (with_std f)))].
Proof.
  intros f. split; [|by vm_compute]. apply (shell_wires (fun _ _ => true) [[97; 124; 98; 62; 99; 10]] 1 f 0); [done|lia| |].
  - intros i. unfold f. destruct (decide (i = 0)) as [->|]; [rewrite lookup_singleton_eq; split; [lia|by eexists]|].
    rewrite lookup_singleton_ne by done. split; [by intros [? ?]|lia].
  - repeat constructor; done.
Defined.
