(* ===== verification/Umalloc.v ===== *)
(** * The user-level allocator ([umalloc.c])

    [malloc] and [free] on headers at byte addresses: the [ptr] and [size]
    fields of the header at each address, the circular free list through
    [base], and the break of the process, which [sbrk] moves.  [heap_ok]
    describes the free list as a sorted list of blocks that do not touch,
    apart from each other and from the allocated blocks. *)

From stdpp Require Import base tactics numbers gmap strings list sorting.
From Stdlib Require Import ZArith Lia.
From S2P Require Import Prelude Mmu.

(** ** The code *)

Definition HEADER : Z := 8.

Record heap := mkheap { hptr : arr Z; hsize : arr Z; freep : Z; brk : Z }.

Definition ptr (a : Z) : M heap Z := gets (fun h => (hptr h).[a]).
Definition size (a : Z) : M heap Z := gets (fun h => (hsize h).[a]).
Definition set_ptr (a v : Z) : M heap unit := modify (fun h => mkheap (<[a := v]> (hptr h)) (hsize h) (freep h) (brk h)).
Definition set_size (a v : Z) : M heap unit := modify (fun h => mkheap (hptr h) (<[a := v]> (hsize h)) (freep h) (brk h)).
Definition set_freep (v : Z) : M heap unit := modify (fun h => mkheap (hptr h) (hsize h) v (brk h)).

(** The header [n] headers after [a]. *)
Definition plus (a n : Z) : Z := u32 (a + HEADER * n).

(** What the system call does: the new break, or a refusal. *)
Class Sbrk := {
  sbrk_to : Z -> Z -> option Z;
  sbrk_grows n b b' : 0 <= n -> sbrk_to n b = Some b' -> b' = b + n /\ b' <= KERNBASE
}.

Section Allocator.

Context `{Sbrk}.

(** The address of [base]. *)
Variable base : Z.

(** The loop of [free]: one look at [p]. *)
Definition free_body (bp p : Z) : M heap (Z + Z) :=
  let* nx := ptr p in
  ret (if (p <? bp) && (bp <? nx) then inr p
       else if (nx <=? p) && ((p <? bp) || (bp <? nx)) then inr p
       else inl nx).

(** The block at [x] is put before the one at [r], or joined with it. *)
Definition attach (x r : Z) : M heap unit :=
  let* xs := size x in
  if plus x xs =? r then
    let* rs := size r in
    set_size x (u32 (xs + rs)) ;;;
    let* rp := ptr r in
    set_ptr x rp
  else set_ptr x r.

Definition free (fuel : nat) (ap : Z) : M heap unit :=
  let bp := ap - HEADER in
  let* f := gets freep in
  let* p := iter fuel (free_body bp) f in
  let* nx := ptr p in
  attach bp nx ;;;
  attach p bp ;;;
  set_freep p.

Definition sbrk (n : Z) : M heap Z :=
  let* b := gets brk in
  match sbrk_to n b with
  | Some b' => modify (fun h => mkheap (hptr h) (hsize h) (freep h) b') ;;; ret b
  | None => ret (-1)
  end.

Definition morecore (fuel : nat) (nu : Z) : M heap Z :=
  let nu := if nu <? 4096 then 4096 else nu in
  let* p := sbrk (i32 (u32 (nu * HEADER))) in
  if p =? -1 then ret 0 else
  set_size p nu ;;;
  free fuel (p + HEADER) ;;;
  gets freep.

(** The loop of [malloc]: one look at [p], which [prevp] points to. *)
Definition malloc_body (fuel : nat) (nunits : Z) (pp : Z * Z) : M heap ((Z * Z) + Z) :=
  let '(prevp, p) := pp in
  let* sz := size p in
  if nunits <=? sz then
    let* p :=
      (if sz =? nunits then
         let* nx := ptr p in
         set_ptr prevp nx ;;; ret p
       else
         set_size p (u32 (sz - nunits)) ;;;
         let* sz := size p in
         let p := plus p sz in
         set_size p nunits ;;; ret p) in
    set_freep prevp ;;;
    ret (inr (p + HEADER))
  else
    let* f := gets freep in
    if p =? f then
      let* p := morecore fuel nunits in
      if p =? 0 then ret (inr 0) else
      let* nx := ptr p in ret (inl (p, nx))
    else
      let* nx := ptr p in ret (inl (p, nx)).

Definition units (nbytes : Z) : Z := u32 (nbytes + HEADER - 1) / HEADER + 1.

Definition malloc (fuel : nat) (nbytes : Z) : M heap Z :=
  let nunits := units nbytes in
  let* f := gets freep in
  when (f =? 0) (set_freep base ;;; set_ptr base base ;;; set_size base 0) ;;;
  let* prevp := gets freep in
  let* p := ptr prevp in
  iter fuel (malloc_body fuel nunits) (prevp, p).

(** ** The free list and the blocks *)

Abbreviation block := (Z * Z)%type.

Definition next (L : list block) : Z := match L with [] => base | x :: _ => fst x end.

(** The headers hold the list [L], whose end points to [base]. *)
Fixpoint seg (h : heap) (L : list block) : Prop :=
  match L with
  | [] => True
  | x :: L' => (hptr h).[fst x] = next L' /\ (hsize h).[fst x] = snd x /\ seg h L'
  end.

Definition bend (x : block) : Z := fst x + HEADER * snd x.

(** [x] ends before [y] begins. *)
Definition before (x y : block) : Prop := bend x < fst y.
Definition apart (x y : block) : Prop := bend x <= fst y \/ bend y <= fst x.

(** Free blocks [F], allocated blocks [A], and the end of the heap. *)
Record blocks_ok (F : list block) (A : gmap Z Z) (hi : Z) : Prop := {
  bo_sorted : StronglySorted before ((base, 0) :: F);
  bo_range : forall x, x ∈ F \/ A !! fst x = Some (snd x) -> 1 <= snd x /\ base + HEADER <= fst x /\ bend x <= hi;
  bo_apart : forall x y, x ∈ F -> A !! fst y = Some (snd y) -> apart x y;
  bo_alloc : forall x y, A !! fst x = Some (snd x) -> A !! fst y = Some (snd y) -> fst x <> fst y -> apart x y;
  bo_hi : 0 < base /\ base + HEADER <= hi <= KERNBASE
}.

Record heap_ok (h : heap) (F : list block) (A : gmap Z Z) : Prop := {
  ho_seg : seg h ((base, 0) :: F);
  ho_freep : freep h ∈ base :: F.*1;
  ho_sizes : forall a s, A !! a = Some s -> (hsize h).[a] = s;
  ho_blocks : blocks_ok F A (brk h)
}.

(** Headers outside the given addresses are as they were. *)
Definition same_off (xs : list Z) (h h' : heap) : Prop :=
  forall a, a ∉ xs -> (hptr h').[a] = (hptr h).[a] /\ (hsize h').[a] = (hsize h).[a].

Lemma seg_frame xs h h' L : same_off xs h h' -> (forall x, x ∈ L -> fst x ∉ xs) -> seg h L -> seg h' L.
Proof.
  intros Hs. induction L as [|x L IH]; [done|]. intros Hx (H1 & H2 & H3). destruct (Hs (fst x)) as [E1 E2]; [apply Hx; by left|].
  cbn [seg]. rewrite E1, E2. split; [done|]. split; [done|]. apply IH; [|done]. intros y Hy. apply Hx. by right.
Qed.

(** The end of a list replaced. *)
Lemma seg_replace xs h h' L1 L2 L2' : same_off xs h h' -> (forall x, x ∈ L1 -> fst x ∉ xs) -> seg h (L1 ++ L2) -> seg h' L2' ->
  next L2' = next L2 -> seg h' (L1 ++ L2').
Proof.
  intros Hs. induction L1 as [|x L1 IH]; [done|]. intros Hx (H1 & H2 & H3) Hseg Hn. destruct (Hs (fst x)) as [E1 E2]; [apply Hx; by left|].
  cbn [app seg]. rewrite E1, E2. split; [|split; [done|apply IH; [|done..]; intros y Hy; apply Hx; by right]].
  rewrite H1. by destruct L1.
Qed.

Lemma seg_split h L1 x L2 : seg h (L1 ++ x :: L2) -> (hptr h).[fst x] = next L2 /\ (hsize h).[fst x] = snd x /\ seg h L2.
Proof. induction L1 as [|y L1 IH]; [done|]. intros (_ & _ & H3). by apply IH. Qed.

(** [x] before the list [R], joined with its first block if they touch. *)
Definition join (x : block) (R : list block) : list block :=
  match R with
  | y :: R' => if bend x =? fst y then (fst x, snd x + snd y) :: R' else x :: R
  | [] => [x]
  end.

Lemma next_join x R : next (join x R) = fst x.
Proof. destruct R as [|y R]; [done|]. cbn. by destruct (_ =? _). Qed.

Lemma plus_bend x : 0 <= bend x < 4294967296 -> plus (fst x) (snd x) = bend x.
Proof. intros Hx. unfold plus. by apply u32_small. Qed.

Lemma wp_attach h x R : seg h R -> (forall y, y ∈ R -> fst y <> fst x) -> (hsize h).[fst x] = snd x -> 0 <= bend x < 4294967296 ->
  (R = [] -> bend x <> base) -> (forall y, y ∈ R -> 0 <= snd x + snd y < 4294967296) ->
  wp (attach (fst x) (next R)) (fun _ h' => seg h' (join x R) /\ same_off [fst x] h h' /\ freep h' = freep h /\ brk h' = brk h) h.
Proof.
  intros Hseg Hx Hsz Hb Hbase Hsum. unfold attach. apply wp_bind, wp_gets. rewrite Hsz, plus_bend by done.
  assert (forall h' r, hptr h' = <[fst x := r]> (hptr h) -> (forall a, a <> fst x -> (hsize h').[a] = (hsize h).[a]) -> same_off [fst x] h h') as Hsame.
  { intros h' r E1 E2 a Ha. apply not_elem_of_cons in Ha as [Ha _]. rewrite E1, asel_insert_ne by done. split; [done|by apply E2]. }
  destruct (Z.eqb_spec (bend x) (next R)) as [E|Hne].
  - destruct R as [|y R]; [by apply Hbase in E|]. cbn [next] in *. destruct Hseg as (H1 & H2 & H3).
    apply wp_bind, wp_gets. apply wp_bind, wp_modify. apply wp_bind, wp_gets. apply wp_modify. cbn [hptr hsize freep brk]. split; [|split; [|done]].
    + cbn [join]. rewrite (proj2 (Z.eqb_eq _ _) E). cbn [seg fst snd hptr hsize]. rewrite !asel_insert_eq, H1, H2.
      split; [done|]. split; [rewrite u32_small; [done|apply Hsum; by left]|].
      eapply (seg_frame [fst x] h); [apply (Hsame _ (next R)); [cbn; by rewrite ?H1|intros a Ha; cbn; by rewrite asel_insert_ne]| |done].
      intros z Hz. rewrite list_elem_of_singleton. apply Hx. by right.
    + apply (Hsame _ (next R)); [cbn; by rewrite ?H1|]. intros a Ha. cbn. by rewrite asel_insert_ne.
  - apply wp_modify. cbn [hptr hsize freep brk]. split; [|split; [by apply (Hsame _ (next R))|done]].
    assert (join x R = x :: R) as ->. { destruct R as [|y R]; [done|]. cbn [join]. by rewrite (proj2 (Z.eqb_neq (bend x) (fst y)) Hne). }
    cbn [seg hptr hsize]. rewrite asel_insert_eq. split; [done|]. split; [done|].
    eapply (seg_frame [fst x] h); [by apply (Hsame _ (next R))| |done]. intros z Hz. rewrite list_elem_of_singleton. by apply Hx.
Qed.

(** ** Sorted lists of blocks *)

Lemma join_elem x R e : e ∈ join x R -> fst e = fst x \/ e ∈ R.
Proof.
  destruct R as [|y R]; cbn; [rewrite list_elem_of_singleton; intros ->; by left|]. destruct (_ =? _); rewrite !elem_of_cons; naive_solver.
Qed.

Lemma join_sorted x R : StronglySorted before R -> (forall y, y ∈ R -> bend x <= fst y /\ 0 <= snd y) -> StronglySorted before (join x R).
Proof.
  intros Hs Hx. destruct R as [|y R]; [by repeat constructor|]. cbn [join]. inversion Hs as [|? ? Hs' Hall]; subst.
  destruct (Z.eqb_spec (bend x) (fst y)) as [E|Hne].
  - constructor; [done|]. eapply Forall_impl; [exact Hall|]. unfold before, bend in *. cbn. intros z. lia.
  - constructor; [done|]. destruct (Hx y) as [H1 H2]; [by left|]. constructor; [unfold before; lia|].
    eapply Forall_impl; [exact Hall|]. unfold before, bend in *. intros z. unfold HEADER in *. lia.
Qed.

(** A block apart from the parts is apart from what they are joined to. *)
Lemma join_apart b x R : 1 <= snd b -> apart x b -> (forall y, y ∈ R -> apart y b) -> forall e, e ∈ join x R -> apart e b.
Proof.
  intros Hb Hx HR e. destruct R as [|y R]; cbn [join]; [by intros ->%list_elem_of_singleton|].
  destruct (Z.eqb_spec (bend x) (fst y)) as [E|Hne]; rewrite ?elem_of_cons; intros [->|He].
  - specialize (HR y ltac:(by left)). unfold apart, bend, HEADER in *. cbn [fst snd]. lia.
  - apply HR. by right.
  - done.
  - by apply HR, elem_of_cons.
Qed.

Lemma join_range lo hi x R : 1 <= snd x /\ lo <= fst x /\ bend x <= hi -> (forall y, y ∈ R -> 1 <= snd y /\ lo <= fst y /\ bend y <= hi) ->
  forall e, e ∈ join x R -> 1 <= snd e /\ lo <= fst e /\ bend e <= hi.
Proof.
  intros Hx HR e. destruct R as [|y R]; cbn [join]; [by intros ->%list_elem_of_singleton|].
  destruct (Z.eqb_spec (bend x) (fst y)) as [E|Hne]; rewrite ?elem_of_cons; intros [->|He].
  - specialize (HR y ltac:(by left)). unfold bend, HEADER in *. cbn [fst snd]. lia.
  - apply HR. by right.
  - done.
  - by apply HR, elem_of_cons.
Qed.

Definition total (L : list block) : Z := foldr (fun x n => snd x + n) 0 L.

Lemma total_app L1 L2 : total (L1 ++ L2) = total L1 + total L2.
Proof. induction L1 as [|x L1 IH]; [done|]. cbn. fold (total (L1 ++ L2)) (total L1). lia. Qed.

Lemma total_join x R : total (join x R) = snd x + total R.
Proof. destruct R as [|y R]; [done|]. cbn. destruct (_ =? _); cbn; fold (total R); lia. Qed.

Lemma sorted_lookup L i j x y : StronglySorted before L -> (i < j)%nat -> L !! i = Some x -> L !! j = Some y -> before x y.
Proof.
  intros Hs. revert i j. induction Hs as [|z L _ IH Hall]; intros i j Hij Hx Hy; [done|]. destruct j as [|j]; [lia|]. cbn in Hy.
  destruct i as [|i]; cbn in Hx; [|by eapply (IH i j); [lia|..]]. injection Hx as ->. by eapply Forall_lookup_1 in Hall.
Qed.

(** The place of an address in the list. *)
Lemma place F bp : forall x0, StronglySorted before (x0 :: F) -> fst x0 < bp -> (forall y, y ∈ F -> fst y <> bp /\ 0 <= snd y) -> 0 <= snd x0 ->
  exists L1 p L2, x0 :: F = L1 ++ p :: L2 /\ fst p < bp /\ (forall y, y ∈ L2 -> bp < fst y).
Proof.
  induction F as [|y F IH]; intros x0 Hs Hx HF H0; [by exists [], x0, []; split; [done|]; split; [done|]; intros y Hy%elem_of_nil|].
  inversion Hs as [|? ? Hs' Hall]; subst. destruct (HF y) as [Hne Hsy]; [by left|]. destruct (decide (fst y < bp)) as [Hlt|Hge].
  - destruct (IH y Hs' Hlt) as (L1 & p & L2 & E & Hp & HL2); [intros z Hz; apply HF; by right|done|]. exists (x0 :: L1), p, L2. by rewrite E.
  - exists [], x0, (y :: F). split; [done|]. split; [done|]. inversion Hs' as [|? ? _ Hall']; subst. intros z Hz%elem_of_cons. destruct Hz as [->|Hz]; [lia|].
    rewrite Forall_forall in Hall'. specialize (Hall' z Hz). unfold before, bend, HEADER in Hall'. lia.
Qed.

(** Addresses by position; what a header points to. *)
Lemma seg_lookup h L i x : seg h L -> L !! i = Some x ->
  (hsize h).[fst x] = snd x /\ (hptr h).[fst x] = match L !! S i with Some y => fst y | None => base end.
Proof.
  revert i. induction L as [|y L IH]; intros i Hseg Hi; [done|]. destruct Hseg as (H1 & H2 & H3). destruct i as [|i]; cbn in Hi |- *.
  - injection Hi as ->. split; [done|]. rewrite H1. by destruct L.
  - by apply IH.
Qed.

Lemma lookup_hd L (x0 : block) F : L = x0 :: F -> L !! 0%nat = Some x0.
Proof. by intros ->. Qed.

(** The loop of [free] goes round to the place of [bp]. *)
Lemma free_loop h F bp i p : let L := (base, 0) :: F in
  seg h L -> StronglySorted before L -> (forall y, y ∈ L -> 0 <= snd y) -> base < bp ->
  L !! i = Some p -> fst p < bp -> (forall j y, (i < j)%nat -> L !! j = Some y -> bp < fst y) ->
  forall d j x fuel, L !! j = Some x -> d = (if (j <=? i)%nat then i - j else i + length L - j)%nat -> (d < fuel)%nat ->
  wp (iter fuel (free_body bp) (fst x)) (fun r h' => r = fst p /\ h' = h) h.
Proof.
  intros L Hseg Hs Hsz Hbase Hi Hp Hafter. assert (forall j k y z, (j < k)%nat -> L !! j = Some y -> L !! k = Some z -> fst y < fst z) as Hlt.
  { intros j k y z Hjk Hy Hz. pose proof (sorted_lookup L j k y z Hs Hjk Hy Hz) as Hb. specialize (Hsz y ltac:(by eapply list_elem_of_lookup_2)).
    unfold before, bend, HEADER in Hb. lia. }
  assert (L !! 0%nat = Some (base, 0)) as H0 by done. pose proof (lookup_lt_Some _ _ _ Hi) as Hil.
  induction d as [|d IH]; intros j x fuel Hj Hd Hfuel; (destruct fuel as [|fuel]; [lia|]); cbn [iter];
    destruct (seg_lookup h L j x Hseg Hj) as [_ Hptr]; pose proof (lookup_lt_Some _ _ _ Hj) as Hjl;
    apply wp_bind; unfold free_body; apply wp_bind, wp_gets, wp_ret; rewrite Hptr.
  - assert (j = i) as -> by (destruct (Nat.leb_spec j i); lia). assert (x = p) as -> by congruence.
    rewrite (proj2 (Z.ltb_lt _ _) Hp). destruct (L !! S i) as [y|] eqn:Ey; cbn [andb].
    + rewrite (proj2 (Z.ltb_lt bp (fst y))) by (by apply (Hafter (S i)); [lia|]). by apply wp_ret.
    + rewrite (proj2 (Z.ltb_ge bp base)) by lia. rewrite (proj2 (Z.leb_le base (fst p))); [by apply wp_ret|].
      destruct i as [|i]; [injection Hi as <-; done|]. pose proof (Hlt 0%nat (S i) _ _ ltac:(lia) H0 Hi) as Hb. cbn in Hb. lia.
  - destruct (Nat.leb_spec j i) as [Hji|Hji].
    + assert (S j < length L)%nat as Hl by lia. destruct (lookup_lt_is_Some_2 _ _ Hl) as [y Ey]. rewrite Ey.
      pose proof (Hlt j (S j) x y ltac:(lia) Hj Ey) as Hxy. assert (fst y <= fst p) as Hyp.
      { destruct (decide (S j = i)) as [<-|]; [assert (y = p) as -> by congruence; lia|]. pose proof (Hlt (S j) i y p ltac:(lia) Ey Hi). lia. }
      rewrite (proj2 (Z.ltb_ge bp (fst y))), (proj2 (Z.leb_gt (fst y) (fst x))) by lia. rewrite andb_false_r. cbn [andb].
      apply (IH (S j) y fuel Ey); [|lia]. destruct (Nat.leb_spec (S j) i); lia.
    + pose proof (Hafter j x Hji Hj) as Hbx. rewrite (proj2 (Z.ltb_ge (fst x) bp)) by lia. cbn [andb orb].
      destruct (L !! S j) as [y|] eqn:Ey.
      * pose proof (Hlt j (S j) x y ltac:(lia) Hj Ey) as Hxy. pose proof (lookup_lt_Some _ _ _ Ey). rewrite (proj2 (Z.leb_gt (fst y) (fst x))) by lia. cbn [andb].
        apply (IH (S j) y fuel Ey); [|lia]. destruct (Nat.leb_spec (S j) i); lia.
      * apply lookup_ge_None_1 in Ey. rewrite (proj2 (Z.ltb_ge bp base)), andb_false_r by lia.
        apply (IH 0%nat (base, 0) fuel H0); [|lia]. cbn. lia.
Qed.

(** ** Giving a block back *)

(** The part of the list from [p] on, when [b] comes after [p]. *)
Lemma after_insert F A hi (b : block) L2 : blocks_ok F A hi -> A !! fst b = Some (snd b) -> (forall y, y ∈ L2 -> y ∈ F /\ fst b < fst y) -> StronglySorted before L2 ->
  StronglySorted before (join b L2) /\ (forall e, e ∈ join b L2 -> fst b <= fst e /\ 1 <= snd e /\ base + HEADER <= fst e /\ bend e <= hi) /\
  (forall (y : block) e, A !! fst y = Some (snd y) -> fst y <> fst b -> e ∈ join b L2 -> apart e y).
Proof.
  intros Hok Hb HL2 Hs. pose proof (bo_range _ _ _ Hok b (or_intror Hb)) as Rb.
  assert (forall y, y ∈ L2 -> bend b <= fst y /\ 1 <= snd y /\ base + HEADER <= fst y /\ bend y <= hi) as Hy.
  { intros y Hy. destruct (HL2 y Hy) as [HF Hlt]. pose proof (bo_range _ _ _ Hok y (or_introl HF)) as Ry.
    destruct (bo_apart _ _ _ Hok y b HF Hb) as [H1|H1]; [|lia]. unfold bend, HEADER in *. lia. }
  split; [apply join_sorted; [done|]; intros y Hin; specialize (Hy y Hin); lia|]. split.
  - intros e He. assert (fst b <= fst e) by (destruct (join_elem _ _ _ He) as [->|He']; [lia|destruct (HL2 e He'); lia]).
    split; [done|]. eapply join_range; [exact Rb| |exact He]. intros y Hin. by apply Hy.
  - intros y e Ay Hne. apply join_apart; [apply (bo_range _ _ _ Hok y (or_intror Ay))|by apply (bo_alloc _ _ _ Hok)|].
    intros z Hz. destruct (HL2 z Hz) as [HF _]. by apply (bo_apart _ _ _ Hok).
Qed.

(** A new free list, for the same heap less the block [b]. *)
Lemma less_block F A hi (b : block) F' : blocks_ok F A hi -> StronglySorted before ((base, 0) :: F') ->
  (forall e, e ∈ F' -> 1 <= snd e /\ base + HEADER <= fst e /\ bend e <= hi) ->
  (forall (y : block) e, A !! fst y = Some (snd y) -> fst y <> fst b -> e ∈ F' -> apart e y) -> blocks_ok F' (delete (fst b) A) hi.
Proof.
  intros Hok Hs Hr Ha. assert (forall y : block, delete (fst b) A !! fst y = Some (snd y) -> A !! fst y = Some (snd y) /\ fst y <> fst b) as Hdel.
  { intros y Hy. apply lookup_delete_Some in Hy as [H1 H2]. by split. }
  split; [done| | | |by apply (bo_hi _ _ _ Hok)].
  - intros x [Hx|Hx]; [by apply Hr|]. apply (bo_range _ _ _ Hok). right. by apply Hdel.
  - intros x y Hx Hy. apply Hdel in Hy as [Hy Hne]. by apply Ha.
  - intros x y Hx Hy. apply (bo_alloc _ _ _ Hok); by apply Hdel.
Qed.

Lemma insert_blocks F A hi (b : block) : blocks_ok F A hi -> A !! fst b = Some (snd b) ->
  exists L1 p L2 F', (base, 0) :: F = L1 ++ p :: L2 /\ fst p < fst b /\ (forall y, y ∈ L2 -> fst b < fst y) /\ (L2 = [] -> bend b <> base) /\
    L1 ++ join p (join b L2) = (base, 0) :: F' /\ blocks_ok F' (delete (fst b) A) hi /\
    total F' = total F + snd b /\ (exists e, e ∈ F' /\ snd b <= snd e) /\ (length F' <= S (length F))%nat.
Proof.
  intros Hok Hb. pose proof (bo_range _ _ _ Hok b (or_intror Hb)) as Rb. pose proof (bo_sorted _ _ _ Hok) as Hs.
  destruct (place F (fst b) (base, 0) Hs) as (L1 & p & L2 & E & Hp & HL2); [cbn; unfold HEADER in *; lia| |cbn; lia|].
  { intros y Hy. pose proof (bo_range _ _ _ Hok y (or_introl Hy)). split; [|lia]. intros Ey.
    destruct (bo_apart _ _ _ Hok y b Hy Hb); unfold bend, HEADER in *; lia. }
  assert (bend b <> base) as Hbase by (unfold bend, HEADER in *; lia).
  rewrite E in Hs. pose proof (StronglySorted_app_1_r _ _ _ Hs) as Hs2. apply StronglySorted_cons in Hs2 as [Hp2 Hs2]. rewrite Forall_forall in Hp2.
  assert (length (join b L2) <= S (length L2))%nat as Hlen by (destruct L2; cbn; [lia|destruct (_ =? _); cbn; lia]).
  assert (forall y, y ∈ L2 -> y ∈ F) as HinF by (intros y Hy; destruct L1; injection E as _ ->; set_solver).
  assert (exists e, e ∈ join b L2 /\ snd b <= snd e) as (e & He & Hse).
  { destruct L2 as [|y L2]; cbn; [exists b; split; [by left|lia]|]. destruct (_ =? _); [|exists b; split; [by left|lia]].
    eexists; split; [by left|]. cbn. pose proof (bo_range _ _ _ Hok y (or_introl (HinF y ltac:(by left)))). lia. }
  exists L1, p, L2. destruct L1 as [|x0 L1]; injection E as E0 EF; subst.
  - destruct (after_insert L2 A hi b L2 Hok Hb) as (S1 & S2 & S3); [intros y Hy; split; [done|by apply HL2]|done|].
    exists (join b L2). split; [done|]. split; [done|]. split; [done|]. split; [done|].
    split; [|split; [apply (less_block L2 A hi b); [done| |intros e' He'; apply S2 in He'; lia|done]|split; [rewrite total_join; lia|split; [by eexists|done]]]].
    + assert (next (join b L2) = fst b) as En by apply next_join. destruct (join b L2) as [|y Q]; [by apply elem_of_nil in He|]. cbn in En |- *.
      rewrite (proj2 (Z.eqb_neq _ (fst y))); [done|]. rewrite En. unfold bend. cbn. unfold HEADER in *. lia.
    + apply StronglySorted_cons. split; [|done]. apply Forall_forall. intros y Hy. apply S2 in Hy. unfold before, bend. cbn. unfold HEADER in *. lia.
  - destruct (after_insert (L1 ++ p :: L2) A hi b L2 Hok Hb) as (S1 & S2 & S3); [intros y Hy; split; [set_solver|by apply HL2]|done|].
    assert (p ∈ L1 ++ p :: L2) as HpF by set_solver. pose proof (bo_range _ _ _ Hok p (or_introl HpF)) as Rp.
    assert (bend p <= fst b) as Hpb by (destruct (bo_apart _ _ _ Hok p b HpF Hb); [done|unfold bend, HEADER in *; lia]).
    assert (StronglySorted before (join p (join b L2))) as S4.
    { apply join_sorted; [done|]. intros y Hy. apply S2 in Hy. lia. }
    assert (forall e, e ∈ join p (join b L2) -> fst p <= fst e) as S5.
    { intros y Hy. destruct (join_elem _ _ _ Hy) as [->|Hy']; [lia|]. apply S2 in Hy'. lia. }
    exists (L1 ++ join p (join b L2)). split; [done|]. split; [done|]. split; [done|]. split; [done|]. split; [done|].
    split; [|split; [rewrite !total_app, !total_join; cbn; fold (total L2); lia|split]].
    + apply (less_block (L1 ++ p :: L2) A hi b); [done| | |].
      * change ((base, 0) :: L1 ++ join p (join b L2)) with (((base, 0) :: L1) ++ join p (join b L2)). apply StronglySorted_app_2; [|by eapply StronglySorted_app_1_l|done].
        intros x y Hx Hy. pose proof (StronglySorted_app_1_elem_of _ _ _ x p Hs Hx ltac:(by left)) as Hxp. apply S5 in Hy. unfold before in *. lia.
      * intros y Hy. apply elem_of_app in Hy as [Hy|Hy]; [apply (bo_range _ _ _ Hok y); left; set_solver|].
        eapply join_range; [exact Rp| |exact Hy]. intros z Hz. apply S2 in Hz. lia.
      * intros y e' Ay Hne Hy. apply elem_of_app in Hy as [Hy|Hy]; [apply (bo_apart _ _ _ Hok); [set_solver|done]|].
        revert e' Hy. apply join_apart; [apply (bo_range _ _ _ Hok y (or_intror Ay))|by apply (bo_apart _ _ _ Hok)|]. intros z Hz. by apply S3.
    + destruct (join b L2) as [|y Q]; [by apply elem_of_nil in He|]. cbn [join]. destruct (_ =? _).
      * apply elem_of_cons in He as [->|He]; [|exists e; set_solver]. eexists. split; [apply elem_of_app; right; by left|]. cbn. lia.
      * exists e. set_solver.
    + rewrite !length_app. cbn [length]. assert (length (join p (join b L2)) <= S (length (join b L2)))%nat by (destruct (join b L2); cbn; [lia|destruct (_ =? _); cbn; lia]). lia.
Qed.

Lemma list_position h F A : heap_ok h F A -> exists j x, ((base, 0) :: F) !! j = Some x /\ freep h = fst x.
Proof.
  intros Hok. pose proof (ho_freep _ _ _ Hok) as Hf. apply elem_of_cons in Hf as [->|Hf]; [by exists 0%nat, (base, 0)|].
  apply list_elem_of_fmap in Hf as (x & -> & Hx). apply list_elem_of_lookup in Hx as [j Hj]. by exists (S j), x.
Qed.

(** The blocks of the free list, seen from an allocated block. *)
Lemma list_bounds F A hi b : blocks_ok F A hi -> A !! fst b = Some (snd b) -> forall y, y ∈ (base, 0) :: F ->
  0 <= snd y /\ 0 < fst y /\ bend y <= KERNBASE /\ fst y <> fst b.
Proof.
  intros Hbl Hb y Hy. pose proof (bo_range _ _ _ Hbl b (or_intror Hb)) as Rb. pose proof (bo_hi _ _ _ Hbl) as Hhi.
  apply elem_of_cons in Hy as [->|Hy]; [cbn; unfold bend, HEADER in *; cbn; lia|].
  pose proof (bo_range _ _ _ Hbl y (or_introl Hy)) as Ry. split; [lia|]. split; [unfold HEADER in *; lia|]. split; [lia|].
  destruct (bo_apart _ _ _ Hbl y b Hy Hb); unfold bend, HEADER in *; lia.
Qed.

Lemma small_sizes (c y : block) : 0 <= snd c -> 0 < fst c -> bend c <= KERNBASE -> 0 <= snd y -> 0 < fst y -> bend y <= KERNBASE ->
  0 <= snd c + snd y < 4294967296 /\ 0 <= bend c < 4294967296.
Proof. unfold bend, HEADER, KERNBASE. lia. Qed.

(** The two writes of [free]. *)
Lemma wp_insert h L1 p L2 b : seg h (L1 ++ p :: L2) -> (hsize h).[fst b] = snd b -> 1 <= snd b -> 0 < fst b -> bend b <= KERNBASE -> (L2 = [] -> bend b <> base) ->
  fst p < fst b -> (forall y, y ∈ L2 -> fst b < fst y) -> (forall y, y ∈ L1 -> fst y <> fst p) ->
  (forall y, y ∈ L1 ++ p :: L2 -> 0 <= snd y /\ 0 < fst y /\ bend y <= KERNBASE /\ fst y <> fst b) ->
  wp (attach (fst b) (next L2) ;;; attach (fst p) (fst b)) (fun _ h' => seg h' (L1 ++ join p (join b L2)) /\ same_off [fst b; fst p] h h' /\
    freep h' = freep h /\ brk h' = brk h) h.
Proof.
  intros Hseg Hbs Hb1 Hb2 Hb3 Hend Hp HL2 Hp1 HL. destruct (seg_split h L1 p L2 Hseg) as (Pp & Ps & Pseg).
  assert (forall y, y ∈ L2 -> y ∈ L1 ++ p :: L2) as Hin2 by (intros y Hy; apply elem_of_app; right; by right).
  destruct (HL p) as (Zp1 & Zp2 & Zp3 & Zp4); [apply elem_of_app; right; by left|].
  apply wp_bind. eapply wp_mono; [|apply (wp_attach h b L2 Pseg)]; [|intros y Hy; by apply HL, Hin2|done|by eapply (small_sizes b p); lia|done|].
  2:{ intros y Hy. destruct (HL y (Hin2 y Hy)) as (? & ? & ? & _). apply small_sizes; lia. }
  intros _ h1 (G1 & G2 & G3 & G4).
  assert (forall y, y ∈ join b L2 -> fst p < fst y) as Hpy.
  { intros y Hy. destruct (join_elem _ _ _ Hy) as [->|Hy']; [done|]. specialize (HL2 y Hy'). lia. }
  assert (forall y, y ∈ join b L2 -> 0 <= snd y /\ bend y <= KERNBASE) as Hjr.
  { intros y. destruct L2 as [|z L2]; cbn [join]; [intros ->%list_elem_of_singleton; lia|]. destruct (HL z (Hin2 z ltac:(by left))) as (? & ? & ? & _).
    destruct (Z.eqb_spec (bend b) (fst z)); rewrite ?elem_of_cons; intros [->|Hy]; [unfold bend, HEADER in *; cbn; lia|destruct (HL y); [apply Hin2; by right|lia]|lia|].
    destruct Hy as [->|Hy]; [done|]. destruct (HL y); [apply Hin2; by right|lia]. }
  replace (attach (fst p) (fst b)) with (attach (fst p) (next (join b L2))) by (by rewrite next_join). eapply wp_mono; [|apply (wp_attach h1 p (join b L2) G1)].
  - intros _ h2 (K1 & K2 & K3 & K4). assert (same_off [fst b; fst p] h h2) as Hsame.
    { intros a Ha. rewrite !not_elem_of_cons in Ha. destruct Ha as (Ha1 & Ha2 & _). destruct (K2 a) as [-> ->]; [by rewrite list_elem_of_singleton|]. apply G2. by rewrite list_elem_of_singleton. }
    split; [|split; [done|split; congruence]]. eapply (seg_replace [fst b; fst p] h); [done| |exact Hseg|done|apply next_join].
    intros y Hy. rewrite !not_elem_of_cons. split; [apply HL, elem_of_app; by left|]. split; [by apply Hp1|apply not_elem_of_nil].
  - intros y Hy. specialize (Hpy y Hy). lia.
  - destruct (G2 (fst p)) as [_ ->]; [rewrite list_elem_of_singleton; lia|done].
  - by eapply (small_sizes p p); lia.
  - destruct L2; cbn; [done|by destruct (_ =? _)].
  - intros y Hy. destruct (Hjr y Hy). specialize (Hpy y Hy). apply small_sizes; lia.
Qed.

(** An address of the free list is not that of an allocated block. *)
Lemma list_not_alloc F A hi a s : blocks_ok F A hi -> a ∈ base :: F.*1 -> A !! a = Some s -> False.
Proof.
  intros Hbl Hin Ha. pose proof (bo_range _ _ _ Hbl (a, s) (or_intror Ha)) as Rp. apply elem_of_cons in Hin as [->|Hin]; [cbn in Rp; unfold HEADER in *; lia|].
  apply list_elem_of_fmap in Hin as (q & Eq & Hq). pose proof (bo_range _ _ _ Hbl q (or_introl Hq)) as Rq.
  destruct (bo_apart _ _ _ Hbl q (a, s) Hq Ha) as [Hap|Hap]; unfold bend, HEADER in *; cbn in *; lia.
Qed.

Lemma sorted_distinct F A hi L1 p L2 : blocks_ok F A hi -> (base, 0) :: F = L1 ++ p :: L2 -> forall y, y ∈ L1 -> fst y <> fst p.
Proof.
  intros Hbl E y Hy. pose proof (bo_sorted _ _ _ Hbl) as Hs. rewrite E in Hs. pose proof (StronglySorted_app_1_elem_of _ _ _ y p Hs Hy ltac:(by left)) as Hyp.
  assert (0 <= snd y); [|unfold before, bend, HEADER in Hyp; lia]. assert (y ∈ (base, 0) :: F) as Hin by (rewrite E; apply elem_of_app; by left).
  apply elem_of_cons in Hin as [->|Hin]; [done|]. pose proof (bo_range _ _ _ Hbl y (or_introl Hin)). lia.
Qed.

Lemma wp_free fuel h F A b : heap_ok h F A -> A !! fst b = Some (snd b) -> (length F < fuel)%nat ->
  wp (free fuel (fst b + HEADER)) (fun _ h' => exists F', heap_ok h' F' (delete (fst b) A) /\ total F' = total F + snd b /\
    (exists e, e ∈ F' /\ snd b <= snd e) /\ (length F' <= S (length F))%nat /\ brk h' = brk h /\ same_off (fst b :: base :: F.*1) h h') h.
Proof.
  intros Hok Hb Hfuel. pose proof Hok as [Hseg Hfp Hsz Hbl]. pose proof (bo_range _ _ _ Hbl b (or_intror Hb)) as Rb. pose proof (bo_hi _ _ _ Hbl) as Hhi.
  destruct (insert_blocks F A _ b Hbl Hb) as (L1 & p & L2 & F' & E & Hp & HL2 & Hend & E' & Hbl' & Htot & Hbig & Hlen).
  destruct (list_position h F A Hok) as (j & x & Hj & Ef). pose proof (list_bounds F A _ b Hbl Hb) as HL.
  unfold free. replace (fst b + HEADER - HEADER) with (fst b) by lia. apply wp_bind, wp_gets. apply wp_bind. rewrite Ef.
  assert (((base, 0) :: F) !! length L1 = Some p) as Hpi by (rewrite E; by apply list_lookup_middle).
  eapply wp_mono; [|eapply (free_loop h F (fst b) (length L1) p Hseg (bo_sorted _ _ _ Hbl)); [intros y Hy; by apply HL| |exact Hpi|exact Hp| |exact Hj|reflexivity|]].
  2:{ unfold HEADER in *. lia. }
  2:{ intros k y Hk Hy. apply HL2. rewrite E in Hy. rewrite lookup_app_r in Hy by lia. destruct (k - length L1)%nat as [|m] eqn:Em; [lia|]. cbn in Hy. by eapply list_elem_of_lookup_2. }
  2:{ pose proof (lookup_lt_Some _ _ _ Hj). pose proof (lookup_lt_Some _ _ _ Hpi). cbn [length] in *. destruct (Nat.leb_spec j (length L1)); lia. }
  intros r h0 [-> ->]. pose proof Hseg as Hseg'. rewrite E in Hseg', HL. destruct (seg_split h L1 p L2 Hseg') as (Pp & _ & _). apply wp_bind, wp_gets. rewrite Pp.
  eapply wp_seq2; [apply (wp_insert h L1 p L2 b); try done; [by apply Hsz|lia|unfold HEADER in *; lia|lia|exact (sorted_distinct F A _ L1 p L2 Hbl E)]|].
  intros h2 (K1 & Hsame & K3 & K4). apply wp_modify. exists F'.
  assert (fst p ∈ base :: F.*1) as Hpin by (change (base :: F.*1) with (((base, 0) :: F).*1); rewrite E, fmap_app; apply elem_of_app; right; by left).
  split; [|split; [done|]; split; [done|]; split; [done|]; split; [done|]].
  - split; cbn [freep hsize brk].
    + apply (seg_frame [] h2); [by split|intros y _ Hy; by apply elem_of_nil in Hy|]. by rewrite <- E'.
    + change (base :: F'.*1) with (((base, 0) :: F').*1). rewrite <- E', fmap_app. apply elem_of_app. right.
      pose proof (next_join p (join b L2)) as En. destruct (join p (join b L2)) as [|y Q] eqn:EQ; [|cbn in En; rewrite <- En; by left].
      exfalso. destruct (join b L2); cbn in EQ; [done|]. by destruct (_ =? _).
    + intros a s Ha. apply lookup_delete_Some in Ha as [Hne Ha]. destruct (Hsame a) as [_ ->]; [|by apply Hsz].
      rewrite !not_elem_of_cons. split; [done|]. split; [|apply not_elem_of_nil]. intros ->. exact (list_not_alloc F A _ _ s Hbl Hpin Ha).
    + rewrite K4. exact Hbl'.
  - intros a Ha. cbn. apply Hsame. rewrite !not_elem_of_cons in Ha |- *. destruct Ha as (Ha1 & Ha2 & Ha3). split; [done|]. split; [|apply not_elem_of_nil]. intros ->.
    by apply elem_of_cons in Hpin as [Hp'|Hp'].
Qed.

(** What lies inside the allocated blocks is untouched. *)
Definition keeps (A : gmap Z Z) (h h' : heap) : Prop :=
  forall x a, A !! fst x = Some (snd x) -> fst x <= a < bend x -> (hptr h').[a] = (hptr h).[a] /\ (hsize h').[a] = (hsize h).[a].

Lemma same_off_keeps F A hi xs h h' : blocks_ok F A hi -> same_off xs h h' -> (forall a, a ∈ xs -> a ∈ base :: F.*1 \/ hi <= a) -> keeps A h h'.
Proof.
  intros Hbl Hs Hxs x a Hx Ha. apply Hs. intros Hin. pose proof (bo_range _ _ _ Hbl x (or_intror Hx)) as Rx.
  destruct (Hxs a Hin) as [Hin'|Hge]; [|lia]. apply elem_of_cons in Hin' as [->|Hin']; [unfold HEADER in *; lia|].
  apply list_elem_of_fmap in Hin' as (y & -> & Hy). pose proof (bo_range _ _ _ Hbl y (or_introl Hy)) as Ry.
  destruct (bo_apart _ _ _ Hbl y x Hy Hx); unfold bend, HEADER in *; lia.
Qed.

Lemma keeps_trans A h1 h2 h3 : keeps A h1 h2 -> keeps A h2 h3 -> keeps A h1 h3.
Proof. intros H1 H2 x a Hx Ha. destruct (H1 x a Hx Ha), (H2 x a Hx Ha). split; congruence. Qed.

(** ** More memory *)

(** The new memory as an allocated block, before it is given to [free]. *)
Lemma grow_ok h F A nu : heap_ok h F A -> 1 <= nu -> brk h + HEADER * nu <= KERNBASE ->
  let h1 := mkheap (hptr h) (<[brk h := nu]> (hsize h)) (freep h) (brk h + HEADER * nu) in
  heap_ok h1 F (<[brk h := nu]> A) /\ A !! brk h = None /\ keeps A h h1.
Proof.
  intros Hok Hnu Hle h1. pose proof Hok as [Hseg Hfp Hsz Hbl]. pose proof (bo_hi _ _ _ Hbl) as Hhi.
  assert (A !! brk h = None) as HN.
  { destruct (A !! brk h) as [s|] eqn:E; [|done]. pose proof (bo_range _ _ _ Hbl (brk h, s) (or_intror E)) as R. unfold bend, HEADER in *. cbn in R. lia. }
  assert (forall x : block, <[brk h := nu]> A !! fst x = Some (snd x) -> x = (brk h, nu) \/ A !! fst x = Some (snd x)) as Hins.
  { intros [a s] Hx. cbn in Hx |- *. apply lookup_insert_Some in Hx as [[<- <-]|[_ Hx]]; [by left|by right]. }
  assert (same_off [brk h] h h1) as Hsame. { intros a Ha. rewrite list_elem_of_singleton in Ha. cbn. by rewrite asel_insert_ne. }
  assert (forall x, x ∈ F \/ A !! fst x = Some (snd x) -> bend x <= brk h) as Hlow by (intros x Hx; by apply (bo_range _ _ _ Hbl x)).
  split; [|split; [done|apply (same_off_keeps F A (brk h) [brk h]); [done|done|intros a ->%list_elem_of_singleton; right; lia]]]. split.
  - apply (seg_frame [brk h] h); [done| |done]. intros x Hx Hin. apply list_elem_of_singleton in Hin.
    apply elem_of_cons in Hx as [->|Hx]; [cbn in Hin; unfold HEADER in *; lia|]. pose proof (bo_range _ _ _ Hbl x (or_introl Hx)). unfold bend, HEADER in *. lia.
  - done.
  - intros a s Ha. cbn. apply lookup_insert_Some in Ha as [[<- <-]|[Hne Ha]]; [by rewrite asel_insert_eq|]. rewrite asel_insert_ne by done. by apply Hsz.
  - cbn. split; [by apply (bo_sorted _ _ _ Hbl)| | | |unfold HEADER in *; lia].
    + intros x Hx. assert (x = (brk h, nu) \/ (x ∈ F \/ A !! fst x = Some (snd x))) as [->|Hx'] by (destruct Hx as [Hx|Hx]; [by right; left|destruct (Hins x Hx); auto]).
      * unfold bend, HEADER in *. cbn. lia.
      * pose proof (bo_range _ _ _ Hbl x Hx'). unfold HEADER in *. lia.
    + intros x y Hx Hy. destruct (Hins y Hy) as [->|Hy']; [left; cbn; apply Hlow; by left|by apply (bo_apart _ _ _ Hbl)].
    + intros x y Hx Hy Hne. destruct (Hins x Hx) as [->|Hx'], (Hins y Hy) as [->|Hy']; [done|right; cbn; apply Hlow; by right|left; cbn; apply Hlow; by right|by apply (bo_alloc _ _ _ Hbl)].
Qed.

Lemma freep_nonzero h F A : heap_ok h F A -> 0 < freep h.
Proof.
  intros [_ Hf _ Hbl]. pose proof (bo_hi _ _ _ Hbl). apply elem_of_cons in Hf as [->|Hf]; [lia|]. apply list_elem_of_fmap in Hf as (x & -> & Hx).
  pose proof (bo_range _ _ _ Hbl x (or_introl Hx)). unfold HEADER in *. lia.
Qed.

Lemma wp_morecore fuel nu h F A : heap_ok h F A -> 1 <= nu -> HEADER * nu < 2147483648 -> (length F < fuel)%nat ->
  wp (morecore fuel nu) (fun r h' => (r = 0 /\ h' = h) \/
    (r <> 0 /\ r = freep h' /\ exists F', heap_ok h' F' A /\ (exists e, e ∈ F' /\ nu <= snd e) /\ (length F' <= S (length F))%nat /\
      HEADER * total F' = HEADER * total F + (brk h' - brk h) /\ keeps A h h')) h.
Proof.
  intros Hok Hnu Hsmall Hfuel. unfold morecore. set (n := if nu <? 4096 then 4096 else nu).
  assert (nu <= n /\ 1 <= n /\ HEADER * n < 2147483648) as (Hn1 & Hn2 & Hn3) by (unfold n, HEADER in *; destruct (Z.ltb_spec nu 4096); lia).
  assert (i32 (u32 (n * HEADER)) = HEADER * n) as -> by (unfold HEADER in *; wrap_lia). clearbody n.
  pose proof (bo_hi _ _ _ (ho_blocks _ _ _ Hok)) as Hhi. apply wp_bind. unfold sbrk. apply wp_bind, wp_gets.
  destruct (sbrk_to (HEADER * n) (brk h)) as [b'|] eqn:Es; [|apply wp_ret; apply wp_ret; by left].
  apply sbrk_grows in Es as [-> Hk]; [|unfold HEADER; lia]. apply wp_bind, wp_modify, wp_ret. rewrite (proj2 (Z.eqb_neq (brk h) (-1))) by (unfold HEADER in *; lia).
  apply wp_bind, wp_modify. destruct (grow_ok h F A n Hok Hn2 Hk) as (Hok1 & HN & Hkeep). cbn [hptr hsize freep brk].
  apply wp_bind. change (brk h + HEADER) with (fst (brk h, n) + HEADER).
  eapply wp_mono; [|apply (wp_free fuel _ F _ (brk h, n) Hok1); [by rewrite lookup_insert_eq|done]].
  intros _ h2 (F' & Hok2 & Ht & (e & He & Hse) & Hl & Hb & Hsame). cbn [fst snd brk] in *. rewrite delete_insert_id in Hok2 by done. apply wp_gets. right.
  pose proof (freep_nonzero _ _ _ Hok2). split; [lia|]. split; [done|]. exists F'. split; [done|]. split; [exists e; split; [done|lia]|]. split; [done|]. split; [lia|].
  eapply keeps_trans; [exact Hkeep|]. apply (same_off_keeps F A (brk h) (brk h :: base :: F.*1)); [apply (ho_blocks _ _ _ Hok)|done|].
  intros a Ha. apply elem_of_cons in Ha as [->|Ha]; [right; lia|by left].
Qed.

(** ** Taking a block *)

(** What is left of [p] when its last [n] units are taken. *)
Definition left_of (p : block) (n : Z) : list block := if snd p =? n then [] else [(fst p, snd p - n)].

Lemma left_of_elem p n e : 1 <= n <= snd p -> e ∈ left_of p n -> fst e = fst p /\ 1 <= snd e /\ bend e = fst p + HEADER * (snd p - n).
Proof.
  unfold left_of. intros Hn. destruct (Z.eqb_spec (snd p) n); [by intros ?%elem_of_nil|]. intros ->%list_elem_of_singleton. cbn. split; [done|]. split; [lia|done].
Qed.

Lemma shrink_blocks X p L2 A hi n : blocks_ok (X ++ p :: L2) A hi -> 1 <= n <= snd p -> let a := fst p + HEADER * (snd p - n) in
  blocks_ok (X ++ left_of p n ++ L2) (<[a := n]> A) hi /\ A !! a = None.
Proof.
  intros Hbl Hn a. pose proof (bo_sorted _ _ _ Hbl) as Hs. change ((base, 0) :: X ++ p :: L2) with (((base, 0) :: X) ++ p :: L2) in Hs.
  assert (p ∈ X ++ p :: L2) as Hp by (apply elem_of_app; right; by left). pose proof (bo_range _ _ _ Hbl p (or_introl Hp)) as Rp.
  pose proof (StronglySorted_app_1_l _ _ _ Hs) as Hs1. pose proof (StronglySorted_app_1_r _ _ _ Hs) as Hs2. apply StronglySorted_cons in Hs2 as [Hp2 Hs2].
  rewrite Forall_forall in Hp2. assert (forall y, y ∈ (base, 0) :: X -> before y p) as Hp1 by (intros y Hy; eapply StronglySorted_app_1_elem_of; [exact Hs|done|by left]).
  assert (bend (a, n) = bend p /\ fst p <= a) as [Ez Ha] by (unfold bend, a, HEADER in *; cbn; lia).
  assert (forall y, y ∈ X ++ left_of p n ++ L2 -> y ∈ X \/ y ∈ L2 \/ y ∈ left_of p n) as Hcases by (intros y; rewrite !elem_of_app; tauto).
  assert (forall y, y ∈ X \/ y ∈ L2 -> y ∈ X ++ p :: L2) as Hin by (intros y; rewrite elem_of_app, elem_of_cons; tauto).
  assert (forall y s, A !! y = Some s -> apart (a, n) (y, s) /\ forall e, e ∈ left_of p n -> apart e (y, s)) as HA.
  { intros y s Hy. pose proof (bo_range _ _ _ Hbl (y, s) (or_intror Hy)) as Ry. pose proof (bo_apart _ _ _ Hbl p (y, s) Hp Hy) as Hap. cbn [fst snd] in *.
    split; [unfold apart, bend, a, HEADER in *; cbn [fst snd] in *; lia|]. intros e He. destruct (left_of_elem p n e Hn He) as (E1 & E2 & E3).
    unfold apart, bend, a, HEADER in *. cbn [fst snd] in *. lia. }
  assert (A !! a = None) as HN.
  { destruct (A !! a) as [s|] eqn:E; [|done]. exfalso. pose proof (bo_range _ _ _ Hbl (a, s) (or_intror E)) as R. destruct (HA a s E) as [Hap _].
    unfold apart, bend, HEADER in *. cbn in *. lia. }
  assert (forall x : block, <[a := n]> A !! fst x = Some (snd x) -> x = (a, n) \/ A !! fst x = Some (snd x)) as Hins.
  { intros [b s] Hx. cbn in Hx |- *. apply lookup_insert_Some in Hx as [[<- <-]|[_ Hx]]; [by left|by right]. }
  split; [|done]. split; [| | | |by apply (bo_hi _ _ _ Hbl)].
  - change ((base, 0) :: X ++ left_of p n ++ L2) with (((base, 0) :: X) ++ left_of p n ++ L2). apply StronglySorted_app_2; [|done|].
    + intros y e Hy He. specialize (Hp1 y Hy). apply elem_of_app in He as [He|He]; [destruct (left_of_elem p n e Hn He) as (E1 & _); unfold before in *; lia|].
      specialize (Hp2 e He). unfold before, bend, HEADER in *. lia.
    + apply StronglySorted_app_2; [|unfold left_of; destruct (_ =? _); by repeat constructor|done].
      intros y e Hy He. destruct (left_of_elem p n y Hn Hy) as (E1 & _ & E3). specialize (Hp2 e He). unfold before, bend, HEADER in *. lia.
  - intros x [Hx|Hx].
    + apply Hcases in Hx as [Hx|[Hx|Hx]]; [by apply (bo_range _ _ _ Hbl); left; apply Hin; left|by apply (bo_range _ _ _ Hbl); left; apply Hin; right|].
      destruct (left_of_elem p n x Hn Hx) as (E1 & E2 & E3). unfold bend, HEADER in *. lia.
    + apply Hins in Hx as [->|Hx]; [|apply (bo_range _ _ _ Hbl); by right]. cbn [fst snd]. rewrite Ez. unfold HEADER in *. lia.
  - intros x y Hx Hy. apply Hins in Hy as [->|Hy].
    + apply Hcases in Hx as [Hx|[Hx|Hx]].
      * left. cbn. specialize (Hp1 x ltac:(by right)). unfold before in Hp1. lia.
      * right. rewrite Ez. specialize (Hp2 x Hx). unfold before in Hp2. lia.
      * left. cbn. destruct (left_of_elem p n x Hn Hx) as (_ & _ & E3). unfold a. lia.
    + destruct y as [y s]. cbn [fst snd] in Hy. apply Hcases in Hx as [Hx|[Hx|Hx]]; [by apply (bo_apart _ _ _ Hbl); [apply Hin; left|]|by apply (bo_apart _ _ _ Hbl); [apply Hin; right|]|by apply (HA y s Hy)].
  - intros [x s] [y t] Hx Hy Hne. cbn [fst snd] in *. apply (Hins (x, s)) in Hx as [[= -> ->]|Hx]; apply (Hins (y, t)) in Hy as [[= -> ->]|Hy]; [done|exact (proj1 (HA y t Hy))| |by apply (bo_alloc _ _ _ Hbl)].
    cbn [fst snd] in Hx. destruct (HA x s Hx) as [H1 _]. unfold apart in *. tauto.
Qed.

Lemma total_left p n : total (left_of p n) = snd p - n.
Proof. unfold left_of. destruct (Z.eqb_spec (snd p) n); cbn; lia. Qed.

(** The headers after [p], which [q] points to, has been taken from. *)
Lemma seg_taken h h' Y q p L2 n a : seg h (Y ++ q :: p :: L2) -> same_off [fst q; fst p; a] h h' -> a ∉ (Y ++ q :: left_of p n ++ L2).*1 ->
  (forall y, y ∈ Y \/ y ∈ L2 -> fst y <> fst q /\ fst y <> fst p) ->
  (hptr h').[fst q] = next (left_of p n ++ L2) -> (hsize h').[fst q] = snd q ->
  (snd p <> n -> (hptr h').[fst p] = next L2 /\ (hsize h').[fst p] = snd p - n) -> seg h' (Y ++ q :: left_of p n ++ L2).
Proof.
  intros Hseg Hsame Ha Hne Hq1 Hq2 Hp. destruct (seg_split h Y q (p :: L2) Hseg) as (_ & _ & _ & _ & HL2).
  rewrite fmap_app in Ha. cbn in Ha. rewrite fmap_app in Ha. rewrite elem_of_app, elem_of_cons, elem_of_app in Ha.
  assert (forall y, y ∈ Y \/ y ∈ L2 -> fst y ∉ [fst q; fst p; a]) as Hout.
  { intros y Hy. destruct (Hne y Hy) as [H1 H2]. rewrite !not_elem_of_cons. split; [done|]. split; [done|]. split; [|apply not_elem_of_nil].
    intros Ey. apply Ha. destruct Hy as [Hy|Hy]; [left|right; right; right]; rewrite <- Ey; by apply list_elem_of_fmap_2. }
  eapply (seg_replace _ h); [exact Hsame|intros y Hy; apply Hout; by left|exact Hseg| |done].
  cbn [seg]. split; [done|]. split; [done|]. assert (seg h' L2) as HL2' by (eapply seg_frame; [exact Hsame|intros y Hy; apply Hout; by right|done]).
  unfold left_of in *. destruct (Z.eqb_spec (snd p) n) as [E|Hpn]; cbn [app]; [done|]. destruct (Hp Hpn) as [P1 P2]. cbn. by split.
Qed.

(** Taking does not touch the other allocated blocks. *)
Lemma taken_keeps h h' F A hi p n (q : block) : blocks_ok F A hi -> p ∈ F -> 1 <= n <= snd p -> fst q ∈ base :: F.*1 ->
  same_off [fst q; fst p; fst p + HEADER * (snd p - n)] h h' -> keeps A h h'.
Proof.
  intros Hbl Hp Hn Hq Hsame x b Hx Hb. apply Hsame. rewrite !not_elem_of_cons. pose proof (bo_range _ _ _ Hbl x (or_intror Hx)) as Rx.
  pose proof (bo_range _ _ _ Hbl p (or_introl Hp)) as Rp. pose proof (bo_apart _ _ _ Hbl p x Hp Hx) as Hap.
  split; [|split; [unfold apart, bend, HEADER in *; lia|split; [unfold apart, bend, HEADER in *; lia|apply not_elem_of_nil]]].
  intros ->. apply elem_of_cons in Hq as [Eq|Hq]; [unfold HEADER in *; lia|]. apply list_elem_of_fmap in Hq as (y & Ey & Hy).
  pose proof (bo_range _ _ _ Hbl y (or_introl Hy)) as Ry. destruct (bo_apart _ _ _ Hbl y x Hy Hx); unfold bend, HEADER in *; lia.
Qed.

(** The writes of a taking, in one state. *)
Definition taken (h h' : heap) (q p : block) (n nx : Z) : Prop :=
  let a := fst p + HEADER * (snd p - n) in
  same_off [fst q; fst p; a] h h' /\ (hsize h').[a] = n /\ freep h' = fst q /\ brk h' = brk h /\ (hsize h').[fst q] = (hsize h).[fst q] /\
  if snd p =? n then (hptr h').[fst q] = nx
  else (hptr h').[fst q] = (hptr h).[fst q] /\ (hptr h').[fst p] = nx /\ (hsize h').[fst p] = snd p - n.

Lemma wp_take_writes fuel h (q p : block) n nx : (hsize h).[fst p] = snd p -> (hptr h).[fst p] = nx -> 1 <= n <= snd p -> 0 < fst p -> bend p <= KERNBASE ->
  fst q <> fst p -> fst q <> fst p + HEADER * (snd p - n) ->
  wp (malloc_body fuel n (fst q, fst p)) (fun r h' => r = inr (fst p + HEADER * (snd p - n) + HEADER) /\ taken h h' q p n nx) h.
Proof.
  intros Hs Hnx Hn Hp Hk Hne Hne2. unfold malloc_body, taken. apply wp_bind, wp_gets. rewrite Hs, (proj2 (Z.leb_le n (snd p))) by lia. apply wp_bind.
  destruct (Z.eqb_spec (snd p) n) as [E|Hpn].
  - apply wp_bind, wp_gets. apply wp_bind, wp_modify, wp_ret. apply wp_bind, wp_modify, wp_ret. rewrite E, Z.sub_diag, Z.mul_0_r, Z.add_0_r. split; [done|]. cbn.
    rewrite Hnx, asel_insert_eq. split; [|split; [congruence|done]]. intros b. rewrite not_elem_of_cons. intros [Hb _]. cbn. by rewrite asel_insert_ne.
  - apply wp_bind, wp_modify. apply wp_bind, wp_gets. cbn [hsize]. rewrite asel_insert_eq. unfold bend, HEADER, KERNBASE in *.
    assert (u32 (snd p - n) = snd p - n) as -> by (apply u32_small; lia). cbn zeta. unfold plus, HEADER. rewrite u32_small by lia.
    apply wp_bind, wp_modify, wp_ret. apply wp_bind, wp_modify, wp_ret. split; [done|]. cbn. rewrite asel_insert_eq.
    rewrite !(asel_insert_ne _ _ (fst q)) by done. rewrite (asel_insert_ne _ _ (fst p)) by lia. rewrite asel_insert_eq. split; [|done].
    intros b. rewrite !not_elem_of_cons. intros (H1 & H2 & H3 & _). cbn. by rewrite !asel_insert_ne by done.
Qed.

Lemma wp_take fuel h X p L2 A n q : heap_ok h (X ++ p :: L2) A -> 1 <= n <= snd p -> last ((base, 0) :: X) = Some q ->
  let a := fst p + HEADER * (snd p - n) in
  wp (malloc_body fuel n (fst q, fst p)) (fun r h' => r = inr (a + HEADER) /\ A !! a = None /\
    heap_ok h' (X ++ left_of p n ++ L2) (<[a := n]> A) /\ keeps A h h' /\ brk h' = brk h) h.
Proof.
  intros Hok Hn Hlast a. pose proof Hok as [Hseg Hfp Hsz Hbl]. destruct (shrink_blocks X p L2 A _ n Hbl Hn) as [Hbl' HN]. fold a in Hbl', HN.
  apply last_Some in Hlast as [Y EY]. assert ((base, 0) :: X ++ p :: L2 = Y ++ q :: p :: L2) as EL.
  { change ((base, 0) :: X ++ p :: L2) with (((base, 0) :: X) ++ p :: L2). rewrite EY, <- app_assoc. done. }
  pose proof Hseg as Hseg'. rewrite EL in Hseg'. destruct (seg_split h Y q (p :: L2) Hseg') as (Pq1 & Pq2 & Pp1 & Pp2 & _).
  assert (p ∈ X ++ p :: L2) as HpF by (apply elem_of_app; right; by left). pose proof (bo_range _ _ _ Hbl p (or_introl HpF)) as Rp. pose proof (bo_hi _ _ _ Hbl) as Hhi.
  pose proof (bo_sorted _ _ _ Hbl) as Hs. rewrite EL in Hs.
  assert (forall y, y ∈ Y ++ q :: p :: L2 -> 0 <= snd y) as Hnn.
  { rewrite <- EL. intros y Hy. apply elem_of_cons in Hy as [->|Hy]; [done|]. pose proof (bo_range _ _ _ Hbl y (or_introl Hy)). lia. }
  assert (before q p) as Hqp by (apply StronglySorted_app_1_r, StronglySorted_cons in Hs as [Hs _]; apply Forall_cons in Hs as [Hs _]; done).
  assert (0 <= snd q) as Hq0 by (apply Hnn, elem_of_app; right; by left).
  assert (forall y, y ∈ Y -> fst y < fst q) as HY.
  { intros y Hy. pose proof (StronglySorted_app_1_elem_of _ _ _ y q Hs Hy ltac:(by left)) as H1. assert (0 <= snd y) by (apply Hnn, elem_of_app; by left). unfold before, bend, HEADER in H1. lia. }
  assert (forall y, y ∈ L2 -> bend p < fst y) as HL2.
  { apply StronglySorted_app_1_r, StronglySorted_cons in Hs as [_ Hs]. apply StronglySorted_cons in Hs as [Hs _]. rewrite Forall_forall in Hs. exact Hs. }
  assert (fst q ∈ base :: (X ++ p :: L2).*1) as Hqin.
  { change (base :: (X ++ p :: L2).*1) with (((base, 0) :: X ++ p :: L2).*1). rewrite EL. apply list_elem_of_fmap_2, elem_of_app. right. by left. }
  eapply wp_mono; [|apply (wp_take_writes fuel h q p n (next L2)); [done|done|done|unfold HEADER in *; lia|lia| |]]; [|unfold before, bend, HEADER in *; lia..].
  intros r h' (-> & Hsame & T1 & T2 & T3 & T4 & T5). fold a in Hsame, T1. split; [done|]. split; [done|]. split; [|split; [by eapply (taken_keeps h h' (X ++ p :: L2))|done]].
  assert (a ∉ ((base, 0) :: X ++ left_of p n ++ L2).*1) as Hafresh.
  { intros Hin. eapply (list_not_alloc _ _ _ a n Hbl'); [exact Hin|by rewrite lookup_insert_eq]. }
  assert ((base, 0) :: X ++ left_of p n ++ L2 = Y ++ q :: left_of p n ++ L2) as EL'.
  { change ((base, 0) :: X ++ left_of p n ++ L2) with (((base, 0) :: X) ++ left_of p n ++ L2). rewrite EY, <- app_assoc. done. }
  split.
  - rewrite EL'. rewrite EL' in Hafresh. eapply (seg_taken h); [exact Hseg'|exact Hsame|done| | |congruence|].
    + intros y [Hy|Hy]; [specialize (HY y Hy)|specialize (HL2 y Hy)]; unfold before, bend, HEADER in *; lia.
    + unfold left_of. destruct (Z.eqb_spec (snd p) n); [done|]. destruct T5 as (-> & _). done.
    + intros Hpn. rewrite (proj2 (Z.eqb_neq _ _) Hpn) in T5. by destruct T5.
  - rewrite T2. change (base :: (X ++ left_of p n ++ L2).*1) with (((base, 0) :: X ++ left_of p n ++ L2).*1). rewrite EL'. apply list_elem_of_fmap_2, elem_of_app. right. by left.
  - intros b s Hb. apply lookup_insert_Some in Hb as [[<- <-]|[Hne Hb]]; [done|]. destruct (Hsame b) as [_ ->]; [|by apply Hsz].
    rewrite !not_elem_of_cons. split; [|split; [|split; [done|apply not_elem_of_nil]]]; intros ->; eapply (list_not_alloc _ _ _ _ s Hbl); [exact Hqin|done| |done].
    right. by apply list_elem_of_fmap_2.
  - by rewrite T3.
Qed.

(** ** The search *)

(** A block of [n] units. *)
Definition got_block (h : heap) (F : list block) (A : gmap Z Z) (n r : Z) (h' : heap) : Prop :=
  exists a F', r = a + HEADER /\ A !! a = None /\ heap_ok h' F' (<[a := n]> A) /\ keeps A h h' /\
    HEADER * (total F' + n) = HEADER * total F + (brk h' - brk h).

(** Positions in the circular list of [k] blocks, [t] steps after [f]. *)
Definition pos (k f t : nat) : nat := if (f + t <? k)%nat then (f + t)%nat else (f + t - k)%nat.

Lemma pos_lt k f t : (f < k)%nat -> (t <= k)%nat -> (pos k f t < k)%nat.
Proof. intros Hf Ht. unfold pos. destruct (Nat.ltb_spec (f + t) k); lia. Qed.

Lemma pos_back k f t : (f < k)%nat -> (0 < t <= k)%nat -> pos k f t = f <-> t = k.
Proof. intros Hf Ht. unfold pos. destruct (Nat.ltb_spec (f + t) k); lia. Qed.

Lemma pos_next k f t : (f < k)%nat -> (t < k)%nat -> pos k f (S t) = S (pos k f t) \/ (pos k f (S t) = 0%nat /\ S (pos k f t) = k).
Proof. intros Hf Ht. unfold pos. destruct (Nat.ltb_spec (f + t) k), (Nat.ltb_spec (f + S t) k); lia. Qed.

Section Search.

Context (h : heap) (F : list block) (A : gmap Z Z) (f : nat) (xf : block) (n : Z) (fuel : nat).
Hypotheses (Hok : heap_ok h F A) (Hf : ((base, 0) :: F) !! f = Some xf) (Hfreep : freep h = fst xf) (Hn : 1 <= n).

Abbreviation L := ((base, 0) :: F).
Abbreviation k := (length L).

Lemma addr_inj i j x y : L !! i = Some x -> L !! j = Some y -> fst x = fst y -> i = j.
Proof.
  intros Hx Hy E. pose proof (bo_sorted _ _ _ (ho_blocks _ _ _ Hok)) as Hs.
  assert (forall y, y ∈ L -> 0 <= snd y) as Hnn.
  { intros z Hz. apply elem_of_cons in Hz as [->|Hz]; [done|]. pose proof (bo_range _ _ _ (ho_blocks _ _ _ Hok) z (or_introl Hz)). lia. }
  destruct (lt_eq_lt_dec i j) as [[Hij|Hij]|Hij]; [|done|].
  - pose proof (sorted_lookup _ _ _ _ _ Hs Hij Hx Hy) as Hb. specialize (Hnn x ltac:(by eapply list_elem_of_lookup_2)). unfold before, bend, HEADER in Hb. lia.
  - pose proof (sorted_lookup _ _ _ _ _ Hs Hij Hy Hx) as Hb. specialize (Hnn y ltac:(by eapply list_elem_of_lookup_2)). unfold before, bend, HEADER in Hb. lia.
Qed.

(** The block [t + 1] steps after [f] is looked at: taken if it fits. *)
Lemma look_fits t q p : (t < k)%nat -> L !! pos k f t = Some q -> L !! pos k f (S t) = Some p -> n <= snd p ->
  wp (malloc_body fuel n (fst q, fst p)) (fun r h' => exists v, r = inr v /\ got_block h F A n v h') h.
Proof.
  intros Ht Hq Hp Hfit. assert (exists j, pos k f t = j /\ pos k f (S t) = S j) as (j & Ej & ESj).
  { exists (pos k f t). split; [done|]. pose proof (lookup_lt_Some _ _ _ Hf). destruct (pos_next k f t) as [E|[E _]]; [done|done|done|].
    rewrite E in Hp. injection Hp as <-. cbn in Hfit. lia. }
  rewrite Ej in Hq. rewrite ESj in Hp. cbn in Hp. pose proof (take_drop_middle F j p Hp) as EF.
  eapply wp_mono; [|apply (wp_take fuel h (take j F) p (drop (S j) F) A n q); [by rewrite EF|done|]].
  - intros r h' (-> & HN & Hok' & Hkeep & Hb). eexists. split; [done|]. do 2 eexists. split; [done|]. split; [done|]. split; [exact Hok'|]. split; [done|].
    assert (total F = total (take j F) + (snd p + total (drop (S j) F))) as -> by (rewrite <- EF at 1; by rewrite total_app).
    rewrite !total_app, total_left, Hb. unfold HEADER. lia.
  - rewrite last_lookup. rewrite <- Hq. pose proof (lookup_lt_Some _ _ _ Hp). cbn [length]. rewrite length_take_le by lia. cbn [Nat.pred].
    change ((base, 0) :: take j F) with (take (S j) L). by rewrite lookup_take_lt by lia.
Qed.

(** Otherwise the search goes on, unless it is back at [f]. *)
Lemma look_next t (q p p2 : block) : (S t < k)%nat -> L !! pos k f (S t) = Some p -> L !! pos k f (S (S t)) = Some p2 -> snd p < n ->
  malloc_body fuel n (fst q, fst p) h = Ret (inl (fst p, fst p2)) h.
Proof.
  intros Ht Hp Hp2 Hsm. destruct (seg_lookup h L _ p (ho_seg _ _ _ Hok) Hp) as [Es Ep]. pose proof (lookup_lt_Some _ _ _ Hf) as Hfl.
  unfold malloc_body. eapply bind_step; [reflexivity|]. cbn beta. rewrite Es, (proj2 (Z.leb_gt n (snd p))) by lia.
  eapply bind_step; [reflexivity|]. cbn beta. rewrite Hfreep.
  rewrite (proj2 (Z.eqb_neq (fst p) (fst xf))).
  2:{ intros E. apply (addr_inj _ _ _ _ Hp Hf) in E. apply pos_back in E; lia. }
  eapply bind_step; [reflexivity|]. cbn beta. rewrite Ep. unfold ret. repeat f_equal. destruct (pos_next k f (S t)) as [E|[E1 E2]]; [done|done| |].
  - rewrite E in Hp2. by rewrite Hp2.
  - rewrite E1 in Hp2. injection Hp2 as <-. rewrite (lookup_ge_None_2 L) by lia. done.
Qed.

Lemma pos_some t : (t <= k)%nat -> exists x, L !! pos k f t = Some x.
Proof.
  intros Ht. pose proof (lookup_lt_Some _ _ _ Hf). by apply lookup_lt_is_Some_2, pos_lt.
Qed.

(** A block that fits is found before the search is back. *)
Lemma search_finds d : forall t q p fuel2, (t + d < k)%nat -> L !! pos k f t = Some q -> L !! pos k f (S t) = Some p ->
  (exists y, L !! pos k f (S (t + d)) = Some y /\ n <= snd y) -> (d < fuel2)%nat ->
  wp (iter fuel2 (malloc_body fuel n) (fst q, fst p)) (got_block h F A n) h.
Proof.
  induction d as [|d IH]; intros t q p fuel2 Ht Hq Hp Hfit Hfuel; (destruct fuel2 as [|fuel2]; [lia|]); cbn [iter]; apply wp_bind;
    (destruct (decide (n <= snd p)) as [Hle|Hgt]; [eapply wp_mono; [|apply (look_fits t q p); [lia|done|done|done]]; intros r h' (v & -> & Hv); by apply wp_ret|]).
  - destruct Hfit as (y & Hy & Hle). rewrite Nat.add_0_r in Hy. assert (y = p) as -> by congruence. lia.
  - destruct (pos_some (S (S t))) as [p2 Hp2]; [lia|]. eapply wp_of_eq; [eapply look_next; [|done|done|lia]; lia|]. cbn beta iota.
    apply (IH (S t) p p2); [lia|done|done| |lia]. by replace (S (S t + d)) with (S (t + S d)) by lia.
Qed.

(** The block at [f] is the last one looked at: more memory, or none. *)
Lemma look_last (q : block) : (length F < fuel)%nat -> snd xf < n -> HEADER * n < 2147483648 ->
  wp (malloc_body fuel n (fst q, fst xf)) (fun r h' => (r = inr 0 /\ h' = h) \/
    exists F', r = inl (freep h', (hptr h').[freep h']) /\ heap_ok h' F' A /\ (exists e, e ∈ F' /\ n <= snd e) /\ (length F' <= S (length F))%nat /\
      HEADER * total F' = HEADER * total F + (brk h' - brk h) /\ keeps A h h') h.
Proof.
  intros Hfuel Hsm Hsmall. destruct (seg_lookup h L f xf (ho_seg _ _ _ Hok) Hf) as [Es _]. unfold malloc_body.
  apply wp_bind, wp_gets. rewrite Es, (proj2 (Z.leb_gt n (snd xf))) by lia. apply wp_bind, wp_gets. rewrite Hfreep, Z.eqb_refl.
  apply wp_bind. eapply wp_mono; [|by apply (wp_morecore fuel n h F A)]. intros r h' [[-> ->]|(Hr & -> & F' & H1 & H2 & H3 & H4 & H5)].
  - apply wp_ret. by left.
  - rewrite (proj2 (Z.eqb_neq _ 0)) by done. apply wp_bind, wp_gets, wp_ret. right. by exists F'.
Qed.

End Search.

Lemma pos_onto k f i : (f < k)%nat -> (i < k)%nat -> exists d, (d < k)%nat /\ pos k f (S d) = i.
Proof.
  intros Hf Hi. exists (if f <? i then i - f - 1 else i + k - f - 1)%nat. unfold pos.
  destruct (Nat.ltb_spec f i); [destruct (Nat.ltb_spec (f + S (i - f - 1)) k)|destruct (Nat.ltb_spec (f + S (i + k - f - 1)) k)]; lia.
Qed.

Lemma pos_zero k f : (f < k)%nat -> pos k f 0 = f.
Proof. intros Hf. unfold pos. by rewrite Nat.add_0_r, (proj2 (Nat.ltb_lt f k) Hf). Qed.

Lemma freep_next h F A f (xf p : block) : heap_ok h F A -> ((base, 0) :: F) !! f = Some xf -> freep h = fst xf ->
  ((base, 0) :: F) !! pos (length ((base, 0) :: F)) f 1 = Some p -> (hptr h).[freep h] = fst p.
Proof.
  intros Hok Hf Ef Hp. pose proof (lookup_lt_Some _ _ _ Hf) as Hfl. rewrite Ef. destruct (seg_lookup h _ f xf (ho_seg _ _ _ Hok) Hf) as [_ ->].
  destruct (pos_next (length ((base, 0) :: F)) f 0) as [E|[E1 E2]]; [done|cbn; lia| |].
  - rewrite E, pos_zero in Hp by done. by rewrite Hp.
  - rewrite E1 in Hp. injection Hp as <-. rewrite pos_zero in E2 by done. by rewrite (lookup_ge_None_2 _ (S f)) by lia.
Qed.

(** The search from [freep] when some block fits. *)
Lemma search_from h F A n fuel fuel2 : heap_ok h F A -> 1 <= n -> (exists e, e ∈ F /\ n <= snd e) -> (length F < fuel2)%nat ->
  wp (iter fuel2 (malloc_body fuel n) (freep h, (hptr h).[freep h])) (got_block h F A n) h.
Proof.
  intros Hok Hn (e & He & Hle) Hfuel. destruct (list_position h F A Hok) as (f & xf & Hf & Ef). pose proof (lookup_lt_Some _ _ _ Hf) as Hfl.
  apply list_elem_of_lookup in He as [i Hi]. pose proof (lookup_lt_Some _ _ _ Hi) as Hil.
  destruct (pos_onto (length ((base, 0) :: F)) f (S i)) as (d & Hd & Ed); [done|cbn; lia|].
  destruct (pos_some F f xf Hf 1%nat) as [p Hp]; [cbn; lia|].
  rewrite (freep_next h F A f xf p Hok Hf Ef Hp).
  rewrite Ef. apply (search_finds h F A f xf n fuel Hok Hf Ef Hn d 0 xf p); [done| |done| |cbn in Hd; lia].
  - by rewrite pos_zero.
  - exists e. split; [|done]. cbn [Nat.add]. rewrite Ed. done.
Qed.

(** The search from [freep] in any case: one lap, more memory, and another. *)
Lemma search_lap h F A n fuel f (xf : block) : heap_ok h F A -> ((base, 0) :: F) !! f = Some xf -> freep h = fst xf -> 1 <= n -> HEADER * n < 2147483648 -> (length F < fuel)%nat ->
  forall d t q p fuel2, (S (t + d))%nat = length ((base, 0) :: F) -> ((base, 0) :: F) !! pos (length ((base, 0) :: F)) f t = Some q ->
  ((base, 0) :: F) !! pos (length ((base, 0) :: F)) f (S t) = Some p -> (d + length F + 3 < fuel2)%nat ->
  wp (iter fuel2 (malloc_body fuel n) (fst q, fst p)) (fun r h' => (r = 0 /\ h' = h) \/ got_block h F A n r h') h.
Proof.
  intros Hok Hf Hfreep Hn Hsmall Hfuel. pose proof (lookup_lt_Some _ _ _ Hf) as Hfl. set (k := length ((base, 0) :: F)) in *.
  induction d as [|d IH]; intros t q p fuel2 Ht Hq Hp Hfuel2; (destruct fuel2 as [|fuel2]; [lia|]); cbn [iter]; apply wp_bind;
    (destruct (decide (n <= snd p)) as [Hle|Hgt];
     [eapply wp_mono; [|apply (look_fits h F A f xf n fuel Hok Hf Hn t q p); [lia|done|done|done]]; intros r h' (v & -> & Hv); apply wp_ret; by right|]).
  - assert (pos k f (S t) = f) as E by (apply pos_back; lia). rewrite E in Hp. assert (p = xf) as -> by congruence.
    eapply wp_mono; [|apply (look_last h F A f xf n fuel Hok Hf Hfreep Hn q); [done|lia|done]].
    intros r h' [[-> ->]|(F' & -> & Hok' & Hex & Hl & Ht' & Hk)]; [apply wp_ret; by left|]. cbn beta iota.
    eapply wp_mono; [|apply (search_from h' F' A n fuel fuel2 Hok' Hn Hex); lia].
    intros v h'' (a & F'' & -> & HN & Hok'' & Hk'' & Ht''). right. exists a, F''. split; [done|]. split; [done|]. split; [done|]. split; [by eapply keeps_trans|lia].
  - destruct (pos_some F f xf Hf (S (S t))) as [p2 Hp2]; [fold k; lia|]. eapply wp_of_eq; [eapply (look_next h F A f xf n fuel Hok Hf Hfreep t q p p2); [fold k; lia|done|done|lia]|]. cbn beta iota.
    apply (IH (S t) p p2); [lia|done|done|lia].
Qed.

(** ** [malloc] and [free] *)

(** The heap, or the state before the first call. *)
Definition heap_state (h : heap) (F : list block) (A : gmap Z Z) : Prop :=
  heap_ok h F A \/ (freep h = 0 /\ F = [] /\ A = ∅ /\ 0 < base /\ base + HEADER <= brk h <= KERNBASE).

Lemma init_ok h : 0 < base -> base + HEADER <= brk h <= KERNBASE ->
  heap_ok (mkheap (<[base := base]> (hptr h)) (<[base := 0]> (hsize h)) base (brk h)) [] ∅.
Proof.
  intros Hb Hk. split; cbn.
  - by rewrite !asel_insert_eq.
  - by left.
  - done.
  - split; [by repeat constructor| |intros x y Hx; by apply elem_of_nil in Hx|done|done]. intros x [Hx|Hx]; [by apply elem_of_nil in Hx|done].
Qed.

Lemma units_spec nbytes : 0 <= nbytes < 2147483632 -> 1 <= units nbytes /\ nbytes <= HEADER * (units nbytes - 1) < nbytes + HEADER /\ HEADER * units nbytes < 2147483648.
Proof. intros Hn. unfold units, HEADER. rewrite u32_small by lia. Z.to_euclidean_division_equations. lia. Qed.

Lemma search_ok h F A n fuel : heap_ok h F A -> 1 <= n -> HEADER * n < 2147483648 -> (2 * length F + 4 < fuel)%nat ->
  wp (let* prevp := gets freep in let* p := ptr prevp in iter fuel (malloc_body fuel n) (prevp, p)) (fun r h' => (r = 0 /\ h' = h) \/ got_block h F A n r h') h.
Proof.
  intros Hok Hn Hsmall Hfuel. apply wp_bind, wp_gets. apply wp_bind, wp_gets.
  destruct (list_position h F A Hok) as (f & xf & Hf & Ef). pose proof (lookup_lt_Some _ _ _ Hf) as Hfl.
  destruct (pos_some F f xf Hf 1%nat) as [p Hp]; [cbn; lia|].
  rewrite (freep_next h F A f xf p Hok Hf Ef Hp).
  rewrite Ef. apply (search_lap h F A n fuel f xf Hok Hf Ef Hn Hsmall ltac:(lia) (length F) 0 xf p); [done|by rewrite pos_zero|done|lia].
Qed.

Lemma wp_malloc h F A nbytes fuel : heap_state h F A -> 0 <= nbytes < 2147483632 -> (2 * length F + 4 < fuel)%nat ->
  wp (malloc fuel nbytes) (fun r h' => (r = 0 /\ heap_ok h' F A /\ keeps A h h' /\ brk h' = brk h) \/ got_block h F A (units nbytes) r h') h.
Proof.
  intros Hst Hn Hfuel. destruct (units_spec nbytes Hn) as (U1 & _ & U2). unfold malloc. apply wp_bind, wp_gets. apply wp_bind.
  destruct Hst as [Hok|(H0 & -> & -> & Hb & Hk)].
  - pose proof (freep_nonzero h F A Hok). apply wp_when; intros E; [lia|]. eapply wp_mono; [|by apply (search_ok h F A)].
    intros r h' [[-> ->]|Hr]; [left|by right]. split; [done|]. split; [done|]. split; [by intros x a _ _|done].
  - rewrite H0. apply wp_when; intros E; [|done]. apply wp_bind, wp_modify. apply wp_bind, wp_modify, wp_modify. cbn [hptr hsize freep brk].
    eapply wp_mono; [|apply (search_ok _ [] ∅ _ fuel (init_ok h Hb Hk)); done].
    intros r h' [[-> ->]|(a & F' & -> & HN & Hok' & Hk' & Ht)]; [left|right].
    + split; [done|]. split; [by apply init_ok|]. split; [by intros x a Hx|done].
    + exists a, F'. split; [done|]. split; [done|]. split; [done|]. split; [by intros x b Hx|done].
Qed.

Lemma free_keeps h h' F A b : heap_ok h F A -> A !! fst b = Some (snd b) -> same_off (fst b :: base :: F.*1) h h' -> keeps (delete (fst b) A) h h'.
Proof.
  intros Hok Hb Hsame x a Hx Ha. apply lookup_delete_Some in Hx as [Hne Hx]. pose proof (ho_blocks _ _ _ Hok) as Hbl.
  assert (same_off (base :: F.*1) h (mkheap (<[fst b := (hptr h).[fst b]]> (hptr h')) (<[fst b := (hsize h).[fst b]]> (hsize h')) (freep h') (brk h'))) as Hs2.
  { intros c Hc. cbn. rewrite !asel_insert. destruct (decide (fst b = c)) as [->|]; [done|]. apply Hsame. by rewrite not_elem_of_cons. }
  destruct (same_off_keeps F A _ _ _ _ Hbl Hs2 ltac:(by left) x a Hx Ha) as [E1 E2]. cbn in E1, E2. rewrite !asel_insert_ne in E1, E2; [done|..];
    intros <-; pose proof (bo_range _ _ _ Hbl b (or_intror Hb)); destruct (bo_alloc _ _ _ Hbl x b Hx Hb ltac:(done)); unfold bend, HEADER in *; lia.
Qed.

(** C34: The allocator of Kernighan and Ritchie, on its circular free list.
    For a request of less than two gigabytes and with fuel for two laps of
    the list, [malloc] returns: either nothing, when [sbrk] refuses, and the
    heap is as it was; or a block that was free, is apart from every
    allocated block and holds at least the bytes asked for, and no unit is
    lost.  [free] of an allocated block returns, gives all of its units
    back, and joins it with the free blocks it touches.  Neither changes
    anything inside the other allocated blocks, and the free list stays
    sorted, without touching blocks. *)
Theorem allocator_correct h F A nbytes fuel : heap_state h F A -> 0 <= nbytes < 2147483632 -> (2 * length F + 4 < fuel)%nat ->
  wp (malloc fuel nbytes) (fun r h' =>
    (r = 0 /\ heap_ok h' F A /\ keeps A h h' /\ brk h' = brk h) \/
    (exists a F', r = a + HEADER /\ nbytes <= HEADER * (units nbytes - 1) /\ A !! a = None /\ heap_ok h' F' (<[a := units nbytes]> A) /\ keeps A h h' /\
      HEADER * (total F' + units nbytes) = HEADER * total F + (brk h' - brk h))) h /\
  (forall a s, heap_ok h F A -> A !! a = Some s ->
    wp (free fuel (a + HEADER)) (fun _ h' => exists F', heap_ok h' F' (delete a A) /\ keeps (delete a A) h h' /\ total F' = total F + s /\ brk h' = brk h) h).
Proof.
  intros Hst Hn Hfuel. split.
  - eapply wp_mono; [|by apply wp_malloc]. intros r h' [Hr|(a & F' & -> & HN & Hok & Hk & Ht)]; [by left|right]. exists a, F'.
    split; [done|]. split; [by apply units_spec|done].
  - intros a s Hok Ha. eapply wp_mono; [|apply (wp_free fuel h F A (a, s)); [done|done|lia]].
    intros _ h' (F' & Hok' & Ht & _ & _ & Hb & Hsame). exists F'. split; [done|]. split; [|done]. by apply (free_keeps h h' F A (a, s)).
Qed.

End Allocator.

(** A process with a megabyte to grow. *)
#[export] Instance sbrk_example : Sbrk.
Proof. refine {| sbrk_to := fun n b => if b + n <=? 2097152 then Some (b + n) else None |}. intros n b b' Hn. destruct (Z.leb_spec (b + n) 2097152) as [Hle|]; [|done]. intros [= <-]. unfold KERNBASE. lia. Defined.

(** A first request of a hundred bytes. *)
Lemma allocator_correct_witness :
  let h := mkheap ∅ ∅ 0 8192 in
  wp (malloc 4096 10 100) (fun r h' =>
    (r = 0 /\ heap_ok 4096 h' [] ∅ /\ keeps ∅ h h' /\ brk h' = brk h) \/
    (exists a F', r = a + HEADER /\ 100 <= HEADER * (units 100 - 1) /\ (∅ : gmap Z Z) !! a = None /\ heap_ok 4096 h' F' (<[a := units 100]> ∅) /\ keeps ∅ h h' /\
      HEADER * (total F' + units 100) = HEADER * total [] + (brk h' - brk h))) h.
Proof. intros h. apply (allocator_correct 4096 h [] ∅ 100 10); [|lia|cbn; lia]. right. cbn. unfold HEADER, KERNBASE. repeat split; lia. Defined.

(** The size computation wraps around: a request of almost four gigabytes
    gets a block of one unit, which has no room at all. *)
Lemma malloc_wraps : units 4294967289 = 1 /\
  exists h', malloc 4096 10 4294967289 (mkheap ∅ ∅ 0 8192) = Ret 40960 h' /\ (hsize h').[40960 - HEADER] = 1.
Proof. split; [done|]. eexists. split; by vm_compute. Qed.
