(* ===== verification/Ide.v ===== *)
(** * The IDE disk driver ([ide.c])

    Requests wait in a queue linked through the buffers; the first one is
    active on the disk, whose registers hold its command.  The interrupt
    handler finishes it and starts the next.  [iderw] is modelled up to the
    place where it sleeps for the end of its request; a disk is its
    registers and its sectors.  The theorem: whatever the interleaving, the
    disk serves the requests in order, each in one step. *)

From stdpp Require Import base tactics numbers gmap strings list.
From Stdlib Require Import ZArith Lia.
From S2P Require Import Prelude Memory Cache Bio.

(** ** Buffers, registers and sectors *)

Definition FSSIZE : Z := 1000.
Definition SECTOR_SIZE : Z := 512.
Definition IDE_BSY : Z := 0x80.
Definition IDE_DRDY : Z := 0x40.
Definition IDE_DF : Z := 0x20.
Definition IDE_ERR : Z := 0x01.
Definition IDE_CMD_READ : Z := 0x20.
Definition IDE_CMD_WRITE : Z := 0x30.
Definition IDE_CMD_RDMUL : Z := 0xc4.
Definition IDE_CMD_WRMUL : Z := 0xc5.

Record buf := mkbuf { flags : Z; dev : Z; blockno : Z; data : list Z; qnext : Z }.
#[export] Instance buf_zero : CZero buf := mkbuf 0 0 0 [] 0.

(** [bufs] is the memory of the buffers, by address; [regs] the ports of the
    controller; [sectors] the contents of the disks; [woken] the buffers
    whose sleepers have been woken; [busy] for how many reads of its status the
    controller is still busy, and [fault] whether it then reports an error. *)
Record ide := mkide { bufs : arr buf; idequeue : Z; regs : arr Z; sectors : gmap (Z * Z) (list Z); havedisk1 : bool; woken : list Z;
  busy : nat; fault : bool }.

Definition set_bufs (f : arr buf -> arr buf) (s : ide) : ide :=
  mkide (f (bufs s)) (idequeue s) (regs s) (sectors s) (havedisk1 s) (woken s) (busy s) (fault s).
Definition set_queue (q : Z) (s : ide) : ide :=
  mkide (bufs s) q (regs s) (sectors s) (havedisk1 s) (woken s) (busy s) (fault s).
Definition set_sectors (f : gmap (Z * Z) (list Z)) (s : ide) : ide :=
  mkide (bufs s) (idequeue s) (regs s) f (havedisk1 s) (woken s) (busy s) (fault s).
Definition set_busy (n : nat) (s : ide) : ide :=
  mkide (bufs s) (idequeue s) (regs s) (sectors s) (havedisk1 s) (woken s) n (fault s).
Definition set_havedisk1 (h : bool) (s : ide) : ide :=
  mkide (bufs s) (idequeue s) (regs s) (sectors s) h (woken s) (busy s) (fault s).
Definition wake (b : Z) (s : ide) : ide :=
  mkide (bufs s) (idequeue s) (regs s) (sectors s) (havedisk1 s) (woken s ++ [b]) (busy s) (fault s).

Definition getb (b : Z) : M ide buf := gets (fun s => (bufs s).[b]).
Definition setb (b : Z) (v : buf) : M ide unit := modify (set_bufs (fun m => <[b := v]> m)).

Section Driver.
(** How long a command takes. *)
Context (seek : nat).

(** A command makes the controller busy. *)
Definition outb (port v : Z) : M ide unit :=
  modify (fun s => mkide (bufs s) (idequeue s) (<[port := u8 v]> (regs s)) (sectors s) (havedisk1 s) (woken s)
    (if port =? 0x1f7 then seek else busy s) (fault s)).

(** The status port. *)
Definition inb_status : M ide Z := fun s =>
  Ret (if (0 <? busy s)%nat then IDE_BSY else if fault s then Z.lor IDE_DRDY IDE_ERR else IDE_DRDY) (set_busy (Nat.pred (busy s)) s).

(** The disk and the sector the registers select. *)
Definition selected (r : arr Z) : Z * Z :=
  (Z.land (Z.shiftr r.[0x1f6] 4) 1,
   r.[0x1f3] + 256 * r.[0x1f4] + 65536 * r.[0x1f5] + 16777216 * Z.land r.[0x1f6] 0x0f).

(** The controller moves data only for the command it was given, for as many
    sectors as it was told: one is read after [IDE_CMD_READ] and written after
    [IDE_CMD_WRITE]. *)
Definition commanded (cmd : Z) (r : arr Z) : bool := (r.[0x1f7] =? cmd) && (r.[0x1f2] =? 1).

Definition outsl (d : list Z) : M ide unit := fun s =>
  if commanded IDE_CMD_WRITE (regs s) then Ret tt (set_sectors (<[selected (regs s) := d]> (sectors s)) s) else Undef.
Definition insl : M ide (list Z) := fun s =>
  if commanded IDE_CMD_READ (regs s) && (busy s =? 0)%nat then Ret (default [] (sectors s !! selected (regs s))) s else Undef.

(** ** The driver *)

Definition idewait (fuel : nat) (checkerr : bool) : M ide Z :=
  let* r := iter fuel (fun _ : unit =>
    let* r := inb_status in
    ret (if negb (Z.land r (Z.lor IDE_BSY IDE_DRDY) =? IDE_DRDY) then inl tt else inr r)) tt in
  ret (if checkerr && negb (Z.land r (Z.lor IDE_DF IDE_ERR) =? 0) then -1 else 0).

Definition idestart (fuel : nat) (b : Z) : M ide unit :=
  if b =? 0 then panic "idestart" else
  let* v := getb b in
  if FSSIZE <=? blockno v then panic "incorrect blockno" else
  let sector_per_block := BSIZE / SECTOR_SIZE in
  let sector := blockno v * sector_per_block in
  let read_cmd := if sector_per_block =? 1 then IDE_CMD_READ else IDE_CMD_RDMUL in
  let write_cmd := if sector_per_block =? 1 then IDE_CMD_WRITE else IDE_CMD_WRMUL in
  if 7 <? sector_per_block then panic "idestart" else
  idewait fuel false ;;;
  outb 0x3f6 0 ;;;
  outb 0x1f2 sector_per_block ;;;
  outb 0x1f3 (Z.land sector 0xff) ;;;
  outb 0x1f4 (Z.land (Z.shiftr sector 8) 0xff) ;;;
  outb 0x1f5 (Z.land (Z.shiftr sector 16) 0xff) ;;;
  outb 0x1f6 (Z.lor (Z.lor 0xe0 (Z.shiftl (Z.land (dev v) 1) 4)) (Z.land (Z.shiftr sector 24) 0x0f)) ;;;
  if negb (Z.land (flags v) B_DIRTY =? 0) then outb 0x1f7 write_cmd ;;; outsl (data v)
  else outb 0x1f7 read_cmd.

Definition ideintr (fuel : nat) : M ide unit :=
  let* b := gets idequeue in
  if b =? 0 then ret tt else
  let* v := getb b in
  modify (set_queue (qnext v)) ;;;
  (if Z.land (flags v) B_DIRTY =? 0 then
     let* w := idewait fuel true in
     if 0 <=? w then
       let* d := insl in
       setb b (mkbuf (flags v) (dev v) (blockno v) d (qnext v))
     else ret tt
   else ret tt) ;;;
  let* v := getb b in
  setb b (mkbuf (Z.land (Z.lor (flags v) B_VALID) (Z.lnot B_DIRTY)) (dev v) (blockno v) (data v) (qnext v)) ;;;
  modify (wake b) ;;;
  let* q := gets idequeue in
  when (negb (q =? 0)) (idestart fuel q).

(** [ideinit]: whether one of the first thousand [statuses] read from disk 1
    is not zero. *)
Definition ideinit (fuel : nat) (statuses : list Z) : M ide unit :=
  idewait fuel false ;;;
  outb 0x1f6 (Z.lor 0xe0 (Z.shiftl 1 4)) ;;;
  when (existsb (fun r => negb (r =? 0)) (take 1000 statuses))
    (modify (set_havedisk1 true)) ;;;
  outb 0x1f6 (Z.lor 0xe0 (Z.shiftl 0 4)).

(** The end of the queue: the buffer whose [qnext] is 0. *)
Fixpoint last_buf (fuel : nat) (b : Z) : M ide Z :=
  match fuel with
  | O => fun _ => NoFuel
  | S n => let* v := getb b in if qnext v =? 0 then ret b else last_buf n (qnext v)
  end.

(** [iderw] up to its first sleep; [fuel] for the walk along the queue and the
    wait, and [locked] what [holdingsleep] answers. *)
Definition iderw (fuel : nat) (locked : bool) (b : Z) : M ide unit :=
  if negb locked then panic "iderw: buf not locked" else
  let* v := getb b in
  if Z.land (flags v) (Z.lor B_VALID B_DIRTY) =? B_VALID then panic "iderw: nothing to do" else
  let* h := gets havedisk1 in
  if negb (dev v =? 0) && negb h then panic "iderw: ide disk 1 not present" else
  setb b (mkbuf (flags v) (dev v) (blockno v) (data v) 0) ;;;
  let* q := gets idequeue in
  (if q =? 0 then modify (set_queue b)
   else
     let* l := last_buf fuel q in
     let* vl := getb l in
     setb l (mkbuf (flags vl) (dev vl) (blockno vl) (data vl) b)) ;;;
  let* q := gets idequeue in
  when (q =? b) (idestart fuel b).

(** Whether the caller of [iderw] goes on. *)
Definition finished (s : ide) (b : Z) : bool := Z.land (flags (bufs s).[b]) (Z.lor B_VALID B_DIRTY) =? B_VALID.

(** ** What it stands for *)

(** A disk that serves one request at a time: [waiting] are the requests, as
    they were made, and [done] the buffers that are finished, each with what
    it then held. *)
Record served := mkserved { contents : gmap (Z * Z) (list Z); waiting : list (Z * buf); done : list (Z * list Z) }.

Definition dirty (v : buf) : bool := negb (Z.land (flags v) B_DIRTY =? 0).
Definition place (v : buf) : Z * Z := (Z.land (dev v) 1, blockno v).

(** The contents after a request, and what its buffer then holds. *)
Definition serve (v : buf) (c : gmap (Z * Z) (list Z)) : gmap (Z * Z) (list Z) := if dirty v then <[place v := data v]> c else c.
Definition result (v : buf) (c : gmap (Z * Z) (list Z)) : list Z := if dirty v then data v else default [] (c !! place v).

Definition submit (b : Z) (v : buf) (sp : served) : served := mkserved (contents sp) (waiting sp ++ [(b, v)]) (done sp).
Definition complete (sp : served) : served :=
  match waiting sp with
  | [] => sp
  | (b, v) :: l => mkserved (serve v (contents sp)) l (done sp ++ [(b, result v (contents sp))])
  end.

(** The buffers from [q] on are those of [l]. *)
Fixpoint linked (m : arr buf) (q : Z) (l : list Z) : Prop :=
  match l with
  | [] => q = 0
  | b :: l' => q = b /\ b <> 0 /\ linked m (qnext m.[b]) l'
  end.

Definition same_request (v w : buf) : Prop := flags v = flags w /\ dev v = dev w /\ blockno v = blockno w /\ data v = data w.
Definition request_ok (v : buf) : Prop := 0 <= blockno v < FSSIZE.

(** The command for a request has been given, with interrupts enabled. *)
Definition armed (v : buf) (r : arr Z) : Prop :=
  selected r = place v /\ commanded (if dirty v then IDE_CMD_WRITE else IDE_CMD_READ) r = true /\ r.[0x3f6] = 0.

Record ide_ok (s : ide) (sp : served) : Prop := {
  io_queue : linked (bufs s) (idequeue s) (waiting sp).*1;
  io_nodup : NoDup (waiting sp).*1;
  io_requests : forall b v, (b, v) ∈ waiting sp -> request_ok v /\ same_request (bufs s).[b] v;
  io_active : match waiting sp with
              | [] => sectors s = contents sp
              | (_, v) :: _ => armed v (regs s) /\ sectors s = serve v (contents sp)
              end;
  io_woken : woken s = (done sp).*1;
  io_busy : (busy s <= seek)%nat
}.

(** ** Starting a request *)

Lemma land_ff x : Z.land x 0xff = x mod 256.
Proof. change 0xff with (Z.ones 8). by rewrite Z.land_ones. Qed.

Lemma land_f x : Z.land x 0x0f = x mod 16.
Proof. change 0x0f with (Z.ones 4). by rewrite Z.land_ones. Qed.

Lemma land_1 x : Z.land x 1 = x mod 2.
Proof. change 1 with (Z.ones 1) at 1. by rewrite Z.land_ones. Qed.

(** The last register: the disk and the top of the sector number. *)
Lemma drive_register d hi : 0 <= d < 2 -> 0 <= hi < 16 ->
  let r := u8 (Z.lor (Z.lor 0xe0 (Z.shiftl d 4)) hi) in Z.land (Z.shiftr r 4) 1 = d /\ Z.land r 0x0f = hi.
Proof.
  intros Hd Hh. assert (forallb (fun d => forallb (fun hi => (Z.land (Z.shiftr (u8 (Z.lor (Z.lor 0xe0 (Z.shiftl d 4)) hi)) 4) 1 =? d) &&
    (Z.land (u8 (Z.lor (Z.lor 0xe0 (Z.shiftl d 4)) hi)) 0x0f =? hi)) (seqZ 0 16)) (seqZ 0 2) = true) as H by by vm_compute.
  rewrite forallb_forall in H. specialize (H d ltac:(apply list_elem_of_In, elem_of_seqZ; lia)). rewrite forallb_forall in H.
  specialize (H hi ltac:(apply list_elem_of_In, elem_of_seqZ; lia)). rewrite andb_true_iff, !Z.eqb_eq in H. exact H.
Qed.

(** The bytes written to the registers are those of the sector number. *)
Lemma sector_bytes n : 0 <= n < 268435456 ->
  Z.land n 0xff + 256 * Z.land (Z.shiftr n 8) 0xff + 65536 * Z.land (Z.shiftr n 16) 0xff + 16777216 * Z.land (Z.shiftr n 24) 0x0f = n.
Proof.
  intros Hn. rewrite !land_ff, land_f, !Z.shiftr_div_pow2 by lia.
  change (2 ^ 8) with 256. change (2 ^ 16) with 65536. change (2 ^ 24) with 16777216. change (2 ^ 4) with 16.
  Z.to_euclidean_division_equations. lia.
Qed.

Lemma wp_outb port v (Q : unit -> ide -> Prop) s :
  Q tt (mkide (bufs s) (idequeue s) (<[port := u8 v]> (regs s)) (sectors s) (havedisk1 s) (woken s) (if port =? 0x1f7 then seek else busy s) (fault s)) ->
  wp (outb port v) Q s.
Proof. by intros. Qed.

(** The wait ends when the controller is ready. *)
Lemma wp_idewait fuel c : forall s (Q : Z -> ide -> Prop), (busy s < fuel)%nat ->
  Q (if c && fault s then -1 else 0) (set_busy 0 s) -> wp (idewait fuel c) Q s.
Proof.
  intros s Q Hb HQ. unfold idewait. apply wp_bind.
  apply (wp_mono _ (fun r s' => r = (if fault s then Z.lor IDE_DRDY IDE_ERR else IDE_DRDY) /\ s' = set_busy 0 s)).
  { intros r s' [-> ->]. apply wp_ret. destruct c, (fault s); exact HQ. }
  clear HQ. revert s Hb. induction fuel as [|fuel IH]; intros s Hb; [lia|]. cbn [iter]. apply wp_bind, wp_bind. unfold wp at 1, inb_status.
  destruct (busy s) as [|n] eqn:En.
  - destruct (fault s) eqn:Ef; cbn; apply wp_ret, wp_ret; (split; [done|]); destruct s; cbn in *; by subst.
  - cbn. apply wp_ret. eapply wp_mono; [|apply IH; cbn; lia]. cbn. intros r s' [-> ->]. split; [done|]. done.
Qed.

(** What starting a request for [v] does. *)
Definition started (v : buf) (s s' : ide) : Prop :=
  bufs s' = bufs s /\ idequeue s' = idequeue s /\ havedisk1 s' = havedisk1 s /\ woken s' = woken s /\
  armed v (regs s') /\ sectors s' = serve v (sectors s) /\ busy s' = seek.

Lemma wp_idestart fuel b v s : b <> 0 -> request_ok v -> same_request (bufs s).[b] v -> (busy s < fuel)%nat ->
  wp (idestart fuel b) (fun _ s' => started v s s') s.
Proof.
  intros Hb [Hlo Hhi] (Ef & Ed & En & Eda) Hbz. unfold idestart. rewrite (proj2 (Z.eqb_neq b 0)) by done. apply wp_bind, wp_gets. rewrite En.
  rewrite (proj2 (Z.leb_gt FSSIZE (blockno v))) by lia. change (BSIZE / SECTOR_SIZE) with 1. cbn zeta. change (7 <? 1) with false. change (1 =? 1) with true. cbn iota.
  rewrite Z.mul_1_r, Ed, Ef, Eda. apply wp_bind, wp_idewait; [done|]. do 6 apply wp_bind, wp_outb. cbn [bufs idequeue regs sectors havedisk1 woken busy fault set_busy].
  set (n := blockno v) in *. unfold FSSIZE in Hhi. match goal with |- context [mkide _ _ ?r _ _ _ _ _] => set (rg := r) end.
  assert (forall x, 0 <= x < 256 -> u8 x = x) as Hu by (intros x Hx; unfold u8; by apply Z.mod_small).
  assert (forall x, 0 <= Z.land x 0xff < 256) as Hff by (intros x; rewrite land_ff; by apply Z.mod_pos_bound).
  assert (forall c, selected (<[0x1f7 := c]> rg) = place v) as Hsel.
  { intros c. unfold selected, rg, place. repeat (rewrite asel_insert_eq || rewrite asel_insert_ne by done).
    destruct (drive_register (Z.land (dev v) 1) (Z.land (Z.shiftr n 24) 0x0f)) as [-> ->].
    - rewrite land_1. apply Z.mod_pos_bound. lia.
    - rewrite land_f. apply Z.mod_pos_bound. lia.
    - rewrite !Hu by apply Hff. rewrite sector_bytes by lia. done. }
  assert (forall c, commanded c (<[0x1f7 := c]> rg) = true /\ (<[0x1f7 := c]> rg).[0x3f6] = 0) as Hcm.
  { intros c. unfold commanded, rg. repeat (rewrite asel_insert_eq || rewrite asel_insert_ne by done). by rewrite !Z.eqb_refl. }
  unfold started, armed, serve, dirty. destruct (negb (Z.land (flags v) B_DIRTY =? 0)).
  - apply wp_bind, wp_outb. unfold wp, outsl. cbn. change (u8 IDE_CMD_WRITE) with IDE_CMD_WRITE. rewrite (proj1 (Hcm IDE_CMD_WRITE)). cbn.
    rewrite Hsel. split_and!; try done; apply Hcm.
  - apply wp_outb. cbn. change (u8 IDE_CMD_READ) with IDE_CMD_READ. rewrite Hsel. split_and!; try done; apply Hcm.
Qed.

(** ** The queue *)

Lemma linked_frame m b w l : forall q, linked m q l -> b ∉ l -> linked (<[b := w]> m) q l.
Proof.
  induction l as [|c l IH]; intros q Hl Hb; [done|]. rewrite not_elem_of_cons in Hb. destruct Hb as [Hne Hb], Hl as (-> & Hc & Hl).
  cbn [linked]. split; [done|]. split; [done|]. rewrite asel_insert_ne by done. by apply IH.
Qed.

(** The walk along the queue ends at its last buffer. *)
Lemma wp_last_buf fuel s l x : forall q, linked (bufs s) q (l ++ [x]) -> (length l < fuel)%nat -> wp (last_buf fuel q) (fun r s' => r = x /\ s' = s) s.
Proof.
  revert fuel. induction l as [|c l IH]; intros fuel q Hl Hf; (destruct fuel as [|fuel]; [lia|]); cbn [last_buf app linked length] in *; destruct Hl as (-> & Hc & Hl);
    apply wp_bind, wp_gets.
  - rewrite Hl. by apply wp_ret.
  - assert (qnext (bufs s).[c] <> 0) by (destruct l; cbn in Hl; destruct Hl as (-> & ? & _); done). rewrite (proj2 (Z.eqb_neq _ 0)) by done. apply IH; [done|lia].
Qed.

Lemma linked_append m b w l x : forall q, linked m q (l ++ [x]) -> NoDup (l ++ [x]) -> b <> 0 -> b ∉ l ++ [x] -> qnext m.[b] = 0 -> qnext w = b ->
  linked (<[x := w]> m) q ((l ++ [x]) ++ [b]).
Proof.
  induction l as [|c l IH]; intros q Hl Hnd Hb Hin Hq Hw; cbn [app linked] in *.
  - destruct Hl as (-> & Hx & _). rewrite list_elem_of_singleton in Hin. split; [done|]. split; [done|]. rewrite asel_insert_eq, Hw. split; [done|]. split; [done|].
    by rewrite asel_insert_ne.
  - destruct Hl as (-> & Hc & Hl). apply NoDup_cons in Hnd as [Hcn Hnd]. rewrite not_elem_of_cons in Hin. destruct Hin as [_ Hin]. split; [done|]. split; [done|].
    rewrite asel_insert_ne; [by apply IH|]. intros ->. apply Hcn, elem_of_app. right. by left.
Qed.

Lemma same_request_place v w : same_request v w -> place v = place w /\ (forall c, serve v c = serve w c) /\ (forall c, result v c = result w c) /\ dirty v = dirty w.
Proof. intros (E1 & E2 & E3 & E4). unfold serve, result, dirty, place. by rewrite E1, E2, E3, E4. Qed.

(** A request that [iderw] accepts. *)
Definition asks (s : ide) (b : Z) : Prop :=
  b <> 0 /\ request_ok (bufs s).[b] /\ finished s b = false /\ (dev (bufs s).[b] = 0 \/ havedisk1 s = true).

Lemma queue_head s sp : ide_ok s sp -> idequeue s = match waiting sp with [] => 0 | (b, _) :: _ => b end.
Proof. intros [Hq _ _ _ _ _]. destruct (waiting sp) as [|[b v] l]; cbn in Hq; [done|]. by destruct Hq. Qed.

(** A request put on an empty queue and started. *)
Lemma submit_first s sp b v s0 s' : ide_ok s sp -> waiting sp = [] -> b <> 0 -> request_ok v -> same_request (bufs s').[b] v -> qnext (bufs s').[b] = 0 ->
  idequeue s0 = b -> sectors s0 = sectors s -> woken s0 = woken s -> started v s0 s' -> ide_ok s' (submit b v sp).
Proof.
  intros [_ _ _ Hact Hwk _] Ew Hb Hr Hsr Hq E1 E2 E3 (_ & G2 & _ & G4 & G5 & G6 & G7). rewrite Ew in Hact. split; cbn; rewrite ?Ew; cbn.
  - rewrite G2, Hq. done.
  - by apply NoDup_singleton.
  - intros b' v' Hin. apply list_elem_of_singleton in Hin. by injection Hin as -> ->.
  - by rewrite G6, E2, Hact.
  - by rewrite G4, E3.
  - by rewrite G7.
Qed.

(** A request put after the last one. *)
Lemma submit_last s sp b v v0 l' x wx wl : ide_ok s sp -> waiting sp = l' ++ [(x, wx)] -> b <> 0 -> b ∉ (waiting sp).*1 -> request_ok v ->
  same_request v0 v -> qnext v0 = 0 -> same_request wl (bufs s).[x] -> qnext wl = b ->
  ide_ok (set_bufs (fun m => <[x := wl]> (<[b := v0]> m)) s) (submit b v sp).
Proof.
  intros [Hq Hnd Hreq Hact Hwk Hbz] Ew Hb Hbw Hr Hsv Hv0 Hswl Hwl. assert ((waiting sp).*1 = l'.*1 ++ [x]) as E1 by (by rewrite Ew, fmap_app).
  assert (x <> b) as Hxb by (intros ->; apply Hbw; rewrite E1; apply elem_of_app; right; by left).
  split; cbn; rewrite ?fmap_app; cbn [fmap list_fmap fst].
  - rewrite E1. apply linked_append; [|by rewrite <- E1|done|by rewrite <- E1|by rewrite asel_insert_eq|done].
    apply linked_frame; [by rewrite <- E1|by rewrite <- E1].
  - apply NoDup_app. split; [exact Hnd|]. split; [|apply NoDup_singleton]. intros y Hy Hin. apply list_elem_of_singleton in Hin as ->. done.
  - intros b' v' Hin. apply elem_of_app in Hin as [Hin|Hin].
    + destruct (Hreq b' v' Hin) as [R1 R2]. split; [done|]. assert (b' <> b) by (intros ->; apply Hbw; by apply (list_elem_of_fmap_2 fst) in Hin).
      rewrite asel_insert. destruct (decide (x = b')) as [->|]; [|by rewrite asel_insert_ne].
      destruct Hswl as (S1 & S2 & S3 & S4), R2 as (T1 & T2 & T3 & T4). unfold same_request. split_and!; congruence.
    + apply list_elem_of_singleton in Hin. injection Hin as -> ->. split; [done|]. by rewrite asel_insert_ne, asel_insert_eq by done.
  - rewrite Ew in *. destruct l' as [|[c w] l']; exact Hact.
  - exact Hwk.
  - exact Hbz.
Qed.

Lemma iderw_ok fuel s sp b : ide_ok s sp -> b ∉ (waiting sp).*1 -> asks s b -> (length (waiting sp) <= fuel)%nat -> (seek < fuel)%nat ->
  wp (iderw fuel true b) (fun _ s' => ide_ok s' (submit b (bufs s).[b] sp) /\ finished s' b = false) s.
Proof.
  intros Hok Hb (H0 & Hr & Hfin & Hdev) Hfuel Hsk. unfold iderw. cbn [negb]. apply wp_bind, wp_gets. unfold finished in *. rewrite Hfin. apply wp_bind, wp_gets.
  assert (negb (dev (bufs s).[b] =? 0) && negb (havedisk1 s) = false) as ->.
  { destruct Hdev as [->| ->]; [done|]. by rewrite andb_false_r. }
  set (v := (bufs s).[b]) in *. set (v0 := mkbuf (flags v) (dev v) (blockno v) (data v) 0). apply wp_bind, wp_modify. apply wp_bind, wp_gets. cbn [set_bufs idequeue bufs].
  rewrite (queue_head s sp Hok). destruct (waiting sp) as [|[c w] l] eqn:Ew.
  - change (0 =? 0) with true. cbn iota. apply wp_bind, wp_modify. apply wp_bind, wp_gets. cbn [set_queue set_bufs idequeue bufs]. rewrite Z.eqb_refl. cbn [when].
    eapply wp_mono; [|apply (wp_idestart fuel b v)]; [|done|done|cbn; by rewrite asel_insert_eq|pose proof (io_busy _ _ Hok); cbn; lia].
    intros [] s' Hst. pose proof Hst as (E1 & _). cbn in E1. rewrite E1, asel_insert_eq. split; [|done].
    eapply (submit_first s sp b v _ s' Hok Ew); [done|done|rewrite E1, asel_insert_eq; done|by rewrite E1, asel_insert_eq| | | |exact Hst]; done.
  - pose proof (io_queue _ _ Hok) as Hq. rewrite Ew in Hq. cbn in Hq. destruct Hq as (_ & Hc & _). rewrite (proj2 (Z.eqb_neq c 0)) by done.
    destruct (exists_last (l := (c, w) :: l)) as (l' & [x wx] & El); [done|]. assert (((c, w) :: l).*1 = l'.*1 ++ [x]) as El1 by (by rewrite El, fmap_app).
    apply wp_bind. apply wp_bind. eapply wp_mono; [|apply (wp_last_buf fuel _ (l'.*1) x)].
    2:{ cbn [set_bufs bufs]. rewrite <- El1. apply linked_frame; [|done]. pose proof (io_queue _ _ Hok) as Hq. rewrite Ew, (queue_head s sp Hok), Ew in Hq. exact Hq. }
    2:{ rewrite length_fmap. rewrite El, length_app in Hfuel. cbn in Hfuel. lia. }
    intros r s1 [-> ->]. apply wp_bind, wp_gets. apply wp_modify. apply wp_bind, wp_gets. cbn [set_bufs idequeue bufs]. rewrite (queue_head s sp Hok), Ew.
    assert (c <> b) as Hcb by (intros ->; apply Hb; by left). rewrite (proj2 (Z.eqb_neq c b)) by done. cbn [when]. apply wp_ret. set (wl := mkbuf _ _ _ _ b).
    assert (x <> b) as Hxb by (intros ->; apply Hb; rewrite El1; apply elem_of_app; right; by left).
    split; [|cbn; by rewrite asel_insert_ne, asel_insert_eq by done].
    apply (submit_last s sp b v v0 l' x wx wl Hok); [by rewrite Ew|done|by rewrite Ew|done|done|done| |done]. unfold wl. rewrite asel_insert_ne by done. done.
Qed.

(** ** The interrupt *)

Lemma flags_done f : Z.land (Z.land (Z.lor f B_VALID) (Z.lnot B_DIRTY)) (Z.lor B_VALID B_DIRTY) = B_VALID.
Proof.
  rewrite Z.land_lor_distr_r. rewrite <- !Z.land_assoc. change (Z.land (Z.lnot B_DIRTY) B_VALID) with B_VALID. change (Z.land (Z.lnot B_DIRTY) B_DIRTY) with 0.
  rewrite Z.land_0_r, Z.lor_0_r. rewrite Z.land_lor_distr_l, Z.land_diag. rewrite Z.lor_comm. apply Z.bits_inj'. intros k Hk.
  rewrite Z.lor_spec, Z.land_spec. by destruct (Z.testbit B_VALID k), (Z.testbit f k).
Qed.

(** The first request is finished: what is left of the queue, before the
    next request is started. *)
Lemma finish_first s b v l c dn d f q : linked (bufs s) (idequeue s) (b :: l.*1) -> NoDup (b :: l.*1) ->
  (forall b' v', (b', v') ∈ (b, v) :: l -> request_ok v' /\ same_request (bufs s).[b'] v') -> sectors s = serve v c -> woken s = dn.*1 ->
  let m := <[b := mkbuf f (dev (bufs s).[b]) (blockno (bufs s).[b]) d q]> (bufs s) in
  forall s' r, bufs s' = m -> idequeue s' = qnext (bufs s).[b] -> woken s' = woken s ++ [b] -> (busy s' <= seek)%nat ->
  match l with [] => sectors s' = sectors s | (_, v2) :: _ => armed v2 (regs s') /\ sectors s' = serve v2 (sectors s) end ->
  ide_ok s' (mkserved (serve v c) l (dn ++ [(b, r)])).
Proof.
  intros Hq Hnd Hreq Hs Hwk m s' r Em Eq Ewk Hbz Hact. apply NoDup_cons in Hnd as [Hbl Hnd]. destruct Hq as (_ & _ & Hq). split; cbn.
  - rewrite Em, Eq. by apply linked_frame.
  - done.
  - intros b' v' Hin. destruct (Hreq b' v' ltac:(by right)) as [R1 R2]. split; [done|]. rewrite Em. unfold m. rewrite asel_insert_ne; [done|].
    intros ->. apply Hbl. by apply (list_elem_of_fmap_2 fst) in Hin.
  - destruct l as [|[c2 v2] l]; [congruence|]. destruct Hact as [? ->]. by rewrite Hs.
  - rewrite Ewk, Hwk, fmap_app. done.
  - done.
Qed.

(** The transfer of the active request: its buffer has its data, unless the
    controller reports an error for a read. *)
Lemma wp_transfer fuel s b v c : same_request (bufs s).[b] v -> armed v (regs s) -> sectors s = serve v c -> (busy s < fuel)%nat ->
  wp (if Z.land (flags (bufs s).[b]) B_DIRTY =? 0 then
        let* w := idewait fuel true in
        if 0 <=? w then
          let* d := insl in
          setb b (mkbuf (flags (bufs s).[b]) (dev (bufs s).[b]) (blockno (bufs s).[b]) d (qnext (bufs s).[b]))
        else ret tt
      else ret tt)
    (fun _ s1 => exists m n, s1 = mkide m (idequeue s) (regs s) (sectors s) (havedisk1 s) (woken s) n (fault s) /\ (n <= busy s)%nat /\
       m.[b] = mkbuf (flags (bufs s).[b]) (dev (bufs s).[b]) (blockno (bufs s).[b])
         (if dirty v || negb (fault s) then result v c else data (bufs s).[b]) (qnext (bufs s).[b]) /\
       forall x, <[b := x]> m = <[b := x]> (bufs s)) s.
Proof.
  set (w := (bufs s).[b]). intros (S1 & S2 & S3 & S4) (Hsel & Hcmd & _) Hsec Hb. unfold result, dirty in *. rewrite S1.
  destruct (Z.land (flags v) B_DIRTY =? 0) eqn:Hd; cbn [negb orb] in *.
  - apply wp_bind, wp_idewait; [done|]. destruct (fault s) eqn:Ef; cbn [andb negb].
    + apply wp_ret. exists (bufs s), 0%nat. split; [unfold set_busy; by rewrite Ef|]. split; [lia|]. split; [|done]. fold w. rewrite <- S1. by destruct w.
    + apply wp_bind. unfold wp, insl. cbn. rewrite Hcmd. cbn. eexists _, 0%nat. unfold set_bufs, set_busy. cbn. rewrite Ef. split; [done|]. split; [lia|].
      rewrite asel_insert_eq, Hsel, Hsec. unfold serve, dirty. rewrite Hd. cbn [negb]. split; [done|]. intros x. by rewrite insert_insert_eq.
  - apply wp_ret. exists (bufs s), (busy s). split; [by destruct s|]. split; [lia|]. split; [|done]. fold w. rewrite <- S1, <- S4. by destruct w.
Qed.

(** An interrupt, with or without an error. *)
Lemma ideintr_ok fuel s sp : ide_ok s sp -> (seek < fuel)%nat ->
  wp (ideintr fuel) (fun _ s' =>
    match waiting sp with
    | [] => s' = s
    | (b, v) :: l => exists d, ide_ok s' (mkserved (serve v (contents sp)) l (done sp ++ [(b, d)])) /\
        finished s' b = true /\ data (bufs s').[b] = d /\ d = if dirty v || negb (fault s) then result v (contents sp) else data (bufs s).[b]
    end) s.
Proof.
  intros Hok Hsk. unfold ideintr. apply wp_bind, wp_gets. rewrite (queue_head s sp Hok). destruct (waiting sp) as [|[b v] l] eqn:Ew.
  { change (0 =? 0) with true. cbn iota. by apply wp_ret. }
  pose proof Hok as [Hq Hnd Hreq Hact Hwk Hbz]. rewrite Ew in *. cbn [fmap list_fmap fst] in Hq, Hnd. destruct Hact as [Harm Hsec]. pose proof Hq as (_ & Hb & Hql).
  destruct (Hreq b v ltac:(by left)) as [Hr Hsr]. rewrite (proj2 (Z.eqb_neq b 0)) by done. apply wp_bind, wp_gets. apply wp_bind, wp_modify.
  apply wp_bind. eapply wp_mono; [|apply (wp_transfer fuel (set_queue (qnext (bufs s).[b]) s) b v (contents sp)); [done|done|done|cbn; lia]].
  cbn [set_queue bufs idequeue regs sectors havedisk1 woken busy fault]. set (w := (bufs s).[b]) in *. set (d := if _ || _ then _ else _).
  intros [] s1 (m & n & -> & Hnb & Em & Hm). apply wp_bind, wp_gets. cbn [bufs]. rewrite Em. cbn [flags dev blockno data qnext].
  apply wp_bind, wp_modify. apply wp_bind, wp_modify. apply wp_bind, wp_gets.
  unfold wake, set_bufs. cbn [bufs idequeue regs sectors havedisk1 woken busy fault]. rewrite Hm. set (f := Z.land _ _).
  assert (forall s', (bufs s').[b] = mkbuf f (dev w) (blockno w) d (qnext w) -> finished s' b = true /\ data (bufs s').[b] = d) as Hfin.
  { intros s' E. unfold finished. rewrite E. cbn. split; [|done]. unfold f. rewrite flags_done. done. }
  destruct l as [|[b2 v2] l].
  - cbn in Hql. fold w in Hql. rewrite (proj2 (Z.eqb_eq (qnext w) 0) Hql). cbn [negb when]. apply wp_ret. exists d.
    split; [|destruct (Hfin (mkide (<[b := mkbuf f (dev w) (blockno w) d (qnext w)]> (bufs s)) (qnext w) (regs s) (sectors s) (havedisk1 s) (woken s ++ [b]) n (fault s)));
      [cbn; by rewrite asel_insert_eq|done]].
    eapply (finish_first s b v [] _ _ d f (qnext w)); [exact Hq|exact Hnd|exact Hreq|exact Hsec|exact Hwk| | |done|cbn; lia|done]; done.
  - cbn in Hql. fold w in Hql. destruct Hql as (Eq2 & Hb2 & Hl2). assert (qnext w <> 0) by congruence. rewrite (proj2 (Z.eqb_neq (qnext w) 0)) by done. cbn [negb when].
    destruct (Hreq b2 v2 ltac:(by right; left)) as [Hr2 Hsr2]. apply NoDup_cons in Hnd as Hnd'. destruct Hnd' as [Hbn _]. assert (b <> b2) as Hne by (intros ->; apply Hbn; by left).
    replace (idestart fuel (qnext w)) with (idestart fuel b2) by (by rewrite Eq2).
    eapply wp_mono; [|apply (wp_idestart fuel b2 v2); [done|done|cbn; by rewrite asel_insert_ne|cbn; lia]].
    intros [] s' (E1 & E2 & E3 & E4 & E5 & E6 & E7). cbn in E1, E2, E3, E4, E5, E6. exists d. split; [|destruct (Hfin s'); [by rewrite E1, asel_insert_eq|done]].
    eapply (finish_first s b v ((b2, v2) :: l) _ _ d f (qnext w)); [exact Hq|exact Hnd|exact Hreq|exact Hsec|exact Hwk|exact E1|exact E2|exact E4|by rewrite E7|done].
Qed.

(** C35: The disk driver serves requests in the order they are made, each as
    if in one step.  [iderw] puts a buffer at the end of the queue and
    starts the disk if it was idle, with the registers selecting exactly the
    buffer's block and holding the command for its direction, which the
    controller obeys.  An interrupt without a device error finishes the first
    request, after which a written block has the buffer's contents or a read
    buffer those of the block, wakes its process with the buffer valid and
    clean, and starts the next.  An interrupt with nothing waiting does nothing.
    (With a device error a read leaves the buffer as it was and marks it valid
    all the same: see [ide_error_ignored].) *)
Theorem ide_serves fuel s sp b : ide_ok s sp -> b ∉ (waiting sp).*1 -> asks s b -> (length (waiting sp) <= fuel)%nat -> (seek < fuel)%nat ->
  wp (iderw fuel true b) (fun _ s' => ide_ok s' (submit b (bufs s).[b] sp) /\ finished s' b = false) s /\
  (fault s = false -> wp (ideintr fuel) (fun _ s' => ide_ok s' (complete sp) /\
    (forall b v l, waiting sp = (b, v) :: l -> finished s' b = true /\ data (bufs s').[b] = result v (contents sp))) s).
Proof.
  intros Hok Hb Ha Hf Hsk. split; [by apply iderw_ok|]. intros Hft. eapply wp_mono; [|by apply (ideintr_ok fuel s sp)].
  intros [] s'. unfold complete. destruct (waiting sp) as [|[b' v] l]; [|rewrite Hft, orb_true_r].
  - intros ->. split; [done|]. by intros ??? [=].
  - intros (d & Hok' & H1 & H2 & ->). split; [done|]. by intros b0 v0 l0 [= <- <- <-].
Qed.

(** A read that the controller reports as failed: the buffer is marked valid all
    the same, with what it held before. *)
Lemma ide_error_ignored fuel s sp b v l : ide_ok s sp -> (seek < fuel)%nat -> fault s = true -> waiting sp = (b, v) :: l -> dirty v = false ->
  wp (ideintr fuel) (fun _ s' => finished s' b = true /\ data (bufs s').[b] = data (bufs s).[b]) s.
Proof.
  intros Hok Hsk Hft Ew Hd. eapply wp_mono; [|by apply (ideintr_ok fuel s sp)]. intros [] s'. rewrite Ew, Hft, Hd. cbn.
  intros (d & _ & H1 & H2 & ->). done.
Qed.

End Driver.

(** An idle disk, and a buffer at address 4 to be written to block 7. *)
Definition ide_example : ide := mkide {[4 := mkbuf B_DIRTY 1 7 [1; 2; 3] 0]} 0 ∅ ∅ true [] 0 false.

Lemma ide_serves_witness :
  wp (iderw 3 4 true 4) (fun _ s' => ide_ok 3 s' (mkserved ∅ [(4, mkbuf B_DIRTY 1 7 [1; 2; 3] 0)] []) /\ finished s' 4 = false) ide_example.
Proof.
  apply (ide_serves 3 4 ide_example (mkserved ∅ [] []) 4); [|by apply not_elem_of_nil| |cbn; lia|lia].
  - split; [done|constructor|intros b v Hb; by apply elem_of_nil in Hb|done|done|cbn; lia].
  - split; [done|]. split; [by split|]. split; [by vm_compute|by right].
Defined.
