(* ===== verification/Mp.v ===== *)
(** * Finding the processors ([mp.c], [mp.h])

    The search for the multiprocessor tables in physical memory, their
    checksums, and the walk over the entries of the configuration table,
    which records the processors and the I/O interrupt controller. *)

From stdpp Require Import base tactics numbers gmap strings list.
From Stdlib Require Import ZArith Lia.
From S2P Require Import Prelude.

(** Sizes of [struct mp], [struct mpconf], [struct mpproc], [struct mpioapic]. *)
Definition SIZEOF_MP : Z := 16.
Definition SIZEOF_MPCONF : Z := 44.
Definition SIZEOF_MPPROC : Z := 20.
Definition SIZEOF_MPIOAPIC : Z := 8.

Definition MPPROC : Z := 0.
Definition MPBUS : Z := 1.
Definition MPIOAPIC : Z := 2.
Definition MPIOINTR : Z := 3.
Definition MPLINTR : Z := 4.

Definition NCPU : nat := 8.

(** What [mpinit] records: the [apicid]s in [cpus], of which there are
    [ncpu], the I/O controller, the address of the local one, and whether
    the interrupt mode register is set. *)
Record mpstate := mkmp { cpus : list Z; ioapicid : Z; lapic : Z; imcr : bool }.

Section Memory.

(** The bytes of physical memory, which the kernel sees at [P2V]. *)
Variable mem : Z -> Z.

Definition bytes (a : Z) (n : nat) : list Z := map (fun i => mem (a + i)) (seqZ 0 (Z.of_nat n)).
Definition short (a : Z) : Z := mem a + 256 * mem (a + 1).
Definition word (a : Z) : Z := short a + 65536 * short (a + 2).

Definition sum (a : Z) (len : nat) : Z := u8 (foldl Z.add 0 (bytes a len)).

Definition MP_SIG : list Z := [95; 77; 80; 95].
Definition PCMP_SIG : list Z := [80; 67; 77; 80].

(** One step of [mpsearch1]: the structure is at [p]. *)
Definition is_mp (p : Z) : bool := bool_decide (bytes p 4 = MP_SIG) && (sum p (Z.to_nat SIZEOF_MP) =? 0).

(** [mpsearch1]; [n] structures fit in the bytes searched. *)
Fixpoint mpsearch_from (n : nat) (p : Z) : option Z :=
  match n with
  | O => None
  | S n' => if is_mp p then Some p else mpsearch_from n' (p + SIZEOF_MP)
  end.

Definition mpsearch1 (a len : Z) : option Z := mpsearch_from (Z.to_nat (len / SIZEOF_MP)) a.

Definition mpsearch : option Z :=
  let bda := 0x400 in
  let p := Z.shiftl (Z.lor (Z.shiftl (mem (bda + 0x0F)) 8) (mem (bda + 0x0E))) 4 in
  let first :=
    (if negb (p =? 0) then mpsearch1 p 1024
     else
       let p := Z.lor (Z.shiftl (mem (bda + 0x14)) 8) (mem (bda + 0x13)) * 1024 in
       mpsearch1 (p - 1024) 1024) in
  match first with
  | Some mp => Some mp
  | None => mpsearch1 0xF0000 0x10000
  end.

(** [mpconfig]: the floating structure and the configuration table. *)
Definition conf_length (conf : Z) : Z := short (conf + 4).
Definition conf_version (conf : Z) : Z := mem (conf + 6).
Definition conf_lapicaddr (conf : Z) : Z := word (conf + 36).

Definition mpconfig : option (Z * Z) :=
  match mpsearch with
  | None => None
  | Some mp =>
      let physaddr := word (mp + 4) in
      if physaddr =? 0 then None else
      let conf := physaddr in
      if negb (bool_decide (bytes conf 4 = PCMP_SIG)) then None
      else if negb (conf_version conf =? 1) && negb (conf_version conf =? 4) then None
      else if negb (sum conf (Z.to_nat (conf_length conf)) =? 0) then None
      else Some (mp, conf)
  end.

(** One turn of the loop of [mpinit] over [p] and [ismp]. *)
Definition mp_entry (e : Z) (v : Z * bool) : M mpstate ((Z * bool) + bool) :=
  let '(p, ismp) := v in
  if negb (p <? e) then ret (inr ismp)
  else
    let t := mem p in
    if t =? MPPROC then
      modify (fun s => if bool_decide (length (cpus s) < NCPU)%nat then mkmp (cpus s ++ [mem (p + 1)]) (ioapicid s) (lapic s) (imcr s) else s) ;;;
      ret (inl (p + SIZEOF_MPPROC, ismp))
    else if t =? MPIOAPIC then
      modify (fun s => mkmp (cpus s) (mem (p + 1)) (lapic s) (imcr s)) ;;;
      ret (inl (p + SIZEOF_MPIOAPIC, ismp))
    else if (t =? MPBUS) || (t =? MPIOINTR) || (t =? MPLINTR) then ret (inl (p + 8, ismp))
    else ret (inl (p, false)).

Definition mpinit (fuel : nat) : M mpstate unit :=
  match mpconfig with
  | None => panic "Expect to run on an SMP"
  | Some (mp, conf) =>
      modify (fun s => mkmp (cpus s) (ioapicid s) (conf_lapicaddr conf) (imcr s)) ;;;
      let* ismp := iter fuel (mp_entry (conf + conf_length conf)) (conf + SIZEOF_MPCONF, true) in
      if negb ismp then panic "Didn't find a suitable machine" else
      when (negb (mem (mp + 12) =? 0)) (modify (fun s => mkmp (cpus s) (ioapicid s) (lapic s) true))
  end.

(** ** Tables *)

(** The entries of a table; [rest] are the bytes the kernel does not read. *)
Inductive mpentry :=
| Proc (apicid : Z) (rest : list Z)
| Ioapic (apicno : Z) (rest : list Z)
| Other (type : Z) (rest : list Z).

Definition entry_ok (x : mpentry) : Prop :=
  match x with
  | Proc _ rest => length rest = 18%nat
  | Ioapic _ rest => length rest = 6%nat
  | Other t rest => (t = MPBUS \/ t = MPIOINTR \/ t = MPLINTR) /\ length rest = 7%nat
  end.

Definition encode (x : mpentry) : list Z :=
  match x with
  | Proc a rest => MPPROC :: a :: rest
  | Ioapic a rest => MPIOAPIC :: a :: rest
  | Other t rest => t :: rest
  end.

(** What the kernel should record of an entry. *)
Definition record (s : mpstate) (x : mpentry) : mpstate :=
  match x with
  | Proc a _ => mkmp (take NCPU (cpus s ++ [a])) (ioapicid s) (lapic s) (imcr s)
  | Ioapic a _ => mkmp (cpus s) a (lapic s) (imcr s)
  | Other _ _ => s
  end.

(** The table [es] lies in memory from [a] on. *)
Definition table_at (a : Z) (es : list mpentry) : Prop := bytes a (length (concat (map encode es))) = concat (map encode es).

Lemma bytes_app a n m : bytes a (n + m) = bytes a n ++ bytes (a + Z.of_nat n) m.
Proof.
  unfold bytes. rewrite Nat2Z.inj_add, seqZ_app, map_app by lia. f_equal. rewrite <- (Z.add_comm (Z.of_nat n) 0), <- fmap_add_seqZ. rewrite map_map.
  apply map_ext. intros i. f_equal. lia.
Qed.

Lemma table_cons a x es : table_at a (x :: es) -> bytes a (length (encode x)) = encode x /\ table_at (a + Z.of_nat (length (encode x))) es.
Proof.
  unfold table_at. cbn [map concat]. rewrite length_app, bytes_app. intros H. apply app_inj_1 in H; [done|].
  unfold bytes. by rewrite length_map, length_seqZ, Nat2Z.id.
Qed.

Lemma bytes_S a n : bytes a (S n) = mem a :: bytes (a + 1) n.
Proof. change (S n) with (1 + n)%nat. rewrite bytes_app. change (bytes a 1) with [mem (a + 0)]. by rewrite Z.add_0_r. Qed.

(** One entry. *)
Lemma entry_step e a x s : entry_ok x -> bytes a (length (encode x)) = encode x -> a < e -> (length (cpus s) <= NCPU)%nat ->
  mp_entry e (a, true) s = Ret (inl (a + Z.of_nat (length (encode x)), true)) (record s x) /\ (length (cpus (record s x)) <= NCPU)%nat.
Proof.
  intros Hx Hb He Hn. unfold mp_entry. rewrite (proj2 (Z.ltb_lt a e)) by done. cbn [negb].
  destruct x as [ap rest|ap rest|t rest]; cbn [entry_ok encode length record] in *.
  - rewrite bytes_S in Hb. injection Hb as E0 Hb. rewrite bytes_S in Hb. injection Hb as E1 Hb. rewrite E0. change (MPPROC =? MPPROC) with true. cbn iota.
    split; [|cbn [cpus]; rewrite length_take; lia]. rewrite Hx. eapply bind_step; [reflexivity|]. rewrite E1. unfold ret. f_equal.
    case_bool_decide as Hl; [by rewrite take_ge by (rewrite length_app; cbn; lia)|].
    rewrite take_app_le, take_ge by lia. by destruct s.
  - rewrite bytes_S in Hb. injection Hb as E0 Hb. rewrite bytes_S in Hb. injection Hb as E1 Hb. rewrite E0. change (MPIOAPIC =? MPPROC) with false. change (MPIOAPIC =? MPIOAPIC) with true. cbn iota.
    split; [|done]. rewrite Hx. eapply bind_step; [reflexivity|]. by rewrite E1.
  - rewrite bytes_S in Hb. injection Hb as E0 Hb. destruct Hx as [Ht Hl]. rewrite E0, Hl. split; [|done]. by destruct Ht as [-> | [-> | ->]].
Qed.

Lemma entries_steps es : forall a e s fuel, Forall entry_ok es -> table_at a es -> e = a + Z.of_nat (length (concat (map encode es))) -> (length (cpus s) <= NCPU)%nat ->
  (length es < fuel)%nat -> wp (iter fuel (mp_entry e) (a, true)) (fun r s' => r = true /\ s' = foldl record s es) s.
Proof.
  induction es as [|x es IH]; intros a e s fuel Hok Ht He Hn Hf; (destruct fuel as [|fuel]; [cbn in Hf; lia|]); cbn [iter foldl].
  - apply wp_bind. cbn in He. unfold mp_entry. rewrite (proj2 (Z.ltb_ge a e)) by lia. cbn [negb]. apply wp_ret. by apply wp_ret.
  - apply Forall_cons in Hok as [Hx Hok]. destruct (table_cons a x es Ht) as [Hb Ht']. cbn [map concat] in He. rewrite length_app in He.
    assert (0 < length (encode x))%nat by (destruct x; cbn; lia). destruct (entry_step e a x s Hx Hb ltac:(lia) Hn) as [E Hn'].
    apply wp_bind. eapply wp_of_eq; [exact E|]. cbn beta iota. apply IH; [done|done|lia|done|cbn in Hf; lia].
Qed.

(** [mpinit] reads a configuration table of known entries to its end,
    in one turn for each entry: the local controller of the first eight
    processors is recorded, in order and never more than eight, and the
    number of the last I/O controller. *)
Theorem mpinit_reads mp conf es s fuel : mpconfig = Some (mp, conf) -> Forall entry_ok es -> table_at (conf + SIZEOF_MPCONF) es ->
  conf_length conf = SIZEOF_MPCONF + Z.of_nat (length (concat (map encode es))) -> cpus s = [] -> (length es < fuel)%nat ->
  wp (mpinit fuel) (fun _ s' => cpus s' = cpus (foldl record s es) /\ ioapicid s' = ioapicid (foldl record s es) /\
    lapic s' = conf_lapicaddr conf /\ (length (cpus s') <= NCPU)%nat) s.
Proof.
  intros Hc Hok Ht Hl Hs Hf. unfold mpinit. rewrite Hc. apply wp_bind, wp_modify. apply wp_bind. set (s1 := mkmp _ _ (conf_lapicaddr conf) _).
  eapply wp_mono; [|apply (entries_steps es (conf + SIZEOF_MPCONF)); [done|done|lia|cbn; rewrite Hs; cbn; lia|done]].
  intros r s2 [-> ->]. cbn [negb].
  assert (forall es s0 s0', cpus s0 = cpus s0' -> ioapicid s0 = ioapicid s0' -> (length (cpus s0) <= NCPU)%nat ->
    cpus (foldl record s0 es) = cpus (foldl record s0' es) /\ ioapicid (foldl record s0 es) = ioapicid (foldl record s0' es) /\ lapic (foldl record s0 es) = lapic s0 /\
    (length (cpus (foldl record s0 es)) <= NCPU)%nat) as Hfold.
  { clear. induction es as [|x es IH]; intros s0 s0' E1 E2 Hn; cbn [foldl]; [done|].
    destruct (IH (record s0 x) (record s0' x)) as (I1 & I2 & I3 & I4); [destruct x; cbn [record cpus]; by rewrite ?E1|destruct x; cbn [record ioapicid]; by rewrite ?E2|destruct x; cbn [record cpus]; rewrite ?length_take; lia|].
    split; [done|]. split; [done|]. split; [rewrite I3; by destruct x|done]. }
  destruct (Hfold es s1 s) as (F1 & F2 & F3 & F4); [done|done|cbn; rewrite Hs; cbn; lia|].
  apply wp_when; intros _; [apply wp_modify|]; cbn; done.
Qed.

(** An entry of a type the kernel does not know: the loop stays at it for
    ever, and the message about an unsuitable machine is never reached. *)
Lemma mpinit_unknown_entry e p s fuel ismp : p < e -> 4 < mem p -> iter fuel (mp_entry e) (p, ismp) s = NoFuel.
Proof.
  intros Hp Hm. revert ismp. induction fuel as [|fuel IH]; intros ismp; [done|]. cbn [iter]. apply (bind_step _ _ s (inl (p, false)) s); [|apply (IH false)].
  unfold mp_entry. rewrite (proj2 (Z.ltb_lt p e)) by done. cbn [negb]. unfold MPPROC, MPIOAPIC, MPBUS, MPIOINTR, MPLINTR.
  by rewrite !(proj2 (Z.eqb_neq (mem p) _)) by lia.
Qed.

End Memory.

(** A machine with one processor and one I/O controller. *)
Definition example_mp : list Z := [95; 77; 80; 95; 0; 16; 0; 0; 1; 4; 144; 0; 0; 0; 0; 0].
Definition example_entries : list mpentry := [Proc 3 (replicate 18 0); Ioapic 7 (replicate 6 0)].
Definition example_conf : list Z :=
  [80; 67; 77; 80; 72; 0; 4; 154] ++ replicate 28 0 ++ [0; 0; 0xe0; 0xfe; 0; 0; 0; 0] ++ concat (map encode example_entries).
Definition example_mem (a : Z) : Z :=
  if a <? 0x1000 then 0 else if a <? 0xF0000 then default 0 (example_conf !! Z.to_nat (a - 0x1000)) else default 0 (example_mp !! Z.to_nat (a - 0xF0000)).

Lemma mpinit_reads_witness :
  wp (mpinit example_mem 3) (fun _ s' => cpus s' = [3] /\ ioapicid s' = 7 /\ lapic s' = 0xfee00000 /\ (length (cpus s') <= NCPU)%nat) (mkmp [] 0 0 false).
Proof.
  eapply (mpinit_reads example_mem 0xF0000 0x1000 example_entries (mkmp [] 0 0 false) 3); [by vm_compute|by repeat constructor|by vm_compute|by vm_compute|done|cbn; lia].
Defined.
