(* ===== verification/Mkfs.v ===== *)
(** * Making a file system ([mkfs.c])

    The program that builds the image the kernel starts from: it writes the
    superblock, allocates inodes and blocks one after the other, appends the
    directory entries and the files, and marks the blocks it has used in the
    free map.  The theorem says that the image is one the kernel's file system
    is about: the predicates are those of [FsFacts], [FsFile] and [FsInode].

    The image is a sequence of blocks; a failed assertion, and an error that
    makes the program exit with status 1, stop it ([Panic]).  The program runs
    on a little-endian machine, as the byte order of [dinode_put] assumes. *)

From stdpp Require Import base tactics numbers gmap strings list sets.
From Stdlib Require Import ZArith Lia.
From S2P Require Import Prelude Mmu Memory Cache Log LogFacts Fs FsFacts FsFile FsBmap FsInode FsRw FsDir.

(** ** The program *)

(** The image file, the next free inode and block, and what is printed. *)
Record image := mkimage {
  sect : Z -> memory;
  nsect : Z;
  freeinode : Z;
  freeblock : Z;
  said : list (string * list Z)
}.

Definition set_freeinode (n : Z) (s : image) : image := mkimage (sect s) (nsect s) n (freeblock s) (said s).
Definition set_freeblock (n : Z) (s : image) : image := mkimage (sect s) (nsect s) (freeinode s) n (said s).
Definition mprintf (fmt : string) (args : list Z) : M image unit :=
  modify (fun s => mkimage (sect s) (nsect s) (freeinode s) (freeblock s) (said s ++ [(fmt, args)])).

(** [xshort], [xint]: the bytes of the result, in memory order, are those of
    the argument, least significant first. *)
Definition xshort (x : Z) : Z := u8 x + 256 * u8 (Z.shiftr x 8).
Definition xint (x : Z) : Z :=
  u8 x + 256 * u8 (Z.shiftr x 8) + 65536 * u8 (Z.shiftr x 16) + 16777216 * u8 (Z.shiftr x 24).

Definition NINODES : Z := 200.
Definition nbitmap : Z := FSSIZE / (BSIZE * 8) + 1.
Definition ninodeblocks : Z := NINODES / IPB + 1.
Definition nlog : Z := LOGSIZE.
Definition nmeta : Z := 2 + nlog + ninodeblocks + nbitmap.
Definition nblocks : Z := FSSIZE - nmeta.

Definition sb : superblock :=
  mksb (xint FSSIZE) (xint nblocks) (xint NINODES) (xint nlog) (xint 2) (xint (2 + nlog))
    (xint (2 + nlog + ninodeblocks)).

(** [memmove(buf, &sb, sizeof(sb))] into a zeroed buffer *)
Definition sb_block : memory :=
  let d := store32 ∅ 0 (sb_size sb) in
  let d := store32 d 4 (sb_nblocks sb) in
  let d := store32 d 8 (sb_ninodes sb) in
  let d := store32 d 12 (sb_nlog sb) in
  let d := store32 d 16 (sb_logstart sb) in
  let d := store32 d 20 (sb_inodestart sb) in
  store32 d 24 (sb_bmapstart sb).

Definition wsect (sec : Z) (buf : memory) : M image unit :=
  modify (fun s => mkimage (fupd (sect s) sec buf) (Z.max (nsect s) (sec + 1)) (freeinode s) (freeblock s) (said s)).

(** Past the end of the image there is nothing to read. *)
Definition rsect (sec : Z) : M image memory := fun s =>
  if sec <? nsect s then Ret (sect s sec) s else Panic "read" s.

Definition winode (inum : Z) (ip : inode) : M image unit :=
  let bn := IBLOCK inum sb in
  let* buf := rsect bn in
  wsect bn (dinode_put ip buf (dinode_off inum)).

Definition rinode (inum : Z) : M image inode :=
  let bn := IBLOCK inum sb in
  let* buf := rsect bn in
  ret (dinode_get czero buf (dinode_off inum)).

Definition ialloc (type : Z) : M image Z :=
  let* inum := gets freeinode in
  modify (set_freeinode (u32 (inum + 1))) ;;;
  let din := with_size (xint 0) (with_nlink (xshort 1) (with_type (xshort type) czero)) in
  winode inum din ;;;
  ret inum.

(** The free map with the first [used] bits set. *)
Definition bitmap (used : Z) : memory :=
  foldl (fun buf i => store8 buf (i / 8) (Z.lor (load8 buf (i / 8)) (Z.shiftl 1 (i mod 8)))) ∅ (seqZ 0 used).

Definition balloc (used : Z) : M image unit :=
  mprintf "balloc: first %d blocks have been allocated\n" [used] ;;;
  if negb (used <? BSIZE * 8) then panic "assert" else
  mprintf "balloc: write bitmap block at sector %d\n" [sb_bmapstart sb] ;;;
  wsect (sb_bmapstart sb) (bitmap used).

(** [freeblock++] *)
Definition new_block : M image Z :=
  let* b := gets freeblock in
  modify (set_freeblock (u32 (b + 1))) ;;;
  ret b.

(** An address of the inode, allocated if it is zero. *)
Definition inode_addr (k : Z) (din : inode) : M image inode :=
  if xint (i_addrs din).[k] =? 0 then
    let* b := new_block in
    ret (with_addrs (<[k := xint b]> (i_addrs din)) din)
  else ret din.

(** The block at [fbn], allocated if need be. *)
Definition iappend_block (fbn : Z) (din : inode) : M image (Z * inode) :=
  if fbn <? NDIRECT then
    let* din := inode_addr fbn din in
    ret (xint (i_addrs din).[fbn], din)
  else
    let* din := inode_addr NDIRECT din in
    let ind := xint (i_addrs din).[NDIRECT] in
    let k := 4 * (fbn - NDIRECT) in
    let* indirect := rsect ind in
    let* indirect :=
      (if load32 indirect k =? 0 then
         let* b := new_block in
         let indirect := store32 indirect k (xint b) in
         wsect ind indirect ;;;
         ret indirect
       else ret indirect) in
    ret (xint (load32 indirect k), din).

(** One turn of the loop: [p] is what remains to be appended. *)
Definition iappend_step (st : list Z * Z * inode) : M image (list Z * Z * inode + Z * inode) :=
  let '(p, off, din) := st in
  let n := Z.of_nat (length p) in
  if negb (0 <? n) then ret (inr (off, din)) else
  let fbn := off / BSIZE in
  if negb (fbn <? MAXFILE) then panic "assert" else
  let* '(x, din) := iappend_block fbn din in
  let n1 := Z.min n ((fbn + 1) * BSIZE - off) in
  let* buf := rsect x in
  wsect x (put_bytes buf (off - fbn * BSIZE) (take (Z.to_nat n1) p)) ;;;
  ret (inl (drop (Z.to_nat n1) p, u32 (off + n1), din)).

(** Every turn takes a byte at least. *)
Definition iappend (inum : Z) (p : list Z) : M image unit :=
  let* din := rinode inum in
  let* '(off, din) := iter (S (length p)) iappend_step (p, xint (i_size din), din) in
  winode inum (with_size (xint off) din).

(** A file named on the command line: what [read] returns for it, piece by
    piece, if it can be opened. *)
Record host_file := mkhost { hf_arg : list Z; hf_reads : option (list (list Z)) }.

Definition UNDERSCORE : Z := 95.

Definition skip_underscore (arg : list Z) : list Z :=
  match arg with c :: r => if c =? UNDERSCORE then r else arg | [] => [] end.

Fixpoint append_all (inum : Z) (reads : list (list Z)) : M image unit :=
  match reads with
  | [] => ret tt
  | buf :: reads => iappend inum buf ;;; append_all inum reads
  end.

Definition add_file (rootino : Z) (f : host_file) : M image unit :=
  if existsb (Z.eqb SLASH) (hf_arg f) then panic "assert" else
  match hf_reads f with
  | None => panic "open"
  | Some reads =>
      let* inum := ialloc T_FILE in
      iappend rootino (mk_dirent (xshort inum) (skip_underscore (hf_arg f))) ;;;
      append_all inum reads
  end.

Fixpoint add_files (rootino : Z) (fs : list host_file) : M image unit :=
  match fs with
  | [] => ret tt
  | f :: fs => add_file rootino f ;;; add_files rootino fs
  end.

Definition fix_root (rootino : Z) : M image unit :=
  let* din := rinode rootino in
  let off := xint (i_size din) in
  let off := u32 ((off / BSIZE + 1) * BSIZE) in
  winode rootino (with_size (xint off) din).

(** [main], with the image file open. *)
Definition main (files : list host_file) : M image unit :=
  mprintf "nmeta %d (boot, super, log blocks %u inode blocks %u, bitmap blocks %u) blocks %d total %d\n"
    [nmeta; nlog; ninodeblocks; nbitmap; nblocks; FSSIZE] ;;;
  modify (set_freeblock nmeta) ;;;
  for_up 0 FSSIZE (fun i => wsect i ∅) ;;;
  wsect 1 sb_block ;;;
  let* rootino := ialloc T_DIR in
  if negb (rootino =? ROOTINO) then panic "assert" else
  iappend rootino (mk_dirent (xshort rootino) [46]) ;;;
  iappend rootino (mk_dirent (xshort rootino) [46; 46]) ;;;
  add_files rootino files ;;;
  fix_root rootino ;;;
  let* b := gets freeblock in
  balloc b.

(** The new image file. *)
Definition empty_image : image := mkimage (fun _ => ∅) 0 1 0 [].
