(* ===== verification/MkfsFacts.v ===== *)
(** * Making a file system: the image is a file system

    [fs_inv] describes the image while [mkfs.c] runs: every block it has given
    out has one owner, an inode and a place in its file, the blocks it has not
    given out are zero, and each file has the bytes appended to it so far. *)

From stdpp Require Import base tactics numbers gmap strings list sets.
From Stdlib Require Import ZArith Lia.
From S2P Require Import Prelude Mmu Memory Cache Log LogFacts Fs FsFacts FsFile FsBmap FsInode FsRw FsDir Mkfs.

Definition is_inum (j : Z) : Prop := 1 <= j < NINODES.

(** The byte of a file that holds [l], zero past its end. *)
Definition lbyte (l : list Z) (o : Z) : Z := default 0 (l !! Z.to_nat o).

(** An owner is an inode and a block number, [MAXFILE] for the indirect
    block. *)
Record fs_inv (im : Z -> memory) (fb : Z) (X : Z -> inode) (C : Z -> list Z) (O : Z -> option (Z * Z)) : Prop := {
  g_fb : nmeta <= fb;
  g_own : forall b o, O b = Some o -> nmeta <= b < fb;
  g_zero : forall b k, fb <= b -> 0 <= k < BSIZE -> load8 (im b) k = 0;
  g_blk : forall j bn, is_inum j -> in_file bn -> blk im (X j) bn <> 0 -> O (blk im (X j) bn) = Some (j, bn);
  g_ind : forall j, is_inum j -> ind_addr (X j) <> 0 -> O (ind_addr (X j)) = Some (j, MAXFILE);
  g_dense : forall j bn, is_inum j -> 0 <= bn -> bn * BSIZE < Z.of_nat (length (C j)) -> blk im (X j) bn <> 0;
  g_bytes : forall j o, is_inum j -> 0 <= o < MAXFILE * BSIZE -> fbyte im (X j) o = lbyte (C j) o;
  g_len : forall j, is_inum j -> Z.of_nat (length (C j)) <= MAXFILE * BSIZE
}.

(** ** Geometry *)

Lemma xint_u32 x : xint x = u32 x.
Proof.
  unfold xint, u8, u32. rewrite !Z.shiftr_div_pow2 by lia.
  change (2 ^ 8) with 256. change (2 ^ 16) with 65536. change (2 ^ 24) with 16777216.
  Z.to_euclidean_division_equations. lia.
Qed.

Lemma xint_small x : 0 <= x < 4294967296 -> xint x = x.
Proof. intros. rewrite xint_u32. by apply u32_small. Qed.

Lemma xshort_small x : 0 <= x < 65536 -> xshort x = x.
Proof.
  intros. unfold xshort, u8. rewrite Z.shiftr_div_pow2 by lia. change (2 ^ 8) with 256.
  Z.to_euclidean_division_equations. lia.
Qed.

Lemma nmeta_eq : nmeta = 59.
Proof. done. Qed.

Lemma sb_geo : fs_geo sb 32 FSSIZE.
Proof. split; vm_compute; intuition congruence. Qed.

Lemma data_start_eq : data_start sb = nmeta.
Proof. done. Qed.

Lemma inum_block j : is_inum j -> IBLOCK j sb = j / 8 + 32 /\ 32 <= IBLOCK j sb < 58.
Proof.
  intros Hj. assert (IBLOCK j sb = j / 8 + 32) as E.
  { unfold IBLOCK. change (sb_inodestart sb) with 32. change IPB with 8. unfold is_inum, NINODES in Hj.
    apply u32_small. Z.to_euclidean_division_equations. lia. }
  rewrite E. split; [done|]. unfold is_inum, NINODES in Hj. Z.to_euclidean_division_equations. lia.
Qed.

(** ** Files and the image below *)

Lemma fbyte_ext cur cur' x o : blk cur' x (o / BSIZE) = blk cur x (o / BSIZE) ->
  (blk cur x (o / BSIZE) <> 0 -> cur' (blk cur x (o / BSIZE)) = cur (blk cur x (o / BSIZE))) ->
  fbyte cur' x o = fbyte cur x o.
Proof. intros E1 E2. unfold fbyte. rewrite E1. destruct (Z.eqb_spec (blk cur x (o / BSIZE)) 0); [done|]. by rewrite E2. Qed.

(** Inodes that agree on disk have the same blocks. *)
Lemma disk_eq_blk cur x y bn : disk_eq x y -> 0 <= bn -> blk cur x bn = blk cur y bn.
Proof.
  intros (_ & _ & _ & _ & _ & Ha) Hbn. unfold blk, ind_addr. rewrite (Ha NDIRECT) by done.
  destruct (Z.ltb_spec bn NDIRECT); [|done]. apply Ha. lia.
Qed.

Lemma disk_eq_fbyte cur x y o : disk_eq x y -> 0 <= o -> fbyte cur x o = fbyte cur y o.
Proof.
  intros He Ho. unfold fbyte. rewrite (disk_eq_blk cur x y) by (done || by apply Z.div_pos). done.
Qed.

(** Only the blocks and their bytes matter. *)
Lemma fs_inv_ext im fb X X' C O :
  (forall j, is_inum j -> forall bn, 0 <= bn -> blk im (X' j) bn = blk im (X j) bn) ->
  (forall j, is_inum j -> ind_addr (X' j) = ind_addr (X j)) ->
  fs_inv im fb X C O -> fs_inv im fb X' C O.
Proof.
  intros Eb Ei [H1 H2 H3 H4 H5 H6 H7 H8]. split; try done.
  - intros j bn Hj Hbn. rewrite Eb by (done || apply Hbn). by apply H4.
  - intros j Hj. rewrite Ei by done. by apply H5.
  - intros j bn Hj Hbn. rewrite Eb by done. by apply H6.
  - intros j o Hj Ho. rewrite <- H7 by done. unfold fbyte. rewrite Eb; [done..|]. apply Z.div_pos; [lia|done].
Qed.

Section Steps.
Context (im : Z -> memory) (fb : Z) (X : Z -> inode) (C : Z -> list Z) (O : Z -> option (Z * Z)).
Context (G : fs_inv im fb X C O) (i : Z) (Hi : is_inum i).

Lemma fresh_unowned : O fb = None.
Proof using G. destruct (O fb) eqn:E; [|done]. apply (g_own _ _ _ _ _ G) in E. lia. Qed.

Lemma blk_lt j bn : is_inum j -> in_file bn -> blk im (X j) bn <> 0 -> nmeta <= blk im (X j) bn < fb.
Proof using G. intros Hj Hbn Hne. by eapply (g_own _ _ _ _ _ G), (g_blk _ _ _ _ _ G). Qed.

Lemma own_fupd b o o' : O b = Some o -> fupd O fb o' b = Some o.
Proof using G. intros E. rewrite fupd_ne; [done|]. apply (g_own _ _ _ _ _ G) in E. lia. Qed.

Lemma zero_word_fresh k : 0 <= k -> k + 4 <= BSIZE -> load32 (im fb) k = 0.
Proof using G. intros. unfold load32. rewrite !(g_zero _ _ _ _ _ G) by lia. done. Qed.

Lemma ind_lt j : is_inum j -> ind_addr (X j) <> 0 -> nmeta <= ind_addr (X j) < fb.
Proof using G. intros Hj Hne. by eapply (g_own _ _ _ _ _ G), (g_ind _ _ _ _ _ G). Qed.

(** The image changes at most in the indirect block of [i]. *)
Context (im' : Z -> memory) (Him : forall b, b <> ind_addr (X i) \/ ind_addr (X i) = 0 -> im' b = im b).

Lemma other_blk j bn : is_inum j -> j <> i -> blk im' (X j) bn = blk im (X j) bn.
Proof using G Hi Him.
  intros Hj Hne. apply blk_ext. intros Hz. apply Him. destruct (decide (ind_addr (X i) = 0)) as [|Hzi]; [by right|].
  left. intros E. pose proof (g_ind _ _ _ _ _ G j Hj Hz) as O1. pose proof (g_ind _ _ _ _ _ G i Hi Hzi) as O2. congruence.
Qed.

Lemma data_kept j bn : is_inum j -> in_file bn -> blk im (X j) bn <> 0 -> im' (blk im (X j) bn) = im (blk im (X j) bn).
Proof using G Hi Him.
  intros Hj Hbn Hz. apply Him. destruct (decide (ind_addr (X i) = 0)) as [|Hzi]; [by right|].
  left. intros E. pose proof (g_blk _ _ _ _ _ G j bn Hj Hbn Hz) as O1. pose proof (g_ind _ _ _ _ _ G i Hi Hzi) as O2.
  rewrite E, O2 in O1. injection O1 as <- <-. unfold in_file in Hbn. lia.
Qed.

Lemma fresh_kept b : fb <= b -> im' b = im b.
Proof using G Hi Him.
  intros Hb. apply Him. destruct (decide (ind_addr (X i) = 0)) as [|Hz]; [by right|]. left. pose proof (ind_lt i Hi Hz). lia.
Qed.

(** The inode of [i] is replaced by one with a block more. *)
Lemma fs_inv_more x' bn0 :
  (forall bn, in_file bn -> blk im' x' bn = if decide (bn = bn0) then fb else blk im (X i) bn) ->
  (in_file bn0 -> blk im (X i) bn0 = 0) ->
  (ind_addr x' = ind_addr (X i) \/ ind_addr x' = fb /\ bn0 = MAXFILE) ->
  fs_inv im' (fb + 1) (fupd X i x') C (fupd O fb (Some (i, bn0))).
Proof using G Hi Him.
  intros Hblk Hz0 Hind. pose proof G as [H1 H2 H3 H4 H5 H6 H7 H8]. assert (fb <> 0) as Hfb by (rewrite nmeta_eq in H1; lia).
  assert (forall o, 0 <= o < MAXFILE * BSIZE -> in_file (o / BSIZE)) as Hin by apply div_block.
  split; [lia| | | | | | |done].
  - intros b o. unfold fupd. case_decide; [lia|]. intros E%H2. lia.
  - intros b k Hb Hk. rewrite fresh_kept by lia. apply H3; lia.
  - intros j bn Hj Hbn. destruct (decide (j = i)) as [->|Hne].
    + rewrite fupd_eq, Hblk by done. case_decide as E; intros Hz; [subst; by rewrite fupd_eq|]. by apply own_fupd, H4.
    + rewrite fupd_ne, other_blk by done. intros Hz. by apply own_fupd, H4.
  - intros j Hj. destruct (decide (j = i)) as [->|Hne].
    + rewrite fupd_eq. destruct Hind as [->|[-> ->]]; [|by rewrite fupd_eq]. intros Hz. by apply own_fupd, H5.
    + rewrite fupd_ne by done. intros Hz. by apply own_fupd, H5.
  - intros j bn Hj Hbn Hl. destruct (decide (j = i)) as [->|Hne]; [|rewrite fupd_ne, other_blk by done; by apply H6].
    specialize (H8 i Hi). rewrite fupd_eq, Hblk by (unfold in_file; assert (0 < BSIZE) by done; nia).
    case_decide; [done|by apply H6].
  - intros j o Hj Ho. rewrite <- H7 by done. specialize (Hin o Ho). destruct (decide (j = i)) as [->|Hne].
    + rewrite fupd_eq. unfold fbyte. rewrite Hblk by done. case_decide as E.
      * rewrite E, Hz0 by (by rewrite <- E). rewrite (proj2 (Z.eqb_neq fb 0)) by done. cbn [Z.eqb].
        rewrite fresh_kept by lia. apply H3; [lia|]. by apply Z.mod_pos_bound.
      * destruct (Z.eqb_spec (blk im (X i) (o / BSIZE)) 0); [done|]. by rewrite data_kept.
    + rewrite fupd_ne by done. apply fbyte_ext; [by apply other_blk|]. by apply data_kept.
Qed.

End Steps.

(** ** The four changes [iappend] makes *)

Lemma inv_direct im fb X C O i bn : fs_inv im fb X C O -> is_inum i -> 0 <= bn < NDIRECT -> (i_addrs (X i)).[bn] = 0 ->
  fs_inv im (fb + 1) (fupd X i (with_addrs (<[bn := fb]> (i_addrs (X i))) (X i))) C (fupd O fb (Some (i, bn))).
Proof.
  intros G Hi Hbn Hz. apply fs_inv_more with im; try done.
  - intros bn' Hbn'. apply blk_set_direct; [done|apply Hbn'].
  - intros _. unfold blk. by rewrite (proj2 (Z.ltb_lt bn NDIRECT)) by lia.
  - left. unfold ind_addr. cbn. rewrite asel_insert_ne; [done|lia].
Qed.

Lemma inv_indirect im fb X C O i : fs_inv im fb X C O -> is_inum i -> ind_addr (X i) = 0 ->
  fs_inv im (fb + 1) (fupd X i (with_addrs (<[NDIRECT := fb]> (i_addrs (X i))) (X i))) C (fupd O fb (Some (i, MAXFILE))).
Proof.
  intros G Hi Hz. pose proof (g_fb _ _ _ _ _ G) as Hfb. rewrite nmeta_eq in Hfb.
  apply fs_inv_more with im; try done.
  - intros bn Hbn. unfold in_file in Hbn. rewrite decide_False by lia. unfold blk. rewrite Hz. cbn [Z.eqb].
    unfold ind_addr. cbn [i_addrs with_addrs]. rewrite asel_insert_eq.
    destruct (Z.ltb_spec bn NDIRECT); [apply asel_insert_ne; lia|]. rewrite (proj2 (Z.eqb_neq fb 0)) by lia.
    rewrite MAXFILE_eq, NDIRECT_eq in *. apply (zero_word_fresh _ _ _ _ _ G); unfold BSIZE; lia.
  - intros [_ Hlt]. lia.
  - right. split; [|done]. unfold ind_addr. cbn. apply asel_insert_eq.
Qed.

Lemma inv_entry im fb X C O i bn : fs_inv im fb X C O -> is_inum i -> ind_addr (X i) <> 0 -> NDIRECT <= bn < MAXFILE ->
  blk im (X i) bn = 0 -> fb < 4294967296 ->
  fs_inv (set_entry (X i) bn fb im) (fb + 1) X C (fupd O fb (Some (i, bn))).
Proof.
  intros G Hi Hn Hbn Hz Hlt. pose proof (g_fb _ _ _ _ _ G) as Hfb. rewrite nmeta_eq in Hfb.
  eapply fs_inv_ext; [..|apply (fs_inv_more im fb X C O G i Hi (set_entry (X i) bn fb im)) with (x' := X i) (bn0 := bn)].
  - intros j Hj bn' Hbn'. unfold fupd. by case_decide; subst.
  - intros j Hj. unfold fupd. by case_decide; subst.
  - intros b [Hb|Hb]; [|done]. unfold set_entry. by rewrite fupd_ne.
  - intros bn' [Hbn' _]. apply blk_set_entry; [done..|lia].
  - done.
  - by left.
Qed.

(** Bytes appended to a list. *)
Lemma lbyte_app l c o : 0 <= o -> lbyte (l ++ c) o =
  if decide (Z.of_nat (length l) <= o) then lbyte c (o - Z.of_nat (length l)) else lbyte l o.
Proof.
  intros Ho. unfold lbyte. case_decide.
  - rewrite lookup_app_r by lia. do 2 f_equal. lia.
  - by rewrite lookup_app_l by lia.
Qed.

Lemma lbyte_end l o : Z.of_nat (length l) <= o -> lbyte l o = 0.
Proof. intros. unfold lbyte. rewrite lookup_ge_None_2 by lia. done. Qed.

(** The block of [i] at its end is written. *)
Section Write.
Context (im : Z -> memory) (fb : Z) (X : Z -> inode) (C : Z -> list Z) (O : Z -> option (Z * Z)).
Context (G : fs_inv im fb X C O) (i : Z) (Hi : is_inum i) (bn : Z) (Hbn : in_file bn) (Hx : blk im (X i) bn <> 0).

Lemma mk_write_blk v j bn' : is_inum j -> blk (fupd im (blk im (X i) bn) v) (X j) bn' = blk im (X j) bn'.
Proof using G Hi Hbn Hx.
  intros Hj. apply blk_ext. intros Hz. apply fupd_ne. intros E. pose proof (g_blk _ _ _ _ _ G i bn Hi Hbn Hx) as O1.
  pose proof (g_ind _ _ _ _ _ G j Hj Hz) as O2. rewrite E, O1 in O2. injection O2 as <- ->. unfold in_file in Hbn. lia.
Qed.

Lemma write_other v j bn' : is_inum j -> in_file bn' -> blk im (X j) bn' <> 0 -> (j, bn') <> (i, bn) ->
  fupd im (blk im (X i) bn) v (blk im (X j) bn') = im (blk im (X j) bn').
Proof using G Hi Hbn Hx.
  intros Hj Hbn' Hz Hne. apply fupd_ne. intros E. pose proof (g_blk _ _ _ _ _ G i bn Hi Hbn Hx) as O1.
  pose proof (g_blk _ _ _ _ _ G j bn' Hj Hbn' Hz) as O2. congruence.
Qed.

End Write.

Lemma inv_write im fb X C O i c : fs_inv im fb X C O -> is_inum i -> Forall is_byte c ->
  let off := Z.of_nat (length (C i)) in let x := blk im (X i) (off / BSIZE) in
  off mod BSIZE + Z.of_nat (length c) <= BSIZE -> off < MAXFILE * BSIZE -> x <> 0 ->
  fs_inv (fupd im x (put_bytes (im x) (off mod BSIZE) c)) fb X (fupd C i (C i ++ c)) O.
Proof.
  intros G Hi Hc off x Hfit Hoff Hx. assert (in_file (off / BSIZE)) as Hbn by (apply div_block; lia).
  set (v := put_bytes _ _ _). pose proof (mk_write_blk im fb X C O G i Hi _ Hbn Hx v) as Eb. fold x in Eb.
  pose proof G as [H1 H2 H3 H4 H5 H6 H7 H8]. assert (MAXFILE * BSIZE = 71680 /\ BSIZE = 512) as [Em EB] by done.
  pose proof (Z.div_mod off BSIZE ltac:(done)) as Ediv. pose proof (Z.mod_pos_bound off BSIZE ltac:(done)) as Hmod.
  split; try done.
  - intros b k Hb Hk. rewrite fupd_ne; [by apply H3|]. pose proof (blk_lt _ _ _ _ _ G i _ Hi Hbn Hx) as Hlt. fold x in Hlt. lia.
  - intros j bn Hj Hb. rewrite Eb by done. by apply H4.
  - intros j bn Hj Hb Hl. rewrite Eb by done. destruct (decide (j = i)) as [->|Hne]; [|rewrite fupd_ne in Hl by done; by apply H6].
    rewrite fupd_eq, length_app in Hl. destruct (decide (bn * BSIZE < off)); [by apply H6|].
    replace bn with (off / BSIZE); [done|]. unfold in_file in Hbn. nia.
  - intros j o Hj Ho. assert (in_file (o / BSIZE)) as Hob by by apply div_block.
    pose proof (Z.div_mod o BSIZE ltac:(done)). pose proof (Z.mod_pos_bound o BSIZE ltac:(done)).
    destruct (decide ((j, o / BSIZE) = (i, off / BSIZE))) as [E|Hne].
    + injection E as -> E. rewrite fupd_eq. specialize (H7 i o Hi Ho). unfold fbyte in *. rewrite Eb, E by done.
      rewrite E in H7. fold x in H7 |- *. destruct (Z.eqb_spec x 0); [done|]. rewrite fupd_eq. unfold v.
      rewrite put_bytes_load8, lbyte_app by lia. fold off. unfold patch, lbyte. rewrite H7. unfold lbyte.
      repeat case_decide; try nia; [|done].
      replace (o mod BSIZE - off mod BSIZE) with (o - off) by nia.
      destruct (c !! Z.to_nat (o - off)) as [z|] eqn:Ez; cbn; [apply u8_small; exact (Forall_lookup_1 _ _ _ _ Hc Ez)|].
      rewrite lookup_ge_None_2 by (unfold off in *; lia). done.
    + rewrite fbyte_ext with (cur := im); [|by apply Eb|by intros; eapply (write_other im fb X C O G i Hi)].
      rewrite H7 by done. destruct (decide (j = i)) as [->|Hji]; [|by rewrite fupd_ne]. rewrite fupd_eq, lbyte_app by lia.
      fold off. case_decide; [|done]. rewrite lbyte_end by (unfold off in *; lia). symmetry. apply lbyte_end.
      assert (o / BSIZE <> off / BSIZE) by (intros E; by rewrite E in Hne). nia.
  - intros j Hj. destruct (decide (j = i)) as [->|]; [|rewrite fupd_ne by done; by apply H8].
    rewrite fupd_eq, length_app. fold off. unfold in_file in Hbn. nia.
Qed.

(** ** The program *)

(** Nothing but data blocks and the next free block has changed. *)
Record only_data (s s' : image) : Prop := {
  od_nsect : nsect s' = nsect s;
  od_inode : freeinode s' = freeinode s;
  od_meta : forall b, b < nmeta -> sect s' b = sect s b
}.

#[global] Instance only_data_preorder : PreOrder only_data.
Proof.
  split; [by split|]. intros s1 s2 s3 [A1 A2 A3] [B1 B2 B3].
  split; [congruence|congruence|]. intros b Hb. by rewrite B3, A3.
Qed.

(** The inode has other addresses. *)
Record readdressed (x x' : inode) : Prop := {
  ra_type : i_type x' = i_type x;
  ra_major : i_major x' = i_major x;
  ra_minor : i_minor x' = i_minor x;
  ra_nlink : i_nlink x' = i_nlink x;
  ra_size : i_size x' = i_size x;
  ra_addrs : forall k, 0 <= k <= NDIRECT -> 0 <= (i_addrs x').[k] < 4294967296
}.

Lemma readdressed_trans x y z : readdressed x y -> readdressed y z -> readdressed x z.
Proof. intros [] []. split; congruence || done. Qed.

Lemma readdressed_refl x : inode_wf x -> readdressed x x.
Proof. intros []. by split. Qed.

Lemma readdressed_wf x y : inode_wf x -> readdressed x y -> inode_wf y.
Proof. intros [] [E1 E2 E3 E4 E5 E6]. split; rewrite ?E1, ?E2, ?E3, ?E4, ?E5; done. Qed.

Lemma wp_rsect s b (Q : memory -> image -> Prop) : b < nsect s -> Q (sect s b) s -> wp (rsect b) Q s.
Proof. intros Hb HQ. unfold wp, rsect. by rewrite (proj2 (Z.ltb_lt b (nsect s))). Qed.

Lemma wp_new_block s (Q : Z -> image -> Prop) : 0 <= freeblock s < FSSIZE ->
  Q (freeblock s) (set_freeblock (freeblock s + 1) s) -> wp new_block Q s.
Proof.
  intros Hf HQ. apply wp_bind, wp_gets, wp_bind, wp_modify, wp_ret. unfold FSSIZE in Hf. by rewrite u32_small by lia.
Qed.

Lemma readdressed_insert x k b : inode_wf x -> 0 <= b < 4294967296 -> readdressed x (with_addrs (<[k := b]> (i_addrs x)) x).
Proof.
  intros [] Hb. split; try done. intros k' Hk'. cbn. rewrite asel_insert. case_decide; [done|auto].
Qed.

(** The state of the image, the inodes and their files. *)
Record at_work (s : image) (X : Z -> inode) (C : Z -> list Z) (O : Z -> option (Z * Z)) : Prop := {
  aw_inv : fs_inv (sect s) (freeblock s) X C O;
  aw_nsect : nsect s = FSSIZE;
  aw_wf : forall j, is_inum j -> inode_wf (X j)
}.

Lemma at_work_fupd s X C O i x : is_inum i -> inode_wf x -> (forall j, is_inum j -> inode_wf (X j)) ->
  fs_inv (sect s) (freeblock s) (fupd X i x) C O -> nsect s = FSSIZE -> at_work s (fupd X i x) C O.
Proof. intros Hi Hx Hwf G Hn. split; [done|done|]. intros j Hj. unfold fupd. case_decide; [done|auto]. Qed.

Lemma fupd_same {V} (f : Z -> V) n : forall j, fupd f n (f n) j = f j.
Proof. intros j. unfold fupd. by case_decide; subst. Qed.

Lemma at_work_same s X C O i : at_work s X C O -> at_work s (fupd X i (X i)) C O.
Proof.
  intros [G Hn Hwf]. split; [|done|intros j Hj; rewrite fupd_same; auto].
  eapply fs_inv_ext; [..|exact G]; intros j Hj; by rewrite fupd_same.
Qed.

(** An address of the inode, after [inode_addr]. *)
Lemma wp_inode_addr s X C O i k (bn := if decide (k = NDIRECT) then MAXFILE else k) (Q : inode -> image -> Prop) :
  at_work s X C O -> is_inum i -> 0 <= k <= NDIRECT ->
  let new := if decide ((i_addrs (X i)).[k] = 0) then 1 else 0 in freeblock s + new <= FSSIZE ->
  (forall s' O' x, at_work s' (fupd X i x) C O' -> only_data s s' -> readdressed (X i) x ->
    (i_addrs x).[k] <> 0 -> freeblock s' = freeblock s + new -> sect s' = sect s ->
    (forall k', k' <> k -> (i_addrs x).[k'] = (i_addrs (X i)).[k']) ->
    ((i_addrs (X i)).[k] <> 0 -> x = X i) ->
    Q x s') ->
  wp (inode_addr k (X i)) Q s.
Proof.
  intros W Hi Hk new Hroom HQ. pose proof W as [G Hn Hwf]. pose proof (Hwf i Hi) as Hw. pose proof (g_fb _ _ _ _ _ G) as Hfb.
  rewrite nmeta_eq in Hfb. unfold inode_addr. rewrite xint_small by by apply Hw.
  unfold new in *. destruct (Z.eqb_spec (i_addrs (X i)).[k] 0) as [Hz|Hz].
  - rewrite decide_True in * by done. apply wp_bind, wp_new_block; [lia|]. apply wp_ret. unfold FSSIZE in *.
    rewrite xint_small by lia.
    assert (readdressed (X i) (with_addrs (<[k := freeblock s]> (i_addrs (X i))) (X i))) as Hra by (apply readdressed_insert; [done|lia]).
    apply (HQ _ (fupd O (freeblock s) (Some (i, bn)))); try done.
    + apply at_work_fupd; [done|by eapply readdressed_wf|done| |done]. unfold bn. case_decide as E.
      * subst k. by apply inv_indirect.
      * apply inv_direct; [done..|lia|done].
    + cbn. rewrite asel_insert_eq. lia.
    + intros k' Hk'. cbn. by apply asel_insert_ne.
  - rewrite decide_False in * by done. apply wp_ret. apply (HQ s O); try done; [by apply at_work_same|by apply readdressed_refl|lia].
Qed.

(** The blocks [iappend_block] may have to allocate. *)
Definition blocks_needed (im : Z -> memory) (x : inode) (fbn : Z) : Z :=
  if decide (blk im x fbn = 0) then (if decide (NDIRECT <= fbn /\ ind_addr x = 0) then 2 else 1) else 0.

Definition block_post s X C i fbn (Q : Z * inode -> image -> Prop) : Prop :=
  forall s' O' x, at_work s' (fupd X i x) C O' -> only_data s s' -> readdressed (X i) x ->
    blk (sect s') x fbn <> 0 -> freeblock s' <= freeblock s + blocks_needed (sect s) (X i) fbn ->
    Q (blk (sect s') x fbn, x) s'.

Lemma blk_u32 im x bn : inode_wf x -> 0 <= bn -> 0 <= blk im x bn < 4294967296.
Proof.
  intros Hw Hbn. unfold blk. destruct (Z.ltb_spec bn NDIRECT); [apply Hw; lia|].
  destruct (_ =? 0); [done|apply load32_range].
Qed.

Lemma fs_inv_at im fb X C O i x : fs_inv im fb X C O -> X i = x -> fs_inv im fb (fupd X i x) C O.
Proof. intros G <-. eapply fs_inv_ext; [..|exact G]; intros j Hj; by rewrite fupd_same. Qed.

Lemma fupd_fupd {V} (f : Z -> V) n v w j : fupd (fupd f n v) n w j = fupd f n w j.
Proof. unfold fupd. by case_decide. Qed.

(** The entry of the indirect block. *)
Lemma wp_indirect_entry s X C O i fbn (Q : Z * inode -> image -> Prop) (k := 4 * (fbn - NDIRECT)) :
  at_work s X C O -> is_inum i -> NDIRECT <= fbn < MAXFILE -> ind_addr (X i) <> 0 ->
  let new := if decide (blk (sect s) (X i) fbn = 0) then 1 else 0 in freeblock s + new <= FSSIZE ->
  (forall s' O', at_work s' X C O' -> only_data s s' -> blk (sect s') (X i) fbn <> 0 ->
    freeblock s' = freeblock s + new -> Q (blk (sect s') (X i) fbn, X i) s') ->
  wp (let* indirect := rsect (ind_addr (X i)) in
      let* indirect :=
        (if load32 indirect k =? 0 then
           let* b := new_block in
           let indirect := store32 indirect k (xint b) in
           wsect (ind_addr (X i)) indirect ;;; ret indirect
         else ret indirect) in
      ret (xint (load32 indirect k), X i)) Q s.
Proof.
  intros W Hi Hfbn Hind new Hroom HQ. pose proof W as [G Hn Hwf]. pose proof (g_fb _ _ _ _ _ G) as Hfb. rewrite nmeta_eq in Hfb.
  pose proof (ind_lt _ _ _ _ _ G i Hi Hind) as Hil. rewrite nmeta_eq in Hil.
  assert (freeblock s <= FSSIZE) as Hle by (unfold new in Hroom; case_decide; lia). unfold FSSIZE in *.
  apply wp_bind, wp_rsect; [lia|].
  assert (forall im, load32 (im (ind_addr (X i))) k = blk im (X i) fbn) as Eblk.
  { intros im. unfold blk. rewrite (proj2 (Z.ltb_ge fbn NDIRECT)) by lia. by destruct (Z.eqb_spec (ind_addr (X i)) 0). }
  rewrite Eblk. unfold new in *. destruct (Z.eqb_spec (blk (sect s) (X i) fbn) 0) as [Hz|Hz].
  - rewrite decide_True in * by done. apply wp_bind, wp_bind, wp_new_block; [unfold FSSIZE; lia|].
    apply wp_bind, wp_modify. apply wp_ret, wp_ret. rewrite (xint_small (freeblock s)) by lia.
    rewrite load32_store32_eq, u32_small, xint_small by lia.
    set (s' := mkimage _ _ _ _ _). assert (blk (sect s') (X i) fbn = freeblock s) as Eb.
    { change (sect s') with (set_entry (X i) fbn (freeblock s) (sect s)).
      rewrite blk_set_entry by (done || lia || (rewrite NDIRECT_eq in Hfbn; lia)). by rewrite decide_True. }
    rewrite <- Eb. apply (HQ s' (fupd O (freeblock s) (Some (i, fbn)))); [| |rewrite Eb; lia|done].
    + split; [by apply inv_entry; [..|lia]|cbn; unfold FSSIZE; lia|done].
    + split; [cbn; lia|done|]. intros b Hb. rewrite nmeta_eq in Hb. cbn. apply fupd_ne. lia.
  - rewrite decide_False in * by done. apply wp_bind, wp_ret, wp_ret. rewrite Eblk, xint_small by (apply blk_u32; [auto|rewrite NDIRECT_eq in *; lia]).
    apply (HQ s O); [done|done|done|lia].
Qed.

Lemma needed_direct im x fbn : fbn < NDIRECT ->
  blocks_needed im x fbn = if decide ((i_addrs x).[fbn] = 0) then 1 else 0.
Proof.
  intros Hlt. unfold blocks_needed, blk. rewrite (proj2 (Z.ltb_lt fbn NDIRECT)) by done.
  by rewrite (decide_False (P := NDIRECT <= fbn /\ _)) by lia.
Qed.

Lemma needed_indirect im x fbn : NDIRECT <= fbn -> blocks_needed im x fbn =
  (if decide (ind_addr x = 0) then 1 else 0) + (if decide (blk im x fbn = 0) then 1 else 0).
Proof.
  intros Hge. unfold blocks_needed. destruct (decide (ind_addr x = 0)) as [Hz|Hz].
  - assert (blk im x fbn = 0) as -> by (unfold blk; by rewrite (proj2 (Z.ltb_ge fbn NDIRECT)), Hz by lia).
    by rewrite (decide_True (P := NDIRECT <= fbn /\ _)).
  - by rewrite (decide_False (P := NDIRECT <= fbn /\ _)) by tauto.
Qed.

(** Allocating the indirect block adds no entry to it. *)
Lemma needed_after im x y fbn : NDIRECT <= fbn -> (ind_addr x <> 0 -> y = x) ->
  (if decide (ind_addr x = 0) then 1 else 0) + (if decide (blk im y fbn = 0) then 1 else 0) <= blocks_needed im x fbn.
Proof.
  intros Hge Hy. rewrite needed_indirect by done. destruct (decide (ind_addr x = 0)) as [Hz|Hz]; [|by rewrite Hy].
  assert (blk im x fbn = 0) as -> by (unfold blk; by rewrite (proj2 (Z.ltb_ge fbn NDIRECT)), Hz by lia).
  repeat case_decide; done || lia.
Qed.

Lemma wp_iappend_block s X C O i fbn Q : at_work s X C O -> is_inum i -> in_file fbn ->
  freeblock s + blocks_needed (sect s) (X i) fbn <= FSSIZE -> block_post s X C i fbn Q ->
  wp (iappend_block fbn (X i)) Q s.
Proof.
  intros W Hi [Hfbn Hmax] Hroom HQ. unfold iappend_block, block_post in *.
  destruct (Z.ltb_spec fbn NDIRECT) as [Hlt|Hge].
  - rewrite needed_direct in * by done. apply wp_bind, (wp_inode_addr s X C O); [done|done|lia|done|].
    intros s' O' x W' Hod Hra Hne Hf _ _ _. apply wp_ret. rewrite xint_small by (apply Hra; lia).
    replace (i_addrs x).[fbn] with (blk (sect s') x fbn) by (unfold blk; by rewrite (proj2 (Z.ltb_lt fbn NDIRECT))).
    apply (HQ s' O'); try done; [|lia]. unfold blk. by rewrite (proj2 (Z.ltb_lt fbn NDIRECT)).
  - apply wp_bind, (wp_inode_addr s X C O); [done|done|by rewrite NDIRECT_eq| |].
    { pose proof (needed_after (sect s) (X i) (X i) fbn Hge ltac:(done)). fold (ind_addr (X i)). case_decide; case_decide; lia. }
    intros s1 O1 x W1 Hod1 Hra Hne Hf1 Hs1 Hk Hsame. fold (ind_addr (X i)) (ind_addr x) in *.
    pose proof (needed_after (sect s) (X i) x fbn Hge Hsame) as Hle.
    rewrite xint_small by (apply Hra; by rewrite NDIRECT_eq).
    pose proof (wp_indirect_entry s1 (fupd X i x) C O1 i fbn Q W1 Hi (conj Hge Hmax)) as HW. rewrite fupd_eq in HW.
    apply HW; [done|rewrite Hs1; lia|]. intros s2 O2 W2 Hod2 Hne2 Hf2. rewrite Hs1 in Hf2. apply (HQ s2 O2); try done; [by transitivity s1|lia].
Qed.

Lemma at_work_ext s X X' C C' O : (forall j, X' j = X j) -> (forall j, C' j = C j) -> at_work s X C O -> at_work s X' C' O.
Proof.
  intros EX EC [[H1 H2 H3 H4 H5 H6 H7 H8] Hn Hwf]. split; [split|done|]; try done; intros j; rewrite ?EX, ?EC; eauto.
Qed.

(** The blocks of a file of [n] bytes, the indirect one included. *)
Definition fblocks (n : Z) : Z := (n + BSIZE - 1) / BSIZE + (if NDIRECT * BSIZE <? n then 1 else 0).

Ltac fblia := unfold fblocks, FSSIZE, BSIZE, NDIRECT, MAXFILE, NINDIRECT in *; repeat case_match; bprop;
  Z.to_euclidean_division_equations; lia.

Lemma fblocks_mono n m : n <= m -> fblocks n <= fblocks m.
Proof. intros. fblia. Qed.

(** A piece within one block needs what the size accounts for. *)
Lemma needed_fblocks im fb X C O i n1 : fs_inv im fb X C O -> is_inum i ->
  let off := Z.of_nat (length (C i)) in
  off < MAXFILE * BSIZE -> 1 <= n1 -> off + n1 <= (off / BSIZE + 1) * BSIZE ->
  blocks_needed im (X i) (off / BSIZE) <= fblocks (off + n1) - fblocks off.
Proof.
  intros G Hi off Hoff Hn1 Hle. pose proof (g_dense _ _ _ _ _ G i) as Hd. fold off in Hd.
  pose proof (Z.div_mod off BSIZE ltac:(done)) as Ediv. pose proof (Z.mod_pos_bound off BSIZE ltac:(done)) as Hmod.
  assert (0 <= off / BSIZE) as Hq by (apply Z.div_pos; [lia|done]). unfold blocks_needed.
  destruct (decide (blk im (X i) (off / BSIZE) = 0)) as [Hz|Hz]; [|pose proof (fblocks_mono off (off + n1)); lia].
  assert (off mod BSIZE = 0) as Hm.
  { destruct (decide (off mod BSIZE = 0)); [done|]. exfalso. apply (Hd (off / BSIZE)); [done|lia|lia|done]. }
  destruct (decide (NDIRECT <= off / BSIZE /\ ind_addr (X i) = 0)) as [[H12 Hind]|_].
  - assert (off = 6144) as E; [|rewrite E in *; fblia].
    destruct (decide (off = 6144)); [done|]. exfalso. apply (Hd NDIRECT); [done..|rewrite NDIRECT_eq, BSIZE_eq in *; lia|].
    unfold blk. by rewrite Z.ltb_irrefl, Hind.
  - fblia.
Qed.

(** One turn. *)
Lemma wp_iappend_step s X C O i p (Q : list Z * Z * inode + Z * inode -> image -> Prop) :
  at_work s X C O -> is_inum i -> Forall is_byte p -> p <> [] ->
  let off := Z.of_nat (length (C i)) in
  let n1 := Z.min (Z.of_nat (length p)) ((off / BSIZE + 1) * BSIZE - off) in
  off + Z.of_nat (length p) <= MAXFILE * BSIZE -> freeblock s + fblocks (off + n1) - fblocks off <= FSSIZE ->
  (forall s' O' x, 1 <= n1 <= Z.of_nat (length p) ->
    at_work s' (fupd X i x) (fupd C i (C i ++ take (Z.to_nat n1) p)) O' -> only_data s s' -> readdressed (X i) x ->
    freeblock s' <= freeblock s + fblocks (off + n1) - fblocks off ->
    Q (inl (drop (Z.to_nat n1) p, off + n1, x)) s') ->
  wp (iappend_step (p, off, X i)) Q s.
Proof.
  intros W Hi Hp Hne off n1 Hmax Hroom HQ. pose proof W as [G Hn Hwf]. destruct p as [|c0 p0]; [done|].
  set (p := c0 :: p0) in *. assert (1 <= Z.of_nat (length p)) as Hlen by (cbn; lia).
  pose proof (Z.div_mod off BSIZE ltac:(done)) as Ediv. pose proof (Z.mod_pos_bound off BSIZE ltac:(done)) as Hmod.
  assert (1 <= n1 /\ off + n1 <= (off / BSIZE + 1) * BSIZE) as [Hn1 Hn1'] by (unfold n1; nia).
  unfold iappend_step. rewrite (proj2 (Z.ltb_lt 0 _)) by lia. cbn [negb].
  assert (in_file (off / BSIZE)) as Hbn by (apply div_block; lia). rewrite (proj2 (Z.ltb_lt _ MAXFILE)) by apply Hbn. cbn [negb].
  pose proof (needed_fblocks _ _ _ _ _ i n1 G Hi ltac:(lia) Hn1 Hn1') as Hneed. fold off in Hneed.
  apply wp_bind, (wp_iappend_block s X C O); [done..|lia|]. intros s1 O1 x W1 Hod1 Hra Hbz Hf1. pose proof W1 as [G1 Hns1 Hwf1].
  fold n1. pose proof (blk_lt _ _ _ _ _ G1 i (off / BSIZE) Hi Hbn) as Hb. rewrite fupd_eq in Hb. specialize (Hb Hbz).
  apply wp_bind, wp_rsect; [lia|]. apply wp_bind, wp_modify, wp_ret.
  assert (length (take (Z.to_nat n1) p) = Z.to_nat n1) as Htk by (rewrite length_take; lia).
  pose proof (inv_write _ _ _ _ _ i (take (Z.to_nat n1) p) G1 Hi ltac:(by apply Forall_take)) as Gw. cbn zeta in Gw.
  fold off in Gw. rewrite fupd_eq, Htk in Gw. specialize (Gw ltac:(lia) ltac:(lia) Hbz).
  replace (off - off / BSIZE * BSIZE) with (off mod BSIZE) by lia. rewrite u32_small by (rewrite MAXFILE_eq, BSIZE_eq in *; lia).
  apply (HQ _ O1 x); [unfold n1; lia|split; [exact Gw|cbn; lia|done]| |done|cbn; lia].
  transitivity s1; [done|]. split; [cbn; lia|done|]. intros b Hb'. cbn. apply fupd_ne. lia.
Qed.

(** The loop. *)
Lemma wp_iappend_loop fuel : forall s X C O i p (Q : Z * inode -> image -> Prop),
  at_work s X C O -> is_inum i -> Forall is_byte p -> (length p < fuel)%nat ->
  let off := Z.of_nat (length (C i)) in
  let e := off + Z.of_nat (length p) in
  e <= MAXFILE * BSIZE -> freeblock s + fblocks e - fblocks off <= FSSIZE ->
  (forall s' O' x, at_work s' (fupd X i x) (fupd C i (C i ++ p)) O' -> only_data s s' -> readdressed (X i) x ->
    freeblock s' <= freeblock s + fblocks e - fblocks off -> Q (e, x) s') ->
  wp (iter fuel iappend_step (p, off, X i)) Q s.
Proof.
  induction fuel as [|fuel IH]; intros s X C O i p Q W Hi Hp Hf off e Hmax Hroom HQ; [lia|]. cbn [iter]. apply wp_bind.
  destruct (decide (p = [])) as [->|Hne].
  { apply wp_ret, wp_ret. assert (e = off) as Ee by (unfold e; cbn; lia).
    replace (off, X i) with (e, X i) by by rewrite Ee. apply (HQ s O); [|done| |rewrite Ee; lia].
    - eapply at_work_ext; [apply fupd_same| |exact W]. intros j. rewrite app_nil_r. apply fupd_same.
    - apply readdressed_refl. by apply W. }
  set (n1 := Z.min (Z.of_nat (length p)) ((off / BSIZE + 1) * BSIZE - off)).
  assert (fblocks (off + n1) <= fblocks e) as Hmono by (apply fblocks_mono; unfold e; lia).
  apply (wp_iappend_step s X C O i p); fold off n1; [done..|lia|]. intros s1 O1 x Hn1 W1 Hod1 Hra1 Hf1.
  set (c := take (Z.to_nat n1) p) in *. set (r := drop (Z.to_nat n1) p).
  assert (Z.of_nat (length c) = n1 /\ Z.of_nat (length r) = Z.of_nat (length p) - n1) as [Hc Hr].
  { unfold c, r. rewrite length_take, length_drop. lia. }
  assert (c ++ r = p) as Ecr by apply take_drop.
  pose proof (IH s1 (fupd X i x) (fupd C i (C i ++ c)) O1 i r Q W1 Hi ltac:(by apply Forall_drop) ltac:(lia)) as H.
  cbn zeta in H. rewrite !fupd_eq, length_app, Nat2Z.inj_add, Hc, Hr in H. fold off in H.
  replace (off + n1 + (Z.of_nat (length p) - n1)) with e in H by (unfold e; lia).
  apply H; [done|lia|]. intros s2 O2 y W2 Hod2 Hra2 Hf2.
  apply (HQ s2 O2); [|by transitivity s1|by eapply readdressed_trans|lia].
  eapply at_work_ext; [| |exact W2]; intros j; rewrite fupd_fupd; [done|]. by rewrite <- app_assoc, Ecr.
Qed.

(** ** Inodes on the image *)

Lemma fs_inv_meta im im' fb X C O : (forall b, nmeta <= b -> im' b = im b) -> fs_inv im fb X C O -> fs_inv im' fb X C O.
Proof.
  intros E G. pose proof G as [H1 H2 H3 H4 H5 H6 H7 H8].
  assert (forall j bn, is_inum j -> blk im' (X j) bn = blk im (X j) bn) as Eb.
  { intros j bn Hj. apply blk_ext. intros Hz. apply E. by apply (ind_lt _ _ _ _ _ G). }
  split; try done.
  - intros b k Hb Hk. rewrite E by lia. by apply H3.
  - intros j bn Hj Hbn. rewrite Eb by done. by apply H4.
  - intros j bn Hj Hbn. rewrite Eb by done. by apply H6.
  - intros j o Hj Ho. rewrite <- H7 by done. apply fbyte_ext; [by apply Eb|]. intros Hz. apply E.
    apply (blk_lt _ _ _ _ _ G j); [done|by apply div_block|done].
Qed.

(** The whole state: the files, their inodes on the image with type [T], the
    superblock, and the empty log. *)
Record mk_inv (s : image) (X : Z -> inode) (C : Z -> list Z) (T : Z -> Z) (O : Z -> option (Z * Z)) : Prop := {
  mi_work : at_work s X C O;
  mi_disk : forall j, is_inum j -> stored (sect s (IBLOCK j sb)) (dinode_off j) (X j);
  mi_size : forall j, is_inum j -> i_size (X j) = Z.of_nat (length (C j));
  mi_type : forall j, is_inum j -> i_type (X j) = T j /\ i_nlink (X j) = (if T j =? 0 then 0 else 1) /\
    i_major (X j) = 0 /\ i_minor (X j) = 0;
  mi_sb : sect s 1 = sb_block;
  mi_log : forall b, 0 <= b < 32 -> b <> 1 -> sect s b = ∅
}.

(** Writing an inode. *)
Lemma wp_winode s i x (Q : unit -> image -> Prop) : nsect s = FSSIZE -> is_inum i ->
  Q tt (mkimage (fupd (sect s) (IBLOCK i sb) (dinode_put x (sect s (IBLOCK i sb)) (dinode_off i))) FSSIZE
         (freeinode s) (freeblock s) (said s)) -> wp (winode i x) Q s.
Proof.
  intros Hn Hi HQ. destruct (inum_block i Hi) as [_ Hb]. apply wp_bind, wp_rsect; [unfold FSSIZE in *; lia|]. apply wp_modify.
  replace (Z.max (nsect s) (IBLOCK i sb + 1)) with FSSIZE by (rewrite Hn; unfold FSSIZE; lia). done.
Qed.

Lemma put_disk im X i x : (forall j, is_inum j -> stored (im (IBLOCK j sb)) (dinode_off j) (X j)) -> is_inum i -> inode_wf x ->
  forall j, is_inum j -> stored (fupd im (IBLOCK i sb) (dinode_put x (im (IBLOCK i sb)) (dinode_off i)) (IBLOCK j sb))
    (dinode_off j) (fupd X i x j).
Proof.
  intros Hd Hi Hx j Hj. destruct (inum_block i Hi) as [Ei _], (inum_block j Hj) as [Ej _].
  destruct (decide (j = i)) as [->|Hne]; [rewrite !fupd_eq; by apply put_stored|]. rewrite (fupd_ne X) by done.
  unfold fupd. case_decide as E; [|by apply Hd]. rewrite <- E. apply stored_other; [by apply Hd|].
  apply dinode_off_disjoint; [unfold is_inum in *; lia..|done|]. change IPB with 8. lia.
Qed.

(** The state after [winode]: the file of [i] is what [x] says. *)
Lemma winode_inv s X C T O i x t : at_work s (fupd X i x) C O -> is_inum i -> inode_wf x ->
  (forall j, is_inum j -> stored (sect s (IBLOCK j sb)) (dinode_off j) (X j)) ->
  (forall j, is_inum j -> i_size (fupd X i x j) = Z.of_nat (length (C j))) ->
  (forall j, is_inum j -> i_type (X j) = T j /\ i_nlink (X j) = (if T j =? 0 then 0 else 1) /\ i_major (X j) = 0 /\ i_minor (X j) = 0) ->
  i_type x = t -> i_nlink x = (if t =? 0 then 0 else 1) -> i_major x = 0 -> i_minor x = 0 ->
  sect s 1 = sb_block -> (forall b, 0 <= b < 32 -> b <> 1 -> sect s b = ∅) ->
  mk_inv (mkimage (fupd (sect s) (IBLOCK i sb) (dinode_put x (sect s (IBLOCK i sb)) (dinode_off i))) FSSIZE
    (freeinode s) (freeblock s) (said s)) (fupd X i x) C (fupd T i t) O.
Proof.
  intros [G Hn Hwf] Hi Hx Hd Hsz Hty H1 H2 H3 H4 H5 H6. destruct (inum_block i Hi) as [_ Hb].
  split; cbn [sect].
  - split; [|done|done]. eapply fs_inv_meta; [|exact G]. intros b Hb'. cbn. apply fupd_ne. rewrite nmeta_eq in Hb'. lia.
  - by apply put_disk.
  - done.
  - intros j Hj. unfold fupd. case_decide; [done|by apply Hty].
  - rewrite fupd_ne by lia. done.
  - intros b Hb1 Hb2. rewrite fupd_ne by lia. by apply H6.
Qed.

Lemma disk_eq_wf x y : disk_eq x y -> inode_wf y -> inode_wf x.
Proof.
  intros (E1 & E2 & E3 & E4 & E5 & E6) []. split; rewrite ?E1, ?E2, ?E3, ?E4, ?E5; try done. intros k Hk. rewrite E6; auto.
Qed.

(** Reading an inode gives one with the same blocks. *)
Lemma wp_rinode s X C T O i (Q : inode -> image -> Prop) : mk_inv s X C T O -> is_inum i ->
  (forall x, disk_eq x (X i) -> at_work s (fupd X i x) C O -> inode_wf x -> Q x s) -> wp (rinode i) Q s.
Proof.
  intros [[G Hn Hwf] Hd _ _ _ _] Hi HQ. destruct (inum_block i Hi) as [_ Hb].
  apply wp_bind, wp_rsect; [unfold FSSIZE in *; lia|]. apply wp_ret.
  pose proof (stored_get _ _ _ czero (Hd i Hi)) as He. pose proof (disk_eq_wf _ _ He (Hwf i Hi)) as Hx.
  apply HQ; [done| |done]. apply at_work_fupd; try done. eapply fs_inv_ext; [..|exact G].
  - intros j Hj bn Hbn. unfold fupd. case_decide; [subst|done]. by apply disk_eq_blk.
  - intros j Hj. unfold fupd. case_decide; [subst|done]. by apply He.
Qed.

Lemma wf_size x n : inode_wf x -> 0 <= n < 4294967296 -> inode_wf (with_size n x).
Proof. intros [] Hn. by split. Qed.

Lemma at_work_size s X C O i x n : at_work s (fupd X i x) C O -> is_inum i -> 0 <= n < 4294967296 ->
  at_work s (fupd X i (with_size n x)) C O.
Proof.
  intros [G Hn Hwf] Hi Hsz. split; [|done|].
  - eapply fs_inv_ext; [..|exact G]; intros j Hj; unfold fupd; by case_decide.
  - intros j Hj. specialize (Hwf j Hj). unfold fupd in *. case_decide; [by apply wf_size|done].
Qed.

(** Appending to a file. *)
Lemma wp_iappend s X C T O i p (Q : unit -> image -> Prop) : mk_inv s X C T O -> is_inum i -> Forall is_byte p ->
  let off := Z.of_nat (length (C i)) in let e := off + Z.of_nat (length p) in
  e <= MAXFILE * BSIZE -> freeblock s + fblocks e - fblocks off <= FSSIZE ->
  (forall s' X' O', mk_inv s' X' (fupd C i (C i ++ p)) T O' -> freeinode s' = freeinode s ->
    freeblock s' <= freeblock s + fblocks e - fblocks off -> Q tt s') ->
  wp (iappend i p) Q s.
Proof.
  intros V Hi Hp off e Hmax Hroom HQ. pose proof V as [[G Hn Hwf] Hd Hsz Hty Hsb Hlg]. assert (MAXFILE * BSIZE = 71680) as Em by done.
  apply wp_bind, (wp_rinode s X C T O); [done..|]. intros x He W Hx. pose proof He as (E1 & E2 & E3 & E4 & E5 & _).
  rewrite E5, Hsz, xint_small by (done || fold off; lia). fold off. apply wp_bind.
  pose proof (wp_iappend_loop (S (length p)) s (fupd X i x) C O i p) as HL. cbn zeta in HL. rewrite fupd_eq in HL.
  apply HL; [done..|lia|done|done|]. fold off. fold e. intros s' O' y W' [Hod1 Hod2 Hod3] Hra Hf.
  rewrite xint_small by lia.
  apply wp_winode; [by rewrite Hod1|done|]. assert (inode_wf (with_size e y)) as Hwy.
  { apply wf_size; [by eapply readdressed_wf|lia]. }
  assert (fupd T i (T i) i = T i) as ET by apply fupd_eq. destruct (Hty i Hi) as (T1 & T2 & T3 & T4). destruct Hra as [R1 R2 R3 R4 R5 R6].
  eapply HQ with (X' := fupd X i (with_size e y)) (O' := O'); [|done|done].
  assert (mk_inv (mkimage (fupd (sect s') (IBLOCK i sb) (dinode_put (with_size e y) (sect s' (IBLOCK i sb)) (dinode_off i)))
    FSSIZE (freeinode s') (freeblock s') (said s')) (fupd X i (with_size e y)) (fupd C i (C i ++ p)) (fupd T i (T i)) O') as V'.
  { apply winode_inv; cbn; try done; try congruence.
    - apply at_work_size; [|done|lia]. eapply at_work_ext; [| |exact W']; [|done]. intros j. by rewrite fupd_fupd.
    - intros j Hj. rewrite Hod3 by (destruct (inum_block j Hj); rewrite nmeta_eq; lia). by apply Hd.
    - intros j Hj. unfold fupd. case_decide; [|by apply Hsz]. cbn. rewrite length_app. lia.
    - rewrite Hod3; [done|by rewrite nmeta_eq].
    - intros b Hb1 Hb2. rewrite Hod3 by (rewrite nmeta_eq; lia). by apply Hlg. }
  destruct V' as [V1 V2 V3 V4 V5 V6]. split; try done. intros j Hj. specialize (V4 j Hj). by rewrite fupd_same in V4.
Qed.

(** A new inode has no blocks. *)
Lemma inv_new im fb X C O i x : fs_inv im fb X C O -> is_inum i -> C i = [] -> i_addrs x = ∅ -> fs_inv im fb (fupd X i x) C O.
Proof.
  intros [H1 H2 H3 H4 H5 H6 H7 H8] Hi Hc Hx. assert (ind_addr x = 0) as Hz by (unfold ind_addr; by rewrite Hx).
  assert (forall bn, blk im x bn = 0) as Hb by (intros bn; unfold blk; rewrite Hz, Hx; by destruct (bn <? NDIRECT)).
  split; try done.
  - intros j bn Hj Hbn. unfold fupd at 1. case_decide; [by rewrite Hb|]. rewrite fupd_ne by done. by apply H4.
  - intros j Hj. unfold fupd. case_decide; [by rewrite Hz|by apply H5].
  - intros j bn Hj Hbn Hl. unfold fupd. case_decide; [subst; rewrite Hc in Hl; cbn in Hl; assert (0 < BSIZE) by done; nia|by apply H6].
  - intros j o Hj Ho. unfold fupd. case_decide; [subst|by apply H7]. rewrite Hc. unfold fbyte. by rewrite Hb.
Qed.

Lemma wp_ialloc s X C T O t (i := freeinode s) (Q : Z -> image -> Prop) : mk_inv s X C T O -> is_inum i -> C i = [] ->
  1 <= t < 32768 ->
  (forall s' X', mk_inv s' X' C (fupd T i t) O -> freeinode s' = i + 1 -> freeblock s' = freeblock s -> Q i s') ->
  wp (ialloc t) Q s.
Proof.
  intros [[G Hn Hwf] Hd Hsz Hty Hsb Hlg] Hi Hc Ht HQ. apply wp_bind, wp_gets. fold i. apply wp_bind, wp_modify.
  rewrite u32_small by (unfold is_inum, NINODES in Hi; lia). rewrite xint_small, !xshort_small by lia. cbv zeta.
  set (x := with_size 0 _). set (s1 := set_freeinode (i + 1) s).
  assert (inode_wf x) as Hx by (split; cbn; try lia; intros k Hk; done).
  apply wp_bind, wp_winode; [done|done|]. apply wp_ret. apply (HQ _ (fupd X i x)); [|done|done].
  change (freeinode s1) with (i + 1). apply (winode_inv s1 X C T O i x t); try done.
  - apply at_work_fupd; try done. by apply inv_new.
  - intros j Hj. unfold fupd. case_decide; [subst; by rewrite Hc|by apply Hsz].
  - cbn. by destruct (Z.eqb_spec t 0); [lia|].
Qed.

(** The pieces of a file. *)
Lemma wp_append_all reads : forall s X C T O i (Q : unit -> image -> Prop), mk_inv s X C T O -> is_inum i ->
  Forall (Forall is_byte) reads ->
  let off := Z.of_nat (length (C i)) in let e := off + Z.of_nat (length (concat reads)) in
  e <= MAXFILE * BSIZE -> freeblock s + fblocks e - fblocks off <= FSSIZE ->
  (forall s' X' C' O', mk_inv s' X' C' T O' -> (forall j, C' j = fupd C i (C i ++ concat reads) j) -> freeinode s' = freeinode s ->
    freeblock s' <= freeblock s + fblocks e - fblocks off -> Q tt s') ->
  wp (append_all i reads) Q s.
Proof.
  induction reads as [|p reads IH]; intros s X C T O i Q V Hi Hb off e Hmax Hroom HQ; cbn [append_all].
  { apply wp_ret. assert (e = off) as Ee by (unfold e; cbn; lia). apply (HQ s X C O); [done| |done|rewrite Ee; lia].
    intros j. cbn. rewrite app_nil_r. by rewrite fupd_same. }
  apply Forall_cons in Hb as [Hp Hb]. set (m := off + Z.of_nat (length p)).
  assert (e = m + Z.of_nat (length (concat reads))) as Ee by (unfold e, m; cbn; rewrite length_app; lia).
  assert (fblocks m <= fblocks e) as Hmono by (apply fblocks_mono; lia).
  assert (fblocks off <= fblocks m) as Hmono' by (apply fblocks_mono; unfold m; lia).
  apply wp_bind, (wp_iappend s X C T O); fold off m; [done..|lia|lia|]. intros s1 X1 O1 V1 Hfi1 Hf1.
  pose proof (IH s1 X1 (fupd C i (C i ++ p)) T O1 i Q V1 Hi Hb) as H. cbn zeta in H.
  rewrite fupd_eq, length_app, Nat2Z.inj_add in H. fold off in H. fold m in H. rewrite <- Ee in H.
  apply H; [done|lia|]. intros s2 X2 C2 O2 V2 EC2 Hfi2 Hf2. apply (HQ s2 X2 C2 O2); [done| |congruence|lia].
  intros j. rewrite EC2, fupd_fupd. cbn. by rewrite app_assoc.
Qed.

(** ** The files of the command line *)

Definition hf_bytes (f : host_file) : list Z := concat (default [] (hf_reads f)).
Definition hf_entry (n : Z) (f : host_file) : list Z := mk_dirent n (skip_underscore (hf_arg f)).

(** The program accepts the file. *)
Record hf_ok (f : host_file) : Prop := {
  hf_noslash : existsb (Z.eqb SLASH) (hf_arg f) = false;
  hf_name : Forall is_byte (hf_arg f);
  hf_opens : is_Some (hf_reads f);
  hf_data : Forall (Forall is_byte) (default [] (hf_reads f));
  hf_fits : Z.of_nat (length (hf_bytes f)) <= MAXFILE * BSIZE
}.

Definition hf_blocks (f : host_file) : Z := fblocks (Z.of_nat (length (hf_bytes f))).

Lemma fblocks_0 : fblocks 0 = 0.
Proof. done. Qed.

Lemma entry_ok n f : hf_ok f -> length (hf_entry n f) = 16%nat /\ Forall is_byte (hf_entry n f).
Proof.
  intros [_ Hn _ _ _]. split; [apply mk_dirent_length|apply mk_dirent_bytes]. unfold skip_underscore.
  destruct (hf_arg f) as [|c r]; [done|]. apply Forall_cons in Hn as Hn'. by destruct (c =? UNDERSCORE); [apply Hn'|].
Qed.

Lemma root_inum : is_inum ROOTINO.
Proof. done. Qed.

Lemma wp_add_file s X C T O f (n := freeinode s) (r := Z.of_nat (length (C ROOTINO))) (Q : unit -> image -> Prop) :
  mk_inv s X C T O -> hf_ok f -> is_inum n -> n <> ROOTINO -> C n = [] -> r + 16 <= MAXFILE * BSIZE ->
  freeblock s + (fblocks (r + 16) - fblocks r) + hf_blocks f <= FSSIZE ->
  (forall s' X' C' O', mk_inv s' X' C' (fupd T n T_FILE) O' ->
    (forall j, C' j = fupd (fupd C ROOTINO (C ROOTINO ++ hf_entry n f)) n (hf_bytes f) j) -> freeinode s' = n + 1 ->
    freeblock s' <= freeblock s + (fblocks (r + 16) - fblocks r) + hf_blocks f -> Q tt s') ->
  wp (add_file ROOTINO f) Q s.
Proof.
  intros V Hf Hn Hne Hc Hmax Hroom HQ. destruct (entry_ok n f Hf) as [El Eb]. pose proof Hf as [Hs _ [reads Hr] Hd Hfit].
  unfold hf_blocks, hf_bytes in *. unfold add_file. rewrite Hs, Hr in *. change (default [] (Some reads)) with reads in *.
  assert (0 <= fblocks (Z.of_nat (length (concat reads)))) as Hpos by (pose proof (fblocks_mono 0 (Z.of_nat (length (concat reads)))); rewrite fblocks_0 in *; lia).
  apply wp_bind, (wp_ialloc s X C T O); [done|done|done|done|]. fold n. intros s1 X1 V1 Hi1 Hf1.
  rewrite xshort_small by (unfold is_inum, NINODES in Hn; lia). fold (hf_entry n f).
  assert (Z.of_nat (length (C ROOTINO)) + Z.of_nat (length (hf_entry n f)) = r + 16) as Er by (rewrite El; done).
  apply wp_bind, (wp_iappend s1 X1 C (fupd T n T_FILE) O); rewrite ?Er; fold r; [done|apply root_inum|done|done|lia|].
  intros s2 X2 O2 V2 Hi2 Hf2. pose proof (wp_append_all reads s2 X2 _ _ O2 n Q V2 Hn Hd) as H. cbn zeta in H.
  rewrite fupd_ne, Hc in H by done. cbn [length] in H. change (Z.of_nat 0) with 0 in H. rewrite Z.add_0_l, fblocks_0 in H.
  apply H; [done|lia|]. intros s3 X3 C3 O3 V3 EC Hi3 Hf3. apply (HQ s3 X3 C3 O3); [done|done|lia|lia].
Qed.

(** The entries of the root directory, and the content of the files. *)
Fixpoint dir_of (n : Z) (fs : list host_file) : list Z :=
  match fs with [] => [] | f :: fs => hf_entry n f ++ dir_of (n + 1) fs end.

Definition sum_blocks (fs : list host_file) : Z := foldr (fun f t => hf_blocks f + t) 0 fs.

(** The files numbered from [n] on. *)
Definition numbered (n : Z) (fs : list host_file) (j : Z) : option host_file :=
  if decide (n <= j) then fs !! Z.to_nat (j - n) else None.

Lemma numbered_cons n f fs j : numbered n (f :: fs) j = if decide (j = n) then Some f else numbered (n + 1) fs j.
Proof.
  unfold numbered. repeat case_decide; subst; try lia; [by rewrite Z.sub_diag| |done].
  replace (Z.to_nat (j - n)) with (Datatypes.S (Z.to_nat (j - (n + 1)))) by lia. done.
Qed.

Lemma hf_blocks_pos f : 0 <= hf_blocks f.
Proof. unfold hf_blocks. pose proof (fblocks_mono 0 (Z.of_nat (length (hf_bytes f)))). rewrite fblocks_0 in *. lia. Qed.

Lemma sum_blocks_pos fs : 0 <= sum_blocks fs.
Proof. induction fs as [|f fs IH]; cbn; [done|]. pose proof (hf_blocks_pos f). unfold sum_blocks in IH. lia. Qed.

Lemma dir_of_length n fs : Forall hf_ok fs -> Z.of_nat (length (dir_of n fs)) = 16 * Z.of_nat (length fs).
Proof.
  intros Hok. revert n. induction Hok as [|f fs Hf _ IH]; intros n; [done|]. cbn [dir_of length]. rewrite length_app.
  destruct (entry_ok n f Hf) as [-> _]. rewrite Nat2Z.inj_add, IH. lia.
Qed.

Lemma wp_add_files fs : forall s X C T O (Q : unit -> image -> Prop) (n := freeinode s) (r := Z.of_nat (length (C ROOTINO)))
    (e := r + 16 * Z.of_nat (length fs)),
  mk_inv s X C T O -> Forall hf_ok fs -> 2 <= n -> n + Z.of_nat (length fs) <= NINODES -> (forall j, n <= j -> C j = []) ->
  e <= MAXFILE * BSIZE -> freeblock s + (fblocks e - fblocks r) + sum_blocks fs <= FSSIZE ->
  (forall s' X' C' T' O', mk_inv s' X' C' T' O' -> C' ROOTINO = C ROOTINO ++ dir_of n fs ->
    (forall j, j <> ROOTINO -> C' j = from_option hf_bytes (C j) (numbered n fs j)) ->
    (forall j, T' j = from_option (fun _ => T_FILE) (T j) (numbered n fs j)) ->
    freeblock s' <= freeblock s + (fblocks e - fblocks r) + sum_blocks fs -> Q tt s') ->
  wp (add_files ROOTINO fs) Q s.
Proof.
  induction fs as [|f fs IH]; intros s X C T O Q n r e V Hok Hn Hmax He Hfit Hroom HQ; cbn [add_files].
  { apply wp_ret. assert (e = r) as Ee by (unfold e; cbn; lia). rewrite Ee in *. apply (HQ s X C T O); try done; [by rewrite app_nil_r| | |unfold sum_blocks; cbn [foldr]; lia];
      intros j; unfold numbered; by case_decide. }
  apply Forall_cons in Hok as [Hf Hok]. cbn [length sum_blocks foldr] in *. fold (sum_blocks fs) in *. pose proof (sum_blocks_pos fs) as Hsp.
  assert (fblocks (r + 16) <= fblocks e) as Hmono by (apply fblocks_mono; unfold e; lia).
  assert (fblocks r <= fblocks (r + 16)) as Hmono' by (apply fblocks_mono; lia).
  assert (n <> ROOTINO) as Hnr by (unfold ROOTINO; lia). assert (is_inum n) as Hin by (unfold is_inum; lia).
  apply wp_bind, (wp_add_file s X C T O); fold n r; [done|done|done|done|by apply He|lia|lia|].
  intros s1 X1 C1 O1 V1 EC1 Hi1 Hf1. destruct (entry_ok n f Hf) as [El _].
  assert (Z.of_nat (length (C1 ROOTINO)) = r + 16) as Er1.
  { rewrite EC1, fupd_ne, fupd_eq by done. rewrite length_app, El. lia. }
  pose proof (IH s1 X1 C1 (fupd T n T_FILE) O1 Q V1 Hok) as H. cbn zeta in H. rewrite Hi1, Er1 in H.
  replace (r + 16 + 16 * Z.of_nat (length fs)) with e in H by (unfold e; lia).
  apply H; [lia|lia| |done|lia|].
  { intros j Hj. rewrite EC1, fupd_ne, fupd_ne by (unfold ROOTINO; lia). apply He. lia. }
  intros s' X' C' T' O' V' Er EC' ET' Hf'. apply (HQ s' X' C' T' O'); [done| | | |lia].
  - rewrite Er, EC1, fupd_ne, fupd_eq by done. cbn [dir_of]. by rewrite app_assoc.
  - intros j Hj. rewrite EC', EC1, numbered_cons by done. unfold fupd. repeat case_decide; try done; subst.
    unfold numbered. by rewrite decide_False by lia.
  - intros j. rewrite ET', numbered_cons. unfold fupd. case_decide; [subst|done]. unfold numbered. by rewrite decide_False by lia.
Qed.

(** ** The free map *)

Lemma bitmap_testbit n b : 0 <= b < BPB -> Z.of_nat n <= BPB ->
  Z.testbit (load8 (bitmap (Z.of_nat n)) (byte_of b)) (b mod BPB mod 8) = bool_decide (b < Z.of_nat n).
Proof.
  intros Hb. induction n as [|n IH]; intros Hn.
  { rewrite bool_decide_eq_false_2 by lia. change (bitmap (Z.of_nat 0)) with (∅ : memory). apply Z.bits_0. }
  assert (bitmap (Z.of_nat (Datatypes.S n)) = mark (Z.of_nat n) (bitmap (Z.of_nat n))) as ->.
  { unfold bitmap. rewrite Nat2Z.inj_succ, <- Z.add_1_r, seqZ_app by lia. rewrite foldl_app. cbn [foldl seqZ].
    change (seqZ (0 + Z.of_nat n) 1) with [0 + Z.of_nat n]. cbn [foldl]. rewrite Z.add_0_l. unfold mark, byte_of, bit.
    by rewrite (Z.mod_small (Z.of_nat n) BPB) by lia. }
  rewrite mark_testbit by apply bit_pos. rewrite IH by lia. unfold byte_of. rewrite BPB_eq in *.
  rewrite !(Z.mod_small _ 4096) by lia. destruct (decide (b = Z.of_nat n)) as [->|Hne].
  - rewrite (bool_decide_eq_true_2 (_ /\ _)) by done. rewrite orb_true_r. symmetry. apply bool_decide_eq_true_2. lia.
  - rewrite (bool_decide_eq_false_2 (_ /\ _)); [|intros [E1 E2]; apply Hne; Z.to_euclidean_division_equations; lia].
    rewrite orb_false_r. apply bool_decide_ext. lia.
Qed.

Lemma bitmap_used im fb b : 0 <= b < FSSIZE -> 0 <= fb <= FSSIZE ->
  used sb (fupd im (sb_bmapstart sb) (bitmap fb)) b = (b <? fb).
Proof.
  unfold FSSIZE. intros Hb Hfb. rewrite used_testbit. replace (BBLOCK b sb) with (sb_bmapstart sb).
  - rewrite fupd_eq. rewrite <- (Z2Nat.id fb) by lia. rewrite bitmap_testbit by (rewrite BPB_eq; lia).
    destruct (Z.ltb_spec b (Z.of_nat (Z.to_nat fb))); [by apply bool_decide_eq_true|apply bool_decide_eq_false; lia].
  - unfold BBLOCK. rewrite BPB_eq, Z.div_small by lia. done.
Qed.

(** ** The image that results *)

Definition root_dir (files : list host_file) : list Z :=
  mk_dirent ROOTINO [46] ++ mk_dirent ROOTINO [46; 46] ++ dir_of 2 files.

(** The image [s], with the inodes [X], holds the files: what the kernel reads
    as superblock, free map, log header, inodes, files and root directory. *)
Record holds_files (s : image) (X : Z -> inode) (files : list host_file) : Prop := {
  hd_size : nsect s = FSSIZE;
  hd_sb : let d := sect s 1 in
    mksb (load32 d 0) (load32 d 4) (load32 d 8) (load32 d 12) (load32 d 16) (load32 d 20) (load32 d 24) = sb;
  hd_log : forall b, 2 <= b < 32 -> sect s b = ∅;
  hd_used : forall b, 0 <= b < FSSIZE -> used sb (sect s) b = (b <? freeblock s);
  hd_free : nmeta <= freeblock s <= FSSIZE;
  hd_stored : forall j, is_inum j -> stored (sect s (IBLOCK j sb)) (dinode_off j) (X j);
  hd_ok : forall j, is_inum j -> file_ok sb (sect s) (X j);
  hd_apart : forall i j bn bn', is_inum i -> is_inum j -> i <> j -> in_file bn -> in_file bn' ->
    (blk (sect s) (X i) bn <> 0 -> blk (sect s) (X i) bn <> blk (sect s) (X j) bn' /\ blk (sect s) (X i) bn <> ind_addr (X j)) /\
    (ind_addr (X i) <> 0 -> ind_addr (X i) <> ind_addr (X j));
  hd_root : i_type (X ROOTINO) = T_DIR /\ i_nlink (X ROOTINO) = 1 /\
    let size := i_size (X ROOTINO) in let n := 16 * (2 + Z.of_nat (length files)) in
    size = (n / BSIZE + 1) * BSIZE /\ content (sect s) (X ROOTINO) 0 n = root_dir files /\
    (forall o, n <= o < size -> fbyte (sect s) (X ROOTINO) o = 0) /\ (n mod BSIZE <> 0 -> dense (sect s) (X ROOTINO));
  hd_entry : forall k f, files !! k = Some f -> let de := dirent (sect s) (X ROOTINO) (2 + Z.of_nat k) in
    names (skip_underscore (hf_arg f)) de /\ de_inum de = 2 + Z.of_nat k;
  hd_file : forall k f, files !! k = Some f -> let x := X (2 + Z.of_nat k) in
    i_type x = T_FILE /\ i_nlink x = 1 /\ i_size x = Z.of_nat (length (hf_bytes f)) /\
    content (sect s) x 0 (i_size x) = hf_bytes f /\ dense (sect s) x;
  hd_rest : forall j, 2 + Z.of_nat (length files) <= j < NINODES -> i_type (X j) = 0
}.

Lemma content_list im x l n : (forall o, 0 <= o < Z.of_nat (length l) -> fbyte im x o = lbyte l o) ->
  n = Z.of_nat (length l) -> content im x 0 n = l.
Proof.
  intros Hb ->. apply list_eq. intros k. unfold content. rewrite list_lookup_fmap. destruct (decide (k < length l)%nat) as [Hk|Hk].
  - destruct (lookup_lt_is_Some_2 l k Hk) as [v Hv]. rewrite lookup_seqZ_lt, Hv by lia. cbn [fmap option_fmap option_map].
    rewrite Hb by lia. unfold lbyte. rewrite Z.add_0_l, Nat2Z.id. by rewrite Hv.
  - rewrite lookup_seqZ_ge, lookup_ge_None_2 by lia. done.
Qed.

Lemma inv_file_ok im fb X C O j : fs_inv im fb X C O -> fb <= FSSIZE ->
  (forall b, 0 <= b < FSSIZE -> used sb im b = (b <? fb)) -> is_inum j -> file_ok sb im (X j).
Proof.
  intros G Hfb Hu Hj. pose proof G as [H1 H2 H3 H4 H5 H6 H7 H8].
  assert (forall b, nmeta <= b < fb -> data_used sb im b) as Hd.
  { intros b Hb. rewrite nmeta_eq in Hb. split; [rewrite data_start_eq, nmeta_eq; change (sb_size sb) with FSSIZE; lia|].
    rewrite Hu by lia. apply Z.ltb_lt. lia. }
  split.
  - intros bn Hbn Hz. apply Hd. by apply (blk_lt _ _ _ _ _ G).
  - intros Hz. apply Hd. by apply (ind_lt _ _ _ _ _ G).
  - intros bn bn' Hbn Hbn' Hz E. pose proof (H4 j bn Hj Hbn Hz) as O1. pose proof (H4 j bn' Hj Hbn' ltac:(by rewrite <- E)) as O2. congruence.
  - intros bn Hbn Hz E. pose proof (H4 j bn Hj Hbn Hz) as O1. pose proof (H5 j Hj ltac:(by rewrite <- E)) as O2.
    rewrite E, O2 in O1. injection O1 as E'. unfold in_file in Hbn. lia.
Qed.

Lemma inv_apart im fb X C O i j bn bn' : fs_inv im fb X C O -> is_inum i -> is_inum j -> i <> j -> in_file bn -> in_file bn' ->
  (blk im (X i) bn <> 0 -> blk im (X i) bn <> blk im (X j) bn' /\ blk im (X i) bn <> ind_addr (X j)) /\
  (ind_addr (X i) <> 0 -> ind_addr (X i) <> ind_addr (X j)).
Proof.
  intros [H1 H2 H3 H4 H5 H6 H7 H8] Hi Hj Hne Hbn Hbn'. split; [intros Hz; split|intros Hz]; intros E.
  - pose proof (H4 i bn Hi Hbn Hz) as O1. pose proof (H4 j bn' Hj Hbn' ltac:(by rewrite <- E)) as O2. congruence.
  - pose proof (H4 i bn Hi Hbn Hz) as O1. pose proof (H5 j Hj ltac:(by rewrite <- E)) as O2. congruence.
  - pose proof (H5 i Hi Hz) as O1. pose proof (H5 j Hj ltac:(by rewrite <- E)) as O2. congruence.
Qed.

(** ** [main] *)

Lemma stored_zero o : stored ∅ o czero.
Proof. split; try done. Qed.

(** The image before the root directory is made. *)
Lemma start_inv s : (forall b, b <> 1 -> sect s b = ∅) -> sect s 1 = sb_block -> nsect s = FSSIZE -> freeblock s = nmeta ->
  mk_inv s (fun _ => czero) (fun _ => []) (fun _ => 0) (fun _ => None).
Proof.
  intros Hs H1 Hn Hf. assert (forall im bn, blk im czero bn = 0) as Hb by (intros im bn; unfold blk; by destruct (bn <? NDIRECT)).
  split; try done.
  - split; [split; try done|done|].
    + by rewrite Hf.
    + intros b k Hb' Hk. rewrite Hf, nmeta_eq in Hb'. rewrite Hs by lia. done.
    + intros j bn _ _ Hz. by rewrite Hb in Hz.
    + intros j bn _ Hbn Hl. cbn in Hl. assert (0 < BSIZE) by done. nia.
    + intros j o _ _. unfold fbyte. by rewrite Hb.
    + intros j _. split; try done. 
  - intros j Hj. destruct (inum_block j Hj) as [_ Hb']. rewrite Hs by lia. apply stored_zero.
  - intros b Hb' Hne. by apply Hs.
Qed.

Lemma wp_zero_image s (Q : unit -> image -> Prop) : (forall b, sect s b = ∅) -> nsect s = 0 ->
  (forall s', (forall b, sect s' b = ∅) -> nsect s' = FSSIZE -> freeinode s' = freeinode s -> freeblock s' = freeblock s -> Q tt s') ->
  wp (for_up 0 FSSIZE (fun i => wsect i ∅)) Q s.
Proof.
  intros Hs Hn HQ. apply (wp_for_up (fun i s' => (forall b, sect s' b = ∅) /\ nsect s' = i /\ freeinode s' = freeinode s /\
    freeblock s' = freeblock s)); [done| |].
  - intros i s' Hi (H1 & H2 & H3 & H4). apply wp_modify. cbn. split_and!; try done; [|lia].
    intros b. unfold fupd. by case_decide.
  - intros s' (H1 & H2 & H3 & H4). by apply HQ.
Qed.

(** What the files and types are at the end. *)
Record all_files (C : Z -> list Z) (T : Z -> Z) (files : list host_file) : Prop := {
  af_root : C ROOTINO = root_dir files;
  af_ok : Forall hf_ok files;
  af_max : 2 + Z.of_nat (length files) <= NINODES;
  af_file : forall j, j <> ROOTINO -> C j = from_option hf_bytes [] (numbered 2 files j);
  af_type : forall j, T j = if decide (j = ROOTINO) then T_DIR else from_option (fun _ => T_FILE) 0 (numbered 2 files j)
}.

Lemma root_dir_length files : Forall hf_ok files -> Z.of_nat (length (root_dir files)) = 16 * (2 + Z.of_nat (length files)).
Proof. intros Hok. unfold root_dir. rewrite !length_app, !mk_dirent_length, !Nat2Z.inj_add, dir_of_length by done. lia. Qed.

Lemma numbered_lookup files k f : files !! k = Some f -> numbered 2 files (2 + Z.of_nat k) = Some f.
Proof. intros Hk. unfold numbered. rewrite decide_True by lia. by replace (Z.to_nat (2 + Z.of_nat k - 2)) with k by lia. Qed.

Lemma numbered_none files j : 2 + Z.of_nat (length files) <= j -> numbered 2 files j = None.
Proof. intros Hj. unfold numbered. case_decide; [|done]. apply lookup_ge_None_2. lia. Qed.

(** The two entries of an empty root directory. *)
Definition dots : list Z := mk_dirent ROOTINO [46] ++ mk_dirent ROOTINO [46; 46].

(** Entry [k] of the files in the directory. *)
Lemma dir_of_slice fs : forall n k f, Forall hf_ok fs -> fs !! k = Some f ->
  take 16 (drop (16 * k) (dir_of n fs)) = hf_entry (n + Z.of_nat k) f.
Proof.
  induction fs as [|f' fs IH]; intros n k f Hok Hk; [done|]. apply Forall_cons in Hok as [Hf Hok].
  destruct (entry_ok n f' Hf) as [El _]. cbn [dir_of]. destruct k as [|k].
  - injection Hk as ->. rewrite Z.add_0_r, Nat.mul_0_r, drop_0. rewrite <- El at 1. apply take_app_length.
  - replace (16 * Datatypes.S k)%nat with (length (hf_entry n f') + 16 * k)%nat by (rewrite El; lia).
    rewrite <- drop_drop, drop_app_length. replace (n + Z.of_nat (Datatypes.S k)) with (n + 1 + Z.of_nat k) by lia. by apply IH.
Qed.

Lemma root_dir_slice files k f : Forall hf_ok files -> files !! k = Some f ->
  take 16 (drop (Z.to_nat ((2 + Z.of_nat k) * 16)) (root_dir files)) = hf_entry (2 + Z.of_nat k) f.
Proof.
  intros Hok Hk. rewrite <- (dir_of_slice files 2 k f Hok Hk). f_equal. unfold root_dir. rewrite app_assoc.
  fold dots. replace (Z.to_nat ((2 + Z.of_nat k) * 16)) with (length dots + 16 * k)%nat
    by (unfold dots; rewrite length_app, !mk_dirent_length; lia).
  by rewrite <- drop_drop, drop_app_length.
Qed.

Lemma content_slice im x l o m : (forall o, 0 <= o < Z.of_nat (length l) -> fbyte im x o = lbyte l o) ->
  0 <= o -> 0 <= m -> o + m <= Z.of_nat (length l) -> content im x o m = take (Z.to_nat m) (drop (Z.to_nat o) l).
Proof.
  intros Hb Ho Hm Hle. apply list_eq. intros i. destruct (decide (i < Z.to_nat m)%nat) as [Hi|Hi].
  - rewrite content_lookup, lookup_take_lt, lookup_drop by lia. rewrite Hb by lia. unfold lbyte.
    replace (Z.to_nat (o + Z.of_nat i)) with (Z.to_nat o + i)%nat by lia.
    destruct (lookup_lt_is_Some_2 l (Z.to_nat o + i)) as [v Hv]; [lia|]. by rewrite Hv.
  - rewrite lookup_take_ge by lia. apply lookup_ge_None_2. unfold content. rewrite length_fmap, length_seqZ. lia.
Qed.

Section Made.
Context (s : image) (X : Z -> inode) (C : Z -> list Z) (T : Z -> Z) (O : Z -> option (Z * Z)) (files : list host_file).
Context (G : fs_inv (sect s) (freeblock s) X C O) (A : all_files C T files).
Context (Hsz : forall j, is_inum j -> j <> ROOTINO -> i_size (X j) = Z.of_nat (length (C j))).
Context (Hty : forall j, is_inum j -> i_type (X j) = T j /\ i_nlink (X j) = (if T j =? 0 then 0 else 1)).
Context (Hroot : i_size (X ROOTINO) = (16 * (2 + Z.of_nat (length files)) / BSIZE + 1) * BSIZE).

Lemma made_root : i_type (X ROOTINO) = T_DIR /\ i_nlink (X ROOTINO) = 1 /\
  let size := i_size (X ROOTINO) in let n := 16 * (2 + Z.of_nat (length files)) in
  size = (n / BSIZE + 1) * BSIZE /\ content (sect s) (X ROOTINO) 0 n = root_dir files /\
  (forall o, n <= o < size -> fbyte (sect s) (X ROOTINO) o = 0) /\ (n mod BSIZE <> 0 -> dense (sect s) (X ROOTINO)).
Proof using G A Hty Hroot.
  destruct A as [Hr Hok Hmax _ HT]. destruct (Hty ROOTINO root_inum) as [Ht Hn]. rewrite HT, decide_True in Ht, Hn by done.
  pose proof G as [_ _ _ _ _ H6 H7 H8]. pose proof (root_dir_length files Hok) as Hl. rewrite <- Hr in Hl.
  unfold NINODES in Hmax. assert (MAXFILE * BSIZE = 71680 /\ BSIZE = 512) as [Em EB] by done.
  split; [done|]. split; [done|]. cbn zeta. set (n := 16 * (2 + Z.of_nat (length files))) in *.
  split; [done|]. split; [|split].
  - apply content_list; [|by rewrite <- Hr]. intros o Ho. rewrite <- Hr in *. apply H7; [apply root_inum|lia].
  - intros o Ho. rewrite H7, lbyte_end; [done|lia|apply root_inum|]. rewrite Hroot, EB in Ho. Z.to_euclidean_division_equations. lia.
  - intros Hm bn Hbn Hlt. apply H6; [apply root_inum|done|]. rewrite Hl. rewrite Hroot, EB in *.
    Z.to_euclidean_division_equations. nia.
Qed.

Lemma made_entry k f : files !! k = Some f -> let de := dirent (sect s) (X ROOTINO) (2 + Z.of_nat k) in
  names (skip_underscore (hf_arg f)) de /\ de_inum de = 2 + Z.of_nat k.
Proof using G A.
  intros Hk. destruct A as [Hr Hok Hmax _ _]. apply lookup_lt_Some in Hk as Hlt. unfold NINODES in Hmax.
  assert (dirent (sect s) (X ROOTINO) (2 + Z.of_nat k) = hf_entry (2 + Z.of_nat k) f) as ->.
  { rewrite <- (root_dir_slice files k f Hok Hk), <- Hr. unfold dirent. change DIRENT_SIZE with 16.
    apply (content_slice _ _ (C ROOTINO)).
    - intros o Ho. apply (g_bytes _ _ _ _ _ G); [apply root_inum|]. pose proof (g_len _ _ _ _ _ G ROOTINO root_inum). lia.
    - lia.
    - lia.
    - rewrite Hr, root_dir_length by done. lia. }
  cbn zeta. split; [apply mk_dirent_names; lia|]. unfold hf_entry. apply mk_dirent_inum. lia.
Qed.

Lemma made_file k f : files !! k = Some f -> let x := X (2 + Z.of_nat k) in
  i_type x = T_FILE /\ i_nlink x = 1 /\ i_size x = Z.of_nat (length (hf_bytes f)) /\
  content (sect s) x 0 (i_size x) = hf_bytes f /\ dense (sect s) x.
Proof using G A Hsz Hty.
  intros Hk. destruct A as [_ Hok Hmax HC HT]. pose proof G as [_ _ _ _ _ H6 H7 H8]. apply lookup_lt_Some in Hk as Hlt.
  set (j := 2 + Z.of_nat k). assert (is_inum j) as Hj by (unfold is_inum, j; lia). assert (j <> ROOTINO) as Hne by (unfold j, ROOTINO; lia).
  pose proof (numbered_lookup _ _ _ Hk) as Hnum. fold j in Hnum.
  assert (C j = hf_bytes f) as EC by (rewrite HC, Hnum by done; done).
  destruct (Hty j Hj) as [Ht Hn]. rewrite HT, decide_False, Hnum in Ht, Hn by done. cbn in Ht, Hn. specialize (Hsz j Hj Hne).
  rewrite EC in Hsz. cbn zeta. split_and!; try done.
  - apply content_list; [|done]. intros o Ho. rewrite <- EC in *. apply H7; [done|]. pose proof (H8 j Hj). lia.
  - intros bn Hbn Hlt'. apply H6; [done..|]. rewrite EC. lia.
Qed.

Lemma made_rest j : 2 + Z.of_nat (length files) <= j < NINODES -> i_type (X j) = 0.
Proof using A Hty.
  intros Hj. destruct A as [_ _ _ _ HT]. destruct (Hty j) as [-> _]; [unfold is_inum; lia|].
  rewrite HT, decide_False, numbered_none by (unfold ROOTINO; lia). done.
Qed.

Lemma holds_made : nsect s = FSSIZE -> freeblock s <= FSSIZE ->
  (forall j, is_inum j -> stored (sect s (IBLOCK j sb)) (dinode_off j) (X j)) -> sect s 1 = sb_block ->
  (forall b, 2 <= b < 32 -> sect s b = ∅) -> (forall b, 0 <= b < FSSIZE -> used sb (sect s) b = (b <? freeblock s)) ->
  holds_files s X files.
Proof using G A Hsz Hty Hroot.
  intros Hn Hfb Hd H1 Hlg Hu. split; try done.
  - rewrite H1. reflexivity.
  - split; [apply G|done].
  - intros j Hj. by eapply inv_file_ok.
  - intros. by eapply inv_apart.
  - apply made_root.
  - apply made_entry.
  - apply made_file.
  - apply made_rest.
Qed.

End Made.

(** The last part: the size of the root directory, and the free map. *)
Lemma wp_finish s X C T O files (Q : unit -> image -> Prop) : mk_inv s X C T O -> freeblock s <= FSSIZE -> all_files C T files ->
  (forall s' X', holds_files s' X' files -> Q tt s') ->
  wp (fix_root ROOTINO ;;; let* b := gets freeblock in balloc b) Q s.
Proof.
  intros V Hfb A HQ. pose proof V as [[G Hns Hwf] Hd Hsz Hty Hsb Hlg]. pose proof (g_fb _ _ _ _ _ G) as Hfb0. rewrite nmeta_eq in Hfb0.
  pose proof (root_dir_length files (af_ok _ _ _ A)) as Hlen. rewrite <- (af_root _ _ _ A) in Hlen.
  pose proof (g_len _ _ _ _ _ G ROOTINO root_inum) as Hmax. set (n := 16 * (2 + Z.of_nat (length files))) in *.
  assert (MAXFILE * BSIZE = 71680 /\ BSIZE = 512) as [Em EB] by done.
  assert (0 <= (n / BSIZE + 1) * BSIZE < 4294967296) as Hnew by (rewrite EB; Z.to_euclidean_division_equations; lia).
  apply wp_bind, wp_bind, (wp_rinode s X C T O); [done|apply root_inum|]. intros x (E1 & E2 & E3 & E4 & E5 & _) W Hx.
  cbv zeta. rewrite E5, Hsz, Hlen by apply root_inum. rewrite (xint_small n), u32_small, xint_small by lia.
  apply wp_winode; [done|apply root_inum|]. apply wp_bind, wp_gets. cbn [freeblock].
  apply wp_bind, wp_modify. unfold FSSIZE in Hfb. rewrite (proj2 (Z.ltb_lt _ (BSIZE * 8))) by (rewrite EB; lia). cbn [negb].
  apply wp_bind, wp_modify, wp_modify. cbn [sect nsect freeinode freeblock said].
  set (y := with_size _ x). set (im := fupd (sect s) _ _). apply (HQ _ (fupd X ROOTINO y)).
  pose proof (aw_inv _ _ _ _ (at_work_size _ _ _ _ _ _ _ W root_inum Hnew)) as Gy. fold y in Gy.
  pose proof (put_disk _ _ _ y Hd root_inum (wf_size _ _ Hx Hnew)) as Hd'. fold im in Hd'.
  change (sb_bmapstart sb) with 58. set (im2 := fupd im 58 (bitmap (freeblock s))).
  assert (forall b, b <> IBLOCK ROOTINO sb -> b <> 58 -> im2 b = sect s b) as Eim by (intros; unfold im2, im; by rewrite !fupd_ne).
  assert (fs_inv im2 (freeblock s) (fupd X ROOTINO y) C O) as G2.
  { eapply fs_inv_meta; [|exact Gy]. intros b Hb. rewrite nmeta_eq in Hb. apply Eim; [|lia]. change (IBLOCK ROOTINO sb) with 32. lia. }
  assert (forall b, 0 <= b < FSSIZE -> used sb im2 b = (b <? freeblock s)) as Hused.
  { intros b Hb. apply bitmap_used; unfold FSSIZE in *; lia. }
  apply (holds_made _ _ C T O); try done.
  - intros j Hj Hne. rewrite fupd_ne by done. by apply Hsz.
  - intros j Hj. destruct (Hty j Hj) as (T1 & T2 & _). unfold fupd. case_decide; [subst|done]. cbn. by rewrite E1, E4.
  - intros j Hj. destruct (inum_block j Hj) as [_ Hb]. cbn [sect]. unfold im2. rewrite (fupd_ne im) by lia. by apply Hd'.
  - intros b Hb. cbn [sect]. rewrite Eim; [apply Hlg; lia| |lia]. change (IBLOCK ROOTINO sb) with 32. lia.
Qed.

Lemma dot_bytes n : Forall is_byte (replicate n 46).
Proof. by apply Forall_replicate. Qed.

(** Making the root directory. *)
Lemma wp_root_dir s (k : Z -> M image unit) (Q : unit -> image -> Prop) :
  mk_inv s (fun _ => czero) (fun _ => []) (fun _ => 0) (fun _ => None) -> freeinode s = ROOTINO -> freeblock s = nmeta ->
  (forall s' X' C' T' O', mk_inv s' X' C' T' O' -> freeinode s' = 2 -> freeblock s' <= nmeta + 1 -> C' ROOTINO = dots ->
    (forall j, j <> ROOTINO -> C' j = []) -> (forall j, T' j = if decide (j = ROOTINO) then T_DIR else 0) -> wp (k ROOTINO) Q s') ->
  wp (let* rootino := ialloc T_DIR in
      if negb (rootino =? ROOTINO) then panic "assert" else
      iappend rootino (mk_dirent (xshort rootino) [46]) ;;;
      iappend rootino (mk_dirent (xshort rootino) [46; 46]) ;;;
      k rootino) Q s.
Proof.
  intros V Hi Hf HQ. assert (MAXFILE * BSIZE = 71680) as Em by done. unfold FSSIZE in *. rewrite nmeta_eq in *.
  assert (fblocks 16 = 1 /\ fblocks 0 = 0 /\ fblocks 32 = 1) as (F16 & F0 & F32) by done.
  pose proof (mk_dirent_length ROOTINO [46]) as L1. pose proof (mk_dirent_length ROOTINO [46; 46]) as L2.
  pose proof (mk_dirent_bytes ROOTINO _ (dot_bytes 1)) as B1. pose proof (mk_dirent_bytes ROOTINO _ (dot_bytes 2)) as B2.
  apply wp_bind, (wp_ialloc s _ _ _ _ T_DIR _ V); [by rewrite Hi|done|done|]. rewrite Hi. intros s3 X3 V3 Hi3 Hf3.
  cbn [negb Z.eqb ROOTINO Pos.eqb]. fold ROOTINO. rewrite xshort_small by done.
  apply wp_bind, (wp_iappend s3 X3 _ _ _ ROOTINO _ _ V3); [done|exact B1|..]; rewrite L1;
    change (Z.of_nat (length (@nil Z))) with 0; change (0 + Z.of_nat 16) with 16; [lia|unfold FSSIZE; lia|].
  intros s4 X4 O4 V4 Hi4 Hf4. apply wp_bind, (wp_iappend s4 X4 _ _ _ ROOTINO _ _ V4); [done|exact B2|..];
    rewrite fupd_eq, L2, app_nil_l, L1; change (Z.of_nat 16 + Z.of_nat 16) with 32; change (Z.of_nat 16) with 16; [lia|unfold FSSIZE; lia|].
  intros s5 X5 O5 V5 Hi5 Hf5. eapply HQ; [exact V5|rewrite Hi5, Hi4, Hi3; done|lia|by rewrite fupd_eq| |].
  - intros j Hj. by rewrite !fupd_ne.
  - intros j. unfold fupd. by case_decide.
Qed.

(** C19: [mkfs] makes a file system: for files that fit, [main] runs to its end,
    and the image it leaves holds them, with the root directory that names
    them, in the form the kernel reads. *)
Theorem mkfs_makes_fs files : Forall hf_ok files -> 2 + Z.of_nat (length files) <= NINODES ->
  nmeta + fblocks (16 * (2 + Z.of_nat (length files))) + sum_blocks files <= FSSIZE ->
  wp (main files) (fun _ s => exists X, holds_files s X files) empty_image.
Proof.
  intros Hok Hmax Hroom. pose proof (sum_blocks_pos files) as Hsp. assert (MAXFILE * BSIZE = 71680) as Em by done.
  set (n := 16 * (2 + Z.of_nat (length files))) in *.
  unfold main. apply wp_bind, wp_modify, wp_bind, wp_modify, wp_bind, wp_zero_image; [done..|].
  intros s1 H1 H2 H3 H4. apply wp_bind, wp_modify.
  apply (wp_root_dir _ (fun r => add_files r files ;;; fix_root r ;;; let* b := gets freeblock in balloc b)); [|done|done|].
  { apply start_inv; try done; cbn; [intros b Hb; by rewrite fupd_ne|rewrite H2; done]. }
  intros s5 X5 C5 T5 O5 V5 Hi5 Hf5 Hr5 HC5 HT5.
  assert (Z.of_nat (length (C5 ROOTINO)) = 32 /\ fblocks 32 = 1) as [Hl5 F32] by (rewrite Hr5; done). rewrite nmeta_eq in *.
  assert (32 + 16 * Z.of_nat (length files) = n) as En by (unfold n; lia). assert (n <= 3200) as Hn by (unfold n, NINODES in *; lia).
  apply wp_bind, (wp_add_files files s5 X5 C5 T5 O5 _ V5); rewrite ?Hi5, ?Hl5, ?En; [done|lia|done| |lia|lia|].
  { intros j Hj. apply HC5. unfold ROOTINO. lia. }
  intros s6 X6 C6 T6 O6 V6 Er EC ET Hf6. apply (wp_finish s6 X6 C6 T6 O6 files); [done|lia| |by eauto].
  split; [|done|done| |].
  - rewrite Er, Hr5. unfold dots, root_dir. by rewrite <- app_assoc.
  - intros j Hj. rewrite EC, HC5 by done. done.
  - intros j. rewrite ET, HT5. case_decide; [|done]. subst. unfold numbered. by rewrite decide_False by (unfold ROOTINO; lia).
Qed.

(** A file system with one file, [a], of three bytes. *)
Definition one_file : list host_file := [mkhost [95; 97] (Some [[1; 2]; [3]])].

Lemma one_file_ok : Forall hf_ok one_file.
Proof.
  apply Forall_singleton. split; [done| |by eexists| |by vm_compute]; cbn; rewrite ?Forall_cons, ?Forall_nil; done.
Qed.

Lemma mkfs_makes_fs_witness : exists s X, main one_file empty_image = Ret tt s /\ holds_files s X one_file.
Proof.
  destruct (wp_inv _ _ _ (mkfs_makes_fs one_file one_file_ok ltac:(by vm_compute) ltac:(by vm_compute))) as ([] & s & E & X & H).
  exists s, X. split; [exact E|exact H].
Defined.
