(* ===== verification/Asm.v ===== *)
(** * Traps, system calls and context switches in assembly ([trapasm.S],
    [vectors.S], [swtch.S], [usys.S], [initcode.S], [mmu.h], [tvinit] of
    [trap.c])

    A small x86: the registers, the instructions these files use, and what the
    processor does on an interrupt and on [iret].  C functions called from the
    assembly are parameters that keep to the calling convention. *)

From stdpp Require Import base tactics numbers gmap strings list.
From Stdlib Require Import ZArith Lia.
From S2P Require Import Prelude Mmu Memory Proc Trap.

(** ** The processor *)

Inductive reg := EAX | ECX | EDX | EBX | ESP | EBP | ESI | EDI.
Inductive seg := CS | DS | ES | FS | GS | SS.

#[global] Instance reg_eq_dec : EqDecision reg.
Proof. solve_decision. Defined.
#[global] Instance seg_eq_dec : EqDecision seg.
Proof. solve_decision. Defined.

Record x86 := mkx86 {
  gpr : reg -> Z;
  sel : seg -> Z;
  eip : Z;
  eflags : Z;
  ram : memory
}.

Definition upd1 {K V} `{EqDecision K} (f : K -> V) (k : K) (v : V) : K -> V := fun k' => if decide (k' = k) then v else f k'.

Definition set_reg (r : reg) (v : Z) (s : x86) : x86 := mkx86 (upd1 (gpr s) r v) (sel s) (eip s) (eflags s) (ram s).
Definition set_sel (g : seg) (v : Z) (s : x86) : x86 := mkx86 (gpr s) (upd1 (sel s) g v) (eip s) (eflags s) (ram s).
Definition set_eip (v : Z) (s : x86) : x86 := mkx86 (gpr s) (sel s) v (eflags s) (ram s).
Definition set_eflags (v : Z) (s : x86) : x86 := mkx86 (gpr s) (sel s) (eip s) v (ram s).
Definition set_ram (m : memory) (s : x86) : x86 := mkx86 (gpr s) (sel s) (eip s) (eflags s) m.

Definition push (v : Z) (s : x86) : x86 :=
  let a := u32 (gpr s ESP - 4) in set_ram (store32 (ram s) a v) (set_reg ESP a s).
Definition top (s : x86) : Z := load32 (ram s) (gpr s ESP).
Definition drop_words (n : Z) (s : x86) : x86 := set_reg ESP (u32 (gpr s ESP + 4 * n)) s.

Inductive instr :=
| Pushl_imm (v : Z)
| Pushl (r : reg)
| Pushl_seg (g : seg)
| Popl (r : reg)
| Popl_seg (g : seg)
| Pushal
| Popal
| Movw_ax (v : Z)
| Movw_seg (g : seg)
| Movl_imm (v : Z) (r : reg)
| Movl (src dst : reg)
| Movl_load (disp : Z) (base dst : reg)
| Movl_store (src base : reg)
| Addl_imm (v : Z) (r : reg).

Definition push_all (ws : list Z) (s : x86) : x86 := foldl (fun s w => push w s) s ws.

(** [n] words further up the stack *)
Definition word_at (s : x86) (n : Z) : Z := load32 (ram s) (u32 (gpr s ESP + 4 * n)).

Definition exec1 (s : x86) (i : instr) : x86 :=
  match i with
  | Pushl_imm v => push v s
  | Pushl r => push (gpr s r) s
  | Pushl_seg g => push (sel s g) s
  | Popl r => set_reg r (top s) (drop_words 1 s)
  | Popl_seg g => set_sel g (u16 (top s)) (drop_words 1 s)
  | Pushal => push_all [gpr s EAX; gpr s ECX; gpr s EDX; gpr s EBX; gpr s ESP; gpr s EBP; gpr s ESI; gpr s EDI] s
  | Popal =>
      let s' := drop_words 8 s in
      set_reg EDI (word_at s 0) (set_reg ESI (word_at s 1) (set_reg EBP (word_at s 2)
        (set_reg EBX (word_at s 4) (set_reg EDX (word_at s 5) (set_reg ECX (word_at s 6) (set_reg EAX (word_at s 7) s'))))))
  | Movw_ax v => set_reg EAX (gpr s EAX / 65536 * 65536 + u16 v) s
  | Movw_seg g => set_sel g (u16 (gpr s EAX)) s
  | Movl_imm v r => set_reg r (u32 v) s
  | Movl src dst => set_reg dst (gpr s src) s
  | Movl_load disp base dst => set_reg dst (load32 (ram s) (u32 (gpr s base + disp))) s
  | Movl_store src base => set_ram (store32 (ram s) (gpr s base) (gpr s src)) s
  | Addl_imm v r => set_reg r (u32 (gpr s r + v)) s
  end.

Definition exec (code : list instr) (s : x86) : x86 := foldl exec1 s code.

(** [ret] *)
Definition ret_ (s : x86) : x86 := set_eip (top s) (drop_words 1 s).

(** ** Descriptors ([mmu.h]) *)

Definition SEG_KCODE : Z := 1.
Definition SEG_KDATA : Z := 2.
Definition SEG_UCODE : Z := 3.
Definition SEG_UDATA : Z := 4.
Definition SEG_TSS : Z := 5.
Definition STS_IG32 : Z := 0xE.
Definition STS_TG32 : Z := 0xF.
Definition STA_X : Z := 0x8.
Definition STA_W : Z := 0x2.
Definition STA_R : Z := 0x2.
Definition STS_T32A : Z := 0x9.

(** [struct gatedesc] *)
Record gatedesc := mkgate {
  off_15_0 : Z;
  g_cs : Z;
  g_args : Z;
  g_rsv1 : Z;
  g_type : Z;
  g_s : Z;
  g_dpl : Z;
  g_p : Z;
  off_31_16 : Z
}.

#[global] Instance czero_gate : CZero gatedesc := mkgate 0 0 0 0 0 0 0 0 0.

Definition SETGATE (istrap : bool) (sel off d : Z) : gatedesc :=
  mkgate (Z.land (u32 off) 0xffff) (u16 sel) 0 0 (if istrap then STS_TG32 else STS_IG32) 0 (Z.land d 3) 1
    (Z.shiftr (u32 off) 16).

(** [struct segdesc] *)
Record segdesc := mkseg {
  lim_15_0 : Z;
  base_15_0 : Z;
  base_23_16 : Z;
  sg_type : Z;
  sg_s : Z;
  sg_dpl : Z;
  sg_p : Z;
  lim_19_16 : Z;
  sg_avl : Z;
  sg_rsv1 : Z;
  sg_db : Z;
  sg_g : Z;
  base_31_24 : Z
}.

#[global] Instance czero_segdesc : CZero segdesc := mkseg 0 0 0 0 0 0 0 0 0 0 0 0 0.

Definition SEG (type base lim dpl : Z) : segdesc :=
  mkseg (Z.land (Z.shiftr lim 12) 0xffff) (Z.land (u32 base) 0xffff) (Z.land (Z.shiftr (u32 base) 16) 0xff) type 1 dpl 1
    (Z.shiftr (u32 lim) 28) 0 0 1 1 (Z.shiftr (u32 base) 24).

Definition SEG16 (type base lim dpl : Z) : segdesc :=
  mkseg (Z.land lim 0xffff) (Z.land (u32 base) 0xffff) (Z.land (Z.shiftr (u32 base) 16) 0xff) type 1 dpl 1
    (Z.shiftr (u32 lim) 16) 0 0 1 0 (Z.shiftr (u32 base) 24).

(** [seginit]'s table. *)
Definition seginit (gdt : arr segdesc) : arr segdesc :=
  let gdt := <[SEG_KCODE := SEG (Z.lor STA_X STA_R) 0 0xffffffff 0]> gdt in
  let gdt := <[SEG_KDATA := SEG STA_W 0 0xffffffff 0]> gdt in
  let gdt := <[SEG_UCODE := SEG (Z.lor STA_X STA_R) 0 0xffffffff DPL_USER]> gdt in
  <[SEG_UDATA := SEG STA_W 0 0xffffffff DPL_USER]> gdt.

(** The interrupt table [tvinit] fills, from the addresses of the handlers. *)
Definition tvinit (vectors : Z -> Z) (idt : arr gatedesc) : arr gatedesc :=
  let idt := foldl (fun idt i => <[i := SETGATE false (Z.shiftl SEG_KCODE 3) (vectors i) 0]> idt) idt (seqZ 0 256) in
  <[T_SYSCALL := SETGATE true (Z.shiftl SEG_KCODE 3) (vectors T_SYSCALL) DPL_USER]> idt.

(** The fields of [struct taskstate] the processor reads, as [switchuvm] sets
    them for a process. *)
Record taskstate := mkts { ss0 : Z; esp0 : Z; iomb : Z }.

Definition switchuvm_ts (kstack : Z) : taskstate :=
  mkts (Z.shiftl SEG_KDATA 3) (u32 (kstack + KSTACKSIZE)) 0xFFFF.

(** The task state's own segment, of [sizeof(struct taskstate)] bytes. *)
Definition TS_SIZE : Z := 104.

Definition sg_system (d : segdesc) : segdesc :=
  mkseg (lim_15_0 d) (base_15_0 d) (base_23_16 d) (sg_type d) 0 (sg_dpl d) (sg_p d) (lim_19_16 d) (sg_avl d) (sg_rsv1 d)
    (sg_db d) (sg_g d) (base_31_24 d).

Definition switchuvm_gdt (ts : Z) (gdt : arr segdesc) : arr segdesc :=
  <[SEG_TSS := sg_system (SEG16 STS_T32A ts (TS_SIZE - 1) 0)]> gdt.

(** ** Interrupts *)

Definition cpl (s : x86) : Z := Z.land (sel s CS) 3.

Definition gate_off (g : gatedesc) : Z := off_31_16 g * 65536 + off_15_0 g.

(** From a less privileged level the processor takes the kernel stack of the
    task state and saves the old one on it; the gate may turn interrupts off. *)
Definition deliver (g : gatedesc) (ts : taskstate) (err : option Z) (s : x86) : x86 :=
  let outer := negb (cpl s =? 0) in
  let saved := (if outer then [sel s SS; gpr s ESP] else []) ++ [eflags s; sel s CS; eip s] ++
    match err with Some e => [e] | None => [] end in
  let s1 := if outer then set_sel SS (ss0 ts) (set_reg ESP (esp0 ts) s) else s in
  let s2 := push_all saved s1 in
  let s3 := if g_type g =? STS_IG32 then set_eflags (Z.land (eflags s2) (Z.lnot FL_IF)) s2 else s2 in
  set_eip (gate_off g) (set_sel CS (g_cs g) s3).

(** [int n]: the gate must admit the caller; otherwise the processor raises a
    general protection fault, whose error code names the gate. *)
Definition T_GPFLT : Z := 13.

Definition int_gate (idt : arr gatedesc) (n : Z) (s : x86) : Z * option Z :=
  if (g_p idt.[n] =? 1) && (cpl s <=? g_dpl idt.[n]) then (n, None) else (T_GPFLT, Some (8 * n + 2)).

Definition int_ (idt : arr gatedesc) (ts : taskstate) (n : Z) (s : x86) : x86 :=
  let '(v, err) := int_gate idt n s in deliver idt.[v] ts err s.

Definition iret (s : x86) : x86 :=
  let outer := negb (Z.land (u16 (word_at s 1)) 3 =? cpl s) in
  let s' := set_eip (word_at s 0) (set_sel CS (u16 (word_at s 1)) (set_eflags (word_at s 2) s)) in
  if outer then set_reg ESP (word_at s 3) (set_sel SS (u16 (word_at s 4)) s') else drop_words 3 s'.

(** ** The code *)

(** The exceptions for which the processor pushes an error code. *)
Definition has_err (n : Z) : bool := (n =? 8) || ((10 <=? n) && (n <=? 14)) || (n =? 17).

(** [vector]n, up to its jump *)
Definition vector (n : Z) : list instr := (if negb (has_err n) then [Pushl_imm 0] else []) ++ [Pushl_imm n].

(** [alltraps], up to the call, and after it *)
Definition alltraps_enter : list instr :=
  [Pushl_seg DS; Pushl_seg ES; Pushl_seg FS; Pushl_seg GS; Pushal;
   Movw_ax (Z.shiftl SEG_KDATA 3); Movw_seg DS; Movw_seg ES; Pushl ESP].
Definition alltraps_leave : list instr := [Addl_imm 4 ESP].

(** [trapret], up to its [iret] *)
Definition trapret : list instr := [Popal; Popl_seg GS; Popl_seg FS; Popl_seg ES; Popl_seg DS; Addl_imm 8 ESP].

(** [call f], with return address [ra]; the arguments of a C function are on
    the top of the stack. *)
Definition call_ (f : x86 -> x86) (ra : Z) (s : x86) : x86 := f (push ra s).

(** The code from [vector]n to [iret], around [trap]. *)
Definition enter (n : Z) (s : x86) : x86 := exec alltraps_enter (exec (vector n) s).
Definition leave (s : x86) : x86 := iret (exec trapret s).
Definition handle (trap : x86 -> x86) (ra n : Z) (s : x86) : x86 :=
  leave (exec alltraps_leave (call_ trap ra (enter n s))).

(** [swtch(old, new)] *)
Definition swtch : list instr :=
  [Movl_load 4 ESP EAX; Movl_load 8 ESP EDX;
   Pushl EBP; Pushl EBX; Pushl ESI; Pushl EDI;
   Movl_store ESP EAX; Movl EDX ESP;
   Popl EDI; Popl ESI; Popl EBX; Popl EBP].

Definition do_swtch (s : x86) : x86 := ret_ (exec swtch s).

(** [SYSCALL(name)]: [movl $SYS_name, %eax; int $T_SYSCALL; ret] *)
Definition stub_enter (num : Z) : list instr := [Movl_imm num EAX].

Definition syscall_stub (idt : arr gatedesc) (ts : taskstate) (trap : x86 -> x86) (ra num : Z) (s : x86) : x86 :=
  let s1 := exec (stub_enter num) s in
  ret_ (handle trap ra (fst (int_gate idt T_SYSCALL s1)) (int_ idt ts T_SYSCALL s1)).

(** [initcode.S], up to its first trap; [init] and [argv] are where the
    assembler puts the path and the vector. *)
Definition SYS_exec : Z := 7.
Definition initcode (init argv : Z) : list instr := [Pushl_imm argv; Pushl_imm init; Pushl_imm 0; Movl_imm SYS_exec EAX].

(** ** Stacks *)

(** The words [ws] lie at [a] and up. *)
Definition words_at (m : memory) (a : Z) (ws : list Z) : Prop :=
  forall k w, ws !! k = Some w -> load32 m (a + 4 * Z.of_nat k) = w.

Definition is_word (w : Z) : Prop := 0 <= w < 4294967296.

Lemma words_at_cons m a w ws : words_at m a (w :: ws) <-> load32 m a = w /\ words_at m (a + 4) ws.
Proof.
  split.
  - intros H. split; [specialize (H 0%nat w eq_refl); by rewrite Z.add_0_r in H|].
    intros k v Hk. rewrite <- (H (S k) v Hk). f_equal. lia.
  - intros [H1 H2] [|k] v Hk; [injection Hk as <-; by rewrite Z.add_0_r|]. rewrite <- (H2 k v Hk). f_equal. lia.
Qed.

Lemma words_at_nil m a : words_at m a [].
Proof. intros k w Hk. done. Qed.

Lemma words_at_app m a ws1 ws2 : words_at m a (ws1 ++ ws2) <-> words_at m a ws1 /\ words_at m (a + 4 * Z.of_nat (length ws1)) ws2.
Proof.
  revert a. induction ws1 as [|w ws1 IH]; intros a.
  - cbn [length app]. rewrite Z.mul_0_r, Z.add_0_r. split; [by intros; split; [apply words_at_nil|]|by intros []].
  - cbn [app length]. rewrite !words_at_cons, IH.
    replace (a + 4 * Z.of_nat (S (length ws1))) with (a + 4 + 4 * Z.of_nat (length ws1)) by lia. tauto.
Qed.

Lemma words_at_ext m m' a ws : (forall b, a <= b < a + 4 * Z.of_nat (length ws) -> load8 m' b = load8 m b) ->
  words_at m a ws -> words_at m' a ws.
Proof.
  intros E H k w Hk. rewrite <- (H k w Hk). apply load32_ext. intros b Hb. apply E. apply lookup_lt_Some in Hk. lia.
Qed.

(** What a number of pushes does. *)
Record pushed (ws : list Z) (s s' : x86) : Prop := {
  pd_esp : gpr s' ESP = gpr s ESP - 4 * Z.of_nat (length ws);
  pd_gpr : forall r, r <> ESP -> gpr s' r = gpr s r;
  pd_sel : sel s' = sel s;
  pd_eip : eip s' = eip s;
  pd_eflags : eflags s' = eflags s;
  pd_words : words_at (ram s') (gpr s' ESP) (reverse ws);
  pd_ram : forall b, b < gpr s' ESP \/ gpr s ESP <= b -> load8 (ram s') b = load8 (ram s) b
}.

Lemma upd1_eq {K V} `{EqDecision K} (f : K -> V) k v : upd1 f k v k = v.
Proof. unfold upd1. by rewrite decide_True. Qed.

Lemma upd1_ne {K V} `{EqDecision K} (f : K -> V) k v k' : k' <> k -> upd1 f k v k' = f k'.
Proof. intros. unfold upd1. by rewrite decide_False. Qed.

Lemma push_all_spec ws : forall s, Forall is_word ws -> 4 * Z.of_nat (length ws) <= gpr s ESP < 4294967296 ->
  pushed ws s (push_all ws s).
Proof.
  induction ws as [|w ws IH] using rev_ind; intros s Hw Hs.
  { split; try done. cbn. lia. }
  apply Forall_app in Hw as [Hws Hw]. apply Forall_cons in Hw as [Hw _]. rewrite length_app in Hs. cbn [length] in Hs.
  specialize (IH s Hws ltac:(lia)). unfold push_all. rewrite foldl_app. cbn [foldl]. fold (push_all ws s).
  set (s1 := push_all ws s) in *. destruct IH as [E1 E2 E3 E4 E5 E6 E7].
  assert (u32 (gpr s1 ESP - 4) = gpr s1 ESP - 4) as Eu by (apply u32_small; lia).
  unfold push. rewrite Eu. split; cbn [gpr sel eip eflags ram set_ram set_reg]; try done.
  - rewrite upd1_eq, length_app. cbn [length]. lia.
  - intros r Hr. rewrite upd1_ne by done. by apply E2.
  - rewrite upd1_eq, reverse_app. cbn [reverse rev_append app]. change (reverse [w]) with [w]. cbn [app].
    apply words_at_cons. split; [rewrite load32_store32_eq; apply u32_small; exact Hw|].
    replace (gpr s1 ESP - 4 + 4) with (gpr s1 ESP) by lia. eapply words_at_ext; [|exact E6].
    intros b Hb. apply load8_store32_ne. lia.
  - intros b Hb. rewrite upd1_eq in Hb. rewrite load8_store32_ne by lia. apply E7. lia.
Qed.

(** Two runs of pushes. *)
Lemma push_all_app ws1 ws2 s : push_all ws2 (push_all ws1 s) = push_all (ws1 ++ ws2) s.
Proof. unfold push_all. by rewrite foldl_app. Qed.

(** ** The trap frame *)

(** The registers are words and selectors. *)
Record regs_ok (s : x86) : Prop := {
  ro_gpr : forall r, is_word (gpr s r);
  ro_sel : forall g, 0 <= sel s g < 65536;
  ro_eip : is_word (eip s);
  ro_eflags : is_word (eflags s)
}.

(** The words of [struct trapframe] from [trapno] up, with the stack of the
    interrupted code when it was less privileged. *)
Definition hw_frame (n err : Z) (s : x86) : list Z :=
  [n; err; eip s; sel s CS; eflags s] ++ (if cpl s =? 0 then [] else [gpr s ESP; sel s SS]).

(** All of it, for code interrupted with the registers of [s]; [oesp] is the
    word the processor ignores. *)
Definition frame (n err oesp : Z) (s : x86) : list Z :=
  [gpr s EDI; gpr s ESI; gpr s EBP; oesp; gpr s EBX; gpr s EDX; gpr s ECX; gpr s EAX;
   sel s GS; sel s FS; sel s ES; sel s DS] ++ hw_frame n err s.

(** The stack the handler runs on. *)
Definition kstack_of (ts : taskstate) (s : x86) : Z := if cpl s =? 0 then gpr s ESP else esp0 ts.

(** The error code the processor gives for [n]. *)
Definition err_ok (n : Z) (err : option Z) : Prop := is_Some err <-> has_err n = true.

Lemma is_word_sel z : 0 <= z < 65536 -> is_word z.
Proof. unfold is_word. lia. Qed.

(** What is pushed until [trap] is called. *)
Definition saved_words (n : Z) (err : option Z) (oesp : Z) (s : x86) : list Z :=
  (if cpl s =? 0 then [] else [sel s SS; gpr s ESP]) ++ [eflags s; sel s CS; eip s; default 0 err; n;
   sel s DS; sel s ES; sel s FS; sel s GS; gpr s EAX; gpr s ECX; gpr s EDX; gpr s EBX; oesp; gpr s EBP; gpr s ESI; gpr s EDI].

Lemma saved_frame n err oesp s : reverse (saved_words n err oesp s) = frame n (default 0 err) oesp s.
Proof. unfold saved_words, frame, hw_frame. by destruct (cpl s =? 0). Qed.

Lemma saved_is_word n err oesp s : regs_ok s -> is_word n -> is_word (default 0 err) -> is_word oesp ->
  Forall is_word (saved_words n err oesp s).
Proof.
  intros [Hg Hs He Hf] Hn Herr Ho. assert (forall g, is_word (sel s g)) as Hs' by (intros; by apply is_word_sel).
  unfold saved_words. destruct (cpl s =? 0); cbn [app]; repeat (apply Forall_cons; split); try done; by apply Forall_nil.
Qed.

(** ** Entering the kernel *)

(** The state in which the handler starts: only the stack, the segments and
    the flags differ from the interrupted code. *)
Definition on_kstack (ts : taskstate) (s : x86) : x86 :=
  if cpl s =? 0 then s else set_sel SS (ss0 ts) (set_reg ESP (esp0 ts) s).

Lemma deliver_eq g ts err s : exists s1, push_all ((if cpl s =? 0 then [] else [sel s SS; gpr s ESP]) ++ [eflags s; sel s CS; eip s] ++
    match err with Some e => [e] | None => [] end) (on_kstack ts s) = s1 /\
  gpr (deliver g ts err s) = gpr s1 /\ ram (deliver g ts err s) = ram s1 /\
  (forall x, x <> CS -> sel (deliver g ts err s) x = sel s1 x).
Proof.
  eexists. split; [reflexivity|]. unfold deliver, on_kstack. destruct (cpl s =? 0), (g_type g =? STS_IG32); cbn [negb];
    (split; [done|split; [done|intros x Hx; cbn; by rewrite upd1_ne]]).
Qed.

Lemma push_all_congr ws : forall a b, gpr a = gpr b -> ram a = ram b ->
  gpr (push_all ws a) = gpr (push_all ws b) /\ ram (push_all ws a) = ram (push_all ws b).
Proof.
  induction ws as [|w ws IH]; intros a b Eg Er; [done|]. unfold push_all. cbn [foldl]. apply IH; unfold push; cbn; by rewrite Eg, ?Er.
Qed.

Lemma push_all_sel ws s : sel (push_all ws s) = sel s.
Proof. revert s. induction ws as [|w ws IH]; intros s; [done|]. unfold push_all. cbn [foldl]. fold (push_all ws (push w s)). by rewrite IH. Qed.

Lemma push_all_gpr ws r s : r <> ESP -> gpr (push_all ws s) r = gpr s r.
Proof.
  intros Hr. revert s. induction ws as [|w ws IH]; intros s; [done|]. unfold push_all. cbn [foldl].
  fold (push_all ws (push w s)). rewrite IH. cbn. by rewrite upd1_ne.
Qed.

Lemma on_kstack_esp ts s : gpr (on_kstack ts s) ESP = kstack_of ts s.
Proof. unfold on_kstack, kstack_of. destruct (cpl s =? 0); [done|]. apply upd1_eq. Qed.

Lemma on_kstack_gpr ts s r : r <> ESP -> gpr (on_kstack ts s) r = gpr s r.
Proof. intros Hr. unfold on_kstack. destruct (cpl s =? 0); [done|]. by apply upd1_ne. Qed.

Lemma on_kstack_sel ts s g : g <> SS -> sel (on_kstack ts s) g = sel s g.
Proof. intros Hg. unfold on_kstack. destruct (cpl s =? 0); [done|]. by apply upd1_ne. Qed.

(** The words above the segments. *)
Definition trap_words (n : Z) (err : option Z) (s : x86) : list Z :=
  (if cpl s =? 0 then [] else [sel s SS; gpr s ESP]) ++ [eflags s; sel s CS; eip s; default 0 err; n].

Lemma vector_pushes g ts n err s : err_ok n err -> let d := exec (vector n) (deliver g ts err s) in
  let p := push_all (trap_words n err s) (on_kstack ts s) in
  gpr d = gpr p /\ ram d = ram p /\ forall x, x <> CS -> sel d x = sel p x.
Proof.
  intros He. destruct (deliver_eq g ts err s) as (s1 & E1 & Eg & Er & Es). cbv zeta.
  assert (exec (vector n) (deliver g ts err s) = push_all (if has_err n then [n] else [0; n]) (deliver g ts err s)) as ->
    by (unfold vector; by destruct (has_err n)).
  assert (push_all (trap_words n err s) (on_kstack ts s) = push_all (if has_err n then [n] else [0; n]) s1) as ->.
  { rewrite <- E1, push_all_app. f_equal. unfold trap_words. rewrite <- !app_assoc. f_equal. unfold err_ok in He.
    destruct err as [e|], (has_err n); try done; [by destruct He as [He _]; discriminate He|].
    destruct He as [_ He]. by destruct (He eq_refl). }
  destruct (push_all_congr (if has_err n then [n] else [0; n]) _ _ Eg Er) as [-> ->]. split; [done|split; [done|]].
  intros x Hx. rewrite !push_all_sel. by apply Es.
Qed.

(** Where [trap] finds its frame. *)
Definition tf_of (ts : taskstate) (s : x86) : Z := kstack_of ts s - 4 * (17 + if cpl s =? 0 then 0 else 2).

Record entered (n : Z) (err : option Z) (ts : taskstate) (s e : x86) : Prop := {
  en_arg : top e = tf_of ts s;
  en_esp : gpr e ESP = tf_of ts s - 4;
  en_frame : exists oesp, words_at (ram e) (tf_of ts s) (frame n (default 0 err) oesp s);
  en_ram : forall b, b < tf_of ts s - 4 \/ kstack_of ts s <= b -> load8 (ram e) b = load8 (ram s) b;
  en_data : sel e DS = Z.shiftl SEG_KDATA 3 /\ sel e ES = Z.shiftl SEG_KDATA 3
}.

(** The frame is complete when the general registers have been pushed. *)
Definition regs_pushed (d : x86) : x86 :=
  let q := push_all [sel d DS; sel d ES; sel d FS; sel d GS] d in
  push_all [gpr q EAX; gpr q ECX; gpr q EDX; gpr q EBX; gpr q ESP; gpr q EBP; gpr q ESI; gpr q EDI] q.

Lemma sel_push v s : sel (push v s) = sel s.
Proof. done. Qed.

Lemma exec_app a b s : exec (a ++ b) s = exec b (exec a s).
Proof. apply foldl_app. Qed.

Lemma exec_segs d : exec [Pushl_seg DS; Pushl_seg ES; Pushl_seg FS; Pushl_seg GS] d = push_all [sel d DS; sel d ES; sel d FS; sel d GS] d.
Proof. unfold exec, push_all. cbn [foldl exec1]. by rewrite !sel_push. Qed.

Lemma exec_data u : let v := gpr u EAX / 65536 * 65536 + u16 (Z.shiftl SEG_KDATA 3) in
  exec [Movw_ax (Z.shiftl SEG_KDATA 3); Movw_seg DS; Movw_seg ES; Pushl ESP] u =
  push (gpr u ESP) (set_sel ES (u16 v) (set_sel DS (u16 v) (set_reg EAX v u))).
Proof. cbv zeta. unfold exec. cbn [foldl exec1 gpr set_sel set_reg]. rewrite !upd1_eq, upd1_ne by done. done. Qed.

Lemma alltraps_eq d : let u := regs_pushed d in let v := gpr u EAX / 65536 * 65536 + u16 (Z.shiftl SEG_KDATA 3) in
  exec alltraps_enter d = push (gpr u ESP) (set_sel ES (u16 v) (set_sel DS (u16 v) (set_reg EAX v u))).
Proof.
  cbv zeta. rewrite <- exec_data.
  change alltraps_enter with ([Pushl_seg DS; Pushl_seg ES; Pushl_seg FS; Pushl_seg GS] ++ [Pushal] ++
    [Movw_ax (Z.shiftl SEG_KDATA 3); Movw_seg DS; Movw_seg ES; Pushl ESP]).
  by rewrite !exec_app, exec_segs.
Qed.

Lemma regs_pushed_frame n err g ts s : err_ok n err -> let u := regs_pushed (exec (vector n) (deliver g ts err s)) in
  exists oesp, gpr u = gpr (push_all (saved_words n err oesp s) (on_kstack ts s)) /\
    ram u = ram (push_all (saved_words n err oesp s) (on_kstack ts s)) /\
    oesp = gpr (push_all (trap_words n err s ++ [sel s DS; sel s ES; sel s FS; sel s GS]) (on_kstack ts s)) ESP.
Proof.
  intros He. destruct (vector_pushes g ts n err s He) as (Eg & Er & Es). cbv zeta in *. set (d := exec _ _) in *.
  set (p := push_all (trap_words n err s) (on_kstack ts s)) in *. unfold regs_pushed.
  assert (forall x, x <> CS -> x <> SS -> sel d x = sel s x) as Esel.
  { intros x H1 H2. rewrite Es by done. unfold p. by rewrite push_all_sel, on_kstack_sel. }
  rewrite !Esel by done. set (segs := [sel s DS; sel s ES; sel s FS; sel s GS]). cbv zeta.
  assert (forall r, r <> ESP -> gpr (push_all segs d) r = gpr s r) as Egpr.
  { intros r Hr. rewrite push_all_gpr, Eg by done. unfold p. by rewrite push_all_gpr, on_kstack_gpr. }
  rewrite (Egpr EAX), (Egpr ECX), (Egpr EDX), (Egpr EBX), (Egpr EBP), (Egpr ESI), (Egpr EDI) by done.
  destruct (push_all_congr segs d p Eg Er) as [Eq _]. rewrite Eq, push_all_app.
  set (oesp := gpr (push_all segs p) ESP). set (regs := [_; _; _; _; _; _; _; _]).
  destruct (push_all_congr (segs ++ regs) d p Eg Er) as [-> ->]. exists oesp.
  assert (push_all (segs ++ regs) p = push_all (saved_words n err oesp s) (on_kstack ts s)) as ->.
  { unfold p. rewrite push_all_app.
    assert (trap_words n err s ++ segs ++ regs = saved_words n err oesp s) as ->; [|done].
    unfold trap_words, saved_words. rewrite <- app_assoc. reflexivity. }
  split; [done|split; [done|]]. unfold oesp, p. by rewrite push_all_app.
Qed.

Lemma saved_length n err oesp s : Z.of_nat (length (saved_words n err oesp s)) = 17 + if cpl s =? 0 then 0 else 2.
Proof. unfold saved_words. by destruct (cpl s =? 0). Qed.

Lemma push_all_esp ws w s : is_word (gpr (push_all (ws ++ [w]) s) ESP).
Proof. rewrite <- push_all_app. cbn. rewrite upd1_eq. apply u32_range. Qed.

Lemma on_kstack_ram ts s : ram (on_kstack ts s) = ram s.
Proof. unfold on_kstack. by destruct (cpl s =? 0). Qed.

Lemma ax_low x : u16 (x / 65536 * 65536 + u16 (Z.shiftl SEG_KDATA 3)) = Z.shiftl SEG_KDATA 3.
Proof.
  unfold u16. change (Z.shiftl SEG_KDATA 3) with 16. change (16 mod 65536) with 16. by rewrite Z.add_comm, Z.mod_add by done.
Qed.

(** The last push, of the frame's own address. *)
Lemma entered_push n err ts s u v oesp : gpr u ESP = tf_of ts s -> 4 <= tf_of ts s < 4294967296 -> tf_of ts s <= kstack_of ts s ->
  words_at (ram u) (tf_of ts s) (frame n (default 0 err) oesp s) ->
  (forall b, b < tf_of ts s \/ kstack_of ts s <= b -> load8 (ram u) b = load8 (ram s) b) ->
  u16 v = Z.shiftl SEG_KDATA 3 ->
  entered n err ts s (push (gpr u ESP) (set_sel ES (u16 v) (set_sel DS (u16 v) (set_reg EAX v u)))).
Proof.
  intros E1 Htf Hle E6 E7 Ev. set (tf := tf_of ts s) in *. rewrite Ev. set (w := set_sel ES _ _).
  assert (gpr w ESP = tf /\ ram w = ram u) as [Ew Er] by done.
  assert (u32 (tf - 4) = tf - 4) as Eu by (apply u32_small; lia).
  assert (gpr (push (gpr u ESP) w) ESP = tf - 4) as Es by (unfold push; cbn [gpr set_ram set_reg]; by rewrite upd1_eq, Ew).
  assert (ram (push (gpr u ESP) w) = store32 (ram u) (tf - 4) tf) as Em by (unfold push; cbn [ram set_ram]; by rewrite Ew, Er, Eu, E1).
  split; fold tf.
  - unfold top. rewrite Es, Em, load32_store32_eq. apply u32_small. lia.
  - done.
  - exists oesp. rewrite Em. eapply words_at_ext; [|exact E6]. intros b Hb. apply load8_store32_ne. lia.
  - intros b Hb. rewrite Em, load8_store32_ne by lia. apply E7. lia.
  - by rewrite sel_push.
Qed.

Lemma enter_spec n err g ts s : regs_ok s -> err_ok n err -> is_word n -> is_word (default 0 err) ->
  80 <= kstack_of ts s < 4294967296 -> entered n err ts s (enter n (deliver g ts err s)).
Proof.
  intros Hr He Hn Herr Hk. unfold enter. rewrite alltraps_eq. cbv zeta.
  destruct (regs_pushed_frame n err g ts s He) as (oesp & Eg & Er & Eo). cbv zeta in *. assert (is_word oesp) as Ho.
  { rewrite Eo. change [sel s DS; sel s ES; sel s FS; sel s GS] with ([sel s DS; sel s ES; sel s FS] ++ [sel s GS]).
    rewrite app_assoc. apply push_all_esp. }
  pose proof (saved_length n err oesp s) as Hl. assert (0 <= (if cpl s =? 0 then 0 else 2) <= 2) as Hc by (destruct (cpl s =? 0); lia).
  destruct (push_all_spec _ (on_kstack ts s) (saved_is_word n err oesp s Hr Hn Herr Ho)) as [E1 _ _ _ _ E6 E7].
  { rewrite on_kstack_esp. lia. }
  rewrite <- Eg in *. rewrite <- Er in *. rewrite on_kstack_esp, Hl in E1. rewrite on_kstack_esp, on_kstack_ram in E7.
  fold (tf_of ts s) in E1. rewrite saved_frame in E6. rewrite E1 in E6, E7.
  apply entered_push with oesp; [done|unfold tf_of; lia|unfold tf_of; lia|done|done|apply ax_low].
Qed.

(** ** Leaving the kernel *)

(** The registers are those of [s]. *)
Record same_regs (s f : x86) : Prop := {
  sr_gpr : forall r, gpr f r = gpr s r;
  sr_sel : forall g, sel f g = sel s g;
  sr_eip : eip f = eip s;
  sr_eflags : eflags f = eflags s
}.

Lemma exec_pop_seg g a s : gpr s ESP = a -> 0 <= a < 4294967292 ->
  exec1 s (Popl_seg g) = set_sel g (u16 (load32 (ram s) a)) (set_reg ESP (a + 4) s).
Proof. intros <- Ha. cbn [exec1]. unfold top, drop_words. by rewrite u32_small by lia. Qed.

(** [trapret], up to [iret]: the segments and registers come from the words
    at the stack pointer. *)
Record popped (a : Z) (t f : x86) : Prop := {
  pp_esp : gpr f ESP = a + 56;
  pp_gpr : gpr f EDI = load32 (ram t) a /\ gpr f ESI = load32 (ram t) (a + 4) /\ gpr f EBP = load32 (ram t) (a + 8) /\
    gpr f EBX = load32 (ram t) (a + 16) /\ gpr f EDX = load32 (ram t) (a + 20) /\ gpr f ECX = load32 (ram t) (a + 24) /\
    gpr f EAX = load32 (ram t) (a + 28);
  pp_sel : sel f GS = u16 (load32 (ram t) (a + 32)) /\ sel f FS = u16 (load32 (ram t) (a + 36)) /\
    sel f ES = u16 (load32 (ram t) (a + 40)) /\ sel f DS = u16 (load32 (ram t) (a + 44));
  pp_kernel : sel f CS = sel t CS /\ sel f SS = sel t SS;
  pp_ram : ram f = ram t
}.

Lemma trapret_spec a t : gpr t ESP = a -> 0 <= a -> a + 76 <= 4294967296 -> popped a t (exec trapret t).
Proof.
  intros Ea Ha Ha'. assert (forall n, 0 <= n <= 8 -> word_at t n = load32 (ram t) (a + 4 * n)) as Ew.
  { intros n Hn. unfold word_at. by rewrite Ea, u32_small by lia. }
  unfold exec, trapret. cbn [foldl].
  set (t1 := exec1 t Popal). assert (gpr t1 ESP = a + 32) as E1.
  { change (gpr t1 ESP) with (u32 (gpr t ESP + 4 * 8)). rewrite Ea. apply u32_small. lia. }
  rewrite (exec_pop_seg GS (a + 32)) by (done || lia). set (t2 := set_sel GS _ _).
  assert (gpr t2 ESP = a + 36) as E2 by (change (gpr t2 ESP) with (a + 32 + 4); lia).
  rewrite (exec_pop_seg FS (a + 36)) by (done || lia). set (t3 := set_sel FS _ _).
  assert (gpr t3 ESP = a + 40) as E3 by (change (gpr t3 ESP) with (a + 36 + 4); lia).
  rewrite (exec_pop_seg ES (a + 40)) by (done || lia). set (t4 := set_sel ES _ _).
  assert (gpr t4 ESP = a + 44) as E4 by (change (gpr t4 ESP) with (a + 40 + 4); lia).
  rewrite (exec_pop_seg DS (a + 44)) by (done || lia). set (t5 := set_sel DS _ _).
  assert (gpr t5 ESP = a + 48) as E5 by (change (gpr t5 ESP) with (a + 44 + 4); lia).
  cbn [exec1]. rewrite E5, u32_small by lia. split; [cbn [gpr set_reg]; rewrite upd1_eq; lia| |done|done|done].
  change (word_at t 0 = load32 (ram t) a /\ word_at t 1 = load32 (ram t) (a + 4) /\ word_at t 2 = load32 (ram t) (a + 8) /\
    word_at t 4 = load32 (ram t) (a + 16) /\ word_at t 5 = load32 (ram t) (a + 20) /\ word_at t 6 = load32 (ram t) (a + 24) /\
    word_at t 7 = load32 (ram t) (a + 28)).
  rewrite !Ew by lia. by rewrite Z.mul_0_r, Z.add_0_r.
Qed.

Lemma frame_word m a ws k w b : words_at m a ws -> ws !! k = Some w -> b = a + 4 * Z.of_nat k -> load32 m b = w.
Proof. intros H Hk ->. by apply H. Qed.

Lemma iret_word a t k : gpr t ESP = a -> 0 <= a -> 0 <= k -> a + 4 * k < 4294967296 -> word_at t k = load32 (ram t) (a + 4 * k).
Proof. intros Ea Ha Hk Hle. unfold word_at. by rewrite Ea, u32_small by lia. Qed.

(** The registers of interrupted code come back from its frame. *)
Lemma iret_spec n err oesp tf s t f : regs_ok s -> popped tf t f -> 0 <= tf -> tf + 76 <= 4294967296 -> cpl t = 0 ->
  words_at (ram t) tf (frame n err oesp s) ->
  (cpl s = 0 -> gpr s ESP = tf + 68 /\ sel s SS = sel t SS) ->
  same_regs s (iret f) /\ ram (iret f) = ram t.
Proof.
  intros Hr [P1 P2 P3 P4 P5] Ha Ha' Hc Hw Hk.
  assert (forall k w b, frame n err oesp s !! k = Some w -> b = tf + 4 * Z.of_nat k -> load32 (ram t) b = w) as W
    by (intros; by eapply frame_word).
  assert (forall k, 0 <= k <= 4 -> word_at f k = load32 (ram t) (tf + 56 + 4 * k)) as Ew.
  { intros k Hk'. rewrite <- P5. apply iret_word; [done|lia..]. }
  assert (forall g, u16 (sel s g) = sel s g) as Eu by (intros g; apply Z.mod_small; apply Hr).
  assert (word_at f 0 = eip s /\ word_at f 1 = sel s CS /\ word_at f 2 = eflags s) as (W0 & W1 & W2).
  { rewrite !Ew by lia. split_and!; [eapply (W 14%nat)|eapply (W 15%nat)|eapply (W 16%nat)]; done || lia. }
  destruct P2 as (R1 & R2 & R3 & R4 & R5 & R6 & R7). destruct P3 as (S1 & S2 & S3 & S4). destruct P4 as [K1 K2].
  rewrite (W 0%nat _ tf eq_refl ltac:(lia)) in R1. rewrite (W 1%nat _ (tf + 4) eq_refl ltac:(lia)) in R2.
  rewrite (W 2%nat _ (tf + 8) eq_refl ltac:(lia)) in R3. rewrite (W 4%nat _ (tf + 16) eq_refl ltac:(lia)) in R4.
  rewrite (W 5%nat _ (tf + 20) eq_refl ltac:(lia)) in R5. rewrite (W 6%nat _ (tf + 24) eq_refl ltac:(lia)) in R6.
  rewrite (W 7%nat _ (tf + 28) eq_refl ltac:(lia)) in R7. rewrite (W 8%nat _ (tf + 32) eq_refl ltac:(lia)), Eu in S1.
  rewrite (W 9%nat _ (tf + 36) eq_refl ltac:(lia)), Eu in S2. rewrite (W 10%nat _ (tf + 40) eq_refl ltac:(lia)), Eu in S3.
  rewrite (W 11%nat _ (tf + 44) eq_refl ltac:(lia)), Eu in S4.
  unfold iret. rewrite W0, W1, W2, Eu. assert (cpl f = 0) as Hcf by (unfold cpl in *; by rewrite K1). rewrite Hcf. fold (cpl s).
  destruct (Z.eqb_spec (cpl s) 0) as [E|E]; cbn [negb].
  - destruct (Hk E) as [H1 H2]. split; [|exact P5]. split; [|intros []; unfold drop_words; cbn [sel set_reg set_eip set_sel set_eflags]; unfold upd1; repeat case_decide; congruence|reflexivity|reflexivity].
    intros r. destruct (decide (r = ESP)) as [->|Hne]; [|destruct r; [exact R7|exact R6|exact R5|exact R4|done|exact R3|exact R2|exact R1]].
    change (u32 (gpr f ESP + 4 * 3) = gpr s ESP).
    rewrite P1, H1. replace (tf + 56 + 4 * 3) with (tf + 68) by lia. apply u32_small. lia.
  - assert (word_at f 3 = gpr s ESP /\ word_at f 4 = sel s SS) as [W3 W4].
    { rewrite !Ew by lia. unfold frame, hw_frame in W. rewrite (proj2 (Z.eqb_neq _ _) E) in W.
      split; [eapply (W 17%nat)|eapply (W 18%nat)]; done || lia. }
    rewrite W3, W4, Eu. split; [|exact P5]. split; [intros []|intros []|reflexivity|reflexivity];
      [exact R7|exact R6|exact R5|exact R4|reflexivity|exact R3|exact R2|exact R1|reflexivity|exact S4|exact S3|exact S2|exact S1|reflexivity].
Qed.

Lemma leave_spec n err oesp tf s t : regs_ok s -> gpr t ESP = tf -> 0 <= tf -> tf + 76 <= 4294967296 -> cpl t = 0 ->
  words_at (ram t) tf (frame n err oesp s) ->
  (cpl s = 0 -> gpr s ESP = tf + 68 /\ sel s SS = sel t SS) ->
  same_regs s (leave t) /\ ram (leave t) = ram t.
Proof. intros Hr Ea Ha Ha' Hc Hw Hk. eapply iret_spec; try done. by apply trapret_spec. Qed.

(** ** Traps *)

(** The calling convention: a C function returns to the address on the top of
    the stack, with the stack pointer above it and the code and stack segments
    it was called with. *)
Class CFun (f : x86 -> x86) : Prop := {
  cf_eip : forall s, eip (f s) = top s;
  cf_esp : forall s, gpr (f s) ESP = u32 (gpr s ESP + 4);
  cf_sel : forall s, sel (f s) CS = sel s CS /\ sel (f s) SS = sel s SS
}.

Lemma sel_data w v u g a : g <> DS -> g <> ES -> sel (push a (set_sel ES w (set_sel DS w (set_reg EAX v u)))) g = sel u g.
Proof. intros H1 H2. rewrite sel_push. cbn [sel set_sel set_reg]. rewrite upd1_ne by exact H2. apply upd1_ne. exact H1. Qed.

Lemma vector_sel n s : sel (exec (vector n) s) = sel s.
Proof. unfold vector, exec. destruct (has_err n); reflexivity. Qed.

Lemma regs_pushed_sel d : sel (regs_pushed d) = sel d.
Proof. unfold regs_pushed. cbv zeta. rewrite push_all_sel. apply push_all_sel. Qed.

Lemma enter_sel n s g : g <> DS -> g <> ES -> sel (enter n s) g = sel s g.
Proof.
  intros H1 H2. unfold enter. rewrite alltraps_eq. cbv zeta. rewrite (sel_data _ _ _ _ _ H1 H2), regs_pushed_sel, vector_sel.
  reflexivity.
Qed.

Lemma deliver_cs g ts err s : sel (deliver g ts err s) CS = g_cs g.
Proof. apply upd1_eq. Qed.

Lemma deliver_ss g ts err s : cpl s = 0 -> sel (deliver g ts err s) SS = sel s SS.
Proof.
  intros E. destruct (deliver_eq g ts err s) as (s1 & <- & _ & _ & Es). rewrite Es by discriminate. rewrite push_all_sel.
  unfold on_kstack. rewrite E. reflexivity.
Qed.

Section Traps.
Context (trap : x86 -> x86) `{!CFun trap} (ra : Z).

(** After the call the frame is on the top of the stack again. *)
Lemma after_call e tf : gpr e ESP = tf - 4 -> 4 <= tf < 4294967296 -> let c := exec alltraps_leave (call_ trap ra e) in
  gpr c ESP = tf /\ sel c CS = sel e CS /\ sel c SS = sel e SS /\ ram c = ram (call_ trap ra e).
Proof using CFun0.
  intros He Htf. cbv zeta. unfold call_, exec, alltraps_leave. cbn [foldl exec1]. set (p := push ra e).
  assert (gpr p ESP = u32 (tf - 8)) as Ep by (unfold p, push; cbn [gpr set_ram set_reg]; rewrite upd1_eq, He; f_equal; lia).
  destruct (cf_sel p) as [E1 E2]. cbn [gpr sel ram set_reg]. rewrite upd1_eq, cf_esp, Ep, E1, E2.
  split; [|done]. unfold u32. rewrite Z.add_mod_idemp_l, <- Z.add_assoc, Z.add_mod_idemp_l by done.
  rewrite Z.mod_small; lia.
Qed.

Lemma handle_spec n err g ts s : regs_ok s -> err_ok n err -> is_word n -> is_word (default 0 err) -> Z.land (g_cs g) 3 = 0 ->
  80 <= kstack_of ts s <= 4294967288 -> let c := call_ trap ra (enter n (deliver g ts err s)) in
  forall n' s' err' oesp, regs_ok s' -> cpl s' = cpl s -> (cpl s = 0 -> gpr s' ESP = gpr s ESP /\ sel s' SS = sel s SS) ->
  words_at (ram c) (tf_of ts s) (frame n' err' oesp s') ->
  same_regs s' (handle trap ra n (deliver g ts err s)) /\ ram (handle trap ra n (deliver g ts err s)) = ram c.
Proof using CFun0.
  intros Hr He Hn Herr Hg Hk c n' s' err' oesp Hr' Hc Hsame Hw. unfold c in *. clear c.
  pose proof (enter_spec n err g ts s Hr He Hn Herr ltac:(lia)) as [_ E2 _ _ _]. set (e := enter n _) in *.
  assert (4 <= tf_of ts s /\ tf_of ts s + 68 <= kstack_of ts s) as [Htf1 Htf2] by (unfold tf_of; destruct (cpl s =? 0); lia).
  destruct (after_call e (tf_of ts s) E2 ltac:(lia)) as (A1 & A2 & A3 & A4). unfold handle. fold e. rewrite <- A4 in *.
  eapply leave_spec; try done; try lia.
  - unfold cpl. rewrite A2. unfold e. by rewrite enter_sel, deliver_cs.
  - intros E. destruct (Hsame ltac:(congruence)) as [F1 F2]. rewrite A3. unfold e. rewrite enter_sel, deliver_ss by (done || congruence).
    split; [|done]. rewrite F1. unfold tf_of, kstack_of. replace (cpl s) with 0 by congruence. cbn [Z.eqb]. lia.
Qed.

End Traps.

(** ** The interrupt table *)

Lemma tvinit_loop vectors l : forall (idt : arr gatedesc) i, (foldl (fun (idt : arr gatedesc) i => <[i := SETGATE false (Z.shiftl SEG_KCODE 3) (vectors i) 0]> idt) idt l).[i] =
  if decide (i ∈ l) then SETGATE false (Z.shiftl SEG_KCODE 3) (vectors i) 0 else idt.[i].
Proof.
  induction l as [|j l IH]; intros idt i; cbn [foldl]; [by rewrite decide_False by apply not_elem_of_nil|].
  rewrite IH. destruct (decide (i ∈ l)) as [H|H].
  - rewrite decide_True; [done|]. by right.
  - destruct (decide (i = j)) as [->|Hne].
    + rewrite decide_True by left. by rewrite asel_insert_eq.
    + rewrite decide_False by (rewrite elem_of_cons; tauto). by rewrite asel_insert_ne.
Qed.

Lemma tvinit_gate vectors idt n : 0 <= n < 256 ->
  (tvinit vectors idt).[n] = SETGATE (n =? T_SYSCALL) (Z.shiftl SEG_KCODE 3) (vectors n) (if n =? T_SYSCALL then DPL_USER else 0).
Proof.
  intros Hn. unfold tvinit. cbv zeta. destruct (Z.eqb_spec n T_SYSCALL) as [->|Hne]; [by rewrite asel_insert_eq|].
  rewrite asel_insert_ne, tvinit_loop by done. rewrite decide_True; [done|]. apply elem_of_seqZ. lia.
Qed.

Lemma gate_off_SETGATE t c off d : is_word off -> gate_off (SETGATE t c off d) = off.
Proof.
  intros Ho. unfold gate_off, SETGATE. cbn [off_31_16 off_15_0]. unfold is_word in Ho. rewrite u32_small by lia.
  rewrite Z.shiftr_div_pow2 by lia. change 65535 with (Z.ones 16). rewrite Z.land_ones by lia. change (2 ^ 16) with 65536.
  pose proof (Z.div_mod off 65536 ltac:(lia)). lia.
Qed.
