(* ===== verification/AsmTheorems.v ===== *)
(** * What the assembly guarantees ([trapasm.S], [usys.S], [swtch.S])

    Traps build the frame the C code reads and resume from it; a system call
    stub is a function call for the program; [swtch] resumes a thread where it
    left; a process made by [allocproc] starts from its trap frame. *)

From stdpp Require Import base tactics numbers gmap strings list.
From Stdlib Require Import ZArith Lia.
From S2P Require Import Prelude Mmu Memory Kalloc Proc Trap Asm.

(** ** Traps *)

(** C24: for every interrupt or exception [n], taken in user or in kernel mode
    through the gate [tvinit] set up, the code of [vectors.S] and [alltraps]
    calls [trap] with the address of a complete [struct trapframe] on the kernel
    stack: the interrupted registers, the trap number and the error code, the
    rest of memory unchanged and the kernel's data segments loaded.  When [trap]
    returns, [trapret] and [iret] resume with exactly the registers that the
    frame then holds; when [trap] left the frame alone, these are all the
    registers of the interrupted code, stack pointer and flags included. *)
Theorem trap_roundtrip trap vectors idt ts ra n err s : CFun trap ->
  0 <= n < 256 -> regs_ok s -> err_ok n err -> is_word (default 0 err) -> 80 <= kstack_of ts s <= 4294967288 ->
  let d := deliver (tvinit vectors idt).[n] ts err s in
  let e := enter n d in
  let c := call_ trap ra e in
  entered n err ts s e /\
  (forall n' s' err' oesp, regs_ok s' -> cpl s' = cpl s -> (cpl s = 0 -> gpr s' ESP = gpr s ESP /\ sel s' SS = sel s SS) ->
     words_at (ram c) (tf_of ts s) (frame n' err' oesp s') ->
     same_regs s' (handle trap ra n d) /\ ram (handle trap ra n d) = ram c) /\
  ((forall b, tf_of ts s <= b < kstack_of ts s -> load8 (ram c) b = load8 (ram e) b) -> same_regs s (handle trap ra n d)).
Proof.
  intros Hf Hn Hr He Herr Hk. cbv zeta. assert (is_word n) as Hw by (unfold is_word; lia).
  assert (Z.land (g_cs (tvinit vectors idt).[n]) 3 = 0) as Hg by (rewrite tvinit_gate by done; reflexivity).
  pose proof (enter_spec n err (tvinit vectors idt).[n] ts s Hr He Hw Herr ltac:(lia)) as Hent.
  pose proof (handle_spec trap ra n err (tvinit vectors idt).[n] ts s Hr He Hw Herr Hg Hk) as Hh.
  split; [exact Hent|split; [exact Hh|]]. intros Hsame. destruct (en_frame _ _ _ _ _ Hent) as [oesp Hfr].
  apply (Hh n s (default 0 err) oesp Hr eq_refl (fun _ => conj eq_refl eq_refl)).
  eapply words_at_ext; [|exact Hfr]. intros b Hb. apply Hsame. unfold tf_of in *.
  assert (Z.of_nat (length (frame n (default 0 err) oesp s)) = 17 + if cpl s =? 0 then 0 else 2) as Hl
    by (unfold frame, hw_frame; by destruct (cpl s =? 0)).
  lia.
Qed.

(** A function that returns at once, and a program interrupted in user mode. *)
#[global] Instance ret_cfun : CFun ret_.
Proof. split; intros s; [reflexivity|apply upd1_eq|split; reflexivity]. Qed.

Definition user_regs : x86 :=
  mkx86 (fun r => match r with ESP => 12256 | EBP => 12264 | _ => 7 end) (fun g => match g with CS => ucode | _ => udata end)
    64 FL_IF ∅.

Definition user_ts : taskstate := switchuvm_ts 2382356480.

Lemma user_regs_ok : regs_ok user_regs.
Proof. by split; [intros []|intros []| |]. Qed.

Lemma ret_call_ram ra e tf : gpr e ESP = tf - 4 -> 8 <= tf < 4294967296 -> forall b, tf <= b -> load8 (ram (call_ ret_ ra e)) b = load8 (ram e) b.
Proof.
  intros He Htf b Hb. change (ram (call_ ret_ ra e)) with (store32 (ram e) (u32 (gpr e ESP - 4)) ra).
  rewrite He, u32_small by lia. apply load8_store32_ne. lia.
Qed.

Lemma trap_roundtrip_witness : same_regs user_regs (handle ret_ 0 14 (deliver (tvinit (fun i => 16 * i) ∅).[14] user_ts (Some 4) user_regs)).
Proof.
  destruct (trap_roundtrip ret_ (fun i => 16 * i) ∅ user_ts 0 14 (Some 4) user_regs ret_cfun ltac:(lia) user_regs_ok
    ltac:(split; intros _; [reflexivity|by eexists]) ltac:(by split) ltac:(by split)) as (He & _ & Hs).
  apply Hs. intros b Hb. apply ret_call_ram with (tf_of user_ts user_regs); [apply (en_esp _ _ _ _ _ He)|by split|lia].
Defined.

(** ** System call stubs *)

(** One word of a row changes. *)
Lemma words_at_set m m' a ws k v : (k < length ws)%nat -> words_at m a ws -> load32 m' (a + 4 * Z.of_nat k) = v ->
  (forall b, a <= b < a + 4 * Z.of_nat (length ws) -> b < a + 4 * Z.of_nat k \/ a + 4 * Z.of_nat k + 4 <= b -> load8 m' b = load8 m b) ->
  words_at m' a (<[k := v]> ws).
Proof.
  intros Hk Hw Hv Hb j w Hj. destruct (decide (j = k)) as [->|Hne].
  - rewrite list_lookup_insert_eq in Hj by done. congruence.
  - rewrite list_lookup_insert_ne in Hj by done. rewrite <- (Hw j w Hj). apply load32_ext. intros b Hr.
    pose proof (lookup_lt_Some _ _ _ Hj). apply Hb; lia.
Qed.

Lemma frame_set_eax n err oesp v s : frame n err oesp (set_reg EAX v s) = <[7%nat := v]> (frame n err oesp s).
Proof. reflexivity. Qed.

Lemma regs_ok_set r v s : regs_ok s -> is_word v -> regs_ok (set_reg r v s).
Proof.
  intros [H1 H2 H3 H4] Hv. split; [|exact H2|exact H3|exact H4]. intros r'. cbn [gpr set_reg]. unfold upd1. case_decide; [exact Hv|apply H1].
Qed.

Lemma syscall_gate vectors idt s : cpl s <= 3 -> int_gate (tvinit vectors idt) T_SYSCALL s = (T_SYSCALL, None).
Proof.
  intros Hc. unfold int_gate. rewrite tvinit_gate by (unfold T_SYSCALL; lia). rewrite Z.eqb_refl.
  change (g_dpl _) with 3. change (g_p _) with 1. by rewrite (proj2 (Z.leb_le _ _) Hc).
Qed.

(** The return of a stub whose trap resumed with [v] in [eax]. *)
Lemma stub_returns num v s h : same_regs (set_reg EAX v (set_reg EAX num s)) h -> let f := ret_ h in
  gpr f EAX = v /\ gpr f ESP = u32 (gpr s ESP + 4) /\ (forall r, r <> EAX -> r <> ESP -> gpr f r = gpr s r) /\
  eip f = load32 (ram h) (gpr s ESP) /\ (forall g, sel f g = sel s g) /\ eflags f = eflags s /\ ram f = ram h.
Proof.
  intros [R1 R2 R3 R4]. assert (gpr h ESP = gpr s ESP) as Es by (rewrite R1; reflexivity).
  unfold ret_, drop_words, top. cbv zeta. cbn [gpr sel eip eflags ram set_eip set_reg]. rewrite upd1_eq, Es.
  split_and!; [rewrite upd1_ne by done; rewrite R1; reflexivity|done| |done|exact R2|exact R4|done].
  intros r H1 H2. rewrite upd1_ne, R1 by done. cbn [gpr set_reg]. by rewrite !upd1_ne.
Qed.

(** Of the gates only that for system calls admits a program. *)
Lemma user_int vectors idt n s : cpl s = 3 -> 0 <= n < 256 -> n <> T_SYSCALL ->
  int_gate (tvinit vectors idt) n s = (T_GPFLT, Some (8 * n + 2)).
Proof.
  intros Hc Hn Hne. unfold int_gate. rewrite tvinit_gate, Hc by done. by rewrite (proj2 (Z.eqb_neq _ _) Hne).
Qed.

(** In user mode [int n] raises a protection fault for every [n] but
    [T_SYSCALL].  A system call stub of [usys.S] enters [trap] with a frame that
    names the system call trap, holds the call's number in [eax] and the
    program's stack pointer in [esp], with the program's memory, and so the
    arguments it pushed, unchanged.  When [trap] returns with only the frame's
    [eax] changed, to [v], the stub returns to its caller like a C function with
    result [v]: it pops the return address, and all other registers are the
    caller's. *)
Theorem syscall_stub_calls trap vectors idt ts ra num v s : CFun trap -> regs_ok s -> cpl s = 3 -> is_word num -> is_word v ->
  80 <= esp0 ts <= 4294967288 ->
  let s1 := set_reg EAX num s in
  let e := enter T_SYSCALL (deliver (tvinit vectors idt).[T_SYSCALL] ts None s1) in
  let c := call_ trap ra e in
  let tf := esp0 ts - TF_SIZE in
  let f := syscall_stub (tvinit vectors idt) ts trap ra num s in
  (forall n, 0 <= n < 256 -> n <> T_SYSCALL -> int_gate (tvinit vectors idt) n s = (T_GPFLT, Some (8 * n + 2))) /\
  top e = tf /\ load32 (ram e) (tf + TF_TRAPNO) = T_SYSCALL /\ load32 (ram e) (tf + TF_EAX) = num /\
  load32 (ram e) (tf + TF_ESP) = gpr s ESP /\
  (forall a, a + 4 <= tf - 4 -> load32 (ram e) a = load32 (ram s) a) /\
  (load32 (ram c) (tf + TF_EAX) = v ->
   (forall b, tf <= b < esp0 ts -> b < tf + TF_EAX \/ tf + TF_EAX + 4 <= b -> load8 (ram c) b = load8 (ram e) b) ->
   gpr f EAX = v /\ gpr f ESP = u32 (gpr s ESP + 4) /\ (forall r, r <> EAX -> r <> ESP -> gpr f r = gpr s r) /\
   eip f = load32 (ram c) (gpr s ESP) /\ (forall g, sel f g = sel s g) /\ eflags f = eflags s /\ ram f = ram c).
Proof.
  intros Hf Hr Hc Hnum Hv Hk. cbv zeta. set (s1 := set_reg EAX num s). set (g := (tvinit vectors idt).[T_SYSCALL]).
  assert (cpl s1 = 3) as Hc1 by exact Hc. pose proof (regs_ok_set EAX num s Hr Hnum) as Hr1. fold s1 in Hr1.
  assert (kstack_of ts s1 = esp0 ts /\ tf_of ts s1 = esp0 ts - TF_SIZE) as [Ek Et]
    by (unfold tf_of, kstack_of, TF_SIZE; rewrite Hc1; cbn [Z.eqb]; split; lia).
  assert (err_ok T_SYSCALL None) as He by (split; [intros [? ?]; done|done]).
  assert (is_word T_SYSCALL) as Hw by done. assert (is_word (default 0 None)) as H0 by done.
  pose proof (enter_spec T_SYSCALL None g ts s1 Hr1 He Hw H0 ltac:(lia)) as [E1 E2 [oesp E3] E4 _].
  rewrite Ek, Et in *. set (e := enter _ _) in *. set (tf := esp0 ts - TF_SIZE) in *.
  assert (forall k w o, frame T_SYSCALL 0 oesp s1 !! k = Some w -> o = 4 * Z.of_nat k -> load32 (ram e) (tf + o) = w) as W.
  { intros k w o Hw' ->. by apply (E3 k w). }
  assert (frame T_SYSCALL 0 oesp s1 !! 17%nat = Some (gpr s ESP)) as Wesp by (unfold frame, hw_frame; rewrite Hc1; reflexivity).
  split; [intros n; by apply user_int|].
  split; [exact E1|]. split; [by apply (W 12%nat)|]. split; [by apply (W 7%nat)|]. split; [by apply (W 17%nat)|].
  split; [intros a Ha; apply load32_ext; intros b Hb; apply E4; lia|]. intros Hres Hframe.
  assert (words_at (ram (call_ trap ra e)) tf (frame T_SYSCALL 0 oesp (set_reg EAX v s1))) as Hw2.
  { rewrite frame_set_eax. assert (Z.of_nat (length (frame T_SYSCALL 0 oesp s1)) = 19) as Hl by (unfold frame, hw_frame; rewrite Hc1; reflexivity).
    apply words_at_set with (ram e); [lia|exact E3|exact Hres|]. intros b Hb Hb'. apply Hframe; [|exact Hb']. unfold tf, TF_SIZE in *. lia. }
  assert (Z.land (g_cs g) 3 = 0) as Hg by (unfold g; rewrite tvinit_gate by done; reflexivity).
  pose proof (handle_spec trap ra T_SYSCALL None g ts s1 Hr1 He Hw H0 Hg ltac:(lia)) as Hh. cbv zeta in Hh. fold e in Hh. rewrite Et in Hh.
  destruct (Hh T_SYSCALL (set_reg EAX v s1) 0 oesp (regs_ok_set EAX v s1 Hr1 Hv) eq_refl ltac:(lia) Hw2) as [Hsame R5].
  unfold syscall_stub, int_. cbv zeta. change (exec (stub_enter num) s) with (set_reg EAX (u32 num) s). rewrite u32_small by exact Hnum.
  fold s1. rewrite syscall_gate by lia. cbn [fst]. fold g. set (h := handle _ _ _ _) in *.
  rewrite <- R5. apply (stub_returns num). exact Hsame.
Qed.

(** A kernel that answers every call with 42: [tf->eax = 42]. *)
Definition answer (s : x86) : x86 :=
  set_ram (store32 (ram s) (load32 (ram s) (u32 (gpr s ESP + 4)) + TF_EAX) 42) (ret_ s).

#[global] Instance answer_cfun : CFun answer.
Proof. split; intros s; [reflexivity|apply upd1_eq|split; reflexivity]. Qed.

Lemma answer_ram ra e tf : top e = tf -> gpr e ESP = tf - 4 -> 8 <= tf < 4294967296 ->
  ram (call_ answer ra e) = store32 (store32 (ram e) (tf - 8) ra) (tf + TF_EAX) 42.
Proof.
  intros Ht He Htf. unfold call_, answer, push. cbn [ram set_ram set_reg gpr]. rewrite upd1_eq, He.
  rewrite (u32_small (tf - 4 - 4)) by lia. rewrite u32_small by lia. replace (tf - 4 - 4 + 4) with (tf - 4) by lia.
  replace (tf - 4 - 4) with (tf - 8) by lia. rewrite load32_store32_ne by lia. unfold top in Ht. rewrite He in Ht. by rewrite Ht.
Qed.

Lemma user_enter num : is_word num -> let e := enter T_SYSCALL (deliver (tvinit (fun i => 16 * i) ∅).[T_SYSCALL] user_ts None (set_reg EAX num user_regs)) in
  gpr e ESP = esp0 user_ts - TF_SIZE - 4.
Proof.
  intros Hn. refine (en_esp _ _ _ _ _ (enter_spec T_SYSCALL None _ user_ts _ (regs_ok_set EAX num _ user_regs_ok Hn) _ _ _ _)); try by split.
Qed.

Lemma syscall_stub_calls_witness : exists f, f = syscall_stub (tvinit (fun i => 16 * i) ∅) user_ts answer 0 11 user_regs /\
  gpr f EAX = 42 /\ gpr f ESP = 12260 /\ gpr f EBX = 7.
Proof.
  destruct (syscall_stub_calls answer (fun i => 16 * i) ∅ user_ts 0 11 42 user_regs answer_cfun user_regs_ok eq_refl ltac:(by split) ltac:(by split)
    ltac:(by split)) as (_ & He & _ & _ & _ & _ & Hs).
  pose proof (answer_ram 0 _ _ He (user_enter 11 ltac:(by split)) ltac:(by split)) as Er. rewrite Er in Hs.
  destruct Hs as (H1 & H2 & H3 & _).
  - by rewrite load32_store32_eq.
  - intros b Hb Hb'. rewrite !load8_store32_ne by lia. reflexivity.
  - eexists. split; [reflexivity|]. split; [exact H1|]. split; [exact H2|]. by apply H3.
Defined.

(** The first program calls [exec(init, argv)]: a trap from it finds the call's
    number in [eax] and the arguments above the stack pointer. *)
Lemma initcode_args init argv s : is_word init -> is_word argv -> 12 <= gpr s ESP < 4294967296 -> let f := exec (initcode init argv) s in
  gpr f EAX = SYS_exec /\ gpr f ESP = gpr s ESP - 12 /\ words_at (ram f) (gpr f ESP) [0; init; argv].
Proof.
  intros Hi Ha He. cbv zeta. change (exec (initcode init argv) s) with (set_reg EAX SYS_exec (push_all [argv; init; 0] s)).
  destruct (push_all_spec [argv; init; 0] s) as [P1 _ _ _ _ P6 _]; [repeat apply Forall_cons_2; [exact Ha|exact Hi|by split|constructor]|cbn [length]; lia|].
  split; [reflexivity|]. cbn [gpr ram set_reg]. rewrite upd1_ne by done. split; [rewrite P1; cbn [length]; lia|exact P6].
Qed.

(** The base and the limit a segment descriptor gives the processor. *)
Definition seg_base (d : segdesc) : Z := base_31_24 d * 16777216 + base_23_16 d * 65536 + base_15_0 d.
Definition seg_limit (d : segdesc) : Z := lim_19_16 d * 65536 + lim_15_0 d.

(** [seginit]: all four segments are the whole address space, those with the
    user's selectors at the user's level. *)
Lemma seginit_flat gdt i : 1 <= i <= 4 -> let d := (seginit gdt).[i] in
  seg_base d = 0 /\ seg_limit d = 1048575 /\ sg_g d = 1 /\ sg_p d = 1 /\ sg_dpl d = (if i <=? 2 then 0 else DPL_USER) /\
  sg_type d = (if (i =? SEG_KCODE) || (i =? SEG_UCODE) then 10 else 2).
Proof.
  intros Hi. assert (i = 1 \/ i = 2 \/ i = 3 \/ i = 4) as [ -> | [ -> | [ -> | -> ]]] by lia; unfold seginit; cbv zeta;
    rewrite ?asel_insert_eq, ?asel_insert_ne, ?asel_insert_eq by done; rewrite ?asel_insert_ne, ?asel_insert_eq by done; by vm_compute.
Qed.

(** ** Switching contexts *)

(** The words [swtch] leaves on the stack of the thread it stops: the
    callee-saved registers and the return address, [struct context]. *)
Definition context_of (s : x86) : list Z := [gpr s EDI; gpr s ESI; gpr s EBX; gpr s EBP; top s].

Lemma gpr_push v s r : r <> ESP -> gpr (push v s) r = gpr s r.
Proof. intros H. unfold push. cbn [gpr set_ram set_reg]. by apply upd1_ne. Qed.

Lemma exec_save u : exec [Pushl EBP; Pushl EBX; Pushl ESI; Pushl EDI] u = push_all [gpr u EBP; gpr u EBX; gpr u ESI; gpr u EDI] u.
Proof. unfold exec, push_all. cbn [foldl exec1]. by rewrite !gpr_push by done. Qed.

Lemma exec_pop r a s : gpr s ESP = a -> 0 <= a < 4294967292 -> exec1 s (Popl r) = set_reg r (load32 (ram s) a) (set_reg ESP (a + 4) s).
Proof. intros <- Ha. cbn [exec1]. unfold top, drop_words. by rewrite u32_small by lia. Qed.

(** What is popped from the context at [a]. *)
Record resumed (a : Z) (t f : x86) : Prop := {
  rs_edi : gpr f EDI = load32 (ram t) a;
  rs_esi : gpr f ESI = load32 (ram t) (a + 4);
  rs_ebx : gpr f EBX = load32 (ram t) (a + 8);
  rs_ebp : gpr f EBP = load32 (ram t) (a + 12);
  rs_eip : eip f = load32 (ram t) (a + 16);
  rs_esp : gpr f ESP = u32 (a + 20);
  rs_sel : sel f = sel t;
  rs_eflags : eflags f = eflags t;
  rs_ram : ram f = ram t
}.

Lemma restore_spec a t : gpr t ESP = a -> 0 <= a -> a + 20 <= 4294967296 ->
  resumed a t (ret_ (exec [Popl EDI; Popl ESI; Popl EBX; Popl EBP] t)).
Proof.
  intros E0 Ha Ha'. unfold exec. cbn [foldl]. rewrite (exec_pop EDI a) by (done || lia). set (t1 := set_reg EDI _ _).
  assert (gpr t1 ESP = a + 4) as E1 by reflexivity. rewrite (exec_pop ESI (a + 4)) by (done || lia). set (t2 := set_reg ESI _ _).
  assert (gpr t2 ESP = a + 8) as E2 by (change (gpr t2 ESP) with (a + 4 + 4); lia).
  rewrite (exec_pop EBX (a + 8)) by (done || lia). set (t3 := set_reg EBX _ _).
  assert (gpr t3 ESP = a + 12) as E3 by (change (gpr t3 ESP) with (a + 8 + 4); lia).
  rewrite (exec_pop EBP (a + 12)) by (done || lia). set (t4 := set_reg EBP _ _).
  assert (gpr t4 ESP = a + 16) as E4 by (change (gpr t4 ESP) with (a + 12 + 4); lia).
  split; try reflexivity.
  - change (top t4 = load32 (ram t) (a + 16)). unfold top. by rewrite E4.
  - change (u32 (gpr t4 ESP + 4) = u32 (a + 20)). rewrite E4. f_equal. lia.
Qed.

(** A call of [swtch]: the slot [*old], the stack and the new context do not
    overlap. *)
Record swtch_call (s : x86) (old new : Z) : Prop := {
  sc_old : word_at s 1 = old;
  sc_new : word_at s 2 = new;
  sc_regs : regs_ok s;
  sc_esp : 16 <= gpr s ESP /\ gpr s ESP + 12 <= 4294967296;
  sc_ctx : 0 <= new /\ new + 20 <= 4294967296;
  sc_stack : new + 20 <= gpr s ESP - 16 \/ gpr s ESP <= new;
  sc_slot : old + 4 <= gpr s ESP - 16 \/ gpr s ESP + 4 <= old;
  sc_slot_ctx : old + 4 <= new \/ new + 20 <= old
}.

(** Before the pops. *)
Record stopped (old new : Z) (s t : x86) : Prop := {
  st_esp : gpr t ESP = new;
  st_sel : sel t = sel s;
  st_eflags : eflags t = eflags s;
  st_slot : load32 (ram t) old = gpr s ESP - 16;
  st_ctx : words_at (ram t) (gpr s ESP - 16) (context_of s);
  st_ram : forall b, b < gpr s ESP - 16 \/ gpr s ESP <= b -> b < old \/ old + 4 <= b -> load8 (ram t) b = load8 (ram s) b
}.

Definition swtch_save : list instr :=
  [Movl_load 4 ESP EAX; Movl_load 8 ESP EDX; Pushl EBP; Pushl EBX; Pushl ESI; Pushl EDI; Movl_store ESP EAX; Movl EDX ESP].

Lemma load_args s old new : word_at s 1 = old -> word_at s 2 = new ->
  exec [Movl_load 4 ESP EAX; Movl_load 8 ESP EDX] s = set_reg EDX new (set_reg EAX old s).
Proof. intros <- <-. reflexivity. Qed.

(** The last two instructions, after the registers have been pushed. *)
Lemma swtch_store u p old new sp ws : pushed ws u p -> gpr u ESP = sp -> gpr u EAX = old -> gpr u EDX = new ->
  let t := exec [Movl_store ESP EAX; Movl EDX ESP] p in
  gpr t ESP = new /\ sel t = sel u /\ eflags t = eflags u /\ ram t = store32 (ram p) old (sp - 4 * Z.of_nat (length ws)).
Proof.
  intros [P1 P2 P3 P4 P5 _ _] H1 H2 H3. cbv zeta. unfold exec. cbn [foldl exec1 gpr sel eflags ram set_reg set_ram].
  rewrite upd1_eq, P1, P3, P5, !P2, H1, H2, H3 by done. done.
Qed.

Lemma save_spec s old new : swtch_call s old new -> stopped old new s (exec swtch_save s).
Proof.
  intros [Ho Hn Hr [He1 He2] Hc Hst Hsl Hsc].
  change swtch_save with ([Movl_load 4 ESP EAX; Movl_load 8 ESP EDX] ++ [Pushl EBP; Pushl EBX; Pushl ESI; Pushl EDI] ++
    [Movl_store ESP EAX; Movl EDX ESP]).
  rewrite !exec_app, (load_args s old new Ho Hn), exec_save. set (u := set_reg EDX new (set_reg EAX old s)).
  change (gpr u EBP) with (gpr s EBP). change (gpr u EBX) with (gpr s EBX). change (gpr u ESI) with (gpr s ESI). change (gpr u EDI) with (gpr s EDI).
  set (ws := [gpr s EBP; gpr s EBX; gpr s ESI; gpr s EDI]).
  assert (pushed ws u (push_all ws u)) as Hp.
  { apply push_all_spec; [repeat constructor; apply Hr|]. change (gpr u ESP) with (gpr s ESP). cbn [length ws]. lia. }
  destruct (swtch_store u _ old new (gpr s ESP) ws Hp eq_refl eq_refl eq_refl) as (T1 & T2 & T3 & T4).
  destruct Hp as [P1 _ _ _ _ P6 P7]. change (gpr u ESP) with (gpr s ESP) in *. change (ram u) with (ram s) in *.
  set (t := exec _ (push_all ws u)) in *. change (4 * Z.of_nat (length ws)) with 16 in *. rewrite P1 in P6, P7.
  split; [exact T1|exact T2|exact T3| | |].
  - rewrite T4, load32_store32_eq. apply u32_small. lia.
  - change (context_of s) with (reverse ws ++ [top s]). apply words_at_app. rewrite T4. split.
    + eapply words_at_ext; [|exact P6]. intros b Hb. change (Z.of_nat (length (reverse ws))) with 4 in Hb. apply load8_store32_ne. lia.
    + change (Z.of_nat (length (reverse ws))) with 4. apply words_at_cons. split; [|apply words_at_nil].
      replace (gpr s ESP - 16 + 4 * 4) with (gpr s ESP) by lia. apply load32_ext. intros b Hb.
      rewrite load8_store32_ne by lia. apply P7. lia.
  - intros b H1 H2. rewrite T4, load8_store32_ne by lia. by apply P7.
Qed.

Lemma swtch_spec s old new : swtch_call s old new -> exists t, stopped old new s t /\ resumed new t (do_swtch s) /\
  (forall o, 0 <= o <= 16 -> load32 (ram t) (new + o) = load32 (ram s) (new + o)).
Proof.
  intros H. exists (exec swtch_save s). pose proof (save_spec s old new H) as Hs. destruct H as [_ _ _ [He1 He2] [Hc1 Hc2] Hst Hsl Hsc].
  split; [exact Hs|]. destruct Hs as [S1 _ _ _ _ S6]. split.
  - change (do_swtch s) with (ret_ (exec [Popl EDI; Popl ESI; Popl EBX; Popl EBP] (exec swtch_save s))). by apply restore_spec.
  - intros o Ho. apply load32_ext. intros b Hb. apply S6; lia.
Qed.

(** The registers the C compiler expects a call to keep. *)
Definition callee_saved (r : reg) : bool := match r with EBX | ESI | EDI | EBP => true | _ => false end.

(** A context found in memory is the thread's. *)
Lemma resumed_context a t f s : resumed a t f -> words_at (ram t) a (context_of s) -> a + 20 = gpr s ESP + 4 -> is_word (gpr s ESP + 4) ->
  eip f = top s /\ gpr f ESP = gpr s ESP + 4 /\ forall r, callee_saved r = true -> gpr f r = gpr s r.
Proof.
  intros [R1 R2 R3 R4 R5 R6 _ _ _] Hw Ha Hs.
  assert (forall k w o, context_of s !! k = Some w -> o = 4 * Z.of_nat k -> load32 (ram t) (a + o) = w) as W by (intros k w o Hk ->; by apply Hw).
  rewrite R5, R6, Ha. split; [by apply (W 4%nat)|]. split; [by apply u32_small|].
  intros [] Hr; try discriminate; [rewrite R3; by apply (W 2%nat)|rewrite R4; by apply (W 3%nat)|rewrite R2; by apply (W 1%nat)|].
  rewrite R1. replace a with (a + 0) by lia. by apply (W 0%nat).
Qed.

(** C25: [swtch(old, new)] stores in [*old] the address of the stopped thread's
    context, and continues the thread whose context is at [new], with the
    registers and at the address saved there.  When some thread later calls
    [swtch] with the context left in [*old], and the stopped thread's stack has
    been left alone, the stopped thread resumes as if its own call had returned:
    at its return address, with its stack pointer and callee-saved registers. *)
Theorem swtch_resumes s old new : swtch_call s old new -> let f := do_swtch s in
  (gpr f EDI = load32 (ram s) new /\ gpr f ESI = load32 (ram s) (new + 4) /\ gpr f EBX = load32 (ram s) (new + 8) /\
   gpr f EBP = load32 (ram s) (new + 12) /\ eip f = load32 (ram s) (new + CTX_EIP) /\ gpr f ESP = u32 (new + CTX_SIZE) /\
   sel f = sel s /\ eflags f = eflags s) /\
  forall t old', swtch_call t old' (load32 (ram f) old) ->
    (forall b, gpr s ESP - 16 <= b < gpr s ESP + 4 -> load8 (ram t) b = load8 (ram f) b) ->
    let r := do_swtch t in
    eip r = top s /\ gpr r ESP = gpr s ESP + 4 /\ forall g, callee_saved g = true -> gpr r g = gpr s g.
Proof.
  intros H. destruct (swtch_spec s old new H) as (t & [S1 S2 S3 S4 S5 _] & [R1 R2 R3 R4 R5 R6 R7 R8 R9] & Hm). cbv zeta.
  set (f := do_swtch s) in *. split.
  - pose proof (Hm 0 ltac:(lia)) as Hm0. rewrite Z.add_0_r in Hm0.
    rewrite R1, R2, R3, R4, R5, R6, R7, R8, <- Hm0, <- !Hm by (unfold CTX_EIP; lia). done.
  - intros t' old' H' Hkeep. destruct (swtch_spec t' old' _ H') as (u & _ & Hu & Hm'). rewrite R9 in *. rewrite S4 in *.
    destruct H as [_ _ _ [He1 He2] _ _ _ _]. eapply resumed_context; [exact Hu| |lia|unfold is_word; lia].
    intros k w Hk. rewrite <- (S5 k w Hk). pose proof (lookup_lt_Some _ _ _ Hk) as Hl. cbn [length context_of] in Hl.
    rewrite Hm' by lia. apply load32_ext. intros b Hb. apply Hkeep. lia.
Qed.

(** A call of [swtch] as C code makes it: the arguments and the return address
    are pushed. *)
Lemma swtch_called u old new ra : regs_ok u -> is_word old -> is_word ra -> 0 <= new /\ new + 20 <= 4294967296 ->
  28 <= gpr u ESP -> new + 20 <= gpr u ESP - 28 \/ gpr u ESP <= new -> old + 4 <= gpr u ESP - 28 \/ gpr u ESP <= old ->
  old + 4 <= new \/ new + 20 <= old ->
  let s := push_all [new; old; ra] u in
  swtch_call s old new /\ pushed [new; old; ra] u s /\ top s = ra.
Proof.
  intros Hr Ho Hra Hn He H1 H2 H3. cbv zeta. unfold is_word in *. pose proof (ro_gpr _ Hr ESP) as Hesp. unfold is_word in Hesp.
  assert (pushed [new; old; ra] u (push_all [new; old; ra] u)) as Hp.
  { apply push_all_spec; [repeat constructor; unfold is_word; lia|cbn [length]; lia]. }
  set (s := push_all _ u) in *. destruct (Hp) as [P1 P2 P3 P4 P5 P6 P7]. cbn [length] in P1.
  change (reverse [new; old; ra]) with [ra; old; new] in P6. apply words_at_cons in P6 as [W1 W2]. apply words_at_cons in W2 as [W2 W3].
  apply words_at_cons in W3 as [W3 _].
  split; [|split; [exact Hp|exact W1]]. split; rewrite ?P1; try lia.
  - unfold word_at. rewrite u32_small by lia. exact W2.
  - unfold word_at. rewrite u32_small by lia. rewrite <- W3. f_equal. lia.
  - split; [|rewrite P3; apply Hr|rewrite P4; apply Hr|rewrite P5; apply Hr].
    intros r. destruct (decide (r = ESP)) as [->|Hne]; [rewrite P1; unfold is_word; lia|rewrite P2 by done; apply Hr].
Qed.

(** A thread that calls [swtch(20000, 30000)], and one that later calls
    [swtch(40000, *20000)]. *)
Definition regs_a : x86 :=
  mkx86 (fun r => match r with ESP => 8204 | EDI => 1 | ESI => 2 | EBX => 3 | EBP => 4 | _ => 0 end) (fun _ => 16) 0 0 ∅.
Definition thread_a : x86 := push_all [30000; 20000; 77] regs_a.
Definition regs_b (m : memory) : x86 := mkx86 (fun r => match r with ESP => 50012 | _ => 0 end) (fun _ => 16) 0 0 m.
Definition thread_b : x86 := push_all [8176; 40000; 88] (regs_b (ram (do_swtch thread_a))).

Lemma regs_b_ok m : regs_ok (regs_b m) /\ gpr (regs_b m) ESP = 50012 /\ ram (regs_b m) = m.
Proof. split; [split; [intros []; by split|intros ?; by split|by split..]|done]. Qed.

Lemma swtch_resumes_witness : eip (do_swtch thread_b) = 77 /\ gpr (do_swtch thread_b) ESP = 8196 /\ gpr (do_swtch thread_b) EBX = 3.
Proof.
  assert (regs_ok regs_a) as Ra by (split; [intros []; by split|intros ?; by split|by split..]).
  assert (gpr regs_a ESP = 8204) as Ea by reflexivity.
  destruct (regs_b_ok (ram (do_swtch thread_a))) as (Rb & Eb & Mb).
  destruct (swtch_called regs_a 20000 30000 77 Ra ltac:(by split) ltac:(by split) ltac:(lia) ltac:(lia) ltac:(lia) ltac:(lia) ltac:(lia))
    as (Ca & Pa & Ta). fold thread_a in Ca, Pa, Ta.
  destruct (swtch_called _ 40000 8176 88 Rb ltac:(by split) ltac:(by split) ltac:(lia) ltac:(lia) ltac:(lia) ltac:(lia) ltac:(lia))
    as (Cb & Pb & _). fold thread_b in Cb, Pb.
  assert (gpr thread_a ESP = 8192) as Es by (rewrite (pd_esp _ _ _ Pa), Ea; reflexivity).
  assert (load32 (ram (do_swtch thread_a)) 20000 = 8176) as E.
  { destruct (swtch_spec _ _ _ Ca) as (t & St & Rt & _). rewrite (rs_ram _ _ _ Rt), (st_slot _ _ _ _ St), Es. reflexivity. }
  destruct (swtch_resumes thread_a 20000 30000 Ca) as [_ Hr]. rewrite E, Es in Hr. destruct (Hr thread_b 40000 Cb) as (H1 & H2 & H3).
  - intros b Hb. rewrite (pd_ram _ _ _ Pb), Mb; [reflexivity|]. left. rewrite (pd_esp _ _ _ Pb), Eb. change (b < 50000). lia.
  - rewrite (H3 EBX eq_refl), (pd_gpr _ _ _ Pa) by discriminate. rewrite H1, Ta. split; [reflexivity|]. split; [exact H2|reflexivity].
Defined.
