(* ===== verification/NewProc.v ===== *)
(** * The first switch to a process ([allocproc] and [forkret] of [proc.c],
    [swtch.S], [trapasm.S])

    [allocproc] prepares a kernel stack that [swtch] can switch to; the process
    then runs [forkret], [trapret] and the program, with the registers of its
    trap frame. *)

From stdpp Require Import base tactics numbers gmap strings list.
From Stdlib Require Import ZArith Lia.
From S2P Require Import Prelude Mmu Memory Spinlock Kalloc Vm Shm Sample ShmTheorems Cache Bio Log Store Fs FsTheorems Pipe File FileTheorems Proc ProcSteps Trap Asm AsmTheorems.

(** ** The rest of [proc.c] and the kernel's page directory *)

Section Rest.
Context {L : Layout} {S : Type} `{TxStore S}.

(** [switchkvm] and [kvmalloc] of [vm.c]; the result is the new [kpgdir]. *)
Definition switchkvm (kpgdir : Z) : M (os S) unit := modify (set_cr3 (V2P kpgdir)).

Definition kvmalloc : M (os S) Z :=
  let* kpgdir := zoom mem_lens setupkvm in
  switchkvm kpgdir ;;;
  ret kpgdir.

Definition state_name (st : procstate) : string :=
  match st with
  | UNUSED => "unused"
  | EMBRYO => "embryo"
  | SLEEPING => "sleep "
  | RUNNABLE => "runble"
  | RUNNING => "run   "
  | ZOMBIE => "zombie"
  end.

(** The addresses before the first null one. *)
Fixpoint nonzero (l : list Z) : list Z :=
  match l with
  | [] => []
  | x :: l => if x =? 0 then [] else x :: nonzero l
  end.

Definition CTX_EBP : Z := 12.

Definition dump_proc (i : Z) : M (os S) unit :=
  let* x := get_proc i in
  if is_state UNUSED x then ret tt else
  zoom mem_lens (cprintf "%d %s %s" [CInt (p_pid x); CStr (state_name (p_state x)); CStr (cstring (p_name x))]) ;;;
  when (is_state SLEEPING x) (
    let* ebp := zoom mem_lens (rd32 (p_context x + CTX_EBP)) in
    let* m := gets (fun s => mem (lget mem_lens s)) in
    fold_left (fun c pc => c ;;; zoom mem_lens (cprintf " %p" [CInt pc])) (nonzero (Spin.getcallerpcs m (u32 (ebp + 8)))) (ret tt)) ;;;
  zoom mem_lens (cprintf "\n" []).

Definition procdump : M (os S) unit := for_up 0 NPROC dump_proc.

(** What the listing says of one entry. *)
Definition dump_lines (m : memory) (x : proc) : list (string * list carg) :=
  if is_state UNUSED x then [] else
  ("%d %s %s", [CInt (p_pid x); CStr (state_name (p_state x)); CStr (cstring (p_name x))]) ::
  (if is_state SLEEPING x then (fun pc => (" %p", [CInt pc])) <$> nonzero (Spin.getcallerpcs m (u32 (load32 m (p_context x + CTX_EBP) + 8))) else []) ++
  [("\n", [])].

(** [s] with more output. *)
Definition printed (o : list (string * list carg)) (s : os S) : os S :=
  let k := lget mem_lens s in lset mem_lens (set_out (out k ++ o) k) s.

Lemma printed_nil s : printed [] s = s.
Proof. unfold printed. cbn. rewrite app_nil_r. by destruct s as [? ? ? ? ? ? [? ? ? [] ? ?] ? ?]. Qed.

Lemma printed_app o o' s : printed o' (printed o s) = printed (o ++ o') s.
Proof. unfold printed. cbn. unfold set_out. cbn. by rewrite app_assoc. Qed.

Lemma print_pcs l : forall c s s', c s = Ret tt s' ->
  fold_left (fun c pc => c ;;; zoom mem_lens (cprintf " %p" [CInt pc])) l c s = Ret tt (printed ((fun pc => (" %p", [CInt pc])) <$> l) s').
Proof.
  induction l as [|x l IH]; intros c s s' Hc; cbn [fold_left fmap list_fmap].
  - by rewrite Hc, printed_nil.
  - rewrite (IH _ s (printed [(" %p", [CInt x])] s')); [by rewrite printed_app|]. unfold bind. by rewrite Hc.
Qed.

Lemma mem_lset_lget (s : os S) : lset mem_lens (lget mem_lens s) s = s.
Proof. by destruct s as [? ? ? ? ? ? [] ? ?]. Qed.

Lemma print_eq fmt args (s : os S) : zoom mem_lens (cprintf fmt args) s = Ret tt (printed [(fmt, args)] s).
Proof. reflexivity. Qed.

Lemma dump_proc_eq i s : 0 <= i < NPROC -> dump_proc i s = Ret tt (printed (dump_lines (mem (lget mem_lens s)) (procs s).[i]) s).
Proof.
  intros Hi. assert (get_proc i s = Ret (procs s).[i] s) as Eg.
  { unfold get_proc, aget. by rewrite (proj2 (Z.leb_le 0 i)), (proj2 (Z.ltb_lt i NPROC)) by lia. }
  unfold dump_proc. eapply bind_step; [exact Eg|]. set (x := (procs s).[i]). unfold dump_lines.
  destruct (is_state UNUSED x); [by rewrite printed_nil|]. eapply bind_step; [apply print_eq|].
  destruct (is_state SLEEPING x); cbn [when].
  - eapply bind_step; [eapply bind_step; [reflexivity|]; eapply bind_step; [reflexivity|]; by apply print_pcs|].
    rewrite mem_lset_lget, print_eq, !printed_app. reflexivity.
  - eapply bind_step; [reflexivity|]. by rewrite print_eq, printed_app.
Qed.

Lemma printed_keeps o s : procs (printed o s) = procs s /\ mem (lget mem_lens (printed o s)) = mem (lget mem_lens s).
Proof. split; reflexivity. Qed.

(** [procdump] prints the lines of each entry in use, in order, and changes
    nothing else. *)
Lemma procdump_prints s : procdump s = Ret tt (printed (concat ((fun i => dump_lines (mem (lget mem_lens s)) (procs s).[i]) <$> seqZ 0 NPROC)) s).
Proof.
  unfold procdump, for_up, seqZ. rewrite Z.sub_0_r. assert (forall n i t, 0 <= i -> i + Z.of_nat n <= NPROC ->
    forn n i dump_proc t = Ret tt (printed (concat ((fun i => dump_lines (mem (lget mem_lens t)) (procs t).[i]) <$> seqZ i (Z.of_nat n))) t)) as Hl.
  { induction n as [|n IH]; intros i t H1 H2; cbn [forn]; [by rewrite printed_nil|].
    eapply bind_step; [apply dump_proc_eq; lia|]. rewrite IH by lia. destruct (printed_keeps (dump_lines (mem (lget mem_lens t)) (procs t).[i]) t) as [-> ->].
    rewrite printed_app, (seqZ_cons i (Z.of_nat (Datatypes.S n))) by lia. cbn [fmap list_fmap concat].
    by replace (Z.pred (Z.of_nat (Datatypes.S n))) with (Z.of_nat n) by lia. }
  by rewrite (Hl (Z.to_nat NPROC) 0 s).
Qed.

End Rest.

Section Forkret.
Context {L : Layout} {C : Type} `{BufCache C}.

Definition disk_lens : lens (fsst (lst C)) (lst C) :=
  mklens disk (fun d s => mkfs (sb s) (iclock s) (inodes s) d (mypid s) (cwd s)).

(** [first] is the static variable; the result is its new value. *)
Definition forkret (first : bool) : M (os (lst C)) bool :=
  pt_release ;;;
  if first then
    zoom fs_lens (iinit (fun dev => zoom disk_lens (readsb dev)) ROOTDEV) ;;;
    zoom fs_lens (zoom disk_lens (initlog ROOTDEV)) ;;;
    ret false
  else ret false.

End Forkret.

(** ** The stack of a new process *)

Lemma load32_zero m a : (forall b, a <= b < a + 4 -> load8 m b = 0) -> load32 m a = 0.
Proof. intros Hz. unfold load32. by rewrite !Hz by lia. Qed.

Lemma load32_shift m m' a b : (forall j, 0 <= j < 4 -> load8 m' (a + j) = load8 m (b + j)) -> load32 m' a = load32 m b.
Proof. intros Hj. pose proof (Hj 0 ltac:(lia)) as H0. rewrite !Z.add_0_r in H0. unfold load32. by rewrite H0, !Hj by lia. Qed.

Section Allocproc.
Context {L : Layout} {S : Type} `{TxStore S}.
Context (trapret_a forkret_a : Z).

(** The words [allocproc] leaves below the trap frame. *)
Definition new_context : list Z := [0; 0; 0; 0; forkret_a; trapret_a].

Definition new_stack (sp : Z) (m : memory) : memory :=
  store32 (StringC.memset (store32 m (sp + 20) trapret_a) sp 0 20) (sp + 16) forkret_a.

Lemma new_stack_words sp m : is_word trapret_a -> is_word forkret_a ->
  words_at (new_stack sp m) sp new_context /\ same_outside sp (sp + 24) m (new_stack sp m).
Proof.
  intros Ht Hf. unfold new_stack. set (m1 := store32 m _ _).
  assert (forall a, sp <= a < sp + 20 -> load8 (StringC.memset m1 sp 0 20) a = 0) as Hz.
  { intros a Ha. rewrite StringC.memset_spec by lia. by rewrite decide_True. }
  assert (forall a, ~ (sp <= a < sp + 20) -> load8 (StringC.memset m1 sp 0 20) a = load8 m1 a) as Ho.
  { intros a Ha. rewrite StringC.memset_spec by lia. by rewrite decide_False. }
  set (m2 := StringC.memset m1 sp 0 20) in *. split.
  - assert (forall o, 0 <= o <= 12 -> load32 (store32 m2 (sp + 16) forkret_a) (sp + o) = 0) as H0.
    { intros o Hr. rewrite load32_store32_ne by lia. apply load32_zero. intros b Hb. apply Hz. lia. }
    intros k w Hk. do 4 (destruct k as [|k]; [injection Hk as <-; apply H0; lia|]).
    destruct k as [|k]; [injection Hk as <-; rewrite load32_store32_eq; by apply u32_small|].
    destruct k as [|k]; [injection Hk as <-|done]. change (4 * Z.of_nat 5) with 20. rewrite load32_store32_ne by lia.
    transitivity (load32 m1 (sp + 20)); [apply load32_ext; intros b Hb; apply Ho; lia|].
    unfold m1. rewrite load32_store32_eq. by apply u32_small.
  - intros a Ha. rewrite load8_store32_ne, Ho by lia. unfold m1. apply load8_store32_ne. lia.
Qed.

(** What [allocproc] makes of the entry [i] and of the page [k]. *)
Record new_proc (i k : Z) (l : list Z) (s s' : os S) : Prop := {
  np_tab : 0 <= i < NPROC /\ p_state (procs s).[i] = UNUSED;
  np_state : p_state (procs s').[i] = EMBRYO;
  np_pid : p_pid (procs s').[i] = nextpid s;
  np_kstack : p_kstack (procs s').[i] = k;
  np_tf : p_tf (procs s').[i] = k + KSTACKSIZE - TF_SIZE;
  np_context : p_context (procs s').[i] = k + KSTACKSIZE - TF_SIZE - 24;
  np_others : forall j, j <> i -> (procs s').[j] = (procs s).[j];
  np_words : words_at (mem (lget mem_lens s')) (p_context (procs s').[i]) new_context;
  np_mem : same_outside k (k + PGSIZE) (mem (lget mem_lens s)) (mem (lget mem_lens s'));
  np_kmem : kmem_inv (lget mem_lens s') l;
  np_unlocked : plock s' = false
}.

(** The end of [allocproc], with the page [k] for the stack. *)
Definition build_stack (i k : Z) : M (os S) (option Z) :=
  let sp := k + KSTACKSIZE - TF_SIZE in
  let tf := sp in
  let sp := sp - 4 in
  zoom mem_lens (wr32 sp trapret_a) ;;;
  let sp := sp - CTX_SIZE in
  upd_proc i (with_frames tf sp) ;;;
  zoom mem_lens (kmemset sp 0 CTX_SIZE) ;;;
  zoom mem_lens (wr32 (sp + CTX_EIP) forkret_a) ;;;
  ret (Some i).

Lemma build_stack_spec i k (t : os S) : 0 <= i < NPROC -> let sp := k + KSTACKSIZE - TF_SIZE - 24 in
  wp (build_stack i k) (fun r s' => r = Some i /\
    procs s' = <[i := with_frames (sp + 24) sp (procs t).[i]]> (procs t) /\
    lget mem_lens s' = set_mem (new_stack sp (mem (lget mem_lens t))) (lget mem_lens t) /\
    plock s' = plock t) t.
Proof.
  intros Hi sp. unfold build_stack. cbv zeta. apply wp_bind, wp_zoom, wp_modify. apply wp_bind, wp_upd_proc; [done|].
  do 2 apply wp_bind, wp_zoom, wp_modify. apply wp_ret. unfold sp, new_stack, CTX_SIZE, CTX_EIP.
  replace (k + KSTACKSIZE - TF_SIZE - 24 + 24) with (k + KSTACKSIZE - TF_SIZE) by lia.
  replace (k + KSTACKSIZE - TF_SIZE - 24 + 20) with (k + KSTACKSIZE - TF_SIZE - 4) by lia.
  replace (k + KSTACKSIZE - TF_SIZE - 4 - 20) with (k + KSTACKSIZE - TF_SIZE - 24) by lia. done.
Qed.

(** The entry before the stack is built. *)
Definition embryo (k pid : Z) (x : proc) : proc := with_kstack k (with_pid pid (with_state EMBRYO x)).

Lemma new_proc_intro i k l' (s t u : os S) : 0 <= i < NPROC -> p_state (procs s).[i] = UNUSED -> page_ok k -> k ∉ l' ->
  is_word trapret_a -> is_word forkret_a ->
  (procs t).[i] = embryo k (nextpid s) (procs s).[i] -> (forall j, j <> i -> (procs t).[j] = (procs s).[j]) ->
  mem (lget mem_lens t) = mem (lget mem_lens s) -> kmem_inv (lget mem_lens t) l' -> plock u = false ->
  let sp := k + KSTACKSIZE - TF_SIZE - 24 in
  procs u = <[i := with_frames (sp + 24) sp (procs t).[i]]> (procs t) ->
  lget mem_lens u = set_mem (new_stack sp (mem (lget mem_lens t))) (lget mem_lens t) -> new_proc i k l' s u.
Proof.
  intros Hi Hu Hp Hni Ht Hf Ei Ej Em Hk Hl sp Ep Eu.
  assert ((procs u).[i] = with_frames (sp + 24) sp (embryo k (nextpid s) (procs s).[i])) as Eui by (by rewrite Ep, asel_insert_eq, Ei).
  destruct (new_stack_words sp (mem (lget mem_lens t)) Ht Hf) as [Hw Ho].
  assert (same_outside k (k + PGSIZE) (mem (lget mem_lens t)) (mem (lget mem_lens u))) as Hs.
  { rewrite Eu. intros a Ha. apply Ho. unfold sp, KSTACKSIZE, TF_SIZE, PGSIZE in *. lia. }
  split; rewrite ?Eui; try done; try (unfold sp; cbn; lia).
  - intros j Hj. rewrite Ep, asel_insert_ne by done. by apply Ej.
  - rewrite Eu. exact Hw.
  - by rewrite <- Em.
  - eapply kmem_inv_frame; [exact Hp|exact Hni|exact Hs| | |exact Hk]; by rewrite Eu.
Qed.

Lemma allocproc_spec s l : plock s = false -> kmem_inv (lget mem_lens s) l -> is_word trapret_a -> is_word forkret_a ->
  wp (allocproc trapret_a forkret_a) (fun r s' =>
    match r with
    | None => (forall j, 0 <= j < NPROC -> p_state (procs s).[j] <> UNUSED) \/ l = []
    | Some i => exists k l', l = k :: l' /\ page_ok k /\ new_proc i k l' s s'
    end) s.
Proof.
  intros Hl Hk Ht Hf. unfold allocproc. apply wp_bind, wp_pt_acquire; [done|]. apply wp_bind, wp_gets.
  change (procs (got s)) with (procs s).
  destruct (find_proc (fun i => is_state UNUSED (procs s).[i])) as [i|] eqn:Efind.
  2: { apply wp_bind, wp_pt_release; [done..|]. apply wp_ret. left. intros j Hj Hs.
       pose proof (find_proc_none _ Efind j Hj) as Hn. cbn in Hn. unfold is_state in Hn. by rewrite Hs, bool_decide_true in Hn. }
  apply find_proc_some in Efind as (Hi & Hu & _). unfold is_state in Hu. apply bool_decide_eq_true in Hu.
  apply wp_bind, wp_upd_proc; [done|]. apply wp_bind, wp_gets. apply wp_bind, wp_upd_proc; [done|]. apply wp_bind, wp_modify.
  apply wp_bind, wp_pt_release; [done..|]. apply wp_bind, wp_zoom. eapply (wp_kalloc _ l); [exact Hk| |].
  - intros ->. apply wp_bind, wp_upd_proc; [done|]. cbn [Z.eqb]. apply wp_bind, wp_upd_proc; [done|]. apply wp_ret. by right.
  - intros k l' s' -> Hp Hni Hk' Es'. apply wp_bind, wp_upd_proc; [done|].
    assert ((k =? 0) = false) as -> by (apply Z.eqb_neq; destruct Hp as (_ & Hp & _); pose proof layout_data; unfold KERNLINK, KERNBASE, EXTMEM in *; lia).
    set (t := set_procs _ _). eapply wp_mono; [|exact (build_stack_spec i k t Hi)]. intros r u (-> & Ep & Em & El).
    exists k, l'. split; [done|]. split; [done|]. assert (mem s' = mem (lget mem_lens s)) as Ems by (by rewrite Es').
    eapply (new_proc_intro i k l' s t u); try done.
    + unfold t, upd. cbn [procs set_procs lset mem_lens set_fl set_plock set_cpu got gone set_nextpid nextpid]. by rewrite !asel_insert_eq.
    + intros j Hj. unfold t, upd. cbn [procs set_procs lset mem_lens set_fl set_plock set_cpu got gone set_nextpid nextpid]. by rewrite !asel_insert_ne.
Qed.

(** ** Its first run *)

(** [*np->tf = *curproc->tf; np->tf->eax = 0;] in [fork] *)
Definition child_frame (tf ptf : Z) (m : memory) : memory := store32 (StringC.memmove m tf ptf TF_SIZE) (tf + TF_EAX) 0.

Lemma child_frame_words tf ptf m n err oesp u : cpl u = 3 -> words_at m ptf (frame n err oesp u) ->
  words_at (child_frame tf ptf m) tf (frame n err oesp (set_reg EAX 0 u)) /\ same_outside tf (tf + TF_SIZE) m (child_frame tf ptf m).
Proof.
  intros Hc Hw. unfold child_frame. set (m1 := StringC.memmove m tf ptf TF_SIZE).
  assert (length (frame n err oesp u) = 19%nat) as Hl by (unfold frame, hw_frame; rewrite Hc; reflexivity).
  assert (forall a, load8 m1 a = if decide (tf <= a < tf + 76) then load8 m (a - tf + ptf) else load8 m a) as Hm.
  { intros a. apply StringC.memmove_spec. done. }
  split.
  - rewrite frame_set_eax. apply words_at_set with m1; [lia| |by rewrite load32_store32_eq|].
    + intros k w Hk. rewrite <- (Hw k w Hk). pose proof (lookup_lt_Some _ _ _ Hk). apply load32_shift.
      intros j Hj. rewrite Hm, decide_True by lia. f_equal. lia.
    + intros b Hb Hb'. apply load8_store32_ne. change TF_EAX with 28. lia.
  - intros a Ha. change TF_SIZE with 76 in Ha. rewrite load8_store32_ne by (unfold TF_EAX; lia). rewrite Hm. by rewrite decide_False by lia.
Qed.

(** A CPU in the kernel's scheduler that switches to the context at [ctx]; its
    stack and the slot for its own context are not in the 100 bytes there. *)
Record switches_to (c : x86) (old ctx : Z) : Prop := {
  sw_call : swtch_call c old ctx;
  sw_cpl : cpl c = 0;
  sw_room : ctx + 100 <= 4294967296;
  sw_stack : ctx + 100 <= gpr c ESP - 16 \/ gpr c ESP <= ctx;
  sw_slot : old + 4 <= ctx \/ ctx + 100 <= old
}.

Lemma switched_ram c old ctx : switches_to c old ctx -> forall b, ctx <= b < ctx + 100 -> load8 (ram (do_swtch c)) b = load8 (ram c) b.
Proof.
  intros [Hc _ _ H1 H2] b Hb. destruct (swtch_spec c old ctx Hc) as (t & St & Rt & _).
  rewrite (rs_ram _ _ _ Rt). apply (st_ram _ _ _ _ St); lia.
Qed.

(** The first switch to a stack with the words of [allocproc] and a frame for
    the registers [u]. *)
Lemma first_switch c old ctx fk n err oesp u : CFun fk -> switches_to c old ctx -> is_word trapret_a ->
  words_at (ram c) ctx new_context -> regs_ok u -> cpl u = 3 -> words_at (ram c) (ctx + 24) (frame n err oesp u) ->
  let f := do_swtch c in
  (forall b, ctx + 24 <= b < ctx + 100 -> load8 (ram (fk f)) b = load8 (ram f) b) ->
  eip f = forkret_a /\ eip (fk f) = trapret_a /\ same_regs u (leave (fk f)).
Proof.
  intros Hf Hs Ht Hw Hr Hu Hfr. cbv zeta. intros Hkeep. pose proof (switched_ram c old ctx Hs) as Hram.
  destruct Hs as [Hc Hcpl Hroom H1 H2]. destruct (swtch_spec c old ctx Hc) as (t & St & Rt & Hm).
  set (f := do_swtch c) in *. pose proof (sc_ctx _ _ _ Hc) as [Hn0 Hn1].
  assert (gpr f ESP = ctx + 20) as Ee by (rewrite (rs_esp _ _ _ Rt); apply u32_small; lia).
  assert (forall k w o, new_context !! k = Some w -> o = 4 * Z.of_nat k -> load32 (ram c) (ctx + o) = w) as W.
  { intros k w o Hk ->. by apply Hw. }
  split; [rewrite (rs_eip _ _ _ Rt), Hm by lia; by apply (W 4%nat)|]. split.
  - rewrite cf_eip. unfold top. rewrite Ee. rewrite <- (W 5%nat trapret_a 20) by done. apply load32_ext. intros b Hb. apply Hram. lia.
  - assert (length (frame n err oesp u) = 19%nat) as Hl by (unfold frame, hw_frame; rewrite Hu; reflexivity).
    eapply (leave_spec n err oesp (ctx + 24)); [done| |lia|lia| | |rewrite Hu; done].
    + rewrite cf_esp, Ee. rewrite u32_small by lia. lia.
    + unfold cpl in *. rewrite (proj1 (cf_sel f)), (rs_sel _ _ _ Rt), (st_sel _ _ _ _ St). exact Hcpl.
    + eapply words_at_ext; [|exact Hfr]. intros b Hb. rewrite Hkeep, Hram by lia. done.
Qed.

(** C23: [allocproc] fails only when the table is full or no page is left;
    otherwise the new entry's kernel stack is a fresh page with a context that
    [swtch] can switch to.  When [fork] has copied the parent's trap frame to it
    and set [eax], the first switch of a CPU to that context runs [forkret], then
    [trapret], and these enter the program in user mode with all registers of the
    parent, [eax] apart, which is 0: [fork] returns 0 in the child, where the
    parent called it. *)
Theorem forked_child_starts s l : plock s = false -> kmem_inv (lget mem_lens s) l -> is_word trapret_a -> is_word forkret_a ->
  wp (allocproc trapret_a forkret_a) (fun r s' =>
    match r with
    | None => (forall j, 0 <= j < NPROC -> p_state (procs s).[j] <> UNUSED) \/ l = []
    | Some i => exists k l', l = k :: l' /\ new_proc i k l' s s' /\
        let p := (procs s').[i] in
        forall m ptf n err oesp u c old fk,  (forall b, k <= b < k + KSTACKSIZE -> load8 m b = load8 (mem (lget mem_lens s')) b) ->
          words_at m ptf (frame n err oesp u) -> regs_ok u -> cpl u = 3 ->
          CFun fk -> switches_to c old (p_context p) ->
          (forall b, k <= b < k + KSTACKSIZE -> load8 (ram c) b = load8 (child_frame (p_tf p) ptf m) b) ->
          (forall b, p_tf p <= b < p_tf p + TF_SIZE -> load8 (ram (fk (do_swtch c))) b = load8 (ram (do_swtch c)) b) ->
          eip (do_swtch c) = forkret_a /\ eip (fk (do_swtch c)) = trapret_a /\
          same_regs (set_reg EAX 0 u) (leave (fk (do_swtch c)))
    end) s.
Proof.
  intros Hl Hk Ht Hf. eapply wp_mono; [|exact (allocproc_spec s l Hl Hk Ht Hf)]. intros [i|] s'; [|done].
  intros (k & l' & -> & Hp & Hnew). exists k, l'. split; [done|]. split; [done|]. cbv zeta.
  intros m ptf n err oesp u c old fk Hm Hw Hr Hu Hfk Hsw Hram Hkeep. pose proof (np_words _ _ _ _ _ Hnew) as Hctx.
  rewrite (np_tf _ _ _ _ _ Hnew) in *. rewrite (np_context _ _ _ _ _ Hnew) in *. set (ctx := k + KSTACKSIZE - TF_SIZE - 24) in *.
  assert (k + KSTACKSIZE - TF_SIZE = ctx + 24) as Etf by (unfold ctx; lia). rewrite Etf in *.
  assert (k + 3996 = ctx) as Ectx by (unfold ctx, KSTACKSIZE, TF_SIZE; lia). unfold KSTACKSIZE, TF_SIZE in *.
  destruct (child_frame_words (ctx + 24) ptf m n err oesp u Hu Hw) as [Hc1 Hc2].
  eapply (first_switch c old ctx fk n err oesp); try done.
  - eapply words_at_ext; [|exact Hctx]. intros b Hb. cbn [length new_context] in Hb. rewrite Hram, Hc2, Hm by (unfold TF_SIZE; lia). done.
  - by apply regs_ok_set.
  - eapply words_at_ext; [|exact Hc1]. intros b Hb. apply Hram.
    assert (length (frame n err oesp (set_reg EAX 0 u)) = 19%nat) as Hlen by (unfold frame, hw_frame; change (cpl (set_reg EAX 0 u)) with (cpl u); rewrite Hu; reflexivity). lia.
  - intros b Hb. apply Hkeep. lia.
Qed.

End Allocproc.

(** ** The first program *)

(** What [userinit] writes to the trap frame. *)
Definition init_frame (tf : Z) (m : memory) : memory :=
  let m := StringC.memset m tf 0 TF_SIZE in
  let m := store16 (store16 (store16 (store16 m (tf + TF_CS) ucode) (tf + TF_DS) udata) (tf + TF_ES) udata) (tf + TF_SS) udata in
  store32 (store32 (store32 m (tf + TF_EFLAGS) FL_IF) (tf + TF_ESP) PGSIZE) (tf + TF_EIP) 0.

(** The registers it stands for. *)
Definition init_regs : x86 :=
  mkx86 (fun r => match r with ESP => PGSIZE | _ => 0 end) (fun g => match g with CS => ucode | DS | ES | SS => udata | _ => 0 end)
    0 FL_IF ∅.

Lemma load8_store16_ne m a v b : ~ (a <= b < a + 2) -> load8 (store16 m a v) b = load8 m b.
Proof. intros Hb. unfold store16. by rewrite !load8_store8_ne by lia. Qed.

Lemma load32_store16_ne m a v b : a + 2 <= b \/ b + 4 <= a -> load32 (store16 m a v) b = load32 m b.
Proof. intros Hb. apply load32_ext. intros c Hc. apply load8_store16_ne. lia. Qed.

(** A half word over zeroes. *)
Lemma load32_store16_zero m a v : 0 <= v < 65536 -> load32 m a = 0 -> load32 (store16 m a v) a = v.
Proof.
  intros Hv H0. unfold load32 in *. pose proof (load8_range m a). pose proof (load8_range m (a + 1)). pose proof (load8_range m (a + 2)).
  pose proof (load8_range m (a + 3)). rewrite !(load8_store16_ne m a v (a + 2)), !(load8_store16_ne m a v (a + 3)) by lia.
  unfold store16. rewrite load8_store8_eq, load8_store8_ne, load8_store8_eq by lia. unfold u8.
  rewrite (Z.mod_small (v / 256)) by (split; [apply Z.div_pos; lia|apply Z.div_lt_upper_bound; lia]).
  pose proof (Z.div_mod v 256 ltac:(lia)). lia.
Qed.

Lemma memset_word_zero m tf o : 0 <= o -> o + 4 <= TF_SIZE -> load32 (StringC.memset m tf 0 TF_SIZE) (tf + o) = 0.
Proof. intros H1 H2. apply load32_zero. intros b Hb. rewrite StringC.memset_spec by done. by rewrite decide_True by lia. Qed.

Ltac frame_words :=
  match goal with |- load32 _ (_ + ?o) = _ => let o' := eval vm_compute in o in change o with o' end;
  repeat
  first [rewrite load32_store32_eq | rewrite load32_store32_ne by lia | rewrite load32_store16_ne by lia |
    rewrite memset_word_zero by (unfold TF_SIZE; lia) | apply load32_store16_zero; [done|]].

(** The first process starts its program at address 0, at the user's level, with
    interrupts on and an empty stack of one page. *)
Lemma init_frame_words tf m : words_at (init_frame tf m) tf (frame 0 0 0 init_regs).
Proof.
  unfold init_frame, TF_CS, TF_DS, TF_ES, TF_SS, TF_EFLAGS, TF_ESP, TF_EIP. cbv zeta.
  intros k w Hk. change (frame 0 0 0 init_regs) with [0; 0; 0; 0; 0; 0; 0; 0; 0; 0; udata; udata; 0; 0; 0; ucode; FL_IF; PGSIZE; udata] in Hk.
  do 19 (destruct k as [|k]; [injection Hk as <-; frame_words; reflexivity|]). done.
Qed.


(** ** A first process *)

Section Sample.
#[local] Existing Instance sample_layout.

Definition first_os : os (lst bst) :=
  mkos false ∅ 3 (Some 0) 1 0 (mkfl false (ftab small_files) ∅ (machine [page 1; page 2]) (fsys small_files) false) (sample free5) false (mkcpu 0 false true).

(** A scheduler that calls [swtch(20000, ctx)] on a machine with memory [m]. *)
Definition scheduler_regs (m : memory) : x86 := mkx86 (fun r => match r with ESP => 8204 | _ => 0 end) (fun _ => 16) 0 0 m.
Definition scheduler_cpu (ctx : Z) (m : memory) : x86 := push_all [ctx; 20000; 77] (scheduler_regs m).

Lemma scheduler_regs_ok m : regs_ok (scheduler_regs m) /\ gpr (scheduler_regs m) ESP = 8204 /\ ram (scheduler_regs m) = m /\ cpl (scheduler_regs m) = 0.
Proof. split; [split; [intros []; by split|intros ?; by split|by split..]|done]. Qed.

Lemma scheduler_switches ctx m : 20004 <= ctx -> ctx + 100 <= 4294967296 ->
  switches_to (scheduler_cpu ctx m) 20000 ctx /\ forall b, 8204 <= b -> load8 (ram (scheduler_cpu ctx m)) b = load8 m b.
Proof.
  intros H1 H2. destruct (scheduler_regs_ok m) as (Hr & Es & Em & Hc).
  destruct (swtch_called (scheduler_regs m) 20000 ctx 77 Hr ltac:(by split) ltac:(by split) ltac:(lia) ltac:(lia) ltac:(lia) ltac:(lia) ltac:(lia))
    as (Hcall & Hp & _). fold (scheduler_cpu ctx m) in Hcall, Hp. set (c := scheduler_cpu ctx m) in *.
  assert (gpr c ESP = 8192) as Ec by (rewrite (pd_esp _ _ _ Hp), Es; reflexivity). split.
  - split; [exact Hcall| |lia|rewrite Ec; lia|lia]. unfold cpl in *. by rewrite (pd_sel _ _ _ Hp).
  - intros b Hb. rewrite (pd_ram _ _ _ Hp), Em; [done|]. rewrite Es. lia.
Qed.

(** A parent's trap frame at 1,000,000. *)
Definition with_parent_frame (m : memory) : memory :=
  ram (push_all (reverse (frame 64 0 0 user_regs)) (mkx86 (fun _ => 1000076) (fun _ => 16) 0 0 m)).

Lemma parent_frame_words m : words_at (with_parent_frame m) 1000000 (frame 64 0 0 user_regs) /\
  same_outside 1000000 1000076 m (with_parent_frame m).
Proof.
  unfold with_parent_frame. set (x := mkx86 _ _ _ _ m).
  destruct (push_all_spec (reverse (frame 64 0 0 user_regs)) x) as [P1 _ _ _ _ P6 P7].
  - change (Forall (fun w => 0 <= w < 4294967296) (reverse (frame 64 0 0 user_regs))). apply (bool_decide_unpack _). vm_compute. exact I.
  - change (76 <= 1000076 < 4294967296). lia.
  - rewrite reverse_involutive in P6. change (gpr x ESP - 4 * Z.of_nat (length (reverse (frame 64 0 0 user_regs)))) with 1000000 in P1. rewrite P1 in P6, P7. split; [exact P6|].
    intros a Ha. apply P7. change (gpr x ESP) with 1000076. lia.
Qed.

Lemma ret_ram s : ram (ret_ s) = ram s.
Proof. reflexivity. Qed.

Lemma forked_child_starts_witness : wp (allocproc 100 200) (fun r s' => exists i c, r = Some i /\ switches_to c 20000 (p_context (procs s').[i]) /\
  eip (do_swtch c) = 200 /\ same_regs (set_reg EAX 0 user_regs) (leave (ret_ (do_swtch c)))) first_os.
Proof.
  assert (kmem_inv (machine [page 1; page 2]) [page 1; page 2]) as Hi.
  { apply machine_inv; [repeat constructor; by apply page_page_ok|by apply (bool_decide_unpack _)]. }
  eapply wp_mono; [|apply (forked_child_starts 100 200 first_os [page 1; page 2] eq_refl Hi); by split].
  intros [i|] s'; [|intros [Hn|Hn]; [exfalso; apply (Hn 0); [by split|reflexivity]|discriminate]].
  intros (k & l' & Ek & Hnew & Hstart). injection Ek as <- <-. cbv zeta in Hstart.
  set (m := with_parent_frame (mem (lget mem_lens s'))). set (ctx := p_context (procs s').[i]). set (tf := p_tf (procs s').[i]) in *.
  exists i, (scheduler_cpu ctx (child_frame tf 1000000 m)).
  assert (tf = page 1 + 4020 /\ ctx = page 1 + 3996) as [Etf Ectx].
  { unfold tf, ctx. rewrite (np_tf _ _ _ _ _ _ _ Hnew), (np_context _ _ _ _ _ _ _ Hnew). split; reflexivity. }
  destruct (parent_frame_words (mem (lget mem_lens s'))) as [Hw Ho].
  assert (page 1 = 2151682048) as Ep by reflexivity.
  destruct (scheduler_switches ctx (child_frame tf 1000000 m) ltac:(lia) ltac:(lia)) as [Hsw Hram].
  split; [reflexivity|]. split; [exact Hsw|].
  destruct (Hstart m 1000000 64 0 0 user_regs (scheduler_cpu ctx (child_frame tf 1000000 m)) 20000 ret_) as (H1 & _ & H3);
    [| |exact user_regs_ok|reflexivity|exact ret_cfun|exact Hsw| | |split; [exact H1|exact H3]].
  - intros b Hb. apply Ho. lia.
  - exact Hw.
  - intros b Hb. apply Hram. lia.
  - intros b Hb. by rewrite ret_ram.
Defined.

End Sample.
