(* ===== verification/Cmos.v ===== *)
(** * The clock: [cmostime] of [lapic.c]

    The date is read from the registers of the CMOS clock, one byte at a time,
    while the clock goes on.  The clock is a parameter: what each register reads
    at each moment, a moment being one read of the data port. *)

From stdpp Require Import base tactics numbers list.
From Stdlib Require Import ZArith Lia.
From S2P Require Import Prelude.

Definition CMOS_PORT : Z := 0x70.
Definition CMOS_RETURN : Z := 0x71.
Definition CMOS_STATA : Z := 0x0a.
Definition CMOS_STATB : Z := 0x0b.
Definition CMOS_UIP : Z := Z.shiftl 1 7.

Definition SECS : Z := 0x00.
Definition MINS : Z := 0x02.
Definition HOURS : Z := 0x04.
Definition DAY : Z := 0x07.
Definition MONTH : Z := 0x08.
Definition YEAR : Z := 0x09.

(** [struct rtcdate] *)
Record rtcdate := mkrtc { second : Z; minute : Z; hour : Z; day : Z; month : Z; year : Z }.

#[global] Instance rtcdate_eq_dec : EqDecision rtcdate.
Proof. solve_decision. Defined.

(** The register selected, and the number of reads so far. *)
Record cmos := mkcmos { selected : Z; now : nat }.

Section Clock.
Context (reg : nat -> Z -> Z).

Definition outb (port v : Z) : M cmos unit :=
  modify (fun s => if port =? CMOS_PORT then mkcmos (u8 v) (now s) else s).

(** Reads of the data port only. *)
Definition inb (port : Z) : M cmos Z := fun s =>
  if port =? CMOS_RETURN then Ret (u8 (reg (now s) (selected s))) (mkcmos (selected s) (S (now s))) else Undef.

Definition microdelay (us : Z) : M cmos unit := ret tt.

Definition cmos_read (r : Z) : M cmos Z :=
  outb CMOS_PORT r ;;;
  microdelay 200 ;;;
  inb CMOS_RETURN.

Definition fill_rtcdate : M cmos rtcdate :=
  let* s := cmos_read SECS in
  let* m := cmos_read MINS in
  let* h := cmos_read HOURS in
  let* d := cmos_read DAY in
  let* mo := cmos_read MONTH in
  let* y := cmos_read YEAR in
  ret (mkrtc s m h d mo y).

(** One turn of the loop. *)
Definition read_twice (_ : unit) : M cmos (unit + rtcdate) :=
  let* t1 := fill_rtcdate in
  let* a := cmos_read CMOS_STATA in
  if negb (Z.land a CMOS_UIP =? 0) then ret (inl tt) else
  let* t2 := fill_rtcdate in
  ret (if bool_decide (t1 = t2) then inr t1 else inl tt).

Definition CONV (x : Z) : Z := u32 (Z.shiftr x 4 * 10 + Z.land x 0xf).

Definition conv_date (t : rtcdate) : rtcdate :=
  mkrtc (CONV (second t)) (CONV (minute t)) (CONV (hour t)) (CONV (day t)) (CONV (month t)) (CONV (year t)).

Definition cmostime (fuel : nat) : M cmos rtcdate :=
  let* sb := cmos_read CMOS_STATB in
  let bcd := Z.land sb (Z.shiftl 1 2) =? 0 in
  let* t1 := iter fuel read_twice tt in
  let t1 := if bcd then conv_date t1 else t1 in
  ret (mkrtc (second t1) (minute t1) (hour t1) (day t1) (month t1) (u32 (year t1 + 2000))).

End Clock.

(** ** What the clock promises *)

(** Two decimal digits in a byte. *)
Definition bcd_of (x : Z) : Z := 16 * (x / 10) + x mod 10.

(** The date at each moment, of which the registers hold the fields, as numbers
    or as digits; and the update flag: when it reads 0, the date does not change
    during the next six reads. *)
Class Rtc (reg : nat -> Z -> Z) := {
  rtc_date : nat -> rtcdate;
  rtc_bcd : bool;
  rtc_uip : nat -> bool;
  rtc_statb : forall t, Z.land (u8 (reg t CMOS_STATB)) 4 = if rtc_bcd then 0 else 4;
  rtc_stata : forall t, (Z.land (u8 (reg t CMOS_STATA)) CMOS_UIP =? 0) = negb (rtc_uip t);
  rtc_fields : forall t, let enc x := if rtc_bcd then bcd_of x else x in let d := rtc_date t in
    reg t SECS = enc (second d) /\ reg t MINS = enc (minute d) /\ reg t HOURS = enc (hour d) /\
    reg t DAY = enc (day d) /\ reg t MONTH = enc (month d) /\ reg t YEAR = enc (year d);
  rtc_range : forall t, let d := rtc_date t in
    0 <= second d < 100 /\ 0 <= minute d < 100 /\ 0 <= hour d < 100 /\ 0 <= day d < 100 /\ 0 <= month d < 100 /\ 0 <= year d < 100;
  rtc_quiet : forall t k, rtc_uip t = false -> (k <= 6)%nat -> rtc_date (t + k) = rtc_date t
}.

Lemma bcd_range x : 0 <= x < 100 -> 0 <= bcd_of x < 256.
Proof. intros Hx. unfold bcd_of. pose proof (Z.div_mod x 10 ltac:(lia)). pose proof (Z.mod_pos_bound x 10 ltac:(lia)). lia. Qed.

(** The digits are the number again. *)
Lemma CONV_bcd x : 0 <= x < 100 -> CONV (bcd_of x) = x.
Proof.
  intros Hx. unfold CONV, bcd_of. pose proof (Z.div_mod x 10 ltac:(lia)). pose proof (Z.mod_pos_bound x 10 ltac:(lia)).
  rewrite Z.shiftr_div_pow2 by lia. change 15 with (Z.ones 4). rewrite Z.land_ones by lia. change (2 ^ 4) with 16.
  replace ((16 * (x / 10) + x mod 10) / 16) with (x / 10) by (apply Z.div_unique with (x mod 10); lia).
  replace ((16 * (x / 10) + x mod 10) mod 16) with (x mod 10) by (apply Z.mod_unique with (x / 10); lia).
  rewrite u32_small; lia.
Qed.

Section Reads.
Context (reg : nat -> Z -> Z) `{!Rtc reg}.

Lemma wp_cmos_read r (Q : Z -> cmos -> Prop) s : 0 <= r < 256 ->
  Q (u8 (reg (now s) r)) (mkcmos r (S (now s))) -> wp (cmos_read reg r) Q s.
Proof.
  intros Hr HQ. apply wp_bind, wp_modify, wp_bind, wp_ret. unfold wp, inb. cbn.
  rewrite (u8_small r) by lia. exact HQ.
Qed.

(** A date of which each field was read at its own moment. *)
Definition fields_at (t : nat) : rtcdate :=
  mkrtc (u8 (reg t SECS)) (u8 (reg (t + 1) MINS)) (u8 (reg (t + 2) HOURS)) (u8 (reg (t + 3) DAY)) (u8 (reg (t + 4) MONTH)) (u8 (reg (t + 5) YEAR)).

Lemma wp_fill (Q : rtcdate -> cmos -> Prop) s :
  (forall r, Q (fields_at (now s)) (mkcmos r (now s + 6))) -> wp (fill_rtcdate reg) Q s.
Proof.
  intros HQ. unfold fill_rtcdate. do 6 (apply wp_bind, wp_cmos_read; [done|]; cbn [now]). apply wp_ret.
  unfold fields_at in HQ. specialize (HQ YEAR). replace (now s + 1)%nat with (S (now s)) in HQ by lia.
  replace (now s + 2)%nat with (S (S (now s))) in HQ by lia. replace (now s + 3)%nat with (S (S (S (now s)))) in HQ by lia.
  replace (now s + 4)%nat with (S (S (S (S (now s))))) in HQ by lia. replace (now s + 5)%nat with (S (S (S (S (S (now s)))))) in HQ by lia.
  replace (now s + 6)%nat with (S (S (S (S (S (S (now s))))))) in HQ by lia. exact HQ.
Qed.

(** The registers as the clock writes them. *)
Definition enc (d : rtcdate) : rtcdate :=
  let e x := if rtc_bcd (reg := reg) then bcd_of x else x in
  mkrtc (e (second d)) (e (minute d)) (e (hour d)) (e (day d)) (e (month d)) (e (year d)).

Lemma u8_enc x : 0 <= x < 100 -> u8 (if rtc_bcd (reg := reg) then bcd_of x else x) = if rtc_bcd (reg := reg) then bcd_of x else x.
Proof. intros Hx. pose proof (bcd_range x Hx). destruct rtc_bcd; apply u8_small; lia. Qed.

(** While the date stands still, the fields are those of one date. *)
Lemma fields_quiet t d : (forall k, (k <= 5)%nat -> rtc_date (reg := reg) (t + k) = d) -> fields_at t = enc d.
Proof.
  intros Hd. unfold fields_at, enc.
  pose proof (rtc_fields (reg := reg) t) as (F0 & _). pose proof (rtc_fields (reg := reg) (t + 1)) as (_ & F1 & _).
  pose proof (rtc_fields (reg := reg) (t + 2)) as (_ & _ & F2 & _). pose proof (rtc_fields (reg := reg) (t + 3)) as (_ & _ & _ & F3 & _).
  pose proof (rtc_fields (reg := reg) (t + 4)) as (_ & _ & _ & _ & F4 & _). pose proof (rtc_fields (reg := reg) (t + 5)) as (_ & _ & _ & _ & _ & F5).
  pose proof (Hd 0%nat ltac:(lia)) as H0. rewrite Nat.add_0_r in H0. rewrite H0 in F0. rewrite !Hd in F1, F2, F3, F4, F5 by lia.
  rewrite F0, F1, F2, F3, F4, F5. pose proof (rtc_range (reg := reg) t) as Hr. rewrite H0 in Hr. cbv zeta in Hr.
  by rewrite !u8_enc by tauto.
Qed.

Lemma conv_enc t : let d := rtc_date (reg := reg) t in (if rtc_bcd (reg := reg) then conv_date (enc d) else enc d) = d.
Proof.
  cbv zeta. pose proof (rtc_range (reg := reg) t) as Hr. cbv zeta in Hr. unfold conv_date, enc. destruct rtc_bcd; cbn;
    [rewrite !CONV_bcd by tauto|]; by destruct (rtc_date t).
Qed.

(** A turn either fails, or gives the registers of one moment during it; it
    succeeds when the clock is at rest. *)
Lemma wp_read_twice s : wp (read_twice reg tt) (fun r s' =>
  match r with
  | inl _ => (now s + 7 <= now s' <= now s + 13)%nat /\
      ~ (rtc_uip (reg := reg) (now s + 6) = false /\ forall k, (k <= 5)%nat -> rtc_date (reg := reg) (now s + k) = rtc_date (reg := reg) (now s + 6))
  | inr d => d = enc (rtc_date (reg := reg) (now s + 6)) /\ now s' = (now s + 13)%nat
  end) s.
Proof using Rtc0.
  unfold read_twice. apply wp_bind, wp_fill. intros r. apply wp_bind, wp_cmos_read; [done|]. cbn [now]. rewrite rtc_stata, negb_involutive.
  destruct (rtc_uip (now s + 6)) eqn:Eu; [apply wp_ret; cbn [now]; split; [lia|by intros [? _]]|].
  apply wp_bind, wp_fill. intros r'. apply wp_ret. cbn [now].
  assert (fields_at (S (now s + 6)) = enc (rtc_date (reg := reg) (now s + 6))) as E2.
  { apply fields_quiet. intros k Hk. replace (S (now s + 6) + k)%nat with (now s + 6 + S k)%nat by lia. apply rtc_quiet; [done|lia]. }
  rewrite E2. case_bool_decide as E; [split; [done|lia]|]. split; [lia|]. intros [_ Hq]. apply E. by apply fields_quiet.
Qed.

(** The clock is at rest from [T] on, for two turns. *)
Definition at_rest (T : nat) : Prop :=
  forall k, (k <= 27)%nat -> rtc_date (reg := reg) (T + k) = rtc_date (reg := reg) T /\ rtc_uip (reg := reg) (T + k) = false.

Lemma wp_loop T fuel : at_rest T -> forall s, (now s <= T + 13)%nat -> (T - now s < fuel)%nat ->
  wp (iter fuel (read_twice reg) tt) (fun d s' => exists t, (now s <= t < now s')%nat /\ d = enc (rtc_date (reg := reg) t)) s.
Proof using Rtc0.
  intros HT. induction fuel as [|fuel IH]; intros s Hs Hf; [lia|]. cbn [iter]. apply wp_bind. eapply wp_mono; [|apply wp_read_twice].
  intros [[]|d] s1; cbn beta iota.
  - intros [Ht Hno]. destruct (decide (T <= now s)%nat) as [Hle|Hlt].
    + exfalso. apply Hno. destruct (HT (now s + 6 - T)%nat ltac:(lia)) as [E6 U6]. replace (T + (now s + 6 - T))%nat with (now s + 6)%nat in E6, U6 by lia.
      split; [done|]. intros k Hk. rewrite E6. destruct (HT (now s + k - T)%nat ltac:(lia)) as [Ek _].
      by replace (T + (now s + k - T))%nat with (now s + k)%nat in Ek by lia.
    + eapply wp_mono; [|apply IH; lia]. intros d s2 (t & H1 & H2). exists t. split; [lia|done].
  - intros [-> Es]. apply wp_ret. exists (now s + 6)%nat. split; [lia|done].
Qed.

(** C38: [cmostime] returns, once the clock has been at rest for two turns of its
    loop at some moment [T] after the call, and its result is the whole date,
    century included, that the clock showed at one moment during the call, in
    either encoding: never a mixture of the dates before and after a change. *)
Theorem cmostime_reads_date s T fuel : (now s < T)%nat -> at_rest T -> (T - now s <= fuel)%nat ->
  wp (cmostime reg fuel) (fun d s' => exists t, (now s < t < now s')%nat /\
    let c := rtc_date (reg := reg) t in d = mkrtc (second c) (minute c) (hour c) (day c) (month c) (2000 + year c)) s.
Proof using Rtc0.
  intros Hs HT Hf. unfold cmostime. apply wp_bind, wp_cmos_read; [done|]. apply wp_bind.
  eapply wp_mono; [|apply (wp_loop T fuel HT); cbn [now]; lia]. cbn [now]. intros d s' (t & Ht & ->). apply wp_ret. exists t. split; [lia|].
  cbv zeta. change (Z.shiftl 1 2) with 4. rewrite rtc_statb. pose proof (conv_enc t) as Hc. cbv zeta in Hc.
  assert ((if (if rtc_bcd (reg := reg) then 0 else 4) =? 0 then conv_date (enc (rtc_date (reg := reg) t)) else enc (rtc_date (reg := reg) t)) = rtc_date (reg := reg) t) as ->
    by (rewrite <- Hc at 3; by destruct rtc_bcd).
  pose proof (rtc_range (reg := reg) t) as Hr. cbv zeta in Hr. f_equal. rewrite u32_small by lia. lia.
Qed.

End Reads.

(** ** A clock *)

(** It shows 23:59:59 until the twentieth read, and then the next day; digits. *)
Definition sample_date (t : nat) : rtcdate :=
  if decide (t < 20)%nat then mkrtc 59 59 23 14 11 26 else mkrtc 0 0 0 15 11 26.

Definition sample_reg (t : nat) (r : Z) : Z :=
  let d := sample_date t in
  if r =? SECS then bcd_of (second d) else if r =? MINS then bcd_of (minute d) else if r =? HOURS then bcd_of (hour d) else
  if r =? DAY then bcd_of (day d) else if r =? MONTH then bcd_of (month d) else if r =? YEAR then bcd_of (year d) else
  if r =? CMOS_STATA then (if decide (12 < t < 20)%nat then 128 else 0) else 0.

#[global] Instance sample_rtc : Rtc sample_reg.
Proof.
  refine {| rtc_date := sample_date; rtc_bcd := true; rtc_uip := fun t => bool_decide (12 < t < 20)%nat |}.
  - done.
  - intros t. unfold sample_reg. cbn. case_decide; case_bool_decide; done || tauto.
  - intros t. done.
  - intros t. unfold sample_date. case_decide; cbn; lia.
  - intros t k Hu%bool_decide_eq_false Hk. unfold sample_date. repeat case_decide; done || lia.
Defined.

Lemma cmostime_reads_date_witness : wp (cmostime sample_reg 25) (fun d _ => d = mkrtc 0 0 0 15 11 2026 \/ d = mkrtc 59 59 23 14 11 2026) (mkcmos 0 5).
Proof.
  eapply wp_mono; [|apply (cmostime_reads_date sample_reg (mkcmos 0 5) 20 25)].
  - intros d s' (t & _ & ->). cbn [rtc_date sample_rtc]. unfold sample_date. case_decide; [by right|by left].
  - cbn. lia.
  - intros k Hk. cbn [rtc_date rtc_uip sample_rtc]. unfold sample_date. rewrite !decide_False by lia. split; [done|]. apply bool_decide_eq_false. lia.
  - cbn. lia.
Defined.
