(* ===== verification/Apic.v ===== *)
(** * Interrupt controllers ([lapic.c], [ioapic.c], [picirq.c])

    The local and the I/O controller as register files, with what the hardware
    does on a read or a write as far as the code sees it. *)

From stdpp Require Import base tactics numbers gmap strings list.
From Stdlib Require Import ZArith Lia.
From S2P Require Import Prelude Mmu Memory Kalloc Fs Proc Trap.

Definition IRQ_ERROR : Z := 19.

(** ** The local controller *)

Module Lapic.

(** Registers, as indices of [uint]s. *)
Definition ID : Z := 0x0020 / 4.
Definition VER : Z := 0x0030 / 4.
Definition TPR : Z := 0x0080 / 4.
Definition EOI : Z := 0x00B0 / 4.
Definition SVR : Z := 0x00F0 / 4.
Definition ENABLE : Z := 0x00000100.
Definition ESR : Z := 0x0280 / 4.
Definition ICRLO : Z := 0x0300 / 4.
Definition INIT : Z := 0x00000500.
Definition STARTUP : Z := 0x00000600.
Definition DELIVS : Z := 0x00001000.
Definition ASSERT : Z := 0x00004000.
Definition LEVEL : Z := 0x00008000.
Definition BCAST : Z := 0x00080000.
Definition ICRHI : Z := 0x0310 / 4.
Definition TIMER : Z := 0x0320 / 4.
Definition X1 : Z := 0x0000000B.
Definition PERIODIC : Z := 0x00020000.
Definition PCINT : Z := 0x0340 / 4.
Definition LINT0 : Z := 0x0350 / 4.
Definition LINT1 : Z := 0x0360 / 4.
Definition ERROR : Z := 0x0370 / 4.
Definition MASKED : Z := 0x00010000.
Definition TICR : Z := 0x0380 / 4.
Definition TDCR : Z := 0x03E0 / 4.

Definition CMOS_PORT : Z := 0x70.

(** [lapic], null when there is none; its registers; for how many reads the
    command last given is still pending; the commands given, latest first, with
    the processor they go to; the bytes sent to ports; and memory. *)
Record lapic := mklapic {
  base : Z;
  regs : arr Z;
  pending : nat;
  commands : list (Z * Z);
  ports : list (Z * Z);
  ram : memory
}.

Section Code.
(** How long a command takes. *)
Context (delay : nat).

Definition lapicw (index value : Z) : M lapic unit := modify (fun s =>
  let r := <[index := u32 value]> (regs s) in
  if index =? ICRLO then mklapic (base s) r delay ((Z.shiftr r.[ICRHI] 24, u32 value) :: commands s) (ports s) (ram s)
  else mklapic (base s) r (pending s) (commands s) (ports s) (ram s)).

Definition lapicr (index : Z) : M lapic Z := fun s =>
  let v := (regs s).[index] in
  if index =? ICRLO then
    Ret (if (0 <? pending s)%nat then Z.lor v DELIVS else v) (mklapic (base s) (regs s) (Nat.pred (pending s)) (commands s) (ports s) (ram s))
  else Ret v s.

Definition outb (port v : Z) : M lapic unit := modify (fun s =>
  mklapic (base s) (regs s) (pending s) (commands s) (ports s ++ [(port, u8 v)]) (ram s)).

Definition microdelay (us : Z) : M lapic unit := ret tt.

Definition lapicinit (fuel : nat) : M lapic unit :=
  let* b := gets base in
  if b =? 0 then ret tt else
  lapicw SVR (Z.lor ENABLE (T_IRQ0 + IRQ_SPURIOUS)) ;;;
  lapicw TDCR X1 ;;;
  lapicw TIMER (Z.lor PERIODIC (T_IRQ0 + IRQ_TIMER)) ;;;
  lapicw TICR 10000000 ;;;
  lapicw LINT0 MASKED ;;;
  lapicw LINT1 MASKED ;;;
  let* v := lapicr VER in
  when (4 <=? Z.land (Z.shiftr v 16) 0xFF) (lapicw PCINT MASKED) ;;;
  lapicw ERROR (T_IRQ0 + IRQ_ERROR) ;;;
  lapicw ESR 0 ;;;
  lapicw ESR 0 ;;;
  lapicw EOI 0 ;;;
  lapicw ICRHI 0 ;;;
  lapicw ICRLO (Z.lor (Z.lor BCAST INIT) LEVEL) ;;;
  iter fuel (fun _ : unit =>
    let* v := lapicr ICRLO in
    ret (if negb (Z.land v DELIVS =? 0) then inl tt else inr tt)) tt ;;;
  lapicw TPR 0.

Definition lapicid : M lapic Z :=
  let* b := gets base in
  if b =? 0 then ret 0 else
  let* v := lapicr ID in ret (Z.shiftr v 24).

Definition lapiceoi : M lapic unit :=
  let* b := gets base in
  when (negb (b =? 0)) (lapicw EOI 0).

(** A 16-bit store to memory. *)
Definition wr16 (a v : Z) : M lapic unit := modify (fun s =>
  mklapic (base s) (regs s) (pending s) (commands s) (ports s) (store16 (ram s) a v)).

Definition lapicstartap (apicid addr : Z) : M lapic unit :=
  outb CMOS_PORT 0xF ;;;
  outb (CMOS_PORT + 1) 0x0A ;;;
  let wrv := P2V (Z.lor (Z.shiftl 0x40 4) 0x67) in
  wr16 wrv 0 ;;;
  wr16 (wrv + 2) (Z.shiftr addr 4) ;;;
  lapicw ICRHI (Z.shiftl apicid 24) ;;;
  lapicw ICRLO (Z.lor (Z.lor INIT LEVEL) ASSERT) ;;;
  microdelay 200 ;;;
  lapicw ICRLO (Z.lor INIT LEVEL) ;;;
  microdelay 100 ;;;
  for_up 0 2 (fun _ =>
    lapicw ICRHI (Z.shiftl apicid 24) ;;;
    lapicw ICRLO (Z.lor STARTUP (Z.shiftr addr 12)) ;;;
    microdelay 200).

Lemma wp_lapicw index value (Q : unit -> lapic -> Prop) s : index <> ICRLO ->
  Q tt (mklapic (base s) (<[index := u32 value]> (regs s)) (pending s) (commands s) (ports s) (ram s)) -> wp (lapicw index value) Q s.
Proof. intros Hi HQ. apply wp_modify. cbv zeta. by rewrite (proj2 (Z.eqb_neq _ _) Hi). Qed.

(** The wait for a command ends, when it is allowed as many turns as it takes. *)
Lemma wp_wait_sent fuel : forall s, Z.land (regs s).[ICRLO] DELIVS = 0 -> (pending s < fuel)%nat ->
  wp (iter fuel (fun _ : unit => let* v := lapicr ICRLO in ret (if negb (Z.land v DELIVS =? 0) then inl tt else inr tt)) tt)
    (fun _ s' => s' = mklapic (base s) (regs s) 0 (commands s) (ports s) (ram s)) s.
Proof.
  induction fuel as [|fuel IH]; intros s Hv Hp; [lia|]. cbn [iter]. apply wp_bind, wp_bind. unfold wp, lapicr. rewrite Z.eqb_refl.
  destruct (Nat.ltb_spec 0 (pending s)) as [H0|H0].
  - apply wp_ret. rewrite Z.land_lor_distr_l, Hv, Z.land_diag, Z.lor_0_l. cbn [DELIVS Z.eqb negb].
    eapply wp_mono; [|apply IH; cbn; [done|lia]]. by intros [] s' ->.
  - apply wp_ret. rewrite Hv. cbn [Z.eqb negb]. apply wp_ret. by replace (Nat.pred (pending s)) with 0%nat by lia.
Qed.

(** What [lapicinit] leaves in the registers: the vectors of the timer, of
    errors and of spurious interrupts, the lines masked, every priority let
    through, and one command, to all. *)
Record programmed (s s' : lapic) : Prop := {
  pg_svr : (regs s').[SVR] = ENABLE + (T_IRQ0 + IRQ_SPURIOUS);
  pg_timer : (regs s').[TIMER] = PERIODIC + (T_IRQ0 + IRQ_TIMER) /\ (regs s').[TICR] = 10000000 /\ (regs s').[TDCR] = X1;
  pg_lines : (regs s').[LINT0] = MASKED /\ (regs s').[LINT1] = MASKED;
  pg_pcint : 4 <= Z.land (Z.shiftr (regs s).[VER] 16) 0xFF -> (regs s').[PCINT] = MASKED;
  pg_error : (regs s').[ERROR] = T_IRQ0 + IRQ_ERROR /\ (regs s').[ESR] = 0;
  pg_open : (regs s').[TPR] = 0 /\ (regs s').[EOI] = 0;
  pg_command : commands s' = (0, BCAST + INIT + LEVEL) :: commands s /\ pending s' = 0%nat;
  pg_rest : base s' = base s /\ ports s' = ports s /\ ram s' = ram s
}.

Lemma wp_lapicr index (Q : Z -> lapic -> Prop) s : index <> ICRLO -> Q (regs s).[index] s -> wp (lapicr index) Q s.
Proof. intros Hi HQ. unfold wp, lapicr. by rewrite (proj2 (Z.eqb_neq _ _) Hi). Qed.

Lemma wp_command value (Q : unit -> lapic -> Prop) s :
  Q tt (mklapic (base s) (<[ICRLO := u32 value]> (regs s)) delay ((Z.shiftr (regs s).[ICRHI] 24, u32 value) :: commands s) (ports s) (ram s)) ->
  wp (lapicw ICRLO value) Q s.
Proof. intros HQ. apply wp_modify. cbv zeta. rewrite Z.eqb_refl, (asel_insert_ne _ ICRLO ICRHI) by done. exact HQ. Qed.

(** The second half, after the optional register. *)
Lemma wp_init_rest fuel (Q : unit -> lapic -> Prop) s : (delay < fuel)%nat ->
  let r := <[ICRHI := 0]> (<[EOI := 0]> (<[ESR := 0]> (<[ESR := 0]> (<[ERROR := T_IRQ0 + IRQ_ERROR]> (regs s))))) in
  Q tt (mklapic (base s) (<[TPR := 0]> (<[ICRLO := BCAST + INIT + LEVEL]> r)) 0 ((0, BCAST + INIT + LEVEL) :: commands s) (ports s) (ram s)) ->
  wp (lapicw ERROR (T_IRQ0 + IRQ_ERROR) ;;; lapicw ESR 0 ;;; lapicw ESR 0 ;;; lapicw EOI 0 ;;; lapicw ICRHI 0 ;;;
      lapicw ICRLO (Z.lor (Z.lor BCAST INIT) LEVEL) ;;;
      iter fuel (fun _ : unit => let* v := lapicr ICRLO in ret (if negb (Z.land v DELIVS =? 0) then inl tt else inr tt)) tt ;;;
      lapicw TPR 0) Q s.
Proof.
  intros Hf r HQ. do 5 (apply wp_bind, wp_lapicw; [done|]; cbn [base regs pending commands ports ram]).
  apply wp_bind, wp_command, wp_bind. cbn [base regs pending commands ports ram]. rewrite asel_insert_eq.
  eapply wp_mono; [|apply wp_wait_sent; cbn [regs pending]; [by rewrite asel_insert_eq|done]].
  intros [] s' ->. apply wp_lapicw; [done|]. exact HQ.
Qed.

Ltac regs := repeat (rewrite asel_insert_eq || rewrite asel_insert_ne by done).

Lemma lapicinit_programs s fuel : base s <> 0 -> (delay < fuel)%nat -> wp (lapicinit fuel) (fun _ s' => programmed s s') s.
Proof.
  intros Hb Hf. unfold lapicinit. apply wp_bind, wp_gets. rewrite (proj2 (Z.eqb_neq _ _) Hb).
  do 6 (apply wp_bind, wp_lapicw; [done|]; cbn [base regs pending commands ports ram]). apply wp_bind, wp_lapicr; [done|].
  cbn [regs]. rewrite !(asel_insert_ne _ _ VER) by done. apply wp_bind, wp_when.
  - intros Hv%Z.leb_le. apply wp_lapicw; [done|]. apply wp_init_rest; [done|]. cbn [base regs pending commands ports ram].
    split; cbn [base regs pending commands ports ram]; regs; done.
  - intros Hv%Z.leb_gt. apply wp_init_rest; [done|]. cbn [base regs pending commands ports ram].
    split; cbn [base regs pending commands ports ram]; regs; [done..|lia|done|done|done|done].
Qed.

(** Without a controller nothing happens. *)
Lemma lapic_absent s fuel : base s = 0 -> lapicinit fuel s = Ret tt s /\ lapiceoi s = Ret tt s /\ lapicid s = Ret 0 s.
Proof. intros Hb. unfold lapicinit, lapiceoi, lapicid, bind, gets. rewrite Hb. done. Qed.

(** One command to a processor. *)
Lemma wp_send apicid v (Q : unit -> lapic -> Prop) s : 0 <= apicid < 256 -> (regs s).[ICRHI] = apicid * 16777216 ->
  (forall s', (regs s').[ICRHI] = apicid * 16777216 -> commands s' = (apicid, u32 v) :: commands s -> ports s' = ports s -> ram s' = ram s -> Q tt s') ->
  wp (lapicw ICRLO v) Q s.
Proof.
  intros Ha Hi HQ. apply wp_command, HQ; cbn [regs commands ports ram]; [by rewrite asel_insert_ne|rewrite Hi|done|done].
  rewrite Z.shiftr_div_pow2 by lia. change (2 ^ 24) with 16777216. by rewrite Z.div_mul.
Qed.

Lemma wp_address apicid (Q : unit -> lapic -> Prop) s : 0 <= apicid < 256 ->
  (forall s', (regs s').[ICRHI] = apicid * 16777216 -> commands s' = commands s -> ports s' = ports s -> ram s' = ram s -> Q tt s') ->
  wp (lapicw ICRHI (Z.shiftl apicid 24)) Q s.
Proof.
  intros Ha HQ. apply wp_lapicw; [done|]. apply HQ; cbn [regs commands ports ram]; [|done..]. rewrite asel_insert_eq, Z.shiftl_mul_pow2 by lia.
  change (2 ^ 24) with 16777216. apply u32_small. lia.
Qed.

Lemma startup_vector addr : 0 <= addr < 1048576 -> u32 (Z.lor STARTUP (Z.shiftr addr 12)) = STARTUP + addr / 4096.
Proof.
  intros Ha. rewrite Z.shiftr_div_pow2 by lia. change (2 ^ 12) with 4096. pose proof (Z.div_lt_upper_bound addr 4096 256 ltac:(lia) ltac:(lia)).
  pose proof (Z.div_pos addr 4096 ltac:(lia) ltac:(lia)). rewrite (lor_aligned 8) by (done || lia).
  change STARTUP with 1536. apply u32_small. lia.
Qed.

(** [lapicstartap] sends the processor [apicid] an INIT and two start-up
    commands, whose vector is the page of [addr]; the warm reset vector is
    [addr] too. *)
Lemma lapicstartap_commands s apicid addr : 0 <= apicid < 256 -> 0 <= addr < 1048576 ->
  wp (lapicstartap apicid addr) (fun _ s' =>
    commands s' = [(apicid, STARTUP + addr / 4096); (apicid, STARTUP + addr / 4096); (apicid, INIT + LEVEL); (apicid, INIT + LEVEL + ASSERT)] ++ commands s /\
    ports s' = ports s ++ [(CMOS_PORT, 0xF); (CMOS_PORT + 1, 0xA)] /\
    ram s' = store16 (store16 (ram s) (P2V 0x467) 0) (P2V 0x467 + 2) (addr / 16)) s.
Proof.
  intros Ha Had. unfold lapicstartap. do 2 apply wp_bind, wp_modify. cbv zeta. do 2 apply wp_bind, wp_modify.
  cbn [base regs pending commands ports ram]. rewrite <- app_assoc. apply wp_bind, wp_address; [done|]. cbn [commands ports ram]. intros s1 R1 C1 P1 M1.
  apply wp_bind, (wp_send apicid); [done..|]. intros s2 R2 C2 P2 M2. apply wp_bind, wp_ret.
  apply wp_bind, (wp_send apicid); [done..|]. intros s3 R3 C3 P3 M3. apply wp_bind, wp_ret.
  unfold for_up. change (Z.to_nat (2 - 0)) with 2%nat. cbn [forn].
  apply wp_bind, wp_bind, wp_address; [done|]. intros s4 R4 C4 P4 M4. apply wp_bind, (wp_send apicid); [done..|]. intros s5 R5 C5 P5 M5. apply wp_ret.
  apply wp_bind, wp_bind, wp_address; [done|]. intros s6 R6 C6 P6 M6. apply wp_bind, (wp_send apicid); [done..|]. intros s7 R7 C7 P7 M7. apply wp_ret, wp_ret.
  rewrite C7, C6, C5, C4, C3, C2, C1, P7, P6, P5, P4, P3, P2, P1, M7, M6, M5, M4, M3, M2, M1, startup_vector by done.
  rewrite Z.shiftr_div_pow2 by lia. split; [done|]. split; done.
Qed.

End Code.
End Lapic.

(** ** The I/O controller *)

Module Ioapic.

Definition REG_ID : Z := 0x00.
Definition REG_VER : Z := 0x01.
Definition REG_TABLE : Z := 0x10.
Definition INT_DISABLED : Z := 0x00010000.

(** [struct ioapic] selects a register with [reg] and moves it through [data];
    [printed] is whether the complaint has been printed. *)
Record ioapic := mkioapic { reg : Z; regs : arr Z; printed : bool }.

Definition ioapicread (r : Z) : M ioapic Z :=
  modify (fun s => mkioapic r (regs s) (printed s)) ;;;
  gets (fun s => (regs s).[reg s]).

Definition ioapicwrite (r data : Z) : M ioapic unit :=
  modify (fun s => mkioapic r (regs s) (printed s)) ;;;
  modify (fun s => mkioapic (reg s) (<[reg s := u32 data]> (regs s)) (printed s)).

Definition ioapicinit (ioapicid : Z) : M ioapic unit :=
  let* v := ioapicread REG_VER in
  let maxintr := Z.land (Z.shiftr v 16) 0xFF in
  let* i := ioapicread REG_ID in
  let id := Z.shiftr i 24 in
  when (negb (id =? ioapicid)) (modify (fun s => mkioapic (reg s) (regs s) true)) ;;;
  for_up 0 (maxintr + 1) (fun i =>
    ioapicwrite (REG_TABLE + 2 * i) (Z.lor INT_DISABLED (T_IRQ0 + i)) ;;;
    ioapicwrite (REG_TABLE + 2 * i + 1) 0).

Definition ioapicenable (irq cpunum : Z) : M ioapic unit :=
  ioapicwrite (REG_TABLE + 2 * irq) (T_IRQ0 + irq) ;;;
  ioapicwrite (REG_TABLE + 2 * irq + 1) (Z.shiftl cpunum 24).

(** The entry for line [i]: its configuration and its processor. *)
Definition entry (s : ioapic) (i : Z) : Z * Z := ((regs s).[REG_TABLE + 2 * i], (regs s).[REG_TABLE + 2 * i + 1]).

Definition maxintr (s : ioapic) : Z := Z.land (Z.shiftr (regs s).[REG_VER] 16) 0xFF.

Lemma maxintr_range s : 0 <= maxintr s < 256.
Proof. unfold maxintr. change 255 with (Z.ones 8). rewrite Z.land_ones by lia. apply Z.mod_pos_bound. lia. Qed.

Lemma wp_ioapicwrite r v (Q : unit -> ioapic -> Prop) s :
  Q tt (mkioapic r (<[r := u32 v]> (regs s)) (printed s)) -> wp (ioapicwrite r v) Q s.
Proof. intros HQ. apply wp_bind, wp_modify, wp_modify. exact HQ. Qed.

(** Both registers of an entry. *)
Lemma wp_set_entry i lo hi (Q : unit -> ioapic -> Prop) s :
  (forall s', entry s' i = (u32 lo, u32 hi) -> (forall j, j <> i -> entry s' j = entry s j) -> Q tt s') ->
  wp (ioapicwrite (REG_TABLE + 2 * i) lo ;;; ioapicwrite (REG_TABLE + 2 * i + 1) hi) Q s.
Proof.
  intros HQ. apply wp_bind, wp_ioapicwrite, wp_ioapicwrite, HQ; unfold entry; cbn [regs].
  - by rewrite asel_insert_eq, asel_insert_ne, asel_insert_eq by lia.
  - intros j Hj. by rewrite !asel_insert_ne by lia.
Qed.

Lemma masked_entry i : 0 <= i < 256 -> u32 (Z.lor INT_DISABLED (T_IRQ0 + i)) = INT_DISABLED + T_IRQ0 + i.
Proof. intros Hi. rewrite (lor_aligned 16) by (done || (unfold T_IRQ0; lia)). unfold INT_DISABLED, T_IRQ0. rewrite u32_small; lia. Qed.

Lemma ioapicinit_masks s id : wp (ioapicinit id) (fun _ s' => forall i, 0 <= i <= maxintr s -> entry s' i = (INT_DISABLED + T_IRQ0 + i, 0)) s.
Proof.
  unfold ioapicinit. apply wp_bind, wp_bind, wp_modify, wp_gets. apply wp_bind, wp_bind, wp_modify, wp_gets. cbn [reg regs printed].
  fold (maxintr s). pose proof (maxintr_range s) as Hm.
  apply wp_bind. eapply (wp_mono _ (fun _ _ => True)); [|apply wp_when; intros _; [by apply wp_modify|done]]. intros [] s1 _.
  apply (wp_for_up (fun k s2 => forall i, 0 <= i < k -> entry s2 i = (INT_DISABLED + T_IRQ0 + i, 0))).
  - intros i Hi. lia.
  - intros k s2 Hk IH. apply wp_set_entry. intros s3 E3 O3 i Hi. destruct (decide (i = k)) as [->|Hne].
    + rewrite E3, masked_entry by lia. done.
    + rewrite O3 by done. apply IH. lia.
  - intros s2 Hs i Hi. apply Hs. lia.
Qed.

(** Enabling a line after [ioapicinit] lets that line through, to the given
    processor and with the vector [trap] expects, and leaves the others masked. *)
Lemma ioapic_routes s id irq cpunum : 0 <= irq <= maxintr s -> 0 <= cpunum < 256 ->
  wp (ioapicinit id ;;; ioapicenable irq cpunum) (fun _ s' => forall i, 0 <= i <= maxintr s ->
    entry s' i = if i =? irq then (T_IRQ0 + irq, cpunum * 16777216) else (INT_DISABLED + T_IRQ0 + i, 0)) s.
Proof.
  intros Hi Hc. apply wp_bind. eapply wp_mono; [|apply (ioapicinit_masks s id)]. intros [] s1 H1. apply wp_set_entry. intros s2 E2 O2 i Hr.
  pose proof (maxintr_range s) as Hm. destruct (Z.eqb_spec i irq) as [->|Hne]; [|by rewrite O2, H1].
  rewrite E2, Z.shiftl_mul_pow2 by lia. change (2 ^ 24) with 16777216. unfold T_IRQ0. by rewrite !u32_small by lia.
Qed.

End Ioapic.

(** ** The old controllers *)

Definition IO_PIC1 : Z := 0x20.
Definition IO_PIC2 : Z := 0xA0.

(** [picinit], as the bytes it sends to ports. *)
Definition picinit : list (Z * Z) := [(IO_PIC1 + 1, 0xFF); (IO_PIC2 + 1, 0xFF)].
