(* ===== verification/Boot.v ===== *)
(** * The boot loader ([bootmain.c])

    The loader on the machine as [bootasm.S] leaves it: physical memory and the
    registers of the disk controller.  The disk is a parameter, as are the
    number of polls the controller needs before it is ready. *)

From stdpp Require Import base tactics numbers gmap list.
From Stdlib Require Import ZArith Lia.
From S2P Require Import Prelude Mmu Memory.

Definition SECTSIZE : Z := 512.
Definition ELF_MAGIC : Z := 0x464C457F.
Definition PH_SIZE : Z := 32.

(** Offsets in [struct elfhdr] and [struct proghdr]. *)
Definition EH_MAGIC : Z := 0.
Definition EH_ENTRY : Z := 24.
Definition EH_PHOFF : Z := 28.
Definition EH_PHNUM : Z := 44.
Definition PH_OFF : Z := 4.
Definition PH_PADDR : Z := 12.
Definition PH_FILESZ : Z := 16.
Definition PH_MEMSZ : Z := 20.

(** Memory, the bytes last sent to the controller's ports, and for how many
    polls it is still busy. *)
Record boot := mkboot { ram : memory; ports : arr Z; busy : nat }.

Section Loader.
Context (disk : Z -> Z) (seek : nat).

Definition outb (port v : Z) : M boot unit := modify (fun s =>
  mkboot (ram s) (<[port := u8 v]> (ports s)) (if port =? 0x1F7 then seek else busy s)).

(** The status port. *)
Definition inb_status : M boot Z := fun s =>
  Ret (if (0 <? busy s)%nat then 0x80 else 0x40) (mkboot (ram s) (ports s) (Nat.pred (busy s))).

(** The sector the registers name. *)
Definition lba (s : boot) : Z :=
  (ports s).[0x1F3] + 256 * (ports s).[0x1F4] + 65536 * (ports s).[0x1F5] + 16777216 * Z.land (ports s).[0x1F6] 0xF.

Definition copy_in (m : memory) (dst sect : Z) : memory :=
  foldl (fun m i => store8 m (dst + i) (disk (SECTSIZE * sect + i))) m (seqZ 0 SECTSIZE).

(** [insl] of one sector from the data port: there must have been a command to
    read one sector, and the controller must be ready. *)
Definition insl (dst : Z) : M boot unit := fun s =>
  if ((ports s).[0x1F7] =? 0x20) && ((ports s).[0x1F2] =? 1) && (busy s =? 0)%nat
  then Ret tt (mkboot (copy_in (ram s) dst (lba s)) (ports s) (busy s)) else Undef.

Definition waitdisk (fuel : nat) : M boot unit :=
  iter fuel (fun _ : unit =>
    let* v := inb_status in
    ret (if negb (Z.land v 0xC0 =? 0x40) then inl tt else inr tt)) tt.

Definition readsect (fuel : nat) (dst offset : Z) : M boot unit :=
  waitdisk fuel ;;;
  outb 0x1F2 1 ;;;
  outb 0x1F3 offset ;;;
  outb 0x1F4 (Z.shiftr offset 8) ;;;
  outb 0x1F5 (Z.shiftr offset 16) ;;;
  outb 0x1F6 (Z.lor (Z.shiftr offset 24) 0xE0) ;;;
  outb 0x1F7 0x20 ;;;
  waitdisk fuel ;;;
  insl dst.

Definition readseg (fuel : nat) (pa count offset : Z) : M boot unit :=
  let epa := u32 (pa + count) in
  let pa := u32 (pa - offset mod SECTSIZE) in
  let offset := offset / SECTSIZE + 1 in
  iter fuel (fun '(pa, offset) =>
    if negb (pa <? epa) then ret (inr tt) else
    readsect fuel pa offset ;;;
    ret (inl (u32 (pa + SECTSIZE), u32 (offset + 1)))) (pa, offset).

Definition elf : Z := 0x10000.

Definition rd32 (a : Z) : M boot Z := gets (fun s => load32 (ram s) a).
Definition rd16 (a : Z) : M boot Z := gets (fun s => load8 (ram s) a + 256 * load8 (ram s) (a + 1)).

(** One program header. *)
Definition load_ph (fuel : nat) (ph : Z) : M boot unit :=
  let* pa := rd32 (ph + PH_PADDR) in
  let* filesz := rd32 (ph + PH_FILESZ) in
  let* off := rd32 (ph + PH_OFF) in
  readseg fuel pa filesz off ;;;
  let* memsz := rd32 (ph + PH_MEMSZ) in
  let* filesz := rd32 (ph + PH_FILESZ) in
  when (filesz <? memsz) (modify (fun s =>
    mkboot (StringC.stosb (ram s) (u32 (pa + filesz)) 0 (memsz - filesz)) (ports s) (busy s))).

(** The entry point it calls, or nothing when it returns. *)
Definition bootmain (fuel : nat) : M boot (option Z) :=
  readseg fuel elf 4096 0 ;;;
  let* magic := rd32 (elf + EH_MAGIC) in
  if negb (magic =? ELF_MAGIC) then ret None else
  let* phoff := rd32 (elf + EH_PHOFF) in
  let* phnum := rd16 (elf + EH_PHNUM) in
  let ph := u32 (elf + phoff) in
  let eph := u32 (ph + PH_SIZE * phnum) in
  iter fuel (fun ph =>
    if negb (ph <? eph) then ret (inr tt) else
    load_ph fuel ph ;;;
    ret (inl (u32 (ph + PH_SIZE)))) ph ;;;
  let* entry := rd32 (elf + EH_ENTRY) in
  ret (Some entry).

(** ** Sectors *)

Lemma copy_in_spec m dst sect a : load8 (copy_in m dst sect) a =
  if decide (dst <= a < dst + SECTSIZE) then u8 (disk (SECTSIZE * sect + (a - dst))) else load8 m a.
Proof.
  unfold copy_in. assert (forall n : nat, load8 (foldl (fun m i => store8 m (dst + i) (disk (SECTSIZE * sect + i))) m (seqZ 0 (Z.of_nat n))) a =
    if decide (dst <= a < dst + Z.of_nat n) then u8 (disk (SECTSIZE * sect + (a - dst))) else load8 m a) as Hn.
  { induction n as [|n IH]; [by rewrite decide_False by lia|].
    replace (Z.of_nat (S n)) with (Z.of_nat n + 1) by lia. rewrite seqZ_app, foldl_app by lia. cbn [foldl seqZ fmap list_fmap].
    change (seqZ (0 + Z.of_nat n) 1) with [0 + Z.of_nat n]. cbn [foldl]. rewrite load8_store8, IH.
    repeat case_decide; try lia; try done. subst. do 2 f_equal. lia. }
  exact (Hn 512%nat).
Qed.

Lemma wp_waitdisk fuel : forall s (Q : unit -> boot -> Prop), (busy s < fuel)%nat ->
  Q tt (mkboot (ram s) (ports s) 0) -> wp (waitdisk fuel) Q s.
Proof.
  unfold waitdisk. induction fuel as [|fuel IH]; intros s Q Hb HQ; [lia|]. cbn [iter]. apply wp_bind, wp_bind. unfold wp, inb_status.
  destruct (Nat.ltb_spec 0 (busy s)) as [H0|H0]; apply wp_ret; cbn [Z.land Pos.land Z.eqb Pos.eqb negb].
  - apply IH; cbn; [lia|exact HQ].
  - apply wp_ret. by replace (Nat.pred (busy s)) with 0%nat by lia.
Qed.

Lemma lba_of offset : 0 <= offset < 268435456 ->
  u8 offset + 256 * u8 (Z.shiftr offset 8) + 65536 * u8 (Z.shiftr offset 16) + 16777216 * Z.land (u8 (Z.lor (Z.shiftr offset 24) 0xE0)) 0xF = offset.
Proof.
  intros Ho. rewrite !Z.shiftr_div_pow2 by lia. change (2 ^ 8) with 256. change (2 ^ 16) with 65536. change (2 ^ 24) with 16777216.
  pose proof (Z.div_lt_upper_bound offset 16777216 16 ltac:(lia) ltac:(lia)). pose proof (Z.div_pos offset 16777216 ltac:(lia) ltac:(lia)).
  rewrite Z.lor_comm, (lor_aligned 4) by (done || lia). unfold u8. rewrite (Z.mod_small (0xE0 + _)) by lia.
  change 15 with (Z.ones 4). rewrite Z.land_ones by lia. change (2 ^ 4) with 16.
  replace ((0xE0 + offset / 16777216) mod 16) with (offset / 16777216) by (apply Z.mod_unique with 14; lia).
  pose proof (Z.div_mod offset 256 ltac:(lia)). pose proof (Z.div_mod (offset / 256) 256 ltac:(lia)).
  pose proof (Z.div_mod (offset / 65536) 256 ltac:(lia)). rewrite !Z.div_div in * by lia. change (256 * 256) with 65536 in *.
  change (65536 * 256) with 16777216 in *. lia.
Qed.

Lemma wp_readsect fuel dst off s (Q : unit -> boot -> Prop) : (busy s < fuel)%nat -> (seek < fuel)%nat -> 0 <= off < 268435456 ->
  (forall s', ram s' = copy_in (ram s) dst off -> busy s' = 0%nat -> Q tt s') -> wp (readsect fuel dst off) Q s.
Proof.
  intros Hb Hs Ho HQ. unfold readsect. apply wp_bind, wp_waitdisk; [done|]. do 6 (apply wp_bind, wp_modify; cbn [ram ports busy]).
  cbn [Z.eqb Pos.eqb]. apply wp_bind, wp_waitdisk; cbn [ram ports busy]; [done|]. unfold wp, insl. cbn [ram ports busy].
  rewrite asel_insert_eq, !(asel_insert_ne _ _ 0x1F2), asel_insert_eq by done. cbn. apply HQ; [|done]. cbn [ram]. f_equal. unfold lba. cbn [ports].
  repeat (rewrite asel_insert_eq || rewrite asel_insert_ne by done). by apply lba_of.
Qed.

(** The loop of [readseg], for [n] sectors. *)
Lemma wp_read_loop fuel epa : (seek < fuel)%nat -> forall f n pa off s (Q : unit -> boot -> Prop), (busy s < fuel)%nat -> (n < f)%nat ->
  0 <= pa -> pa + SECTSIZE * Z.of_nat n < 4294967296 -> 0 <= off -> off + Z.of_nat n < 268435456 ->
  epa <= pa + SECTSIZE * Z.of_nat n -> (n <> 0%nat -> pa + SECTSIZE * Z.of_nat (Nat.pred n) < epa) ->
  (forall s', (busy s' < fuel)%nat -> (forall a, load8 (ram s') a =
     if decide (pa <= a < pa + SECTSIZE * Z.of_nat n) then u8 (disk (SECTSIZE * off + (a - pa))) else load8 (ram s) a) -> Q tt s') ->
  wp (iter f (fun '(pa, offset) =>
    if negb (pa <? epa) then ret (inr tt) else
    readsect fuel pa offset ;;;
    ret (inl (u32 (pa + SECTSIZE), u32 (offset + 1)))) (pa, off)) Q s.
Proof.
  intros Hk. induction f as [|f IH]; intros n pa off s Q Hb Hf Hp Hp' Ho Ho' He Hn HQ; [lia|]. cbn [iter]. apply wp_bind.
  unfold SECTSIZE in *. destruct n as [|n].
  - rewrite (proj2 (Z.ltb_ge pa epa)) by lia. cbn [negb]. apply wp_ret, wp_ret. apply HQ; [done|]. intros a. by rewrite decide_False by lia.
  - specialize (Hn ltac:(done)). cbn [Nat.pred] in Hn. rewrite (proj2 (Z.ltb_lt pa epa)) by lia. cbn [negb].
    apply wp_bind, wp_readsect; [done|done|lia|]. intros s1 E1 B1. apply wp_ret. rewrite !u32_small by lia.
    apply (IH n); [lia..| |].
    { intros Hn0. destruct n as [|n]; [done|]. cbn [Nat.pred]. lia. }
    intros s2 B2 E2. apply HQ; [done|]. intros a. rewrite E2, E1, copy_in_spec. unfold SECTSIZE. repeat case_decide; try lia; try done.
    do 2 f_equal. lia.
Qed.

(** The bytes of the kernel's file, from sector 1 on. *)
Definition file (i : Z) : Z := u8 (disk (SECTSIZE + i)).

(** The memory [readseg] writes: whole sectors. *)
Definition window_lo (pa off : Z) : Z := pa - off mod SECTSIZE.
Definition window_n (pa count off : Z) : Z := (count + off mod SECTSIZE + SECTSIZE - 1) / SECTSIZE.
Definition window_hi (pa count off : Z) : Z := window_lo pa off + SECTSIZE * window_n pa count off.

Lemma window_covers pa count off : 0 <= count -> 0 <= off ->
  window_lo pa off <= pa /\ pa + count <= window_hi pa count off /\ 0 <= window_n pa count off /\
  (window_n pa count off <> 0 -> window_hi pa count off - SECTSIZE < pa + count).
Proof.
  intros Hc Ho. unfold window_hi, window_lo, window_n, SECTSIZE. pose proof (Z.mod_pos_bound off 512 ltac:(lia)).
  pose proof (Z.div_mod (count + off mod 512 + 512 - 1) 512 ltac:(lia)). pose proof (Z.mod_pos_bound (count + off mod 512 + 512 - 1) 512 ltac:(lia)).
  pose proof (Z.div_pos (count + off mod 512 + 512 - 1) 512 ltac:(lia) ltac:(lia)). lia.
Qed.

(** [readseg] fills its window from the file. *)
Lemma wp_readseg fuel pa count off s (Q : unit -> boot -> Prop) : (seek < fuel)%nat -> (busy s < fuel)%nat ->
  0 <= count -> 0 <= off -> 0 <= window_lo pa off -> window_hi pa count off < 4294967296 -> off / SECTSIZE + 1 + window_n pa count off < 268435456 ->
  (Z.to_nat (window_n pa count off) < fuel)%nat ->
  (forall s', (busy s' < fuel)%nat -> (forall a, load8 (ram s') a =
     if decide (window_lo pa off <= a < window_hi pa count off) then file (off + (a - pa)) else load8 (ram s) a) -> Q tt s') ->
  wp (readseg fuel pa count off) Q s.
Proof.
  intros Hk Hb Hc Ho Hlo Hhi Hs Hf HQ. destruct (window_covers pa count off Hc Ho) as (W1 & W2 & W3 & W4).
  unfold readseg. cbv zeta. fold (window_lo pa off). rewrite !u32_small by (unfold window_hi, SECTSIZE in *; lia).
  pose proof (Z.div_pos off SECTSIZE Ho ltac:(done)).
  apply (wp_read_loop fuel (pa + count) Hk fuel (Z.to_nat (window_n pa count off))); rewrite ?Z2Nat.id by done; try lia; try done.
  - intros Hn. rewrite Nat2Z.inj_pred, Z2Nat.id by lia. specialize (W4 ltac:(lia)). unfold window_hi, SECTSIZE in *. lia.
  - intros s' B E. apply HQ; [done|]. intros a. rewrite E. fold (window_hi pa count off). case_decide; [|done]. unfold file. do 2 f_equal.
    unfold window_lo in *. pose proof (Z.div_mod off SECTSIZE ltac:(done)). lia.
Qed.

(** ** The kernel's file *)

Definition fword (o : Z) : Z := file o + 256 * file (o + 1) + 65536 * file (o + 2) + 16777216 * file (o + 3).

Definition phoff : Z := fword EH_PHOFF.
Definition phnum : Z := file EH_PHNUM + 256 * file (EH_PHNUM + 1).

(** What the header of segment [k] says. *)
Definition ph_word (k o : Z) : Z := fword (phoff + PH_SIZE * k + o).
Definition seg_pa (k : Z) : Z := ph_word k PH_PADDR.
Definition seg_off (k : Z) : Z := ph_word k PH_OFF.
Definition seg_filesz (k : Z) : Z := ph_word k PH_FILESZ.
Definition seg_memsz (k : Z) : Z := ph_word k PH_MEMSZ.

(** The memory loading segment [k] may write, and what the segment is to fill. *)
Definition writes (k a : Z) : Prop :=
  window_lo (seg_pa k) (seg_off k) <= a < Z.max (window_hi (seg_pa k) (seg_filesz k) (seg_off k)) (seg_pa k + seg_memsz k).
Definition covers (k a : Z) : Prop := seg_pa k <= a < seg_pa k + Z.max (seg_filesz k) (seg_memsz k).

(** A file the loader can load: its headers are in the first page, loading a
    segment stays off that page and off the segments loaded before it. *)
Record loadable (fuel : nat) : Prop := {
  ld_magic : fword EH_MAGIC = ELF_MAGIC;
  ld_headers : phoff + PH_SIZE * phnum <= 4096;
  ld_fit : forall k, 0 <= k < phnum -> 0 <= window_lo (seg_pa k) (seg_off k) /\ seg_pa k + seg_memsz k < 4294967296 /\
    window_hi (seg_pa k) (seg_filesz k) (seg_off k) < 4294967296 /\
    seg_off k / SECTSIZE + 1 + window_n (seg_pa k) (seg_filesz k) (seg_off k) < 268435456 /\
    (Z.to_nat (window_n (seg_pa k) (seg_filesz k) (seg_off k)) < fuel)%nat;
  ld_scratch : forall k a, 0 <= k < phnum -> writes k a -> ~ (elf <= a < elf + 4096);
  ld_order : forall j k a, 0 <= j < k -> k < phnum -> writes k a -> ~ covers j a;
  ld_fuel : (seek < fuel)%nat /\ (8 < fuel)%nat /\ (Z.to_nat phnum < fuel)%nat
}.

(** Segment [k] is in memory: its bytes from the file, and zeroes after them. *)
Definition seg_loaded (m : memory) (k : Z) : Prop :=
  forall i, 0 <= i < Z.max (seg_filesz k) (seg_memsz k) ->
    load8 m (seg_pa k + i) = if decide (i < seg_filesz k) then file (seg_off k + i) else 0.

Definition headers_in (m : memory) : Prop := forall i, 0 <= i < 4096 -> load8 m (elf + i) = file i.

Lemma file_range o : 0 <= file o < 256.
Proof. apply u8_range. Qed.

Lemma fword_range o : 0 <= fword o < 4294967296.
Proof. unfold fword. pose proof (file_range o). pose proof (file_range (o + 1)). pose proof (file_range (o + 2)). pose proof (file_range (o + 3)). lia. Qed.

Lemma header_word m o : headers_in m -> 0 <= o -> o + 4 <= 4096 -> load32 m (elf + o) = fword o.
Proof. intros Hm H1 H2. unfold load32, fword. rewrite <- !Z.add_assoc, !Hm by lia. done. Qed.

(** One program header. *)
Lemma wp_load_ph fuel k s (Q : unit -> boot -> Prop) : loadable fuel -> 0 <= k < phnum -> headers_in (ram s) -> (busy s < fuel)%nat ->
  (forall s', (busy s' < fuel)%nat -> seg_loaded (ram s') k -> (forall a, ~ writes k a -> load8 (ram s') a = load8 (ram s) a) -> Q tt s') ->
  wp (load_ph fuel (elf + (phoff + PH_SIZE * k))) Q s.
Proof.
  intros Hl Hk Hh Hb HQ. destruct (ld_fit _ Hl k Hk) as (F1 & F2 & F3 & F4 & F5). pose proof (ld_headers _ Hl) as Hhd.
  pose proof (fword_range EH_PHOFF) as Hpo. fold phoff in Hpo. pose proof (fword_range (phoff + PH_SIZE * k + PH_FILESZ)) as Hfs. fold (ph_word k PH_FILESZ) in Hfs. fold (seg_filesz k) in Hfs.
  pose proof (fword_range (phoff + PH_SIZE * k + PH_MEMSZ)) as Hms. fold (ph_word k PH_MEMSZ) in Hms. fold (seg_memsz k) in Hms.
  pose proof (fword_range (phoff + PH_SIZE * k + PH_OFF)) as Hof. fold (ph_word k PH_OFF) in Hof. fold (seg_off k) in Hof.
  assert (forall m o, headers_in m -> 0 <= o <= 28 -> load32 m (elf + (phoff + PH_SIZE * k) + o) = ph_word k o) as W.
  { intros m o Hm Ho. rewrite <- Z.add_assoc. unfold PH_SIZE in *. rewrite header_word by (done || lia). done. }
  unfold load_ph. do 3 apply wp_bind, wp_gets. rewrite !W by done. fold (seg_pa k) (seg_filesz k) (seg_off k). apply wp_bind.
  destruct (window_covers (seg_pa k) (seg_filesz k) (seg_off k) ltac:(lia) ltac:(lia)) as (W1 & W2 & W3 & _).
  apply wp_readseg; [apply Hl|done|lia|lia|done|done|done|done|]. intros s1 B1 E1.
  assert (headers_in (ram s1)) as Hh1.
  { intros i Hi. rewrite E1, decide_False by (intros Ha; apply (ld_scratch _ Hl k (elf + i) Hk); [unfold writes|]; lia). by apply Hh. }
  do 2 apply wp_bind, wp_gets. rewrite !W by done. fold (seg_memsz k) (seg_filesz k). apply wp_when.
  - intros Hlt%Z.ltb_lt. apply wp_modify. rewrite u32_small by lia. unfold StringC.stosb. apply HQ; [done| |]; cbn [ram].
    + intros i Hi. rewrite StringC.load8_stosb_n, Z2Nat.id, E1 by lia. repeat case_decide; try lia; try done. f_equal. lia.
    + intros a Ha. unfold writes in Ha. rewrite StringC.load8_stosb_n, Z2Nat.id, E1, !decide_False by lia. done.
  - intros Hge%Z.ltb_ge. apply HQ; [done| |].
    + intros i Hi. rewrite E1. repeat case_decide; try lia; try done. f_equal. lia.
    + intros a Ha. unfold writes in Ha. rewrite E1, decide_False by lia. done.
Qed.

(** The state after the first [k] segments. *)
Record loaded (fuel : nat) (k : Z) (s : boot) : Prop := {
  lo_busy : (busy s < fuel)%nat;
  lo_headers : headers_in (ram s);
  lo_segs : forall j, 0 <= j < k -> seg_loaded (ram s) j
}.

Lemma loaded_step fuel k s s' : loadable fuel -> 0 <= k < phnum -> loaded fuel k s -> (busy s' < fuel)%nat -> seg_loaded (ram s') k ->
  (forall a, ~ writes k a -> load8 (ram s') a = load8 (ram s) a) -> loaded fuel (k + 1) s'.
Proof.
  intros Hl Hk [H1 H2 H3] Hb Hs Ho. split; [done| |].
  - intros i Hi. rewrite Ho; [by apply H2|]. intros Hw. apply (ld_scratch _ Hl k _ Hk Hw). lia.
  - intros j Hj. destruct (decide (j = k)) as [->|Hne]; [done|]. intros i Hi. rewrite Ho; [apply H3; lia|].
    intros Hw. apply (ld_order _ Hl j k _ ltac:(lia) ltac:(lia) Hw). unfold covers. lia.
Qed.

Lemma phnum_range : 0 <= phnum.
Proof. unfold phnum. pose proof (file_range EH_PHNUM). pose proof (file_range (EH_PHNUM + 1)). lia. Qed.

Lemma wp_ph_loop fuel : loadable fuel -> forall f k s (Q : unit -> boot -> Prop), 0 <= k <= phnum -> (Z.to_nat (phnum - k) < f)%nat -> loaded fuel k s ->
  (forall s', loaded fuel phnum s' -> Q tt s') ->
  wp (iter f (fun ph =>
    if negb (ph <? elf + (phoff + PH_SIZE * phnum)) then ret (inr tt) else
    load_ph fuel ph ;;;
    ret (inl (u32 (ph + PH_SIZE)))) (elf + (phoff + PH_SIZE * k))) Q s.
Proof.
  intros Hl. pose proof (ld_headers _ Hl) as Hhd. pose proof (fword_range EH_PHOFF) as Hpo. fold phoff in Hpo. assert (elf = 65536) as Ee by done. unfold PH_SIZE in *.
  induction f as [|f IH]; intros k s Q Hk Hf Hs HQ; [lia|]. cbn [iter]. apply wp_bind. destruct (decide (k = phnum)) as [->|Hne].
  - rewrite Z.ltb_irrefl. cbn [negb]. apply wp_ret, wp_ret. by apply HQ.
  - rewrite (proj2 (Z.ltb_lt _ _)) by lia. cbn [negb]. apply wp_bind, wp_load_ph; [done|lia|apply Hs|apply Hs|]. intros s1 B1 S1 O1.
    apply wp_ret. rewrite u32_small by lia.
    replace (elf + (phoff + 32 * k) + 32) with (elf + (phoff + 32 * (k + 1))) by lia.
    apply IH; [lia|lia| |done]. apply (loaded_step fuel k s); done || lia.
Qed.

(** C39: The boot loader, given a kernel file it can load, enters the kernel at
    the entry point the file names, with every segment in memory where its header
    says: the bytes of the file, although only whole sectors are read, and zeroes
    up to its size in memory.  A file without the magic number is refused. *)
Theorem bootmain_loads fuel s : (seek < fuel)%nat -> (8 < fuel)%nat -> (busy s < fuel)%nat ->
  (fword EH_MAGIC <> ELF_MAGIC -> wp (bootmain fuel) (fun r _ => r = None) s) /\
  (loadable fuel -> wp (bootmain fuel) (fun r s' => r = Some (fword EH_ENTRY) /\ forall k, 0 <= k < phnum -> seg_loaded (ram s') k) s).
Proof.
  intros Hk H8 Hb. assert (forall Q : option Z -> boot -> Prop, (forall s1, (busy s1 < fuel)%nat -> headers_in (ram s1) -> wp
    (let* magic := rd32 (elf + EH_MAGIC) in
     if negb (magic =? ELF_MAGIC) then ret None else
     let* phoff := rd32 (elf + EH_PHOFF) in
     let* phnum := rd16 (elf + EH_PHNUM) in
     let ph := u32 (elf + phoff) in
     let eph := u32 (ph + PH_SIZE * phnum) in
     iter fuel (fun ph => if negb (ph <? eph) then ret (inr tt) else load_ph fuel ph ;;; ret (inl (u32 (ph + PH_SIZE)))) ph ;;;
     let* entry := rd32 (elf + EH_ENTRY) in
     ret (Some entry)) Q s1) -> wp (bootmain fuel) Q s) as Hstart.
  { intros Q HQ. apply wp_bind, wp_readseg; [exact Hk|exact Hb|lia|lia|done|done|done|change (Z.to_nat (window_n elf 4096 0)) with 8%nat; lia|].
    intros s1 B1 E1. apply HQ; [done|]. intros i Hi. rewrite E1, decide_True by (change (elf <= elf + i < elf + 4096); lia). f_equal. lia. }
  split; [intros Hm|intros Hl]; apply Hstart; intros s1 B1 H1; apply wp_bind, wp_gets; rewrite header_word by done.
  - rewrite (proj2 (Z.eqb_neq _ _) Hm). by apply wp_ret.
  - rewrite (ld_magic _ Hl), Z.eqb_refl. cbn [negb]. do 2 apply wp_bind, wp_gets. rewrite header_word by done. fold phoff.
    assert (load8 (ram s1) (elf + EH_PHNUM) + 256 * load8 (ram s1) (elf + EH_PHNUM + 1) = phnum) as -> by (rewrite <- Z.add_assoc, !H1 by done; done).
    pose proof (ld_headers _ Hl) as Hhd. pose proof phnum_range. pose proof (fword_range EH_PHOFF) as Hpo. fold phoff in Hpo. assert (elf = 65536) as Ee by done.
    cbv zeta. unfold PH_SIZE in Hhd. rewrite (u32_small (elf + phoff)), u32_small by (unfold PH_SIZE; lia).
    replace (elf + phoff + PH_SIZE * phnum) with (elf + (phoff + PH_SIZE * phnum)) by lia.
    replace (elf + phoff) with (elf + (phoff + PH_SIZE * 0)) by lia.
    apply wp_bind, (wp_ph_loop fuel Hl); [lia|rewrite Z.sub_0_r; apply Hl|split; [done|done|lia]|].
    intros s2 [_ H2 H3]. apply wp_bind, wp_gets. rewrite header_word by done. apply wp_ret. done.
Qed.

End Loader.

(** ** A kernel *)

(** Two segments: 700 bytes at 1 MB, with zeroes up to 5000, and 300 bytes at
    12 KB above it that do not start on a sector. *)
Definition demo_word (w : Z) : Z :=
  match w with
  | 0 => ELF_MAGIC | 6 => 0x10000C | 7 => 52 | 11 => 2
  | 14 => 4096 | 16 => 0x100000 | 17 => 700 | 18 => 5000
  | 22 => 8292 | 24 => 0x103000 | 25 => 300 | 26 => 300
  | _ => 90
  end.
Definition demo_disk (o : Z) : Z := demo_word ((o - 512) / 4) / 256 ^ ((o - 512) mod 4).

Lemma demo_segs : phoff demo_disk = 52 /\ phnum demo_disk = 2 /\
  (seg_pa demo_disk 0 = 1048576 /\ seg_off demo_disk 0 = 4096 /\ seg_filesz demo_disk 0 = 700 /\ seg_memsz demo_disk 0 = 5000) /\
  (seg_pa demo_disk 1 = 1060864 /\ seg_off demo_disk 1 = 8292 /\ seg_filesz demo_disk 1 = 300 /\ seg_memsz demo_disk 1 = 300).
Proof. vm_compute. auto 10. Qed.

Lemma demo_loadable : loadable demo_disk 3 20.
Proof.
  destruct demo_segs as (Ep & En & (A1 & A2 & A3 & A4) & (B1 & B2 & B3 & B4)).
  assert (forall k, 0 <= k < 2 -> k = 0 \/ k = 1) as Hk by lia.
  assert (window_lo 1048576 4096 = 1048576 /\ window_hi 1048576 700 4096 = 1049600 /\ window_n 1048576 700 4096 = 2) as (L0 & H0 & N0) by (split_and!; reflexivity).
  assert (window_lo 1060864 8292 = 1060764 /\ window_hi 1060864 300 8292 = 1061276 /\ window_n 1060864 300 8292 = 1) as (L1 & H1 & N1) by (split_and!; reflexivity).
  split; rewrite ?En, ?Ep; [vm_compute; reflexivity|unfold PH_SIZE; lia| | | |split; [lia|split; [lia|change (2 < 20)%nat; lia]]].
  - intros k [->| ->]%Hk; [rewrite A1, A2, A3, A4, L0, H0, N0|rewrite B1, B2, B3, B4, L1, H1, N1]; (split; [lia|split; [lia|split; [lia|split; [reflexivity|apply Nat.ltb_lt; reflexivity]]]]).
  - intros k a [->| ->]%Hk; unfold writes, elf; [rewrite A1, A2, A3, A4, L0, H0|rewrite B1, B2, B3, B4, L1, H1]; lia.
  - intros j k a Hj Hk2. assert (j = 0 /\ k = 1) as [-> ->] by lia. unfold writes, covers. rewrite A1, A3, A4, B1, B2, B3, B4, L1, H1. lia.
Qed.

Lemma bootmain_loads_witness : wp (bootmain demo_disk 3 20) (fun r s' => r = Some 0x10000C /\ load8 (ram s') 1048576 = 90 /\ load8 (ram s') 1053575 = 0) (mkboot ∅ ∅ 2).
Proof.
  destruct (bootmain_loads demo_disk 3 20 (mkboot ∅ ∅ 2)) as [_ Hl]; [lia|lia|cbn; lia|]. eapply wp_mono; [|apply Hl, demo_loadable].
  destruct demo_segs as (Ep & En & (A1 & A2 & A3 & A4) & _). intros r s' [-> Hs]. split; [reflexivity|].
  specialize (Hs 0 ltac:(lia)). unfold seg_loaded in Hs. rewrite A1, A2, A3, A4 in Hs. split.
  - rewrite <- (Z.add_0_r 1048576), (Hs 0) by lia. reflexivity.
  - change 1053575 with (1048576 + 4999). rewrite (Hs 4999) by lia. reflexivity.
Defined.
