(* ===== verification/User.v ===== *)
(** * Small user programs ([cat.c], [wc.c], [echo.c], [ls.c], [rm.c],
    [mkdir.c], [ln.c], [kill.c], [zombie.c], [init.c], [stat] of [ulib.c], and
    [ipcs.c], [ipcmk.c], [ipcrm.c], [shmat.c])

    A program is a tree of system calls.  What the calls answer is a handler, so
    that the same program can be run on a world of files or on the model of
    shared memory. *)

From stdpp Require Import base tactics numbers gmap strings list.
From Stdlib Require Import ZArith Lia.
From S2P Require Import Prelude Mmu Shm Format.

(** ** Programs *)

(** What [fstat] fills in. *)
Record ustat := mkustat { st_type : Z; st_ino : Z; st_size : Z }.

(** The calls, with the type of their answer.  [read] answers with the bytes it
    put in the buffer, or nothing for -1; [shmctl] also with the structure it
    was given, as it left it. *)
Inductive call : Type -> Type :=
| Read (fd n : Z) : call (option (list Z))
| Write (fd : Z) (bytes : list Z) : call Z
| Open (path : list Z) (mode : Z) : call Z
| Close (fd : Z) : call Z
| Fstat (fd : Z) : call (option ustat)
| Mknod (path : list Z) (major minor : Z) : call Z
| Unlink (path : list Z) : call Z
| Link (old new : list Z) : call Z
| Mkdir (path : list Z) : call Z
| Dup (fd : Z) : call Z
| Fork : call Z
| Wait : call Z
| Kill (pid : Z) : call Z
| Exec (path : list Z) (argv : list (list Z)) : call Z
| Sleep (n : Z) : call Z
| Shminfo : call unit
| Shmget (key size flag : Z) : call Z
| Shmat (id addr flag : Z) : call Z
| Shmdt (addr : Z) : call Z
| Shmctl (id cmd : Z) (buf : shmid_ds) : call (Z * shmid_ds)
| Removeshm (id flag : Z) : call Z.

(** [Spin] is a loop that has used up its fuel. *)
Inductive user (A : Type) : Type :=
| Done (a : A)
| Exit
| Spin
| Call {X : Type} (c : call X) (k : X -> user A).

Arguments Done {A} a.
Arguments Exit {A}.
Arguments Spin {A}.
Arguments Call {A X} c k.

Fixpoint ubind {A B} (p : user A) (f : A -> user B) : user B :=
  match p with
  | Done a => f a
  | Exit => Exit
  | Spin => Spin
  | Call c k => Call c (fun x => ubind (k x) f)
  end.

Declare Scope user_scope.
Delimit Scope user_scope with user.
Notation "'let%' x ':=' c 'in' k" := (Call c (fun x => k)) (at level 10, x name, c at level 100, k at level 200) : user_scope.
Notation "p ';;%' q" := (ubind p (fun _ => q)) (at level 199, right associativity) : user_scope.
Open Scope user_scope.

(** A loop over the arguments. *)
Fixpoint each {A} (l : list A) (f : A -> user unit) : user unit :=
  match l with
  | [] => Done tt
  | x :: l => f x ;;% each l f
  end.

(** The bytes of a literal. *)
Fixpoint chars (s : string) : list Z :=
  match s with
  | EmptyString => []
  | String c s => Z.of_N (Ascii.N_of_ascii c) :: chars s
  end.

Definition NL : Z := 10.

(** [printf] sends its output byte by byte. *)
Definition uprintf (fd : Z) (fmt : list Z) (args : list parg) : user unit :=
  each (printf fmt args) (fun c => Call (Write fd [c]) (fun _ => Done tt)).

Definition say (fd : Z) (fmt : string) (args : list (list Z)) : user unit :=
  uprintf fd (chars fmt ++ [NL]) ((fun a => PStr (Some a)) <$> args).

(** ** The programs *)

Definition O_RDONLY : Z := 0.
Definition O_RDWR : Z := 2.

(** [cat.c] *)
Fixpoint cat (fuel : nat) (fd : Z) : user unit :=
  match fuel with
  | O => Spin
  | S fuel' =>
      let% r := Read fd 512 in
      match r with
      | None => say 1 "cat: read error" [] ;;% Exit
      | Some [] => Done tt
      | Some b =>
          let% n := Write 1 b in
          if negb (n =? Z.of_nat (length b)) then say 1 "cat: write error" [] ;;% Exit else cat fuel' fd
      end
  end.

Definition cat_main (fuel : nat) (args : list (list Z)) : user unit :=
  match args with
  | [] => cat fuel 0 ;;% Exit
  | _ =>
      each args (fun a =>
        let% fd := Open a 0 in
        if fd <? 0 then say 1 "cat: cannot open %s" [a] ;;% Exit else
        cat fuel fd ;;%
        Call (Close fd) (fun _ => Done tt)) ;;%
      Exit
  end.

(** [wc.c]: lines, words, characters, and whether in a word. *)
Record counts := mkcounts { c_l : Z; c_w : Z; c_c : Z; inword : bool }.

Definition spaces : list Z := [32; 13; 9; 10; 11].

Definition wc_char (k : counts) (b : Z) : counts :=
  let c := i32 (c_c k + 1) in
  let l := if b =? NL then i32 (c_l k + 1) else c_l k in
  match strchr spaces b with
  | Some _ => mkcounts l (c_w k) c false
  | None => if negb (inword k) then mkcounts l (i32 (c_w k + 1)) c true else mkcounts l (c_w k) c (inword k)
  end.

Definition wc_print (k : counts) (name : list Z) : user unit :=
  uprintf 1 (chars "%d %d %d %s" ++ [NL]) [PInt (c_l k); PInt (c_w k); PInt (c_c k); PStr (Some name)].

Fixpoint wc (fuel : nat) (fd : Z) (name : list Z) (k : counts) : user unit :=
  match fuel with
  | O => Spin
  | S fuel' =>
      let% r := Read fd 512 in
      match r with
      | None => say 1 "wc: read error" [] ;;% Exit
      | Some [] => wc_print k name
      | Some b => wc fuel' fd name (foldl wc_char k b)
      end
  end.

Definition wc_start : counts := mkcounts 0 0 0 false.

Definition wc_main (fuel : nat) (args : list (list Z)) : user unit :=
  match args with
  | [] => wc fuel 0 [] wc_start ;;% Exit
  | _ =>
      each args (fun a =>
        let% fd := Open a 0 in
        if fd <? 0 then say 1 "wc: cannot open %s" [a] ;;% Exit else
        wc fuel fd a wc_start ;;%
        Call (Close fd) (fun _ => Done tt)) ;;%
      Exit
  end.

(** [echo.c] *)
Fixpoint echo_args (args : list (list Z)) : user unit :=
  match args with
  | [] => Done tt
  | a :: args' =>
      uprintf 1 (chars "%s%s") [PStr (Some a); PStr (Some (match args' with [] => [NL] | _ => [32] end))] ;;%
      echo_args args'
  end.

Definition echo_main (args : list (list Z)) : user unit := echo_args args ;;% Exit.

(** [ls.c] *)
Definition DIRSIZ : nat := 14.
Definition SLASH : Z := 47.
Definition T_DIR : Z := 1.
Definition T_FILE : Z := 2.

(** What is after the last slash. *)
Fixpoint basename (path : list Z) : list Z :=
  match path with
  | [] => []
  | c :: p => if existsb (Z.eqb SLASH) p then basename p else if c =? SLASH then p else path
  end.

Definition fmtname (path : list Z) : list Z :=
  let p := basename path in
  if (DIRSIZ <=? length p)%nat then p else p ++ replicate (DIRSIZ - length p) 32.

(** [stat] of [ulib.c] *)
Definition stat (path : list Z) (k : option ustat -> user unit) : user unit :=
  let% fd := Open path O_RDONLY in
  if fd <? 0 then k None else
  let% r := Fstat fd in
  let% _ := Close fd in
  k r.

Definition ls_print (path : list Z) (st : ustat) : user unit :=
  uprintf 1 (chars "%s %d %d %d" ++ [NL]) [PStr (Some (fmtname path)); PInt (st_type st); PInt (st_ino st); PInt (st_size st)].

(** The bytes of a name up to its NUL. *)
Fixpoint until_nul (l : list Z) : list Z :=
  match l with
  | [] => []
  | c :: l => if c =? 0 then [] else c :: until_nul l
  end.

Fixpoint ls_dir (fuel : nat) (fd : Z) (path : list Z) : user unit :=
  match fuel with
  | O => Spin
  | S fuel' =>
      let% r := Read fd 16 in
      match r with
      | None => Done tt
      | Some de =>
          if negb (length de =? 16)%nat then Done tt else
          if nth 0 de 0 + 256 * nth 1 de 0 =? 0 then ls_dir fuel' fd path else
          let buf := path ++ [SLASH] ++ until_nul (take DIRSIZ (drop 2 de)) in
          stat buf (fun st =>
            match st with
            | None => say 1 "ls: cannot stat %s" [buf]
            | Some st => ls_print buf st
            end ;;% ls_dir fuel' fd path)
      end
  end.

Definition ls (fuel : nat) (path : list Z) : user unit :=
  let% fd := Open path 0 in
  if fd <? 0 then say 2 "ls: cannot open %s" [path] else
  let% st := Fstat fd in
  match st with
  | None => say 2 "ls: cannot stat %s" [path] ;;% Call (Close fd) (fun _ => Done tt)
  | Some st =>
      (if st_type st =? T_FILE then ls_print path st
       else if st_type st =? T_DIR then
         if (512 <? length path + 1 + DIRSIZ + 1)%nat then say 1 "ls: path too long" [] else ls_dir fuel fd path
       else Done tt) ;;%
      Call (Close fd) (fun _ => Done tt)
  end.

Definition ls_main (fuel : nat) (args : list (list Z)) : user unit :=
  match args with
  | [] => ls fuel [46] ;;% Exit
  | _ => each args (ls fuel) ;;% Exit
  end.

(** [rm.c] and [mkdir.c]: the first failure ends the loop. *)
Fixpoint until_failure (args : list (list Z)) (c : list Z -> call Z) (msg : string) : user unit :=
  match args with
  | [] => Done tt
  | a :: args' => Call (c a) (fun r => if r <? 0 then say 2 msg [a] else until_failure args' c msg)
  end.

Definition rm_main (args : list (list Z)) : user unit :=
  match args with
  | [] => say 2 "Usage: rm files..." [] ;;% Exit
  | _ => until_failure args Unlink "rm: %s failed to delete" ;;% Exit
  end.

Definition mkdir_main (args : list (list Z)) : user unit :=
  match args with
  | [] => say 2 "Usage: mkdir files..." [] ;;% Exit
  | _ => until_failure args Mkdir "mkdir: %s failed to create" ;;% Exit
  end.

(** [ln.c] *)
Definition ln_main (args : list (list Z)) : user unit :=
  match args with
  | [old; new] =>
      let% r := Link old new in
      (if r <? 0 then say 2 "link %s %s: failed" [old; new] else Done tt) ;;% Exit
  | _ => say 2 "Usage: ln old new" [] ;;% Exit
  end.

(** [kill.c] *)
Definition kill_main (args : list (list Z)) : user unit :=
  match args with
  | [] => say 2 "usage: kill pid..." [] ;;% Exit
  | _ => each args (fun a => Call (Kill (atoi a)) (fun _ => Done tt)) ;;% Exit
  end.

(** [zombie.c] *)
Definition zombie_main : user unit :=
  let% pid := Fork in
  if 0 <? pid then Call (Sleep 5) (fun _ => Exit) else Exit.

(** [init.c]: the loop that waits for the shell, and the loop that starts it. *)
Fixpoint reap (fuel : nat) (pid : Z) : user unit :=
  match fuel with
  | O => Spin
  | S fuel' =>
      let% wpid := Wait in
      if (0 <=? wpid) && negb (wpid =? pid) then say 1 "zombie!" [] ;;% reap fuel' pid else Done tt
  end.

Fixpoint init_loop (fuel : nat) : user unit :=
  match fuel with
  | O => Spin
  | S fuel' =>
      say 1 "init: starting sh" [] ;;%
      let% pid := Fork in
      if pid <? 0 then say 1 "init: fork failed" [] ;;% Exit else
      if pid =? 0 then
        let% _ := Exec (chars "sh") [chars "sh"] in
        say 1 "init: exec sh failed" [] ;;% Exit
      else reap fuel' pid ;;% init_loop fuel'
  end.

Definition init_main (fuel : nat) : user unit :=
  let% fd := Open (chars "console") O_RDWR in
  (if fd <? 0 then
     let% _ := Mknod (chars "console") 1 1 in
     let% _ := Open (chars "console") O_RDWR in Done tt
   else Done tt) ;;%
  let% _ := Dup 0 in
  let% _ := Dup 0 in
  init_loop fuel.

(** ** Shared memory *)

(** [ipcs.c] *)
Definition ipcs_main : user unit := Call Shminfo (fun _ => Exit).

(** [ipcmk.c] *)
Definition ipcmk_main (args : list (list Z)) : user unit :=
  match args with
  | [] => say 1 "Please provide segment size(in KBs) as argument." [] ;;% Exit
  | a :: _ =>
      let size := atoi a in
      let% shmid := Shmget IPC_PRIVATE size (Z.lor IPC_CREAT SHM_R) in
      if shmid <? 0 then say 1 "Failed to create shared memory segemnt" [] ;;% Exit else
      uprintf 1 (chars "Shared memory id: %d" ++ [NL]) [PInt shmid] ;;% Exit
  end.

(** [ipcrm.c] *)
Definition ipcrm_main (args : list (list Z)) : user unit :=
  match args with
  | a :: b :: _ =>
      let% r := Removeshm (atoi a) (atoi b) in
      (if r =? -1 then say 1 "Failed to remove the shm segment" [] else say 1 "Removed the shm segment" []) ;;% Exit
  | _ => say 1 "Please provide shmid or shmkey as first argument and set second argument as 0 for shmid and 1 for shmkey" [] ;;% Exit
  end.

(** [shmat.c] *)
Definition shmat_main : user unit :=
  let% _ := Shminfo in
  let% id := Shmget 1 12288 (Z.lor IPC_CREAT IPC_EXCL) in
  if id <? 0 then uprintf 1 (chars "error") [] ;;% Exit else
  uprintf 1 (chars "created segment with id: %d" ++ [NL]) [PInt id] ;;%
  let% va := Shmat id 0 SHM_RND in
  uprintf 1 ([NL] ++ chars "va = %p" ++ [NL]) [PInt va] ;;%
  let% _ := Shminfo in
  uprintf 1 ([NL] ++ chars "Calling dt") [] ;;%
  let% _ := Shmdt va in
  let% va := Shmat id 0 SHM_RND in
  Exit.

(** [shmctl.c]; [buf] is what the structure on its stack holds at first. *)
Definition print_ds (buf : shmid_ds) : user unit :=
  uprintf 1 (chars "shmid_ds" ++ [NL] ++ chars " key: %d" ++ [NL] ++ chars " mode: %d" ++ [NL] ++ chars " size: %d" ++ [NL] ++
    chars " atime: %d" ++ [NL] ++ chars " dtime: %d" ++ [NL] ++ chars " ctime: %d" ++ [NL] ++ chars " cpid: %d" ++ [NL] ++
    chars " lpid: %d" ++ [NL] ++ chars " pa: %p" ++ [NL])
    [PInt (__key (shm_perm buf)); PInt (mode (shm_perm buf)); PInt (shm_segsz buf); PInt (shm_atime buf); PInt (shm_dtime buf);
     PInt (shm_ctime buf); PInt (shm_cpid buf); PInt (shm_lpid buf); PInt (pa buf)].

Definition shmctl_main (buf : shmid_ds) : user unit :=
  let% id := Shmget 1 12288 IPC_CREAT in
  uprintf 1 (chars "created segment with id: %d" ++ [NL]) [PInt id] ;;%
  let% va := Shmat id 0 0 in
  uprintf 1 (chars "va = %p" ++ [NL]) [PInt va] ;;%
  let% _ := Shminfo in
  let% r := Shmctl id IPC_STAT buf in
  let buf := r.2 in
  print_ds buf ;;%
  let% r := Shmctl id SHM_INFO buf in
  let% r := Shmctl id IPC_RMID r.2 in
  let% _ := Shminfo in
  let% r := Shmctl id IPC_STAT r.2 in
  let% r := Shmctl id IPC_INFO r.2 in
  print_ds r.2 ;;%
  Exit.

(** ** Running a program *)

(** How it ends; [Crashed] when the kernel does not answer a call. *)
Inductive ending (A : Type) := Returned (a : A) | Exited | Looping | Crashed.
Arguments Returned {A} a.
Arguments Exited {A}.
Arguments Looping {A}.
Arguments Crashed {A}.

Section Run.
Context {W : Type} (h : forall X, call X -> W -> option (X * W)).

Fixpoint run {A} (p : user A) (w : W) : ending A * W :=
  match p with
  | Done a => (Returned a, w)
  | Exit => (Exited, w)
  | Spin => (Looping, w)
  | Call c k =>
      match h _ c w with
      | Some (x, w') => run (k x) w'
      | None => (Crashed, w)
      end
  end.

Lemma run_bind {A B} (p : user A) (f : A -> user B) : forall w, run (ubind p f) w =
  match run p w with
  | (Returned a, w') => run (f a) w'
  | (Exited, w') => (Exited, w')
  | (Looping, w') => (Looping, w')
  | (Crashed, w') => (Crashed, w')
  end.
Proof.
  induction p as [a| | |X c k IH]; intros w; cbn [ubind run]; [done..|]. destruct (h X c w) as [[x w']|]; [apply IH|done].
Qed.

Lemma run_then {A B} (p : user A) (f : A -> user B) w a w' : run p w = (Returned a, w') -> run (ubind p f) w = run (f a) w'.
Proof. intros Hp. by rewrite run_bind, Hp. Qed.

End Run.

(** ** A world of files *)

(** The files by name, each as the pieces its bytes arrive in; the pieces left
    for each open descriptor; and the bytes written, with their descriptors. *)
Record world := mkworld {
  w_files : gmap (list Z) (list (list Z));
  w_fds : gmap Z (list (list Z));
  w_out : list (Z * Z)
}.

Definition put_out (fd : Z) (b : list Z) (w : world) : world := mkworld (w_files w) (w_fds w) (w_out w ++ ((fd,.) <$> b)).
Definition set_fd (fd : Z) (ps : list (list Z)) (w : world) : world := mkworld (w_files w) (<[fd := ps]> (w_fds w)) (w_out w).

(** The lowest free descriptor from 3 on. *)
Definition free_fd (w : world) : option Z := snd <$> list_find (fun i => w_fds w !! i = None) (seqZ 3 13).

(** [read] gives the next piece, or the part of it that fits. *)
Definition read_piece (n : Z) (ps : list (list Z)) : list Z * list (list Z) :=
  match ps with
  | [] => ([], [])
  | p :: ps' => if (length p <=? Z.to_nat n)%nat then (p, ps') else (take (Z.to_nat n) p, drop (Z.to_nat n) p :: ps')
  end.

(** Other calls are not used by the programs run here. *)
Definition files (X : Type) (c : call X) : world -> option (X * world) :=
  match c in call X return world -> option (X * world) with
  | Read fd n => fun w => Some
      match w_fds w !! fd with
      | None => (None, w)
      | Some ps => (Some (read_piece n ps).1, set_fd fd (read_piece n ps).2 w)
      end
  | Write fd b => fun w => Some (Z.of_nat (length b), put_out fd b w)
  | Open path mode => fun w => Some
      match w_files w !! path, free_fd w with
      | Some ps, Some fd => (fd, set_fd fd ps w)
      | _, _ => (-1, w)
      end
  | Close fd => fun w => Some (0, mkworld (w_files w) (delete fd (w_fds w)) (w_out w))
  | _ => fun _ => None
  end.

(** Pieces as [read] with 512 bytes returns them. *)
Definition pieces_ok (ps : list (list Z)) : Prop := Forall (fun p => (0 < length p <= 512)%nat) ps.

Lemma put_out_app fd a b w : put_out fd b (put_out fd a w) = put_out fd (a ++ b) w.
Proof. unfold put_out. cbn. by rewrite fmap_app, app_assoc. Qed.

Lemma put_out_nil fd w : put_out fd [] w = w.
Proof. unfold put_out. cbn. rewrite app_nil_r. by destruct w. Qed.

Lemma run_print fd fmt args w : run files (uprintf fd fmt args) w = (Returned tt, put_out fd (printf fmt args) w).
Proof.
  unfold uprintf. revert w. induction (printf fmt args) as [|c l IH]; intros w; cbn [each]; [by rewrite put_out_nil|].
  cbn [ubind run files]. rewrite IH, put_out_app. done.
Qed.

(** One read. *)
Lemma files_read fd ps w : w_fds w !! fd = Some ps -> pieces_ok ps ->
  files _ (Read fd 512) w = Some (Some (hd [] ps), set_fd fd (tl ps) w).
Proof.
  intros Hfd Hok. cbn [files]. rewrite Hfd. destruct Hok as [|p ps' [_ Hp] _]; [done|]. cbn [read_piece].
  rewrite (proj2 (Nat.leb_le _ _)) by exact Hp. done.
Qed.

(** ** [cat] *)

Lemma set_fd_set fd a b w : set_fd fd a (set_fd fd b w) = set_fd fd a w.
Proof. unfold set_fd. cbn. by rewrite insert_insert_eq. Qed.

Lemma set_fd_out fd a g b w : set_fd fd a (put_out g b w) = put_out g b (set_fd fd a w).
Proof. done. Qed.

Lemma cat_copies ps : forall fuel fd w, w_fds w !! fd = Some ps -> pieces_ok ps -> (length ps < fuel)%nat ->
  run files (cat fuel fd) w = (Returned tt, put_out 1 (concat ps) (set_fd fd [] w)).
Proof.
  induction ps as [|p ps IH]; intros [|fuel] fd w Hfd Hok Hf; cbn [length] in Hf; try lia; cbn [cat run].
  - rewrite (files_read fd []) by done. cbn [hd tl run]. by rewrite put_out_nil.
  - rewrite (files_read fd (p :: ps)) by done. apply Forall_cons in Hok as [Hp Hok]. cbn [hd tl].
    destruct p as [|b p]; [cbn in Hp; lia|]. cbn [run files]. rewrite Z.eqb_refl. cbn [negb].
    rewrite IH; [|apply lookup_insert_eq|done|lia]. by rewrite set_fd_out, put_out_app, set_fd_set.
Qed.

(** A file that is opened, used and closed leaves only output. *)
Lemma free_fd_spec w fd : free_fd w = Some fd -> 3 <= fd /\ w_fds w !! fd = None.
Proof.
  unfold free_fd. destruct (list_find _ _) as [[i x]|] eqn:E; [|done]. cbn. intros [= <-]. apply list_find_Some in E as (Hi & Hn & _).
  split; [|done]. apply list_elem_of_lookup_2, elem_of_seqZ in Hi. lia.
Qed.

Lemma run_file a (fail : user unit) (body : Z -> user unit) ps out fd w : w_files w !! a = Some ps -> free_fd w = Some fd ->
  run files (body fd) (set_fd fd ps w) = (Returned tt, put_out 1 out (set_fd fd [] w)) ->
  run files (Call (Open a 0) (fun fd => if fd <? 0 then fail else body fd ;;% Call (Close fd) (fun _ => Done tt))) w = (Returned tt, put_out 1 out w).
Proof.
  intros Hf Hfree Hbody. destruct (free_fd_spec w fd Hfree) as [H3 Hno]. cbn [run files]. rewrite Hf, Hfree.
  rewrite (proj2 (Z.ltb_ge fd 0)) by lia. rewrite (run_then _ _ _ _ _ _ Hbody). cbn [run files]. f_equal.
  unfold put_out, set_fd. cbn. rewrite delete_insert_eq, delete_id by done. done.
Qed.

Lemma put_out_files fd b w : w_files (put_out fd b w) = w_files w /\ free_fd (put_out fd b w) = free_fd w.
Proof. done. Qed.

(** A loop over files, each of which adds its part to the output. *)
Lemma run_each args (body : list Z -> user unit) (out : list Z -> list Z) w :
  (forall a w', a ∈ args -> w_files w' = w_files w -> free_fd w' = free_fd w -> run files (body a) w' = (Returned tt, put_out 1 (out a) w')) ->
  run files (each args body ;;% Exit) w = (Exited (A := unit), put_out 1 (concat (out <$> args)) w).
Proof.
  intros Hb. assert (forall l w', l ⊆ args -> w_files w' = w_files w -> free_fd w' = free_fd w ->
    run files (each l body) w' = (Returned tt, put_out 1 (concat (out <$> l)) w')) as Hl.
  { induction l as [|a l IH]; intros w' Hs Hf Hd; cbn [each fmap list_fmap concat]; [by rewrite put_out_nil|].
    rewrite (run_then _ _ _ _ _ _ (Hb a w' ltac:(set_solver) Hf Hd)), IH; [by rewrite put_out_app|set_solver|done|done]. }
  by rewrite (run_then _ _ _ _ _ _ (Hl args w ltac:(done) eq_refl eq_refl)).
Qed.

(** The bytes of a file. *)
Definition content (w : world) (a : list Z) : list Z := concat (default [] (w_files w !! a)).

(** The files can be read within [fuel] turns, and there is a free descriptor. *)
Record readable (fuel : nat) (args : list (list Z)) (w : world) : Prop := {
  rd_files : forall a, a ∈ args -> exists ps, w_files w !! a = Some ps /\ pieces_ok ps /\ (length ps < fuel)%nat;
  rd_fd : is_Some (free_fd w)
}.

(** [cat] writes the files one after the other, however their bytes arrive. *)
Lemma cat_main_copies fuel args w : args <> [] -> readable fuel args w ->
  run files (cat_main fuel args) w = (Exited, put_out 1 (concat (content w <$> args)) w).
Proof.
  intros Hne [Hr [fd Hfd]]. assert (cat_main fuel args = (each args (fun a => Call (Open a 0) (fun fd =>
    if fd <? 0 then say 1 "cat: cannot open %s" [a] ;;% Exit else cat fuel fd ;;% Call (Close fd) (fun _ => Done tt))) ;;% Exit)) as -> by (by destruct args).
  apply run_each. intros a w' Ha Hf Hd. destruct (Hr a Ha) as (ps & Hps & Hok & Hl). unfold content. rewrite Hps. cbn [default].
  apply (run_file a _ _ ps _ fd); [congruence|congruence|]. rewrite (cat_copies ps); [by rewrite set_fd_set|apply lookup_insert_eq|done|done].
Qed.

(** ** [wc] *)

Definition is_space (b : Z) : bool := existsb (Z.eqb b) spaces.

(** The words of a text: its longest runs of other characters. *)
Fixpoint text_words (l : list Z) : list (list Z) :=
  match l with
  | [] => []
  | c :: l' =>
      if is_space c then text_words l' else
      match l' with
      | [] => [[c]]
      | d :: _ => if is_space d then [c] :: text_words l' else
          match text_words l' with
          | [] => [[c]]
          | w :: ws => (c :: w) :: ws
          end
      end
  end.

Definition text_lines (l : list Z) : Z := Z.of_nat (length (filter (fun b => b = NL) l)).

Lemma strchr_spaces b : strchr spaces b = None <-> is_space b = false.
Proof.
  unfold spaces, is_space. cbn [strchr existsb spaces]. rewrite !(Z.eqb_sym b).
  destruct (32 =? b), (13 =? b), (9 =? b), (10 =? b), (11 =? b); cbn; split; congruence.
Qed.

Definition starts_word (l : list Z) : bool := match l with [] => false | c :: _ => negb (is_space c) end.

Lemma text_words_cons c l : is_space c = false -> length (text_words (c :: l)) = (length (text_words l) + (if starts_word l then 0 else 1))%nat.
Proof.
  intros Hc. cbn [text_words]. rewrite Hc. destruct l as [|d l]; [done|]. cbn [starts_word]. destruct (is_space d) eqn:Hd; cbn [negb].
  - cbn [length]. lia.
  - destruct (text_words (d :: l)) as [|w ws] eqn:E; [|cbn; lia]. exfalso. cbn [text_words] in E. rewrite Hd in E.
    destruct l as [|e l]; [done|]. destruct (is_space e); [done|]. by destruct (text_words (e :: l)).
Qed.

(** The counters after a text that does not overflow them. *)
Lemma wc_counts l : forall k, 0 <= c_l k <= c_c k -> 0 <= c_w k <= c_c k -> c_c k + Z.of_nat (length l) < 2147483648 ->
  let k' := foldl wc_char k l in
  c_l k' = c_l k + text_lines l /\ c_c k' = c_c k + Z.of_nat (length l) /\
  c_w k' = c_w k + Z.of_nat (length (text_words l)) - (if inword k && starts_word l then 1 else 0).
Proof.
  induction l as [|b l IH]; intros k Hl Hw Hc; cbn [foldl length] in *.
  - cbn. rewrite andb_false_r. change (text_lines []) with 0. lia.
  - assert (0 <= text_lines l) by (unfold text_lines; lia). unfold text_lines in *. rewrite filter_cons.
    set (k1 := wc_char k b).
    assert (c_l k1 = c_l k + (if decide (b = NL) then 1 else 0) /\ c_c k1 = c_c k + 1 /\ inword k1 = negb (is_space b) /\
      c_w k1 = c_w k + (if negb (is_space b) && negb (inword k) then 1 else 0)) as (E1 & E2 & E3 & E4).
    { unfold k1, wc_char. destruct (strchr spaces b) eqn:Es.
      - assert (is_space b = true) as -> by (destruct (is_space b) eqn:Eb; [done|]; apply strchr_spaces in Eb; congruence).
        cbn. rewrite !i32_small by lia. destruct (Z.eqb_spec b NL); [rewrite decide_True by done|rewrite decide_False by done]; lia.
      - apply strchr_spaces in Es as ->. destruct (inword k); cbn; rewrite ?i32_small by lia;
          (destruct (Z.eqb_spec b NL); [rewrite decide_True by done|rewrite decide_False by done]; rewrite ?i32_small by lia; lia). }
    destruct (IH k1) as (I1 & I2 & I3); [destruct (decide (b = NL)); lia|destruct (negb (is_space b) && negb (inword k)); lia|lia|].
    cbv zeta. rewrite I1, I2, I3, E1, E2, E3, E4. split; [destruct (decide (b = NL)); cbn [length]; lia|]. split; [lia|].
    cbn [starts_word]. destruct (is_space b) eqn:Es; cbn [negb andb].
    + assert (text_words (b :: l) = text_words l) as -> by (cbn [text_words]; by rewrite Es). rewrite andb_false_r. lia.
    + rewrite text_words_cons by done. destruct (inword k), (starts_word l); cbn; lia.
Qed.

Lemma wc_reads ps : forall fuel fd name k w, w_fds w !! fd = Some ps -> pieces_ok ps -> (length ps < fuel)%nat ->
  run files (wc fuel fd name k) w = run files (wc_print (foldl wc_char k (concat ps)) name) (set_fd fd [] w).
Proof.
  induction ps as [|p ps IH]; intros [|fuel] fd name k w Hfd Hok Hf; cbn [length] in Hf; try lia; cbn [wc run].
  - by rewrite (files_read fd []) by done.
  - rewrite (files_read fd (p :: ps)) by done. apply Forall_cons in Hok as [Hp Hok]. cbn [hd tl].
    destruct p as [|b p]; [cbn in Hp; lia|]. rewrite IH; [|apply lookup_insert_eq|done|lia].
    rewrite set_fd_set. cbn [concat]. by rewrite foldl_app.
Qed.

(** The line [wc] prints for a text. *)
Definition wc_line (name text : list Z) : list Z :=
  printf (chars "%d %d %d %s" ++ [NL])
    [PInt (text_lines text); PInt (Z.of_nat (length (text_words text))); PInt (Z.of_nat (length text)); PStr (Some name)].

(** [wc] prints, for each file, its number of newlines, of words and of
    bytes, whatever the sizes of the pieces [read] returns it in: a word that
    spans two reads counts once.  [cat] writes the bytes of the files in order.
    Both leave no descriptor open. *)
Theorem wc_cat_correct fuel args w : args <> [] -> readable fuel args w -> (forall a, a ∈ args -> Z.of_nat (length (content w a)) < 2147483648) ->
  run files (wc_main fuel args) w = (Exited, put_out 1 (concat ((fun a => wc_line a (content w a)) <$> args)) w) /\
  run files (cat_main fuel args) w = (Exited, put_out 1 (concat (content w <$> args)) w).
Proof.
  intros Hne Hread Hlen. split; [|by apply cat_main_copies]. destruct Hread as [Hr [fd Hfd]].
  assert (wc_main fuel args = (each args (fun a => Call (Open a 0) (fun fd =>
    if fd <? 0 then say 1 "wc: cannot open %s" [a] ;;% Exit else wc fuel fd a wc_start ;;% Call (Close fd) (fun _ => Done tt))) ;;% Exit)) as -> by (by destruct args).
  apply run_each. intros a w' Ha Hf Hd. destruct (Hr a Ha) as (ps & Hps & Hok & Hl). specialize (Hlen a Ha). unfold content in *. rewrite Hps in *.
  change (default [] (Some ps)) with ps in *. apply (run_file a _ _ ps _ fd); [congruence|congruence|].
  rewrite (wc_reads ps); [|apply lookup_insert_eq|done|done]. rewrite set_fd_set. unfold wc_print. rewrite run_print. do 2 f_equal. unfold wc_line.
  destruct (wc_counts (concat ps) wc_start) as (E1 & E2 & E3); [cbn; lia|cbn; lia|change (c_c wc_start) with 0; lia|]. cbv zeta in E1, E2, E3. rewrite E1, E2, E3. change (c_l wc_start) with 0. change (c_w wc_start) with 0. change (c_c wc_start) with 0.
  change (inword wc_start) with false. cbn [andb]. rewrite !Z.add_0_l, Z.sub_0_r. reflexivity.
Qed.

(** A file "ab c" and a newline, in two pieces that split its first word. *)
Definition one_file_world : world := mkworld {[ [97] := [[97]; [98; 32; 99; 10]] ]} ∅ [].

Lemma wc_cat_correct_witness : run files (wc_main 3 [[97]]) one_file_world = (Exited, put_out 1 (chars "1 2 5 a" ++ [NL]) one_file_world).
Proof.
  destruct (wc_cat_correct 3 [[97]] one_file_world) as [Hw _].
  - discriminate.
  - split; [|by eexists]. intros a ->%list_elem_of_singleton. exists [[97]; [98; 32; 99; 10]]. split; [reflexivity|].
    split; [repeat constructor|cbn; lia].
  - intros a ->%list_elem_of_singleton. reflexivity.
  - exact Hw.
Defined.

(** ** Names in listings *)

Lemma basename_suffix path : exists dir, path = dir ++ basename path /\ (SLASH ∉ basename path) /\ (dir = [] \/ last dir = Some SLASH).
Proof.
  induction path as [|c p (dir & E & Hn & Hd)]; [exists []; split; [done|]; split; [apply not_elem_of_nil|by left]|]. cbn [basename].
  destruct (existsb (Z.eqb SLASH) p) eqn:Ex.
  - exists (c :: dir). split; [cbn; by rewrite <- E|]. split; [done|]. right. destruct Hd as [->|Hd].
    + exfalso. cbn in E. apply existsb_exists in Ex as (x & Hx & <-%Z.eqb_eq). apply Hn. rewrite <- E. by apply list_elem_of_In.
    + by destruct dir.
  - assert (SLASH ∉ p) as Hp.
    { intros Hin%list_elem_of_In. assert (existsb (Z.eqb SLASH) p = true) as E'; [|congruence]. apply existsb_exists. exists SLASH. split; [done|apply Z.eqb_refl]. }
    destruct (Z.eqb_spec c SLASH) as [->|Hc].
    + exists [SLASH]. split; [done|]. split; [done|by right].
    + exists []. split; [done|]. split; [|by left]. rewrite not_elem_of_cons. done.
Qed.

(** [fmtname] is the part after the last slash, padded to a column. *)
Lemma fmtname_pads path : exists pad, fmtname path = basename path ++ replicate pad 32 /\ (DIRSIZ <= length (fmtname path))%nat /\
  ((length (basename path) <= DIRSIZ)%nat -> length (fmtname path) = DIRSIZ).
Proof.
  unfold fmtname. destruct (Nat.leb_spec DIRSIZ (length (basename path))) as [Hl|Hl].
  - exists 0%nat. rewrite app_nil_r. split; [done|]. split; [done|lia].
  - exists (DIRSIZ - length (basename path))%nat. rewrite length_app, length_replicate. split; [done|]. lia.
Qed.
