(* ===== verification/UserShm.v ===== *)
(** * The shared-memory programs on the kernel ([ipcmk.c], [ipcrm.c])

    The programs of [User.v] with their system calls answered by the model of
    [shm.c]. *)

From stdpp Require Import base tactics numbers gmap strings list.
From Stdlib Require Import ZArith Lia.
From S2P Require Import Prelude Mmu Memory Kalloc Vm VmFacts Shm ShmFacts Sample ShmTheorems Format User.

Section Programs.
Context {L : Layout}.

(** The kernel's state, and the bytes written. *)
Record shworld := mkshworld { sw_shm : shst; sw_out : list (Z * Z) }.

Definition via {X} (m : M shst X) (w : shworld) : option (X * shworld) :=
  match m (sw_shm w) with
  | Ret x s => Some (x, mkshworld s (sw_out w))
  | _ => None
  end.

Definition kernel (X : Type) (c : call X) : shworld -> option (X * shworld) :=
  match c in call X return shworld -> option (X * shworld) with
  | Write fd b => fun w => Some (Z.of_nat (length b), mkshworld (sw_shm w) (sw_out w ++ ((fd,.) <$> b)))
  | Shminfo => via shminfoHelper
  | Shmget key size flag => via (shmgetHelper key size flag)
  | Shmat id addr flag => via (shmatHelper id addr flag)
  | Shmdt addr => via (shmdtHelper addr)
  | Shmctl id cmd buf => via (shmctlHelper id cmd buf)
  | Removeshm id flag => via (removeshmHelper id flag)
  | _ => fun _ => None
  end.

Definition said_out (fd : Z) (b : list Z) (w : shworld) : shworld := mkshworld (sw_shm w) (sw_out w ++ ((fd,.) <$> b)).

Lemma run_kernel_print fd fmt args w : User.run kernel (uprintf fd fmt args) w = (Returned tt, said_out fd (printf fmt args) w).
Proof.
  unfold uprintf. revert w. induction (printf fmt args) as [|c l IH]; intros w; cbn [each].
  - unfold said_out. cbn. rewrite app_nil_r. by destruct w.
  - cbn [ubind User.run kernel]. rewrite IH. unfold said_out. cbn. by rewrite <- app_assoc.
Qed.

Lemma run_then_exit (p : user unit) w w' : User.run kernel p w = (Returned tt, w') -> User.run kernel (p ;;% Exit) w = (Exited (A := unit), w').
Proof. intros Hp. by rewrite (run_then _ _ _ _ _ _ Hp). Qed.

Lemma via_wp {X} (m : M shst X) (Q : X -> shst -> Prop) w : wp m Q (sw_shm w) -> exists x s, via m w = Some (x, mkshworld s (sw_out w)) /\ Q x s.
Proof. intros (x & s & E & HQ)%wp_inv. exists x, s. unfold via. by rewrite E. Qed.

Definition failed_text : list Z := chars "Failed to create shared memory segemnt" ++ [NL].

(** The key [IPC_PRIVATE] stands for. *)
Definition private_key (s : shst) : Z :=
  let d := rtc s in i32 (u32 (second d * 10000 + minute d * 100 + hour d * 10 + day d + ticks s)).

(** [shmget] with the flags of [ipcmk.c] only looks the key up. *)
Lemma shmget_private s l segs size : shm_inv s l segs -> private_key s <> -1 ->
  wp (shmgetHelper IPC_PRIVATE size (Z.lor IPC_CREAT SHM_R)) (fun r s' => s' = set_r (rtc s) s /\
    (r = ENOENT \/ exists g, segs !! r = Some g /\ sg_key g = private_key s)) s.
Proof.
  intros Hi Hk. unfold shmgetHelper. apply wp_bind. rewrite Z.eqb_refl. apply wp_bind, wp_bind, wp_modify, wp_gets, wp_ret.
  change (i32 _) with (private_key s). apply wp_bind. eapply (wp_find_key _ _ segs); [apply Hi|done| |].
  - intros _. apply wp_ret. split; [done|by left].
  - intros id g Hg Hgk _. apply wp_ret. split; [done|]. right. by exists g.
Qed.

(** [ipcmk] never makes a segment: whatever size it is given, the table stays as
    it was and, when no segment happens to have the key of the moment, it reports
    a failure. *)
Lemma ipcmk_makes_nothing w l segs a args : shm_inv (sw_shm w) l segs -> private_key (sw_shm w) <> -1 ->
  (forall id g, segs !! id = Some g -> sg_key g <> private_key (sw_shm w)) ->
  exists w', User.run kernel (ipcmk_main (a :: args)) w = (Exited, w') /\ sw_shm w' = set_r (rtc (sw_shm w)) (sw_shm w) /\
    sw_out w' = sw_out w ++ ((1,.) <$> printf failed_text []).
Proof.
  intros Hi Hk Hno. destruct (via_wp _ _ w (shmget_private (sw_shm w) l segs (atoi a) Hi Hk)) as (r & s & E & -> & Hr).
  cbn [ipcmk_main User.run kernel]. rewrite E. destruct Hr as [->|(g & Hg & Hgk)]; [|by destruct (Hno r g Hg)].
  change (ENOENT <? 0) with true. eexists. split; [apply run_then_exit, run_kernel_print|]. split; reflexivity.
Qed.

(** C40: [ipcrm], given an identifier and 0 or a key and 1, removes the segment
    they select when nothing is attached to it: its pages are free again, no
    other segment changes, and the program says so.  When it is attached
    somewhere, the segment stays and the program reports a failure. *)
Theorem ipcrm_removes w l segs a b args id g : shm_inv (sw_shm w) l segs -> selects segs (atoi a) (atoi b) id -> segs !! id = Some g ->
  exists w', User.run kernel (ipcrm_main (a :: b :: args)) w = (Exited, w') /\
    if shm_nattch (shm_segs (sw_shm w)).[id] =? 0 then
      shm_inv (sw_shm w') (reverse (sg_pages g) ++ l) (delete id segs) /\
      sw_out w' = sw_out w ++ ((1,.) <$> printf (chars "Removed the shm segment" ++ [NL]) [])
    else shm_inv (sw_shm w') l segs /\
      sw_out w' = sw_out w ++ ((1,.) <$> printf (chars "Failed to remove the shm segment" ++ [NL]) []).
Proof.
  intros Hi Hs Hg. assert (wp (removeshmHelper (atoi a) (atoi b)) (remove_post (remove_from (atoi b) id (sw_shm w)) l segs id g) (sw_shm w)) as Hw
    by (eapply wp_removeshm; done).
  destruct (via_wp _ _ w Hw) as (r & s & E & Hr). cbn [ipcrm_main User.run kernel]. rewrite E.
  assert (shm_segs (remove_from (atoi b) id (sw_shm w)) = shm_segs (sw_shm w)) as Er by (unfold remove_from; by destruct (atoi b =? 1)).
  unfold remove_post in Hr. rewrite Er in Hr. destruct (shm_nattch (shm_segs (sw_shm w)).[id] =? 0).
  - destruct Hr as (-> & Hinv & _). eexists. split; [apply run_then_exit, run_kernel_print|]. split; [exact Hinv|reflexivity].
  - destruct Hr as (-> & Hinv & _). eexists. split; [apply run_then_exit, run_kernel_print|]. split; [exact Hinv|reflexivity].
Qed.

End Programs.

Section SampleRun.
#[local] Existing Instance sample_layout.

(** [ipcrm 7 1] on the sample machine, whose segment 0 has key 7. *)
Lemma ipcrm_removes_witness : exists w', User.run kernel (ipcrm_main [[55]; [49]]) (mkshworld (sample free5) []) = (Exited, w') /\
  shm_inv (sw_shm w') (page 11 :: page 10 :: free5) ∅.
Proof.
  destruct (ipcrm_removes (mkshworld (sample free5) []) free5 sample_segs [55] [49] [] 0 sample_seg sample_free5 sample_selects eq_refl)
    as (w' & E & Hi & _).
  exists w'. split; [exact E|]. unfold sample_segs in Hi. rewrite delete_singleton_eq in Hi. exact Hi.
Defined.

End SampleRun.
