(* ===== verification/Uart.v ===== *)
(** * The serial port ([uart.c]) and the memory routines of [ulib.c]

    The port as the bytes waiting to be received and those sent; reception feeds
    the line editor of [Console.v]. *)

From stdpp Require Import base tactics numbers gmap list.
From Stdlib Require Import ZArith Lia.
From S2P Require Import Prelude Mmu Memory Kalloc Proc Trap Console.

Module Uart.

Definition COM1 : Z := 0x3f8.

(** Whether there is a port at all; the bytes received and not yet read; for how
    many polls the transmitter is still busy; what was written to the ports;
    the variable [uart]; and the interrupt lines that were enabled. *)
Record port := mkport {
  present : bool;
  rx : list Z;
  tx_busy : nat;
  written : list (Z * Z);
  uart : bool;
  enabled : list (Z * Z)
}.

Section Code.
(** How long sending a byte takes. *)
Context (delay : nat).

Definition outb (p v : Z) : M port unit := modify (fun s =>
  mkport (present s) (rx s) (if p =? COM1 then delay else tx_busy s) (written s ++ [(p, u8 v)]) (uart s) (enabled s)).

(** The line status, and the received byte, which reading removes. *)
Definition inb (p : Z) : M port Z := fun s =>
  if negb (present s) then Ret 0xFF s else
  if p =? COM1 + 5 then
    Ret (Z.lor (if (tx_busy s =? 0)%nat then 0x20 else 0) (if bool_decide (rx s = []) then 0 else 1))
      (mkport (present s) (rx s) (Nat.pred (tx_busy s)) (written s) (uart s) (enabled s))
  else if p =? COM1 then
    Ret (hd 0 (rx s)) (mkport (present s) (tl (rx s)) (tx_busy s) (written s) (uart s) (enabled s))
  else Ret 0 s.

Definition microdelay (us : Z) : M port unit := ret tt.

Definition ioapicenable (irq cpunum : Z) : M port unit := modify (fun s =>
  mkport (present s) (rx s) (tx_busy s) (written s) (uart s) (enabled s ++ [(irq, cpunum)])).

Definition uartputc (c : Z) : M port unit :=
  let* u := gets uart in
  if negb u then ret tt else
  iter 129 (fun i =>
    if negb (i <? 128) then ret (inr tt) else
    let* s := inb (COM1 + 5) in
    if negb (Z.land s 0x20 =? 0) then ret (inr tt) else
    microdelay 10 ;;; ret (inl (i + 1))) 0 ;;;
  outb (COM1 + 0) c.

(** "xv6..." and a newline *)
Definition greeting : list Z := [120; 118; 54; 46; 46; 46; 10].

Definition uartinit : M port unit :=
  outb (COM1 + 2) 0 ;;;
  outb (COM1 + 3) 0x80 ;;;
  outb (COM1 + 0) (115200 / 9600) ;;;
  outb (COM1 + 1) 0 ;;;
  outb (COM1 + 3) 0x03 ;;;
  outb (COM1 + 4) 0 ;;;
  outb (COM1 + 1) 0x01 ;;;
  let* st := inb (COM1 + 5) in
  if st =? 0xFF then ret tt else
  modify (fun s => mkport (present s) (rx s) (tx_busy s) (written s) true (enabled s)) ;;;
  inb (COM1 + 2) ;;;
  inb (COM1 + 0) ;;;
  ioapicenable IRQ_COM1 0 ;;;
  fold_left (fun m c => m ;;; uartputc c) greeting (ret tt).

Definition uartgetc : M port Z :=
  let* u := gets uart in
  if negb u then ret (-1) else
  let* st := inb (COM1 + 5) in
  if Z.land st 0x01 =? 0 then ret (-1) else
  inb (COM1 + 0).

(** [consoleintr] calls [uartgetc] until it returns a negative number: the
    characters it gets. *)
Fixpoint uart_chars (fuel : nat) : M port (list Z) :=
  match fuel with
  | O => fun _ => NoFuel
  | S n =>
      let* c := uartgetc in
      if c <? 0 then ret [] else
      let* cs := uart_chars n in ret (c :: cs)
  end.

Definition uartintr (fuel : nat) (i : input) : M port (input * list Z * bool * bool) :=
  let* cs := uart_chars fuel in ret (consoleintr cs i).

(** ** Reception *)

Lemma status_rx (b : bool) (l : list Z) :
  (Z.land (Z.lor (if b then 0x20 else 0) (if bool_decide (l = []) then 0 else 1)) 0x01 =? 0) = bool_decide (l = []).
Proof. by destruct b, (bool_decide (l = [])). Qed.

Lemma wp_status (Q : Z -> port -> Prop) s : present s = true ->
  Q (Z.lor (if (tx_busy s =? 0)%nat then 0x20 else 0) (if bool_decide (rx s = []) then 0 else 1))
    (mkport true (rx s) (Nat.pred (tx_busy s)) (written s) (uart s) (enabled s)) -> wp (inb (COM1 + 5)) Q s.
Proof. intros Hp HQ. unfold wp, inb. by rewrite Hp. Qed.

Lemma wp_receive (Q : Z -> port -> Prop) s : present s = true ->
  Q (hd 0 (rx s)) (mkport true (tl (rx s)) (tx_busy s) (written s) (uart s) (enabled s)) -> wp (inb (COM1 + 0)) Q s.
Proof. intros Hp HQ. unfold wp, inb. by rewrite Hp. Qed.

Lemma wp_uartgetc s (Q : Z -> port -> Prop) : present s = true -> uart s = true ->
  (rx s = [] -> forall s', present s' = true -> uart s' = true -> rx s' = [] -> written s' = written s -> Q (-1) s') ->
  (forall c l, rx s = c :: l -> forall s', present s' = true -> uart s' = true -> rx s' = l -> written s' = written s -> Q c s') ->
  wp uartgetc Q s.
Proof.
  intros Hp Hu H0 H1. unfold uartgetc. apply wp_bind, wp_gets. rewrite Hu. cbn [negb]. apply wp_bind, wp_status; [done|].
  rewrite status_rx. destruct (rx s) as [|c l] eqn:E.
  - rewrite bool_decide_true by done. apply wp_ret. by apply H0.
  - rewrite bool_decide_false by done. apply wp_receive; [done|]. by apply (H1 c l).
Qed.

(** All received bytes, in order, go to the line editor, and none is left. *)
Lemma uartintr_feeds l : forall fuel s i, present s = true -> uart s = true -> rx s = l -> Forall (fun c => 0 <= c < 256) l -> (length l < fuel)%nat ->
  wp (uartintr fuel i) (fun r s' => r = consoleintr l i /\ rx s' = [] /\ written s' = written s) s.
Proof.
  assert (forall fuel s, present s = true -> uart s = true -> rx s = l -> Forall (fun c => 0 <= c < 256) l -> (length l < fuel)%nat ->
    wp (uart_chars fuel) (fun cs s' => cs = l /\ rx s' = [] /\ written s' = written s) s) as Hc.
  { induction l as [|c l IH]; intros [|fuel] s Hp Hu Hr Hl Hf; cbn [length] in Hf; try lia; cbn [uart_chars].
    - apply wp_bind, wp_uartgetc; [done..| |congruence]. intros _ s' _ _ E' W'. apply wp_ret. done.
    - apply Forall_cons in Hl as [Hcr Hl]. apply wp_bind, wp_uartgetc; [done|done|congruence|].
      intros c' l' E s' P' U' R' W'. rewrite Hr in E. injection E as <- <-. rewrite (proj2 (Z.ltb_ge c 0)) by lia. apply wp_bind.
      eapply wp_mono; [|apply IH; [done..|lia]]. intros cs s2 (-> & R2 & W2). apply wp_ret. split; [done|]. split; [done|congruence]. }
  intros fuel s i Hp Hu Hr Hl Hf. apply wp_bind. eapply wp_mono; [|by apply Hc]. intros cs s' (-> & R' & W'). apply wp_ret. done.
Qed.

(** Without a port nothing is sent or received. *)
Lemma uart_absent s c : uart s = false -> uartputc c s = Ret tt s /\ uartgetc s = Ret (-1) s.
Proof. intros Hu. unfold uartputc, uartgetc, bind, gets. rewrite Hu. done. Qed.

(** ** Sending *)

(** The bytes sent as data. *)
Definition sent (w : list (Z * Z)) : list Z := snd <$> filter (fun x => x.1 = COM1) w.

(** A byte is sent once the transmitter is free, or after 128 polls. *)
Lemma wp_uartputc c s (Q : unit -> port -> Prop) : present s = true -> uart s = true ->
  (forall s', present s' = true -> uart s' = true -> rx s' = rx s -> enabled s' = enabled s -> written s' = written s ++ [(COM1, u8 c)] -> Q tt s') ->
  wp (uartputc c) Q s.
Proof.
  intros Hp Hu HQ. unfold uartputc. apply wp_bind, wp_gets. rewrite Hu. cbn [negb]. apply wp_bind.
  eapply wp_mono; [|apply (wp_iter (fun i t => 0 <= i <= 128 /\ present t = true /\ uart t = true /\ rx t = rx s /\ enabled t = enabled s /\ written t = written s)
    (fun i => Z.to_nat (128 - i)) _ _ (fun _ t => present t = true /\ uart t = true /\ rx t = rx s /\ enabled t = enabled s /\ written t = written s))].
  - intros [] t (P1 & P2 & P3 & P4 & P5). apply wp_modify. apply HQ; cbn; [done..|]. by rewrite P5.
  - intros i t (Hi & P1 & P2 & P3 & P4 & P5). destruct (Z.ltb_spec i 128) as [H1|H1]; cbn [negb]; [|by apply wp_ret].
    apply wp_bind, wp_status; [done|]. case_match; [by apply wp_ret|].
    apply wp_bind, wp_ret, wp_ret. cbn. split; [|lia]. split; [lia|done].
  - done.
  - cbn. lia.
Qed.

(** With a port, [uartinit] sets the speed, enables the receive interrupt on
    line 4 and sends its greeting; whatever had been received is dropped up to
    one byte. *)
Lemma wp_greet l : forall m s0 s (Q : unit -> port -> Prop), m s0 = Ret tt s -> present s = true -> uart s = true ->
  (forall s', uart s' = true -> rx s' = rx s -> enabled s' = enabled s -> written s' = written s ++ ((fun c => (COM1, u8 c)) <$> l) -> Q tt s') ->
  wp (fold_left (fun m c => m ;;; uartputc c) l m) Q s0.
Proof.
  induction l as [|c l IH]; intros m s0 s Q Hm Hp Hu HQ; cbn [fold_left].
  - eapply wp_of_eq; [exact Hm|]. apply HQ; [done..|]. by rewrite app_nil_r.
  - destruct (wp_inv _ _ _ (wp_uartputc c s (fun r s' => r = tt /\ present s' = true /\ uart s' = true /\ rx s' = rx s /\ enabled s' = enabled s /\
      written s' = written s ++ [(COM1, u8 c)]) Hp Hu ltac:(intros; done))) as ([] & s1 & E1 & _ & P1 & U1 & R1 & N1 & W1).
    apply (IH _ s0 s1); [by apply (bind_step _ _ _ _ _ _ Hm)|done|done|]. intros s2 U2 R2 N2 W2. apply HQ; [done|congruence|congruence|].
    rewrite W2, W1. cbn [fmap list_fmap]. by rewrite <- app_assoc.
Qed.

Lemma status_present (b : bool) (l : list Z) : (Z.lor (if b then 0x20 else 0) (if bool_decide (l = []) then 0 else 1) =? 0xFF) = false.
Proof. by destruct b, (bool_decide (l = [])). Qed.

Lemma wp_uart_outb p v (Q : unit -> port -> Prop) s :
  (forall s', present s' = present s -> rx s' = rx s -> enabled s' = enabled s -> written s' = written s ++ [(p, u8 v)] -> Q tt s') -> wp (outb p v) Q s.
Proof. intros HQ. by apply wp_modify, HQ. Qed.

Lemma uartinit_greets s : present s = true ->
  wp uartinit (fun _ s' => uart s' = true /\ rx s' = tl (rx s) /\ enabled s' = enabled s ++ [(IRQ_COM1, 0)] /\
    written s' = written s ++ [(COM1 + 2, 0); (COM1 + 3, 0x80); (COM1, 12); (COM1 + 1, 0); (COM1 + 3, 3); (COM1 + 4, 0); (COM1 + 1, 1)] ++ ((COM1,.) <$> greeting)) s.
Proof.
  intros Hp. unfold uartinit.
  apply wp_bind, wp_uart_outb. intros s1 P1 R1 N1 W1. apply wp_bind, wp_uart_outb. intros s2 P2 R2 N2 W2. apply wp_bind, wp_uart_outb. intros s3 P3 R3 N3 W3.
  apply wp_bind, wp_uart_outb. intros s4 P4 R4 N4 W4. apply wp_bind, wp_uart_outb. intros s5 P5 R5 N5 W5. apply wp_bind, wp_uart_outb. intros s6 P6 R6 N6 W6.
  apply wp_bind, wp_uart_outb. intros s7 P7 R7 N7 W7. assert (present s7 = true) as H7 by congruence. assert (rx s7 = rx s) as E7 by congruence.
  assert (enabled s7 = enabled s) as F7 by congruence. rewrite W6, W5, W4, W3, W2, W1, <- !app_assoc in W7. clear - H7 E7 F7 W7.
  apply wp_bind, wp_status; [exact H7|]. rewrite status_present. apply wp_bind, wp_modify. apply wp_bind. eapply wp_of_eq; [reflexivity|].
  apply wp_bind, wp_receive; [reflexivity|]. apply wp_bind, wp_modify. cbn [present rx tx_busy written uart enabled].
  eapply wp_greet; [reflexivity|reflexivity|reflexivity|]. cbn [present rx tx_busy written uart enabled].
  intros s' U' R' N' W'. split; [exact U'|]. split; [rewrite R', E7; reflexivity|]. split; [rewrite N', F7; reflexivity|].
  rewrite W', W7, <- app_assoc. reflexivity.
Qed.

End Code.
End Uart.

(** ** Memory routines *)

Module Ulib.

Fixpoint strcpy (fuel : nat) (m : memory) (s t : Z) : option memory :=
  match fuel with
  | O => None
  | S n => let c := load8 m t in let m := store8 m s c in if c =? 0 then Some m else strcpy n m (s + 1) (t + 1)
  end.

Fixpoint strlen (fuel : nat) (m : memory) (s n : Z) : option Z :=
  match fuel with
  | O => None
  | S k => if load8 m (s + n) =? 0 then Some n else strlen k m s (n + 1)
  end.

Definition memset (m : memory) (dst c n : Z) : memory := StringC.stosb m dst c n.

(** Unlike the kernel's, it always copies upwards. *)
Definition memmove (m : memory) (dst src n : Z) : memory := StringC.copy_up (Z.to_nat n) m dst src.

(** A string of [k] characters at [s]. *)
Definition string_at (m : memory) (s : Z) (k : nat) : Prop :=
  (forall j, 0 <= j < Z.of_nat k -> load8 m (s + j) <> 0) /\ load8 m (s + Z.of_nat k) = 0.

Lemma strlen_spec m s k : string_at m s k -> forall fuel, (k < fuel)%nat -> strlen fuel m s 0 = Some (Z.of_nat k).
Proof.
  intros [Hn H0] fuel. assert (forall f n, 0 <= n <= Z.of_nat k -> (Z.to_nat (Z.of_nat k - n) < f)%nat -> strlen f m s n = Some (Z.of_nat k)) as Hl.
  { induction f as [|f IH]; intros n Hr Hf; [lia|]. cbn [strlen]. destruct (decide (n = Z.of_nat k)) as [->|Hne].
    - rewrite H0. done.
    - rewrite (proj2 (Z.eqb_neq _ _) (Hn n ltac:(lia))). apply IH; lia. }
  intros Hf. apply Hl; lia.
Qed.

(** [strcpy] to memory the string is not in copies it with its NUL, and writes
    nothing else. *)
Lemma strcpy_spec k : forall m s t, string_at m t k -> s + Z.of_nat k < t \/ t + Z.of_nat k < s -> forall fuel, (k < fuel)%nat ->
  exists m', strcpy fuel m s t = Some m' /\
    forall a, load8 m' a = if decide (s <= a <= s + Z.of_nat k) then load8 m (a - s + t) else load8 m a.
Proof.
  induction k as [|k IH]; intros m s t [Hn H0] Hd [|fuel] Hf; try lia; cbn [strcpy].
  - rewrite Z.add_0_r in H0. rewrite H0. exists (store8 m s 0). split; [done|]. intros a. rewrite load8_store8.
    repeat case_decide; try lia; try done. subst. replace (a - a + t) with t by lia. by rewrite H0.
  - rewrite (proj2 (Z.eqb_neq _ _)) by (rewrite <- (Z.add_0_r t); apply Hn; lia). set (m1 := store8 m s (load8 m t)).
    assert (forall a, a <> s -> load8 m1 a = load8 m a) as Hm1 by (intros a Ha; apply load8_store8_ne; lia).
    destruct (IH m1 (s + 1) (t + 1)) with (fuel := fuel) as (m' & E & Hm'); [| |lia|].
    + split; [intros j Hj|]; rewrite Hm1 by lia; [rewrite <- Z.add_assoc; apply Hn; lia|]. rewrite <- H0. f_equal. lia.
    + lia.
    + exists m'. split; [exact E|]. intros a. rewrite Hm'. destruct (decide (a = s)) as [->|Hne].
      * rewrite decide_False, decide_True by lia. unfold m1. rewrite load8_store8_eq, u8_small by apply load8_range. f_equal. lia.
      * repeat case_decide; try lia; rewrite Hm1 by lia; [f_equal; lia|done].
Qed.

Lemma memmove_up m dst src n a : 0 <= n -> dst <= src \/ src + n <= dst ->
  load8 (memmove m dst src n) a = if decide (dst <= a < dst + n) then load8 m (a - dst + src) else load8 m a.
Proof. intros Hn Hd. unfold memmove. rewrite StringC.load8_copy_up by lia. by rewrite Z2Nat.id by lia. Qed.

(** When the destination begins inside the source, the bytes copied first are
    read again: the kernel's routine of the same name does not do that. *)
Lemma memmove_overlap : let m := store8 (store8 ∅ 10 1) 11 2 in
  load8 (memmove m 11 10 2) 12 = 1 /\ load8 (StringC.memmove m 11 10 2) 12 = 2.
Proof. split; vm_compute; reflexivity. Qed.

End Ulib.
