(* ===== verification/Main.v ===== *)
(** * Start-up of the kernel ([main.c], [entryother.S])

    The calls of [main] that hand out physical memory, in its order: [kinit1],
    [kvmalloc], [startothers], [kinit2] and [shminit].  They run on one machine:
    the allocator and the shared-memory table of [Shm], the local controller of
    [Apic], and the other processors, which come up some time after their
    start-up command, run [entryother.S] and set [started] in [mpmain].  The
    result is the state the other components start from: it satisfies the
    allocator's, the page-table and the shared-memory invariants, every page
    above the kernel is free or has one owner, and every processor has entered
    [mpenter] on a stack of its own. *)

From stdpp Require Import base tactics numbers gmap strings list.
From Stdlib Require Import ZArith Lia.
From S2P Require Import Prelude Mmu Memory Spinlock Kalloc Vm VmFacts VmUser VmCopy Shm ShmFacts Sample Fs Proc NewProc Apic.

(** ** The boot page directory *)

Definition entrypgdir_entry (i : Z) : Z :=
  if (i =? 0) || (i =? Z.shiftr KERNBASE PDXSHIFT) then Z.lor (Z.lor (Z.lor 0 PTE_P) PTE_W) PTE_PS else 0.

(** The translation of the hardware for entries with [PTE_PS], whose pages have
    four megabytes. *)
Definition large_page (dir : Z -> Z) (va : Z) : option Z :=
  let e := dir (PDX va) in
  if negb (Z.land e PTE_P =? 0) && negb (Z.land e PTE_PS =? 0)
  then Some (Z.land e 0xFFC00000 + va mod 0x400000) else None.

(** [entrypgdir] maps the first four megabytes of physical memory at 0 and at
    [KERNBASE], and nothing else. *)
Lemma entrypgdir_maps va : 0 <= va < 4294967296 ->
  large_page entrypgdir_entry va =
  if decide (va < 0x400000) then Some va
  else if decide (KERNBASE <= va < KERNBASE + 0x400000) then Some (V2P va) else None.
Proof.
  intros Hva. unfold large_page, entrypgdir_entry. rewrite PDX_eq by done. change 4194304 with 0x400000.
  change (Z.shiftr KERNBASE PDXSHIFT) with 512.
  destruct (decide (va / 0x400000 = 0 \/ va / 0x400000 = 512)) as [Hd|Hd].
  - replace (_ || _) with true by (symmetry; apply orb_true_iff; lia).
    change (Z.lor (Z.lor (Z.lor 0 PTE_P) PTE_W) PTE_PS) with 0x83. change (Z.land 0x83 0xFFC00000) with 0.
    change (negb _ && negb _) with true. cbn iota.
    repeat case_decide; [f_equal; mlia| |exfalso; mlia]. rewrite V2P_high by mlia. f_equal. mlia.
  - replace (_ || _) with false by (symmetry; apply orb_false_iff; lia).
    change (negb _ && negb _) with false. cbn iota. repeat case_decide; [exfalso; mlia|exfalso; mlia|done].
Qed.

(** ** The machine *)

(** A processor that has come up: its identifier and what [entryother.S] has
    loaded when it calls [mpenter]. *)
Record ap := mkap { ap_id : Z; ap_cr3 : Z; ap_esp : Z; ap_eip : Z }.

(** The shared-memory state with the allocator in it; the local controller; [%cr3];
    for how many more reads each processor's [started] is 0 once it has been
    sent a start-up command; and the processors that are up. *)
Record boot := mkboot {
  b_shm : shst;
  b_lapic : Lapic.lapic;
  b_cr3 : Z;
  b_turns : Z -> nat;
  b_up : list ap
}.

Definition shm_lens : lens boot shst := mklens b_shm
  (fun x s => mkboot x (b_lapic s) (b_cr3 s) (b_turns s) (b_up s)).

Definition page_lens : lens boot kst := mklens (fun s => km (b_shm s))
  (fun k s => mkboot (set_km k (b_shm s)) (b_lapic s) (b_cr3 s) (b_turns s) (b_up s)).

(** The controller's code writes to the same memory. *)
Definition lapic_lens : lens boot Lapic.lapic := mklens
  (fun s => let a := b_lapic s in
     Lapic.mklapic (Lapic.base a) (Lapic.regs a) (Lapic.pending a) (Lapic.commands a) (Lapic.ports a) (mem (km (b_shm s))))
  (fun a s => mkboot (set_km (set_mem (Lapic.ram a) (km (b_shm s))) (b_shm s)) a (b_cr3 s) (b_turns s) (b_up s)).

Section Main.
Context {L : Layout}.
(** [mpenter] and [entrypgdir], the image of [entryother.S] that the linker
    placed in the kernel, [cpus]: how many, their identifiers, which of them runs
    [main]; and how long the controller takes to deliver a command. *)
Context (mpenter entrypgdir entryother_start entryother_size : Z).
Context (ncpu me : Z) (apicid : Z -> Z) (delay : nat).

(** What [entryother.S], placed at [code], loads before it calls [mpenter]. *)
Definition entryother (id : Z) (m : memory) (code : Z) : ap :=
  mkap id (load32 m (code - 12)) (load32 m (code - 4)) (load32 m (code - 8)).

(** The start-up command sent to a processor names the page it starts in. *)
Definition startup_page (id : Z) (cmds : list (Z * Z)) : option Z :=
  match list_find (fun c => c.1 = id /\ Z.land c.2 0x700 = Lapic.STARTUP) cmds with
  | Some (_, (_, cmd)) => Some (P2V (Z.shiftl (Z.land cmd 0xFF) 12))
  | None => None
  end.

(** A read of [c->started]. *)
Definition started (c : Z) : M boot Z := fun s =>
  match startup_page (apicid c) (Lapic.commands (b_lapic s)) with
  | None => Ret 0 s
  | Some code =>
      match b_turns s c with
      | S n => Ret 0 (mkboot (b_shm s) (b_lapic s) (b_cr3 s) (fun i => if i =? c then n else b_turns s i) (b_up s))
      | O => Ret 1 (mkboot (b_shm s) (b_lapic s) (b_cr3 s) (b_turns s) (b_up s ++ [entryother (apicid c) (mem (km (b_shm s))) code]))
      end
  end.

Definition code : Z := P2V 0x7000.

Definition start_cpu (fuel : nat) (c : Z) : M boot unit :=
  if c =? me then ret tt else
  let* stack := zoom page_lens kalloc in
  zoom page_lens (wr32 (code - 4) (u32 (stack + KSTACKSIZE))) ;;;
  zoom page_lens (wr32 (code - 8) mpenter) ;;;
  zoom page_lens (wr32 (code - 12) (V2P entrypgdir)) ;;;
  zoom lapic_lens (Lapic.lapicstartap delay (apicid c) (V2P code)) ;;;
  iter fuel (fun _ : unit =>
    let* v := started c in
    ret (if v =? 0 then inl tt else inr tt)) tt.

Definition startothers (fuel : nat) : M boot unit :=
  zoom page_lens (kmemmove code entryother_start entryother_size) ;;;
  for_up 0 ncpu (start_cpu fuel).

(** [kvmalloc] stores the directory in [kpgdir] and loads it. *)
Definition load_kpgdir : M boot Z :=
  let* kpgdir := zoom page_lens setupkvm in
  modify (fun s => mkboot (b_shm s) (b_lapic s) (V2P kpgdir) (b_turns s) (b_up s)) ;;;
  ret kpgdir.

(** The calls of [main] that hand out memory; the result is [kpgdir]. *)
Definition main_memory (fuel : nat) : M boot Z :=
  zoom page_lens (kinit1 lk_end (P2V (4 * 1024 * 1024))) ;;;
  let* kpgdir := load_kpgdir in
  startothers fuel ;;;
  zoom page_lens (kinit2 (P2V (4 * 1024 * 1024)) (P2V PHYSTOP)) ;;;
  zoom shm_lens shminit ;;;
  ret kpgdir.

(** ** What holds during start-up *)

(** The page table [d] with tables [tabs] has exactly the mappings of [kmap];
    each page below [hi] is free, or part of that page table, or the stack of a
    processor, and only one of these; and no two stacks are the same page. *)
Record boot_inv (hi d : Z) (tabs : gmap Z Z) (stacks l : list Z) (k : kst) : Prop := {
  bi_dir : as_inv k l d tabs ∅;
  bi_map : forall va, 0 <= va < 4294967296 -> mapping (mem k) d va = kmaps kmap va;
  bi_part : forall q, page_ok q /\ q + PGSIZE <= hi <-> q ∈ l \/ vpage d tabs q \/ q ∈ stacks;
  bi_stack : forall p, p ∈ stacks -> (p ∉ l) /\ ~ vpage d tabs p;
  bi_nodup : NoDup stacks
}.

Lemma bi_kmem hi d tabs stacks l k : boot_inv hi d tabs stacks l k -> kmem_inv k l.
Proof. intros Hi. apply (bi_dir _ _ _ _ _ _ Hi). Qed.

(** The image of [entryother.S] is in place. *)
Definition image (m0 m : memory) : Prop :=
  forall i, 0 <= i < entryother_size -> load8 m (code + i) = load8 m0 (entryother_start + i).

Lemma boot_page_code hi d tabs stacks l k q : boot_inv hi d tabs stacks l k ->
  q ∈ l \/ vpage d tabs q -> KERNLINK < q.
Proof.
  intros Hi Hq. assert (page_ok q) as (_ & ? & _) by (apply (bi_part _ _ _ _ _ _ Hi); tauto).
  pose proof layout_data. lia.
Qed.

Lemma as_grow P s l pgdir tabs s' l' : as_inv s l pgdir tabs ∅ -> kmem_inv s' l' ->
  (forall q, vpage pgdir tabs q -> q ∉ l') -> frame P (mem s) (mem s') ->
  (forall q, vpage pgdir tabs q -> ~ P q) ->
  as_inv s' l' pgdir tabs ∅ /\
  forall va, 0 <= va < 4294967296 -> mapping (mem s') pgdir va = mapping (mem s) pgdir va.
Proof.
  intros [Hvm Hmap Hdom Hinj Hown] Hk Hd Hf HP. pose proof (vi_ok _ _ _ _ Hvm) as Ho.
  assert (forall va, 0 <= va < 4294967296 -> mapping (mem s') pgdir va = mapping (mem s) pgdir va) as Hm
    by (intros va Hva; eapply mapping_frame; [exact Ho|exact Hf|exact HP|exact Hva]).
  split; [|exact Hm]. split; [|..|by intros ??|by intros ??|by intros ??].
  - split; [done|eapply vm_ok_frame; [exact Ho|exact Hf|apply HP; by left]|exact Hd].
  - intros va Hva Hal. rewrite Hm by mlia. by apply Hmap.
Qed.

(** A write below the kernel changes none of it. *)
Lemma boot_low_write hi d tabs stacks l k k' : boot_inv hi d tabs stacks l k ->
  (forall a, KERNLINK <= a -> load8 (mem k') a = load8 (mem k) a) ->
  freelist k' = freelist k -> klocked k' = klocked k -> boot_inv hi d tabs stacks l k'.
Proof.
  intros Hi Hw Hf Hl.
  assert (forall q, q ∈ l \/ vpage d tabs q -> KERNLINK < q) as Hc
    by (intros q; by apply (boot_page_code _ _ _ _ _ _ _ Hi)).
  assert (frame (fun q => q < KERNLINK) (mem k) (mem k')) as Hfr.
  { intros a Ha. apply Hw. unfold page_of in Ha. mlia. }
  assert (kmem_inv k' l) as Hk'.
  { eapply kmem_frame; [exact (bi_kmem _ _ _ _ _ _ Hi)|exact Hfr| |done|done]. intros q Hq. specialize (Hc q (or_introl Hq)). cbv beta. lia. }
  destruct Hi as [Ha Hm Hp Hs Hn].
  destruct (as_grow (fun q => q < KERNLINK) k l d tabs k' l Ha Hk') as [Ha' Hm'].
  - apply (vi_disj _ _ _ _ (as_vm _ _ _ _ _ Ha)).
  - exact Hfr.
  - intros q Hq. specialize (Hc q (or_intror Hq)). cbv beta. lia.
  - split; [exact Ha'| |exact Hp|exact Hs|exact Hn]. intros va Hva. rewrite Hm' by done. by apply Hm.
Qed.

(** [kalloc] of a stack, while there are pages. *)
Lemma boot_kalloc hi d tabs stacks l k : boot_inv hi d tabs stacks l k -> (0 < length l)%nat ->
  wp kalloc (fun p k' => mem k' = mem k /\ exists l', boot_inv hi d tabs (stacks ++ [p]) l' k' /\ length l = S (length l')) k.
Proof.
  intros Hi Hlen. pose proof (bi_kmem _ _ _ _ _ _ Hi) as Hk. destruct Hi as [Ha Hm Hp Hs Hn]. eapply wp_kalloc; [exact Hk|..].
  - intros ->. cbn in Hlen. lia.
  - intros p l' k' -> Hok Hni Hk' ->. split; [done|]. exists l'. split; [|done].
    assert (~ vpage d tabs p) as Hv.
    { intros Hv. apply (vi_disj _ _ _ _ (as_vm _ _ _ _ _ Ha) p Hv). set_solver. }
    split; [|exact Hm|..].
    + eapply (as_frame (fun _ => False)); [exact Ha|exact Hk'|set_solver|done|tauto].
    + intros q. rewrite Hp, elem_of_cons, elem_of_app, list_elem_of_singleton. naive_solver.
    + intros q [Hq|Hq%list_elem_of_singleton]%elem_of_app; [|by subst q].
      destruct (Hs q Hq) as [Hql Hqv]. split; [set_solver|exact Hqv].
    + apply NoDup_app. split; [done|]. split; [|apply NoDup_singleton]. intros q Hq Hqp%list_elem_of_singleton. subst q.
      destruct (Hs p Hq). set_solver.
Qed.

(** ** The first pages and the kernel's page table *)

Lemma boot_kinit1 k : freelist k = 0 ->
  wp (kinit1 lk_end (P2V (4 * 1024 * 1024))) (fun _ k' =>
    (forall a, a < lk_end -> load8 (mem k') a = load8 (mem k) a) /\
    exists l, kmem_inv k' l /\ (forall q, page_ok q /\ q + PGSIZE <= 0x80400000 <-> q ∈ l) /\
      Z.of_nat (length l) = Z.max 0 ((0x80400000 - PGROUNDUP lk_end) / PGSIZE)) k.
Proof.
  intros Hf. pose proof layout_data as Hd. pose proof layout_end as He.
  change (P2V (4 * 1024 * 1024)) with 0x80400000.
  assert (PGROUNDUP lk_end mod PGSIZE = 0 /\ lk_end <= PGROUNDUP lk_end < lk_end + PGSIZE)
    as [Hal Hge] by (rewrite PGROUNDUP_eq by mlia; mlia).
  unfold kinit1. apply wp_bind, wp_modify, wp_bind, wp_modify.
  eapply wp_mono; [|apply (freerange_spec lk_end 0x80400000 []); try mlia].
  2:{ by intros p Hp%elem_of_nil. }
  2:{ split; [done|constructor|done]. }
  rewrite app_nil_r. intros [] k1 (Hi & _ & Hso). split.
  { intros a Ha. apply Hso. lia. }
  eexists. split; [exact Hi|]. split.
  - intros q. rewrite elem_of_reverse, pages_from_elem by done. unfold page_ok. mlia.
  - rewrite length_reverse. unfold pages_from. rewrite length_fmap, length_seqZ. lia.
Qed.

Lemma boot_setupkvm hi l k : kmem_inv k l -> (forall q, page_ok q /\ q + PGSIZE <= hi <-> q ∈ l) -> (65 < length l)%nat ->
  wp setupkvm (fun d k' =>
    (forall a, a < lk_end -> load8 (mem k') a = load8 (mem k) a) /\
    exists tabs l', boot_inv hi d tabs [] l' k' /\ (length l <= length l' + 65)%nat) k.
Proof.
  intros Hk Hp Hlen. assert (forall q, q ∈ l -> page_ok q) as Hok by (intros q Hq; by apply (Hp q)).
  eapply wp_setupkvm_count; [exact Hk|intros; lia|].
  intros d k' l' tabs Ha Hm How Hf Hsub Hc. split.
  { intros a Hal. apply Hf. intros Hq%Hok. destruct Hq as (_ & Hq & _). unfold page_of in Hq. mlia. }
  exists tabs, l'. split; [|done].
  split; [exact Ha|exact Hm| |by intros p ?%elem_of_nil|constructor].
  intros q. rewrite Hp, <- (How q), elem_of_nil. unfold owned. setoid_rewrite lookup_empty. naive_solver.
Qed.

(** [kinit2] adds the pages above the first four megabytes. *)
Lemma boot_kinit2 d tabs stacks l k : boot_inv 0x80400000 d tabs stacks l k ->
  wp (kinit2 (P2V (4 * 1024 * 1024)) (P2V PHYSTOP)) (fun _ k' => use_lock k' = true /\
    (forall a, a < KERNLINK -> load8 (mem k') a = load8 (mem k) a) /\
    exists l', boot_inv (KERNBASE + PHYSTOP) d tabs stacks l' k') k.
Proof.
  intros Hi0. pose proof (bi_kmem _ _ _ _ _ _ Hi0) as Hk. destruct Hi0 as [Ha Hm Hp Hs Hn]. pose proof layout_end as He.
  change (P2V (4 * 1024 * 1024)) with 0x80400000. change (P2V PHYSTOP) with (KERNBASE + PHYSTOP).
  assert (forall q, q ∈ l \/ vpage d tabs q \/ q ∈ stacks -> q + PGSIZE <= 0x80400000) as Hlow
    by (intros q Hq; by apply (Hp q)).
  unfold kinit2. apply wp_bind. eapply wp_mono; [|apply (freerange_spec 0x80400000 (KERNBASE + PHYSTOP) l); [mlia|mlia|mlia| |exact Hk]].
  2:{ intros p Hp'. left. apply Hlow. by left. }
  change (PGROUNDUP 0x80400000) with 0x80400000.
  intros [] k1 (Hi & _ & Hso). apply wp_modify. split; [done|]. split; [intros a Hal; apply Hso; mlia|].
  set (l' := _ ++ l) in Hi. exists l'.
  assert (forall q, q ∈ l' <-> (q mod PGSIZE = 0 /\ 0x80400000 <= q /\ q + PGSIZE <= KERNBASE + PHYSTOP) \/ q ∈ l) as Hl'
    by (intros q; unfold l'; by rewrite elem_of_app, elem_of_reverse, pages_from_elem).
  assert (forall q, vpage d tabs q \/ q ∈ stacks -> q ∉ l -> q ∉ l') as Hni.
  { intros q Hq Hql [Hq'|?]%Hl'; [|done]. specialize (Hlow q (or_intror Hq)). mlia. }
  assert (kmem_inv (set_use_lock true k1) l') as Hk' by (destruct Hi as [Hr Hnd Hkl]; split; [exact Hr|exact Hnd|done]).
  destruct (as_grow (fun q => 0x80400000 <= q) k l d tabs (set_use_lock true k1) l' Ha Hk') as [Ha' Hm'].
  { intros q Hq. apply Hni; [by left|]. by apply (vi_disj _ _ _ _ (as_vm _ _ _ _ _ Ha)). }
  { intros a Ha'. apply Hso. unfold page_of in Ha'. mlia. }
  { intros q Hq. specialize (Hlow q (or_intror (or_introl Hq))). cbv beta. mlia. }
  split; [exact Ha'| | | |exact Hn].
  - intros va Hva. rewrite Hm' by done. by apply Hm.
  - intros q. rewrite Hl'. split.
    + intros [Hq Hh]. destruct (decide (q + PGSIZE <= 0x80400000)) as [Hq4|Hq4].
      * destruct (proj1 (Hp q) (conj Hq Hq4)) as [?|?]; [left; by right|by right].
      * left; left. unfold page_ok in Hq. mlia.
    + intros [[Hq|Hq]|Hq]; [unfold page_ok; mlia|..].
      all: destruct (proj2 (Hp q) ltac:(tauto)) as [Hok _]; split; [exact Hok|apply Hok].
  - intros p Hps. destruct (Hs p Hps) as [Hpl Hpv]. split; [|exact Hpv]. apply Hni; [by right|done].
Qed.

(** ** The other processors *)

(** Memory when a processor is told to start. *)
Definition prepared (stack : Z) (m : memory) : memory :=
  store16 (store16 (store32 (store32 (store32 m (code - 4) (u32 (stack + KSTACKSIZE))) (code - 8) mpenter)
    (code - 12) (V2P entrypgdir)) (P2V 0x467) 0) (P2V 0x467 + 2) (V2P code / 16).

Lemma prepared_high stack m a : code <= a -> load8 (prepared stack m) a = load8 m a.
Proof.
  change code with 0x80007000. intros Ha. unfold prepared. change (P2V 0x467) with 0x80000467. change code with 0x80007000.
  by rewrite !load8_store16_ne, !load8_store32_ne by lia.
Qed.

(** What [startothers] has a processor do. *)
Definition up (c stack : Z) : ap := mkap (apicid c) (V2P entrypgdir) (u32 (stack + KSTACKSIZE)) mpenter.

Lemma prepared_entry c stack m : 0 <= mpenter < 4294967296 ->
  entryother (apicid c) (prepared stack m) code = up c stack.
Proof.
  intros He. unfold entryother, prepared, up. change (P2V 0x467) with 0x80000467. change code with 0x80007000.
  rewrite !load32_store16_ne by lia. rewrite load32_store32_eq.
  rewrite !(load32_store32_ne _ (0x80007000 - 12)), load32_store32_eq by lia.
  rewrite (load32_store32_ne _ (0x80007000 - 8)), load32_store32_eq by lia.
  unfold V2P. by rewrite !u32_u32, (u32_small mpenter) by done.
Qed.

Lemma startup_sent id cmds :
  startup_page id ([(id, Lapic.STARTUP + V2P code / 4096); (id, Lapic.STARTUP + V2P code / 4096);
    (id, Lapic.INIT + Lapic.LEVEL); (id, Lapic.INIT + Lapic.LEVEL + Lapic.ASSERT)] ++ cmds) = Some code.
Proof. unfold startup_page. cbn [app list_find]. by rewrite decide_True. Qed.

(** The wait ends when the processor is up. *)
Lemma wp_wait_up c n (Q : unit -> boot -> Prop) : forall fuel s, b_turns s c = n -> (n < fuel)%nat ->
  startup_page (apicid c) (Lapic.commands (b_lapic s)) = Some code ->
  (forall t, (forall i, (t i <= b_turns s i)%nat) ->
     Q tt (mkboot (b_shm s) (b_lapic s) (b_cr3 s) t (b_up s ++ [entryother (apicid c) (mem (km (b_shm s))) code]))) ->
  wp (iter fuel (fun _ : unit => let* v := started c in ret (if v =? 0 then inl tt else inr tt)) tt) Q s.
Proof.
  induction n as [|n IH]; intros fuel s Ht Hf Hs HQ; (destruct fuel as [|fuel]; [lia|]); simpl;
    apply wp_bind, wp_bind; unfold wp at 1, started; rewrite Hs, Ht; apply wp_ret; cbn.
  - apply wp_ret, HQ. lia.
  - apply IH; cbn; [by rewrite Z.eqb_refl|lia|done|]. intros t Hle. apply HQ. intros i. specialize (Hle i).
    cbn in Hle. destruct (decide (i = c)) as [->|Hne]; [rewrite Z.eqb_refl in Hle; lia|]. by rewrite (proj2 (Z.eqb_neq _ _) Hne) in Hle.
Qed.

(** The processors to start among the first [c]. *)
Definition others (c : Z) : list Z := filter (fun i => i <> me) (seqZ 0 c).

Lemma others_snoc c : 0 <= c -> others (c + 1) = others c ++ (if c =? me then [] else [c]).
Proof.
  intros Hc. unfold others. rewrite seqZ_app by lia. rewrite filter_app. f_equal. change (seqZ (0 + c) 1) with [0 + c]. rewrite Z.add_0_l, filter_cons, filter_nil.
  case_decide; [by rewrite (proj2 (Z.eqb_neq _ _))|]. replace (c =? me) with true by lia. done.
Qed.

(** After the first [c] processors. *)
Record started_inv (m0 : memory) (sh0 : shst) (cr3 d : Z) (tabs : gmap Z Z) (fuel : nat) (c : Z) (stacks l : list Z) (s : boot) : Prop := {
  st_boot : boot_inv 0x80400000 d tabs stacks l (km (b_shm s));
  st_image : image m0 (mem (km (b_shm s)));
  st_shm : b_shm s = set_km (km (b_shm s)) sh0;
  st_up : b_up s = zip_with up (others c) stacks;
  st_len : length stacks = length (others c);
  st_turns : forall i, (b_turns s i < fuel)%nat;
  st_room : ncpu - c <= Z.of_nat (length l);
  st_cr3 : b_cr3 s = cr3
}.

Context (Hids : forall i, 0 <= i < ncpu -> 0 <= apicid i < 256).
Context (Henter : 0 <= mpenter < 4294967296).

Lemma wp_start_cpu m0 sh0 cr3 d tabs fuel c stacks l s : 0 <= c < ncpu ->
  started_inv m0 sh0 cr3 d tabs fuel c stacks l s ->
  wp (start_cpu fuel c) (fun _ s' => exists stacks' l', started_inv m0 sh0 cr3 d tabs fuel (c + 1) stacks' l' s') s.
Proof.
  intros Hc [Hb Him Hsh Hup Hlen Ht Hrm Hcr]. unfold start_cpu. pose proof (others_snoc c ltac:(lia)) as Ho.
  destruct (c =? me) eqn:Hme.
  { apply wp_ret. exists stacks, l. rewrite app_nil_r in Ho. split; rewrite ?Ho; try done. lia. }
  apply wp_bind, wp_zoom. eapply wp_mono; [|exact (boot_kalloc _ _ _ _ _ _ Hb ltac:(lia))].
  intros stack k1 (Hm1 & l1 & Hb1 & Hl1). do 3 (apply wp_bind, wp_zoom, wp_modify).
  apply wp_bind, wp_zoom. eapply wp_mono; [|apply Lapic.lapicstartap_commands; [by apply Hids|by vm_compute]].
  cbn. intros [] a (Hcmd & _ & Hram). rewrite Hm1 in Hram.
  apply (wp_wait_up c (b_turns s c)); [done|apply Ht|cbn; rewrite Hcmd; apply startup_sent|].
  intros t Hle. exists (stacks ++ [stack]), l1.
  assert (Lapic.ram a = prepared stack (mem (km (b_shm s)))) as Hr by exact Hram. clear Hram Hcmd.
  cbn in Hle |- *. split; cbn.
  - eapply boot_low_write; [exact Hb1| |done|done]. intros x Hx. cbn. rewrite Hr, Hm1.
    apply prepared_high. change code with 0x80007000. mlia.
  - intros i Hi. rewrite Hr, prepared_high by lia. by apply Him.
  - by rewrite Hsh.
  - rewrite Hr, prepared_entry by done. rewrite Hup, Ho, zip_with_app by done. done.
  - rewrite Ho, !length_app, Hlen. done.
  - intros i. specialize (Hle i). specialize (Ht i). lia.
  - lia.
  - done.
Qed.

(** [startothers], from a state with no stacks yet. *)
Lemma wp_startothers m0 d tabs l fuel s : 0 <= ncpu -> 0 <= entryother_size <= KERNLINK - code ->
  (forall i, 0 <= i < entryother_size -> load8 (mem (km (b_shm s))) (entryother_start + i) = load8 m0 (entryother_start + i)) ->
  boot_inv 0x80400000 d tabs [] l (km (b_shm s)) -> b_up s = [] -> (forall i, (b_turns s i < fuel)%nat) ->
  ncpu <= Z.of_nat (length l) ->
  wp (startothers fuel) (fun _ s' => exists stacks l',
    started_inv m0 (b_shm s) (b_cr3 s) d tabs fuel ncpu stacks l' s') s.
Proof.
  intros Hn Hsz Hsrc Hb Hup Ht Hrm. unfold startothers. apply wp_bind, wp_zoom, wp_modify.
  apply (wp_for_up (fun c s' => exists stacks l', started_inv m0 (b_shm s) (b_cr3 s) d tabs fuel c stacks l' s')).
  - exists [], l. split; cbn; try done; [| |lia].
    + eapply boot_low_write; [exact Hb| |done|done]. intros a Ha. cbn.
      rewrite StringC.memmove_spec by lia. by rewrite decide_False by lia.
    + intros i Hi. rewrite StringC.memmove_spec, decide_True by lia. rewrite <- Hsrc by done. f_equal. lia.
  - intros c s' Hc (stacks & l' & Hs). by apply (wp_start_cpu _ _ _ _ _ _ _ stacks l').
  - intros s'. by rewrite Z.max_r.
Qed.

Lemma empty_table a : tab_inv a (-1) ∅.
Proof.
  split; [unfold SHMMAXSEG; lia|by intros ??|by intros ????|by intros ?????|lia|by intros ???????].
Qed.

(** C37: The memory-management part of [main] ends, and leaves the state the
    other components assume, when the kernel leaves room below four megabytes
    for its page table (66 pages are enough) and a stack for each processor.
    The page table in [kpgdir] has exactly the mappings of [kmap] and is the one
    loaded in [%cr3]; the free list, the pages of that table and the stacks of
    the other processors are disjoint and together are all the pages from the
    end of the kernel to [PHYSTOP]; the shared-memory table is empty and
    satisfies its invariant; the code of [entryother.S] is at 0x7000; and every
    processor but the one that runs [main] has come up, in order, with
    [entrypgdir] as its directory, in [mpenter], at the top of a page that is its
    stack and no other processor's. *)
Theorem main_memory_boots s fuel : 0 <= ncpu -> 0 <= entryother_size <= KERNLINK - code ->
  entryother_start + entryother_size <= lk_end -> PGROUNDUP lk_end + PGSIZE * (66 + ncpu) <= 0x80400000 ->
  freelist (km (b_shm s)) = 0 -> lastShmSegIndex (b_shm s) = -1 -> b_up s = [] ->
  (forall i, (b_turns s i < fuel)%nat) ->
  wp (main_memory fuel) (fun kpgdir s' => exists tabs stacks l,
    boot_inv (KERNBASE + PHYSTOP) kpgdir tabs stacks l (km (b_shm s')) /\ shm_inv (b_shm s') l ∅ /\
    use_lock (km (b_shm s')) = true /\ b_cr3 s' = V2P kpgdir /\
    image (mem (km (b_shm s))) (mem (km (b_shm s'))) /\
    b_up s' = zip_with up (others ncpu) stacks /\ length stacks = length (others ncpu)) s.
Proof.
  intros Hn Hsz Hst Hroom Hf Hlast Hup Ht. unfold main_memory, load_kpgdir.
  apply wp_bind, wp_zoom. eapply wp_mono; [|exact (boot_kinit1 _ Hf)]. intros [] k1 (Hm1 & l1 & Hk1 & Hp1 & Hl1).
  assert (66 + ncpu <= Z.of_nat (length l1)) as Hlen by (rewrite Hl1; mlia).
  apply wp_bind, wp_bind, wp_zoom. eapply wp_mono; [|exact (boot_setupkvm _ _ _ Hk1 Hp1 ltac:(lia))].
  intros d k2 (Hm2 & tabs & l2 & Hb2 & Hl2). apply wp_bind, wp_modify, wp_ret, wp_bind.
  eapply wp_mono; [|eapply (wp_startothers (mem (km (b_shm s))) d tabs l2 fuel); [exact Hn|exact Hsz| |exact Hb2|exact Hup|exact Ht|lia]].
  2:{ intros i Hi. cbn. cbn in Hm2. by rewrite Hm2, Hm1 by lia. }
  intros [] s3 (stacks & l3 & [Hb3 Him Hsh Hu Hlen3 _ _ Hcr]).
  apply wp_bind, wp_zoom. eapply wp_mono; [|exact (boot_kinit2 _ _ _ _ _ Hb3)].
  intros [] k4 (Hul & Hm4 & l4 & Hb4). apply wp_bind, wp_zoom, wp_modify, wp_ret.
  exists tabs, stacks, l4. cbn. split; [exact Hb4|]. split.
  { split; cbn; [apply (bi_kmem _ _ _ _ _ _ Hb4)|done| |by intros q (? & ? & ? & _)]. rewrite Hsh. cbn. rewrite Hlast. apply empty_table. }
  split; [exact Hul|]. split; [exact Hcr|]. split; [|done].
  intros i Hi. cbn in Hm4. rewrite Hm4 by lia. by apply Him.
Qed.

End Main.

(** A machine with two processors at power-on. *)
Definition powered_on : boot :=
  mkboot (mkshst (mkkst false false 0 ∅ []) false ∅ (-1) 0 0 (mkdate 0 0 0 0) (mkdate 0 0 0 0) 0 (mkshproc 0 0 ∅))
    (Lapic.mklapic 0xFEE00000 ∅ 0 [] [] ∅) 0 (fun _ => 3%nat) [].

Lemma main_memory_boots_witness :
  wp (@main_memory sample_layout 0x80103000 0x80109000 0x8010a48c 0x8a 2 0 (fun c => c) 0 4) (fun kpgdir s' => exists tabs stacks l,
    @boot_inv sample_layout (KERNBASE + PHYSTOP) kpgdir tabs stacks l (km (b_shm s')) /\ @shm_inv sample_layout (b_shm s') l ∅ /\
    use_lock (km (b_shm s')) = true /\ b_cr3 s' = V2P kpgdir /\
    image 0x8010a48c 0x8a (mem (km (b_shm powered_on))) (mem (km (b_shm s'))) /\
    b_up s' = zip_with (up 0x80103000 0x80109000 (fun c => c)) (others 0 2) stacks /\ length stacks = length (others 0 2)) powered_on.
Proof.
  refine (@main_memory_boots sample_layout 0x80103000 0x80109000 0x8010a48c 0x8a 2 0 (fun c => c) 0 _ _ powered_on 4 _ _ _ _ _ _ _ _).
  - intros i Hi. lia.
  - lia.
  - lia.
  - change (KERNLINK - code) with 0xf9000. lia.
  - cbn [lk_end sample_layout]. lia.
  - apply Z.leb_le. vm_compute. reflexivity.
  - reflexivity.
  - reflexivity.
  - reflexivity.
  - intros i. cbn. lia.
Defined.
